(* ===== verification/_CoqProject ===== *)
-Q . S2P
Prelude.v
GoStrings.v
GoTime.v
GoNet.v
GoList.v
Deploy.v
Dependency.v
Kahn.v
Validate.v
ValidateSpec.v
Meta.v
GoText.v
Placement.v
Fsm.v
FsmSpec.v
RaftService.v
RaftSpec.v
RaftMembers.v
Vpn.v
VpnSpec.v
TaskBase.v
TaskRun.v
TaskDeploy.v
TaskOps.v
TaskViews.v
TaskFrame.v
TaskSpec.v
TaskLoops.v
TaskPorts.v
TaskOrder.v
TaskOpsSpec.v
TaskConverge.v
TaskSubmitSpec.v
Dns.v
DnsSpec.v
Ingress.v
IngressSpec.v
Gossip.v
GossipSpec.v
Compose.v
ComposeSpec.v
Runtime.v
RuntimeSpec.v
ProcessRuntime.v
ProcessRuntimeSpec.v
GoFloat.v
OrchDsl.v
OrchDslSpec.v
OrchSchema.v
Effects.v
Docker.v
DockerSpec.v
Containerd.v
ContainerdSpec.v
Systemd.v
SystemdSpec.v
Firecracker.v
WindowsService.v
Config.v
HostDns.v
TaskInspect.v
ApiServer.v
ApiReads.v
HttpServer.v
ApiClient.v
ApiRouting.v
ApiSpec.v
CliView.v
Cli.v
CliSpec.v
Concrete.v
ApiConcrete.v
DocumentTheorems.v
StateTheorems.v
TaskTheorems.v
NetworkTheorems.v
HostTheorems.v
ContainerTheorems.v
ApiTheorems.v
CliTheorems.v
