(* ===== verification/Prelude.v ===== *)
(** * orch: a verification library for the orch control plane

    orch is a small container orchestrator.  A user submits an application document; the
    document is validated and replicated through Raft; every node reconciles the desired
    documents with the workloads that run, placing each workload on a node and starting it
    there through a container, machine or process runtime.  Operators stop, start, restart,
    delete, roll back, migrate, fail over and rebalance applications, over an HTTP API whose
    writes the followers forward to the leader.  DNS, ingress and a VPN make workloads
    reachable; gossip discovers nodes.

    ** The program's parts and the files that model them

    What the source uses of its language and of small packages:
    - Prelude (this file): errors and results, the loops of the source, int64 and uint64
      wrap-around, tactics.
    - GoStrings, GoTime, GoNet, GoList, GoText, GoFloat: [strings], [strconv] (with
      [ParseFloat]), [time.ParseDuration], [net.ParseIP], [net.ParseMAC], host and port,
      stable sorting, [path.Clean], [filepath], [url.PathEscape], on all byte strings.
    - Effects: code that changes state and fails, a program logic for it, bounded retries and
      polling (package backoff), state files.

    The document (internal/deploy):
    - Deploy: v1alpha1 types, defaults, generation, references.  Dependency: dependency.go,
      with the third-party graph package as the class [GraphLib] with the laws [GraphLaws],
      which Kahn meets.  Validate and ValidateSpec: validate*.go and the declarative
      description [valid_app].  Meta: workloadmeta, volumemeta, runtime/runconfig.
    - OrchDsl, OrchDslSpec, OrchSchema: the .orch language (deploy/orch), its registered
      forms, its lowering, and the manifest loader (deploy/loader).  Compose, ComposeSpec: the
      import of Compose projects (deploy/composeimport).

    The replicated state (internal/raftsvc, internal/placement, internal/nodecapacity):
    - Placement: the choice of a node, with CPU percentages as IEEE float64.
    - Fsm, FsmSpec: the state machine, its abstract operations, the history of an application
      and the invariant [fsm_inv]; encoding/json is the class [Codec] with [CodecLaws].
    - RaftService, RaftSpec: proposals, writes, listings, bootstrap, identity.  RaftMembers:
      membership, status, start and stop, the target of forwarded writes, with their lemmas.
      Dragonboat is the record [NodeHost] of its answers, with [propose_ok].

    The task service (internal/services):
    - TaskBase, TaskRun, TaskDeploy, TaskOps, TaskViews, TaskInspect: services/task and
      services/registry.  A handler is a state-passing program ([M]) over [TaskState]: the
      service's own tables, the Raft service it writes through, and the trace of calls made to
      the outside.  What the outside answers is the class [World]: every answer is an
      arbitrary function of the whole trace so far.
    - TaskLoops: the reconcile and recovery loops, their starts and stops, as goroutines of a
      step relation over that service.
    - TaskFrame, TaskSpec, TaskPorts, TaskOrder, TaskOpsSpec, TaskConverge, TaskSubmitSpec:
      lemmas.  [Frame R m] says that the program [m] relates its states by
      [R]; [observes] says which of its outside calls are seen in which order; [serve] runs
      any sequence of requests.

    The settings (internal/config, nodeid, scheduler, hostdns):
    - Config: defaults, data directories, flags and their overlay on what was loaded, the
      identity of a node, the scheduler's intervals.  HostDns: the managers of the host's
      resolver and the host-dns action of cmd/orch-server.

    The network (internal/orchvpn, dnssvc, ingress, gossipsvc):
    - Vpn, VpnSpec: the encapsulation, the gateway, the packet pumps, and the workstation
      daemon whose forwarders are threads of a step relation.  Dns, DnsSpec.  Ingress,
      IngressSpec.  Gossip, GossipSpec.

    The runtimes (internal/runtime):
    - Runtime, RuntimeSpec: detection, registration, dispatch, local volumes, log tails.
    - ProcessRuntime, ProcessRuntimeSpec: processes, with every interleaving of the calls and
      of the goroutines that wait, one system call a step.
    - Docker, DockerSpec (Docker and Podman), Containerd, ContainerdSpec, Systemd,
      SystemdSpec, Firecracker, WindowsService: drivers of an engine, a CRI service, the
      system manager, the Firecracker SDK and the service control manager, each a parameter:
      a state with the calls the driver makes, which may all fail, and a class of laws with
      what is documented of them.

    The API and its clients (internal/api, workerapi, httpserver, security/auth, apiclient,
    cmd/orch-cli):
    - ApiServer: contracts, paths, the writing handlers and the leader forwarder.  ApiReads:
      the reading handlers, the worker, membership and system endpoints.  HttpServer: the
      route table and the guard.  ApiClient: the client.  ApiRouting: the calls of the API as
      a type, and the proof that the route table sends each to its operation.  ApiSpec:
      lemmas.
    - CliView, Cli, CliSpec: what the command-line tool prints, its commands, waits and
      watches.

    Concrete and ApiConcrete have executable instances of all interfaces and example
    documents.  DocumentTheorems, StateTheorems, TaskTheorems, NetworkTheorems, HostTheorems,
    ContainerTheorems, ApiTheorems and CliTheorems state the properties, each with an
    instance that shows its hypotheses can hold.

    ** What the theorems show

    - The document: dependency order is sound and complete and reports cycles; validation
      accepts only well-formed documents, and all of them when no dependency is repeated;
      placement is optimal and complete on a catalog with nodes; assignment
      keys identify workloads, container names do not; CPU quotas are exact until they
      overflow; every document of the language lowers back to itself.
    - The replicated state: an invariant after every log; last writer wins; the revision list
      refines the full history of an application; snapshots commute with replay; a write that
      is reported as done is visible; followers refuse writes; bootstrap targets and replica
      ids; deterministic listings.
    - The task service: through any sequence of requests the invariant of the state holds,
      stored documents stay valid and host ports disjoint; stop and start order; idempotence and
      convergence of deployments; rollback and the guards of automatic rollback; the exact calls
      of moves, which stop before they start; limits of restarts and
      probes; selection of workloads and nodes; late failures; views.  In every interleaving of the
      background loops at most one is in charge, a stop that succeeds ends them, no signal is
      lost, and what they do is what a sequence of requests does.
    - The network: frames round trip and nothing else decodes; at most one forwarder in every
      interleaving, and the tunnel follows the poll; the DNS table refines a map
      while DNS is enabled and open, and registered workloads resolve; routing on whole path
      elements, the same directly and through another node; membership and discovery.
    - The settings: a flag that was given decides its own setting and no other; a node has an
      identity; jobs have positive intervals; installing and removing the host's resolver
      configuration round trips with the reported status.
    - The host: imports of Compose projects validate; a process is tracked in every
      non-overlapping run whose signals are delivered; engines keep what belongs to others;
      deploys leave what they promise or undo it as far as removals are not refused; stops end
      deploys; command lines survive quoting; a table of
      machines empties; log tails.
    - The API: a write is done in one place, on the node itself when it leads or its Raft is
      not ready and at the leader its status names otherwise, and a forwarded one has that
      server's answer;
      guarded operations need a token; the client gets the handler's answer; a ready node can
      route.  The command line: a watch that succeeds means that the document runs, a local
      validation of a YAML manifest decides what the server decides first.
    - Theorems whose comments say so show where the code does not do what it means to.

    ** Modelling choices

    - Go's [int], [int64], [uint64] are [Z], wrapped where the code computes; maps are [gmap]
      and a nil map is the empty one; a pointer that may be nil is an [option]; times are [Z]
      (nanoseconds, 0 the zero time).
    - Errors keep their format and arguments; their text is a parameter ([w_errorText]).
    - Methods on nil receivers, missing services (a nil Raft service or catalog), logging and
      metrics are left out; contexts and deadlines appear as answers of the outside.
    - A handler of the task service or a call of a driver runs without interleaving; [serve]
      interleaves requests, and the pieces of a health monitor can be separate requests.  The
      background loops, the process runtime, the Raft service's life cycle and the VPN daemon
      are step relations.
    - Third-party code is a parameter, with what the code relies on as laws: Dragonboat,
      engines and managers, the HTTP framework and client, JSON, JWT, memberlist, the DNS
      store, the proxy, the compiler of the language and its struct mapper, backoff, cobra,
      the layout of tables.  The laws say what is documented: an engine's or CRI service's call
      that fails may still have taken effect, removals and kills can be refused, and JSON gives
      back a command or a listing only where a theorem asks it of that value
      ([representable], [writes_representable], [faithful]).
    - Fuel: [parse_groups] (one unit per byte, [parse_groups_fuel]), UTF-8 decoding and
      [Quote] (one unit per byte), IPv6 parsing, Kahn's algorithm (one per node,
      [kahn_complete]), [bytes_unit] (six rounds, enough below 2^64, [bytes_unit_enough]).
      [tries] takes the limit of attempts the source gives.  The liveness loop of a monitor
      runs forever in the source; [liveness_rounds] takes the number of rounds and says when
      it is still running.

    ** What is not modelled

    The merge of configuration files, environment and flags (package configx, a parameter);
    the bodies of the scheduler's jobs; collecting host information, diagnostics snapshots,
    metrics, logging and the language server, which are made of third-party calls; sockets and
    devices of the VPN; flag wiring and the progress display of the command line; the main
    functions that wire the components. *)
From stdpp Require Import base strings numbers gmap list.

(** ** Errors and results

    Go errors in orch are built by [oopsx.B(...).Errorf] / [Wrapf] (a wrapper of a
    third-party package) and by [fmt.Errorf].  The format string and its arguments are
    kept as data; the text that [err.Error()] renders from them is a parameter of the
    components that store it. *)
Inductive arg : Type :=
| AStr (s : string)
| AInt (z : Z).

Definition ANat (n : nat) : arg := AInt (Z.of_nat n).

Inductive error : Type :=
| Errorf (fmt : string) (args : list arg)
| Wrapf (cause : error) (fmt : string) (args : list arg).

#[export] Instance arg_eq_dec : EqDecision arg.
Proof. solve_decision. Defined.

#[export] Instance error_eq_dec : EqDecision error.
Proof. solve_decision. Defined.

(** A Go result [(value, error)] with [error == nil] iff [Ok]. *)
Inductive res (A : Type) : Type :=
| Ok (a : A)
| Err (e : error).
Arguments Ok {A} a.
Arguments Err {A} e.

#[export] Instance res_ret : MRet res := fun A a => Ok a.
#[export] Instance res_bind : MBind res := fun A B f m =>
  match m with Ok a => f a | Err e => Err e end.

(** [if err := m; err != nil { return Wrapf(err, fmt, args) }] *)
Definition wrap {A} (fmt : string) (args : list arg) (m : res A) : res A :=
  match m with Ok a => Ok a | Err e => Err (Wrapf e fmt args) end.

Definition is_ok {A} (m : res A) : bool :=
  match m with Ok _ => true | Err _ => false end.

(** [if bad { return err }] *)
Definition guard_err (bad : bool) (e : error) : res unit :=
  if bad then Err e else Ok tt.

Create HintDb orch.
Create Rewrite HintDb orch.

Section results.
Context {A B : Type}.

Lemma res_bind_ok (m : res A) (f : A → res B) b :
  m ≫= f = Ok b ↔ ∃ a, m = Ok a ∧ f a = Ok b.
Proof. destruct m; cbn; naive_solver. Qed.

Lemma wrap_ok fmt args (m : res A) a : wrap fmt args m = Ok a ↔ m = Ok a.
Proof. destruct m; cbn; naive_solver. Qed.

Lemma guard_err_ok bad e : guard_err bad e = Ok tt ↔ bad = false.
Proof. destruct bad; cbn; naive_solver. Qed.
End results.

Lemma res_seq_ok {A} (m : res unit) (k : unit → res A) a :
  m ≫= k = Ok a ↔ m = Ok tt ∧ k tt = Ok a.
Proof. rewrite res_bind_ok. split; [intros ([] & ? & ?) | intros [? ?]]; eauto. Qed.

Lemma res_unit_cases (m : res unit) : m = Ok tt ∨ ∃ e, m = Err e.
Proof. destruct m as [[]|e]; eauto. Qed.

(** ** The loops of the source

    [xs.Range(func(i, x) bool)] with an error captured in a closure: the loop calls [f]
    on each element in order and stops at the first error. *)
Fixpoint range_err_from {A} (f : nat → A → res unit) (i : nat) (l : list A) : res unit :=
  match l with
  | [] => Ok tt
  | x :: l' => _ ← f i x; range_err_from f (S i) l'
  end.

Definition range_err {A} (f : nat → A → res unit) (l : list A) : res unit :=
  range_err_from f 0 l.

(** The same loop with a state threaded through the calls. *)
Fixpoint range_fold_from {S A} (f : nat → S → A → res S) (i : nat) (s : S) (l : list A) : res S :=
  match l with
  | [] => Ok s
  | x :: l' => s' ← f i s x; range_fold_from f (Datatypes.S i) s' l'
  end.

Definition range_fold {S A} (f : nat → S → A → res S) (s : S) (l : list A) : res S :=
  range_fold_from f 0 s l.

Section range_lemmas.
Context {A : Type}.

Lemma range_err_from_ok (f : nat → A → res unit) i l :
  range_err_from f i l = Ok tt ↔ ∀ k x, l !! k = Some x → f (i + k) x = Ok tt.
Proof.
  revert i. induction l as [|y l IH]; intros i; cbn [range_err_from].
  { split; [intros _ k x Hk; by rewrite lookup_nil in Hk | done]. }
  rewrite res_seq_ok, IH. split.
  - intros [Hy Hl] [|k] x Hx; cbn in Hx; simplify_eq.
    + by rewrite Nat.add_0_r.
    + specialize (Hl k x Hx). by rewrite Nat.add_succ_comm in Hl.
  - intros H. split.
    + specialize (H 0 y eq_refl). by rewrite Nat.add_0_r in H.
    + intros k x Hx. rewrite Nat.add_succ_comm. by apply H.
Qed.

Lemma range_err_ok (f : nat → A → res unit) l :
  range_err f l = Ok tt ↔ ∀ k x, l !! k = Some x → f k x = Ok tt.
Proof. unfold range_err. by rewrite range_err_from_ok. Qed.

(** When the body's verdict does not depend on the index. *)
Lemma range_err_Forall (f : nat → A → res unit) (P : A → Prop) l :
  (∀ k x, f k x = Ok tt ↔ P x) →
  range_err f l = Ok tt ↔ Forall P l.
Proof.
  intros Hf. rewrite range_err_ok, Forall_lookup.
  by setoid_rewrite Hf.
Qed.
End range_lemmas.

(** An invariant of a threaded loop, over the elements already visited. *)
Lemma range_fold_inv_at {S A} (P : list A → S → Prop) (f : nat → S → A → res S) s l s' :
  P [] s →
  (∀ before x st st', P before st → x ∈ l → f (length before) st x = Ok st' → P (before ++ [x]) st') →
  range_fold f s l = Ok s' → P l s'.
Proof.
  intros Hi Hstep. unfold range_fold.
  enough (H : ∀ rest before st i, before ++ rest = l → i = length before → P before st →
    range_fold_from f i st rest = Ok s' → P l s').
  { apply (H l []); done. }
  induction rest as [|x rest IH]; intros before st i Hl -> HP; cbn [range_fold_from].
  - intros [= <-]. rewrite app_nil_r in Hl. by subst.
  - rewrite res_bind_ok. intros (st' & Hf & Hr).
    apply (IH (before ++ [x]) st' (Datatypes.S (length before))); [by rewrite <-app_assoc| | |done].
    + rewrite length_app. cbn. lia.
    + eapply Hstep; [done| |done]. subst l. apply elem_of_app. right. left.
Qed.

Lemma range_fold_inv {S A} (P : list A → S → Prop) (f : nat → S → A → res S) s l s' :
  P [] s →
  (∀ before x st st' i, P before st → x ∈ l → f i st x = Ok st' → P (before ++ [x]) st') →
  range_fold f s l = Ok s' → P l s'.
Proof. intros Hi Hstep. apply range_fold_inv_at; eauto. Qed.

(** ** Machine integers *)
Definition max_int64 : Z := 9223372036854775807.
Definition min_int64 : Z := -9223372036854775808.
Definition max_uint64 : Z := 18446744073709551615.

(** Two's complement wrap-around of int64 and uint64 arithmetic. *)
Definition wrap_int64 (z : Z) : Z := (z + 2 ^ 63) `mod` 2 ^ 64 - 2 ^ 63.
Definition wrap_uint64 (z : Z) : Z := z `mod` 2 ^ 64.

Lemma wrap_int64_small z : (min_int64 ≤ z ≤ max_int64)%Z → wrap_int64 z = z.
Proof.
  unfold min_int64, max_int64, wrap_int64. intros H.
  rewrite Z.mod_small; lia.
Qed.

Lemma wrap_int64_range z : (min_int64 ≤ wrap_int64 z ≤ max_int64)%Z.
Proof.
  unfold min_int64, max_int64, wrap_int64.
  pose proof (Z.mod_pos_bound (z + 2 ^ 63) (2 ^ 64) ltac:(lia)). lia.
Qed.

(** ** Association with the last [n] elements *)
Definition lastn {A} (n : nat) (l : list A) : list A := drop (length l - n) l.

Section lastn_lemmas.
Context {A : Type}.
Implicit Types l : list A.

Lemma lastn_short n l : length l ≤ n → lastn n l = l.
Proof. intros H. unfold lastn. by replace (length l - n) with 0 by lia. Qed.

Lemma length_lastn n l : length (lastn n l) = Nat.min n (length l).
Proof. unfold lastn. rewrite length_drop. lia. Qed.

Lemma lastn_snoc_lastn n l x : lastn n (lastn n l ++ [x]) = lastn n (l ++ [x]).
Proof.
  destruct (decide (length l ≤ n)) as [Hle|Hgt].
  { by rewrite (lastn_short n l). }
  unfold lastn at 1 3. rewrite !length_app, length_lastn. cbn [length].
  destruct n as [|n].
  { rewrite !drop_ge; [done| |]; rewrite ?length_app, ?length_lastn; cbn; lia. }
  unfold lastn. rewrite !drop_app_le; [|lia|rewrite length_drop; lia].
  rewrite drop_drop. do 2 f_equal. lia.
Qed.

Lemma last_lastn n l : 0 < n → list.last (lastn n l) = list.last l.
Proof.
  intros Hn. unfold lastn. rewrite !last_lookup, length_drop, lookup_drop.
  destruct l as [|x l]; [done|]. f_equal. cbn [length]. lia.
Qed.
End lastn_lemmas.

(** ** Tactics

    [res_ok] decomposes a hypothesis saying that a chain of fallible calls succeeded;
    [case_res] destructs the result a goal or hypothesis is stuck on. *)
Ltac res_ok H :=
  repeat first
    [ rewrite res_seq_ok in H
    | rewrite wrap_ok in H
    | rewrite guard_err_ok in H ].

Ltac case_res :=
  match goal with
  | |- context [match ?m with Ok _ => _ | Err _ => _ end] => destruct m eqn:?
  | H : context [match ?m with Ok _ => _ | Err _ => _ end] |- _ => destruct m eqn:?
  end.
