(* ===== verification/GoStrings.v ===== *)
(** * Go strings

    Go strings are byte sequences; [string] is a sequence of 8-bit [ascii].  This file
    models the functions of package [strings] (and [strconv], [utf8]) that orch calls,
    on all byte sequences, including those that are not valid UTF-8. *)
From stdpp Require Import base strings numbers pretty list.
From Stdlib Require Import Ascii.
From Stdlib Require String.
#[local] Open Scope list_scope.
From S2P Require Import Prelude.

Abbreviation bytes_of := String.list_ascii_of_string.
Abbreviation of_bytes := String.string_of_list_ascii.

Definition byte_val (a : ascii) : N := N_of_ascii a.

(** ** unicode.IsSpace, on the UTF-8 encodings

    A white-space rune is encoded on one byte (TAB, LF, VT, FF, CR, space), two bytes
    (U+0085, U+00A0) or three bytes (U+1680, U+2000..U+200A, U+2028, U+2029, U+202F,
    U+205F, U+3000). *)
Definition ws1 (a : ascii) : bool :=
  let n := byte_val a in ((9 <=? n) && (n <=? 13))%N || (n =? 32)%N.

Definition ws2 (a b : ascii) : bool :=
  (byte_val a =? 0xC2)%N && ((byte_val b =? 0x85)%N || (byte_val b =? 0xA0)%N).

Definition ws3 (a b c : ascii) : bool :=
  let x := byte_val a in let y := byte_val b in let z := byte_val c in
  ((x =? 0xE1)%N && (y =? 0x9A)%N && (z =? 0x80)%N)
  || ((x =? 0xE2)%N && (y =? 0x80)%N &&
      (((0x80 <=? z)%N && (z <=? 0x8A)%N) || (z =? 0xA8)%N || (z =? 0xA9)%N || (z =? 0xAF)%N))
  || ((x =? 0xE2)%N && (y =? 0x81)%N && (z =? 0x9F)%N)
  || ((x =? 0xE3)%N && (y =? 0x80)%N && (z =? 0x80)%N).

(** ** Trimming, for any such encoding of the runes to trim *)
Section trim.
Variables (p1 : ascii → bool) (p2 : ascii → ascii → bool)
          (p3 : ascii → ascii → ascii → bool).

Fixpoint trim_front (l : list ascii) : list ascii :=
  match l with
  | [] => []
  | a :: r1 =>
      if p1 a then trim_front r1 else
      match r1 with
      | [] => l
      | b :: r2 =>
          if p2 a b then trim_front r2 else
          match r2 with
          | [] => l
          | c :: r3 => if p3 a b c then trim_front r3 else l
          end
      end
  end.

(** A rune to trim is encoded at the front. *)
Definition front_hit (l : list ascii) : bool :=
  match l with
  | [] => false
  | a :: r1 => p1 a ||
      match r1 with
      | [] => false
      | b :: r2 => p2 a b || match r2 with [] => false | c :: _ => p3 a b c end
      end
  end.

Lemma trim_front_fix l : front_hit l = false → trim_front l = l.
Proof.
  destruct l as [|a [|b [|c l]]]; cbn; [done| | |];
    repeat case_match; intros; simplify_eq; cbn in *; try done; congruence.
Qed.

Lemma trim_front_clean l : front_hit (trim_front l) = false.
Proof.
  remember (length l) as n eqn:Hn. revert l Hn.
  induction (lt_wf n) as [n _ IH]; intros l ->.
  destruct l as [|a [|b [|c l]]]; cbn; [done| | |];
    repeat case_match; cbn; rewrite ?orb_false_iff;
    first [ by eapply IH; [|reflexivity]; cbn; lia
          | by eapply (IH 0); [cbn; lia|]
          | by auto ].
Qed.

Lemma trim_front_suffix l : ∃ p, l = p ++ trim_front l.
Proof.
  remember (length l) as n eqn:Hn. revert l Hn.
  induction (lt_wf n) as [n _ IH]; intros l ->.
  assert (step : ∀ q r, l = q ++ r → q ≠ [] → ∃ p, l = p ++ trim_front r).
  { intros q r -> Hq. destruct (IH (length r)) with (l := r) as [p Hp]; [|done|].
    - rewrite length_app. destruct q; [done|cbn; lia].
    - exists (q ++ p). by rewrite <-app_assoc, <-Hp. }
  destruct l as [|a r1]; cbn [trim_front]; [by exists []|].
  destruct (p1 a); [by apply (step [a])|].
  destruct r1 as [|b r2]; [by exists []|].
  destruct (p2 a b); [by apply (step [a; b])|].
  destruct r2 as [|c r3]; [by exists []|].
  destruct (p3 a b c); [by apply (step [a; b; c])|by exists []].
Qed.

Lemma front_hit_app p q : front_hit (p ++ q) = false → front_hit p = false.
Proof.
  destruct p as [|a [|b [|c p]]]; cbn; [done| | |];
    rewrite ?orb_false_iff; intuition.
Qed.

(** The byte [x] is part of no multi-byte encoding. *)
Definition inert (x : ascii) : Prop :=
  ∀ a b, p2 a x = false ∧ p3 a x b = false ∧ p3 a b x = false.

Lemma front_hit_app_inert p x q :
  p ≠ [] → inert x → front_hit (p ++ x :: q) = front_hit p.
Proof.
  intros Hp Hx. destruct p as [|a [|b [|c p]]]; [done| | |done]; cbn.
  - destruct (Hx a a) as (-> & _ & _). cbn.
    destruct q as [|y q]; [done|]. by destruct (Hx a y) as (_ & -> & _).
  - by destruct (Hx a b) as (_ & _ & ->).
Qed.
End trim.

Definition rws2 (a b : ascii) : bool := ws2 b a.
Definition rws3 (a b c : ascii) : bool := ws3 c b a.

Abbreviation space_front := (front_hit ws1 ws2 ws3).
Abbreviation space_back l := (front_hit ws1 rws2 rws3 (reverse l)).

(** strings.TrimSpace *)
Definition trim_bytes (l : list ascii) : list ascii :=
  reverse (trim_front ws1 rws2 rws3 (reverse (trim_front ws1 ws2 ws3 l))).

Definition TrimSpace (s : string) : string := of_bytes (trim_bytes (bytes_of s)).

#[global] Arguments TrimSpace : simpl never.

(** [s] has no leading and no trailing white space. *)
Definition trimmed (s : string) : Prop := TrimSpace s = s.

Lemma of_bytes_inj l1 l2 : of_bytes l1 = of_bytes l2 → l1 = l2.
Proof.
  intros H. apply (f_equal bytes_of) in H.
  by rewrite !String.list_ascii_of_string_of_list_ascii in H.
Qed.

Lemma append_cons a s t : String a s +:+ t = String a (s +:+ t).
Proof. reflexivity. Qed.

Lemma append_nil_l s : "" +:+ s = s.
Proof. reflexivity. Qed.

Lemma bytes_of_app s t : bytes_of (s +:+ t) = bytes_of s ++ bytes_of t.
Proof.
  induction s as [|a s IH]; [done|]. rewrite append_cons. cbn. by rewrite IH.
Qed.

Lemma bytes_of_nil s : bytes_of s = [] ↔ s = "".
Proof. destruct s; cbn; split; congruence. Qed.

Lemma trimmed_iff s :
  trimmed s ↔ space_front (bytes_of s) = false ∧ space_back (bytes_of s) = false.
Proof.
  unfold trimmed, TrimSpace. split.
  - intros H. apply (f_equal bytes_of) in H.
    rewrite String.list_ascii_of_string_of_list_ascii in H.
    unfold trim_bytes in H. set (t := trim_front ws1 ws2 ws3 (bytes_of s)) in *.
    destruct (trim_front_suffix ws1 rws2 rws3 (reverse t)) as [p Hp].
    rewrite <-H. split; [|by rewrite reverse_involutive; apply trim_front_clean].
    apply (front_hit_app _ _ _ _ (reverse p)). rewrite <-reverse_app, <-Hp, reverse_involutive.
    apply trim_front_clean.
  - intros [Hf Hb]. unfold trim_bytes.
    rewrite (trim_front_fix ws1 ws2 ws3 _ Hf), (trim_front_fix ws1 rws2 rws3 _ Hb).
    by rewrite reverse_involutive, String.string_of_list_ascii_of_string.
Qed.

Lemma TrimSpace_trimmed s : trimmed (TrimSpace s).
Proof.
  apply trimmed_iff. unfold TrimSpace. rewrite String.list_ascii_of_string_of_list_ascii.
  unfold trim_bytes. set (t := trim_front ws1 ws2 ws3 (bytes_of s)).
  destruct (trim_front_suffix ws1 rws2 rws3 (reverse t)) as [p Hp].
  split; [|by rewrite reverse_involutive; apply trim_front_clean].
  apply (front_hit_app _ _ _ _ (reverse p)). rewrite <-reverse_app, <-Hp, reverse_involutive.
  apply trim_front_clean.
Qed.

Lemma TrimSpace_idemp s : TrimSpace (TrimSpace s) = TrimSpace s.
Proof. apply TrimSpace_trimmed. Qed.

Lemma TrimSpace_empty : TrimSpace "" = "".
Proof. reflexivity. Qed.

#[export] Hint Rewrite TrimSpace_idemp TrimSpace_empty : orch.
#[export] Hint Resolve TrimSpace_trimmed : orch.

(** Joining trimmed parts with an ASCII separator keeps the result trimmed. *)
Lemma trimmed_join s (x : ascii) t :
  s ≠ "" → t ≠ "" → trimmed s → trimmed t →
  (byte_val x < 128)%N →
  trimmed (s +:+ String x t).
Proof.
  intros Hs Ht Ts Tt Hx. apply trimmed_iff in Ts as [Fs Bs], Tt as [Ft Bt].
  rewrite <-bytes_of_nil in Hs, Ht.
  apply trimmed_iff. rewrite bytes_of_app. cbn [String.list_ascii_of_string].
  assert (inert ws2 ws3 x ∧ inert rws2 rws3 x) as [I1 I2].
  { unfold inert, rws2, rws3, ws2, ws3.
    assert (E : ∀ k, (128 <= k)%N → (byte_val x =? k)%N = false)
      by (intros k ?; apply N.eqb_neq; lia).
    assert (L : ∀ k, (128 <= k)%N → (k <=? byte_val x)%N = false)
      by (intros k ?; apply N.leb_gt; lia).
    split; intros a b; rewrite !E, ?L by lia;
      rewrite ?andb_false_r, ?andb_false_l, ?orb_false_r; cbn;
      rewrite ?andb_false_r; done. }
  split.
  - by rewrite front_hit_app_inert.
  - rewrite reverse_app, reverse_cons, <-app_assoc. cbn.
    rewrite front_hit_app_inert; [done| |done].
    intros E. apply (f_equal reverse) in E. by rewrite reverse_involutive in E.
Qed.

(** Printable ASCII without space: such strings are trimmed. *)
Definition graphic (a : ascii) : bool :=
  let n := byte_val a in ((33 <=? n) && (n <=? 126))%N.

Lemma front_hit_graphic p2 p3 l :
  (∀ a b, p2 a b = true → graphic a = false) →
  (∀ a b c, p3 a b c = true → graphic a = false) →
  Forall (λ a, graphic a = true) l → front_hit ws1 p2 p3 l = false.
Proof.
  intros H2 H3 Hl. destruct Hl as [|a l Ha Hl]; [done|]. cbn.
  assert (ws1 a = false) as ->.
  { revert Ha. unfold graphic, ws1. rewrite andb_true_iff, !N.leb_le.
    intros [? ?]. destruct (N.leb_spec 9 (byte_val a)), (N.leb_spec (byte_val a) 13),
      (N.eqb_spec (byte_val a) 32); done || lia. }
  destruct l as [|b l]; [done|]. cbn.
  destruct (p2 a b) eqn:E2; [apply H2 in E2; congruence|].
  destruct l as [|c l]; [done|]. cbn.
  destruct (p3 a b c) eqn:E3; [apply H3 in E3; congruence|done].
Qed.

Lemma graphic_trimmed s : Forall (λ a, graphic a = true) (bytes_of s) → trimmed s.
Proof.
  intros H. apply trimmed_iff.
  assert (big : ∀ a, (128 <= byte_val a)%N → graphic a = false).
  { intros a Ha. unfold graphic. apply andb_false_iff. right. apply N.leb_gt. lia. }
  split; apply front_hit_graphic; try done.
  5: by rewrite Forall_reverse.
  1,3: intros a b; unfold rws2, ws2; rewrite andb_true_iff, orb_true_iff, !N.eqb_eq;
    intros ?; apply big; intuition lia.
  all: intros a b c; unfold rws3, ws3;
    rewrite !orb_true_iff, !andb_true_iff, !orb_true_iff, !andb_true_iff, !N.eqb_eq, !N.leb_le;
    intros ?; apply big; intuition lia.
Qed.

(** ** Prefixes, suffixes and cut sets *)
Fixpoint HasPrefix (s p : string) : bool :=
  match p, s with
  | EmptyString, _ => true
  | String a p', String b s' => Ascii.eqb a b && HasPrefix s' p'
  | String _ _, EmptyString => false
  end.

(** [strings.TrimPrefix] *)
Fixpoint strip_prefix (s p : string) : option string :=
  match p, s with
  | EmptyString, _ => Some s
  | String a p', String b s' => if Ascii.eqb a b then strip_prefix s' p' else None
  | String _ _, EmptyString => None
  end.

Definition TrimPrefix (s p : string) : string := default s (strip_prefix s p).

Definition rev_string (s : string) : string := of_bytes (reverse (bytes_of s)).

Definition HasSuffix (s p : string) : bool := HasPrefix (rev_string s) (rev_string p).
Definition TrimSuffix (s p : string) : string :=
  rev_string (TrimPrefix (rev_string s) (rev_string p)).

(** [strings.TrimLeft], [TrimRight] and [Trim] with a one-byte ASCII cut set. *)
Fixpoint trim_byte (x : ascii) (l : list ascii) : list ascii :=
  match l with
  | a :: r => if Ascii.eqb a x then trim_byte x r else l
  | [] => []
  end.

Definition TrimLeftByte (s : string) (x : ascii) : string := of_bytes (trim_byte x (bytes_of s)).
Definition TrimRightByte (s : string) (x : ascii) : string :=
  of_bytes (reverse (trim_byte x (reverse (bytes_of s)))).
Definition TrimByte (s : string) (x : ascii) : string := TrimRightByte (TrimLeftByte s x) x.

(** [strings.Cut] at a one-byte separator; [strings.SplitN(s, sep, 2)] has two parts iff it is
    [Some]. *)
Fixpoint cut_byte (x : ascii) (s : string) : option (string * string) :=
  match s with
  | EmptyString => None
  | String a r =>
      if Ascii.eqb a x then Some (EmptyString, r)
      else '(l, r') ← cut_byte x r; Some (String a l, r')
  end.

Definition ContainsByte (s : string) (x : ascii) : bool :=
  existsb (Ascii.eqb x) (bytes_of s).

Lemma HasPrefix_app p t : HasPrefix (p +:+ t) p = true.
Proof.
  induction p as [|a p IH]; [by destruct t|]. rewrite append_cons. cbn.
  by rewrite Ascii.eqb_refl.
Qed.

Lemma HasPrefix_strip s p : HasPrefix s p = true ↔ ∃ t, s = p +:+ t.
Proof.
  split; [|intros [t ->]; apply HasPrefix_app].
  revert s. induction p as [|a p IH]; intros s; cbn; [by exists s|].
  destruct s as [|b s]; cbn; [done|]. destruct (Ascii.eqb_spec a b) as [->|]; [|done].
  intros H. destruct (IH _ H) as [t ->]. by exists t.
Qed.

Lemma TrimPrefix_app p t : TrimPrefix (p +:+ t) p = t.
Proof.
  unfold TrimPrefix. assert (strip_prefix (p +:+ t) p = Some t) as ->; [|done].
  induction p as [|a p IH]; [by destruct t|].
  rewrite append_cons. cbn. by rewrite Ascii.eqb_refl.
Qed.

Lemma string_app_assoc s t u : (s +:+ t) +:+ u = s +:+ (t +:+ u).
Proof. induction s as [|a s IH]; [done|]. rewrite !append_cons. by rewrite IH. Qed.

(** ** Decimal rendering ([strconv.Itoa], [%d]) *)
Definition Itoa (z : Z) : string := pretty z.
