(* ===== verification/GoTime.v ===== *)
(** * IEEE-754 doubles and time.ParseDuration

    [float64] is the standard library's executable specification of binary64
    ([SpecFloat], precision 53, exponent bound 1024).  [ParseDuration] follows package
    [time]: the integer part is exact with overflow checks, the fraction is scaled in
    float64 arithmetic. *)
From stdpp Require Import base strings numbers list.
From Stdlib Require Import Ascii SpecFloat.
From S2P Require Import Prelude GoStrings.
#[local] Open Scope Z_scope.

(** ** float64 *)
Abbreviation float64 := spec_float.

Definition f64_of_Z (z : Z) : float64 := binary_normalize 53 1024 z 0 false.
Definition f64_mul : float64 → float64 → float64 := SFmul 53 1024.
Definition f64_div : float64 → float64 → float64 := SFdiv 53 1024.
Definition f64_sub : float64 → float64 → float64 := SFsub 53 1024.
Definition f64_ltb (a b : float64) : bool := SFltb a b.
Definition f64_leb (a b : float64) : bool := SFleb a b.
Definition f64_eqb (a b : float64) : bool := SFeqb a b.

(** Conversion to an integer truncates toward zero; NaN and infinities, whose conversion
    Go leaves to the implementation, give 0. *)
Definition f64_trunc (f : float64) : Z :=
  match f with
  | S754_finite s m e =>
      let v := if e <? 0 then Z.pos m / 2 ^ (- e) else Z.pos m * 2 ^ e in
      if s then - v else v
  | _ => 0
  end.

Definition is_nan_f64 (f : float64) : bool := match f with S754_nan => true | _ => false end.

(** ** time.ParseDuration *)
Definition is_digit (c : ascii) : bool :=
  let n := byte_val c in ((48 <=? n) && (n <=? 57))%N.
Definition digit_val (c : ascii) : Z := Z.of_N (byte_val c) - 48.

(** [leadingInt]: [None] is the overflow error. *)
Fixpoint leadingInt (x : Z) (s : string) : option (Z * string) :=
  match s with
  | String c r =>
      if is_digit c then
        if 2 ^ 63 / 10 <? x then None else
        let x' := x * 10 + digit_val c in
        if 2 ^ 63 <? x' then None else leadingInt x' r
      else Some (x, s)
  | EmptyString => Some (x, EmptyString)
  end.

(** [leadingFraction]: digits past the precision of uint64 are consumed and dropped. *)
Fixpoint leadingFraction (x : Z) (scale : float64) (overflow : bool) (s : string)
    : Z * float64 * string :=
  match s with
  | String c r =>
      if is_digit c then
        if overflow then leadingFraction x scale true r
        else if (2 ^ 63 - 1) / 10 <? x then leadingFraction x scale true r
        else
          let y := x * 10 + digit_val c in
          if 2 ^ 63 <? y then leadingFraction x scale true r
          else leadingFraction y (f64_mul scale (f64_of_Z 10)) false r
      else (x, scale, s)
  | EmptyString => (x, scale, EmptyString)
  end.

(** The unit: everything up to the next ['.'] or digit. *)
Fixpoint take_unit (s : string) : string * string :=
  match s with
  | String c r =>
      if Ascii.eqb c "." || is_digit c then (EmptyString, s)
      else let '(u, r') := take_unit r in (String c u, r')
  | EmptyString => (EmptyString, EmptyString)
  end.

Definition unitMap (u : string) : option Z :=
  if (u =? "ns")%string then Some 1
  else if (u =? "us")%string then Some 1000
  else if (u =? "µs")%string then Some 1000
  else if (u =? "μs")%string then Some 1000
  else if (u =? "ms")%string then Some 1000000
  else if (u =? "s")%string then Some 1000000000
  else if (u =? "m")%string then Some 60000000000
  else if (u =? "h")%string then Some 3600000000000
  else None.

Definition invalid_duration (orig : string) : error :=
  Errorf "time: invalid duration %q" [AStr orig].

Definition str_len (s : string) : nat := length (bytes_of s).

(** One [number unit] group: the value added and the rest of the text. *)
Definition parse_group (orig s : string) : res (Z * string) :=
  match s with
  | EmptyString => Err (invalid_duration orig)
  | String c _ =>
      if negb (Ascii.eqb c "." || is_digit c) then Err (invalid_duration orig) else
      match leadingInt 0 s with
      | None => Err (invalid_duration orig)
      | Some (v, s1) =>
          let pre := negb (str_len s1 =? str_len s)%nat in
          let '(f, scale, s2, post) :=
            match s1 with
            | String c1 r1 =>
                if Ascii.eqb c1 "." then
                  let '(f, scale, s2) := leadingFraction 0 (f64_of_Z 1) false r1 in
                  (f, scale, s2, negb (str_len s2 =? str_len r1)%nat)
                else (0, f64_of_Z 1, s1, false)
            | EmptyString => (0, f64_of_Z 1, s1, false)
            end in
          if negb pre && negb post then Err (invalid_duration orig) else
          let '(u, s3) := take_unit s2 in
          if (u =? "")%string
          then Err (Errorf "time: missing unit in duration %q" [AStr orig]) else
          match unitMap u with
          | None => Err (Errorf "time: unknown unit %q in duration %q" [AStr u; AStr orig])
          | Some unit =>
              if 2 ^ 63 / unit <? v then Err (invalid_duration orig) else
              let v1 := v * unit in
              let v2 :=
                if 0 <? f
                then wrap_uint64 (v1 + wrap_uint64 (f64_trunc
                       (f64_mul (f64_of_Z f) (f64_div (f64_of_Z unit) scale))))
                else v1 in
              if (0 <? f) && (2 ^ 63 <? v2) then Err (invalid_duration orig)
              else Ok (v2, s3)
          end
      end
  end.

(** The loop over the groups; [None] means that the fuel ran out, which
    [parse_groups_fuel] excludes. *)
Fixpoint parse_groups (fuel : nat) (orig : string) (d : Z) (s : string) : option (res Z) :=
  match s with
  | EmptyString => Some (Ok d)
  | String _ _ =>
      match fuel with
      | O => None
      | S fuel' =>
          match parse_group orig s with
          | Err e => Some (Err e)
          | Ok (v, rest) =>
              let d' := wrap_uint64 (d + v) in
              if 2 ^ 63 <? d' then Some (Err (invalid_duration orig))
              else parse_groups fuel' orig d' rest
          end
      end
  end.

Definition ParseDuration (orig : string) : res Z :=
  let '(neg, s) :=
    match orig with
    | String c r =>
        if Ascii.eqb c "-" || Ascii.eqb c "+" then (Ascii.eqb c "-", r) else (false, orig)
    | EmptyString => (false, orig)
    end in
  if (s =? "0")%string then Ok 0
  else if (s =? "")%string then Err (invalid_duration orig)
  else match parse_groups (str_len s) orig 0 s with
       | Some (Ok d) =>
           if neg then Ok (wrap_int64 (- d))
           else if 2 ^ 63 - 1 <? d then Err (invalid_duration orig) else Ok d
       | Some (Err e) => Err e
       | None => Err (invalid_duration orig)
       end.

#[global] Arguments ParseDuration : simpl never.

(** ** Termination and range *)
Lemma take_unit_len s u r : take_unit s = (u, r) → (str_len u + str_len r = str_len s)%nat.
Proof.
  revert u r. induction s as [|c s IH]; intros u r; cbn [take_unit].
  { by intros [= <- <-]. }
  case_match; [by intros [= <- <-]|].
  destruct (take_unit s) as [u' r'] eqn:E. intros [= <- <-].
  specialize (IH _ _ eq_refl). unfold str_len in *. cbn. lia.
Qed.

Lemma leadingInt_len x s v r : leadingInt x s = Some (v, r) → (str_len r ≤ str_len s)%nat.
Proof.
  revert x. induction s as [|c s IH]; intros x; cbn [leadingInt].
  { by intros [= <- <-]. }
  repeat case_match; try done; [|by intros [= <- <-]].
  intros H'. apply IH in H'. unfold str_len in *. cbn. lia.
Qed.

Lemma leadingFraction_len x sc o s v f r :
  leadingFraction x sc o s = (v, f, r) → (str_len r ≤ str_len s)%nat.
Proof.
  revert x sc o. induction s as [|c s IH]; intros x sc o; cbn [leadingFraction].
  { by intros [= <- <- <-]. }
  repeat case_match; try (by intros [= <- <- <-]);
    intros H'; apply IH in H'; unfold str_len in *; cbn; lia.
Qed.

Lemma str_len_0 s : str_len s = 0%nat ↔ s = "".
Proof. unfold str_len. rewrite <-bytes_of_nil. apply length_zero_iff_nil. Qed.

(** Every group consumes at least one byte. *)
Lemma parse_group_len orig s v r :
  parse_group orig s = Ok (v, r) → (str_len r < str_len s)%nat.
Proof.
  unfold parse_group. destruct s as [|c s']; [done|]. set (s := String c s').
  destruct (negb _); [done|].
  destruct (leadingInt 0 s) as [[w s1]|] eqn:E1; [|done].
  apply leadingInt_len in E1.
  match goal with |- context [match s1 with EmptyString => ?a | String c1 r1 => @?b c1 r1 end] =>
    set (rest := match s1 with EmptyString => a | String c1 r1 => b c1 r1 end) end.
  assert (∃ f sc s2 post, rest = (f, sc, s2, post) ∧ (str_len s2 ≤ str_len s1)%nat)
    as (f & sc & s2 & post & -> & E2).
  { unfold rest. destruct s1 as [|c1 r1]; [by eauto 10|].
    case_match; [|by eauto 10].
    destruct (leadingFraction _ _ _ r1) as [[f sc] s2] eqn:E. apply leadingFraction_len in E.
    do 4 eexists. split; [done|]. unfold str_len in *. cbn. lia. }
  destruct (_ && _); [done|].
  destruct (take_unit s2) as [u s3] eqn:E3. apply take_unit_len in E3.
  destruct (String.eqb_spec u "") as [->|Hu]; [done|].
  rewrite <-str_len_0 in Hu.
  repeat case_match; try done; intros [= <- <-]; lia.
Qed.

(** The fuel [ParseDuration] gives its loop is always enough. *)
Lemma parse_groups_fuel fuel orig d s :
  (str_len s ≤ fuel)%nat → ∃ r, parse_groups fuel orig d s = Some r.
Proof.
  revert d s. induction fuel as [|fuel IH]; intros d s Hs; destruct s as [|c s]; cbn [parse_groups];
    try by eauto.
  { unfold str_len in Hs. cbn in Hs. lia. }
  destruct (parse_group orig (String c s)) as [[v rest]|e] eqn:E; [|by eauto].
  apply parse_group_len in E. case_match; [by eauto|]. apply IH. lia.
Qed.

Lemma parse_groups_range fuel orig d s d' :
  0 ≤ d ≤ 2 ^ 63 → parse_groups fuel orig d s = Some (Ok d') → 0 ≤ d' ≤ 2 ^ 63.
Proof.
  revert d s. induction fuel as [|fuel IH]; intros d s Hd; destruct s as [|c s]; cbn [parse_groups];
    try (by intros [= <-]); try done.
  destruct (parse_group orig (String c s)) as [[v rest]|e] eqn:E; [|done].
  destruct (Z.ltb_spec (2 ^ 63) (wrap_uint64 (d + v))) as [|Hle]; [done|].
  apply IH. split; [|done]. apply Z.mod_pos_bound. lia.
Qed.

(** An accepted duration fits int64. *)
Lemma ParseDuration_range s d : ParseDuration s = Ok d → min_int64 ≤ d ≤ max_int64.
Proof.
  unfold ParseDuration.
  destruct (match s with String c r => _ | EmptyString => _ end) as [neg s'].
  destruct (_ =? "0")%string; [intros [= <-]; by vm_compute|].
  destruct (_ =? "")%string; [done|].
  destruct (parse_groups _ s 0 s') as [[d'|]|] eqn:E; [|done..].
  apply parse_groups_range in E; [|lia]. destruct neg.
  - intros [= <-]. apply wrap_int64_range.
  - destruct (Z.ltb_spec (2 ^ 63 - 1) d'); [done|]. intros [= <-]. unfold min_int64, max_int64. lia.
Qed.
