(* ===== verification/GoNet.v ===== *)
(** * Package net: addresses in text

    [net.ParseIP] (through [netip.ParseAddr]), [net.ParseMAC], [net.SplitHostPort] and
    [net.JoinHostPort], byte for byte: orch uses them to validate host addresses and
    Firecracker guest MACs, to recognise IPv4 workload addresses, and to take apart and build
    the host:port addresses of peers, probes and ingress targets. *)
From stdpp Require Import base strings numbers sets list.
From Stdlib Require Import Ascii.
From S2P Require Import Prelude GoStrings GoTime.
#[local] Open Scope Z_scope.

Definition hex_val (c : ascii) : option Z :=
  let n := Z.of_N (byte_val c) in
  if (48 <=? n) && (n <=? 57) then Some (n - 48)
  else if (97 <=? n) && (n <=? 102) then Some (n - 87)
  else if (65 <=? n) && (n <=? 70) then Some (n - 55)
  else None.

Definition is_hex (c : ascii) : bool := match hex_val c with Some _ => true | None => false end.

(** [parseIPv4Fields]: [val] is the current octet, [digLen] its number of digits, [acc] the
    finished octets. *)
Fixpoint parseIPv4Fields (val : Z) (digLen : nat) (acc : list Z) (s : list ascii) : option (list Z) :=
  match s with
  | [] => if (length acc <? 3)%nat then None else Some (acc ++ [val])
  | c :: r =>
      if is_digit c then
        if (digLen =? 1)%nat && (val =? 0) then None else
        let val' := val * 10 + digit_val c in
        if 255 <? val' then None else parseIPv4Fields val' (S digLen) acc r
      else if Ascii.eqb c "." then
        if (digLen =? 0)%nat || (length r =? 0)%nat then None
        else if (length acc =? 3)%nat then None
        else parseIPv4Fields 0 0 (acc ++ [val]) r
      else None
  end.

Definition v4_in_v6 (v4 : list Z) : list Z := repeat 0 10 ++ [255; 255] ++ v4.

Definition parseIPv4 (s : list ascii) : option (list Z) :=
  v4_in_v6 <$> parseIPv4Fields 0 0 [] s.

(** The digits of one 16-bit field: [None] on more than four digits. *)
Fixpoint hex_field (off : nat) (acc : Z) (s : list ascii) : option (nat * Z * list ascii) :=
  match s with
  | c :: r =>
      match hex_val c with
      | Some d => if (3 <? off)%nat then None else hex_field (S off) (acc * 16 + d) r
      | None => Some (off, acc, s)
      end
  | [] => Some (off, acc, [])
  end.

(** [loop fuel ip ellipsis s]: the fields read so far are [ip]; the result is the bytes and
    the ellipsis position, with all of [s] consumed.  The loop of the code runs while fewer
    than 16 bytes were read, two or four at a time, so 8 iterations are enough. *)
Fixpoint ipv6_fields (fuel : nat) (ip : list Z) (ellipsis : option nat) (s : list ascii)
    : option (list Z * option nat) :=
  match fuel with
  | O => match s with [] => Some (ip, ellipsis) | _ => None end
  | S fuel' =>
      if (16 <=? length ip)%nat
      then match s with [] => Some (ip, ellipsis) | _ => None end
      else
      match hex_field 0 0 s with
      | None => None
      | Some (O, _, _) => None
      | Some (S _, acc, rest) =>
          match rest with
          | [] => Some (ip ++ [acc / 256; acc mod 256], ellipsis)
          | c :: r =>
              if Ascii.eqb c "." then
                if (match ellipsis with None => negb (length ip =? 12)%nat | Some _ => false end)
                   || (16 <? length ip + 4)%nat
                then None
                else match parseIPv4Fields 0 0 [] s with
                     | Some v4 => Some (ip ++ v4, ellipsis)
                     | None => None
                     end
              else if negb (Ascii.eqb c ":") then None
              else match r with
                   | [] => None
                   | c2 :: r2 =>
                       let ip' := ip ++ [acc / 256; acc mod 256] in
                       if Ascii.eqb c2 ":" then
                         match ellipsis with
                         | Some _ => None
                         | None => match r2 with
                                   | [] => Some (ip', Some (length ip'))
                                   | _ => ipv6_fields fuel' ip' (Some (length ip')) r2
                                   end
                         end
                       else ipv6_fields fuel' ip' ellipsis r
                   end
          end
      end
  end.

Definition expand_ellipsis (ip : list Z) (ellipsis : option nat) : option (list Z) :=
  if (length ip <? 16)%nat then
    match ellipsis with
    | None => None
    | Some k => Some (take k ip ++ repeat 0 (16 - length ip) ++ drop k ip)
    end
  else match ellipsis with None => Some ip | Some _ => None end.

(** A zone makes [net.ParseIP] fail whatever it is. *)
Definition parseIPv6 (s : list ascii) : option (list Z) :=
  if existsb (Ascii.eqb "%") s then None else
  match s with
  | ":"%char :: ":"%char :: [] => Some (repeat 0 16)
  | ":"%char :: ":"%char :: r =>
      '(ip, e) ← ipv6_fields 8 [] (Some 0%nat) r; expand_ellipsis ip e
  | _ => '(ip, e) ← ipv6_fields 8 [] None s; expand_ellipsis ip e
  end.

(** The first of ['.'], [':'], ['%'] decides the syntax. *)
Fixpoint ip_syntax (s : list ascii) : option ascii :=
  match s with
  | [] => None
  | c :: r => if Ascii.eqb c "." || Ascii.eqb c ":" || Ascii.eqb c "%" then Some c else ip_syntax r
  end.

(** [net.ParseIP]: the 16-byte form of the address, [None] for [nil]. *)
Definition ParseIP (s : string) : option (list Z) :=
  let l := bytes_of s in
  match ip_syntax l with
  | Some c => if Ascii.eqb c "." then parseIPv4 l
              else if Ascii.eqb c ":" then parseIPv6 l else None
  | None => None
  end.

(** [net.ParseIP(s).To4() != nil] *)
Definition is_IPv4 (s : string) : bool :=
  match ParseIP s with
  | Some ip => bool_decide (take 12 ip = repeat 0 10 ++ [255; 255])
  | None => false
  end.

(** [net.ParseMAC], its success. *)
Fixpoint mac_groups (n : nat) (sep : ascii) (l : list ascii) : bool :=
  match n, l with
  | O, [] => true
  | S n', a :: b :: r =>
      is_hex a && is_hex b &&
      match n', r with
      | O, [] => true
      | S _, c :: r' => Ascii.eqb c sep && mac_groups n' sep r'
      | _, _ => false
      end
  | _, _ => false
  end.

Fixpoint mac_dots (n : nat) (l : list ascii) : bool :=
  match n, l with
  | S n', a :: b :: c :: d :: r =>
      is_hex a && is_hex b && is_hex c && is_hex d &&
      match n', r with
      | O, [] => true
      | S _, e :: r' => Ascii.eqb e "." && mac_dots n' r'
      | _, _ => false
      end
  | _, _ => false
  end.

Definition mac_size (n : nat) : bool := (n =? 6)%nat || (n =? 8)%nat || (n =? 20)%nat.

Definition ParseMAC (s : string) : bool :=
  let l := bytes_of s in
  let len := length l in
  if (len <? 14)%nat then false else
  match l !! 2%nat, l !! 4%nat with
  | Some c2, Some c4 =>
      if Ascii.eqb c2 ":" || Ascii.eqb c2 "-" then
        ((len + 1) mod 3 =? 0)%nat && mac_size ((len + 1) / 3) && mac_groups ((len + 1) / 3) c2 l
      else if Ascii.eqb c4 "." then
        ((len + 1) mod 5 =? 0)%nat && mac_size (2 * (len + 1) / 5) && mac_dots ((len + 1) / 5) l
      else false
  | _, _ => false
  end.

(** ** Every accepted address has 16 bytes *)
Lemma parseIPv4Fields_len val dl acc s v4 :
  (length acc ≤ 3)%nat → parseIPv4Fields val dl acc s = Some v4 → length v4 = 4%nat.
Proof.
  revert val dl acc. induction s as [|c s IH]; intros val dl acc Hacc; cbn [parseIPv4Fields].
  - case_match eqn:E; [done|]. apply Nat.ltb_ge in E. intros [= <-]. rewrite length_app. cbn. lia.
  - repeat case_match; try done; apply IH; rewrite ?length_app; cbn; [lia|].
    repeat match goal with H : (_ =? 3)%nat = false |- _ => apply Nat.eqb_neq in H end. lia.
Qed.

Lemma expand_ellipsis_len ip e l :
  (length ip ≤ 16)%nat → expand_ellipsis ip e = Some l → length l = 16%nat.
Proof.
  intros Hip. unfold expand_ellipsis. case_match eqn:E.
  - apply Nat.ltb_lt in E. destruct e as [k|]; [|done]. intros [= <-].
    rewrite !length_app, repeat_length, length_take, length_drop. lia.
  - apply Nat.ltb_ge in E. destruct e; [done|]. intros [= <-]. lia.
Qed.

Lemma ipv6_fields_len fuel ip e s ip' e' :
  (length ip ≤ 16)%nat → (length ip mod 2 = 0)%nat →
  ipv6_fields fuel ip e s = Some (ip', e') → (length ip' ≤ 16)%nat.
Proof.
  revert ip e s. induction fuel as [|fuel IH]; intros ip e s Hip Heven; cbn [ipv6_fields].
  { by destruct s; [intros [= <- <-]|]. }
  destruct (Nat.leb_spec 16 (length ip)) as [|Hlt]; [by destruct s; [intros [= <- <-]|]|].
  destruct (hex_field 0 0 s) as [[[[|n] acc] rest]|]; [done| |done].
  assert (length ip + 2 ≤ 16)%nat as H2.
  { pose proof (Nat.div_mod_eq (length ip) 2). lia. }
  assert ((length ip + 2) mod 2 = 0)%nat as Hev2.
  { replace (length ip + 2)%nat with (length ip + 1 * 2)%nat by lia.
    by rewrite Nat.Div0.mod_add. }
  destruct rest as [|c r]; [intros [= <- <-]; rewrite length_app; cbn; lia|].
  destruct (Ascii.eqb c "."); [|destruct (negb _); [done|]].
  - destruct (Nat.ltb_spec 16 (length ip + 4)) as [|H4]; [by rewrite orb_true_r|].
    case_match; [done|]. destruct (parseIPv4Fields 0 0 [] s) as [v4|] eqn:E4; [|done].
    intros [= <- <-]. apply parseIPv4Fields_len in E4; [|cbn; lia]. rewrite length_app. lia.
  - destruct r as [|c2 r2]; [done|].
    assert (length (ip ++ [acc / 256; acc mod 256]) = (length ip + 2)%nat) as Hl
      by (rewrite length_app; cbn; lia).
    destruct (Ascii.eqb c2 ":"); [destruct e; [done|]; destruct r2 as [|c3 r3]|].
    + intros [= <- <-]. lia.
    + apply IH; rewrite Hl; lia.
    + apply IH; rewrite Hl; lia.
Qed.

Lemma ParseIP_len s ip : ParseIP s = Some ip → length ip = 16%nat.
Proof.
  unfold ParseIP. destruct (ip_syntax _) as [c|]; [|done].
  destruct (Ascii.eqb c "."); [|destruct (Ascii.eqb c ":"); [|done]].
  - unfold parseIPv4. destruct (parseIPv4Fields _ _ _ _) as [v4|] eqn:E; [|done].
    intros [= <-]. apply parseIPv4Fields_len in E; [|cbn; lia].
    unfold v4_in_v6. rewrite !length_app, E. done.
  - unfold parseIPv6. case_match; [done|].
    assert (K : ∀ e r,
      ('(i, e') ← ipv6_fields 8 [] e r; expand_ellipsis i e') = Some ip → length ip = 16%nat).
    { intros e r. destruct (ipv6_fields 8 [] e r) as [[i e']|] eqn:E; [|done].
      cbn. intros Hx. eapply expand_ellipsis_len; [|exact Hx].
      eapply ipv6_fields_len; [..|exact E]; cbn; lia. }
    repeat case_match; try (by intros [= <-]); by apply K.
Qed.

(** ** host:port *)
Definition IndexByte (c : ascii) (l : list ascii) : option nat :=
  fst <$> list_find (λ a, a = c) l.
Definition LastIndexByte (c : ascii) (l : list ascii) : option nat :=
  (λ i, (length l - 1 - i)%nat) <$> IndexByte c (reverse l).

Definition addrErr {A} (why : string) (addr : list ascii) : res A :=
  Err (Errorf ("address %s: " +:+ why) [AStr (of_bytes addr)]).

Definition has_byte (c : ascii) (l : list ascii) : bool :=
  match IndexByte c l with Some _ => true | None => false end.

Definition split_host_port (hp : list ascii) : res (list ascii * list ascii) :=
  match LastIndexByte ":" hp with
  | None => addrErr "missing port in address" hp
  | Some i =>
      '(host, j, k) ←
        (if (if hd_error hp is Some c then Ascii.eqb c "[" else false) then
           match IndexByte "]" hp with
           | None => addrErr "missing ']' in address" hp
           | Some e =>
               if (e + 1 =? length hp)%nat then addrErr "missing port in address" hp
               else if (e + 1 =? i)%nat then Ok (drop 1 (take e hp), 1%nat, (e + 1)%nat)
               else if (if hp !! (e + 1)%nat is Some c then Ascii.eqb c ":" else false)
                    then addrErr "too many colons in address" hp
                    else addrErr "missing port in address" hp
           end
         else if has_byte ":" (take i hp) then addrErr "too many colons in address" hp
         else Ok (take i hp, 0%nat, 0%nat));
      if has_byte "[" (drop j hp) then addrErr "unexpected '[' in address" hp
      else if has_byte "]" (drop k hp) then addrErr "unexpected ']' in address" hp
      else Ok (host, drop (i + 1) hp)
  end.

Definition SplitHostPort (hostport : string) : res (string * string) :=
  match split_host_port (bytes_of hostport) with
  | Ok (h, p) => Ok (of_bytes h, of_bytes p)
  | Err e => Err e
  end.

Definition JoinHostPort (host port : string) : string :=
  if ContainsByte host ":" then "[" +:+ host +:+ "]:" +:+ port else host +:+ ":" +:+ port.

(** [ip.IsUnspecified()]: 0.0.0.0 or :: *)
Definition IsUnspecified (ip : list Z) : bool :=
  forallb (Z.eqb 0) ip || bool_decide (ip = v4_in_v6 [0; 0; 0; 0]).

Lemma IndexByte_app_absent c l r :
  c ∉ l → IndexByte c (l ++ c :: r) = Some (length l).
Proof.
  intros Hc. unfold IndexByte. rewrite list_find_app_r; [cbn; rewrite decide_True by done; cbn; f_equal; lia|].
  apply list_find_None, Forall_forall. intros x Hx ->. done.
Qed.

Lemma LastIndexByte_app_absent c l r : c ∉ r → LastIndexByte c (l ++ c :: r) = Some (length l).
Proof.
  intros Hc. unfold LastIndexByte. rewrite reverse_app, reverse_cons, <-app_assoc. cbn [app].
  rewrite IndexByte_app_absent by by rewrite elem_of_reverse.
  cbn. rewrite length_reverse, length_app. cbn. f_equal. lia.
Qed.

Lemma has_byte_false c l : has_byte c l = false ↔ c ∉ l.
Proof.
  unfold has_byte, IndexByte. destruct (list_find (λ a, a = c) l) as [[i x]|] eqn:E; cbn.
  - apply list_find_Some in E as (Hi & -> & _). split; [done|]. intros []. by eapply list_elem_of_lookup_2.
  - apply list_find_None in E. rewrite Forall_forall in E. split; [|done]. intros _ Hin. by apply (E c).
Qed.

(** The bytes with a meaning in an address. *)
Definition plain_host (l : list ascii) : Prop := ("["%char ∉ l) ∧ ("]"%char ∉ l).
Definition plain_port (l : list ascii) : Prop :=
  (":"%char ∉ l) ∧ ("["%char ∉ l) ∧ ("]"%char ∉ l).

Lemma split_join_plain h p :
  plain_host h → plain_port p → ":"%char ∉ h →
  split_host_port (h ++ ":"%char :: p) = Ok (h, p).
Proof.
  intros [Hh1 Hh2] (Hp1 & Hp2 & Hp3) Hc. unfold split_host_port.
  rewrite LastIndexByte_app_absent by done.
  assert ((if hd_error (h ++ ":"%char :: p) is Some c then Ascii.eqb c "[" else false) = false) as ->.
  { destruct h as [|x h]; cbn; [done|]. destruct (Ascii.eqb_spec x "["); [|done]. set_solver. }
  rewrite take_app_length. rewrite (proj2 (has_byte_false _ _)) by done. cbn [mbind res_bind].
  rewrite !drop_0. rewrite !(proj2 (has_byte_false _ _)) by set_solver.
  replace (length h + 1)%nat with (length (h ++ [":"%char])) by (rewrite length_app; cbn; lia).
  change (h ++ ":"%char :: p) with (h ++ [":"%char] ++ p). by rewrite app_assoc, drop_app_length.
Qed.

Lemma split_join_bracket h p :
  plain_host h → plain_port p →
  split_host_port ("["%char :: h ++ "]"%char :: ":"%char :: p) = Ok (h, p).
Proof.
  intros [Hh1 Hh2] (Hp1 & Hp2 & Hp3). unfold split_host_port.
  replace ("["%char :: h ++ "]"%char :: ":"%char :: p)
    with (("["%char :: h ++ ["]"%char]) ++ ":"%char :: p) by (cbn; by rewrite <-app_assoc).
  rewrite LastIndexByte_app_absent by done. cbn [hd_error app Ascii.eqb Bool.eqb].
  replace ("["%char :: (h ++ ["]"%char]) ++ ":"%char :: p)
    with (("["%char :: h) ++ "]"%char :: ":"%char :: p) by (cbn; by rewrite <-app_assoc).
  rewrite IndexByte_app_absent by set_solver.
  rewrite length_app. cbn [length]. rewrite length_app. cbn [length].
  rewrite (proj2 (Nat.eqb_neq _ _)) by lia. rewrite (proj2 (Nat.eqb_eq _ _)) by lia.
  cbn [mbind res_bind].
  change (S (length h)) with (length ("["%char :: h)). rewrite take_app_length.
  rewrite (proj2 (has_byte_false "[" _)) by (cbn; set_solver).
  rewrite (proj2 (has_byte_false "]" _)).
  - cbn [drop]. f_equal. f_equal.
    replace (S (length h + 1) + 1)%nat with (length ("["%char :: h ++ ["]"%char; ":"%char]))
      by (cbn; rewrite length_app; cbn; lia).
    replace (("["%char :: h) ++ "]"%char :: ":"%char :: p)
      with (("["%char :: h ++ ["]"%char; ":"%char]) ++ p) by (cbn; by rewrite <-app_assoc).
    by rewrite drop_app_length.
  - replace (length ("["%char :: h) + 1)%nat with (length ("["%char :: h ++ ["]"%char]))
      by (cbn; rewrite length_app; cbn; lia).
    replace (("["%char :: h) ++ "]"%char :: ":"%char :: p)
      with (("["%char :: h ++ ["]"%char]) ++ ":"%char :: p) by (cbn; by rewrite <-app_assoc).
    rewrite drop_app_length. set_solver.
Qed.

(** Splitting undoes joining, for hosts without brackets and ports without separators. *)
Lemma SplitHostPort_Join host port :
  plain_host (bytes_of host) → plain_port (bytes_of port) →
  SplitHostPort (JoinHostPort host port) = Ok (host, port).
Proof.
  intros Hh Hp. unfold SplitHostPort, JoinHostPort, ContainsByte.
  destruct (existsb (Ascii.eqb ":") (bytes_of host)) eqn:E.
  - rewrite !bytes_of_app.
    change (bytes_of "[" ++ bytes_of host ++ bytes_of "]:" ++ bytes_of port)
      with ("["%char :: bytes_of host ++ "]"%char :: ":"%char :: bytes_of port).
    rewrite split_join_bracket by done. by rewrite !String.string_of_list_ascii_of_string.
  - rewrite !bytes_of_app. change (bytes_of ":" ++ bytes_of port) with (":"%char :: bytes_of port).
    rewrite split_join_plain; [by rewrite !String.string_of_list_ascii_of_string|done|done|].
    intros Hin. apply not_true_iff_false in E. apply E, existsb_exists.
    exists ":"%char. split; [by apply list_elem_of_In|apply Ascii.eqb_refl].
Qed.
