(* ===== verification/GoList.v ===== *)
(** * Ordered lists and the sorting interface

    Package [strings]' [Compare], and the [Sort] method of the third-party list type orch
    uses everywhere: a class with the contract of a comparison sort, so that listings are
    proved independent of the order in which Go's maps are iterated. *)
From stdpp Require Import base strings numbers sorting list.
From Stdlib Require Import Ascii.
From S2P Require Import Prelude GoStrings.

(** [strings.Compare], as the comparison it decides. *)
Definition Compare (a b : string) : comparison := String.compare a b.

Definition cmp_le {A} (cmp : A → A → comparison) (a b : A) : Prop := cmp a b ≠ Gt.

#[export] Instance cmp_le_dec {A} (cmp : A → A → comparison) a b : Decision (cmp_le cmp a b).
Proof. unfold cmp_le. solve_decision. Defined.

Section compare.
Lemma ascii_compare_lt a b : Ascii.compare a b = Lt ↔ (N_of_ascii a < N_of_ascii b)%N.
Proof. unfold Ascii.compare. apply N.compare_lt_iff. Qed.

Lemma Compare_refl s : Compare s s = Eq.
Proof.
  unfold Compare. induction s as [|a s IH]; [done|]. cbn.
  unfold Ascii.compare. by rewrite N.compare_refl.
Qed.

Lemma Compare_eq s t : Compare s t = Eq ↔ s = t.
Proof. split; [apply String.compare_eq_iff | intros ->; apply Compare_refl]. Qed.

Lemma Compare_le_cons a b s t :
  cmp_le Compare (String a s) (String b t) ↔
  (N_of_ascii a < N_of_ascii b)%N ∨ (a = b ∧ cmp_le Compare s t).
Proof.
  unfold cmp_le, Compare. cbn [String.compare]. destruct (Ascii.compare a b) eqn:E.
  - apply Ascii.compare_eq_iff in E as ->. split; [auto|]. intros [?|[_ ?]]; [lia|done].
  - apply (proj1 (ascii_compare_lt _ _)) in E. naive_solver.
  - rewrite Ascii.compare_antisym in E. destruct (Ascii.compare b a) eqn:E'; try done.
    apply (proj1 (ascii_compare_lt _ _)) in E'. split; [done|]. intros [?|[-> _]]; exfalso; lia.
Qed.

#[export] Instance Compare_trans : Transitive (cmp_le Compare).
Proof.
  intros s. induction s as [|a s IH]; intros t u; [by destruct u|].
  destruct t as [|b t]; [by intros H; exfalso; apply H|].
  destruct u as [|c u]; [by intros _ H; exfalso; apply H|].
  rewrite !Compare_le_cons. intros [?|[-> ?]] [?|[-> ?]]; [left; lia|by left|by left|right; eauto].
Qed.

#[export] Instance Compare_total : Total (cmp_le Compare).
Proof.
  intros s t. unfold cmp_le, Compare. rewrite (String.compare_antisym s t).
  destruct (String.compare t s); auto.
Qed.

#[export] Instance Compare_antisymm : AntiSymm (=) (cmp_le Compare).
Proof.
  intros s t. unfold cmp_le, Compare. rewrite (String.compare_antisym s t).
  destruct (String.compare t s) eqn:E; [|done|done].
  intros _ _. by apply String.compare_eq_iff in E.
Qed.
End compare.

(** [xs.Sort(cmp)] *)
Class ListSort := list_sort : ∀ {A : Type}, (A → A → comparison) → list A → list A.

(** Its contract: a permutation, sorted whenever the comparison is a total preorder. *)
Class ListSortLaws `{ListSort} := {
  list_sort_perm {A} (cmp : A → A → comparison) l : list_sort cmp l ≡ₚ l;
  list_sort_sorted {A} (cmp : A → A → comparison) l :
    Transitive (cmp_le cmp) → Total (cmp_le cmp) → Sorted (cmp_le cmp) (list_sort cmp l);
}.

(** [func(a, b) int { return strings.Compare(key(a), key(b)) }] *)
Definition by_key {A} (key : A → string) (a b : A) : comparison := Compare (key a) (key b).

Section sorting.
Context `{ListSortLaws} {A : Type} (key : A → string).

#[export] Instance by_key_trans : Transitive (cmp_le (by_key key)).
Proof. intros a b c. apply Compare_trans. Qed.
#[export] Instance by_key_total : Total (cmp_le (by_key key)).
Proof. intros a b. apply Compare_total. Qed.

Lemma NoDup_key_inj (l : list A) x y : NoDup (key <$> l) → x ∈ l → y ∈ l → key x = key y → x = y.
Proof.
  intros Hnd [i Hi]%list_elem_of_lookup [j Hj]%list_elem_of_lookup Hk.
  assert (i = j) as ->; [|congruence].
  eapply NoDup_lookup; [done| |]; rewrite list_lookup_fmap; [by rewrite Hi|].
  rewrite Hj. cbn. by rewrite Hk.
Qed.

(** With distinct keys the sorted list does not depend on the order of the input. *)
Lemma sort_by_key_unique (l l' : list A) :
  NoDup (key <$> l) → l ≡ₚ l' → list_sort (by_key key) l = list_sort (by_key key) l'.
Proof.
  intros Hnd Hp. eapply (Sorted_unique_strong (cmp_le (by_key key))).
  - intros x y Hx Hy Hxy Hyx. rewrite list_sort_perm in Hx, Hy. rewrite <-Hp in Hy.
    eapply NoDup_key_inj; [done..|]. by apply (anti_symm (cmp_le Compare)).
  - apply list_sort_sorted; apply _.
  - apply list_sort_sorted; apply _.
  - by rewrite !list_sort_perm.
Qed.

Lemma elem_of_list_sort (cmp : A → A → comparison) l x : x ∈ list_sort cmp l ↔ x ∈ l.
Proof. by rewrite list_sort_perm. Qed.

Lemma length_list_sort (cmp : A → A → comparison) l : length (list_sort cmp l) = length l.
Proof. by rewrite list_sort_perm. Qed.
End sorting.

(** The interface is inhabited: merge sort. *)
Definition merge_list_sort : ListSort := λ A cmp l, merge_sort (cmp_le cmp) l.

Lemma merge_list_sort_laws : @ListSortLaws merge_list_sort.
Proof.
  split; intros A cmp l.
  - apply merge_sort_Permutation.
  - intros ? ?. by apply Sorted_merge_sort.
Qed.
