(* ===== verification/Deploy.v ===== *)
(** * The deploy document (internal/deploy/v1alpha1)

    The canonical App model: data types, normalising accessors, typed references and their
    YAML scalar form, defaults, and the generation digest. *)
From stdpp Require Import base strings numbers gmap list.
From Stdlib Require Import Ascii.
From S2P Require Import Prelude GoStrings GoTime.

(** ** types.go.  Go's [type X string] enumerations are strings with named constants; an
    optional pointer is an [option]; Go's [int] and [int64] are [Z]. *)
Definition WorkloadKindService := "service".
Definition WorkloadKindWorker := "worker".
Definition WorkloadKindJob := "job".
Definition WorkloadKindCron := "cron".
Definition WorkloadKindStateful := "stateful".

Definition RuntimeDocker := "docker".
Definition RuntimeContainerd := "containerd".
Definition RuntimePodman := "podman".
Definition RuntimeFirecracker := "firecracker".
Definition RuntimeProcess := "process".
Definition RuntimeSystemd := "systemd".
Definition RuntimeWindowsService := "windows-service".

Definition ProtoTCP := "tcp".
Definition ProtoUDP := "udp".
Definition ProtoHTTP := "http".

Definition RestartPolicyAlways := "always".
Definition RestartPolicyOnFailure := "on-failure".
Definition RestartPolicyNever := "never".

Definition RolloutStrategyRecreate := "recreate".
Definition RolloutStrategyStopBeforeStart := "stop-before-start".
Definition RolloutStrategyRolling := "rolling".

Definition DependencyConditionStarted := "started".
Definition DependencyConditionReady := "ready".
Definition DependencyConditionCompleted := "completed".

Record Metadata := mkMetadata {
  md_Name : string;
  md_Namespace : string;
  md_Labels : gmap string string;
  md_Annotations : gmap string string;
}.

Record ArtifactSpec := mkArtifact { art_Image : string; art_Path : string; art_URL : string }.
Record ExecSpec := mkExec { exec_Command : list string; exec_Args : list string }.
Record EnvVar := mkEnvVar { env_Name : string; env_Value : string }.

Record DockerOptions := mkDocker {
  docker_NetworkMode : string; docker_Privileged : bool; docker_Labels : gmap string string }.
Record ContainerdOptions := mkContainerd { containerd_Namespace : string }.
Record FirecrackerOptions := mkFirecracker {
  fc_KernelImagePath : string; fc_RootfsPath : string; fc_BootArgs : string;
  fc_BinaryPath : string; fc_SocketPath : string; fc_RootfsReadOnly : bool;
  fc_NetworkInterfaceID : string; fc_TapDeviceName : string; fc_GuestMAC : string;
  fc_AllowMMDSRequests : bool; fc_VCPUCount : Z; fc_MemSizeMiB : Z }.
Record ProcessOptions := mkProcess {
  proc_GracefulStopTimeout : string; proc_StdoutPath : string; proc_StderrPath : string }.
Record SystemdOptions := mkSystemd {
  sd_UnitName : string; sd_User : string; sd_Group : string;
  sd_Restart : string; sd_RestartSec : string; sd_WantedBy : string }.
Record WindowsServiceOptions := mkWindows {
  win_ServiceName : string; win_DisplayName : string; win_StartType : string }.

Record RunOptions := mkRunOptions {
  opt_Docker : option DockerOptions; opt_Containerd : option ContainerdOptions;
  opt_Firecracker : option FirecrackerOptions; opt_Process : option ProcessOptions;
  opt_Systemd : option SystemdOptions; opt_WindowsService : option WindowsServiceOptions }.

Record RunSpec := mkRun {
  run_Artifact : ArtifactSpec; run_Exec : ExecSpec; run_Env : list EnvVar;
  run_Cwd : string; run_User : string; run_Options : RunOptions }.

Record Endpoint := mkEndpoint {
  ep_Name : string; ep_Port : Z; ep_Protocol : string; ep_HostPort : Z; ep_HostIP : string }.

Record VolumeRef := mkVolumeRef { vr_Name : string }.
Record WorkloadRef := mkWorkloadRef { wr_Name : string; wr_Condition : string }.
Record EndpointRef := mkEndpointRef { er_Workload : string; er_Endpoint : string }.

Record Mount := mkMount { mnt_Volume : VolumeRef; mnt_Target : string; mnt_ReadOnly : bool }.
Record Resources := mkResources { res_CPUMillis : Z; res_MemoryBytes : Z }.

Record HTTPProbe := mkHTTPProbe { hp_Path : string; hp_Endpoint : EndpointRef; hp_Port : Z }.
Record TCPProbe := mkTCPProbe { tp_Endpoint : EndpointRef; tp_Port : Z }.
Record Probe := mkProbe {
  pr_HTTP : option HTTPProbe; pr_TCP : option TCPProbe; pr_Interval : string;
  pr_Timeout : string; pr_Retries : Z; pr_StartPeriod : string }.
Record Health := mkHealth {
  h_Readiness : option Probe; h_Liveness : option Probe; h_Startup : option Probe }.

Record Lifecycle := mkLifecycle {
  lc_RestartPolicy : string; lc_MaxRestarts : Z; lc_RestartDelay : string }.
Record Scheduling := mkScheduling {
  sch_Stateful : bool; sch_AllowLeader : bool; sch_PreferredNodes : list string }.
Record Rollout := mkRollout {
  ro_Strategy : string; ro_MaxUnavailable : Z; ro_MaxSurge : Z;
  ro_RollbackOnFailure : bool; ro_ProgressDeadline : string }.

Record Workload := mkWorkload {
  w_Name : string; w_Kind : string; w_Run : RunSpec; w_Runtime : string;
  w_Replicas : Z; w_DependsOn : list WorkloadRef; w_Endpoints : list Endpoint;
  w_Mounts : list Mount; w_Resources : option Resources; w_Health : option Health;
  w_Lifecycle : option Lifecycle; w_Scheduling : option Scheduling; w_Rollout : option Rollout }.

Record Config := mkConfig { cfg_Name : string; cfg_Data : gmap string string }.
Record Secret := mkSecret { sec_Name : string; sec_Data : gmap string string }.
Record Volume := mkVolume { vol_Name : string; vol_Persistent : bool; vol_SizeBytes : Z }.
Record IngressRoute := mkIngressRoute { ir_Path : string; ir_Backend : EndpointRef }.
Record Ingress := mkIngress { ing_Name : string; ing_Host : string; ing_Routes : list IngressRoute }.

Record App := mkApp {
  app_APIVersion : string; app_Kind : string; app_Metadata : Metadata;
  app_Workloads : list Workload; app_Configs : list Config; app_Secrets : list Secret;
  app_Volumes : list Volume; app_Ingresses : list Ingress }.

(** Field updates of the Go code's value copies. *)
Definition set_namespace (ns : string) (m : Metadata) : Metadata :=
  mkMetadata (md_Name m) ns (md_Labels m) (md_Annotations m).

Definition set_app_metadata (m : Metadata) (a : App) : App :=
  mkApp (app_APIVersion a) (app_Kind a) m (app_Workloads a) (app_Configs a) (app_Secrets a)
    (app_Volumes a) (app_Ingresses a).

Definition set_scheduling (s : option Scheduling) (w : Workload) : Workload :=
  mkWorkload (w_Name w) (w_Kind w) (w_Run w) (w_Runtime w) (w_Replicas w) (w_DependsOn w)
    (w_Endpoints w) (w_Mounts w) (w_Resources w) (w_Health w) (w_Lifecycle w) s (w_Rollout w).

(** ** collections.go: the lists behind optional parents *)
Definition PreferredNodeList (w : Workload) : list string :=
  match w_Scheduling w with None => [] | Some s => sch_PreferredNodes s end.

(** ** dependency_conditions.go *)
Definition NormalizeDependencyCondition (condition : string) : string :=
  let c := TrimSpace condition in
  if (c =? "")%string then DependencyConditionReady else c.

Definition EffectiveCondition (r : WorkloadRef) : string :=
  NormalizeDependencyCondition (wr_Condition r).

Definition IsDependencyCondition (condition : string) : bool :=
  let c := NormalizeDependencyCondition condition in
  (c =? DependencyConditionStarted)%string || (c =? DependencyConditionReady)%string
  || (c =? DependencyConditionCompleted)%string.

Definition WorkloadKindCanComplete (kind : string) : bool :=
  (kind =? WorkloadKindJob)%string || (kind =? WorkloadKindCron)%string.

(** ** rollout.go *)
Definition EffectiveStrategy (r : option Rollout) : string :=
  match r with
  | None => RolloutStrategyStopBeforeStart
  | Some r =>
      if (TrimSpace (ro_Strategy r) =? "")%string then RolloutStrategyStopBeforeStart
      else TrimSpace (ro_Strategy r)
  end.

Definition RollbackOnFailureEnabled (r : option Rollout) : bool :=
  match r with None => false | Some r => ro_RollbackOnFailure r end.

Definition ProgressDeadlineDuration (r : option Rollout) : res Z :=
  match r with
  | None => Ok 0%Z
  | Some r =>
      if (TrimSpace (ro_ProgressDeadline r) =? "")%string then Ok 0%Z
      else wrap "parse rollout progress deadline" [] (ParseDuration (ro_ProgressDeadline r))
  end.

Definition IsRolloutStrategy (strategy : string) : bool :=
  let s := TrimSpace strategy in
  (s =? "")%string || (s =? RolloutStrategyRecreate)%string
  || (s =? RolloutStrategyStopBeforeStart)%string || (s =? RolloutStrategyRolling)%string.

(** ** load.go: defaults applied after decoding *)
Definition defaultAppMeta (a : App) : App :=
  let v := if (app_APIVersion a =? "")%string then "warden.arcgolabs.io/v1alpha1" else app_APIVersion a in
  let k := if (app_Kind a =? "")%string then "App" else app_Kind a in
  mkApp v k (app_Metadata a) (app_Workloads a) (app_Configs a) (app_Secrets a)
    (app_Volumes a) (app_Ingresses a).

(** ** generation.go *)
Definition namespaceOrDefault (namespace : string) : string :=
  let ns := TrimSpace namespace in
  if (ns =? "")%string then "default" else ns.

Definition hex_digit (n : N) : ascii :=
  ascii_of_N (if (n <? 10)%N then 48 + n else 87 + n).

(** [hex.EncodeToString] *)
Definition EncodeToString (l : list ascii) : string :=
  of_bytes (l ≫= λ a, [hex_digit (byte_val a / 16)%N; hex_digit (byte_val a `mod` 16)%N]).

(** The two library functions the digest is built from: [json.Marshal] of an App ([None] when
    it fails) and [sha256.Sum256].  SHA-256 digests have 32 bytes. *)
Class Digest := {
  json_app : App → option (list ascii);
  sha256 : list ascii → list ascii;
}.

Section generation.
Context `{Digest}.

Definition AppGeneration (app : App) : string :=
  let m := app_Metadata app in
  let copyApp := set_app_metadata (set_namespace (namespaceOrDefault (md_Namespace m)) m) app in
  match json_app copyApp with
  | None => ""
  | Some b => EncodeToString (take 8 (sha256 b))
  end.

(** The digest does not see how the default namespace was spelled. *)
Lemma AppGeneration_namespace app ns :
  namespaceOrDefault ns = namespaceOrDefault (md_Namespace (app_Metadata app)) →
  AppGeneration (set_app_metadata (set_namespace ns (app_Metadata app)) app) = AppGeneration app.
Proof. intros Hns. unfold AppGeneration. cbn. by rewrite Hns. Qed.

Lemma hex_digit_graphic n : (n < 16)%N → graphic (hex_digit n) = true.
Proof.
  intros Hn. unfold graphic, byte_val, hex_digit.
  rewrite N_ascii_embedding by (destruct (n <? 10)%N; lia).
  apply andb_true_iff. rewrite !N.leb_le. destruct (N.ltb_spec n 10); lia.
Qed.

(** A generation is hexadecimal text, so trimming it does nothing. *)
Lemma AppGeneration_trimmed app : trimmed (AppGeneration app).
Proof.
  unfold AppGeneration. destruct (json_app _) as [b|]; [|done].
  apply graphic_trimmed. unfold EncodeToString.
  rewrite String.list_ascii_of_string_of_list_ascii.
  apply Forall_bind, Forall_true. intros a.
  assert (byte_val a < 256)%N by apply N_ascii_bounded.
  repeat constructor; apply hex_digit_graphic; [apply N.Div0.div_lt_upper_bound|apply N.mod_lt]; lia.
Qed.
End generation.

#[export] Hint Resolve AppGeneration_trimmed : orch.

(** ** refs_yaml.go: the YAML forms of a reference

    A [yaml.Node] of the decoder: its kind, its scalar text, and, for a mapping node, what the
    library's [Decode] makes of it. *)
Inductive NodeKind :=
| DocumentNode | SequenceNode | MappingNode | ScalarNode | AliasNode | OtherNode.

Record Node (R : Type) := mkNode { n_Kind : NodeKind; n_Value : string; n_Decode : res R }.
Arguments mkNode {R}. Arguments n_Kind {R}. Arguments n_Value {R}. Arguments n_Decode {R}.

Definition WorkloadRef_UnmarshalYAML (r : WorkloadRef) (value : Node WorkloadRef) : res WorkloadRef :=
  match n_Kind value with
  | ScalarNode => Ok (mkWorkloadRef (TrimSpace (n_Value value)) (wr_Condition r))
  | MappingNode => wrap "decode workload ref" [] (n_Decode value)
  | DocumentNode | SequenceNode | AliasNode =>
      Err (Errorf "invalid workload ref (unsupported YAML node kind %v)" [])
  | OtherNode => Err (Errorf "invalid workload ref" [])
  end.

Definition VolumeRef_UnmarshalYAML (r : VolumeRef) (value : Node VolumeRef) : res VolumeRef :=
  match n_Kind value with
  | ScalarNode => Ok (mkVolumeRef (TrimSpace (n_Value value)))
  | MappingNode => wrap "decode volume ref" [] (n_Decode value)
  | DocumentNode | SequenceNode | AliasNode =>
      Err (Errorf "invalid volume ref (unsupported YAML node kind %v)" [])
  | OtherNode => Err (Errorf "invalid volume ref" [])
  end.

Definition EndpointRef_UnmarshalYAML (r : EndpointRef) (value : Node EndpointRef) : res EndpointRef :=
  match n_Kind value with
  | ScalarNode =>
      let s := TrimSpace (n_Value value) in
      if (s =? "")%string then Ok r else
      match cut_byte ":" s with
      | None => Err (Errorf "invalid endpoint ref %q (expected workload:endpoint)" [AStr s])
      | Some (a, b) => Ok (mkEndpointRef (TrimSpace a) (TrimSpace b))
      end
  | MappingNode => wrap "decode endpoint ref" [] (n_Decode value)
  | DocumentNode | SequenceNode | AliasNode =>
      Err (Errorf "invalid endpoint ref (unsupported YAML node kind %v)" [])
  | OtherNode => Err (Errorf "invalid endpoint ref" [])
  end.

Lemma cut_byte_app x s t :
  ContainsByte s x = false → cut_byte x (s +:+ String x t) = Some (s, t).
Proof.
  unfold ContainsByte. induction s as [|a s IH]; cbn [String.list_ascii_of_string existsb].
  - intros _. rewrite append_nil_l. cbn [cut_byte]. by rewrite Ascii.eqb_refl.
  - rewrite orb_false_iff. intros [Ha Hs]. rewrite append_cons. cbn [cut_byte].
    rewrite Ascii.eqb_sym, Ha, IH by done. done.
Qed.
