(* ===== verification/Dependency.v ===== *)
(** * Workload dependency order (internal/deploy/v1alpha1/dependency.go)

    [WorkloadsInDependencyOrder] builds a directed graph of workload names with a third-party
    graph package and asks it for a topological order.  The package is an interface
    ([GraphLib]) with the behaviour it documents ([GraphLaws]); the client's theorems are
    proved against the interface, and file Kahn implements it. *)
From stdpp Require Import base strings numbers relations gmap list.
From S2P Require Import Prelude GoStrings Deploy.

(** ** The graph package *)
Inductive topo := Sorted (ids : list string) | ErrCycleDetected | TopoErr (e : error).

Class GraphLib := {
  graph : Type;
  NewDirectedGraph : graph;
  AddNode : graph → string → nat → graph;
  HasNode : graph → string → bool;
  GetNode : graph → string → option nat;
  AddEdge : graph → string → string → res graph;
  TopologicalSort : graph → topo;
}.

(** [a] occurs before [b]. *)
Definition before (l : list string) (a b : string) : Prop :=
  ∃ i j, i < j ∧ l !! i = Some a ∧ l !! j = Some b.

Definition acyclic (R : relation string) : Prop := ∀ x, ¬ tc R x x.

(** The contract: a graph denotes its labelled nodes and its edges.  What [AddEdge] does on a
    self loop or on an edge already present is left open: it may fail or succeed. *)
Class GraphLaws `{GraphLib} := {
  nodes : graph → gmap string nat;
  edge : graph → relation string;
  closed (g : graph) : Prop :=
    ∀ a b, edge g a b → is_Some (nodes g !! a) ∧ is_Some (nodes g !! b);
  nodes_new : nodes NewDirectedGraph = ∅;
  edge_new a b : ¬ edge NewDirectedGraph a b;
  nodes_AddNode g id v : nodes (AddNode g id v) = <[id := v]> (nodes g);
  edge_AddNode g id v a b : edge (AddNode g id v) a b ↔ edge g a b;
  HasNode_spec g id : HasNode g id = true ↔ is_Some (nodes g !! id);
  GetNode_spec g id : GetNode g id = nodes g !! id;
  AddEdge_sound g a b g' : AddEdge g a b = Ok g' →
    nodes g' = nodes g ∧ ∀ x y, edge g' x y ↔ (x = a ∧ y = b) ∨ edge g x y;
  AddEdge_complete g a b : is_Some (nodes g !! a) → is_Some (nodes g !! b) →
    a ≠ b → ¬ edge g a b → ∃ g', AddEdge g a b = Ok g';
  topo_sound g ids : closed g → TopologicalSort g = Sorted ids →
    NoDup ids ∧ (∀ x, x ∈ ids ↔ is_Some (nodes g !! x)) ∧
    (∀ a b, edge g a b → before ids a b);
  topo_complete g : closed g →
    acyclic (edge g) → ∃ ids, TopologicalSort g = Sorted ids;
  topo_cycle g : closed g → ¬ acyclic (edge g) → TopologicalSort g = ErrCycleDetected;
}.

Definition wname (w : Workload) : string := TrimSpace (w_Name w).
Definition dname (r : WorkloadRef) : string := TrimSpace (wr_Name r).

(** ** The code *)
Section order.
Context `{GraphLib}.

Definition addWorkloadDependencyNode (i : nat) (st : graph * gset string) (workload : Workload)
    : res (graph * gset string) :=
  let '(depGraph, seen) := st in
  let name := TrimSpace (w_Name workload) in
  if (name =? "")%string then Err (Errorf "workloads[%d].name is required" [ANat i])
  else if bool_decide (name ∈ seen) then Err (Errorf "duplicate workload name %q" [AStr name])
  else Ok (AddNode depGraph name i, {[name]} ∪ seen).

Definition addWorkloadDependencyNodes (workloads : list Workload) (depGraph : graph) : res graph :=
  st ← range_fold addWorkloadDependencyNode (depGraph, ∅) workloads; Ok st.1.

Definition addWorkloadDependencyEdge (i j : nat) (depName workloadName : string) (depGraph : graph)
    : res graph :=
  if negb (HasNode depGraph depName)
  then Err (Errorf "workloads[%d].dependsOn[%d]: unknown workload %q" [ANat i; ANat j; AStr depName])
  else wrap "workloads[%d].dependsOn[%d]" [ANat i; ANat j] (AddEdge depGraph depName workloadName).

Definition addWorkloadDependencyEdgesForWorkload (i : nat) (depGraph : graph) (workload : Workload)
    : res graph :=
  let workloadName := TrimSpace (w_Name workload) in
  range_fold (λ j g ref, addWorkloadDependencyEdge i j (TrimSpace (wr_Name ref)) workloadName g)
    depGraph (w_DependsOn workload).

Definition addWorkloadDependencyEdges (workloads : list Workload) (depGraph : graph) : res graph :=
  range_fold addWorkloadDependencyEdgesForWorkload depGraph workloads.

Definition buildWorkloadDependencyGraph (workloads : list Workload) : res graph :=
  g ← addWorkloadDependencyNodes workloads NewDirectedGraph;
  addWorkloadDependencyEdges workloads g.

(** The workload stored under an id: skipped when the node or the index is missing. *)
Definition workload_of_id (workloads : list Workload) (depGraph : graph) (id : string) : option Workload :=
  idx ← GetNode depGraph id; workloads !! idx.

Definition orderedWorkloads (workloads : list Workload) (depGraph : graph) : res (list Workload) :=
  match TopologicalSort depGraph with
  | ErrCycleDetected => Err (Errorf "workloads dependsOn contains a cycle" [])
  | TopoErr e => Err (Wrapf e "workloads dependsOn graph" [])
  | Sorted ids => Ok (omap (workload_of_id workloads depGraph) ids)
  end.

Definition WorkloadsInDependencyOrder (a : App) : res (list Workload) :=
  let workloads := app_Workloads a in
  if (length workloads =? 0)%nat then Ok []
  else depGraph ← buildWorkloadDependencyGraph workloads; orderedWorkloads workloads depGraph.
End order.

(** ** The specification *)

(** [n] depends on [d] in the document. *)
Definition depends (ws : list Workload) (d n : string) : Prop :=
  ∃ w r, w ∈ ws ∧ r ∈ w_DependsOn w ∧ d = dname r ∧ n = wname w.

Definition deps_known (ws : list Workload) : Prop :=
  ∀ w r, w ∈ ws → r ∈ w_DependsOn w → dname r ∈ (wname <$> ws).

Record well_named (ws : list Workload) : Prop := {
  names_nonempty : Forall (λ w, wname w ≠ "") ws;
  names_unique : NoDup (wname <$> ws);
}.

(** Every workload comes after the workloads it depends on. *)
Definition dependency_ordered (ws : list Workload) : Prop :=
  ∀ i w r, ws !! i = Some w → r ∈ w_DependsOn w →
    ∃ j w', j < i ∧ ws !! j = Some w' ∧ wname w' = dname r.

Section proofs.
Context `{GraphLaws}.

(** *** Nodes *)
Lemma add_node_eq i g seen w :
  addWorkloadDependencyNode i (g, seen) w =
    if (wname w =? "")%string then Err (Errorf "workloads[%d].name is required" [ANat i])
    else if bool_decide (wname w ∈ seen) then Err (Errorf "duplicate workload name %q" [AStr (wname w)])
    else Ok (AddNode g (wname w) i, {[wname w]} ∪ seen).
Proof. done. Qed.

Lemma add_nodes_sound ws : ∀ i g seen g' seen',
  range_fold_from addWorkloadDependencyNode i (g, seen) ws = Ok (g', seen') →
  well_named ws ∧ (∀ w, w ∈ ws → wname w ∉ seen) ∧
  (∀ k w, ws !! k = Some w → nodes g' !! wname w = Some (i + k)) ∧
  (∀ id, id ∉ (wname <$> ws) → nodes g' !! id = nodes g !! id) ∧
  (∀ a b, edge g' a b ↔ edge g a b).
Proof.
  induction ws as [|w ws IH]; intros i g seen g' seen'; cbn [range_fold_from].
  { intros [= <- <-]. split_and!; try done.
    - split; [constructor|apply NoDup_nil_2].
    - intros w. by rewrite elem_of_nil. }
  rewrite add_node_eq.
  destruct (String.eqb_spec (wname w) "") as [|Hne]; [done|].
  case_bool_decide as Hseen; [done|]. cbn [mbind res_bind].
  intros (WN & Hfresh & Hidx & Hold & Hedge)%IH.
  assert (wname w ∉ (wname <$> ws)) as Hnew.
  { intros (w' & Hw' & Hin)%list_elem_of_fmap. specialize (Hfresh w' Hin). set_solver. }
  split_and!.
  - split; [constructor; [done|apply WN]|]. rewrite fmap_cons. apply NoDup_cons. split; [done|apply WN].
  - intros w' [->|Hin]%elem_of_cons; [done|]. specialize (Hfresh w' Hin). set_solver.
  - intros [|k] w' Hk; cbn in Hk; simplify_eq.
    + rewrite Hold, nodes_AddNode, lookup_insert_eq by done. f_equal. lia.
    + rewrite (Hidx k w' Hk). f_equal. lia.
  - intros id. rewrite fmap_cons, not_elem_of_cons. intros [Hid Hid'].
    by rewrite Hold, nodes_AddNode, lookup_insert_ne by done.
  - intros a b. by rewrite Hedge, edge_AddNode.
Qed.

Lemma add_nodes_complete ws : ∀ i g seen,
  well_named ws → (∀ w, w ∈ ws → wname w ∉ seen) →
  ∃ g' seen', range_fold_from addWorkloadDependencyNode i (g, seen) ws = Ok (g', seen').
Proof.
  induction ws as [|w ws IH]; intros i g seen [Hne Hnd] Hfresh; cbn [range_fold_from]; [by eauto|].
  apply Forall_cons in Hne as [Hw Hne]. rewrite fmap_cons in Hnd.
  apply NoDup_cons in Hnd as [Hnew Hnd].
  rewrite add_node_eq.
  destruct (String.eqb_spec (wname w) "") as [|_]; [done|].
  rewrite bool_decide_false by (apply Hfresh; set_solver). cbn [mbind res_bind].
  apply IH; [done|]. intros w' Hin. specialize (Hfresh w' ltac:(set_solver)).
  assert (wname w' ≠ wname w); [|set_solver].
  intros E. apply Hnew. rewrite <-E. by apply list_elem_of_fmap_2.
Qed.

(** *** Edges *)
Lemma add_edges_one_sound n refs : ∀ i j g g',
  range_fold_from (λ j g r, addWorkloadDependencyEdge i j (dname r) n g) j g refs = Ok g' →
  nodes g' = nodes g ∧ (∀ r, r ∈ refs → is_Some (nodes g !! dname r)) ∧
  (∀ a b, edge g' a b ↔ edge g a b ∨ ∃ r, r ∈ refs ∧ a = dname r ∧ b = n).
Proof.
  induction refs as [|r refs IH]; intros i j g g'; cbn [range_fold_from].
  { intros [= <-]. set_solver. }
  intros (g1 & Hg1 & (Hn & Hk & He)%IH)%res_bind_ok. revert Hg1.
  unfold addWorkloadDependencyEdge. destruct (HasNode g (dname r)) eqn:Hh; [|done].
  cbn [negb]. rewrite wrap_ok. intros [Hn1 He1]%AddEdge_sound. cbn.
  apply HasNode_spec in Hh. rewrite Hn, Hn1. split_and!; [done| |].
  - intros r' [->|?]%elem_of_cons; [done|]. rewrite <-Hn1. by apply Hk.
  - intros a b. rewrite He, He1. set_solver.
Qed.

Lemma add_edges_sound ws : ∀ i g g',
  range_fold_from addWorkloadDependencyEdgesForWorkload i g ws = Ok g' →
  nodes g' = nodes g ∧ (∀ w r, w ∈ ws → r ∈ w_DependsOn w → is_Some (nodes g !! dname r)) ∧
  (∀ a b, edge g' a b ↔ edge g a b ∨ depends ws a b).
Proof.
  induction ws as [|w ws IH]; intros i g g'; cbn [range_fold_from].
  { intros [= <-]. split_and!; [done|set_solver|]. intros a b. unfold depends. set_solver. }
  intros (g1 & (Hn1 & Hk1 & He1)%add_edges_one_sound & (Hn & Hk & He)%IH)%res_bind_ok.
  fold (wname w) in *. rewrite Hn1 in *. split_and!; [done| |].
  - intros w' r [->|?]%elem_of_cons ?; eauto.
  - intros a b. rewrite He, He1. unfold depends. set_solver.
Qed.

Definition NoDup_deps (ws : list Workload) : Prop :=
  ∀ w, w ∈ ws → NoDup (dname <$> w_DependsOn w).

Lemma add_edges_one_complete n refs : ∀ i j g,
  (∀ r, r ∈ refs → is_Some (nodes g !! dname r)) → is_Some (nodes g !! n) →
  (∀ r, r ∈ refs → dname r ≠ n ∧ ¬ edge g (dname r) n) → NoDup (dname <$> refs) →
  ∃ g', range_fold_from (λ j g r, addWorkloadDependencyEdge i j (dname r) n g) j g refs = Ok g'.
Proof.
  induction refs as [|r refs IH]; intros i j g Hk Hn Hfresh Hnd; cbn [range_fold_from]; [by eauto|].
  rewrite fmap_cons in Hnd. apply NoDup_cons in Hnd as [Hnew Hnd].
  destruct (Hfresh r ltac:(set_solver)) as [Hrn Hre].
  assert (addWorkloadDependencyEdge i j (dname r) n g =
    wrap "workloads[%d].dependsOn[%d]" [ANat i; ANat j] (AddEdge g (dname r) n)) as ->.
  { unfold addWorkloadDependencyEdge.
    by assert (HasNode g (dname r) = true) as -> by (apply HasNode_spec, Hk; set_solver). }
  destruct (AddEdge_complete g (dname r) n) as [g1 Hg1]; [apply Hk; set_solver|done|done|done|].
  rewrite Hg1. cbn. apply AddEdge_sound in Hg1 as [Hn1 He1].
  apply IH; rewrite ?Hn1; [set_solver|done| |done].
  intros r' Hr'. destruct (Hfresh r' ltac:(set_solver)) as [? ?]. split; [done|].
  rewrite He1. intros [[E _]|?]; [|done]. apply Hnew. rewrite <-E. by apply list_elem_of_fmap_2.
Qed.

Lemma add_edges_complete ws : ∀ i g,
  (∀ w r, w ∈ ws → r ∈ w_DependsOn w → is_Some (nodes g !! dname r)) →
  (∀ w, w ∈ ws → is_Some (nodes g !! wname w)) →
  (∀ w r, w ∈ ws → r ∈ w_DependsOn w → dname r ≠ wname w ∧ ¬ edge g (dname r) (wname w)) →
  NoDup (wname <$> ws) → NoDup_deps ws →
  ∃ g', range_fold_from addWorkloadDependencyEdgesForWorkload i g ws = Ok g'.
Proof.
  induction ws as [|w ws IH]; intros i g Hk Hn Hfresh Hnd Hdd; cbn [range_fold_from]; [by eauto|].
  rewrite fmap_cons in Hnd. apply NoDup_cons in Hnd as [Hnew Hnd].
  destruct (add_edges_one_complete (wname w) (w_DependsOn w) i 0 g) as [g1 Hg1];
    [set_solver|set_solver|intros r ?; apply (Hfresh w); set_solver|apply Hdd; set_solver|].
  assert (addWorkloadDependencyEdgesForWorkload i g w = Ok g1) as -> by done.
  cbn [mbind res_bind].
  apply add_edges_one_sound in Hg1 as (Hn1 & _ & He1).
  apply IH; rewrite ?Hn1; [set_solver|set_solver| |done|].
  - intros w' r Hw' Hr. destruct (Hfresh w' r ltac:(set_solver) Hr) as [? ?]. split; [done|].
    rewrite He1. intros [?|(r' & _ & _ & E)]; [done|]. apply Hnew. rewrite <-E.
    by apply list_elem_of_fmap_2.
  - intros w' ?. apply Hdd. set_solver.
Qed.

(** *** The graph of a document *)
Lemma build_sound ws g :
  buildWorkloadDependencyGraph ws = Ok g →
  well_named ws ∧ deps_known ws ∧
  (∀ k w, ws !! k = Some w → nodes g !! wname w = Some k) ∧
  (∀ id, is_Some (nodes g !! id) ↔ id ∈ (wname <$> ws)) ∧
  (∀ a b, edge g a b ↔ depends ws a b).
Proof.
  unfold buildWorkloadDependencyGraph, addWorkloadDependencyNodes, addWorkloadDependencyEdges.
  intros (g1 & ([g1' seen'] & Hnodes & [= ->])%res_bind_ok & Hedges)%res_bind_ok. cbn [fst] in *.
  apply add_nodes_sound in Hnodes as (WN & _ & Hidx & Hold & He1).
  apply add_edges_sound in Hedges as (Hn & Hk & He).
  assert (Hdom : ∀ id, is_Some (nodes g1 !! id) ↔ id ∈ (wname <$> ws)).
  { intros id. destruct (decide (id ∈ (wname <$> ws))) as [Hin|Hout].
    - split; [done|]. intros _. apply list_elem_of_fmap in Hin as (w & -> & Hin).
      apply list_elem_of_lookup in Hin as [k Hk']. eexists. by apply Hidx.
    - rewrite Hold, nodes_new, lookup_empty by done. split; [by intros []|done]. }
  rewrite Hn. split_and!; try done.
  - intros w r Hw Hr. apply Hdom. by apply (Hk w r).
  - intros a b. rewrite He, He1. pose proof (edge_new a b). tauto.
Qed.

Lemma build_complete ws :
  well_named ws → deps_known ws → NoDup_deps ws → (∀ x, ¬ depends ws x x) →
  ∃ g, buildWorkloadDependencyGraph ws = Ok g.
Proof.
  intros WN DK ND Hirr.
  destruct (add_nodes_complete ws 0 NewDirectedGraph ∅ WN) as (g1 & seen & Hnodes); [set_solver|].
  unfold buildWorkloadDependencyGraph, addWorkloadDependencyNodes, range_fold.
  rewrite Hnodes. cbn. apply add_nodes_sound in Hnodes as (_ & _ & Hidx & _ & He1).
  assert (Hin : ∀ id, id ∈ (wname <$> ws) → is_Some (nodes g1 !! id)).
  { intros id (w & -> & [k Hk]%list_elem_of_lookup)%list_elem_of_fmap. eexists. by apply Hidx. }
  apply add_edges_complete; [| |intros w r Hw Hr; split| |done].
  - intros w r Hw Hr. apply Hin. by apply (DK w r).
  - intros w Hw. apply Hin. by apply list_elem_of_fmap_2.
  - intros E. apply (Hirr (wname w)). exists w, r. by rewrite E.
  - rewrite He1. apply edge_new.
  - apply WN.
Qed.

Lemma build_closed ws g : buildWorkloadDependencyGraph ws = Ok g → closed g.
Proof.
  intros (_ & DK & _ & Hdom & Hedge)%build_sound a b Hab%Hedge.
  destruct Hab as (w & r & Hw & Hr & -> & ->). rewrite !Hdom.
  split; [by apply (DK w r)|by apply list_elem_of_fmap_2].
Qed.

(** *** The order *)
Lemma workload_of_id_name ws g w :
  (∀ k w, ws !! k = Some w → nodes g !! wname w = Some k) → w ∈ ws →
  workload_of_id ws g (wname w) = Some w.
Proof.
  intros Hidx [k Hk]%list_elem_of_lookup. unfold workload_of_id.
  rewrite GetNode_spec, (Hidx k w Hk). done.
Qed.

Lemma omap_ids (ws : list Workload) g (ids : list string) :
  (∀ k w, ws !! k = Some w → nodes g !! wname w = Some k) →
  (∀ x, x ∈ ids → x ∈ (wname <$> ws)) →
  ∃ out, omap (workload_of_id ws g) ids = out ∧ wname <$> out = ids ∧ (∀ w, w ∈ out → w ∈ ws).
Proof.
  intros Hidx. induction ids as [|id ids IH]; intros Hin; cbn.
  { exists []. set_solver. }
  destruct IH as (out & -> & Hnames & Hsub); [set_solver|].
  assert (id ∈ wname <$> ws) as (w & -> & Hw)%list_elem_of_fmap by set_solver.
  rewrite (workload_of_id_name ws g w) by done. eexists. split; [done|].
  rewrite fmap_cons, Hnames. set_solver.
Qed.

Lemma same_names_perm (l1 l2 : list Workload) :
  NoDup (wname <$> l2) → wname <$> l1 ≡ₚ wname <$> l2 → (∀ w, w ∈ l1 → w ∈ l2) → l1 ≡ₚ l2.
Proof.
  intros Hnd Hp Hsub. apply NoDup_Permutation.
  - eapply NoDup_fmap_1. by rewrite Hp.
  - by eapply NoDup_fmap_1.
  - intros w. split; [apply Hsub|]. intros Hw.
    assert (wname w ∈ wname <$> l1) as (w' & Hn & Hw')%list_elem_of_fmap.
    { rewrite Hp. by apply list_elem_of_fmap_2. }
    assert (w' = w) as <-; [|done].
    apply Hsub in Hw'. clear -Hnd Hn Hw Hw'.
    apply list_elem_of_lookup in Hw as [i Hi], Hw' as [j Hj].
    assert (i = j) as ->; [|congruence].
    apply (NoDup_lookup (wname <$> l2) _ _ (wname w) Hnd).
    + by rewrite list_lookup_fmap, Hi.
    + by rewrite list_lookup_fmap, Hj, Hn.
Qed.

Lemma ordered_sound ws g out :
  buildWorkloadDependencyGraph ws = Ok g → orderedWorkloads ws g = Ok out →
  out ≡ₚ ws ∧ dependency_ordered out.
Proof.
  intros Hg. pose proof (build_closed _ _ Hg) as Hcl.
  apply build_sound in Hg as (WN & DK & Hidx & Hdom & Hedge). unfold orderedWorkloads.
  destruct (TopologicalSort g) as [ids| |] eqn:Ht; [|done|done]. intros [= <-].
  apply topo_sound in Ht as (Hnd & Hids & Hord); [|done].
  destruct (omap_ids ws g ids Hidx) as (out & Hout & Hnames & Hsub).
  { intros x Hx. by apply Hdom, Hids. }
  rewrite Hout. split.
  - apply same_names_perm; [apply WN| |done]. rewrite Hnames.
    apply NoDup_Permutation; [done|apply WN|]. intros x. by rewrite Hids, Hdom.
  - intros i w r Hi Hr.
    destruct (Hord (dname r) (wname w)) as (j & k & Hjk & Hj & Hk).
    { apply Hedge. exists w, r. split_and!; try done. apply Hsub. by eapply list_elem_of_lookup_2. }
    assert (k = i) as ->.
    { apply (NoDup_lookup ids _ _ (wname w) Hnd Hk). by rewrite <-Hnames, list_lookup_fmap, Hi. }
    rewrite <-Hnames, list_lookup_fmap in Hj. destruct (out !! j) as [w'|] eqn:Ej; [|done].
    exists j, w'. naive_solver.
Qed.

Lemma order_nil a : app_Workloads a = [] → WorkloadsInDependencyOrder a = Ok [].
Proof. intros E. unfold WorkloadsInDependencyOrder. by rewrite E. Qed.

Lemma order_cons a :
  app_Workloads a ≠ [] →
  WorkloadsInDependencyOrder a =
    (g ← buildWorkloadDependencyGraph (app_Workloads a); orderedWorkloads (app_Workloads a) g).
Proof.
  intros E. unfold WorkloadsInDependencyOrder.
  destruct (Nat.eqb_spec (length (app_Workloads a)) 0) as [E0|]; [|done].
  by apply length_zero_iff_nil in E0.
Qed.

(** The facts other components use. *)
Lemma order_ok_spec a out :
  WorkloadsInDependencyOrder a = Ok out →
  out ≡ₚ app_Workloads a ∧ dependency_ordered out ∧
  well_named (app_Workloads a) ∧ deps_known (app_Workloads a).
Proof.
  destruct (app_Workloads a) as [|w ws] eqn:E.
  { rewrite order_nil by done. intros [= <-]. split_and!; try done.
    - split; [constructor|apply NoDup_nil_2].
    - intros w r. by rewrite elem_of_nil. }
  rewrite order_cons by congruence. rewrite E. intros (g & Hg & Ho)%res_bind_ok.
  pose proof (ordered_sound _ _ _ Hg Ho) as [? ?].
  apply build_sound in Hg as (? & ? & _). done.
Qed.

Lemma ordered_acyclic ws :
  NoDup (wname <$> ws) → dependency_ordered ws → acyclic (depends ws).
Proof.
  intros Hnd Hord x Hx.
  assert (Hlt : ∀ a b, tc (depends ws) a b →
    ∃ i j, i < j ∧ (wname <$> ws) !! i = Some a ∧ (wname <$> ws) !! j = Some b).
  { assert (Hone : ∀ a b, depends ws a b →
      ∃ i j, i < j ∧ (wname <$> ws) !! i = Some a ∧ (wname <$> ws) !! j = Some b).
    { intros a b (w & r & [j Hj]%list_elem_of_lookup & Hr & -> & ->).
      destruct (Hord j w r Hj Hr) as (i & w' & Hij & Hi & <-).
      exists i, j. by rewrite !list_lookup_fmap, Hi, Hj. }
    intros a b. induction 1 as [a b Hab|a b c Hab _ IH]; [by apply Hone|].
    destruct (Hone a b Hab) as (i & j & Hij & Hi & Hj).
    destruct IH as (j' & k & Hjk & Hj' & Hk).
    assert (j = j') as -> by (by eapply NoDup_lookup). exists i, k. split_and!; [lia|done|done]. }
  destruct (Hlt x x Hx) as (i & j & Hij & Hi & Hj).
  assert (i = j) by (by eapply NoDup_lookup). lia.
Qed.

(** A permutation has the same dependencies. *)
Lemma depends_perm ws ws' a b : ws ≡ₚ ws' → depends ws a b → depends ws' a b.
Proof. intros Hp (w & r & Hw & Hr). exists w, r. by rewrite <-Hp. Qed.

Lemma order_acyclic a out :
  WorkloadsInDependencyOrder a = Ok out → acyclic (depends (app_Workloads a)).
Proof.
  intros (Hp & Hord & [_ Hnd] & _)%order_ok_spec.
  apply ordered_acyclic in Hord; [|by rewrite Hp]. intros x Hx. apply (Hord x). revert Hx.
  apply tc_congruence with (f := id). intros ? ?. by apply depends_perm.
Qed.

Lemma order_exists a :
  well_named (app_Workloads a) → deps_known (app_Workloads a) → NoDup_deps (app_Workloads a) →
  acyclic (depends (app_Workloads a)) → ∃ out, WorkloadsInDependencyOrder a = Ok out.
Proof.
  intros WN DK ND AC. destruct (app_Workloads a) as [|w ws] eqn:E.
  { exists []. by apply order_nil. }
  rewrite order_cons, E by congruence.
  destruct (build_complete (w :: ws)) as [g Hg]; [done..| |].
  { intros x Hx. apply (AC x). by apply tc_once. }
  rewrite Hg. cbn. pose proof (build_closed _ _ Hg) as Hcl.
  apply build_sound in Hg as (_ & _ & Hidx & Hdom & Hedge).
  destruct (topo_complete g Hcl) as [ids Hids]; [|unfold orderedWorkloads; rewrite Hids; eauto].
  - intros x Hx. apply (AC x). revert Hx. apply tc_congruence with (f := id).
    intros ? ?. apply Hedge.
Qed.

Lemma order_cycle a :
  well_named (app_Workloads a) → deps_known (app_Workloads a) → NoDup_deps (app_Workloads a) →
  (∀ x, ¬ depends (app_Workloads a) x x) → ¬ acyclic (depends (app_Workloads a)) →
  WorkloadsInDependencyOrder a = Err (Errorf "workloads dependsOn contains a cycle" []).
Proof.
  intros WN DK ND Hirr Hcyc. rewrite order_cons.
  2: { intros E. apply Hcyc. rewrite E. intros x Hx.
       destruct Hx as [?? (?&?&?&_)|??? (?&?&?&_)]; set_solver. }
  destruct (build_complete _ WN DK ND Hirr) as [g Hg]. rewrite Hg. cbn.
  pose proof (build_closed _ _ Hg) as Hcl. apply build_sound in Hg as (_ & _ & _ & _ & Hedge).
  unfold orderedWorkloads. rewrite topo_cycle; [done|done|].
  intros AC. apply Hcyc. intros x Hx. apply (AC x). revert Hx.
  apply tc_congruence with (f := id). intros ? ?. apply Hedge.
Qed.
End proofs.
