(* ===== verification/Kahn.v ===== *)
(** * An implementation of the graph interface

    Kahn's algorithm on an edge list.  It discharges [GraphLaws], so the dependency-order
    theorems can be evaluated on concrete documents. *)
From stdpp Require Import base strings relations gmap list.
From S2P Require Import Prelude GoStrings Deploy Dependency.

Record kgraph := mkGraph { k_nodes : gmap string nat; k_edges : list (string * string) }.

Definition source (E : list (string * string)) (rem : list string) (x : string) : Prop :=
  Forall (λ e, e.2 = x → e.1 ∉ rem) E.

#[export] Instance source_dec E rem x : Decision (source E rem x).
Proof. unfold source. apply _. Defined.

Fixpoint kahn (fuel : nat) (E : list (string * string)) (rem : list string) : option (list string) :=
  match rem, fuel with
  | [], _ => Some []
  | _ :: _, O => None
  | _ :: _, S fuel' =>
      match list_find (source E rem) rem with
      | None => None
      | Some (_, x) => cons x <$> kahn fuel' E (filter (λ y, y ≠ x) rem)
      end
  end.

#[export] Instance kahn_lib : GraphLib := {
  graph := kgraph;
  NewDirectedGraph := mkGraph ∅ [];
  AddNode g id v := mkGraph (<[id := v]> (k_nodes g)) (k_edges g);
  HasNode g id := bool_decide (is_Some (k_nodes g !! id));
  GetNode g id := k_nodes g !! id;
  AddEdge g a b :=
    if bool_decide (is_Some (k_nodes g !! a) ∧ is_Some (k_nodes g !! b))
    then Ok (mkGraph (k_nodes g) ((a, b) :: k_edges g))
    else Err (Errorf "node not found" []);
  TopologicalSort g :=
    let ids := (map_to_list (k_nodes g)).*1 in
    match kahn (length ids) (k_edges g) ids with
    | Some out => Sorted out
    | None => ErrCycleDetected
    end;
}.

Section kahn_proofs.
Variable E : list (string * string).

Lemma before_cons x l a b : before l a b → before (x :: l) a b.
Proof. intros (i & j & ? & ? & ?). exists (S i), (S j). cbn. naive_solver lia. Qed.

Lemma before_head x l b : b ∈ l → before (x :: l) x b.
Proof. intros [j Hj]%list_elem_of_lookup. exists 0, (S j). cbn. naive_solver lia. Qed.

Lemma filter_remove_perm (x : string) l : NoDup l → x ∈ l → l ≡ₚ x :: filter (λ y, y ≠ x) l.
Proof.
  intros Hnd Hx. apply NoDup_Permutation; [done| |].
  - apply NoDup_cons. split; [|by apply NoDup_filter]. rewrite list_elem_of_filter. naive_solver.
  - intros y. rewrite elem_of_cons, list_elem_of_filter. destruct (decide (y = x)); naive_solver.
Qed.

Lemma kahn_sound fuel : ∀ rem out,
  NoDup rem → kahn fuel E rem = Some out →
  out ≡ₚ rem ∧ ∀ a b, (a, b) ∈ E → a ∈ rem → b ∈ rem → before out a b.
Proof.
  induction fuel as [|fuel IH]; intros [|y rem'] out Hnd Hk; cbn [kahn] in Hk; simplify_eq;
    try (split; [done|set_solver]).
  set (rem := y :: rem') in *.
  destruct (list_find (source E rem) rem) as [[i x]|] eqn:Ef; [|done].
  apply list_find_Some in Ef as (Hi & Hsrc & _). apply list_elem_of_lookup_2 in Hi.
  destruct (kahn fuel E _) as [l|] eqn:Ek; [|done]. cbn in Hk. simplify_eq.
  apply IH in Ek as [Hp Hord]; [|by apply NoDup_filter].
  split; [by rewrite Hp, <-filter_remove_perm|].
  intros a b Hab Ha Hb. unfold source in Hsrc. rewrite Forall_forall in Hsrc.
  destruct (decide (b = x)) as [->|Hbx]; [by destruct (Hsrc _ Hab eq_refl)|].
  assert (b ∈ filter (λ y, y ≠ x) rem) by (apply list_elem_of_filter; done).
  destruct (decide (a = x)) as [->|Hax]; [apply before_head; by rewrite Hp|].
  apply before_cons, Hord; [done| |done]. apply list_elem_of_filter. done.
Qed.

(** A chain of edges relates its ends. *)
Lemma chain_tc (l : list string) i k a b :
  (∀ i a b, l !! i = Some a → l !! S i = Some b → (a, b) ∈ E) →
  l !! i = Some a → l !! (i + S k) = Some b → tc (λ a b, (a, b) ∈ E) a b.
Proof.
  intros Hl. revert i a. induction k as [|k IH]; intros i a Ha Hb.
  - apply tc_once, (Hl i); [done|]. by rewrite Nat.add_comm in Hb.
  - assert (is_Some (l !! S i)) as [c Hc].
    { apply lookup_lt_is_Some_2. apply lookup_lt_Some in Hb. lia. }
    eapply tc_l; [by apply (Hl i)|]. apply (IH (S i)); [done|]. by rewrite Nat.add_succ_comm.
Qed.

Lemma no_source_cycle rem :
  rem ≠ [] → (∀ x, x ∈ rem → ¬ source E rem x) → ¬ acyclic (λ a b, (a, b) ∈ E).
Proof.
  intros Hne Hns AC.
  assert (Hpred : ∀ x, x ∈ rem → ∃ a, a ∈ rem ∧ (a, x) ∈ E).
  { intros x Hx. specialize (Hns x Hx). unfold source in Hns.
    apply not_Forall_Exists, Exists_exists in Hns; [|intros ?; apply _].
    destruct Hns as ([a b] & Hin & Hn). cbn in Hn.
    destruct (decide (b = x)) as [->|]; [|tauto].
    exists a. split; [|done]. destruct (decide (a ∈ rem)); [done|tauto]. }
  assert (Hchain : ∀ n, ∃ l : list string, length l = S n ∧ (∀ x, x ∈ l → x ∈ rem) ∧
    ∀ i a b, l !! i = Some a → l !! S i = Some b → (a, b) ∈ E).
  { induction n as [|n (l & Hlen & Hin & Hl)].
    - destruct rem as [|x rem]; [done|]. exists [x]. split_and!; [done|set_solver|].
      intros [|[|i]] a b Ha Hb; done.
    - destruct l as [|x l]; [done|]. destruct (Hpred x) as (a & Ha & Hax); [apply Hin; set_solver|].
      exists (a :: x :: l). split_and!; [cbn in *; lia|set_solver|].
      intros [|i] a' b Ha' Hb; cbn in Ha'; [cbn in Hb; naive_solver|]. by apply (Hl i). }
  destruct (Hchain (length rem)) as (l & Hlen & Hin & Hl).
  assert (NoDup l) as Hnd.
  { apply NoDup_alt. intros i j x Hi Hj. destruct (decide (i = j)) as [|Hij]; [done|exfalso].
    assert (∀ i j, i < j → l !! i = Some x → l !! j = Some x → False) as K.
    { intros i' j' Hlt Hi' Hj'. apply (AC x). apply (chain_tc l i' (j' - i' - 1)); [done|done|].
      by replace (i' + S (j' - i' - 1)) with j' by lia. }
    destruct (decide (i < j)); [by apply (K i j)|apply (K j i); [lia|done|done]]. }
  assert (l ⊆+ rem) as Hsub by (by apply NoDup_submseteq).
  apply submseteq_length in Hsub. lia.
Qed.

Lemma kahn_complete fuel : ∀ rem,
  NoDup rem → length rem ≤ fuel → acyclic (λ a b, (a, b) ∈ E) → ∃ out, kahn fuel E rem = Some out.
Proof.
  induction fuel as [|fuel IH]; intros [|y rem'] Hnd Hlen AC; cbn [length] in Hlen;
    try (by eexists); [lia|]. cbn [kahn].
  set (rem := y :: rem') in *.
  destruct (list_find (source E rem) rem) as [[i x]|] eqn:Ef.
  - apply list_find_Some in Ef as (Hi & _ & _). apply list_elem_of_lookup_2 in Hi.
    pose proof (filter_remove_perm x rem Hnd Hi) as Hp. apply Permutation_length in Hp. cbn [length] in Hp.
    assert (length rem = S (length rem')) as Hr by done.
    destruct (IH (filter (λ y, y ≠ x) rem)) as [out Ho]; [by apply NoDup_filter|lia|done|].
    rewrite Ho. by eexists.
  - apply list_find_None in Ef. exfalso. apply (no_source_cycle rem); [done| |done].
    intros x Hx. rewrite Forall_forall in Ef. by apply Ef.
Qed.

Lemma before_acyclic out :
  NoDup out → (∀ a b, (a, b) ∈ E → before out a b) → acyclic (λ a b, (a, b) ∈ E).
Proof.
  intros Hnd Hb x Hx.
  assert (∀ a b, tc (λ a b, (a, b) ∈ E) a b → before out a b) as Htc.
  { intros a b. induction 1 as [a b Hab|a b c Hab _ IH]; [by apply Hb|].
    apply Hb in Hab as (i & j & Hij & Hi & Hj). destruct IH as (j' & k & Hjk & Hj' & Hk).
    assert (j = j') as -> by (by eapply NoDup_lookup). exists i, k. split_and!; [lia|done|done]. }
  apply Htc in Hx as (i & j & Hij & Hi & Hj).
  assert (i = j) by (by eapply NoDup_lookup). lia.
Qed.
End kahn_proofs.

Lemma kahn_sort_sound g out :
  (∀ a b, (a, b) ∈ k_edges g → is_Some (k_nodes g !! a) ∧ is_Some (k_nodes g !! b)) →
  TopologicalSort (GraphLib := kahn_lib) g = Sorted out →
  NoDup out ∧ (∀ x, x ∈ out ↔ is_Some (k_nodes g !! x)) ∧
  (∀ a b, (a, b) ∈ k_edges g → before out a b).
Proof.
  intros Hcl. cbn. set (ids := (map_to_list (k_nodes g)).*1).
  assert (NoDup ids) as Hnd by apply NoDup_fst_map_to_list.
  assert (∀ x, x ∈ ids ↔ is_Some (k_nodes g !! x)) as Hids.
  { intros x. unfold ids. rewrite list_elem_of_fmap. split.
    - intros ([k v] & -> & Hin%elem_of_map_to_list). by eexists.
    - intros [v Hv]. exists (x, v). by rewrite elem_of_map_to_list. }
  destruct (kahn _ _ ids) as [o|] eqn:Ek; [|done]. intros [= <-].
  apply kahn_sound in Ek as [Hp Hord]; [|done]. split_and!.
  - by rewrite Hp.
  - intros x. by rewrite Hp.
  - intros a b Hab. destruct (Hcl a b Hab). apply Hord; by rewrite ?Hids.
Qed.

#[export] Program Instance kahn_laws : GraphLaws (H := kahn_lib) := {
  nodes := k_nodes;
  edge g a b := (a, b) ∈ k_edges g;
}.
Next Obligation. done. Qed.
Next Obligation. cbn. set_solver. Qed.
Next Obligation. done. Qed.
Next Obligation. done. Qed.
Next Obligation. intros g id. cbn. apply bool_decide_eq_true. Qed.
Next Obligation. done. Qed.
Next Obligation. intros g a b g'. cbn. case_bool_decide; [|done]. intros [= <-]. set_solver. Qed.
Next Obligation. intros g a b Ha Hb _ _. cbn. rewrite bool_decide_true by done. by eexists. Qed.
Next Obligation. intros g ids. apply kahn_sort_sound. Qed.
Next Obligation.
  intros g Hcl AC. cbn. destruct (kahn_complete (k_edges g) (length (map_to_list (k_nodes g)).*1)
    (map_to_list (k_nodes g)).*1) as [out ->]; [apply NoDup_fst_map_to_list|done|done|by eexists].
Qed.
Next Obligation.
  intros g Hcl Hcyc. destruct (TopologicalSort (GraphLib := kahn_lib) g) as [out| |e] eqn:Ht; [|done|].
  - destruct Hcyc. apply kahn_sort_sound in Ht as (Hnd & _ & Hord); [|done]. by eapply before_acyclic.
  - cbn in Ht. by destruct (kahn _ _ _).
Qed.
