(* ===== verification/Validate.v ===== *)
(** * Document validation (internal/deploy/v1alpha1/validate*.go)

    Every validator of the code in its order, with its error values.  File ValidateSpec gives
    a declarative description of the documents they accept. *)
From stdpp Require Import base strings numbers gmap list.
From Stdlib Require Import Ascii.
From S2P Require Import Prelude GoStrings GoTime GoNet Deploy Dependency.

(** ** validate.go, the name syntax: [^[a-zA-Z][a-zA-Z0-9._-]{0,127}$] *)
Definition is_letter (c : ascii) : bool :=
  let n := byte_val c in ((65 <=? n) && (n <=? 90))%N || ((97 <=? n) && (n <=? 122))%N.

Definition is_name_char (c : ascii) : bool :=
  is_letter c || is_digit c || Ascii.eqb c "." || Ascii.eqb c "_" || Ascii.eqb c "-".

Definition nameRe (s : string) : bool :=
  match bytes_of s with
  | [] => false
  | c :: r => is_letter c && (length r <=? 127)%nat && forallb is_name_char r
  end.

Definition blank (s : string) : bool := (TrimSpace s =? "")%string.

Definition one_of (s : string) (l : list string) : bool := existsb (String.eqb s) l.

(** ** validate_endpoint.go *)
Definition Endpoint_validateName (e : Endpoint) : res unit :=
  guard_err (blank (ep_Name e)) (Errorf "name is required" []) ;;
  guard_err (negb (nameRe (ep_Name e))) (Errorf "name is invalid: %q" [AStr (ep_Name e)]).

Definition validateEndpointPort (field : string) (port : Z) (required : bool) : res unit :=
  if negb required && (port =? 0)%Z then Ok tt
  else if (port <=? 0)%Z || (65535 <? port)%Z then
    if (field =? "hostPort")%string
    then Err (Errorf "hostPort must be 1..65535 when set (got %d)" [AInt port])
    else Err (Errorf "%s must be 1..65535 (got %d)" [AStr field; AInt port])
  else Ok tt.

Definition validateEndpointHostIP (raw : string) : res unit :=
  let hostIP := TrimSpace raw in
  if (hostIP =? "")%string || (if ParseIP hostIP is Some _ then true else false)
  then Ok tt else Err (Errorf "hostIP is invalid: %q" [AStr hostIP]).

Definition validateProtocol (e : Endpoint) : res unit :=
  guard_err (negb (one_of (ep_Protocol e) [ProtoTCP; ProtoUDP; ProtoHTTP]))
    (Errorf "invalid protocol %q" [AStr (ep_Protocol e)]).

Definition Endpoint_validate (e : Endpoint) : res unit :=
  Endpoint_validateName e ;;
  validateEndpointPort "port" (ep_Port e) true ;;
  validateEndpointPort "hostPort" (ep_HostPort e) false ;;
  validateEndpointHostIP (ep_HostIP e) ;;
  validateProtocol e.

(** ** validate_runtime.go *)
Definition validateImageRuntime (w : Workload) : res unit :=
  guard_err (blank (art_Image (run_Artifact (w_Run w))))
    (Errorf "run.artifact.image is required for runtime %q" [AStr (w_Runtime w)]).

Definition validateFirecrackerKernel (o : FirecrackerOptions) : res unit :=
  guard_err (blank (fc_KernelImagePath o))
    (Errorf "run.runtimeOptions.firecracker.kernelImagePath is required" []).

Definition validateFirecrackerRootfs (o : FirecrackerOptions) : res unit :=
  guard_err (blank (fc_RootfsPath o))
    (Errorf "run.runtimeOptions.firecracker.rootfsPath is required" []).

Definition hasFirecrackerNetworkFields (o : FirecrackerOptions) : bool :=
  negb (blank (fc_NetworkInterfaceID o)) || negb (blank (fc_TapDeviceName o))
  || negb (blank (fc_GuestMAC o)) || fc_AllowMMDSRequests o.

Definition validateFirecrackerGuestMAC (o : FirecrackerOptions) : res unit :=
  let mac := TrimSpace (fc_GuestMAC o) in
  if (mac =? "")%string then Ok tt
  else guard_err (negb (ParseMAC mac))
         (Errorf "run.runtimeOptions.firecracker.guestMAC is invalid: %q" [AStr mac]).

Definition validateFirecrackerNetwork (o : FirecrackerOptions) : res unit :=
  if negb (hasFirecrackerNetworkFields o) then Ok tt
  else
    guard_err (blank (fc_TapDeviceName o))
      (Errorf "run.runtimeOptions.firecracker.tapDeviceName is required when firecracker network is configured" []) ;;
    validateFirecrackerGuestMAC o.

Definition validateFirecrackerCapacity (o : FirecrackerOptions) : res unit :=
  guard_err (fc_VCPUCount o <? 0)%Z
    (Errorf "run.runtimeOptions.firecracker.vcpuCount must be >= 0" []) ;;
  guard_err (fc_MemSizeMiB o <? 0)%Z
    (Errorf "run.runtimeOptions.firecracker.memSizeMiB must be >= 0" []).

Definition validateFirecrackerRuntime (w : Workload) : res unit :=
  match opt_Firecracker (run_Options (w_Run w)) with
  | None => Err (Errorf "run.runtimeOptions.firecracker is required for runtime %q" [AStr (w_Runtime w)])
  | Some o =>
      validateFirecrackerKernel o ;; validateFirecrackerRootfs o ;;
      validateFirecrackerNetwork o ;; validateFirecrackerCapacity o
  end.

Definition validateExecRuntime (w : Workload) : res unit :=
  guard_err ((length (exec_Command (run_Exec (w_Run w))) =? 0)%nat
             && blank (art_Path (run_Artifact (w_Run w))))
    (Errorf "run.exec.command or run.artifact.path is required for runtime %q" [AStr (w_Runtime w)]).

Definition validateRunForRuntime (w : Workload) : res unit :=
  if one_of (w_Runtime w) [RuntimeDocker; RuntimeContainerd; RuntimePodman] then validateImageRuntime w
  else if one_of (w_Runtime w) [RuntimeFirecracker] then validateFirecrackerRuntime w
  else if one_of (w_Runtime w) [RuntimeProcess; RuntimeSystemd; RuntimeWindowsService]
       then validateExecRuntime w
  else Ok tt.

(** ** validate_health.go *)
Definition probeEndpointProtocolMatches (actual want : string) : bool :=
  if (want =? ProtoTCP)%string then (actual =? ProtoTCP)%string || (actual =? ProtoHTTP)%string
  else (actual =? want)%string.

Definition firstProbeEndpoint (w : Workload) (want : string) : option Endpoint :=
  List.find (λ e, probeEndpointProtocolMatches (ep_Protocol e) want) (w_Endpoints w).

Definition endpointByName (w : Workload) (name : string) : option Endpoint :=
  List.find (λ e, (TrimSpace (ep_Name e) =? name)%string) (w_Endpoints w).

Definition hasProbeEndpoint (w : Workload) (want : string) : bool :=
  if firstProbeEndpoint w want is Some _ then true else false.

Definition validateDefaultProbeEndpoint (w : Workload) (field want : string) (explicitPort : Z) : res unit :=
  if (0 <? explicitPort)%Z || hasProbeEndpoint w want then Ok tt
  else Err (Errorf "%s or port is required" [AStr field]).

Definition validateProbeEndpoint (w : Workload) (field : string) (ref : EndpointRef) (want : string)
    (explicitPort : Z) : res unit :=
  let workload := TrimSpace (er_Workload ref) in
  if negb (workload =? "")%string && negb (workload =? w_Name w)%string
  then Err (Errorf "%s.workload must be empty or %q" [AStr field; AStr (w_Name w)])
  else
  let endpointName := TrimSpace (er_Endpoint ref) in
  if (endpointName =? "")%string then validateDefaultProbeEndpoint w field want explicitPort
  else match endpointByName w endpointName with
       | None => Err (Errorf "%s references unknown endpoint %q" [AStr field; AStr endpointName])
       | Some e =>
           guard_err (negb (probeEndpointProtocolMatches (ep_Protocol e) want))
             (Errorf "%s references %s endpoint %q" [AStr field; AStr (ep_Protocol e); AStr endpointName])
       end.

Definition validateProbePort (field : string) (port : Z) : res unit :=
  if (port =? 0)%Z then Ok tt
  else guard_err ((port <? 0)%Z || (65535 <? port)%Z)
         (Errorf "%s must be 1..65535 (got %d)" [AStr field; AInt port]).

Definition validateHTTPProbe (w : Workload) (name : string) (probe : HTTPProbe) : res unit :=
  validateProbePort ("health." +:+ name +:+ ".http.port") (hp_Port probe) ;;
  validateProbeEndpoint w ("health." +:+ name +:+ ".http.endpoint") (hp_Endpoint probe) ProtoHTTP (hp_Port probe).

Definition validateTCPProbe (w : Workload) (name : string) (probe : TCPProbe) : res unit :=
  validateProbePort ("health." +:+ name +:+ ".tcp.port") (tp_Port probe) ;;
  validateProbeEndpoint w ("health." +:+ name +:+ ".tcp.endpoint") (tp_Endpoint probe) ProtoTCP (tp_Port probe).

Definition validateProbeDuration (field raw : string) : res unit :=
  if blank raw then Ok tt
  else _ ← wrap "%s is invalid" [AStr field] (ParseDuration raw); Ok tt.

Definition probeKindCount (p : Probe) : nat :=
  (if pr_HTTP p is Some _ then 1 else 0) + (if pr_TCP p is Some _ then 1 else 0).

Definition validateProbeTiming (name : string) (p : Probe) : res unit :=
  guard_err (pr_Retries p <? 0)%Z (Errorf "health.%s.retries must be >= 0" [AStr name]) ;;
  validateProbeDuration ("health." +:+ name +:+ ".interval") (pr_Interval p) ;;
  validateProbeDuration ("health." +:+ name +:+ ".timeout") (pr_Timeout p) ;;
  validateProbeDuration ("health." +:+ name +:+ ".startPeriod") (pr_StartPeriod p).

Definition validateProbeKind (w : Workload) (name : string) (p : Probe) : res unit :=
  let kinds := probeKindCount p in
  guard_err (kinds =? 0)%nat (Errorf "health.%s probe kind is required" [AStr name]) ;;
  guard_err (1 <? kinds)%nat (Errorf "health.%s must specify exactly one probe kind" [AStr name]) ;;
  match pr_HTTP p, pr_TCP p with
  | Some h, _ => validateHTTPProbe w name h
  | None, Some t => validateTCPProbe w name t
  | None, None => Ok tt (* excluded by the kind count *)
  end.

Definition validateProbe (w : Workload) (name : string) (p : option Probe) : res unit :=
  match p with
  | None => Ok tt
  | Some p => validateProbeTiming name p ;; validateProbeKind w name p
  end.

Definition validateHealth (w : Workload) : res unit :=
  match w_Health w with
  | None => Ok tt
  | Some h =>
      validateProbe w "readiness" (h_Readiness h) ;;
      validateProbe w "liveness" (h_Liveness h) ;;
      validateProbe w "startup" (h_Startup h)
  end.

(** ** validate_lifecycle.go *)
Definition validateRestartPolicy (policy : string) : res unit :=
  guard_err (negb (one_of (TrimSpace policy)
      [""; RestartPolicyAlways; RestartPolicyOnFailure; RestartPolicyNever]))
    (Errorf "lifecycle.restartPolicy must be one of always, on-failure, never" []).

Definition validateLifecycle (w : Workload) : res unit :=
  match w_Lifecycle w with
  | None => Ok tt
  | Some l =>
      validateRestartPolicy (lc_RestartPolicy l) ;;
      guard_err (lc_MaxRestarts l <? 0)%Z (Errorf "lifecycle.maxRestarts must be >= 0" []) ;;
      (if blank (lc_RestartDelay l) then Ok tt
       else _ ← wrap "lifecycle.restartDelay is invalid" [] (ParseDuration (lc_RestartDelay l)); Ok tt)
  end.

(** ** validate.go, one workload *)
Definition validateName (w : Workload) (seen : gset string) : res (gset string) :=
  if blank (w_Name w) then Err (Errorf "name is required" [])
  else if negb (nameRe (w_Name w)) then Err (Errorf "name is invalid: %q" [AStr (w_Name w)])
  else if bool_decide (w_Name w ∈ seen)
       then Err (Errorf "duplicate workload name %q" [AStr (w_Name w)])
  else Ok ({[w_Name w]} ∪ seen).

Definition workloadKinds : list string :=
  [WorkloadKindService; WorkloadKindWorker; WorkloadKindJob; WorkloadKindCron; WorkloadKindStateful].

Definition validateKind (w : Workload) : res unit :=
  guard_err (negb (one_of (w_Kind w) workloadKinds)) (Errorf "invalid kind %q" [AStr (w_Kind w)]).

Definition runtimeKinds : list string :=
  [RuntimeDocker; RuntimeContainerd; RuntimePodman; RuntimeFirecracker; RuntimeProcess;
   RuntimeSystemd; RuntimeWindowsService].

Definition validateRuntime (w : Workload) : res unit :=
  guard_err (negb (one_of (w_Runtime w) runtimeKinds)) (Errorf "invalid runtime %q" [AStr (w_Runtime w)]).

Definition validateEnv (w : Workload) : res unit :=
  range_err (λ i e, guard_err (blank (env_Name e)) (Errorf "run.env[%d].name is required" [ANat i]))
    (run_Env (w_Run w)).

Definition validateReplicaCount (w : Workload) : res unit :=
  guard_err (w_Replicas w <? 0)%Z (Errorf "replicas must be >= 0" []).

Definition validateResources (w : Workload) : res unit :=
  match w_Resources w with
  | None => Ok tt
  | Some r =>
      guard_err (res_CPUMillis r <? 0)%Z (Errorf "resources.cpuMillis must be >= 0" []) ;;
      guard_err (res_MemoryBytes r <? 0)%Z (Errorf "resources.memoryBytes must be >= 0" [])
  end.

Definition validateRollout (w : Workload) : res unit :=
  match w_Rollout w with
  | None => Ok tt
  | Some r =>
      guard_err (negb (IsRolloutStrategy (ro_Strategy r)))
        (Errorf "rollout.strategy is invalid: %q" [AStr (TrimSpace (ro_Strategy r))]) ;;
      guard_err (ro_MaxUnavailable r <? 0)%Z (Errorf "rollout.maxUnavailable must be >= 0" []) ;;
      guard_err (ro_MaxSurge r <? 0)%Z (Errorf "rollout.maxSurge must be >= 0" []) ;;
      (if blank (ro_ProgressDeadline r) then Ok tt
       else
         deadline ← wrap "rollout.progressDeadline is invalid" [] (ProgressDeadlineDuration (Some r));
         guard_err (deadline <=? 0)%Z (Errorf "rollout.progressDeadline must be > 0" []))
  end.

Definition Workload_validate (w : Workload) (seen : gset string) : res (gset string) :=
  seen' ← validateName w seen;
  validateKind w ;; validateRuntime w ;; validateRunForRuntime w ;; validateEnv w ;;
  validateReplicaCount w ;; validateResources w ;; validateHealth w ;; validateLifecycle w ;;
  validateRollout w ;;
  Ok seen'.

(** ** validate.go, the document *)
Definition validateMetadata (a : App) : res unit :=
  let m := app_Metadata a in
  guard_err (blank (md_Name m)) (Errorf "metadata.name is required" []) ;;
  guard_err (negb (nameRe (md_Name m))) (Errorf "metadata.name is invalid: %q" [AStr (md_Name m)]) ;;
  guard_err (negb (md_Namespace m =? "")%string && negb (nameRe (md_Namespace m)))
    (Errorf "metadata.namespace is invalid: %q" [AStr (md_Namespace m)]).

Definition workloadMapByName (a : App) : gmap string Workload :=
  foldl (λ m w, <[TrimSpace (w_Name w) := w]> m) ∅ (app_Workloads a).

Definition validateWorkloadDependencyCondition (i j : nat) (ref : WorkloadRef)
    (workloads : gmap string Workload) : res unit :=
  if negb (IsDependencyCondition (wr_Condition ref))
  then Err (Errorf "workloads[%d].dependsOn[%d].condition is invalid: %q"
              [ANat i; ANat j; AStr (TrimSpace (wr_Condition ref))])
  else if negb (EffectiveCondition ref =? DependencyConditionCompleted)%string then Ok tt
  else match workloads !! TrimSpace (wr_Name ref) with
       | None => Ok tt
       | Some dep =>
           guard_err (negb (WorkloadKindCanComplete (w_Kind dep)))
             (Errorf "workloads[%d].dependsOn[%d].condition completed requires a job or cron dependency"
                [ANat i; ANat j])
       end.

Definition validateWorkloadDependencyConditions (a : App) : res unit :=
  let workloads := workloadMapByName a in
  range_err (λ i w, range_err (λ j ref, validateWorkloadDependencyCondition i j ref workloads)
                      (w_DependsOn w)) (app_Workloads a).

Definition validateWorkloadMounts (a : App) : res unit :=
  range_err (λ i w, range_err (λ j m,
      guard_err (blank (vr_Name (mnt_Volume m)))
        (Errorf "workloads[%d].mounts[%d].volume: name is required" [ANat i; ANat j]) ;;
      guard_err (blank (mnt_Target m))
        (Errorf "workloads[%d].mounts[%d].target: target is required" [ANat i; ANat j]))
    (w_Mounts w)) (app_Workloads a).

Definition validateWorkloadEndpointsAll (a : App) : res unit :=
  range_err (λ i w, range_err (λ j e,
      wrap "workloads[%d].endpoints[%d]" [ANat i; ANat j] (Endpoint_validate e))
    (w_Endpoints w)) (app_Workloads a).

Definition validateIngressRoute (ingIndex : nat) (seenWorkloads : gset string) (j : nat)
    (r : IngressRoute) : res unit :=
  guard_err (blank (ir_Path r))
    (Errorf "ingresses[%d].routes[%d].path is required" [ANat ingIndex; ANat j]) ;;
  guard_err (blank (er_Workload (ir_Backend r)) || blank (er_Endpoint (ir_Backend r)))
    (Errorf "ingresses[%d].routes[%d].backend must specify workload + endpoint" [ANat ingIndex; ANat j]) ;;
  guard_err (negb (bool_decide (er_Workload (ir_Backend r) ∈ seenWorkloads)))
    (Errorf "ingresses[%d].routes[%d].backend: unknown workload %q"
       [ANat ingIndex; ANat j; AStr (er_Workload (ir_Backend r))]).

Definition validateIngressOne (seenWorkloads : gset string) (ingIndex : nat) (ing : Ingress) : res unit :=
  guard_err (blank (ing_Name ing)) (Errorf "ingresses[%d].name is required" [ANat ingIndex]) ;;
  range_err (validateIngressRoute ingIndex seenWorkloads) (ing_Routes ing).

Definition validateIngresses (a : App) (seenWorkloads : gset string) : res unit :=
  range_err (validateIngressOne seenWorkloads) (app_Ingresses a).

Section validate.
Context `{GraphLib}.

Definition validateWorkloadDepends (a : App) : res unit :=
  _ ← WorkloadsInDependencyOrder a; validateWorkloadDependencyConditions a.

Definition validateWorkloadCrossRefs (a : App) : res unit :=
  validateWorkloadDepends a ;; validateWorkloadMounts a ;; validateWorkloadEndpointsAll a.

Definition Validate (a : App) : res unit :=
  validateMetadata a ;;
  seenWorkloads ← range_fold (λ i seen w, wrap "workloads[%d]" [ANat i] (Workload_validate w seen))
                    ∅ (app_Workloads a);
  validateWorkloadCrossRefs a ;;
  validateIngresses a seenWorkloads.
End validate.
