(* ===== verification/ValidateSpec.v ===== *)
(** * What validation accepts

    A declarative description of the documents [Validate] accepts, the equivalence with the
    validators, and what it gives to the components that run a validated document. *)
From stdpp Require Import base strings numbers gmap list.
From Stdlib Require Import Ascii.
From S2P Require Import Prelude GoStrings GoTime GoNet Deploy Dependency Validate.

(** ** The specification *)
Definition valid_port (p : Z) : Prop := (1 ≤ p ≤ 65535)%Z.
Definition nonblank (s : string) : Prop := TrimSpace s ≠ "".
Definition valid_duration (s : string) : Prop := nonblank s → ∃ d, ParseDuration s = Ok d.

Record valid_endpoint (e : Endpoint) : Prop := {
  ve_name : nameRe (ep_Name e) = true;
  ve_port : valid_port (ep_Port e);
  ve_hostPort : ep_HostPort e ≠ 0%Z → valid_port (ep_HostPort e);
  ve_hostIP : nonblank (ep_HostIP e) → is_Some (ParseIP (TrimSpace (ep_HostIP e)));
  ve_protocol : ep_Protocol e ∈ [ProtoTCP; ProtoUDP; ProtoHTTP];
}.

Record valid_firecracker (o : FirecrackerOptions) : Prop := {
  vf_kernel : nonblank (fc_KernelImagePath o);
  vf_rootfs : nonblank (fc_RootfsPath o);
  vf_tap : nonblank (fc_NetworkInterfaceID o) ∨ nonblank (fc_GuestMAC o)
           ∨ fc_AllowMMDSRequests o = true → nonblank (fc_TapDeviceName o);
  vf_mac : nonblank (fc_GuestMAC o) → ParseMAC (TrimSpace (fc_GuestMAC o)) = true;
  vf_vcpu : (0 ≤ fc_VCPUCount o)%Z;
  vf_mem : (0 ≤ fc_MemSizeMiB o)%Z;
}.

(** A probe target: an endpoint of the workload itself, by name or by protocol, or a port. *)
Record probe_target (w : Workload) (ref : EndpointRef) (want : string) (port : Z) : Prop := {
  pt_port : port ≠ 0%Z → valid_port port;
  pt_self : nonblank (er_Workload ref) → TrimSpace (er_Workload ref) = w_Name w;
  pt_default : ¬ nonblank (er_Endpoint ref) → port ≠ 0%Z ∨
    ∃ e, e ∈ w_Endpoints w ∧ probeEndpointProtocolMatches (ep_Protocol e) want = true;
  pt_named : nonblank (er_Endpoint ref) →
    ∃ e, endpointByName w (TrimSpace (er_Endpoint ref)) = Some e
         ∧ probeEndpointProtocolMatches (ep_Protocol e) want = true;
}.

Record valid_probe (w : Workload) (p : Probe) : Prop := {
  vp_retries : (0 ≤ pr_Retries p)%Z;
  vp_interval : valid_duration (pr_Interval p);
  vp_timeout : valid_duration (pr_Timeout p);
  vp_start : valid_duration (pr_StartPeriod p);
  vp_kind : (∃ h, pr_HTTP p = Some h ∧ pr_TCP p = None ∧ probe_target w (hp_Endpoint h) ProtoHTTP (hp_Port h))
          ∨ (∃ t, pr_HTTP p = None ∧ pr_TCP p = Some t ∧ probe_target w (tp_Endpoint t) ProtoTCP (tp_Port t));
}.

Definition opt_all {A} (P : A → Prop) (o : option A) : Prop := ∀ x, o = Some x → P x.

Definition valid_health (w : Workload) (h : Health) : Prop :=
  opt_all (valid_probe w) (h_Readiness h) ∧ opt_all (valid_probe w) (h_Liveness h)
  ∧ opt_all (valid_probe w) (h_Startup h).

Definition valid_lifecycle (l : Lifecycle) : Prop :=
  TrimSpace (lc_RestartPolicy l) ∈ [""; RestartPolicyAlways; RestartPolicyOnFailure; RestartPolicyNever]
  ∧ (0 ≤ lc_MaxRestarts l)%Z ∧ valid_duration (lc_RestartDelay l).

Definition valid_rollout (r : Rollout) : Prop :=
  IsRolloutStrategy (ro_Strategy r) = true ∧ (0 ≤ ro_MaxUnavailable r)%Z ∧ (0 ≤ ro_MaxSurge r)%Z
  ∧ (nonblank (ro_ProgressDeadline r) →
     ∃ d, ParseDuration (ro_ProgressDeadline r) = Ok d ∧ (0 < d)%Z).

Record valid_run (w : Workload) : Prop := {
  vr_image : w_Runtime w ∈ [RuntimeDocker; RuntimeContainerd; RuntimePodman] →
    nonblank (art_Image (run_Artifact (w_Run w)));
  vr_firecracker : w_Runtime w = RuntimeFirecracker →
    ∃ o, opt_Firecracker (run_Options (w_Run w)) = Some o ∧ valid_firecracker o;
  vr_exec : w_Runtime w ∈ [RuntimeProcess; RuntimeSystemd; RuntimeWindowsService] →
    exec_Command (run_Exec (w_Run w)) ≠ [] ∨ nonblank (art_Path (run_Artifact (w_Run w)));
}.

Record valid_workload (w : Workload) : Prop := {
  vw_name : nameRe (w_Name w) = true;
  vw_kind : w_Kind w ∈ workloadKinds;
  vw_runtime : w_Runtime w ∈ runtimeKinds;
  vw_run : valid_run w;
  vw_env : Forall (λ e, nonblank (env_Name e)) (run_Env (w_Run w));
  vw_replicas : (0 ≤ w_Replicas w)%Z;
  vw_resources : opt_all (λ r, (0 ≤ res_CPUMillis r)%Z ∧ (0 ≤ res_MemoryBytes r)%Z) (w_Resources w);
  vw_health : opt_all (valid_health w) (w_Health w);
  vw_lifecycle : opt_all valid_lifecycle (w_Lifecycle w);
  vw_rollout : opt_all valid_rollout (w_Rollout w);
}.

Definition valid_condition (ws : gmap string Workload) (ref : WorkloadRef) : Prop :=
  IsDependencyCondition (wr_Condition ref) = true
  ∧ (EffectiveCondition ref = DependencyConditionCompleted →
     opt_all (λ dep, WorkloadKindCanComplete (w_Kind dep) = true) (ws !! dname ref)).

Record valid_route (ws : list Workload) (r : IngressRoute) : Prop := {
  vir_path : nonblank (ir_Path r);
  vir_endpoint : nonblank (er_Endpoint (ir_Backend r));
  vir_workload : er_Workload (ir_Backend r) ∈ (w_Name <$> ws);
}.

Record valid_app (a : App) : Prop := {
  va_name : nameRe (md_Name (app_Metadata a)) = true;
  va_namespace : md_Namespace (app_Metadata a) ≠ "" → nameRe (md_Namespace (app_Metadata a)) = true;
  va_workloads : Forall valid_workload (app_Workloads a);
  va_unique : NoDup (w_Name <$> app_Workloads a);
  va_known : deps_known (app_Workloads a);
  va_acyclic : acyclic (depends (app_Workloads a));
  va_conditions : ∀ w, w ∈ app_Workloads a →
    Forall (valid_condition (workloadMapByName a)) (w_DependsOn w);
  va_mounts : ∀ w, w ∈ app_Workloads a →
    Forall (λ m, nonblank (vr_Name (mnt_Volume m)) ∧ nonblank (mnt_Target m)) (w_Mounts w);
  va_endpoints : ∀ w, w ∈ app_Workloads a → Forall valid_endpoint (w_Endpoints w);
  va_ingresses : Forall (λ ing, nonblank (ing_Name ing)
    ∧ Forall (valid_route (app_Workloads a)) (ing_Routes ing)) (app_Ingresses a);
}.

(** ** Names *)
Lemma blank_spec s : blank s = true ↔ ¬ nonblank s.
Proof. unfold blank, nonblank. destruct (String.eqb_spec (TrimSpace s) ""); naive_solver. Qed.

Lemma blank_false s : blank s = false ↔ nonblank s.
Proof. unfold blank, nonblank. destruct (String.eqb_spec (TrimSpace s) ""); naive_solver. Qed.

Lemma one_of_spec s l : one_of s l = true ↔ s ∈ l.
Proof.
  unfold one_of. rewrite existsb_exists. setoid_rewrite String.eqb_eq.
  rewrite list_elem_of_In. naive_solver.
Qed.

Lemma name_char_graphic c : is_name_char c = true → graphic c = true.
Proof.
  unfold is_name_char, is_letter, is_digit, graphic.
  rewrite !orb_true_iff, !andb_true_iff, !N.leb_le, !Ascii.eqb_eq.
  intros H. intuition; subst; first [lia | vm_compute; discriminate].
Qed.

Lemma letter_name_char c : is_letter c = true → is_name_char c = true.
Proof. unfold is_name_char. by intros ->. Qed.

Lemma nameRe_chars s : nameRe s = true → Forall (λ c, is_name_char c = true) (bytes_of s) ∧ s ≠ "".
Proof.
  unfold nameRe. destruct s as [|c s]; cbn [String.list_ascii_of_string]; [done|].
  rewrite !andb_true_iff, forallb_forall, Nat.leb_le. intros [[Hc _] Hs]. split; [|done].
  constructor; [by apply letter_name_char|]. apply Forall_forall. intros x Hx.
  apply Hs. by apply list_elem_of_In.
Qed.

(** An accepted name is printable ASCII, so trimming does not change it. *)
Lemma nameRe_trimmed s : nameRe s = true → trimmed s.
Proof.
  intros [H _]%nameRe_chars. apply graphic_trimmed.
  eapply Forall_impl; [exact H|]. intros c. apply name_char_graphic.
Qed.

Lemma nameRe_nonblank s : nameRe s = true → nonblank s.
Proof.
  intros H. unfold nonblank. rewrite (nameRe_trimmed s H). by apply nameRe_chars.
Qed.

Lemma nameRe_no_slash s : nameRe s = true → ContainsByte s "/" = false.
Proof.
  intros [H _]%nameRe_chars. unfold ContainsByte.
  induction H as [|c l Hc Hl IH]; [done|]. cbn [existsb]. rewrite IH, orb_false_r.
  apply Ascii.eqb_neq. intros <-. by vm_compute in Hc.
Qed.

(** ** Component equivalences

    [bool_spec] turns the boolean tests of the code into the propositions they decide. *)
Ltac bool_spec :=
  repeat progress rewrite ?negb_true_iff, ?negb_false_iff, ?orb_true_iff, ?orb_false_iff, ?andb_true_iff,
    ?andb_false_iff, ?Z.ltb_lt, ?Z.ltb_ge, ?Z.leb_le, ?Z.leb_gt, ?Z.eqb_eq, ?Z.eqb_neq,
    ?blank_false, ?blank_spec, ?one_of_spec, ?String.eqb_eq, ?String.eqb_neq,
    ?bool_decide_eq_true, ?bool_decide_eq_false.

Ltac bool_spec_in H :=
  repeat progress rewrite ?negb_true_iff, ?negb_false_iff, ?orb_true_iff, ?orb_false_iff, ?andb_true_iff,
    ?andb_false_iff, ?Z.ltb_lt, ?Z.ltb_ge, ?Z.leb_le, ?Z.leb_gt, ?Z.eqb_eq, ?Z.eqb_neq,
    ?blank_false, ?blank_spec, ?one_of_spec, ?String.eqb_eq, ?String.eqb_neq,
    ?bool_decide_eq_true, ?bool_decide_eq_false in H.

Lemma negb_one_of_false s l : negb (one_of s l) = false ↔ s ∈ l.
Proof. rewrite negb_false_iff. apply one_of_spec. Qed.

Lemma endpoint_port_ok field p : validateEndpointPort field p true = Ok tt ↔ valid_port p.
Proof.
  unfold validateEndpointPort, valid_port. cbn [negb andb].
  destruct (Z.leb_spec p 0); cbn [orb]; [|destruct (Z.ltb_spec 65535 p)];
    try case_match; split; try done; lia.
Qed.

Lemma endpoint_hostPort_ok field p :
  validateEndpointPort field p false = Ok tt ↔ (p ≠ 0%Z → valid_port p).
Proof.
  destruct (decide (p = 0%Z)) as [->|Hp]; [done|].
  assert (validateEndpointPort field p false = validateEndpointPort field p true) as ->.
  { unfold validateEndpointPort. cbn [negb andb]. by apply Z.eqb_neq in Hp as ->. }
  rewrite endpoint_port_ok. naive_solver.
Qed.

Lemma endpoint_ok e : Endpoint_validate e = Ok tt ↔ valid_endpoint e.
Proof.
  unfold Endpoint_validate, Endpoint_validateName, validateProtocol.
  rewrite !res_seq_ok, !guard_err_ok, endpoint_port_ok, endpoint_hostPort_ok, negb_one_of_false,
    blank_false, negb_false_iff.
  assert (validateEndpointHostIP (ep_HostIP e) = Ok tt ↔
    (nonblank (ep_HostIP e) → is_Some (ParseIP (TrimSpace (ep_HostIP e))))) as ->.
  { unfold validateEndpointHostIP, nonblank.
    destruct (String.eqb_spec (TrimSpace (ep_HostIP e)) ""), (ParseIP _); cbn; naive_solver. }
  split; [intros ([_ ?] & ? & ? & ? & ?); by split|].
  intros []. split_and!; try done. by apply nameRe_nonblank.
Qed.

Lemma firecracker_ok w :
  validateFirecrackerRuntime w = Ok tt ↔
  ∃ o, opt_Firecracker (run_Options (w_Run w)) = Some o ∧ valid_firecracker o.
Proof.
  unfold validateFirecrackerRuntime. destruct (opt_Firecracker _) as [o|]; [|naive_solver].
  unfold validateFirecrackerKernel, validateFirecrackerRootfs, validateFirecrackerCapacity.
  rewrite !res_seq_ok, !guard_err_ok, !blank_false, !Z.ltb_ge.
  assert (validateFirecrackerNetwork o = Ok tt ↔
    (nonblank (fc_NetworkInterfaceID o) ∨ nonblank (fc_GuestMAC o) ∨ fc_AllowMMDSRequests o = true →
      nonblank (fc_TapDeviceName o)) ∧
    (nonblank (fc_GuestMAC o) → ParseMAC (TrimSpace (fc_GuestMAC o)) = true)) as ->.
  2: { split; [intros (? & ? & [? ?] & ? & ?); exists o; split; [done|by split]|].
       intros (o' & [= <-] & []). split_and!; done. }
  unfold validateFirecrackerNetwork, hasFirecrackerNetworkFields, validateFirecrackerGuestMAC.
  fold (blank (fc_GuestMAC o)). rewrite <-!blank_false.
  destruct (blank (fc_NetworkInterfaceID o)), (blank (fc_TapDeviceName o)), (blank (fc_GuestMAC o)),
    (fc_AllowMMDSRequests o), (ParseMAC _); cbn; naive_solver.
Qed.

(** Membership in an explicit list of constants contradicts membership in a disjoint one. *)
Ltac list_cases E :=
  rewrite ?elem_of_cons, ?elem_of_nil in E; destruct_or? E; try done; rewrite E;
  let X := fresh in intros X; exfalso;
  first [ discriminate X | apply one_of_spec in X; by vm_compute in X ].

Lemma run_ok w : validateRunForRuntime w = Ok tt ↔ valid_run w.
Proof.
  unfold validateRunForRuntime, validateImageRuntime, validateExecRuntime.
  destruct (one_of (w_Runtime w) [RuntimeDocker; _; _]) eqn:E1;
    [|destruct (one_of (w_Runtime w) [RuntimeFirecracker]) eqn:E2;
      [|destruct (one_of (w_Runtime w) [RuntimeProcess; _; _]) eqn:E3]];
    rewrite <-?not_true_iff_false, !one_of_spec in *; rewrite ?guard_err_ok, ?firecracker_ok.
  - rewrite blank_false. split; [|intros Hv; by apply (vr_image _ Hv)]. intros Hb.
    split; [done|list_cases E1..].
  - split; [|intros Hv; apply (vr_firecracker _ Hv); by apply list_elem_of_singleton in E2].
    intros Hb. split; [done|done|list_cases E2].
  - rewrite andb_false_iff, Nat.eqb_neq, blank_false, length_zero_iff_nil.
    split; [|intros Hv; by apply (vr_exec _ Hv)]. intros Hb. split; [done|list_cases E3|done].
  - split; [|done]. intros _. split; [done| |done]. intros E. by rewrite list_elem_of_singleton in E2.
Qed.

Lemma duration_ok field s : validateProbeDuration field s = Ok tt ↔ valid_duration s.
Proof.
  unfold validateProbeDuration, valid_duration. rewrite <-blank_false.
  destruct (blank s), (ParseDuration s); cbn; naive_solver.
Qed.

Lemma find_some_iff {A} (f : A → bool) l :
  (if List.find f l is Some _ then true else false) = true ↔ ∃ x, x ∈ l ∧ f x = true.
Proof.
  destruct (List.find f l) as [x|] eqn:E.
  - apply find_some in E as [Hin Hf]. split; [|done]. exists x. by rewrite list_elem_of_In.
  - split; [done|]. intros (x & Hx%list_elem_of_In & Hf).
    by rewrite (find_none _ _ E x Hx) in Hf.
Qed.

Lemma probe_target_ok w field1 field2 ref want port :
  validateProbePort field1 port ≫= (λ _, validateProbeEndpoint w field2 ref want port) = Ok tt ↔
  probe_target w ref want port.
Proof.
  rewrite res_seq_ok.
  assert (validateProbePort field1 port = Ok tt ↔ (port ≠ 0%Z → valid_port port)) as ->.
  { unfold validateProbePort, valid_port. destruct (Z.eqb_spec port 0); [naive_solver|].
    rewrite guard_err_ok. bool_spec. lia. }
  unfold validateProbeEndpoint, validateDefaultProbeEndpoint, hasProbeEndpoint, firstProbeEndpoint.
  fold (blank (er_Endpoint ref)). fold (blank (er_Workload ref)).
  destruct (negb (blank (er_Workload ref)) && _) eqn:Eself.
  { bool_spec_in Eself. split; [naive_solver|]. intros []. naive_solver. }
  assert (nonblank (er_Workload ref) → TrimSpace (er_Workload ref) = w_Name w) as Hself.
  { bool_spec_in Eself. rewrite <-blank_false, <-not_true_iff_false, blank_spec in *. naive_solver. }
  destruct (blank (er_Endpoint ref)) eqn:Eb; bool_spec_in Eb.
  - assert (((0 <? port)%Z || (if List.find (λ e, probeEndpointProtocolMatches (ep_Protocol e) want)
      (w_Endpoints w) is Some _ then true else false)) = true ↔ (0 < port)%Z ∨ ∃ e, e ∈ w_Endpoints w ∧
      probeEndpointProtocolMatches (ep_Protocol e) want = true) as Hd
      by (by rewrite orb_true_iff, Z.ltb_lt, find_some_iff).
    unfold valid_port. destruct (_ || _); split.
    + intros [Hp _]. split; [done|done| |naive_solver]. intros _.
      destruct (proj1 Hd eq_refl); [left; lia|by right].
    + intros []. done.
    + naive_solver.
    + intros [Hp _ Hdef _]. exfalso. assert (false = true) by (apply Hd; destruct (Hdef Eb) as [Hz|];
        [left; specialize (Hp Hz); unfold valid_port in Hp; lia|by right]). done.
  - destruct (endpointByName _ _) as [e|] eqn:Ee; [|split; [naive_solver|intros []; naive_solver]].
    rewrite guard_err_ok, negb_false_iff. split; [|intros []; naive_solver].
    intros [Hp He]. split; [done|done|done|]. eauto.
Qed.

Lemma probe_ok w name p : validateProbe w name p = Ok tt ↔ opt_all (valid_probe w) p.
Proof.
  unfold validateProbe, opt_all. destruct p as [p|]; [|naive_solver].
  unfold validateProbeTiming, validateProbeKind, probeKindCount.
  rewrite !res_seq_ok, !guard_err_ok, !duration_ok, Z.ltb_ge.
  assert (∀ P Q : Prop, (∀ q, Some p = Some q → P) ↔ P) as Hs by naive_solver.
  destruct (pr_HTTP p) as [h|] eqn:Eh, (pr_TCP p) as [t|] eqn:Et; cbn [Nat.add Nat.eqb Nat.ltb Nat.leb].
  - split; [naive_solver|]. intros Hv. destruct (Hv p eq_refl) as [????[]]; naive_solver.
  - unfold validateHTTPProbe. rewrite probe_target_ok. split.
    + intros ? q [= <-]. split; naive_solver.
    + intros Hv. destruct (Hv p eq_refl) as [????[(?&?&?&?)|(?&?&?&?)]]; naive_solver.
  - unfold validateTCPProbe. rewrite probe_target_ok. split.
    + intros ? q [= <-]. split; naive_solver.
    + intros Hv. destruct (Hv p eq_refl) as [????[(?&?&?&?)|(?&?&?&?)]]; naive_solver.
  - split; [naive_solver|]. intros Hv. destruct (Hv p eq_refl) as [????[]]; naive_solver.
Qed.

Lemma health_ok w : validateHealth w = Ok tt ↔ opt_all (valid_health w) (w_Health w).
Proof.
  unfold validateHealth. destruct (w_Health w) as [h|]; [|by split].
  rewrite !res_seq_ok, !probe_ok. unfold valid_health. split.
  - by intros ? h' [= <-].
  - intros Hv. apply (Hv h eq_refl).
Qed.

Lemma lifecycle_ok w : validateLifecycle w = Ok tt ↔ opt_all valid_lifecycle (w_Lifecycle w).
Proof.
  unfold validateLifecycle, validateRestartPolicy. destruct (w_Lifecycle w) as [l|]; [|by split].
  rewrite !res_seq_ok, !guard_err_ok, negb_one_of_false, Z.ltb_ge.
  assert (∀ m : res unit, m = (if blank (lc_RestartDelay l) then Ok tt
      else _ ← wrap "lifecycle.restartDelay is invalid" [] (ParseDuration (lc_RestartDelay l)); Ok tt) →
    m = Ok tt ↔ valid_duration (lc_RestartDelay l)) as Hd.
  { intros m ->. unfold valid_duration. rewrite <-blank_false.
    destruct (blank _), (ParseDuration _); cbn; naive_solver. }
  rewrite (Hd _ eq_refl). unfold valid_lifecycle. split.
  - by intros ? l' [= <-].
  - intros Hv. apply (Hv l eq_refl).
Qed.

Lemma rollout_ok w : validateRollout w = Ok tt ↔ opt_all valid_rollout (w_Rollout w).
Proof.
  unfold validateRollout. destruct (w_Rollout w) as [r|]; [|by split].
  rewrite !res_seq_ok, !guard_err_ok, negb_false_iff, !Z.ltb_ge.
  assert (∀ m : res unit, m = (if blank (ro_ProgressDeadline r) then Ok tt
      else deadline ← wrap "rollout.progressDeadline is invalid" [] (ProgressDeadlineDuration (Some r));
        guard_err (deadline <=? 0)%Z (Errorf "rollout.progressDeadline must be > 0" [])) →
    m = Ok tt ↔ (nonblank (ro_ProgressDeadline r) →
      ∃ d, ParseDuration (ro_ProgressDeadline r) = Ok d ∧ (0 < d)%Z)) as Hd.
  { intros m ->. unfold ProgressDeadlineDuration. fold (blank (ro_ProgressDeadline r)).
    rewrite <-blank_false. destruct (blank _); [naive_solver|].
    destruct (ParseDuration _) as [d|]; cbn; [|naive_solver].
    rewrite guard_err_ok, Z.leb_gt. naive_solver. }
  rewrite (Hd _ eq_refl). unfold valid_rollout. split.
  - by intros ? r' [= <-].
  - intros Hv. apply (Hv r eq_refl).
Qed.

Lemma resources_ok w :
  validateResources w = Ok tt ↔
  opt_all (λ r, (0 ≤ res_CPUMillis r)%Z ∧ (0 ≤ res_MemoryBytes r)%Z) (w_Resources w).
Proof.
  unfold validateResources. destruct (w_Resources w) as [r|]; [|by split].
  rewrite !res_seq_ok, !guard_err_ok, !Z.ltb_ge. split.
  - by intros ? r' [= <-].
  - intros Hv. apply (Hv r eq_refl).
Qed.

Lemma env_ok w : validateEnv w = Ok tt ↔ Forall (λ e, nonblank (env_Name e)) (run_Env (w_Run w)).
Proof.
  apply range_err_Forall. intros k e. by rewrite guard_err_ok, blank_false.
Qed.

Lemma workload_ok w seen seen' :
  Workload_validate w seen = Ok seen' ↔
  valid_workload w ∧ (w_Name w ∉ seen) ∧ seen' = {[w_Name w]} ∪ seen.
Proof.
  unfold Workload_validate. rewrite res_bind_ok.
  repeat setoid_rewrite res_seq_ok.
  setoid_rewrite run_ok. setoid_rewrite env_ok. setoid_rewrite resources_ok.
  setoid_rewrite health_ok. setoid_rewrite lifecycle_ok. setoid_rewrite rollout_ok.
  unfold validateKind, validateRuntime, validateReplicaCount.
  repeat setoid_rewrite guard_err_ok. repeat setoid_rewrite negb_one_of_false. setoid_rewrite Z.ltb_ge.
  assert (∀ s, validateName w seen = Ok s ↔
    nameRe (w_Name w) = true ∧ (w_Name w ∉ seen) ∧ s = {[w_Name w]} ∪ seen) as Hname.
  { intros s. unfold validateName. destruct (blank (w_Name w)) eqn:Eb.
    - split; [done|]. intros (Hn%nameRe_nonblank & _). by apply blank_spec in Eb.
    - destruct (nameRe (w_Name w)); cbn [negb]; [|naive_solver].
      case_bool_decide; naive_solver. }
  setoid_rewrite Hname. split.
  - intros (s & (? & ? & ->) & ? & ? & ? & ? & ? & ? & ? & ? & ? & [= <-]). by split_and!.
  - intros ([] & ? & ->). eexists. split_and!; try done.
Qed.

Lemma workloads_ok ws : ∀ i seen seen',
  range_fold_from (λ i seen w, wrap "workloads[%d]" [ANat i] (Workload_validate w seen)) i seen ws
    = Ok seen' ↔
  Forall valid_workload ws ∧ NoDup (w_Name <$> ws) ∧ (∀ w, w ∈ ws → w_Name w ∉ seen) ∧
  seen' = list_to_set (w_Name <$> ws) ∪ seen.
Proof.
  induction ws as [|w ws IH]; intros i seen seen'; cbn [range_fold_from].
  { split.
    - intros [= <-]. split_and!; [constructor|apply NoDup_nil_2|set_solver|set_solver].
    - intros (_ & _ & _ & ->). f_equal. set_solver. }
  rewrite res_bind_ok. setoid_rewrite wrap_ok. setoid_rewrite workload_ok. setoid_rewrite IH.
  rewrite fmap_cons, NoDup_cons, Forall_cons, list_to_set_cons. split.
  - intros (s & (Hw & Hnew & ->) & Hws & Hnd & Hfresh & ->). split_and!; try done.
    + intros (w' & Hn & Hin)%list_elem_of_fmap. specialize (Hfresh w' Hin). set_solver.
    + intros w' [->|Hin]%elem_of_cons; [done|]. specialize (Hfresh w' Hin). set_solver.
    + set_solver.
  - intros ([Hw Hws] & [Hnew Hnd] & Hfresh & ->). eexists. split_and!; try done.
    + apply Hfresh. set_solver.
    + intros w' Hin. specialize (Hfresh w' ltac:(set_solver)).
      assert (w_Name w' ≠ w_Name w); [|set_solver].
      intros E. apply Hnew. rewrite <-E. by apply list_elem_of_fmap_2.
    + set_solver.
Qed.

(** ** The document *)
Lemma range2_Forall {A B} (f : nat → A → nat → B → res unit) (g : A → list B) (P : B → Prop) l :
  (∀ i x j y, f i x j y = Ok tt ↔ P y) →
  range_err (λ i x, range_err (f i x) (g x)) l = Ok tt ↔ ∀ x, x ∈ l → Forall P (g x).
Proof.
  intros Hf. rewrite (range_err_Forall _ (λ x, Forall P (g x))).
  - by rewrite Forall_forall.
  - intros i x. apply range_err_Forall. intros j y. apply Hf.
Qed.

Lemma condition_ok i j ref ws :
  validateWorkloadDependencyCondition i j ref ws = Ok tt ↔ valid_condition ws ref.
Proof.
  unfold validateWorkloadDependencyCondition, valid_condition, opt_all, dname.
  destruct (IsDependencyCondition _); cbn [negb]; [|naive_solver].
  destruct (String.eqb_spec (EffectiveCondition ref) DependencyConditionCompleted) as [E|E]; cbn [negb];
    [|naive_solver].
  destruct (ws !! _) as [dep|]; [|naive_solver].
  rewrite guard_err_ok, negb_false_iff. naive_solver.
Qed.

Lemma route_ok ingIndex ws j r :
  validateIngressRoute ingIndex (list_to_set (w_Name <$> ws)) j r = Ok tt ↔
  nonblank (er_Workload (ir_Backend r)) ∧ valid_route ws r.
Proof.
  unfold validateIngressRoute.
  rewrite !res_seq_ok, !guard_err_ok, orb_false_iff, !blank_false, negb_false_iff,
    bool_decide_eq_true, elem_of_list_to_set.
  split; [intros (? & [? ?] & ?); split; [done|by split]|by intros (? & [])].
Qed.

Section app_ok.
Context `{GraphLaws}.

Lemma conditions_ok a :
  validateWorkloadDependencyConditions a = Ok tt ↔
  ∀ w, w ∈ app_Workloads a → Forall (valid_condition (workloadMapByName a)) (w_DependsOn w).
Proof. apply range2_Forall. intros. apply condition_ok. Qed.

Lemma mounts_ok a :
  validateWorkloadMounts a = Ok tt ↔
  ∀ w, w ∈ app_Workloads a →
    Forall (λ m, nonblank (vr_Name (mnt_Volume m)) ∧ nonblank (mnt_Target m)) (w_Mounts w).
Proof. apply range2_Forall. intros. by rewrite res_seq_ok, !guard_err_ok, !blank_false. Qed.

Lemma endpoints_ok a :
  validateWorkloadEndpointsAll a = Ok tt ↔
  ∀ w, w ∈ app_Workloads a → Forall valid_endpoint (w_Endpoints w).
Proof. apply range2_Forall. intros. by rewrite wrap_ok, endpoint_ok. Qed.

Lemma ingresses_ok a ws :
  Forall valid_workload ws →
  validateIngresses a (list_to_set (w_Name <$> ws) ∪ ∅) = Ok tt ↔
  Forall (λ ing, nonblank (ing_Name ing) ∧ Forall (valid_route ws) (ing_Routes ing)) (app_Ingresses a).
Proof.
  intros Hws. rewrite union_empty_r_L. apply range_err_Forall. intros k ing.
  unfold validateIngressOne. rewrite res_seq_ok, guard_err_ok, blank_false.
  rewrite (range_err_Forall _ (valid_route ws)); [done|]. intros j r. rewrite route_ok.
  split; [by intros [_ ?]|]. intros Hr. split; [|done].
  pose proof (vir_workload _ _ Hr) as (w & -> & Hw)%list_elem_of_fmap.
  rewrite Forall_forall in Hws. apply nameRe_nonblank, (vw_name _ (Hws w Hw)).
Qed.

Lemma metadata_ok a :
  validateMetadata a = Ok tt ↔
  nameRe (md_Name (app_Metadata a)) = true ∧
  (md_Namespace (app_Metadata a) ≠ "" → nameRe (md_Namespace (app_Metadata a)) = true).
Proof.
  unfold validateMetadata.
  rewrite !res_seq_ok, !guard_err_ok, blank_false, negb_false_iff, andb_false_iff, !negb_false_iff,
    String.eqb_eq. split.
  - intros (_ & ? & Hns). split; [done|]. intros ?. by destruct Hns.
  - intros [Hn Hns]. split_and!; [by apply nameRe_nonblank|done|].
    destruct (decide (md_Namespace (app_Metadata a) = "")); auto.
Qed.

Lemma valid_well_named a :
  Forall valid_workload (app_Workloads a) → NoDup (w_Name <$> app_Workloads a) →
  well_named (app_Workloads a).
Proof.
  intros Hws Hnd.
  assert (∀ w, w ∈ app_Workloads a → wname w = w_Name w) as Hn.
  { intros w Hw. rewrite Forall_forall in Hws. apply nameRe_trimmed, (vw_name _ (Hws w Hw)). }
  split.
  - eapply Forall_impl; [exact Hws|]. intros w Hw. apply nameRe_nonblank, (vw_name _ Hw).
  - rewrite (list_fmap_ext wname w_Name (app_Workloads a)); [done|].
    intros i w Hi. apply Hn. by eapply list_elem_of_lookup_2.
Qed.

Lemma Validate_sound a : Validate a = Ok tt → valid_app a.
Proof.
  unfold Validate, validateWorkloadCrossRefs, validateWorkloadDepends, range_fold.
  rewrite res_seq_ok, metadata_ok, res_bind_ok.
  intros ([? ?] & s & (Hws & ? & _ & ->)%workloads_ok & Hx).
  rewrite !res_seq_ok, res_bind_ok, mounts_ok, endpoints_ok, ingresses_ok in Hx by done.
  destruct Hx as (((ws & Ho & Hc) & ? & ?) & ?). rewrite conditions_ok in Hc.
  split; try done; [by apply order_ok_spec in Ho as (_ & _ & _ & ?)|by eapply order_acyclic].
Qed.

Lemma Validate_complete a : NoDup_deps (app_Workloads a) → valid_app a → Validate a = Ok tt.
Proof.
  intros Hd [Hn Hns Hws Hu Hk Ha Hc Hm He Hi].
  unfold Validate, validateWorkloadCrossRefs, validateWorkloadDepends, range_fold.
  rewrite res_seq_ok, metadata_ok, res_bind_ok. split; [done|].
  eexists. split; [apply workloads_ok; split_and!; [done|done|set_solver|done]|].
  rewrite !res_seq_ok, res_bind_ok, mounts_ok, endpoints_ok, ingresses_ok by done.
  destruct (order_exists a) as [ws Ho]; [by apply valid_well_named|done..|].
  split_and!; try done. exists ws. by rewrite conditions_ok.
Qed.
End app_ok.
