(* ===== verification/Meta.v ===== *)
(** * Identity of workloads and volumes
    (internal/workloadmeta, internal/volumemeta, internal/runtime/runconfig) *)
From stdpp Require Import base strings numbers gmap list.
From Stdlib Require Import Ascii.
From S2P Require Import Prelude GoStrings GoTime Deploy.

(** ** workloadmeta/meta.go *)

(** [lo.CoalesceOrEmpty]: the first non-empty string. *)
Fixpoint CoalesceOrEmpty (l : list string) : string :=
  match l with
  | [] => ""
  | s :: r => if (s =? "")%string then CoalesceOrEmpty r else s
  end.

Definition NamespaceOrDefault (ns : string) : string := CoalesceOrEmpty [TrimSpace ns; "default"].

(** *** Runes of a byte string ([utf8.DecodeRune]): an invalid byte is U+FFFD, width 1. *)
Definition cont (n : Z) : bool := (128 <=? n)%Z && (n <=? 191)%Z.
Definition in_range (lo hi n : Z) : bool := (lo <=? n)%Z && (n <=? hi)%Z.
Definition RuneError : Z := 65533.

Definition DecodeRune (l : list ascii) : Z * nat :=
  match l with
  | [] => (RuneError, 0)
  | a :: r1 =>
      let x := Z.of_N (byte_val a) in
      if (x <? 128)%Z then (x, 1)
      else match r1 with
      | [] => (RuneError, 1)
      | b :: r2 =>
          let y := Z.of_N (byte_val b) in
          if in_range 0xC2 0xDF x then
            if cont y then ((x - 0xC0) * 64 + (y - 128), 2%nat)%Z else (RuneError, 1)
          else match r2 with
          | [] => (RuneError, 1)
          | c :: r3 =>
              let z := Z.of_N (byte_val c) in
              if in_range 0xE0 0xEF x then
                if in_range (if (x =? 0xE0)%Z then 0xA0 else 128) (if (x =? 0xED)%Z then 0x9F else 191) y
                   && cont z
                then (((x - 0xE0) * 64 + (y - 128)) * 64 + (z - 128), 3%nat)%Z else (RuneError, 1)
              else match r3 with
              | [] => (RuneError, 1)
              | d :: _ =>
                  let u := Z.of_N (byte_val d) in
                  if in_range 0xF0 0xF4 x
                     && in_range (if (x =? 0xF0)%Z then 0x90 else 128) (if (x =? 0xF4)%Z then 0x8F else 191) y
                     && cont z && cont u
                  then ((((x - 0xF0) * 64 + (y - 128)) * 64 + (z - 128)) * 64 + (u - 128), 4%nat)%Z
                  else (RuneError, 1)
              end
          end
      end
  end.

(** [for _, r := range s]; every rune takes a byte, so the length is enough fuel. *)
Fixpoint runes_fuel (fuel : nat) (l : list ascii) : list Z :=
  match fuel, l with
  | S f, _ :: _ => let '(r, n) := DecodeRune l in r :: runes_fuel f (drop n l)
  | _, _ => []
  end.

Definition runes (s : string) : list Z := runes_fuel (length (bytes_of s)) (bytes_of s).

(** The lower case of a rune when it is ASCII.  Outside ASCII only U+0130 and U+212A have an
    ASCII lower case; every other rune stays outside ASCII and is left unchanged here. *)
Definition to_lower_rune (r : Z) : Z :=
  if in_range 65 90 r then (r + 32)%Z
  else if (r =? 0x130)%Z then 105%Z
  else if (r =? 0x212A)%Z then 107%Z
  else r.

Definition sanitize_rune (r : Z) : ascii :=
  if in_range 97 122 r || in_range 48 57 r || (r =? 46)%Z || (r =? 95)%Z || (r =? 45)%Z
  then ascii_of_N (Z.to_N r) else "-"%char.

Definition SanitizeName (s : string) : string :=
  let buf := of_bytes ((λ r, sanitize_rune (to_lower_rune r)) <$> runes s) in
  let out := TrimByte buf "-" in
  if (out =? "")%string then "x" else out.

Definition OrchContainerName (meta : Metadata) (workload : string) : string :=
  let ns := NamespaceOrDefault (md_Namespace meta) in
  let app := TrimSpace (md_Name meta) in
  let w := TrimSpace workload in
  "orch-" +:+ SanitizeName ns +:+ "-" +:+ SanitizeName app +:+ "-" +:+ SanitizeName w.

Definition LabelMap (meta : Metadata) (w : Workload) : gmap string string :=
  <["orch.io/runtime" := w_Runtime w]> (<["orch.io/workload" := w_Name w]>
  (<["orch.io/namespace" := NamespaceOrDefault (md_Namespace meta)]>
  (<["orch.io/app" := md_Name meta]> ∅))).

Definition NormalizeImageRef (raw : string) : string :=
  let image := TrimSpace raw in
  if (image =? "")%string then image
  else if ContainsByte image "/" then image
  else "docker.io/library/" +:+ image.

(** ** workloadmeta/assignment.go *)
Definition AssignmentStatusAssigned := "assigned".
Definition AssignmentStatusFailed := "failed".
Definition AssignmentStatusRunning := "running".
Definition AssignmentStatusStopped := "stopped".

(** Times are nanoseconds since the zero [time.Time], so [IsZero] is [= 0]. *)
Record Assignment := mkAssignment {
  as_Key : string; as_Metadata : Metadata; as_Workload : string; as_Node : string;
  as_Address : string; as_Runtime : string; as_Artifact : string; as_Status : string;
  as_Generation : string; as_Error : string; as_UpdatedAt : Z }.

Definition AssignmentKey (meta : Metadata) (workloadName : string) : string :=
  let ns := NamespaceOrDefault (md_Namespace meta) in
  let app := TrimSpace (md_Name meta) in
  let workload := TrimSpace workloadName in
  if (app =? "")%string || (workload =? "")%string then ""
  else ns +:+ "/" +:+ app +:+ "/" +:+ workload.

(** ** volumemeta/meta.go *)
Definition BindingStatusBound := "bound".
Definition BindingStatusReleased := "released".
Definition BindingStatusFailed := "failed".

Record Binding := mkBinding {
  bd_Key : string; bd_Metadata : Metadata; bd_Volume : string; bd_Workload : string;
  bd_Target : string; bd_Node : string; bd_Runtime : string; bd_Source : string;
  bd_Persistent : bool; bd_SizeBytes : Z; bd_Status : string; bd_Generation : string;
  bd_Error : string; bd_UpdatedAt : Z }.

Definition BindingKey (meta : Metadata) (workloadName volumeName : string) : string :=
  let ns := NamespaceOrDefault (md_Namespace meta) in
  let app := TrimSpace (md_Name meta) in
  let workload := TrimSpace workloadName in
  let volume := TrimSpace volumeName in
  if (app =? "")%string || (workload =? "")%string || (volume =? "")%string then ""
  else ns +:+ "/" +:+ app +:+ "/" +:+ workload +:+ "/" +:+ volume.

(** ** runconfig/runconfig.go *)
Definition Env (vars : list EnvVar) : list string :=
  omap (λ v, let name := TrimSpace (env_Name v) in
             if (name =? "")%string then None else Some (name +:+ "=" +:+ env_Value v)) vars.

Definition CommandArgs (run : RunSpec) : list string :=
  match exec_Command (run_Exec run) with
  | [] => []
  | cmd => cmd ++ exec_Args (run_Exec run)
  end.

Definition ProcessCommand (run : RunSpec) : option (string * list string) :=
  match exec_Command (run_Exec run) with
  | c :: args =>
      let exe := TrimSpace c in
      if (exe =? "")%string then None else Some (exe, args ++ exec_Args (run_Exec run))
  | [] =>
      let exe := TrimSpace (art_Path (run_Artifact run)) in
      if (exe =? "")%string then None else Some (exe, exec_Args (run_Exec run))
  end.

Definition ArtifactSummary (run : RunSpec) : string :=
  let command := match exec_Command (run_Exec run) with c :: _ => TrimSpace c | [] => "" end in
  CoalesceOrEmpty [TrimSpace (art_Image (run_Artifact run)); TrimSpace (art_Path (run_Artifact run));
                   TrimSpace (art_URL (run_Artifact run)); command].

Definition nanoCPUsPerMilli : Z := 1000000.
Definition cfsPeriodMicros : Z := 100000.

Definition NanoCPUs (cpuMillis : Z) : Z :=
  if (cpuMillis <=? 0)%Z then 0
  else if (max_int64 / nanoCPUsPerMilli <? cpuMillis)%Z then max_int64
  else wrap_int64 (cpuMillis * nanoCPUsPerMilli).

(** int64 multiplication wraps around; the division truncates toward zero. *)
Definition CFSQuota (cpuMillis : Z) : Z * Z :=
  if (cpuMillis <=? 0)%Z then (0, cfsPeriodMicros)%Z
  else
    let quota := Z.quot (wrap_int64 (cfsPeriodMicros * cpuMillis)) 1000 in
    (if (quota <=? 0)%Z then 1%Z else quota, cfsPeriodMicros).

Definition VolumeName (meta : Metadata) (volumeName : string) : string :=
  "orch-" +:+ SanitizeName (NamespaceOrDefault (md_Namespace meta)) +:+ "-"
  +:+ SanitizeName (md_Name meta) +:+ "-" +:+ SanitizeName volumeName.

#[global] Arguments NamespaceOrDefault : simpl never.
#[global] Arguments AssignmentKey : simpl never.
#[global] Arguments BindingKey : simpl never.
#[global] Arguments SanitizeName : simpl never.

(** ** Namespaces and keys *)
Lemma NamespaceOrDefault_nonempty ns : NamespaceOrDefault ns ≠ "".
Proof. unfold NamespaceOrDefault. cbn. by destruct (String.eqb_spec (TrimSpace ns) ""). Qed.

Lemma NamespaceOrDefault_trimmed ns : trimmed (NamespaceOrDefault ns).
Proof.
  unfold NamespaceOrDefault. cbn. destruct (String.eqb_spec (TrimSpace ns) ""); [done|].
  apply TrimSpace_trimmed.
Qed.

Lemma NamespaceOrDefault_idemp ns : NamespaceOrDefault (NamespaceOrDefault ns) = NamespaceOrDefault ns.
Proof.
  unfold NamespaceOrDefault at 1. rewrite NamespaceOrDefault_trimmed. cbn.
  destruct (String.eqb_spec (NamespaceOrDefault ns) ""); [|done].
  by destruct (NamespaceOrDefault_nonempty ns).
Qed.

Lemma NamespaceOrDefault_TrimSpace ns : NamespaceOrDefault (TrimSpace ns) = NamespaceOrDefault ns.
Proof. unfold NamespaceOrDefault. by rewrite TrimSpace_idemp. Qed.

(** The v1alpha1 package has its own copy of this function. *)
Lemma namespaceOrDefault_eq ns : namespaceOrDefault ns = NamespaceOrDefault ns.
Proof.
  unfold namespaceOrDefault, NamespaceOrDefault. cbn.
  by destruct (String.eqb_spec (TrimSpace ns) "").
Qed.

Lemma append_nonempty_l s t : s ≠ "" → s +:+ t ≠ "".
Proof. by destruct s. Qed.

Lemma slash_join s t : s ≠ "" → t ≠ "" → trimmed s → trimmed t → trimmed (s +:+ "/" +:+ t).
Proof. intros. by apply trimmed_join. Qed.

Lemma AssignmentKey_eq meta w :
  TrimSpace (md_Name meta) ≠ "" → TrimSpace w ≠ "" →
  AssignmentKey meta w =
    NamespaceOrDefault (md_Namespace meta) +:+ "/" +:+ TrimSpace (md_Name meta) +:+ "/" +:+ TrimSpace w.
Proof.
  intros Ha Hw. unfold AssignmentKey.
  destruct (String.eqb_spec (TrimSpace (md_Name meta)) ""); [done|].
  by destruct (String.eqb_spec (TrimSpace w) "").
Qed.

Lemma AssignmentKey_trimmed meta w : trimmed (AssignmentKey meta w).
Proof.
  unfold AssignmentKey. destruct (String.eqb_spec (TrimSpace (md_Name meta)) ""); [done|].
  destruct (String.eqb_spec (TrimSpace w) ""); [done|]. cbn [orb].
  apply slash_join; eauto using NamespaceOrDefault_nonempty, NamespaceOrDefault_trimmed, append_nonempty_l.
  apply slash_join; auto using TrimSpace_trimmed.
Qed.

Lemma AssignmentKey_empty meta w :
  AssignmentKey meta w = "" ↔ TrimSpace (md_Name meta) = "" ∨ TrimSpace w = "".
Proof.
  unfold AssignmentKey. destruct (String.eqb_spec (TrimSpace (md_Name meta)) ""); [naive_solver|].
  destruct (String.eqb_spec (TrimSpace w) ""); [naive_solver|]. cbn [orb].
  split; [|naive_solver]. intros E.
  destruct (append_nonempty_l _ ("/" +:+ TrimSpace (md_Name meta) +:+ "/" +:+ TrimSpace w)
    (NamespaceOrDefault_nonempty (md_Namespace meta)) E).
Qed.

Lemma AssignmentKey_norm meta meta' w w' :
  NamespaceOrDefault (md_Namespace meta) = NamespaceOrDefault (md_Namespace meta') →
  TrimSpace (md_Name meta) = TrimSpace (md_Name meta') → TrimSpace w = TrimSpace w' →
  AssignmentKey meta w = AssignmentKey meta' w'.
Proof. unfold AssignmentKey. by intros -> -> ->. Qed.

Lemma BindingKey_trimmed meta w v : trimmed (BindingKey meta w v).
Proof.
  unfold BindingKey. destruct (String.eqb_spec (TrimSpace (md_Name meta)) ""); [done|].
  destruct (String.eqb_spec (TrimSpace w) ""); [done|].
  destruct (String.eqb_spec (TrimSpace v) ""); [done|]. cbn [orb].
  apply slash_join; eauto using NamespaceOrDefault_nonempty, NamespaceOrDefault_trimmed, append_nonempty_l.
  apply slash_join; auto using append_nonempty_l, TrimSpace_trimmed.
  apply slash_join; auto using TrimSpace_trimmed.
Qed.

#[export] Hint Resolve NamespaceOrDefault_nonempty NamespaceOrDefault_trimmed
  AssignmentKey_trimmed BindingKey_trimmed : orch.

(** Splitting at the first slash: parts without a slash are determined by the joined key. *)
Lemma slash_inj s t s' t' :
  ContainsByte s "/" = false → ContainsByte s' "/" = false →
  s +:+ "/" +:+ t = s' +:+ "/" +:+ t' → s = s' ∧ t = t'.
Proof.
  intros Hs Hs' E. apply (f_equal (cut_byte "/")) in E.
  change ("/" +:+ t) with (String "/" t) in E. change ("/" +:+ t') with (String "/" t') in E.
  rewrite (cut_byte_app "/" s t Hs) in E. rewrite (cut_byte_app "/" s' t' Hs') in E. by simplify_eq.
Qed.

(** ** Sanitised names *)
Definition name_byte (a : ascii) : bool :=
  let n := Z.of_N (byte_val a) in
  in_range 97 122 n || in_range 48 57 n || (n =? 46)%Z || (n =? 95)%Z || (n =? 45)%Z.

Lemma ascii_of_Z_val z : (0 ≤ z < 256)%Z → Z.of_N (byte_val (ascii_of_N (Z.to_N z))) = z.
Proof. intros Hz. unfold byte_val. rewrite N_ascii_embedding by lia. lia. Qed.

Lemma sanitize_rune_byte r : name_byte (sanitize_rune r) = true.
Proof.
  unfold sanitize_rune. destruct (_ || _) eqn:E; [|done].
  assert (0 ≤ r < 256)%Z as Hr.
  { revert E. unfold in_range. rewrite !orb_true_iff, !andb_true_iff, !Z.leb_le, !Z.eqb_eq. lia. }
  unfold name_byte. by rewrite ascii_of_Z_val.
Qed.

Lemma trim_byte_spec x l : ∃ n, trim_byte x l = drop n l ∧ hd_error (trim_byte x l) ≠ Some x.
Proof.
  induction l as [|a l (n & IH & Hd)]; cbn; [by exists 0|].
  destruct (Ascii.eqb_spec a x) as [->|Hne]; [by exists (S n)|]. exists 0. cbn. naive_solver.
Qed.

Lemma TrimByte_Forall (P : ascii → Prop) s x :
  Forall P (bytes_of s) → Forall P (bytes_of (TrimByte s x)).
Proof.
  intros H. unfold TrimByte, TrimRightByte, TrimLeftByte.
  rewrite !String.list_ascii_of_string_of_list_ascii.
  destruct (trim_byte_spec x (bytes_of s)) as (n & -> & _).
  destruct (trim_byte_spec x (reverse (drop n (bytes_of s)))) as (m & -> & _).
  apply Forall_reverse, Forall_drop, Forall_reverse, Forall_drop, H.
Qed.

Lemma SanitizeName_bytes s :
  SanitizeName s ≠ "" ∧ Forall (λ a, name_byte a = true) (bytes_of (SanitizeName s)).
Proof.
  unfold SanitizeName. set (buf := of_bytes _).
  assert (Forall (λ a, name_byte a = true) (bytes_of (TrimByte buf "-"))) as HF.
  { apply TrimByte_Forall. unfold buf. rewrite String.list_ascii_of_string_of_list_ascii.
    apply Forall_fmap, Forall_true. intros r. apply sanitize_rune_byte. }
  destruct (String.eqb_spec (TrimByte buf "-") ""); [|done].
  split; [done|]. repeat constructor.
Qed.
