(* ===== verification/GoText.v ===== *)
(** * Packages strings, path and net: case, splitting, lexical paths, addresses as text

    [strings.ToLower] (with the case table of package unicode as a parameter outside ASCII),
    [strings.Split], [strings.Contains], [path.Clean] and [net.IP.String], as ingress, DNS,
    gossip and configuration use them. *)
From stdpp Require Import base strings numbers sets list.
From Stdlib Require Import Ascii.
From S2P Require Import Prelude GoStrings GoTime GoNet Deploy Validate Meta.

(** ** Case *)

(** [unicode.ToLower] on runes outside ASCII. *)
Class UnicodeLower := unicode_lower : Z → Z.

Definition is_ascii (c : ascii) : bool := (byte_val c <? 128)%N.
Definition lower_ascii (c : ascii) : ascii :=
  if (65 <=? byte_val c)%N && (byte_val c <=? 90)%N then ascii_of_N (byte_val c + 32) else c.

(** [utf8.AppendRune] *)
Definition byteZ (z : Z) : ascii := ascii_of_N (Z.to_N z).
Definition EncodeRune (r : Z) : list ascii :=
  if in_range 0 0x7F r then [byteZ r]
  else if in_range 0 0x7FF r then [byteZ (0xC0 + r / 64); byteZ (0x80 + r mod 64)]
  else if (in_range 0 0xFFFF r && negb (in_range 0xD800 0xDFFF r))
    then [byteZ (0xE0 + r / 4096); byteZ (0x80 + (r / 64) mod 64); byteZ (0x80 + r mod 64)]
  else if in_range 0x10000 0x10FFFF r
    then [byteZ (0xF0 + r / 262144); byteZ (0x80 + (r / 4096) mod 64);
          byteZ (0x80 + (r / 64) mod 64); byteZ (0x80 + r mod 64)]
  else [byteZ 0xEF; byteZ 0xBF; byteZ 0xBD].

(** The ASCII case is separate in the code too; elsewhere the runes are mapped one by one and
    an invalid byte becomes U+FFFD. *)
Definition ToLower `{UnicodeLower} (s : string) : string :=
  if forallb is_ascii (bytes_of s) then of_bytes (lower_ascii <$> bytes_of s)
  else of_bytes (runes s ≫= λ r,
         EncodeRune (if (r <? 128)%Z then Z.of_N (byte_val (lower_ascii (byteZ r))) else unicode_lower r)).

(** [strings.EqualFold(s, word)] for an ASCII word without the letters k and s, the only ones
    that a rune outside ASCII folds to. *)
Definition EqualFold (s word : string) : bool :=
  bool_decide ((lower_ascii <$> bytes_of s) = (lower_ascii <$> bytes_of word)).

(** ** Splitting *)

(** [strings.Split(s, sep)] for a one-byte separator *)
Fixpoint split_bytes (x : ascii) (l : list ascii) : list (list ascii) :=
  match l with
  | [] => [[]]
  | a :: r =>
      if Ascii.eqb a x then [] :: split_bytes x r
      else match split_bytes x r with
           | h :: t => (a :: h) :: t
           | [] => [[a]]
           end
  end.
Definition Split (s : string) (x : ascii) : list string := of_bytes <$> split_bytes x (bytes_of s).

(** [strings.Contains] *)
Fixpoint Contains (s sub : string) : bool :=
  HasPrefix s sub || match s with EmptyString => false | String _ r => Contains r sub end.

(** [strings.CutPrefix] *)
Definition CutPrefix (s p : string) : option string := strip_prefix s p.

Lemma split_bytes_ne x l : split_bytes x l ≠ [].
Proof. destruct l as [|a l]; [done|]. cbn. case_match; [done|]. by destruct (split_bytes x l). Qed.

Lemma split_bytes_none x l : x ∉ l → split_bytes x l = [l].
Proof.
  induction l as [|a l IH]; [done|]. intros [Hn Hl]%not_elem_of_cons. cbn.
  destruct (Ascii.eqb_spec a x); [by subst|]. by rewrite IH.
Qed.

Lemma split_bytes_app x l r : x ∉ l → split_bytes x (l ++ x :: r) = l :: split_bytes x r.
Proof.
  induction l as [|a l IH]; intros Hn; cbn; [by rewrite Ascii.eqb_refl|].
  apply not_elem_of_cons in Hn as [Hn Hl]. destruct (Ascii.eqb_spec a x); [by subst|].
  by rewrite IH.
Qed.

(** *** Case on ASCII *)
(** Decides a statement on one byte by looking at all of them. *)
Ltac each_byte c := destruct c as [[] [] [] [] [] [] [] []]; vm_compute; done || (intros; done) || discriminate.

Lemma graphic_ascii c : graphic c = true → is_ascii c = true.
Proof. each_byte c. Qed.
Lemma lower_graphic c : graphic c = true → graphic (lower_ascii c) = true.
Proof. each_byte c. Qed.
Lemma lower_idemp c : lower_ascii (lower_ascii c) = lower_ascii c.
Proof. each_byte c. Qed.
Lemma lower_dot c : lower_ascii c = "."%char ↔ c = "."%char.
Proof. destruct c as [[] [] [] [] [] [] [] []]; vm_compute; split; congruence. Qed.
Lemma lower_slash c : lower_ascii c = "/"%char ↔ c = "/"%char.
Proof. destruct c as [[] [] [] [] [] [] [] []]; vm_compute; split; congruence. Qed.

(** Printable ASCII text, on which every operation of this file works byte by byte. *)
Definition graphic_text (s : string) : Prop := Forall (λ a, graphic a = true) (bytes_of s).

Lemma bytes_of_of_bytes l : bytes_of (of_bytes l) = l.
Proof. apply String.list_ascii_of_string_of_list_ascii. Qed.
Lemma of_bytes_bytes_of s : of_bytes (bytes_of s) = s.
Proof. apply String.string_of_list_ascii_of_string. Qed.
Lemma bytes_of_inj s t : bytes_of s = bytes_of t → s = t.
Proof. intros E. by rewrite <-(of_bytes_bytes_of s), E, of_bytes_bytes_of. Qed.

Section lower.
Context `{UnicodeLower}.

Lemma ToLower_graphic s : graphic_text s → bytes_of (ToLower s) = lower_ascii <$> bytes_of s.
Proof.
  intros Hs. unfold ToLower. assert (forallb is_ascii (bytes_of s) = true) as ->.
  { apply forallb_forall. intros c Hc. apply graphic_ascii.
    unfold graphic_text in Hs. rewrite Forall_forall in Hs. by apply Hs, list_elem_of_In. }
  apply bytes_of_of_bytes.
Qed.

Lemma graphic_lower s : graphic_text s → graphic_text (ToLower s).
Proof.
  intros Hs. unfold graphic_text. rewrite ToLower_graphic by done. apply Forall_fmap.
  eapply Forall_impl; [exact Hs|]. apply lower_graphic.
Qed.

Lemma ToLower_idemp s : graphic_text s → ToLower (ToLower s) = ToLower s.
Proof.
  intros Hs. apply bytes_of_inj. rewrite !ToLower_graphic by eauto using graphic_lower.
  rewrite <-list_fmap_compose. apply list_fmap_ext. intros i c _. apply lower_idemp.
Qed.
End lower.

Lemma graphic_app s t : graphic_text (s +:+ t) ↔ graphic_text s ∧ graphic_text t.
Proof. unfold graphic_text. by rewrite bytes_of_app, Forall_app. Qed.

(** *** Trimming a byte that is not there *)
Lemma trim_byte_none x l : hd_error l ≠ Some x → trim_byte x l = l.
Proof. destruct l as [|a l]; [done|]. cbn. intros Hn. destruct (Ascii.eqb_spec a x); [by subst|done]. Qed.

Lemma TrimByte_none s x :
  hd_error (bytes_of s) ≠ Some x → hd_error (reverse (bytes_of s)) ≠ Some x → TrimByte s x = s.
Proof.
  intros Hh Ht. unfold TrimByte, TrimRightByte, TrimLeftByte. 
  rewrite bytes_of_of_bytes, (trim_byte_none x (bytes_of s) Hh), (trim_byte_none x _ Ht). by rewrite reverse_involutive, of_bytes_bytes_of.
Qed.

Lemma TrimByte_ends s x :
  hd_error (bytes_of (TrimByte s x)) ≠ Some x ∧ hd_error (reverse (bytes_of (TrimByte s x))) ≠ Some x.
Proof.
  unfold TrimByte, TrimRightByte, TrimLeftByte. rewrite !bytes_of_of_bytes.
  destruct (trim_byte_spec x (bytes_of s)) as (n & Hn & Hh).
  destruct (trim_byte_spec x (reverse (trim_byte x (bytes_of s)))) as (m & Hm & Hr).
  rewrite reverse_involutive. split; [|done]. rewrite Hm. set (l := trim_byte x (bytes_of s)) in *.
  rewrite reverse_drop, reverse_involutive. destruct l as [|a l]; [by rewrite take_nil|].
  destruct (length (reverse (a :: l)) - m); [done|]. done.
Qed.

(** *** Suffixes *)
Lemma rev_string_app s t : rev_string (s +:+ t) = rev_string t +:+ rev_string s.
Proof.
  unfold rev_string. apply bytes_of_inj. rewrite bytes_of_app, !bytes_of_of_bytes, bytes_of_app, reverse_app.
  by rewrite !bytes_of_of_bytes.
Qed.
Lemma rev_string_involutive s : rev_string (rev_string s) = s.
Proof. unfold rev_string. by rewrite bytes_of_of_bytes, reverse_involutive, of_bytes_bytes_of. Qed.
Lemma HasSuffix_app s t : HasSuffix (s +:+ t) t = true.
Proof. unfold HasSuffix. rewrite rev_string_app. apply HasPrefix_app. Qed.
Lemma TrimSuffix_app s t : TrimSuffix (s +:+ t) t = s.
Proof. unfold TrimSuffix. by rewrite rev_string_app, TrimPrefix_app, rev_string_involutive. Qed.

(** *** Parts of a text have the bytes of the text *)
Lemma strip_prefix_some s p t : strip_prefix s p = Some t → s = p +:+ t.
Proof.
  revert s. induction p as [|a p IH]; intros s; cbn [strip_prefix]; [by destruct s; intros [= <-]|].
  destruct s as [|b s]; [done|]. cbn [strip_prefix]. destruct (Ascii.eqb_spec a b) as [->|]; [|done].
  intros Hs. by rewrite (IH _ Hs).
Qed.

Lemma TrimPrefix_Forall (P : ascii → Prop) s p : Forall P (bytes_of s) → Forall P (bytes_of (TrimPrefix s p)).
Proof.
  intros Hs. unfold TrimPrefix. destruct (strip_prefix s p) as [t|] eqn:E; [|done]. cbn.
  apply strip_prefix_some in E as ->. rewrite bytes_of_app in Hs. by apply Forall_app in Hs as [_ ?].
Qed.

Lemma rev_string_Forall (P : ascii → Prop) s : Forall P (bytes_of s) → Forall P (bytes_of (rev_string s)).
Proof. intros Hs. unfold rev_string. rewrite bytes_of_of_bytes. by apply Forall_reverse. Qed.

Lemma TrimSuffix_Forall (P : ascii → Prop) s p : Forall P (bytes_of s) → Forall P (bytes_of (TrimSuffix s p)).
Proof. intros Hs. by apply rev_string_Forall, TrimPrefix_Forall, rev_string_Forall. Qed.

Lemma split_bytes_Forall (P : ascii → Prop) x l : Forall P l → Forall (Forall P) (split_bytes x l).
Proof.
  induction 1 as [|a l Ha _ IH]; cbn; [by repeat constructor|].
  destruct (Ascii.eqb a x); [by constructor|].
  destruct (split_bytes x l) as [|h t]; [by repeat constructor|].
  apply Forall_cons in IH as [Hh Ht]. by repeat constructor.
Qed.

Lemma Split_Forall (P : ascii → Prop) s x part :
  Forall P (bytes_of s) → part ∈ Split s x → Forall P (bytes_of part).
Proof.
  intros Hs (l & -> & Hl)%list_elem_of_fmap. rewrite bytes_of_of_bytes.
  apply (split_bytes_Forall P x) in Hs. rewrite Forall_forall in Hs. by apply Hs.
Qed.

(** ** path.Clean *)

Definition dot : list ascii := ["."%char].
Definition dotdot : list ascii := ["."%char; "."%char].

Fixpoint join_segments (segs : list (list ascii)) : list ascii :=
  match segs with
  | [] => []
  | [s] => s
  | s :: r => s ++ "/"%char :: join_segments r
  end.

(** One path element: [stack] holds the elements kept so far, last first. *)
Definition clean_step (rooted : bool) (stack : list (list ascii)) (seg : list ascii) : list (list ascii) :=
  if bool_decide (seg = []) || bool_decide (seg = dot) then stack
  else if bool_decide (seg = dotdot) then
    match stack with
    | top :: rest => if bool_decide (top = dotdot) then seg :: stack else rest
    | [] => if rooted then [] else [seg]
    end
  else seg :: stack.

Definition clean_bytes (l : list ascii) : list ascii :=
  match l with
  | [] => dot
  | c :: _ =>
      let rooted := Ascii.eqb c "/" in
      let out := join_segments (reverse (foldl (clean_step rooted) [] (split_bytes "/" l))) in
      if rooted then "/"%char :: out else match out with [] => dot | _ => out end
  end.
Definition path_Clean (p : string) : string := of_bytes (clean_bytes (bytes_of p)).

(** An element that cleaning keeps. *)
Definition plain_segment (seg : list ascii) : Prop :=
  seg ≠ [] ∧ seg ≠ dot ∧ seg ≠ dotdot ∧ "/"%char ∉ seg.

Lemma clean_step_plain rooted stack seg : plain_segment seg → clean_step rooted stack seg = seg :: stack.
Proof.
  intros (H1 & H2 & H3 & _). unfold clean_step. by rewrite !bool_decide_eq_false_2.
Qed.

Lemma clean_step_rooted stack seg :
  "/"%char ∉ seg → Forall plain_segment stack → Forall plain_segment (clean_step true stack seg).
Proof.
  intros Hs Hst. unfold clean_step. case_bool_decide; [done|]. case_bool_decide; [done|]. cbn [orb].
  case_bool_decide as Hd.
  - destruct stack as [|top rest]; [done|]. apply Forall_cons in Hst as [(_ & _ & Ht & _) Hr].
    by rewrite bool_decide_eq_false_2.
  - constructor; [|done]. by split_and!.
Qed.

Lemma split_bytes_segments x l : Forall (λ seg, x ∉ seg) (split_bytes x l).
Proof.
  induction l as [|a l IH]; cbn; [by constructor; [set_solver|]|].
  destruct (Ascii.eqb_spec a x) as [->|Hne]; [by constructor; [set_solver|]|].
  destruct (split_bytes x l) as [|h t]; [by constructor; [set_solver|]|].
  apply Forall_cons in IH as [Hh Ht]. constructor; [|done]. set_solver.
Qed.

Lemma clean_fold_rooted segs stack :
  Forall (λ seg, "/"%char ∉ seg) segs → Forall plain_segment stack →
  Forall plain_segment (foldl (clean_step true) stack segs).
Proof.
  intros Hs. revert stack. induction Hs as [|seg segs Hseg _ IH]; intros stack Hst; [done|].
  cbn. apply IH. by apply clean_step_rooted.
Qed.

(** A rooted path cleans to "/" and plain elements. *)
Lemma clean_rooted l :
  ∃ segs, clean_bytes ("/"%char :: l) = "/"%char :: join_segments segs ∧ Forall plain_segment segs.
Proof.
  eexists. split; [done|]. apply Forall_reverse, clean_fold_rooted; [apply split_bytes_segments|done].
Qed.

Lemma split_join_segments seg segs :
  Forall (λ seg, "/"%char ∉ seg) (seg :: segs) → split_bytes "/" (join_segments (seg :: segs)) = seg :: segs.
Proof.
  revert seg. induction segs as [|s r IH]; intros seg [Hs Hr]%Forall_cons; [by apply split_bytes_none|].
  change (join_segments (seg :: s :: r)) with (seg ++ "/"%char :: join_segments (s :: r)).
  rewrite split_bytes_app by done. by rewrite IH.
Qed.

Lemma plain_no_slash segs : Forall plain_segment segs → Forall (λ seg, "/"%char ∉ seg) segs.
Proof. intros H. eapply Forall_impl; [exact H|]. by intros ? (_ & _ & _ & ?). Qed.

Lemma clean_fold_plain rooted segs stack :
  Forall plain_segment segs → foldl (clean_step rooted) stack segs = reverse segs ++ stack.
Proof.
  intros Hs. revert stack. induction Hs as [|seg segs Hseg _ IH]; intros stack; [done|].
  cbn [foldl]. rewrite clean_step_plain, IH by done. by rewrite reverse_cons, <-app_assoc.
Qed.

(** Cleaned paths are not changed again. *)
Lemma clean_plain segs :
  Forall plain_segment segs → clean_bytes ("/"%char :: join_segments segs) = "/"%char :: join_segments segs.
Proof.
  intros Hs. unfold clean_bytes. rewrite Ascii.eqb_refl. f_equal.
  cbn [split_bytes]. rewrite Ascii.eqb_refl. destruct segs as [|seg segs]; [done|].
  rewrite split_join_segments by (by apply plain_no_slash).
  change (foldl (clean_step true) [] ([] :: seg :: segs)) with (foldl (clean_step true) [] (seg :: segs)).
  rewrite clean_fold_plain by done.
  by rewrite app_nil_r, reverse_involutive.
Qed.

Lemma clean_rooted_idemp l : clean_bytes (clean_bytes ("/"%char :: l)) = clean_bytes ("/"%char :: l).
Proof. destruct (clean_rooted l) as (segs & -> & Hs). by apply clean_plain. Qed.

(** The text of an absolute clean path. *)
Definition clean_path (p : string) : Prop :=
  ∃ segs, Forall plain_segment segs ∧ bytes_of p = "/"%char :: join_segments segs.

Lemma path_Clean_rooted p : HasPrefix p "/" = true → clean_path (path_Clean p).
Proof.
  intros [t ->]%HasPrefix_strip. unfold path_Clean. rewrite bytes_of_app.
  destruct (clean_rooted (bytes_of t)) as (segs & Hc & Hs). exists segs. split; [done|].
  cbn [bytes_of app]. by rewrite Hc, String.list_ascii_of_string_of_list_ascii.
Qed.

Lemma path_Clean_fix p : clean_path p → path_Clean p = p.
Proof.
  intros (segs & Hs & Hp). unfold path_Clean. rewrite Hp, clean_plain by done.
  rewrite <-Hp. apply String.string_of_list_ascii_of_string.
Qed.

(** Extra slashes around a path do not matter to cleaning. *)
Lemma split_bytes_app_sep x l r : split_bytes x (l ++ x :: r) = split_bytes x l ++ split_bytes x r.
Proof.
  induction l as [|a l IH]; cbn; [by rewrite Ascii.eqb_refl|].
  destruct (Ascii.eqb a x); [by rewrite IH|].
  rewrite IH. pose proof (split_bytes_ne x l). by destruct (split_bytes x l).
Qed.

Lemma clean_fold_front b n l st :
  foldl (clean_step b) st (split_bytes "/" (repeat "/"%char n ++ l)) = foldl (clean_step b) st (split_bytes "/" l).
Proof.
  induction n as [|n IH]; [done|]. change (repeat "/"%char (S n) ++ l) with ([] ++ "/"%char :: (repeat "/"%char n ++ l)).
  by rewrite split_bytes_app_sep, foldl_app.
Qed.

Lemma clean_fold_back b n l st :
  foldl (clean_step b) st (split_bytes "/" (l ++ repeat "/"%char n)) = foldl (clean_step b) st (split_bytes "/" l).
Proof.
  destruct n as [|n]; [by rewrite app_nil_r|]. cbn [repeat]. rewrite split_bytes_app_sep, foldl_app.
  rewrite <-(app_nil_r (repeat _ _)). by rewrite clean_fold_front.
Qed.

Lemma clean_slashes n m segs :
  Forall plain_segment segs →
  clean_bytes (repeat "/"%char (S n) ++ join_segments segs ++ repeat "/"%char m) = "/"%char :: join_segments segs.
Proof.
  intros Hs. rewrite <-(clean_plain segs Hs). unfold clean_bytes. cbn [repeat app].
  rewrite Ascii.eqb_refl. f_equal. f_equal. f_equal.
  change ("/"%char :: repeat "/"%char n ++ join_segments segs ++ repeat "/"%char m)
    with (repeat "/"%char (S n) ++ join_segments segs ++ repeat "/"%char m).
  change ("/"%char :: join_segments segs) with (repeat "/"%char 1 ++ join_segments segs).
  by rewrite !clean_fold_front, clean_fold_back.
Qed.

Lemma trim_byte_repeat x l : ∃ n, l = repeat x n ++ trim_byte x l.
Proof.
  induction l as [|a l [n IH]]; [by exists 0%nat|]. cbn.
  destruct (Ascii.eqb_spec a x) as [->|]; [|by exists 0%nat]. exists (S n). cbn. by f_equal.
Qed.

Lemma TrimByte_repeat s x : ∃ n m, bytes_of s = repeat x n ++ bytes_of (TrimByte s x) ++ repeat x m.
Proof.
  unfold TrimByte, TrimRightByte, TrimLeftByte. rewrite !bytes_of_of_bytes.
  destruct (trim_byte_repeat x (bytes_of s)) as [n Hn].
  destruct (trim_byte_repeat x (reverse (trim_byte x (bytes_of s)))) as [m Hm].
  exists n, m. rewrite Hn at 1. f_equal.
  rewrite <-(reverse_involutive (trim_byte x (bytes_of s))) at 1. rewrite Hm at 1. rewrite reverse_app. f_equal.
  clear. induction m as [|m IH]; [done|]. cbn [repeat]. by rewrite reverse_cons, IH, <-repeat_cons.
Qed.

(** ** net.IP.String *)
#[local] Open Scope Z_scope.

Definition dotted (a b c d : Z) : string :=
  Itoa a +:+ "." +:+ Itoa b +:+ "." +:+ Itoa c +:+ "." +:+ Itoa d.

(** The 16-bit groups of an IPv6 address. *)
Fixpoint groups (ip : list Z) : list Z :=
  match ip with
  | hi :: lo :: r => (hi * 256 + lo) :: groups r
  | _ => []
  end.

Definition hex_nibble (n : Z) : ascii := hex_digit (Z.to_N n).
Definition hex16 (v : Z) : string :=
  of_bytes ((if 0x1000 <=? v then [hex_nibble (v / 4096)] else [])
         ++ (if 0x100 <=? v then [hex_nibble ((v / 256) mod 16)] else [])
         ++ (if 0x10 <=? v then [hex_nibble ((v / 16) mod 16)] else [])
         ++ [hex_nibble (v mod 16)]).

(** The length of the run of zero groups at each position; the first longest run of at least
    two is written as "::". *)
Fixpoint zero_run (gs : list Z) : nat :=
  match gs with 0 :: r => S (zero_run r) | _ => 0%nat end.
Fixpoint best_run (i : nat) (gs : list Z) (best : nat * nat) : nat * nat :=
  match gs with
  | [] => best
  | _ :: r => best_run (S i) r (if (snd best <? zero_run gs)%nat && (1 <? zero_run gs)%nat
                                then (i, zero_run gs) else best)
  end.

Fixpoint hex_groups (i : nat) (start len : nat) (gs : list Z) : string :=
  match gs with
  | [] => ""
  | g :: r =>
      if (i =? start)%nat && (0 <? len)%nat
      then "::" +:+ hex_groups (S i) start len r
      else if (start <=? i)%nat && (i <? start + len)%nat then hex_groups (S i) start len r
      else (if (0 <? i)%nat && negb ((0 <? len)%nat && (i =? start + len)%nat) then ":" else "")
           +:+ hex16 g +:+ hex_groups (S i) start len r
  end.

Definition IPString (ip : list Z) : string :=
  match ip with
  | [a; b; c; d] => dotted a b c d
  | _ =>
      if bool_decide (take 12 ip = repeat 0 10 ++ [255; 255]) then
        match drop 12 ip with
        | [a; b; c; d] => dotted a b c d
        | _ => ""
        end
      else let '(start, len) := best_run 0 (groups ip) (0%nat, 0%nat) in
           hex_groups 0 start len (groups ip)
  end.

(** [ip.IsLoopback()]: 127.0.0.0/8 or ::1 *)
Definition IsLoopback (ip : list Z) : bool :=
  if bool_decide (take 12 ip = repeat 0 10 ++ [255; 255])
  then match drop 12 ip with 127 :: _ => true | _ => false end
  else bool_decide (ip = repeat 0 15 ++ [1]).

(** [net.ParseIP(s).To4()], as four bytes *)
Definition To4 (s : string) : option (list Z) :=
  ip ← ParseIP s;
  if bool_decide (take 12 ip = repeat 0 10 ++ [255; 255]) then Some (drop 12 ip) else None.

Example ip_string_examples :
  (λ s, IPString <$> ParseIP s) <$> ["2001:db8::1"; "::"; "::1"; "1:0:0:2:0:0:0:3"; "fe80:0:1:0:2:0:0:0"; "10.0.0.7"; "::ffff:10.0.0.7"; "1:2:3:4:5:6:7:0"]
  = [Some "2001:db8::1"; Some "::"; Some "::1"; Some "1:0:0:2::3"; Some "fe80:0:1:0:2::"; Some "10.0.0.7"; Some "10.0.0.7"; Some "1:2:3:4:5:6:7:0"].
Proof. vm_compute. reflexivity. Qed.

Lemma is_IPv4_To4 s : is_IPv4 s = true ↔ is_Some (To4 s).
Proof.
  unfold is_IPv4, To4. destruct (ParseIP s) as [ip|]; cbn; [|by split; [|intros []]].
  case_bool_decide; [by split|]. by split; [|intros []].
Qed.

(** *** Parsed addresses are bytes *)
Definition octet (n : Z) : Prop := 0 ≤ n ≤ 255.

Lemma parseIPv4Fields_octets val dl acc s v4 :
  octet val → Forall octet acc → parseIPv4Fields val dl acc s = Some v4 → Forall octet v4.
Proof.
  revert val dl acc. induction s as [|c s IH]; intros val dl acc Hv Ha; cbn [parseIPv4Fields].
  - case_match; [done|]. intros [= <-]. apply Forall_app. split; [done|by constructor].
  - destruct (is_digit c) eqn:Hd.
    + case_match; [done|]. destruct (Z.ltb_spec 255 (val * 10 + digit_val c)); [done|].
      apply IH; [|done]. unfold octet in *. enough (0 ≤ digit_val c) by lia.
      clear -Hd. revert Hd. unfold is_digit, digit_val. rewrite andb_true_iff, !N.leb_le. lia.
    + repeat (case_match; [done|]). destruct (Ascii.eqb c "."); [|done]. repeat (case_match; [done|]).
      apply IH; [done|]. apply Forall_app. split; [done|by constructor].
Qed.

Lemma hex_field_bound off acc s off' acc' r :
  (off ≤ 4)%nat → 0 ≤ acc < 16 ^ Z.of_nat off → hex_field off acc s = Some (off', acc', r) →
  0 ≤ acc' < 65536.
Proof.
  revert off acc. induction s as [|c s IH]; intros off acc Ho Ha; cbn [hex_field].
  - intros [= <- <- <-]. assert (16 ^ Z.of_nat off ≤ 16 ^ 4) by (apply Z.pow_le_mono_r; lia). lia.
  - destruct (hex_val c) as [d|] eqn:Hc.
    + destruct (Nat.ltb_spec 3 off); [done|]. apply IH; [lia|].
      assert (0 ≤ d ≤ 15) by (revert Hc; unfold hex_val; repeat case_match; intros [= <-];
        repeat match goal with E : (_ && _) = true |- _ => apply andb_true_iff in E as [?%Z.leb_le ?%Z.leb_le] end; lia).
      rewrite Nat2Z.inj_succ, Z.pow_succ_r by lia. lia.
    + intros [= <- <- <-]. assert (16 ^ Z.of_nat off ≤ 16 ^ 4) by (apply Z.pow_le_mono_r; lia). lia.
Qed.

Lemma split16_octets acc : 0 ≤ acc < 65536 → Forall octet [acc / 256; acc mod 256].
Proof.
  intros H. apply Forall_cons. split; [|apply Forall_singleton]; unfold octet.
  - split; [apply Z.div_pos; lia|]. assert (acc / 256 < 256) by (apply Z.div_lt_upper_bound; lia). lia.
  - pose proof (Z.mod_pos_bound acc 256). lia.
Qed.

Lemma ipv6_fields_octets fuel ip e s ip' e' :
  Forall octet ip → ipv6_fields fuel ip e s = Some (ip', e') → Forall octet ip'.
Proof.
  revert ip e s. induction fuel as [|fuel IH]; intros ip e s Hip; cbn [ipv6_fields].
  { destruct s; [|done]. by intros [= <- <-]. }
  case_match; [destruct s; [|done]; by intros [= <- <-]|].
  destruct (hex_field 0 0 s) as [[[[|off] acc] r]|] eqn:Hh; [done| |done].
  apply hex_field_bound in Hh; [|lia|cbn; lia]. apply split16_octets in Hh.
  assert (Forall octet (ip ++ [acc / 256; acc mod 256])) as Hip' by (by apply Forall_app).
  destruct r as [|c r]; [by intros [= <- <-]|]. destruct (Ascii.eqb c ".").
  - case_match; [done|]. destruct (parseIPv4Fields 0 0 [] s) as [v4|] eqn:H4; [|done]. intros [= <- <-].
    apply Forall_app. split; [done|]. eapply parseIPv4Fields_octets; [..|exact H4]; [done|constructor].
  - case_match; [done|]. destruct r as [|c2 r2]; [done|]. cbn zeta.
    destruct (Ascii.eqb c2 ":"); [|by apply IH]. destruct e; [done|].
    destruct r2; [by intros [= <- <-]|by apply IH].
Qed.

Lemma ParseIP_octets s ip : ParseIP s = Some ip → Forall octet ip.
Proof.
  unfold ParseIP. destruct (ip_syntax _) as [c|]; [|done].
  assert (Forall octet (repeat 0 16) ∧ ∀ n, Forall octet (repeat 0 n)) as [H16 Hn].
  { split; [|intros n]; (apply Forall_forall; intros x Hx%list_elem_of_In%repeat_spec; unfold octet; lia). }
  destruct (Ascii.eqb c ".").
  - unfold parseIPv4. destruct (parseIPv4Fields 0 0 [] _) as [v4|] eqn:H4; [|done]. cbn [fmap option_fmap option_map].
    intros E. apply (inj Some) in E as <-. unfold v4_in_v6. apply Forall_app. split; [apply Hn|].
    apply Forall_app. split; [apply Forall_cons; split; [|apply Forall_singleton]; unfold octet; lia|].
    eapply parseIPv4Fields_octets; [..|exact H4]; [unfold octet; lia|constructor].
  - destruct (Ascii.eqb c ":"); [|done]. unfold parseIPv6. case_match; [done|].
    assert (∀ e r, ('(ip, e) ← ipv6_fields 8 [] e r; expand_ellipsis ip e) = Some ip → Forall octet ip) as K.
    { intros e r. destruct (ipv6_fields 8 [] e r) as [[ip' e']|] eqn:Hf; [|done]. cbn [mbind option_bind].
      apply ipv6_fields_octets in Hf; [|constructor]. unfold expand_ellipsis. repeat case_match; intros [= <-]; [|done].
      rewrite !Forall_app. split_and!; [by apply Forall_take|apply Hn|by apply Forall_drop]. }
    repeat case_match; try (by intros [= <-]); apply K.
Qed.

(** *** Printing and parsing dotted addresses *)
Fixpoint digit_run (val : Z) (dl : nat) (ds : list ascii) : option (Z * nat) :=
  match ds with
  | [] => Some (val, dl)
  | c :: r =>
      if negb (is_digit c) || ((dl =? 1)%nat && (val =? 0)) || (255 <? val * 10 + digit_val c) then None
      else digit_run (val * 10 + digit_val c) (S dl) r
  end.

Lemma digit_run_parse val dl ds val' dl' acc r :
  digit_run val dl ds = Some (val', dl') →
  parseIPv4Fields val dl acc (ds ++ r) = parseIPv4Fields val' dl' acc r.
Proof.
  revert val dl. induction ds as [|c ds IH]; intros val dl; cbn [digit_run app]; [by intros [= <- <-]|].
  destruct (negb (is_digit c)) eqn:Hd; [done|]. cbn [orb].
  destruct ((dl =? 1)%nat && (val =? 0)) eqn:Hz; [done|]. cbn [orb].
  destruct (255 <? val * 10 + digit_val c) eqn:Hb; [done|]. intros Hr. apply negb_false_iff in Hd.
  cbn [parseIPv4Fields]. rewrite Hd, Hz, Hb. by apply IH.
Qed.

Lemma octet_digits a :
  octet a → ∃ n, digit_run 0 0 (bytes_of (Itoa a)) = Some (a, S n) ∧ ip_syntax (bytes_of (Itoa a)) = None.
Proof.
  intros Ha. assert (a ∈ seqZ 0 256) as Hin by (apply elem_of_seqZ; unfold octet in Ha; lia).
  assert (forallb (λ a, match digit_run 0 0 (bytes_of (Itoa a)) with
                        | Some (v, S _) => (v =? a)%Z | _ => false end
                        && match ip_syntax (bytes_of (Itoa a)) with None => true | _ => false end)
            (seqZ 0 256) = true) as HF by (by vm_compute).
  rewrite forallb_forall in HF. specialize (HF a). rewrite <-list_elem_of_In in HF. specialize (HF Hin).
  apply andb_true_iff in HF as [H1 H2].
  destruct (digit_run 0 0 _) as [[v [|n]]|]; [done| |done]. apply Z.eqb_eq in H1 as ->.
  exists n. split; [done|]. by destruct (ip_syntax _).
Qed.

Lemma ip_syntax_app l r : ip_syntax l = None → ip_syntax (l ++ r) = ip_syntax r.
Proof.
  induction l as [|c l IH]; [done|]. cbn [ip_syntax app]. case_match; [done|]. apply IH.
Qed.

Lemma parse_dotted_field a acc r :
  octet a → (length acc < 3)%nat → r ≠ [] →
  parseIPv4Fields 0 0 acc (bytes_of (Itoa a) ++ "."%char :: r) = parseIPv4Fields 0 0 (acc ++ [a]) r.
Proof.
  intros Ha Hl Hr. destruct (octet_digits a Ha) as (n & Hd & _).
  rewrite (digit_run_parse _ _ _ _ _ _ _ Hd). cbn [parseIPv4Fields].
  change (is_digit ".") with false. change (Ascii.eqb "." ".") with true. cbn [Nat.eqb orb].
  destruct r as [|c r]; [done|]. cbn [length Nat.eqb].
  by rewrite (proj2 (Nat.eqb_neq (length acc) 3)) by lia.
Qed.

Lemma ParseIP_dotted a b c d :
  octet a → octet b → octet c → octet d → ParseIP (dotted a b c d) = Some (v4_in_v6 [a; b; c; d]).
Proof.
  intros Ha Hb Hc Hd. unfold ParseIP, dotted. rewrite !bytes_of_app.
  change (bytes_of ".") with ["."%char]. cbn [app].
  rewrite ip_syntax_app by (by destruct (octet_digits a Ha) as (? & _ & ?)). cbn [ip_syntax Ascii.eqb Bool.eqb orb].
  unfold parseIPv4.
  rewrite parse_dotted_field by (done || (intros E; apply app_eq_nil in E as [_ ?]; done) || (cbn; lia)).
  rewrite parse_dotted_field by (done || (intros E; apply app_eq_nil in E as [_ ?]; done) || (cbn; lia)).
  destruct (octet_digits d Hd) as (n & Hr & _).
  rewrite parse_dotted_field; [|done|cbn; lia|].
  2: { intros E. rewrite E in Hr. done. }
  rewrite <-(app_nil_r (bytes_of (Itoa d))), (digit_run_parse _ _ _ _ _ _ _ Hr). done.
Qed.

(** An IPv4 address printed and parsed again is the same address. *)
Lemma To4_IPString s ip : To4 s = Some ip → To4 (IPString ip) = Some ip ∧ length ip = 4%nat.
Proof.
  unfold To4 at 1. destruct (ParseIP s) as [full|] eqn:Hp; [|done]. cbn [mbind option_bind].
  case_bool_decide; [|done]. intros E. apply (inj Some) in E as <-.
  pose proof (ParseIP_len _ _ Hp) as Hl. pose proof (ParseIP_octets _ _ Hp) as Ho.
  apply (Forall_drop _ 12) in Ho. assert (length (drop 12 full) = 4%nat) as H4 by (rewrite length_drop; lia).
  split; [|done]. destruct (drop 12 full) as [|a [|b [|c [|d [|]]]]]; try done.
  rewrite !Forall_cons in Ho. destruct Ho as (? & ? & ? & ? & _). unfold To4, IPString.
  rewrite ParseIP_dotted by done. by vm_compute.
Qed.

(** ** Paths as elements *)
Definition path_text (segs : list (list ascii)) : string := of_bytes ("/"%char :: join_segments segs).

Lemma clean_path_text p : clean_path p ↔ ∃ segs, Forall plain_segment segs ∧ p = path_text segs.
Proof.
  unfold clean_path, path_text. split; intros (segs & Hs & Hp); exists segs; (split; [done|]).
  - by rewrite <-Hp, of_bytes_bytes_of.
  - by rewrite Hp, bytes_of_of_bytes.
Qed.

Lemma path_text_clean segs : Forall plain_segment segs → clean_path (path_text segs).
Proof. intros Hs. apply clean_path_text. eauto. Qed.

Lemma join_segments_app segs segs' :
  segs ≠ [] → segs' ≠ [] →
  join_segments (segs ++ segs') = join_segments segs ++ "/"%char :: join_segments segs'.
Proof.
  intros Hne Hne'. induction segs as [|s [|s2 r] IH]; [done| |].
  - by destruct segs'.
  - change (join_segments ((s :: s2 :: r) ++ segs')) with (s ++ "/"%char :: join_segments ((s2 :: r) ++ segs')).
    rewrite IH by done. cbn [join_segments]. by rewrite <-app_assoc.
Qed.

Lemma join_split x l : x = "/"%char → join_segments (split_bytes x l) = l.
Proof.
  intros ->. induction l as [|a l IH]; [done|]. cbn [split_bytes].
  pose proof (split_bytes_ne "/"%char l) as Hne.
  destruct (Ascii.eqb_spec a "/"%char) as [->|_].
  - change ([] :: split_bytes "/" l) with ([[]] ++ split_bytes "/" l).
    rewrite join_segments_app by done. by rewrite IH.
  - destruct (split_bytes "/" l) as [|h [|h2 t]]; [done| |]; rewrite <-IH; done.
Qed.

(** A clean path cut at a slash is cut between elements. *)
Lemma join_segments_cut segs l r :
  Forall plain_segment segs → join_segments segs = l ++ "/"%char :: r →
  ∃ ps tail, segs = ps ++ tail ∧ ps ≠ [] ∧ tail ≠ [] ∧ l = join_segments ps ∧ r = join_segments tail.
Proof.
  intros Hs E. destruct segs as [|s segs]; [by destruct l|].
  pose proof (split_join_segments s segs (plain_no_slash _ Hs)) as Hsp.
  rewrite E, split_bytes_app_sep in Hsp.
  exists (split_bytes "/" l), (split_bytes "/" r).
  split_and!; [done|apply split_bytes_ne..| |]; by rewrite join_split.
Qed.

Lemma path_text_nil : path_text [] = "/".
Proof. done. Qed.

Lemma path_text_inj segs segs' :
  Forall plain_segment segs → Forall plain_segment segs' → path_text segs = path_text segs' → segs = segs'.
Proof.
  intros Hs Hs' [=E]%of_bytes_inj. destruct segs as [|s r], segs' as [|s' r'].
  - done.
  - apply Forall_cons in Hs' as [(Hn & _) _]. destruct s', r'; done.
  - apply Forall_cons in Hs as [(Hn & _) _]. destruct s, r; done.
  - rewrite <-(split_join_segments s r), E, split_join_segments by (by apply plain_no_slash). done.
Qed.

Lemma path_text_eq segs : path_text segs = "/" +:+ of_bytes (join_segments segs).
Proof. done. Qed.

Lemma path_text_rooted segs : HasPrefix (path_text segs) "/" = true.
Proof. rewrite path_text_eq. apply HasPrefix_app. Qed.

Lemma join_segments_ne segs : Forall plain_segment segs → join_segments segs = [] ↔ segs = [].
Proof.
  intros Hs. split; [|by intros ->]. destruct segs as [|s [|s2 r]]; [done| |].
  - apply Forall_cons in Hs as [(Hn & _) _]. done.
  - by destruct s.
Qed.

Lemma join_segments_head segs : Forall plain_segment segs → hd_error (join_segments segs) ≠ Some "/"%char.
Proof.
  intros Hs. destruct segs as [|s r]; [done|]. apply Forall_cons in Hs as [(Hn & _ & _ & Hx) _].
  destruct s as [|a s]; [done|]. destruct r; cbn; intros [= ->]; set_solver.
Qed.

(** * Packages net/url and path/filepath: escaping a path segment, extensions

    [url.PathEscape] and [url.QueryEscape], as the HTTP API and its client build request paths
    with them, and [filepath.Ext], [filepath.Dir] and [filepath.Base] (on a system whose separator is a slash). *)

(** ** Escaping *)
Definition is_alnum (c : ascii) : bool := is_digit c || is_letter c.

(** The bytes [shouldEscape] leaves alone: RFC 3986's unreserved ones everywhere, and in a path
    segment the reserved ones without a meaning there. *)
Definition unreserved (c : ascii) : bool := is_alnum c || existsb (Ascii.eqb c) (bytes_of "-_.~").
Definition segment_byte (c : ascii) : bool := unreserved c || existsb (Ascii.eqb c) (bytes_of "$&+=:@").

Definition upperhex (n : N) : ascii := if (n <? 10)%N then ascii_of_N (48 + n) else ascii_of_N (55 + n).
Definition escape_byte (c : ascii) : list ascii :=
  ["%"%char; upperhex (byte_val c / 16); upperhex (byte_val c mod 16)].

Definition PathEscape (s : string) : string :=
  of_bytes (bytes_of s ≫= λ c, if segment_byte c then [c] else escape_byte c).
Definition QueryEscape (s : string) : string :=
  of_bytes (bytes_of s ≫= λ c, if unreserved c then [c] else if Ascii.eqb c " " then ["+"%char] else escape_byte c).

(** ** Extensions *)

(** The suffix from the last dot of the last element; empty without a dot. *)
Fixpoint ext_scan (ext : list ascii) (l : list ascii) : list ascii :=
  match l with
  | [] => ext
  | "/"%char :: r => ext_scan [] r
  | "."%char :: r => ext_scan ("."%char :: r) r
  | _ :: r => ext_scan ext r
  end.
Definition Ext (path : string) : string := of_bytes (ext_scan [] (bytes_of path)).

(** ** What escaping keeps *)

(** A text that escaping leaves as it is. *)
Definition segment_text (s : string) : Prop := Forall (λ c, segment_byte c = true) (bytes_of s).

(** [filepath.Dir] *)
Definition filepath_Dir (p : string) : string :=
  let segs := split_bytes "/" (bytes_of p) in
  path_Clean (of_bytes (join_segments (take (length segs - 1) segs) ++ (if (1 <? length segs)%nat then ["/"%char] else []))).

(** [filepath.Base] *)
Fixpoint before_slash (l : list ascii) : list ascii :=
  match l with [] => [] | c :: r => if Ascii.eqb c "/" then [] else c :: before_slash r end.
(** The last element of a cleaned path, and what comes before it. *)
Definition path_Split (p : string) : string * string :=
  let l := bytes_of p in
  let name := reverse (before_slash (reverse l)) in
  (of_bytes (take (length l - length name) l), of_bytes name).
Fixpoint strip_slashes (l : list ascii) : list ascii :=
  match l with "/"%char :: r => strip_slashes r | _ => l end.
Definition filepath_Base (p : string) : string :=
  if (p =? "")%string then "."
  else
    let l := reverse (strip_slashes (reverse (bytes_of p))) in
    let name := reverse (before_slash (reverse l)) in
    if bool_decide (name = []) then "/" else of_bytes name.

Lemma bind_singletons {A} (f : A → list A) l : Forall (λ x, f x = [x]) l → l ≫= f = l.
Proof. induction 1 as [|x l Hx _ IH]; [done|]. cbn. by rewrite Hx, IH. Qed.

Lemma PathEscape_id s : segment_text s → PathEscape s = s.
Proof.
  intros Hs. unfold PathEscape. rewrite bind_singletons; [apply of_bytes_bytes_of|].
  eapply Forall_impl; [exact Hs|]. by intros c ->.
Qed.

Lemma escape_byte_plain c : existsb (Ascii.eqb "/") (escape_byte c) = false.
Proof. each_byte c. Qed.

Lemma segment_byte_slash c : segment_byte c = true → c ≠ "/"%char.
Proof. intros Hc ->. by vm_compute in Hc. Qed.

(** Whatever the text, its escape is one segment of a path. *)
Lemma PathEscape_no_slash s : "/"%char ∉ bytes_of (PathEscape s).
Proof.
  unfold PathEscape. rewrite bytes_of_of_bytes. intros (c & Hin & _)%list_elem_of_bind.
  destruct (segment_byte c) eqn:Hc.
  - apply list_elem_of_singleton in Hin as <-. by apply segment_byte_slash in Hc.
  - enough (existsb (Ascii.eqb "/") (escape_byte c) = true) by (by rewrite escape_byte_plain in *).
    apply existsb_exists. exists "/"%char. split; [by apply list_elem_of_In|done].
Qed.

Lemma PathEscape_nil s : PathEscape s = "" ↔ s = "".
Proof.
  unfold PathEscape. destruct (bytes_of s) as [|c l] eqn:Hs.
  - apply bytes_of_nil in Hs as ->. done.
  - split; [|intros ->; done]. intros He. exfalso. cbn in He. destruct (segment_byte c); done.
Qed.

(** The names that validation accepts need no escape. *)
Lemma name_segment s : nameRe s = true → segment_text s ∧ s ≠ "".
Proof.
  unfold nameRe, segment_text. destruct (bytes_of s) as [|c r] eqn:Hs; [done|].
  intros [[Hc _]%andb_prop Hr]%andb_prop. split; [|intros ->; done].
  assert (Hstep : ∀ x, is_letter x = true ∨ is_name_char x = true → segment_byte x = true).
  { intros x Hx. assert (is_letter x || is_name_char x = true) as H by (apply orb_true_iff; tauto).
    clear Hx. revert H. each_byte x. }
  constructor; [by apply Hstep; left|]. apply Forall_forall. intros x Hx.
  apply Hstep. right. by apply forallb_forall with (x := x) in Hr; [|apply list_elem_of_In].
Qed.
