(* ===== verification/Placement.v ===== *)
(** * Node capacity and placement (internal/nodecapacity, internal/placement)

    The scheduler's choice of a node: filtering by preference, feasibility against the last
    capacity snapshot, and the v1alpha1 scoring.  CPU usage is a float64, so the model uses
    binary64 arithmetic and comparison. *)
From stdpp Require Import base strings numbers gmap list.
From Stdlib Require Import Ascii SpecFloat.
From S2P Require Import Prelude GoStrings GoTime Deploy.

(** ** nodecapacity *)
Record Snapshot := mkSnapshot {
  sn_NodeID : string; sn_UpdatedAt : Z; sn_LogicalCPUCores : Z; sn_CPUUsagePercent : float64;
  sn_MemoryTotalBytes : Z; sn_MemoryAvailBytes : Z; sn_MemoryUsedPct : float64 }.

(** The read side of the [SnapshotStore] interface. *)
Record SnapshotStore := mkStore {
  st_Get : string → option Snapshot;
  st_NodeIDs : list string;
  st_Len : nat }.

(** What placement relies on: the ids listed are the trimmed ids that have a snapshot. *)
Record store_ok (st : SnapshotStore) : Prop := {
  so_get : ∀ id, id ∈ st_NodeIDs st → is_Some (st_Get st (TrimSpace id));
  so_len : st_Len st = length (st_NodeIDs st);
}.

(** A [Catalog] is nil or wraps a store. *)
Definition Catalog_Get (c : option SnapshotStore) (nodeID : string) : option Snapshot :=
  match c with None => None | Some st => st_Get st (TrimSpace nodeID) end.
Definition Catalog_Len (c : option SnapshotStore) : nat :=
  match c with None => 0 | Some st => st_Len st end.
Definition Catalog_NodeIDs (c : option SnapshotStore) : list string :=
  match c with None => [] | Some st => st_NodeIDs st end.

(** ** placement/v1alpha1.go *)
Record scoredNode := mkScored { sc_id : string; sc_snap : Snapshot }.
Record workloadResourceRequest := mkRequest { rq_cpuMillis : Z; rq_memoryByte : Z }.

Definition fallbackNodeID (localNodeID : string) : string :=
  let id := TrimSpace localNodeID in if (id =? "")%string then "local" else id.

Definition workloadRequest (w : Workload) : workloadResourceRequest :=
  match w_Resources w with
  | None => mkRequest 0 0
  | Some r => mkRequest (res_CPUMillis r) (res_MemoryBytes r)
  end.

(** An insertion-ordered set: the list of its elements in order of first insertion. *)
Definition ordered_add (s : list string) (x : string) : list string :=
  if bool_decide (x ∈ s) then s else s ++ [x].

(** [None] stands for the nil set of an unrestricted workload. *)
Definition preferredNames (w : Workload) : option (list string) :=
  match w_Scheduling w with
  | None => None
  | Some sch =>
      match sch_PreferredNodes sch with
      | [] => None
      | raw => Some (foldl (λ s n, let n := TrimSpace n in
                              if (n =? "")%string then s else ordered_add s n) [] raw)
      end
  end.

Definition placementCandidates (w : Workload) (catalog : option SnapshotStore)
    : res (list string * option (list string)) :=
  let candidates := Catalog_NodeIDs catalog in
  match preferredNames w with
  | None => Ok (candidates, None)
  | Some want =>
      if (length want =? 0)%nat
      then Err (Errorf "placement: scheduling.preferredNodes has no valid names" [])
      else
        let filtered := filter (λ id, TrimSpace id ∈ want) candidates in
        if (length filtered =? 0)%nat
        then Err (Errorf "placement: no catalog nodes match scheduling.preferredNodes" [])
        else Ok (filtered, Some want)
  end.

Definition snapEqual (a b : Snapshot) : bool :=
  f64_eqb (sn_CPUUsagePercent a) (sn_CPUUsagePercent b)
  && (sn_MemoryAvailBytes a =? sn_MemoryAvailBytes b)%Z.

Fixpoint index_of (x : string) (l : list string) : option nat :=
  match l with
  | [] => None
  | y :: r => if (y =? x)%string then Some 0 else S <$> index_of x r
  end.

Definition preferredRank (want : option (list string)) (nodeID : string) : nat :=
  match want with
  | None => 0
  | Some l => default (length l + 1) (index_of nodeID l)
  end.

(** Cores are milli-cores times 1000; the fraction still free is computed in float64. *)
Definition estimatedCPUmillisRemaining (s : Snapshot) : Z :=
  if (sn_LogicalCPUCores s <=? 0)%Z then 0
  else
    let total := wrap_int64 (sn_LogicalCPUCores s * 1000) in
    if f64_leb (sn_CPUUsagePercent s) (f64_of_Z 0) then total
    else
      let p := if f64_ltb (f64_of_Z 100) (sn_CPUUsagePercent s) then f64_of_Z 100
               else sn_CPUUsagePercent s in
      let availFrac := f64_div (f64_sub (f64_of_Z 100) p) (f64_of_Z 100) in
      f64_trunc (f64_mul (f64_of_Z total) availFrac).

Definition feasible (reqCPUmillis reqMemBytes : Z) (s : Snapshot) : bool :=
  if (0 <? reqMemBytes)%Z && (sn_MemoryAvailBytes s <? reqMemBytes)%Z then false
  else if (reqCPUmillis <=? 0)%Z then true
  else (reqCPUmillis <=? estimatedCPUmillisRemaining s)%Z.

Definition better (a b : Snapshot) : bool :=
  if negb (f64_eqb (sn_CPUUsagePercent a) (sn_CPUUsagePercent b))
  then f64_ltb (sn_CPUUsagePercent a) (sn_CPUUsagePercent b)
  else (sn_MemoryAvailBytes b <? sn_MemoryAvailBytes a)%Z.

Definition shouldReplaceCandidate (cur prev : scoredNode) (preferences : option (list string))
    (restricted : bool) : bool :=
  better (sc_snap cur) (sc_snap prev)
  || (restricted && snapEqual (sc_snap cur) (sc_snap prev)
      && (preferredRank preferences (sc_id cur) <? preferredRank preferences (sc_id prev))%nat).

Definition chooseBetterCandidate (catalog : option SnapshotStore) (request : workloadResourceRequest)
    (preferences : option (list string)) (restricted : bool) (best : option scoredNode) (id : string)
    : option scoredNode :=
  match Catalog_Get catalog id with
  | None => best
  | Some snap =>
      if negb (feasible (rq_cpuMillis request) (rq_memoryByte request) snap) then best
      else
        let cur := mkScored id snap in
        match best with
        | None => Some cur
        | Some prev => if shouldReplaceCandidate cur prev preferences restricted then Some cur else best
        end
  end.

Definition bestPlacementCandidate (candidates : list string) (catalog : option SnapshotStore)
    (request : workloadResourceRequest) (preferences : option (list string)) (restricted : bool)
    : option scoredNode :=
  foldl (chooseBetterCandidate catalog request preferences restricted) None candidates.

Definition chooseV1Alpha1 (w : Workload) (catalog : option SnapshotStore) (localNodeID : string)
    : res string :=
  if (Catalog_Len catalog =? 0)%nat then Ok (fallbackNodeID localNodeID)
  else
    '(candidates, preferences) ← placementCandidates w catalog;
    let restricted := if preferences is Some _ then true else false in
    match bestPlacementCandidate candidates catalog (workloadRequest w) preferences restricted with
    | None => Err (Errorf "placement: no feasible node for workload %q (resources / stale catalog)"
                     [AStr (w_Name w)])
    | Some node => Ok (sc_id node)
    end.

(** placement/engine.go: every engine version currently runs the v1alpha1 policy. *)
Definition Choose (w : Workload) (catalog : option SnapshotStore) (localNodeID : string) : res string :=
  chooseV1Alpha1 w catalog localNodeID.

(** ** Comparison of doubles is a strict weak order away from NaN *)
Definition fkey (f : float64) : Z * Z * Z :=
  match f with
  | S754_infinity true => (-2, 0, 0)
  | S754_finite true m e => (-1, - e, - Z.pos m)
  | S754_zero _ | S754_nan => (0, 0, 0)
  | S754_finite false m e => (1, e, Z.pos m)
  | S754_infinity false => (2, 0, 0)
  end%Z.

Definition key_lt (a b : Z * Z * Z) : Prop :=
  (a.1.1 < b.1.1 ∨ a.1.1 = b.1.1 ∧ (a.1.2 < b.1.2 ∨ a.1.2 = b.1.2 ∧ a.2 < b.2))%Z.

Lemma SFcompare_key a b :
  is_nan_f64 a = false → is_nan_f64 b = false →
  match SFcompare a b with
  | Some Lt => key_lt (fkey a) (fkey b)
  | Some Eq => fkey a = fkey b
  | Some Gt => key_lt (fkey b) (fkey a)
  | None => False
  end.
Proof.
  destruct a as [sa|[]| |sa ma ea], b as [sb|[]| |sb mb eb]; try done; intros _ _;
    try (destruct sa); try (destruct sb); cbn; unfold key_lt; cbn; try lia; try done.
  all: destruct (Z.compare_spec ea eb) as [->| |]; cbn; try lia.
  all: change (PosDef.Pos.compare_cont Eq ma mb) with (Pos.compare ma mb).
  all: destruct (Pos.compare_spec ma mb) as [->| |]; cbn; first [done | lia].
Qed.

Lemma f64_ltb_key a b :
  is_nan_f64 a = false → is_nan_f64 b = false → f64_ltb a b = true ↔ key_lt (fkey a) (fkey b).
Proof.
  intros Ha Hb. pose proof (SFcompare_key a b Ha Hb) as Hc. unfold f64_ltb, SFltb.
  unfold key_lt in *. destruct (SFcompare a b) as [[]|]; try done.
  - rewrite Hc. split; [done|]. lia.
  - split; [done|]. lia.
Qed.

Lemma f64_eqb_key a b :
  is_nan_f64 a = false → is_nan_f64 b = false → f64_eqb a b = true ↔ fkey a = fkey b.
Proof.
  intros Ha Hb. pose proof (SFcompare_key a b Ha Hb) as Hc. unfold f64_eqb, SFeqb.
  unfold key_lt in *. destruct (SFcompare a b) as [[]|]; try done;
    (split; [done|]; intros E; rewrite E in Hc; lia).
Qed.

(** ** The chosen node *)
Definition no_nan (s : Snapshot) : Prop := is_nan_f64 (sn_CPUUsagePercent s) = false.

(** [cur] is strictly better placed than [prev]: lower CPU usage, then more available memory,
    then (for restricted workloads) an earlier place in the preference list. *)
Definition better_key (restricted : bool) (ka kb : Z * Z * Z) (ma mb : Z) (ra rb : nat) : Prop :=
  key_lt ka kb ∨ ka = kb ∧ ((mb < ma)%Z ∨ ma = mb ∧ restricted = true ∧ (ra < rb)%nat).

Definition rank_key (prefs : option (list string)) (restricted : bool) (a b : scoredNode) : Prop :=
  better_key restricted (fkey (sn_CPUUsagePercent (sc_snap a))) (fkey (sn_CPUUsagePercent (sc_snap b)))
    (sn_MemoryAvailBytes (sc_snap a)) (sn_MemoryAvailBytes (sc_snap b))
    (preferredRank prefs (sc_id a)) (preferredRank prefs (sc_id b)).

Lemma shouldReplace_spec a b prefs restricted :
  no_nan (sc_snap a) → no_nan (sc_snap b) →
  shouldReplaceCandidate a b prefs restricted = true ↔ rank_key prefs restricted a b.
Proof.
  unfold no_nan, shouldReplaceCandidate, better, snapEqual, rank_key, better_key. intros Ha Hb.
  pose proof (f64_ltb_key _ _ Ha Hb) as Hlt. pose proof (f64_eqb_key _ _ Ha Hb) as Heq.
  set (ka := fkey _) in *. set (kb := fkey (sn_CPUUsagePercent (sc_snap b))) in *.
  rewrite orb_true_iff, !andb_true_iff, Nat.ltb_lt, Z.eqb_eq.
  destruct (f64_eqb _ _); cbn [negb].
  - assert (ka = kb) as E by tauto. rewrite Z.ltb_lt. unfold key_lt. rewrite E.
    destruct restricted; intuition lia.
  - assert (ka ≠ kb) by (intros E; by apply Heq in E). rewrite Hlt. intuition congruence.
Qed.

Lemma rank_key_trans prefs restricted a b c :
  rank_key prefs restricted a b → rank_key prefs restricted b c → rank_key prefs restricted a c.
Proof.
  unfold rank_key, better_key. generalize (fkey (sn_CPUUsagePercent (sc_snap a))),
    (fkey (sn_CPUUsagePercent (sc_snap b))), (fkey (sn_CPUUsagePercent (sc_snap c))).
  intros [[a1 a2] a3] [[b1 b2] b3] [[c1 c2] c3]. unfold key_lt. cbn.
  intros [H1|[[= -> -> ->] H1]] [H2|[[= -> -> ->] H2]].
  - left. lia.
  - left. lia.
  - left. lia.
  - right. split; [done|]. destruct H1 as [?|(? & ? & ?)], H2 as [?|(? & ? & ?)];
      [left; lia|left; lia|left; lia|right; split_and!; [lia|done|lia]].
Qed.

Section best.
Variables (catalog : option SnapshotStore) (rq : workloadResourceRequest)
  (prefs : option (list string)) (restricted : bool).

(** A candidate the fold takes into account. *)
Definition eligible (ids : list string) (n : scoredNode) : Prop :=
  sc_id n ∈ ids ∧ Catalog_Get catalog (sc_id n) = Some (sc_snap n)
  ∧ feasible (rq_cpuMillis rq) (rq_memoryByte rq) (sc_snap n) = true.

Definition optimal (ids : list string) (n : scoredNode) : Prop :=
  eligible ids n ∧ ∀ m, eligible ids m → ¬ rank_key prefs restricted m n.

Hypothesis Hnan : ∀ id s, Catalog_Get catalog id = Some s → no_nan s.

Lemma eligible_app ids ids' n : eligible (ids ++ ids') n ↔ eligible ids n ∨ eligible ids' n.
Proof. unfold eligible. rewrite elem_of_app. naive_solver. Qed.

Lemma eligible_one id n :
  eligible [id] n ↔ sc_id n = id ∧ Catalog_Get catalog id = Some (sc_snap n)
    ∧ feasible (rq_cpuMillis rq) (rq_memoryByte rq) (sc_snap n) = true.
Proof. unfold eligible. rewrite list_elem_of_singleton. naive_solver. Qed.

Lemma rank_key_irrefl n : ¬ rank_key prefs restricted n n.
Proof. unfold rank_key, better_key, key_lt. lia. Qed.

Lemma best_candidate ids :
  match bestPlacementCandidate ids catalog rq prefs restricted with
  | Some n => optimal ids n
  | None => ∀ m, ¬ eligible ids m
  end.
Proof.
  unfold bestPlacementCandidate. induction ids as [|id ids IH] using rev_ind.
  { cbn. intros m [Hm _]. by apply elem_of_nil in Hm. }
  rewrite foldl_snoc. set (best := foldl _ None ids) in *.
  unfold chooseBetterCandidate.
  destruct (Catalog_Get catalog id) as [snap|] eqn:Eg.
  2: { assert (∀ m, eligible (ids ++ [id]) m ↔ eligible ids m) as Hsame.
       { intros m. rewrite eligible_app, eligible_one, Eg. naive_solver. }
       destruct best; unfold optimal in *; by setoid_rewrite Hsame. }
  destruct (feasible _ _ snap) eqn:Ef; cbn [negb].
  2: { assert (∀ m, eligible (ids ++ [id]) m ↔ eligible ids m) as Hsame.
       { intros m. rewrite eligible_app, eligible_one, Eg. naive_solver congruence. }
       destruct best; unfold optimal in *; by setoid_rewrite Hsame. }
  assert (∀ m, eligible (ids ++ [id]) m ↔ eligible ids m ∨ m = mkScored id snap) as Hstep.
  { intros m. rewrite eligible_app, eligible_one, Eg. destruct m; cbn. naive_solver. }
  destruct best as [prev|].
  - destruct IH as [Hprev Hopt].
    assert (no_nan snap) as N1 by (by eapply Hnan).
    assert (no_nan (sc_snap prev)) as N2 by (eapply Hnan, Hprev).
    pose proof (shouldReplace_spec (mkScored id snap) prev prefs restricted N1 N2) as Hr.
    destruct (shouldReplaceCandidate _ _ _ _).
    + split; [rewrite Hstep; by right|]. intros m. rewrite Hstep. intros [Hm| ->].
      * intros Hlt. apply (Hopt m Hm). eapply rank_key_trans; [exact Hlt|]. by apply Hr.
      * apply rank_key_irrefl.
    + split; [rewrite Hstep; by left|]. intros m. rewrite Hstep. intros [Hm| ->]; [by apply Hopt|].
      intros Hlt. by apply Hr in Hlt.
  - split; [rewrite Hstep; by right|]. intros m. rewrite Hstep. intros [Hm| ->]; [by destruct (IH m)|].
    apply rank_key_irrefl.
Qed.
End best.

(** The candidate ids of a workload. *)
Definition is_candidate (w : Workload) (catalog : option SnapshotStore) (id : string) : Prop :=
  id ∈ Catalog_NodeIDs catalog ∧ ∀ want, preferredNames w = Some want → TrimSpace id ∈ want.

Lemma placementCandidates_ok w catalog cs prefs :
  placementCandidates w catalog = Ok (cs, prefs) →
  prefs = preferredNames w ∧ ∀ id, id ∈ cs ↔ is_candidate w catalog id.
Proof.
  unfold placementCandidates, is_candidate. destruct (preferredNames w) as [want|]; [|naive_solver].
  destruct (length want =? 0)%nat; [done|]. destruct (_ =? 0)%nat; [done|]. intros [= <- <-].
  split; [done|]. intros id. rewrite list_elem_of_filter. naive_solver.
Qed.

Lemma placementCandidates_complete w catalog id :
  is_candidate w catalog id → ∃ cs, placementCandidates w catalog = Ok (cs, preferredNames w).
Proof.
  unfold placementCandidates, is_candidate. intros [Hid Hw].
  destruct (preferredNames w) as [want|]; [|by eexists].
  specialize (Hw want eq_refl).
  destruct (Nat.eqb_spec (length want) 0) as [E|_].
  { apply length_zero_iff_nil in E as ->. by apply elem_of_nil in Hw. }
  assert (id ∈ filter (λ id, TrimSpace id ∈ want) (Catalog_NodeIDs catalog)) as Hin
    by (by apply list_elem_of_filter).
  destruct (Nat.eqb_spec (length (filter (λ id, TrimSpace id ∈ want) (Catalog_NodeIDs catalog))) 0)
    as [E|_]; [|by eexists].
  apply length_zero_iff_nil in E. rewrite E in Hin. by apply elem_of_nil in Hin.
Qed.
