(* ===== verification/Fsm.v ===== *)
(** * The replicated state machine (internal/raftsvc: fsm*.go, revisions.go)

    [schedulingFSM] is the deterministic state machine that Raft replicates: commands are
    JSON envelopes, applied in log order under one mutex.  The JSON codec is an interface. *)
From stdpp Require Import base strings numbers gmap list.
From Stdlib Require Import Ascii.
From S2P Require Import Prelude GoStrings GoTime Deploy Meta Placement.

(** ** Commands and their encoding *)
Definition cmdUpsertNodeCapacity := "upsert_node_capacity".
Definition cmdUpsertDeployApp := "upsert_deploy_app".
Definition cmdDeleteDeployApp := "delete_deploy_app".
Definition cmdUpsertWorkloadAssignment := "upsert_workload_assignment".
Definition cmdUpsertVolumeBinding := "upsert_volume_binding".

Record DeployAppRevision := mkRevision { rev_Generation : string; rev_App : App }.

Record fsmSnapshotState := mkState {
  AppliedCommands : Z;
  NodeCapacity : gmap string Snapshot;
  DeployApps : gmap string App;
  DeployAppRevisions : gmap string (list DeployAppRevision);
  Assignments : gmap string Assignment;
  VolumeBindings : gmap string Binding }.

(** The envelopes the service proposes. *)
Inductive command :=
| CUpsertNode (s : Snapshot)
| CUpsertApp (a : App)
| CDeleteApp (m : Metadata)
| CUpsertAssignment (a : Assignment)
| CUpsertBinding (b : Binding).

(** [encoding/json] at the types the package uses it at: [decodeX data] is
    [json.Unmarshal(data, &env)] followed by the field read, [None] on an error (which the
    state machine ignores). *)
Class Codec := {
  payload : Type;
  payload_empty : payload → bool;
  decodeType : payload → option string;
  decodeNode : payload → option Snapshot;
  decodeApp : payload → option App;
  decodeMeta : payload → option Metadata;
  decodeAssignment : payload → option Assignment;
  decodeBinding : payload → option Binding;
  encode : command → res payload;
  encodeState : fsmSnapshotState → res payload;
  decodeState : payload → res fsmSnapshotState;
}.

Definition command_type (c : command) : string :=
  match c with
  | CUpsertNode _ => cmdUpsertNodeCapacity
  | CUpsertApp _ => cmdUpsertDeployApp
  | CDeleteApp _ => cmdDeleteDeployApp
  | CUpsertAssignment _ => cmdUpsertWorkloadAssignment
  | CUpsertBinding _ => cmdUpsertVolumeBinding
  end.

(** What JSON promises: a value that JSON can represent comes back as it was, and the type tag,
    a constant of letters and underscores, does whatever the rest of the command is. *)
Class CodecLaws `{Codec} := {
  representable : command → Prop;
  state_representable : fsmSnapshotState → Prop;
  encode_ok c b : representable c → encode c = Ok b →
    payload_empty b = false ∧ decodeType b = Some (command_type c) ∧
    match c with
    | CUpsertNode s => decodeNode b = Some s
    | CUpsertApp a => decodeApp b = Some a
    | CDeleteApp m => decodeMeta b = Some m
    | CUpsertAssignment a => decodeAssignment b = Some a
    | CUpsertBinding bd => decodeBinding b = Some bd
    end;
  encode_type c b : encode c = Ok b → decodeType b = Some (command_type c);
  encode_total c : representable c → ∃ b, encode c = Ok b;
  state_roundtrip st b : state_representable st → encodeState st = Ok b →
    payload_empty b = false ∧ decodeState b = Ok st;
}.

(** ** State updates *)
Definition bump (st : fsmSnapshotState) : fsmSnapshotState :=
  mkState (wrap_uint64 (AppliedCommands st + 1)) (NodeCapacity st) (DeployApps st)
    (DeployAppRevisions st) (Assignments st) (VolumeBindings st).
Definition set_nodes m (st : fsmSnapshotState) : fsmSnapshotState :=
  mkState (AppliedCommands st) m (DeployApps st) (DeployAppRevisions st) (Assignments st) (VolumeBindings st).
Definition set_apps m (st : fsmSnapshotState) : fsmSnapshotState :=
  mkState (AppliedCommands st) (NodeCapacity st) m (DeployAppRevisions st) (Assignments st) (VolumeBindings st).
Definition set_revisions m (st : fsmSnapshotState) : fsmSnapshotState :=
  mkState (AppliedCommands st) (NodeCapacity st) (DeployApps st) m (Assignments st) (VolumeBindings st).
Definition set_assignments m (st : fsmSnapshotState) : fsmSnapshotState :=
  mkState (AppliedCommands st) (NodeCapacity st) (DeployApps st) (DeployAppRevisions st) m (VolumeBindings st).
Definition set_bindings m (st : fsmSnapshotState) : fsmSnapshotState :=
  mkState (AppliedCommands st) (NodeCapacity st) (DeployApps st) (DeployAppRevisions st) (Assignments st) m.

Definition empty_state : fsmSnapshotState := mkState 0 ∅ ∅ ∅ ∅ ∅.

(** [notifyDeploy] says whether the callback is installed; the one the service installs fills
    a channel with one slot, whose content is [signal]. *)
Record schedulingFSM := mkFSM { state : fsmSnapshotState; notifyDeploy : bool; signal : bool }.

Definition initial : schedulingFSM := mkFSM empty_state false false.

Definition setNotifyDeploy (f : schedulingFSM) : schedulingFSM := mkFSM (state f) true (signal f).

Definition notifyDeployChanged (f : schedulingFSM) : schedulingFSM :=
  if notifyDeploy f then mkFSM (state f) true true else f.

Definition upd (g : fsmSnapshotState → fsmSnapshotState) (f : schedulingFSM) : schedulingFSM :=
  mkFSM (g (state f)) (notifyDeploy f) (signal f).

Definition set_metadata_trimmed (m : Metadata) : Metadata :=
  mkMetadata (TrimSpace (md_Name m)) (TrimSpace (md_Namespace m)) (md_Labels m) (md_Annotations m).

(** The field trimming shared by [normalizeAssignment] and [ApplyWorkloadAssignment]. *)
Definition trim_assignment (a : Assignment) : Assignment :=
  mkAssignment (TrimSpace (as_Key a)) (set_metadata_trimmed (as_Metadata a)) (TrimSpace (as_Workload a))
    (TrimSpace (as_Node a)) (TrimSpace (as_Address a)) (as_Runtime a) (as_Artifact a)
    (TrimSpace (as_Status a)) (as_Generation a) (as_Error a) (as_UpdatedAt a).

Definition set_as_key (k : string) (a : Assignment) : Assignment :=
  mkAssignment k (as_Metadata a) (as_Workload a) (as_Node a) (as_Address a) (as_Runtime a)
    (as_Artifact a) (as_Status a) (as_Generation a) (as_Error a) (as_UpdatedAt a).

Definition normalizeAssignment (raw : Assignment) : option Assignment :=
  let a := trim_assignment raw in
  if (md_Name (as_Metadata a) =? "")%string || (as_Workload a =? "")%string then None
  else
    let a := if (as_Key a =? "")%string
             then set_as_key (AssignmentKey (as_Metadata a) (as_Workload a)) a else a in
    if (as_Key a =? "")%string then None else Some a.

Definition trim_binding (b : Binding) : Binding :=
  mkBinding (TrimSpace (bd_Key b)) (set_metadata_trimmed (bd_Metadata b)) (TrimSpace (bd_Volume b))
    (TrimSpace (bd_Workload b)) (TrimSpace (bd_Target b)) (TrimSpace (bd_Node b)) (bd_Runtime b)
    (TrimSpace (bd_Source b)) (bd_Persistent b) (bd_SizeBytes b) (TrimSpace (bd_Status b))
    (bd_Generation b) (bd_Error b) (bd_UpdatedAt b).

Definition set_bd_key (k : string) (b : Binding) : Binding :=
  mkBinding k (bd_Metadata b) (bd_Volume b) (bd_Workload b) (bd_Target b) (bd_Node b) (bd_Runtime b)
    (bd_Source b) (bd_Persistent b) (bd_SizeBytes b) (bd_Status b) (bd_Generation b) (bd_Error b)
    (bd_UpdatedAt b).

Definition normalizeVolumeBinding (raw : Binding) : option Binding :=
  let b := trim_binding raw in
  if (md_Name (bd_Metadata b) =? "")%string || (bd_Workload b =? "")%string || (bd_Volume b =? "")%string
  then None
  else
    let b := if (bd_Key b =? "")%string
             then set_bd_key (BindingKey (bd_Metadata b) (bd_Workload b) (bd_Volume b)) b else b in
    if (bd_Key b =? "")%string then None else Some b.

Definition deployAppMapKey (m : Metadata) : string :=
  NamespaceOrDefault (md_Namespace m) +:+ "/" +:+ TrimSpace (md_Name m).

Definition maxDeployAppRevisions : nat := 10.

(** ** The operations *)
Section fsm.
Context `{Digest, Codec}.

Definition revisions_of (key : string) (st : fsmSnapshotState) : list DeployAppRevision :=
  default [] (DeployAppRevisions st !! key).

(** The new history of a key: unchanged when the digest is blank or already the last entry;
    otherwise the last [limit] of the history with the entry appended. *)
Definition push_revision (limit : nat) (revisions : list DeployAppRevision) (app : App)
    : list DeployAppRevision :=
  let revisions' := revisions ++ [mkRevision (AppGeneration app) app] in
  if (limit <? length revisions')%nat then drop (length revisions' - limit) revisions' else revisions'.

Definition appendDeployAppRevisionLocked (key : string) (app : App) (st : fsmSnapshotState)
    : fsmSnapshotState :=
  let generation := AppGeneration app in
  if (TrimSpace generation =? "")%string then st
  else
    let revisions := revisions_of key st in
    if match last revisions with Some r => (rev_Generation r =? generation)%string | None => false end
    then st
    else set_revisions
           (<[key := push_revision maxDeployAppRevisions revisions app]> (DeployAppRevisions st)) st.

Definition applyNodeCapacity (data : payload) (f : schedulingFSM) : schedulingFSM :=
  match decodeNode data with
  | None => f
  | Some node =>
      let id := TrimSpace (sn_NodeID node) in
      if (id =? "")%string then f
      else upd (λ st, set_nodes (<[id := node]> (NodeCapacity st)) st) f
  end.

Definition upsert_app (app : App) (st : fsmSnapshotState) : fsmSnapshotState :=
  let key := deployAppMapKey (app_Metadata app) in
  let st1 :=
    match DeployApps st !! key with
    | Some current =>
        if (AppGeneration current =? AppGeneration app)%string then st
        else appendDeployAppRevisionLocked key current st
    | None => st
    end in
  set_apps (<[key := app]> (DeployApps st1)) st1.

Definition applyDeployApp (data : payload) (f : schedulingFSM) : schedulingFSM :=
  match decodeApp data with
  | None => f
  | Some app =>
      if (TrimSpace (md_Name (app_Metadata app)) =? "")%string then f
      else notifyDeployChanged (upd (upsert_app app) f)
  end.

Definition delete_app (m : Metadata) (st : fsmSnapshotState) : fsmSnapshotState :=
  let key := deployAppMapKey m in
  set_revisions (delete key (DeployAppRevisions st)) (set_apps (delete key (DeployApps st)) st).

Definition applyDeleteDeployApp (data : payload) (f : schedulingFSM) : schedulingFSM :=
  match decodeMeta data with
  | None => f
  | Some m =>
      if (TrimSpace (md_Name m) =? "")%string then f
      else notifyDeployChanged (upd (delete_app m) f)
  end.

Definition applyWorkloadAssignment (data : payload) (f : schedulingFSM) : schedulingFSM :=
  match decodeAssignment data with
  | None => f
  | Some raw =>
      match normalizeAssignment raw with
      | None => f
      | Some a => upd (λ st, set_assignments (<[as_Key a := a]> (Assignments st)) st) f
      end
  end.

Definition applyVolumeBinding (data : payload) (f : schedulingFSM) : schedulingFSM :=
  match decodeBinding data with
  | None => f
  | Some raw =>
      match normalizeVolumeBinding raw with
      | None => f
      | Some b => upd (λ st, set_bindings (<[bd_Key b := b]> (VolumeBindings st)) st) f
      end
  end.

Definition applyPayloadLocked (data : payload) (f : schedulingFSM) : schedulingFSM :=
  match decodeType data with
  | None => f
  | Some t =>
      if (t =? cmdUpsertNodeCapacity)%string then applyNodeCapacity data f
      else if (t =? cmdUpsertDeployApp)%string then applyDeployApp data f
      else if (t =? cmdDeleteDeployApp)%string then applyDeleteDeployApp data f
      else if (t =? cmdUpsertWorkloadAssignment)%string then applyWorkloadAssignment data f
      else if (t =? cmdUpsertVolumeBinding)%string then applyVolumeBinding data f
      else f
  end.

Definition applyCommandPayload (data : payload) (f : schedulingFSM) : schedulingFSM :=
  let f := upd bump f in
  if payload_empty data then f else applyPayloadLocked data f.

(** [Update] also returns the number of commands applied. *)
Definition Update (f : schedulingFSM) (entry : payload) : schedulingFSM * Z :=
  let f' := applyCommandPayload entry f in (f', AppliedCommands (state f')).

(** *** Lookups *)
Definition getNodeCapacity (nodeID : string) (f : schedulingFSM) : option Snapshot :=
  NodeCapacity (state f) !! nodeID.
Definition lenNodeCapacity (f : schedulingFSM) : nat := size (NodeCapacity (state f)).

Definition getDeployApp (m : Metadata) (f : schedulingFSM) : option App :=
  DeployApps (state f) !! deployAppMapKey m.

Definition listDeployAppRevisions (m : Metadata) (f : schedulingFSM) : list DeployAppRevision :=
  reverse (revisions_of (deployAppMapKey m) (state f)).

Definition previousDeployApp (m : Metadata) (f : schedulingFSM) : option DeployAppRevision :=
  last (revisions_of (deployAppMapKey m) (state f)).

Definition getAssignment (key : string) (f : schedulingFSM) : option Assignment :=
  Assignments (state f) !! TrimSpace key.
Definition getVolumeBinding (key : string) (f : schedulingFSM) : option Binding :=
  VolumeBindings (state f) !! TrimSpace key.

(** *** Snapshots *)
(** [w] is the writer: what [Write] returns for the bytes given to it.  The result is the
    bytes written. *)
Definition SaveSnapshot (w : payload → res unit) (f : schedulingFSM) : res payload :=
  b ← wrap "snapshot marshal" [] (encodeState (state f));
  _ ← wrap "snapshot write" [] (w b);
  Ok b.

(** [r] is what [io.ReadAll] returns. *)
Definition RecoverFromSnapshot (r : res payload) (f : schedulingFSM) : res schedulingFSM :=
  data ← wrap "fsm restore read snapshot" [] r;
  st ← (if payload_empty data then Ok empty_state
        else wrap "fsm restore unmarshal" [] (decodeState data));
  Ok (upd (λ _, st) f).

(** The state after a log. *)
Definition replay (f : schedulingFSM) (log : list payload) : schedulingFSM :=
  foldl (λ f d, applyCommandPayload d f) f log.
End fsm.

(** Map iteration: Go visits the entries in an unspecified order, so a listing is any
    enumeration of the values. *)
Definition enumerates {V} (m : gmap string V) (l : list V) : Prop := l ≡ₚ (map_to_list m).*2.
