(* ===== verification/FsmSpec.v ===== *)
(** * What the replicated state machine promises

    A log entry asks for at most one operation ([classify]); the state after a log is
    determined, key by key, by the operations of the log ([replay_refines]): the last writer
    wins in every map, a deletion clears an application together with its revisions, and the
    revision list of an application is the last ten entries of the history of the distinct
    generations that were replaced.  [fsm_inv] is the invariant of every reachable state. *)
From stdpp Require Import base strings numbers gmap list.
From Stdlib Require Import Ascii.
From S2P Require Import Prelude GoStrings GoTime Deploy Meta Placement Fsm.

Inductive op :=
| OpNode (id : string) (s : Snapshot)
| OpApp (key : string) (a : App)
| OpDelete (key : string)
| OpAssign (a : Assignment)
| OpBind (b : Binding).

(** The latest write of a log, for a selection of the operations that write. *)
Definition last_write {V} (sel : op → option (option V)) (ops : list op) : option V :=
  foldl (λ cur o, default cur (sel o)) None ops.

Definition sel_node (k : string) (o : op) : option (option Snapshot) :=
  if o is OpNode id s then if decide (id = k) then Some (Some s) else None else None.
Definition sel_app (k : string) (o : op) : option (option App) :=
  match o with
  | OpApp key a => if decide (key = k) then Some (Some a) else None
  | OpDelete key => if decide (key = k) then Some None else None
  | _ => None
  end.
Definition sel_assign (k : string) (o : op) : option (option Assignment) :=
  if o is OpAssign a then if decide (as_Key a = k) then Some (Some a) else None else None.
Definition sel_bind (k : string) (o : op) : option (option Binding) :=
  if o is OpBind b then if decide (bd_Key b = k) then Some (Some b) else None else None.

Section spec.
Context `{Digest, Codec}.
Implicit Types st : fsmSnapshotState.

Definition nonblank {A} (s : string) (v : A) : option A :=
  if (TrimSpace s =? "")%string then None else Some v.

(** The operation a payload asks for; [None] when it is ignored. *)
Definition classify (data : payload) : option op :=
  if payload_empty data then None else
  t ← decodeType data;
  if (t =? cmdUpsertNodeCapacity)%string then
    s ← decodeNode data; nonblank (sn_NodeID s) (OpNode (TrimSpace (sn_NodeID s)) s)
  else if (t =? cmdUpsertDeployApp)%string then
    a ← decodeApp data; nonblank (md_Name (app_Metadata a)) (OpApp (deployAppMapKey (app_Metadata a)) a)
  else if (t =? cmdDeleteDeployApp)%string then
    m ← decodeMeta data; nonblank (md_Name m) (OpDelete (deployAppMapKey m))
  else if (t =? cmdUpsertWorkloadAssignment)%string then
    a ← decodeAssignment data; OpAssign <$> normalizeAssignment a
  else if (t =? cmdUpsertVolumeBinding)%string then
    b ← decodeBinding data; OpBind <$> normalizeVolumeBinding b
  else None.

(** The state change of an operation. *)
Definition exec (o : option op) (st : fsmSnapshotState) : fsmSnapshotState :=
  match o with
  | None => st
  | Some (OpNode id s) => set_nodes (<[id := s]> (NodeCapacity st)) st
  | Some (OpApp key a) => upsert_app a st
  | Some (OpDelete key) =>
      set_revisions (delete key (DeployAppRevisions st)) (set_apps (delete key (DeployApps st)) st)
  | Some (OpAssign a) => set_assignments (<[as_Key a := a]> (Assignments st)) st
  | Some (OpBind b) => set_bindings (<[bd_Key b := b]> (VolumeBindings st)) st
  end.

Lemma state_notify f : state (notifyDeployChanged f) = state f.
Proof. unfold notifyDeployChanged. by destruct (notifyDeploy f). Qed.

Lemma apply_classify data f :
  state (applyCommandPayload data f) = exec (classify data) (bump (state f)).
Proof.
  unfold applyCommandPayload, classify. destruct (payload_empty data); [done|].
  unfold applyPayloadLocked. destruct (decodeType data) as [t|]; [|done]. cbn [option_bind mbind].
  repeat case_match; try done.
  - unfold applyNodeCapacity, nonblank. destruct (decodeNode data) as [s|]; [|done].
    cbn. by case_match.
  - unfold applyDeployApp, nonblank. destruct (decodeApp data) as [s|]; [|done].
    cbn. case_match; [done|]. by rewrite state_notify.
  - unfold applyDeleteDeployApp, nonblank. destruct (decodeMeta data) as [s|]; [|done].
    cbn. case_match; [done|]. by rewrite state_notify.
  - unfold applyWorkloadAssignment. destruct (decodeAssignment data) as [s|]; [|done].
    cbn. by destruct (normalizeAssignment s).
  - unfold applyVolumeBinding. destruct (decodeBinding data) as [s|]; [|done].
    cbn. by destruct (normalizeVolumeBinding s).
Qed.

(** What a classified operation is known to satisfy. *)
Definition op_ok (o : op) : Prop :=
  match o with
  | OpNode id s => id = TrimSpace (sn_NodeID s) ∧ id ≠ ""
  | OpApp key a => key = deployAppMapKey (app_Metadata a) ∧ TrimSpace (md_Name (app_Metadata a)) ≠ ""
  | OpDelete key => True
  | OpAssign a => as_Key a ≠ "" ∧ trimmed (as_Key a) ∧ md_Name (as_Metadata a) ≠ ""
                  ∧ trimmed (md_Name (as_Metadata a)) ∧ as_Workload a ≠ "" ∧ trimmed (as_Workload a)
                  ∧ trimmed (as_Status a) ∧ trimmed (as_Node a)
  | OpBind b => bd_Key b ≠ "" ∧ trimmed (bd_Key b) ∧ md_Name (bd_Metadata b) ≠ ""
                ∧ trimmed (md_Name (bd_Metadata b)) ∧ bd_Workload b ≠ "" ∧ trimmed (bd_Workload b)
                ∧ bd_Volume b ≠ "" ∧ trimmed (bd_Volume b) ∧ trimmed (bd_Node b)
  end.

Lemma normalizeAssignment_ok raw a : normalizeAssignment raw = Some a → op_ok (OpAssign a).
Proof.
  unfold normalizeAssignment. cbn. case_match eqn:Hn; [done|].
  apply orb_false_iff in Hn as [Hn Hw]. apply String.eqb_neq in Hn, Hw.
  intros Ha. case_match eqn:Hk; [done|]. apply String.eqb_neq in Hk. injection Ha as <-.
  destruct (TrimSpace (as_Key raw) =? "")%string; cbn in *;
    repeat split; auto with orch; try apply AssignmentKey_trimmed; apply TrimSpace_trimmed.
Qed.

Lemma normalizeVolumeBinding_ok raw b : normalizeVolumeBinding raw = Some b → op_ok (OpBind b).
Proof.
  unfold normalizeVolumeBinding. cbn. case_match eqn:Hn; [done|].
  apply orb_false_iff in Hn as [Hn Hv]. apply orb_false_iff in Hn as [Hn Hw].
  apply String.eqb_neq in Hn, Hw, Hv.
  intros Ha. case_match eqn:Hk; [done|]. apply String.eqb_neq in Hk. injection Ha as <-.
  destruct (TrimSpace (bd_Key raw) =? "")%string; cbn in *;
    repeat split; auto with orch; try apply BindingKey_trimmed; apply TrimSpace_trimmed.
Qed.

Lemma nonblank_some {A} s (v v' : A) : nonblank s v = Some v' → v = v' ∧ TrimSpace s ≠ "".
Proof. unfold nonblank. case_match eqn:E; [done|]. apply String.eqb_neq in E. naive_solver. Qed.

Lemma classify_ok data o : classify data = Some o → op_ok o.
Proof.
  unfold classify. destruct (payload_empty data); [done|].
  destruct (decodeType data) as [t|]; [|done]. cbn [option_bind mbind].
  repeat case_match; try done; intros Ho;
    apply bind_Some in Ho as (x & Hx & Ho);
    first [apply nonblank_some in Ho as [<- ?] | apply fmap_Some in Ho as (y & Hy & ->)];
    eauto using normalizeAssignment_ok, normalizeVolumeBinding_ok; done.
Qed.

(** ** Reachable states *)
Definition ops_of (log : list payload) : list op := omap classify log.

Definition to_rev (a : App) : DeployAppRevision := mkRevision (AppGeneration a) a.

(** The unbounded history of a key: the applications that were replaced by one of another
    generation since the key was last deleted (oldest first), and the current one. *)
Definition history_step (k : string) (h : list App * option App) (o : op) : list App * option App :=
  match o with
  | OpApp key a =>
      if decide (key = k) then
        match h.2 with
        | Some c => if decide (AppGeneration c = AppGeneration a) then (h.1, Some a) else (h.1 ++ [c], Some a)
        | None => (h.1, Some a)
        end
      else h
  | OpDelete key => if decide (key = k) then ([], None) else h
  | _ => h
  end.
Definition history (k : string) (ops : list op) : list App * option App :=
  foldl (history_step k) ([], None) ops.

Definition app_of_op (o : op) : option App := if o is OpApp _ a then Some a else None.
(** Every submitted application has a digest ([json.Marshal] succeeds on it). *)
Definition digestible (ops : list op) : Prop := Forall (λ a, AppGeneration a ≠ "") (omap app_of_op ops).

Lemma replay_snoc f log d : replay f (log ++ [d]) = applyCommandPayload d (replay f log).
Proof. unfold replay. by rewrite foldl_app. Qed.

Lemma replay_app f log log' : replay f (log ++ log') = replay (replay f log) log'.
Proof. unfold replay. by rewrite foldl_app. Qed.

Lemma ops_of_snoc log d :
  ops_of (log ++ [d]) = ops_of log ++ (if classify d is Some o then [o] else []).
Proof. unfold ops_of. rewrite omap_app. cbn. by destruct (classify d). Qed.

(** Induction on a log from its end, over the operations it asks for. *)
Lemma replay_ind (P : list op → fsmSnapshotState → Prop) f log :
  P [] (state f) →
  (∀ ops st, P ops st → P ops (bump st)) →
  (∀ ops st o, op_ok o → P ops st → P (ops ++ [o]) (exec (Some o) st)) →
  P (ops_of log) (state (replay f log)).
Proof.
  intros Hi Hb He. induction log as [|d log IH] using rev_ind; [done|].
  rewrite replay_snoc, apply_classify, ops_of_snoc.
  destruct (classify d) as [o|] eqn:Ho.
  - eauto using classify_ok.
  - rewrite app_nil_r. cbn [exec]. eauto.
Qed.

Lemma last_write_snoc {V} (sel : op → option (option V)) ops o :
  last_write sel (ops ++ [o]) = default (last_write sel ops) (sel o).
Proof. unfold last_write. by rewrite foldl_app. Qed.

Lemma history_snoc k ops o : history k (ops ++ [o]) = history_step k (history k ops) o.
Proof. unfold history. by rewrite foldl_app. Qed.

Lemma apps_append key a st : DeployApps (appendDeployAppRevisionLocked key a st) = DeployApps st.
Proof. unfold appendDeployAppRevisionLocked. by repeat case_match. Qed.

Lemma upsert_app_apps a st :
  DeployApps (upsert_app a st) = <[deployAppMapKey (app_Metadata a) := a]> (DeployApps st).
Proof. unfold upsert_app. repeat case_match; cbn; by rewrite ?apps_append. Qed.

(** An upsert touches no other map than the applications and their revisions. *)
Lemma upsert_app_frame a st :
  NodeCapacity (upsert_app a st) = NodeCapacity st ∧
  Assignments (upsert_app a st) = Assignments st ∧
  VolumeBindings (upsert_app a st) = VolumeBindings st ∧
  AppliedCommands (upsert_app a st) = AppliedCommands st.
Proof. unfold upsert_app, appendDeployAppRevisionLocked. by repeat case_match. Qed.

Ltac lookup_cases :=
  repeat match goal with
  | |- context [decide (?a = ?b)] => destruct (decide (a = b)); simplify_map_eq
  | |- context [<[?a:=_]> _ !! ?b] => destruct (decide (a = b)); simplify_map_eq
  end.

Lemma replay_last_write log k :
  let st := state (replay initial log) in
  NodeCapacity st !! k = last_write (sel_node k) (ops_of log) ∧
  DeployApps st !! k = last_write (sel_app k) (ops_of log) ∧
  Assignments st !! k = last_write (sel_assign k) (ops_of log) ∧
  VolumeBindings st !! k = last_write (sel_bind k) (ops_of log).
Proof.
  intros st. subst st.
  apply (replay_ind (λ ops st,
    NodeCapacity st !! k = last_write (sel_node k) ops ∧
    DeployApps st !! k = last_write (sel_app k) ops ∧
    Assignments st !! k = last_write (sel_assign k) ops ∧
    VolumeBindings st !! k = last_write (sel_bind k) ops)); [done|done|].
  intros ops st o Hok (Hn & Ha & Hs & Hb). rewrite !last_write_snoc.
  destruct o as [id s|key a|key|a|b]; cbn [exec sel_node sel_app sel_assign sel_bind default].
  2: { pose proof (upsert_app_frame a st) as (-> & -> & -> & _). rewrite upsert_app_apps.
       destruct Hok as [-> _]. repeat split; try done. lookup_cases; done. }
  all: cbn; repeat split; try done; lookup_cases; try done.
Qed.

(** ** Revisions *)
Lemma push_revision_lastn n revs a : push_revision n revs a = lastn n (revs ++ [to_rev a]).
Proof.
  unfold push_revision, lastn. fold (to_rev a).
  destruct (Nat.ltb_spec n (length (revs ++ [to_rev a]))); [done|].
  by replace (length (revs ++ [to_rev a]) - n) with 0 by lia.
Qed.

Lemma append_revisions key a st :
  AppGeneration a ≠ "" →
  (∀ r, last (revisions_of key st) = Some r → rev_Generation r ≠ AppGeneration a) →
  DeployAppRevisions (appendDeployAppRevisionLocked key a st) =
    <[key := lastn maxDeployAppRevisions (revisions_of key st ++ [to_rev a])]> (DeployAppRevisions st).
Proof.
  intros Hg Hl. unfold appendDeployAppRevisionLocked.
  rewrite (AppGeneration_trimmed a), (proj2 (String.eqb_neq _ _) Hg).
  destruct (last (revisions_of key st)) as [r|] eqn:Hr.
  - specialize (Hl r eq_refl). rewrite (proj2 (String.eqb_neq _ _) Hl).
    by rewrite push_revision_lastn.
  - by rewrite push_revision_lastn.
Qed.

(** What relates the concrete revisions of a key to its unbounded history. *)
Definition history_rel (k : string) (st : fsmSnapshotState) (h : list App * option App) : Prop :=
  DeployApps st !! k = h.2 ∧
  revisions_of k st = lastn maxDeployAppRevisions (to_rev <$> h.1) ∧
  (h.2 = None → h.1 = []) ∧
  (∀ c p, h.2 = Some c → last h.1 = Some p → AppGeneration p ≠ AppGeneration c) ∧
  (∀ c, h.2 = Some c → AppGeneration c ≠ "").

Lemma last_revision h k st r :
  history_rel k st h → last (revisions_of k st) = Some r →
  ∃ p, last h.1 = Some p ∧ r = to_rev p.
Proof.
  intros (_ & -> & _) Hl. rewrite last_lastn in Hl by (unfold maxDeployAppRevisions; lia).
  rewrite fmap_last in Hl. apply fmap_Some in Hl as (p & ? & ->). eauto.
Qed.

Lemma revisions_of_ne k k' a st :
  k ≠ k' → revisions_of k' (appendDeployAppRevisionLocked k a st) = revisions_of k' st.
Proof.
  intros Hne. unfold appendDeployAppRevisionLocked, revisions_of. repeat case_match; try done.
  all: cbn; by rewrite lookup_insert_ne.
Qed.

Lemma upsert_app_other k a st :
  deployAppMapKey (app_Metadata a) ≠ k → revisions_of k (upsert_app a st) = revisions_of k st.
Proof.
  intros Hne. unfold upsert_app. repeat case_match; try done.
  by apply revisions_of_ne.
Qed.

Lemma history_upsert k a st h :
  deployAppMapKey (app_Metadata a) = k → AppGeneration a ≠ "" → history_rel k st h →
  history_rel k (upsert_app a st) (history_step k h (OpApp k a)).
Proof.
  intros Hk Hg Hrel. pose proof Hrel as (Hcur & Hrev & Hnone & Hdiff & Hdig).
  cbn [history_step]. rewrite decide_True by done. unfold history_rel.
  rewrite upsert_app_apps, Hk, lookup_insert_eq. unfold upsert_app. rewrite Hk, Hcur.
  destruct h as [sup [c|]]; cbn [fst snd] in *.
  - destruct (String.eqb_spec (AppGeneration c) (AppGeneration a)) as [He|Hne].
    + rewrite decide_True by done. split_and!; try done; cbn; intros; simplify_eq; [|done].
      rewrite <-He. by apply Hdiff.
    + rewrite decide_False by done. unfold revisions_of at 1. cbn [set_apps DeployAppRevisions fst snd].
      rewrite append_revisions; [| by apply Hdig |].
      * rewrite lookup_insert_eq. cbn [default]. rewrite Hrev, lastn_snoc_lastn, fmap_app.
        split_and!; try done; [|intros; by simplify_eq].
        intros c' p ? Hp. rewrite last_snoc in Hp. by simplify_eq.
      * intros r Hr. destruct (last_revision _ _ _ _ Hrel Hr) as (p & Hp & ->). cbn. by apply Hdiff.
  - rewrite (Hnone eq_refl) in *. split_and!; cbn in *; try done. intros; by simplify_eq.
Qed.

Lemma digestible_snoc ops o :
  digestible (ops ++ [o]) ↔ digestible ops ∧ ∀ a, app_of_op o = Some a → AppGeneration a ≠ "".
Proof.
  unfold digestible. rewrite omap_app, Forall_app. cbn.
  destruct (app_of_op o); rewrite ?Forall_singleton; naive_solver.
Qed.

Lemma replay_history log k :
  digestible (ops_of log) → history_rel k (state (replay initial log)) (history k (ops_of log)).
Proof.
  apply (replay_ind (λ ops st, digestible ops → history_rel k st (history k ops))).
  - intros _. split_and!; done.
  - intros ops st IH. exact IH.
  - intros ops st o Hok IH [Hd Ho]%digestible_snoc. specialize (IH Hd). rewrite history_snoc.
    destruct o as [id s|key a|key|a|b]; try exact IH.
    + destruct Hok as [-> _]. destruct (decide (deployAppMapKey (app_Metadata a) = k)) as [<-|Hne].
      * apply history_upsert; auto.
      * cbn [history_step exec]. rewrite decide_False by done. unfold history_rel.
        by rewrite upsert_app_apps, lookup_insert_ne, upsert_app_other.
    + cbn [history_step exec]. case_decide as Hk.
      * subst. unfold history_rel, revisions_of. cbn. rewrite !lookup_delete_eq. split_and!; done.
      * unfold history_rel, revisions_of. cbn. by rewrite !lookup_delete_ne.
Qed.

(** ** The invariant of every reachable state *)
Definition rev_ok (k : string) (r : DeployAppRevision) : Prop :=
  rev_Generation r = AppGeneration (rev_App r) ∧ rev_Generation r ≠ "" ∧
  deployAppMapKey (app_Metadata (rev_App r)) = k.

Definition adjacent_differ (revs : list DeployAppRevision) : Prop :=
  ∀ i r r', revs !! i = Some r → revs !! S i = Some r' → rev_Generation r ≠ rev_Generation r'.

Definition revisions_ok (k : string) (revs : list DeployAppRevision) : Prop :=
  1 ≤ length revs ≤ maxDeployAppRevisions ∧ Forall (rev_ok k) revs ∧ adjacent_differ revs.

Record fsm_inv (st : fsmSnapshotState) : Prop := {
  inv_count : (0 ≤ AppliedCommands st ≤ max_uint64)%Z;
  inv_nodes : map_Forall (λ k s, op_ok (OpNode k s)) (NodeCapacity st);
  inv_apps : map_Forall (λ k a, op_ok (OpApp k a)) (DeployApps st);
  inv_revs_dom : dom (DeployAppRevisions st) ⊆ dom (DeployApps st);
  inv_revs : map_Forall revisions_ok (DeployAppRevisions st);
  inv_assign : map_Forall (λ k a, as_Key a = k ∧ op_ok (OpAssign a)) (Assignments st);
  inv_bind : map_Forall (λ k b, bd_Key b = k ∧ op_ok (OpBind b)) (VolumeBindings st) }.

Lemma adjacent_differ_snoc revs r :
  adjacent_differ revs → (∀ r', last revs = Some r' → rev_Generation r' ≠ rev_Generation r) →
  adjacent_differ (revs ++ [r]).
Proof.
  intros Ha Hl i r1 r2 H1 H2. apply lookup_app_Some in H2 as [H2|[Hlen H2]].
  - rewrite lookup_app_l in H1 by (apply lookup_lt_Some in H2; lia). eauto.
  - apply list_lookup_singleton_Some in H2 as [Hz <-].
    rewrite lookup_app_l in H1 by lia. apply Hl. rewrite last_lookup.
    by replace (pred (length revs)) with i by lia.
Qed.

Lemma adjacent_differ_drop n revs : adjacent_differ revs → adjacent_differ (drop n revs).
Proof.
  intros Ha i r r'. rewrite !lookup_drop. intros H1 H2. apply (Ha (n + i)); [done|].
  by rewrite <-Nat.add_succ_r.
Qed.

Lemma revisions_of_ok st key :
  fsm_inv st → revisions_of key st = [] ∨ revisions_ok key (revisions_of key st).
Proof.
  intros Hi. unfold revisions_of. destruct (DeployAppRevisions st !! key) as [revs|] eqn:E; [|by left].
  right. exact (inv_revs _ Hi _ _ E).
Qed.

Lemma append_inv key a st :
  fsm_inv st → DeployApps st !! key = Some a → fsm_inv (appendDeployAppRevisionLocked key a st).
Proof.
  intros Hi Ha. unfold appendDeployAppRevisionLocked.
  case_match eqn:Hb; [done|]. case_match eqn:Hl; [done|].
  rewrite AppGeneration_trimmed in Hb. apply String.eqb_neq in Hb.
  destruct (inv_apps _ Hi _ _ Ha) as [Hk _].
  pose proof (revisions_of_ok st key Hi) as Hr. destruct Hi as [Hc Hn Hp Hd Hv Hs Hbd].
  split; try done; cbn.
  - rewrite dom_insert_L. apply elem_of_dom_2 in Ha. set_solver.
  - apply map_Forall_insert_2; [|done]. rewrite push_revision_lastn. split_and!.
    + rewrite length_lastn, length_app. cbn [length]. unfold maxDeployAppRevisions. lia.
    + rewrite length_lastn. lia.
    + apply Forall_drop, Forall_app. split; [destruct Hr as [->|(_ & ? & _)]; done|].
      apply Forall_singleton. by repeat split.
    + apply adjacent_differ_drop, adjacent_differ_snoc.
      * destruct Hr as [->|(_ & _ & ?)]; [|done]. intros i r r' Hx. by rewrite lookup_nil in Hx.
      * intros r' Hr'. rewrite Hr' in Hl. by apply String.eqb_neq in Hl.
Qed.

Lemma exec_inv o st : op_ok o → fsm_inv st → fsm_inv (exec (Some o) st).
Proof.
  intros Ho Hi. destruct o as [id s|key a|key|a|b]; cbn [exec].
  2: { destruct Ho as [-> Hn]. unfold upsert_app.
    set (key := deployAppMapKey (app_Metadata a)).
    assert (Hst : ∀ st', fsm_inv st' → fsm_inv (set_apps (<[key := a]> (DeployApps st')) st')).
    { intros st' [Hc Hno Hp Hd Hv Hs Hbd]. split; try done; cbn.
      - by apply map_Forall_insert_2.
      - rewrite dom_insert_L. set_solver. }
    apply Hst. repeat case_match; auto using append_inv. }
  all: destruct Hi as [Hc Hno Hp Hd Hv Hs Hbd]; split; try done; cbn.
  - by apply map_Forall_insert_2.
  - by apply map_Forall_delete.
  - rewrite !dom_delete_L. set_solver.
  - by apply map_Forall_delete.
  - by apply map_Forall_insert_2.
  - by apply map_Forall_insert_2.
Qed.

Lemma bump_inv st : fsm_inv st → fsm_inv (bump st).
Proof.
  intros [Hc Hno Hp Hd Hv Hs Hbd]. split; try done; cbn.
  unfold wrap_uint64, max_uint64. pose proof (Z.mod_pos_bound (AppliedCommands st + 1) (2 ^ 64)). lia.
Qed.

Lemma empty_inv : fsm_inv empty_state.
Proof.
  split; cbn [empty_state AppliedCommands NodeCapacity DeployApps DeployAppRevisions Assignments VolumeBindings].
  1: unfold max_uint64; lia.
  3: done.
  all: apply map_Forall_empty.
Qed.

Lemma apply_inv d f : fsm_inv (state f) → fsm_inv (state (applyCommandPayload d f)).
Proof.
  intros Hi. rewrite apply_classify. destruct (classify d) as [o|] eqn:Ho.
  - eauto using exec_inv, classify_ok, bump_inv.
  - by apply bump_inv.
Qed.

Lemma replay_inv f log : fsm_inv (state f) → fsm_inv (state (replay f log)).
Proof.
  intros Hi. apply (replay_ind (λ _ st, fsm_inv st)); eauto using bump_inv, exec_inv.
Qed.

Lemma exec_count o st : AppliedCommands (exec o st) = AppliedCommands st.
Proof. destruct o as [[id s|key a|key|a|b]|]; cbn [exec]; try done. apply upsert_app_frame. Qed.

Lemma replay_count log :
  AppliedCommands (state (replay initial log)) = wrap_uint64 (Z.of_nat (length log)).
Proof.
  induction log as [|d log IH] using rev_ind; [done|].
  rewrite replay_snoc, apply_classify, exec_count, length_app. cbn [bump AppliedCommands length].
  rewrite IH. unfold wrap_uint64. rewrite Zplus_mod_idemp_l. f_equal. lia.
Qed.
End spec.

#[export] Hint Resolve empty_inv apply_inv replay_inv : orch.
