(* ===== verification/RaftService.v ===== *)
(** * The Raft service (internal/raftsvc: service.go, apply_app.go, assignment.go, volume.go,
      capacity_store.go, bootstrap_peers.go, member_identity.go, peer_address.go, membership.go)

    The service owns the state machine of [Fsm] and the Dragonboat NodeHost.  The NodeHost is
    third-party: what it answers is an argument of the operations ([NodeHost]), with what its
    documentation promises of a proposal as [propose_ok]. *)
From stdpp Require Import base strings numbers gmap list.
From Stdlib Require Import Ascii.
From S2P Require Import Prelude GoStrings GoTime GoNet GoList Deploy Meta Placement Fsm.

(** ** Replica identity (peer_address.go) *)

(** FNV-1a, 64 bit ([hash/fnv]). *)
Definition fnv_offset : Z := 14695981039346656037.
Definition fnv_prime : Z := 1099511628211.
Definition fnv64a (l : list ascii) : Z :=
  foldl (λ h b, wrap_uint64 (Z.lxor h (Z.of_N (byte_val b)) * fnv_prime)) fnv_offset l.

Definition replicaIDForNodeID (raw : string) : res Z :=
  let id := TrimSpace raw in
  if (id =? "")%string then Err (Errorf "raft node id is required" [])
  else let replicaID := fnv64a (bytes_of id) in
       Ok (if (replicaID =? 0)%Z then 1%Z else replicaID).

Definition validateRaftPeerAddress (label raw : string) : res string :=
  let addr := TrimSpace raw in
  if (addr =? "")%string then Err (Errorf "%s is required" [AStr label])
  else
    '(host, port) ← wrap "%s must be host:port: %w" [AStr label] (SplitHostPort addr);
    if (TrimSpace host =? "")%string then Err (Errorf "%s must include a host" [AStr label])
    else if (TrimSpace port =? "")%string then Err (Errorf "%s must include a port" [AStr label])
    else Ok addr.

(** [strings.Trim(host, "[]")] *)
Definition trim_brackets (s : string) : string :=
  let inside := λ a, bool_decide (a ∈ ["["; "]"]%char) in
  let drop_while := fix go l := match l with a :: r => if inside a then go r else l | [] => [] end in
  of_bytes (reverse (drop_while (reverse (drop_while (bytes_of s))))).

Definition validateConcreteRaftAddress (label raw : string) : res string :=
  addr ← wrap "validate raft peer address" [] (validateRaftPeerAddress label raw);
  '(host, _) ← wrap "parse raft address" [] (SplitHostPort addr);
  if (if ParseIP (trim_brackets host) is Some ip then IsUnspecified ip else false)
  then Err (Errorf "%s must be a concrete host:port, got %q" [AStr label; AStr raw])
  else Ok addr.

(** ** The service's state *)
Record Service := mkService {
  sv_localID : string;
  sv_nh : bool;  (** the NodeHost is open *)
  sv_fsm : schedulingFSM;
  sv_localReplicaID : Z;
  sv_localAddress : string;
  sv_replicaToNode : gmap Z string;
  sv_addressToNode : gmap string string }.

Definition New (local : string) : Service :=
  mkService local false (setNotifyDeploy initial) 0 "" ∅ ∅.

Definition on_fsm (g : schedulingFSM → schedulingFSM) (s : Service) : Service :=
  mkService (sv_localID s) (sv_nh s) (g (sv_fsm s)) (sv_localReplicaID s) (sv_localAddress s)
    (sv_replicaToNode s) (sv_addressToNode s).
Definition set_members (r : gmap Z string) (a : gmap string string) (s : Service) : Service :=
  mkService (sv_localID s) (sv_nh s) (sv_fsm s) (sv_localReplicaID s) (sv_localAddress s) r a.

(** *** Member identity (member_identity.go) *)
Definition rememberMember (rawID : string) (replicaID : Z) (rawAddress : string) (s : Service) : Service :=
  let id := TrimSpace rawID in
  let address := TrimSpace rawAddress in
  if (id =? "")%string || (replicaID =? 0)%Z then s
  else set_members (<[replicaID := id]> (sv_replicaToNode s))
         (if (address =? "")%string then sv_addressToNode s
          else <[address := id]> (sv_addressToNode s)) s.

Definition forgetMember (replicaID : Z) (s : Service) : Service :=
  set_members (delete replicaID (sv_replicaToNode s)) (sv_addressToNode s) s.

Definition named (o : option string) : option string :=
  id ← o; if (TrimSpace id =? "")%string then None else Some id.

Definition nodeIDForMember (replicaID : Z) (address : string) (s : Service) : string :=
  match named (sv_replicaToNode s !! replicaID) with
  | Some id => id
  | None =>
      match named (sv_addressToNode s !! TrimSpace address) with
      | Some id => id
      | None => "replica-" +:+ Itoa replicaID
      end
  end.

(** *** Bootstrap (bootstrap_peers.go) *)

(** [peers] is the order in which Go happens to iterate the configured map. *)
Definition bootstrapPeers (peers : list (string * string)) (localID localAddr : string)
    : res (gmap string string) :=
  m ← range_fold (λ _ (acc : gmap string string) '(rawID, rawAddr),
        let id := TrimSpace rawID in
        if (id =? "")%string then Ok acc
        else addr ← wrap "validate raft peer" [] (validateRaftPeerAddress ("raft.peers." +:+ id) rawAddr);
             Ok (<[id := addr]> acc)) ∅ peers;
  Ok (<[localID := localAddr]> m).

Definition checkReplicaIDCollision (seenIDs : gmap Z string) (replicaID : Z) (id : string) : res unit :=
  match seenIDs !! replicaID with
  | Some prev =>
      guard_err (negb (prev =? id)%string)
        (Errorf "raft node ids %q and %q resolve to the same dragonboat replica id %d"
           [AStr prev; AStr id; AInt replicaID])
  | None => Ok tt
  end.

Section bootstrap.
Context `{ListSort}.

Definition sortedPeerIDs (peers : gmap string string) : list string :=
  list_sort Compare (map_to_list peers).*1.

(** One turn of the loop: the targets, the ids seen, and the service whose member tables
    are being filled. *)
Definition add_target (peers : gmap string string) (acc : gmap Z string * gmap Z string * Service)
    (id : string) : res (gmap Z string * gmap Z string * Service) :=
  let '(targets, seen, s) := acc in
  replicaID ← replicaIDForNodeID id;
  _ ← checkReplicaIDCollision seen replicaID id;
  let addr := default "" (peers !! id) in
  Ok (<[replicaID := addr]> targets, <[replicaID := id]> seen, rememberMember id replicaID addr s).

Definition replicaTargetsFromPeers (peers : gmap string string) (s : Service)
    : res (gmap Z string * Service) :=
  '(targets, _, s') ← range_fold (λ _ acc id, add_target peers acc id) (∅, ∅, s) (sortedPeerIDs peers);
  Ok (targets, s').

Definition ensureLocalReplicaTarget (localReplicaID : Z) (localAddr : string) (targets : gmap Z string)
    : gmap Z string :=
  if targets !! localReplicaID is Some _ then targets else <[localReplicaID := localAddr]> targets.

Definition bootstrapReplicaTargets (cfgPeers : list (string * string)) (localReplicaID : Z)
    (localAddr : string) (s : Service) : res (gmap Z string * Service) :=
  let localID := TrimSpace (sv_localID s) in
  if (localID =? "")%string then Err (Errorf "raft local id is required" [])
  else
    peers ← bootstrapPeers cfgPeers localID localAddr;
    '(targets, s') ← replicaTargetsFromPeers peers s;
    Ok (ensureLocalReplicaTarget localReplicaID localAddr targets,
        rememberMember localID localReplicaID localAddr s').
End bootstrap.

(** ** Proposals *)
Section service.
Context `{Digest, Codec}.

(** What one [SyncPropose] did: the entries of other proposals that were applied before it
    returned, whether the entry itself was applied by then, and the error returned. *)
Record Proposal := mkProposal { pr_others : list payload; pr_applied : bool; pr_result : res unit }.

(** The NodeHost's answers to the calls one operation makes: [GetLeaderID] (asked twice when
    a command is refused), the proposal, and the membership requests. *)
Record NodeHost := mkNodeHost {
  GetLeaderID : res (Z * bool);
  GetLeaderID' : res (Z * bool);
  SyncPropose : payload → Proposal;
  SyncRequestAddReplica : Z → string → res unit;
  SyncRequestDeleteReplica : Z → res unit }.

(** Documented: [SyncPropose] returns without error only once the entry was applied by the
    local state machine. *)
Definition propose_ok (nh : NodeHost) : Prop :=
  ∀ data, pr_result (SyncPropose nh data) = Ok tt → pr_applied (SyncPropose nh data) = true.

Definition isLocalLeader (nh : NodeHost) (s : Service) : bool :=
  if negb (sv_nh s) || (sv_localReplicaID s =? 0)%Z then false
  else match GetLeaderID nh with
       | Ok (leaderID, ready) => ready && (leaderID =? sv_localReplicaID s)%Z
       | Err _ => false
       end.

Definition notLeaderError (nh : NodeHost) (rawMessage : string) (s : Service) : error :=
  let message := CoalesceOrEmpty [TrimSpace rawMessage; "raft local node is not leader"] in
  if negb (sv_nh s) then Errorf "%s: raft is not ready" [AStr message]
  else match GetLeaderID' nh with
       | Err e => Wrapf e "%s: read raft leader" [AStr message]
       | Ok (leaderID, ready) =>
           if negb ready || (leaderID =? 0)%Z
           then Errorf "%s: raft leader is not ready" [AStr message]
           else Errorf "%s: local node is follower, leader=%s"
                  [AStr message; AStr (nodeIDForMember leaderID "" s)]
       end.

Definition applyCommand (nh : NodeHost) (data : payload) (notLeaderMessage : string) (s : Service)
    : res unit * Service :=
  if negb (sv_nh s) then (Ok tt, on_fsm (applyCommandPayload data) s)
  else if negb (isLocalLeader nh s) then (Err (notLeaderError nh notLeaderMessage s), s)
  else
    let p := SyncPropose nh data in
    (wrap "dragonboat propose" [] (pr_result p),
     on_fsm (λ f, replay f (pr_others p ++ (if pr_applied p then [data] else []))) s).

(** Marshal, then propose. *)
Definition propose (nh : NodeHost) (c : command) (marshalErr notLeaderMessage : string) (s : Service)
    : res unit * Service :=
  match encode c with
  | Err e => (Err (Wrapf e marshalErr []), s)
  | Ok data => applyCommand nh data notLeaderMessage s
  end.

Definition ApplyDeployApp (nh : NodeHost) (app : App) (s : Service) : res unit * Service :=
  propose nh (CUpsertApp app) "marshal deploy app command"
    "not leader: send deploy to the raft leader node" s.

Definition ApplyDeleteDeployApp (nh : NodeHost) (meta : Metadata) (s : Service) : res unit * Service :=
  if (md_Name meta =? "")%string then (Err (Errorf "metadata.name is required" []), s)
  else propose nh (CDeleteApp meta) "marshal delete deploy app command"
         "not leader: send delete to the raft leader node" s.

Definition set_as_updated (now : Z) (a : Assignment) : Assignment :=
  mkAssignment (as_Key a) (as_Metadata a) (as_Workload a) (as_Node a) (as_Address a) (as_Runtime a)
    (as_Artifact a) (as_Status a) (as_Generation a) (as_Error a) now.
Definition set_bd_updated (now : Z) (b : Binding) : Binding :=
  mkBinding (bd_Key b) (bd_Metadata b) (bd_Volume b) (bd_Workload b) (bd_Target b) (bd_Node b)
    (bd_Runtime b) (bd_Source b) (bd_Persistent b) (bd_SizeBytes b) (bd_Status b)
    (bd_Generation b) (bd_Error b) now.

(** The assignment that is proposed; [now] is the clock. *)
Definition prepareAssignment (now : Z) (raw : Assignment) : res Assignment :=
  let a := trim_assignment raw in
  if (md_Name (as_Metadata a) =? "")%string then Err (Errorf "assignment metadata.name is required" [])
  else if (as_Workload a =? "")%string then Err (Errorf "assignment workload is required" [])
  else
    let a := if (as_Key a =? "")%string
             then set_as_key (AssignmentKey (as_Metadata a) (as_Workload a)) a else a in
    if (as_Key a =? "")%string then Err (Errorf "assignment key is required" [])
    else Ok (if (as_UpdatedAt a =? 0)%Z then set_as_updated now a else a).

Definition ApplyWorkloadAssignment (nh : NodeHost) (now : Z) (raw : Assignment) (s : Service)
    : res unit * Service :=
  match prepareAssignment now raw with
  | Err e => (Err e, s)
  | Ok a => propose nh (CUpsertAssignment a) "marshal workload assignment command"
              "not leader: send workload assignment to the raft leader node" s
  end.

Definition prepareBinding (now : Z) (raw : Binding) : res Binding :=
  let b := trim_binding raw in
  if (md_Name (bd_Metadata b) =? "")%string then Err (Errorf "volume binding metadata.name is required" [])
  else if (bd_Workload b =? "")%string then Err (Errorf "volume binding workload is required" [])
  else if (bd_Volume b =? "")%string then Err (Errorf "volume binding volume is required" [])
  else
    let b := if (bd_Key b =? "")%string
             then set_bd_key (BindingKey (bd_Metadata b) (bd_Workload b) (bd_Volume b)) b else b in
    if (bd_Key b =? "")%string then Err (Errorf "volume binding key is required" [])
    else Ok (if (bd_UpdatedAt b =? 0)%Z then set_bd_updated now b else b).

Definition ApplyVolumeBinding (nh : NodeHost) (now : Z) (raw : Binding) (s : Service)
    : res unit * Service :=
  match prepareBinding now raw with
  | Err e => (Err e, s)
  | Ok b => propose nh (CUpsertBinding b) "marshal volume binding command"
              "not leader: send volume binding to the raft leader node" s
  end.

(** *** The capacity store (capacity_store.go) *)
Definition store_Upsert (nh : NodeHost) (snap : Snapshot) (s : Service) : res unit * Service :=
  match encode (CUpsertNode snap) with
  | Err e => (Err (Wrapf e "encode node capacity" []), s)
  | Ok data =>
      if negb (sv_nh s) then (Ok tt, on_fsm (applyCommandPayload data) s)
      else if negb (isLocalLeader nh s) then (Ok tt, s)
      else let '(r, s') := applyCommand nh data "not leader: send node capacity to the raft leader node" s in
           (wrap "apply node capacity" [] r, s')
  end.

(** The store's read side, over the state machine of a service. *)
Definition raftCapacityStore `{ListSort} (f : schedulingFSM) : SnapshotStore :=
  mkStore (λ nodeID, getNodeCapacity (TrimSpace nodeID) f)
    (list_sort Compare (map_to_list (NodeCapacity (state f))).*1)
    (lenNodeCapacity f).

(** *** Listings: [entries] is what the map iteration produced. *)
Definition ListWorkloadAssignments `{ListSort} (entries : list Assignment) : list Assignment :=
  list_sort (by_key as_Key) entries.
Definition ListVolumeBindings `{ListSort} (entries : list Binding) : list Binding :=
  list_sort (by_key bd_Key) entries.

(** *** Membership (membership.go) *)
Definition ensureMembershipLeader (nh : NodeHost) (s : Service) : res unit :=
  if negb (sv_nh s) then Err (Errorf "raft is not ready" [])
  else guard_err (negb (isLocalLeader nh s))
         (Errorf "not leader: send raft membership operation to the raft leader node" []).

(** [ctxErr] is [ctx.Err()]. *)
Definition AddVoter (nh : NodeHost) (ctxErr : res unit) (rawID address : string) (s : Service)
    : res unit * Service :=
  let id := TrimSpace rawID in
  match
    _ ← wrap "add voter context" [] ctxErr;
    _ ← ensureMembershipLeader nh s;
    if (id =? "")%string then Err (Errorf "member id is required" [])
    else
      addr ← wrap "validate member address" [] (validateRaftPeerAddress "member.address" address);
      replicaID ← replicaIDForNodeID id;
      _ ← wrap "add voter %q" [AStr id] (SyncRequestAddReplica nh replicaID addr);
      Ok (replicaID, addr)
  with
  | Err e => (Err e, s)
  | Ok (replicaID, addr) => (Ok tt, rememberMember id replicaID addr s)
  end.

Definition RemoveServer (nh : NodeHost) (ctxErr : res unit) (rawID : string) (s : Service)
    : res unit * Service :=
  let id := TrimSpace rawID in
  match
    _ ← wrap "remove server context" [] ctxErr;
    _ ← ensureMembershipLeader nh s;
    if (id =? "")%string then Err (Errorf "member id is required" [])
    else
      replicaID ← replicaIDForNodeID id;
      _ ← wrap "remove server %q" [AStr id] (SyncRequestDeleteReplica nh replicaID);
      Ok replicaID
  with
  | Err e => (Err e, s)
  | Ok replicaID => (Ok tt, forgetMember replicaID s)
  end.

(** scheduler_leadership.go *)
Definition SchedulerLeadership (nh : NodeHost) (ctxErr : res unit) (s : Service) : res unit :=
  _ ← wrap "scheduler leadership context" [] ctxErr;
  if negb (sv_nh s) then Err (Errorf "orch raft: not ready" [])
  else guard_err (negb (isLocalLeader nh s)) (Errorf "orch raft: not leader" []).
End service.
