(* ===== verification/RaftSpec.v ===== *)
(** * What the Raft service promises to its clients

    A successful write is visible in the local state machine, a refused one changed nothing,
    every operation only appends to the replicated log (so the invariant of the state machine
    survives), listings do not depend on map iteration order, the capacity store meets the
    contract placement relies on, and bootstrap gives distinct members distinct replica ids. *)
From stdpp Require Import base strings numbers gmap list.
From Stdlib Require Import Ascii.
From S2P Require Import Prelude GoStrings GoTime GoNet GoList Deploy Meta Placement Fsm FsmSpec RaftService.

Lemma fnv64a_range l : (0 ≤ fnv64a l < 2 ^ 64)%Z.
Proof.
  unfold fnv64a. induction l as [|b l _] using rev_ind; [unfold fnv_offset; cbn; lia|].
  rewrite foldl_app. cbn [foldl]. unfold wrap_uint64. apply Z.mod_pos_bound. lia.
Qed.

Lemma replicaID_range id rid : replicaIDForNodeID id = Ok rid → (1 ≤ rid < 2 ^ 64)%Z.
Proof.
  unfold replicaIDForNodeID. case_match; [done|]. intros [= <-].
  pose proof (fnv64a_range (bytes_of (TrimSpace id))). case_match eqn:E; [lia|].
  apply Z.eqb_neq in E. lia.
Qed.

Lemma replicaID_ok id : TrimSpace id ≠ "" → ∃ rid, replicaIDForNodeID id = Ok rid.
Proof. intros Hn. unfold replicaIDForNodeID. rewrite (proj2 (String.eqb_neq _ _) Hn). eauto. Qed.

(** ** Writes *)
Section writes.
Context `{Digest, CodecLaws}.
Implicit Types (s : Service) (nh : NodeHost).

(** Every write moves the state machine along some log. *)
Definition extends (s s' : Service) : Prop := ∃ log, sv_fsm s' = replay (sv_fsm s) log.

Lemma extends_refl s : extends s s.
Proof. by exists []. Qed.

Lemma extends_fsm s log : extends s (on_fsm (λ f, replay f log) s).
Proof. by exists log. Qed.

Lemma extends_inv s s' : extends s s' → fsm_inv (state (sv_fsm s)) → fsm_inv (state (sv_fsm s')).
Proof. intros [log ->] Hi. by apply replay_inv. Qed.

Lemma applyCommand_extends nh data msg s : extends s (applyCommand nh data msg s).2.
Proof.
  unfold applyCommand. destruct (negb (sv_nh s)); [by exists [data]|].
  destruct (negb (isLocalLeader nh s)); [apply extends_refl|apply extends_fsm].
Qed.

Lemma propose_extends nh c e msg s : extends s (propose nh c e msg s).2.
Proof. unfold propose. case_match; [apply applyCommand_extends|apply extends_refl]. Qed.

(** A write that reports success ends with its own entry. *)
Lemma applyCommand_ok nh data msg s :
  propose_ok nh → (applyCommand nh data msg s).1 = Ok tt →
  ∃ log, sv_fsm (applyCommand nh data msg s).2 = replay (sv_fsm s) (log ++ [data]).
Proof.
  intros Hp. unfold applyCommand. destruct (negb (sv_nh s)); [by exists []|].
  destruct (negb (isLocalLeader nh s)); [done|]. cbn.
  intros Hok. rewrite wrap_ok in Hok. rewrite (Hp _ Hok). by eexists.
Qed.

Definition op_of_command (c : command) : option op :=
  match c with
  | CUpsertNode s => nonblank (sn_NodeID s) (OpNode (TrimSpace (sn_NodeID s)) s)
  | CUpsertApp a => nonblank (md_Name (app_Metadata a)) (OpApp (deployAppMapKey (app_Metadata a)) a)
  | CDeleteApp m => nonblank (md_Name m) (OpDelete (deployAppMapKey m))
  | CUpsertAssignment a => OpAssign <$> normalizeAssignment a
  | CUpsertBinding b => OpBind <$> normalizeVolumeBinding b
  end.

(** What comes out of the log is what was put in. *)
Lemma classify_encode c b : representable c → encode c = Ok b → classify b = op_of_command c.
Proof.
  intros Hr He. destruct (encode_ok c b Hr He) as (Hne & Ht & Hd).
  unfold classify. rewrite Hne, Ht.
  destruct c; cbn [option_bind mbind command_type] in *; rewrite Hd; reflexivity.
Qed.

Lemma propose_write nh c e msg s :
  propose_ok nh → representable c → (propose nh c e msg s).1 = Ok tt →
  ∃ log, state (sv_fsm (propose nh c e msg s).2) =
         exec (op_of_command c) (bump (state (replay (sv_fsm s) log))).
Proof.
  intros Hp Hr. unfold propose. destruct (encode c) as [b|er] eqn:He; [|done].
  intros Hok. destruct (applyCommand_ok _ _ _ _ Hp Hok) as [log Hl].
  exists log. by rewrite Hl, replay_snoc, apply_classify, (classify_encode _ _ Hr He).
Qed.

(** The command and the operation it is classified as have the same kind, even when the rest of
    the command is not representable. *)
Definition same_kind (c : command) (o : op) : Prop :=
  match c, o with
  | CUpsertNode _, OpNode _ _ | CUpsertApp _, OpApp _ _ | CDeleteApp _, OpDelete _
  | CUpsertAssignment _, OpAssign _ | CUpsertBinding _, OpBind _ => True
  | _, _ => False
  end.

Lemma classify_kind c b o : encode c = Ok b → classify b = Some o → same_kind c o.
Proof.
  intros He%encode_type. unfold classify. destruct (payload_empty b); [done|]. rewrite He. cbn.
  destruct c; cbn; intros (x & _ & Hx)%bind_Some;
    first [ apply nonblank_some in Hx as [<- _] | apply fmap_Some in Hx as (y & _ & ->) ]; done.
Qed.

(** No other proposal is applied while this one is. *)
Definition quiet_host (nh : NodeHost) : Prop := ∀ data, pr_others (SyncPropose nh data) = [].

Lemma applyCommand_quiet nh data msg s :
  quiet_host nh →
  state (sv_fsm (applyCommand nh data msg s).2) = state (sv_fsm s) ∨
  state (sv_fsm (applyCommand nh data msg s).2) = exec (classify data) (bump (state (sv_fsm s))).
Proof.
  intros Hq. unfold applyCommand. destruct (negb (sv_nh s)); [right; apply apply_classify|].
  destruct (negb (isLocalLeader nh s)); [by left|]. cbn. rewrite Hq.
  destruct (pr_applied _); [right; apply apply_classify|by left].
Qed.

(** What a proposal does to the state when it is the only one. *)
Definition written (c : command) (st st' : fsmSnapshotState) : Prop :=
  st' = st ∨ ∃ b, encode c = Ok b ∧ st' = exec (classify b) (bump st).

Lemma propose_quiet nh c e msg s :
  quiet_host nh → written c (state (sv_fsm s)) (state (sv_fsm (propose nh c e msg s).2)).
Proof.
  intros Hq. unfold propose, written. destruct (encode c) as [data|er]; [|by left].
  destruct (applyCommand_quiet nh data msg s Hq) as [E|E]; [by left|right]. eauto.
Qed.

Lemma store_quiet nh snap s :
  quiet_host nh → written (CUpsertNode snap) (state (sv_fsm s)) (state (sv_fsm (store_Upsert nh snap s).2)).
Proof.
  intros Hq. unfold store_Upsert, written. destruct (encode (CUpsertNode snap)) as [data|er]; [|by left].
  destruct (negb (sv_nh s)); [right; exists data; split; [done|apply apply_classify]|].
  destruct (negb (isLocalLeader nh s)); [by left|].
  destruct (applyCommand nh data _ s) as [r s'] eqn:E. cbn.
  pose proof (applyCommand_quiet nh data "not leader: send node capacity to the raft leader node" s Hq) as Hw.
  rewrite E in Hw. destruct Hw as [Hw|Hw]; [by left|right]. eauto.
Qed.

Lemma deploy_visible nh app s :
  propose_ok nh → representable (CUpsertApp app) → TrimSpace (md_Name (app_Metadata app)) ≠ "" →
  (ApplyDeployApp nh app s).1 = Ok tt →
  getDeployApp (app_Metadata app) (sv_fsm (ApplyDeployApp nh app s).2) = Some app.
Proof.
  intros Hp Hr Hn Hok. destruct (propose_write _ _ _ _ _ Hp Hr Hok) as [log Hl].
  unfold getDeployApp, ApplyDeployApp. rewrite Hl. cbn [op_of_command]. unfold nonblank.
  rewrite (proj2 (String.eqb_neq _ _) Hn). cbn [exec]. by rewrite upsert_app_apps, lookup_insert_eq.
Qed.

Lemma delete_visible nh m s :
  propose_ok nh → representable (CDeleteApp m) → TrimSpace (md_Name m) ≠ "" →
  (ApplyDeleteDeployApp nh m s).1 = Ok tt →
  let f := sv_fsm (ApplyDeleteDeployApp nh m s).2 in
  getDeployApp m f = None ∧ listDeployAppRevisions m f = [].
Proof.
  intros Hp Hr Hn. unfold ApplyDeleteDeployApp. case_match; [done|]. intros Hok.
  destruct (propose_write _ _ _ _ _ Hp Hr Hok) as [log Hl].
  unfold getDeployApp, listDeployAppRevisions, revisions_of. cbn zeta. rewrite Hl.
  cbn [op_of_command]. unfold nonblank. rewrite (proj2 (String.eqb_neq _ _) Hn). cbn.
  by rewrite !lookup_delete_eq.
Qed.

(** Preparation already did the normalisation that the state machine repeats. *)
Lemma trim_assignment_idemp a : trim_assignment (trim_assignment a) = trim_assignment a.
Proof.
  unfold trim_assignment, set_metadata_trimmed. cbn. by rewrite !TrimSpace_idemp.
Qed.

Lemma prepareAssignment_ok now raw a :
  prepareAssignment now raw = Ok a → normalizeAssignment a = Some a.
Proof.
  unfold prepareAssignment, normalizeAssignment. cbn zeta.
  set (t := trim_assignment raw).
  assert (Ht : trim_assignment t = t) by apply trim_assignment_idemp.
  case_match eqn:Hn; [done|]. case_match eqn:Hw; [done|].
  set (a0 := if (as_Key t =? "")%string then _ else t).
  case_match eqn:Hk; [done|]. intros [= <-].
  assert (Ha0 : trim_assignment a0 = a0 ∧ as_Metadata a0 = as_Metadata t ∧ as_Workload a0 = as_Workload t).
  { subst a0. case_match; [|done]. split_and!; [|done|done].
    destruct t; cbn in *. injection Ht as E1 E2 E3 E4 E5 E6.
    unfold trim_assignment, set_as_key. cbn. rewrite E2, E3, E4, E5, E6. by rewrite AssignmentKey_trimmed. }
  destruct Ha0 as (Hta & Hm & Hwl).
  assert (Hfix : ∀ u, trim_assignment (set_as_updated u a0) = set_as_updated u a0).
  { intros u. destruct a0; cbn in *. injection Hta as E1 E2 E3 E4 E5 E6.
    unfold trim_assignment, set_as_updated. cbn. congruence. }
  destruct (as_UpdatedAt a0 =? 0)%Z.
  - rewrite Hfix. cbn [set_as_updated as_Metadata as_Workload as_Key].
    rewrite Hm, Hwl, Hn, Hw, Hk. cbn. by rewrite Hk.
  - rewrite Hta, Hm, Hwl, Hn, Hw, Hk. cbn. by rewrite Hk.
Qed.

Lemma assignment_visible nh now raw a s :
  propose_ok nh → prepareAssignment now raw = Ok a → representable (CUpsertAssignment a) →
  (ApplyWorkloadAssignment nh now raw s).1 = Ok tt →
  getAssignment (as_Key a) (sv_fsm (ApplyWorkloadAssignment nh now raw s).2) = Some a.
Proof.
  intros Hp Ha Hr. unfold ApplyWorkloadAssignment. rewrite Ha. intros Hok.
  destruct (propose_write _ _ _ _ _ Hp Hr Hok) as [log Hl].
  unfold getAssignment. rewrite Hl. cbn [op_of_command].
  pose proof (prepareAssignment_ok _ _ _ Ha) as Hn. rewrite Hn. cbn.
  apply normalizeAssignment_ok in Hn as (_ & Ht & _). by rewrite Ht, lookup_insert_eq.
Qed.

(** A node that is not the leader refuses, and nothing changes. *)
Lemma propose_follower nh c e msg s :
  sv_nh s = true → isLocalLeader nh s = false →
  (propose nh c e msg s).2 = s ∧ ∃ er, (propose nh c e msg s).1 = Err er.
Proof.
  intros Hn Hl. unfold propose. destruct (encode c); [|by eauto].
  unfold applyCommand. rewrite Hn, Hl. cbn. eauto.
Qed.
End writes.

(** ** Reads *)
Section reads.
Context `{Digest, ListSortLaws}.

(** Two iterations of the same map list the same entries in the same order. *)
Lemma listing_unique {V} (key : V → string) (m : gmap string V) (l l' : list V) :
  map_Forall (λ k v, key v = k) m → enumerates m l → enumerates m l' →
  list_sort (by_key key) l = list_sort (by_key key) l'.
Proof.
  unfold enumerates. intros Hk Hl Hl'. apply sort_by_key_unique; [|by rewrite Hl, Hl'].
  rewrite Hl, <-list_fmap_compose.
  rewrite (list_fmap_ext _ fst (map_to_list m)); [apply NoDup_fst_map_to_list|].
  intros i [k v] Hi. cbn. apply Hk, elem_of_map_to_list. by eapply list_elem_of_lookup_2.
Qed.

Lemma capacity_store_ok f : fsm_inv (state f) → store_ok (raftCapacityStore f).
Proof.
  intros Hi. split; cbn [st_NodeIDs st_Get st_Len raftCapacityStore].
  - intros id Hid. rewrite list_sort_perm in Hid.
    apply list_elem_of_fmap in Hid as ([k sn] & -> & Hin). apply elem_of_map_to_list in Hin.
    unfold getNodeCapacity. cbn [fst].
    destruct (inv_nodes _ Hi _ _ Hin) as [Hk _].
    rewrite TrimSpace_idemp. replace (TrimSpace k) with k; [eauto|].
    rewrite Hk. symmetry. apply TrimSpace_idemp.
  - rewrite length_list_sort, length_fmap, length_map_to_list. done.
Qed.
End reads.

(** ** Bootstrap *)
Section bootstrap_spec.
Context `{ListSortLaws}.

Lemma rid_fun id r r' : replicaIDForNodeID id = Ok r → replicaIDForNodeID id = Ok r' → r = r'.
Proof. congruence. Qed.

(** The targets of the ids visited so far. *)
Definition targets_of (peers : gmap string string) (ids : list string)
    (acc : gmap Z string * gmap Z string * Service) : Prop :=
  (∀ rid id, acc.1.2 !! rid = Some id ↔ id ∈ ids ∧ replicaIDForNodeID id = Ok rid) ∧
  (∀ rid, acc.1.1 !! rid = (λ id, default "" (peers !! id)) <$> acc.1.2 !! rid) ∧
  (∀ id, id ∈ ids → ∃ rid, replicaIDForNodeID id = Ok rid).

Lemma add_target_step peers ids id acc acc' :
  targets_of peers ids acc → add_target peers acc id = Ok acc' → targets_of peers (ids ++ [id]) acc'.
Proof.
  destruct acc as [[targets seen] s]. intros (Hseen & Htgt & Hdef). unfold add_target.
  rewrite res_bind_ok. intros (rid & Hrid & Hok). rewrite res_seq_ok in Hok.
  destruct Hok as [Hcol Hok]. injection Hok as <-.
  assert (Hfresh : ∀ prev, seen !! rid = Some prev → prev = id).
  { intros prev Hp. unfold checkReplicaIDCollision in Hcol. rewrite Hp, guard_err_ok in Hcol.
    apply negb_false_iff in Hcol. by apply String.eqb_eq in Hcol. }
  split_and!; cbn in *.
  - intros r i. destruct (decide (rid = r)) as [<-|Hne].
    + rewrite lookup_insert_eq, elem_of_app, list_elem_of_singleton.
      split; [intros [= <-]; auto|]. intros [[Hin| ->] Hi]; [|done].
      f_equal. symmetry. apply Hfresh, Hseen. auto.
    + rewrite lookup_insert_ne, Hseen, elem_of_app, list_elem_of_singleton by done.
      split; [intuition|]. intros [[Hin| ->] Hi]; [auto|]. destruct Hne. by eapply rid_fun.
  - intros r. destruct (decide (rid = r)) as [<-|Hne].
    + by rewrite !lookup_insert_eq.
    + by rewrite !lookup_insert_ne.
  - intros i [Hin| ->%list_elem_of_singleton]%elem_of_app; eauto.
Qed.

Lemma replicaTargets_spec peers s targets s' :
  replicaTargetsFromPeers peers s = Ok (targets, s') →
  (∀ id addr, peers !! id = Some addr →
     ∃ rid, replicaIDForNodeID id = Ok rid ∧ targets !! rid = Some addr) ∧
  (∀ rid addr, targets !! rid = Some addr →
     ∃ id, replicaIDForNodeID id = Ok rid ∧ peers !! id = Some addr) ∧
  (∀ id id' rid, is_Some (peers !! id) → is_Some (peers !! id') →
     replicaIDForNodeID id = Ok rid → replicaIDForNodeID id' = Ok rid → id = id').
Proof.
  unfold replicaTargetsFromPeers. rewrite res_bind_ok. intros ([[tg seen] s1] & Hf & [= <- <-]).
  apply (range_fold_inv (targets_of peers)) in Hf.
  2: { split_and!; cbn; intros; rewrite ?lookup_empty in *; set_solver. }
  2: { intros; by eapply add_target_step. }
  destruct Hf as (Hseen & Htgt & Hdef). cbn in *.
  assert (Hids : ∀ id, id ∈ sortedPeerIDs peers ↔ is_Some (peers !! id)).
  { intros id. unfold sortedPeerIDs. rewrite list_sort_perm, list_elem_of_fmap. split.
    - intros ([k v] & -> & Hin%elem_of_map_to_list). eauto.
    - intros [v Hv]. exists (id, v). split; [done|]. by apply elem_of_map_to_list. }
  split_and!.
  - intros id addr Ha. destruct (Hdef id) as [rid Hrid]; [apply Hids; eauto|].
    exists rid. split; [done|]. rewrite Htgt, (proj2 (Hseen rid id)); [|by rewrite Hids; eauto].
    cbn. by rewrite Ha.
  - intros rid addr Ha. rewrite Htgt in Ha. apply fmap_Some in Ha as (id & Hid & ->).
    apply Hseen in Hid as [Hin Hr]. apply Hids in Hin as [v Hv]. exists id. by rewrite Hv.
  - intros id id' rid Hi Hi' Hr Hr'.
    pose proof (proj2 (Hseen rid id) (conj (proj2 (Hids id) Hi) Hr)).
    pose proof (proj2 (Hseen rid id') (conj (proj2 (Hids id') Hi') Hr')). congruence.
Qed.
End bootstrap_spec.
