(* ===== verification/RaftMembers.v ===== *)
(** * The Raft service: members, status and lifecycle
    (internal/raftsvc: membership.go, status.go, member_identity.go, service.go,
     peer_address.go; internal/api/leader_forwarder.go)

    What the NodeHost (package dragonboat) answers is an argument: its membership, its leader,
    whether it knows the replica, and the results of opening it.  The service's own tables of
    member names decide how replicas are reported. *)
From stdpp Require Import base strings numbers gmap list.
From S2P Require Import Prelude GoStrings GoTime GoNet GoList Deploy Meta Placement Fsm FsmSpec RaftService RaftSpec.

(** ** membership.go *)
Record Member := mkMember { mb_ID : string; mb_Address : string; mb_Suffrage : string }.

(** [SyncGetShardMembership]'s answer. *)
Record Membership := mkMembership {
  ms_Nodes : gmap Z string; ms_NonVotings : gmap Z string; ms_Witnesses : gmap Z string }.

(** The order in which Go iterates a map of replicas. *)
Class ReplicaOrder := replica_order : gmap Z string → list Z.
Class ReplicaOrderLaws `{ReplicaOrder} :=
  replica_order_perm (m : gmap Z string) : replica_order m ≡ₚ (map_to_list m).*1.

Definition appendReplicaIDs `{ReplicaOrder} (replicaIDs : list Z) (targets : gmap Z string) : list Z :=
  replicaIDs ++ replica_order targets.

Definition memberAddressAndSuffrage (replicaID : Z) (m : Membership) : string * string :=
  match ms_NonVotings m !! replicaID with
  | Some address => (address, "NonVoter")
  | None =>
      match ms_Witnesses m !! replicaID with
      | Some address => (address, "Witness")
      | None => (default "" (ms_Nodes m !! replicaID), "Voter")
      end
  end.

Definition memberFromReplicaID (m : Membership) (s : Service) (replicaID : Z) : Member :=
  let '(address, suffrage) := memberAddressAndSuffrage replicaID m in
  mkMember (nodeIDForMember replicaID address s) address suffrage.

Section members.
Context `{ReplicaOrder, ListSort}.

Definition sortedMembershipReplicaIDs (m : Membership) (s : Service) : list Z :=
  list_sort (by_key (λ r, nodeIDForMember r "" s))
    (appendReplicaIDs (appendReplicaIDs (appendReplicaIDs [] (ms_Nodes m)) (ms_NonVotings m)) (ms_Witnesses m)).

Definition ListMembers (ctxErr : res unit) (membership : res Membership) (s : Service) : res (list Member) :=
  _ ← wrap "list members context" [] ctxErr;
  if negb (sv_nh s) then Ok []
  else
    m ← wrap "get raft membership" [] membership;
    Ok (memberFromReplicaID m s <$> sortedMembershipReplicaIDs m s).

(** ** status.go *)
Record Status := mkStatus {
  st_Ready : bool; st_NodeID : string; st_State : string; st_IsLeader : bool; st_LeaderID : string;
  st_LeaderAddress : string; st_LocalAddress : string; st_Message : string; st_Members : list Member }.

Definition raftStateName (leaderReady isLeader : bool) : string :=
  if isLeader then "Leader" else if negb leaderReady then "Unknown" else "Follower".

Definition leaderAddress (leaderReplicaID : Z) (isLeader : bool) (localAddress : string) (members : list Member)
    (s : Service) : string :=
  let address :=
    match find (λ m, (mb_ID m =? nodeIDForMember leaderReplicaID (mb_Address m) s)%string) members with
    | Some m => mb_Address m
    | None => ""
    end in
  if isLeader && (address =? "")%string then localAddress else address.

(** [leader] is [GetLeaderID]'s answer; [err_text] prints an error; [ctxErr'] is what the
    context says when [ListMembers] looks at it. *)
Definition status_of (err_text : error → string) (ctxErr ctxErr' : res unit) (leader : res (Z * bool))
    (membership : res Membership) (s : Service) : res Status :=
  _ ← wrap "status context" [] ctxErr;
  let local := sv_localID s in
  if negb (sv_nh s)
  then Ok (mkStatus false local "not_ready" false "" "" "" "dragonboat nodehost is not started" [])
  else
    let '(leaderReplicaID, leaderReady, leaderMessage) :=
      match leader with Err e => (0%Z, false, err_text e) | Ok (r, ready) => (r, ready, "") end in
    if negb (leaderMessage =? "")%string
    then Ok (mkStatus false local "unknown" false "" "" (sv_localAddress s) leaderMessage [])
    else
      let isLeader := leaderReady && (leaderReplicaID =? sv_localReplicaID s)%Z in
      let members := match ListMembers ctxErr' membership s with Ok l => l | Err _ => [] end in
      let address := leaderAddress leaderReplicaID isLeader (sv_localAddress s) members s in
      Ok (mkStatus leaderReady local (raftStateName leaderReady isLeader) isLeader
            (if leaderReady then nodeIDForMember leaderReplicaID address s else "")
            address (sv_localAddress s) (if leaderReady then "" else "raft leader is not ready") members).

(** ** member_identity.go: the static peers *)
Definition BootstrapServerList (cfgPeers : list (string * string)) (localID localAddr : string) (s : Service)
    : res (list Member) * Service :=
  match
    replicaID ← replicaIDForNodeID localID;
    bootstrapReplicaTargets cfgPeers replicaID localAddr s
  with
  | Err e => (Err e, s)
  | Ok (targets, s') =>
      (Ok (list_sort (by_key mb_ID)
             ((λ rid, let target := default "" (targets !! rid) in
                      mkMember (nodeIDForMember rid target s') target "Voter") <$> replica_order targets)), s')
  end.
End members.

(** ** peer_address.go *)

(** [listen] opens a port and gives its address and the result of closing it again. *)
Definition resolveEphemeralTCPAddr (listen : string → res (string * res unit)) (raw : string) : res string :=
  let port := match SplitHostPort (TrimSpace raw) with Ok (_, p) => p | Err _ => "" end in
  if negb (port =? "0")%string then Ok raw
  else
    '(addr, closed) ← wrap "listen ephemeral raft address" [] (listen raw);
    _ ← wrap "close ephemeral raft listener" [] closed;
    Ok addr.

(** ** service.go *)
Record RaftConfig := mkRaftConfig {
  rc_Bind : string; rc_Advertise : string; rc_DataDir : string; rc_Bootstrap : bool;
  rc_Peers : list (string * string) }.

Definition dragonboatAddresses (listen : string → res (string * res unit)) (cfg : RaftConfig)
    : res (string * string) :=
  let bind := TrimSpace (rc_Bind cfg) in
  if (bind =? "")%string then Err (Errorf "raft.bind is required" [])
  else
    bind ← wrap "validate raft bind" [] (validateRaftPeerAddress "raft.bind" bind);
    listenAddr ← wrap "reserve raft bind address" [] (resolveEphemeralTCPAddr listen bind);
    let advertise := TrimSpace (rc_Advertise cfg) in
    raftAddr ← wrap "validate raft address" []
      (if (advertise =? "")%string then validateConcreteRaftAddress "raft.bind" listenAddr
       else validateConcreteRaftAddress "raft.advertise" advertise);
    Ok (listenAddr, raftAddr).

Definition dragonboatDataDir (defaultDir : string) (cfg : RaftConfig) : string :=
  let dir := TrimSpace (rc_DataDir cfg) in if negb (dir =? "")%string then dir else defaultDir.

(** What opening the NodeHost answers. *)
Record open_answers := mkOpen {
  oa_listen : string → res (string * res unit);
  oa_mkdir : res unit;
  oa_newNodeHost : string → string → res unit;  (** with the listen and the Raft address *)
  oa_hasNodeInfo : Z → bool;
  oa_startReplica : gmap Z string → bool → Z → res unit  (** initial members, join, replica *) }.

(** The service with its flag, and how many NodeHosts it holds open. *)
Record RaftNode := mkNode { rn_service : Service; rn_started : bool; rn_open : nat }.

Definition NewNode (local : string) : RaftNode := mkNode (New local) false 0.

Definition with_local (replicaID : Z) (addr : string) (s : Service) : Service :=
  mkService (sv_localID s) (sv_nh s) (sv_fsm s) replicaID addr (sv_replicaToNode s) (sv_addressToNode s).
Definition with_nh (b : bool) (s : Service) : Service :=
  mkService (sv_localID s) b (sv_fsm s) (sv_localReplicaID s) (sv_localAddress s) (sv_replicaToNode s)
    (sv_addressToNode s).

Section lifecycle.
Context `{ListSort} (cfg : RaftConfig).
Variable defaultDir : string.  (** [filepath.Join(config.DefaultDataRoot(), "dragonboat")] *)

(** The members and the join flag a replica is started with. *)
Definition startReplica (a : open_answers) (replicaID : Z) (raftAddr : string) (s : Service)
    : res unit * Service :=
  let start initialMembers join s :=
    (wrap "start dragonboat replica" [] (oa_startReplica a initialMembers join replicaID), s) in
  if oa_hasNodeInfo a replicaID then start ∅ false s
  else if rc_Bootstrap cfg then
    match bootstrapReplicaTargets (rc_Peers cfg) replicaID raftAddr s with
    | Err e => (Err e, s)
    | Ok (targets, s') => start targets false s'
    end
  else start ∅ true s.

Definition raft_Start (a : open_answers) (n : RaftNode) : res unit * RaftNode :=
  if rn_started n then (Ok tt, n)
  else
    let s := rn_service n in
    match
      replicaID ← replicaIDForNodeID (sv_localID s);
      '(listenAddr, raftAddr) ← dragonboatAddresses (oa_listen a) cfg;
      _ ← wrap "dragonboat mkdir %q" [AStr (dragonboatDataDir defaultDir cfg)] (oa_mkdir a);
      _ ← wrap "dragonboat.NewNodeHost" [] (oa_newNodeHost a listenAddr raftAddr);
      Ok (replicaID, raftAddr)
    with
    | Err e => (Err e, n)
    | Ok (replicaID, raftAddr) =>
        let s := rememberMember (sv_localID s) replicaID raftAddr (with_local replicaID raftAddr s) in
        match startReplica a replicaID raftAddr s with
        | (Err e, s) => (Err (Wrapf e "dragonboat StartReplica" []), mkNode s false (rn_open n))
        | (Ok _, s) => (Ok tt, mkNode (with_nh true s) true (S (rn_open n)))
        end
    end.

Definition raft_Stop (n : RaftNode) : RaftNode :=
  if sv_nh (rn_service n)
  then mkNode (with_nh false (rn_service n)) false (pred (rn_open n))
  else mkNode (rn_service n) false (rn_open n).
End lifecycle.

(** [WaitLocalLeader]: the turns of its loop, a tick with what [GetLeaderID] then answers or
    the end of the context. *)
Inductive wait_turn := Tick (leader : res (Z * bool)) | Done (e : error).

Definition leads (s : Service) (leader : res (Z * bool)) : bool :=
  sv_nh s && negb (sv_localReplicaID s =? 0)%Z &&
  match leader with Ok (leaderID, ready) => ready && (leaderID =? sv_localReplicaID s)%Z | Err _ => false end.

(** [None]: still waiting when the turns end. *)
Fixpoint wait_loop (s : Service) (turns : list wait_turn) : option (res unit) :=
  match turns with
  | [] => None
  | Done e :: _ => Some (Err (Wrapf e "wait local leader" []))
  | Tick l :: r => if leads s l then Some (Ok tt) else wait_loop s r
  end.
Definition WaitLocalLeader (leader : res (Z * bool)) (turns : list wait_turn) (s : Service) : option (res unit) :=
  if negb (sv_nh s) then Some (Ok tt)
  else if leads s leader then Some (Ok tt)
  else wait_loop s turns.

(** ** api/leader_forwarder.go *)

(** [leaderBaseURL]: where a write goes, [Ok None] when it is served here.  [nodeURL] is
    [config.ClusterConfig.NodeURL]. *)
Definition leaderBaseURL (nodeURL : string → option string) (status : res Status) : res (option string) :=
  st ← wrap "get raft status" [] status;
  if negb (st_Ready st) || st_IsLeader st then Ok None
  else
    let leaderID := TrimSpace (st_LeaderID st) in
    if (leaderID =? "")%string then Err (Errorf "not leader and raft leader is not known" [])
    else match nodeURL leaderID with
         | None => Err (Errorf "not leader: configure cluster.nodes.%s or target the raft leader" [AStr leaderID])
         | Some url => Ok (Some url)
         end.

(** * Members, status and lifecycle of the Raft service

    Every run of starts and stops keeps at most one NodeHost open and leaves none behind a
    failed start; listings do not depend on map iteration order; the leader is reported, and
    writes are forwarded to it, when its replica is in the member tables. *)
(** ** The member tables *)

(** Nothing but the member tables differs. *)
Definition same_core (s s' : Service) : Prop :=
  sv_localID s = sv_localID s' ∧ sv_nh s = sv_nh s' ∧ sv_fsm s = sv_fsm s' ∧
  sv_localReplicaID s = sv_localReplicaID s' ∧ sv_localAddress s = sv_localAddress s'.

Lemma remember_core id r addr s : same_core s (rememberMember id r addr s).
Proof. unfold rememberMember. by destruct (_ || _). Qed.

Lemma same_core_trans s1 s2 s3 : same_core s1 s2 → same_core s2 s3 → same_core s1 s3.
Proof. unfold same_core. intros (?&?&?&?&?) (?&?&?&?&?). split_and!; congruence. Qed.

Lemma remember_lookup id r addr s :
  TrimSpace id ≠ "" → r ≠ 0%Z → sv_replicaToNode (rememberMember id r addr s) !! r = Some (TrimSpace id).
Proof.
  intros Hid Hr. unfold rememberMember. rewrite (proj2 (String.eqb_neq _ _) Hid), (proj2 (Z.eqb_neq _ _) Hr).
  cbn. apply lookup_insert_eq.
Qed.

Lemma nodeIDForMember_known r id addr s :
  sv_replicaToNode s !! r = Some id → TrimSpace id ≠ "" → nodeIDForMember r addr s = id.
Proof.
  intros Hl Hid. unfold nodeIDForMember, named. rewrite Hl. cbn. by rewrite (proj2 (String.eqb_neq _ _) Hid).
Qed.

Section bootstrap.
Context `{ListSort}.

Lemma replicaTargets_core peers s targets s' :
  replicaTargetsFromPeers peers s = Ok (targets, s') → same_core s s'.
Proof.
  unfold replicaTargetsFromPeers. intros Hb. apply res_bind_ok in Hb as ([[t seen] s1] & Hf & E). simplify_eq.
  revert Hf. apply (range_fold_inv (λ _ acc, same_core s acc.2)); [done|].
  intros _ id [[t1 seen1] s1] [[t2 seen2] s2] _ Hc _ Ha. unfold add_target in Ha.
  apply res_bind_ok in Ha as (r & _ & Ha). apply res_bind_ok in Ha as (? & _ & Ha). simplify_eq/=.
  eapply same_core_trans; [exact Hc|apply remember_core].
Qed.

Lemma bootstrap_core peers r addr s targets s' :
  bootstrapReplicaTargets peers r addr s = Ok (targets, s') → r ≠ 0%Z →
  same_core s s' ∧ sv_replicaToNode s' !! r = Some (TrimSpace (sv_localID s)).
Proof.
  unfold bootstrapReplicaTargets. destruct (String.eqb_spec (TrimSpace (sv_localID s)) "") as [|Hid]; [done|].
  intros Hb Hr. apply res_bind_ok in Hb as (m & _ & Hb). apply res_bind_ok in Hb as ([t s1] & Hc & E). simplify_eq.
  apply replicaTargets_core in Hc. split.
  - eapply same_core_trans; [exact Hc|apply remember_core].
  - rewrite remember_lookup; [by rewrite TrimSpace_idemp|by rewrite TrimSpace_idemp|done].
Qed.
End bootstrap.

(** ** Start and Stop *)
Section lifecycle.
Context `{ListSort} (cfg : RaftConfig) (defaultDir : string).

(** The local replica of a started node is the hash of its id and carries its name. *)
Definition identified (s : Service) : Prop :=
  replicaIDForNodeID (sv_localID s) = Ok (sv_localReplicaID s) ∧
  sv_replicaToNode s !! sv_localReplicaID s = Some (TrimSpace (sv_localID s)).

Definition raft_inv (local : string) (n : RaftNode) : Prop :=
  sv_localID (rn_service n) = local ∧ rn_started n = sv_nh (rn_service n) ∧
  rn_open n = (if sv_nh (rn_service n) then 1%nat else 0%nat) ∧
  (sv_nh (rn_service n) = true → identified (rn_service n)).

Lemma replicaID_nonblank id r : replicaIDForNodeID id = Ok r → TrimSpace id ≠ "" ∧ r ≠ 0%Z.
Proof.
  intros Hr. split; [|apply replicaID_range in Hr; lia]. intros E. unfold replicaIDForNodeID in Hr.
  by rewrite E in Hr.
Qed.

Lemma startReplica_core a r addr s res s' :
  startReplica cfg a r addr s = (res, s') → r ≠ 0%Z →
  sv_replicaToNode s !! r = Some (TrimSpace (sv_localID s)) →
  same_core s s' ∧ sv_replicaToNode s' !! r = Some (TrimSpace (sv_localID s)).
Proof.
  unfold startReplica. intros E Hr Hl. destruct (oa_hasNodeInfo a r); [by simplify_eq|].
  destruct (rc_Bootstrap cfg); [|by simplify_eq].
  destruct (bootstrapReplicaTargets _ _ _ _) as [[targets s1]|e] eqn:Eb; [|by simplify_eq].
  simplify_eq. by eapply bootstrap_core.
Qed.

Lemma raft_start_inv local a n : raft_inv local n → raft_inv local (raft_Start cfg defaultDir a n).2.
Proof.
  intros Hn. pose proof Hn as (Hid & Hst & Ho & Hi). unfold raft_Start. destruct (rn_started n) eqn:Es; [done|].
  destruct (replicaIDForNodeID (sv_localID (rn_service n))) as [r|e] eqn:Er; [|done]. cbn.
  destruct (dragonboatAddresses _ _) as [[la ra]|e]; [|done]. cbn.
  destruct (wrap _ _ (oa_mkdir a)) as [[]|e]; [|done]. cbn.
  destruct (wrap _ _ (oa_newNodeHost a la ra)) as [[]|e]; [|done]. cbn.
  destruct (replicaID_nonblank _ _ Er) as [Hnb Hr0].
  set (s0 := rememberMember _ _ _ _).
  assert (same_core (with_local r ra (rn_service n)) s0) as Hc0 by apply remember_core.
  assert (sv_replicaToNode s0 !! r = Some (TrimSpace (sv_localID s0))) as Hl0.
  { rewrite <-(proj1 Hc0). unfold s0. by rewrite remember_lookup. }
  destruct (startReplica cfg a r ra s0) as [res s1] eqn:E1.
  destruct (startReplica_core _ _ _ _ _ _ E1 Hr0 Hl0) as [Hc1 Hl1].
  destruct (same_core_trans _ _ _ Hc0 Hc1) as (C1 & C2 & _ & C4 & _). cbn in C1, C2, C4.
  rewrite <-Hst in *. destruct res as [[]|e]; cbn.
  - split_and!; cbn; [by rewrite <-C1|done|by rewrite Ho|]. intros _. unfold identified. cbn.
    rewrite <-C1, <-C4. split; [done|]. rewrite Hl1. by rewrite <-(proj1 Hc0).
  - split_and!; cbn; [by rewrite <-C1|done|by rewrite <-C2|by rewrite <-C2].
Qed.

Lemma raft_stop_inv local n : raft_inv local n → raft_inv local (raft_Stop n).
Proof.
  intros (Hid & Hst & Ho & Hi). unfold raft_Stop. destruct (sv_nh (rn_service n)) eqn:E.
  - split_and!; cbn; [done..|by rewrite Ho|done].
  - split_and!; cbn; [done|by rewrite E|by rewrite E|by rewrite E].
Qed.

(** A failed start leaves no NodeHost open. *)
Lemma raft_start_failed local a n e n' :
  raft_inv local n → raft_Start cfg defaultDir a n = (Err e, n') → rn_open n' = 0%nat ∧ rn_started n' = false.
Proof.
  intros Hi E. pose proof (raft_start_inv local a n Hi) as (_ & Hst & Ho & _). rewrite E in *. cbn in *.
  assert (rn_started n' = false) as Hf.
  { unfold raft_Start in E. destruct (rn_started n) eqn:Es; [done|].
    repeat (case_match; simplify_eq/=; try done). }
  split; [|done]. by rewrite Ho, <-Hst, Hf.
Qed.

Inductive raft_call := RaftStart (a : open_answers) | RaftStop.
Definition raft_run (n : RaftNode) (c : raft_call) : RaftNode :=
  match c with RaftStart a => (raft_Start cfg defaultDir a n).2 | RaftStop => raft_Stop n end.

Lemma raft_reachable_inv local calls : raft_inv local (foldl raft_run (NewNode local) calls).
Proof.
  induction calls as [|c calls IH] using rev_ind; [by split_and!|].
  rewrite foldl_app. destruct c; [by apply raft_start_inv|by apply raft_stop_inv].
Qed.
End lifecycle.

(** ** Names of replicas *)

(** Every name in the table belongs to its replica. *)
Definition table_ok (s : Service) : Prop :=
  map_Forall (λ r id, TrimSpace id = id ∧ replicaIDForNodeID id = Ok r) (sv_replicaToNode s).

Lemma replicaID_trim id : replicaIDForNodeID (TrimSpace id) = replicaIDForNodeID id.
Proof. unfold replicaIDForNodeID. by rewrite TrimSpace_idemp. Qed.

Lemma remember_table id r addr s : replicaIDForNodeID id = Ok r → table_ok s → table_ok (rememberMember id r addr s).
Proof.
  intros Hr Ht. unfold rememberMember. destruct (_ || _); [done|]. unfold table_ok. cbn.
  apply map_Forall_insert_2; [|done]. split; [apply TrimSpace_idemp|by rewrite replicaID_trim].
Qed.

Lemma forget_table r s : table_ok s → table_ok (forgetMember r s).
Proof. intros Ht. by apply map_Forall_delete. Qed.

Section tables.
Context `{Digest, Codec}.

(** A successful [AddVoter] has asked for the replica of the id and remembers it. *)
Lemma addVoter_ok nh c id addr s s' :
  AddVoter nh c id addr s = (Ok tt, s') →
  ∃ r a, replicaIDForNodeID (TrimSpace id) = Ok r ∧ validateRaftPeerAddress "member.address" addr = Ok a ∧
    SyncRequestAddReplica nh r a = Ok tt ∧ s' = rememberMember (TrimSpace id) r a s.
Proof.
  unfold AddVoter. intros E. case_match eqn:Em; [|done]. destruct a as [r a]. simplify_eq.
  apply res_bind_ok in Em as ([] & _ & Em). apply res_bind_ok in Em as ([] & _ & Em).
  destruct (TrimSpace id =? "")%string; [done|].
  apply res_bind_ok in Em as (a' & Ha & Em). apply res_bind_ok in Em as (r' & Hr & Em).
  apply res_bind_ok in Em as ([] & Hs & Em). simplify_eq. rewrite wrap_ok in Ha. rewrite wrap_ok in Hs. eauto 10.
Qed.

Lemma addVoter_err nh c id addr s e s' : AddVoter nh c id addr s = (Err e, s') → s' = s.
Proof. unfold AddVoter. intros E. case_match; [by destruct a|]. by simplify_eq. Qed.

Lemma addVoter_table nh c id addr s : table_ok s → table_ok (AddVoter nh c id addr s).2.
Proof.
  intros Ht. destruct (AddVoter nh c id addr s) as [[[]|e] s'] eqn:E; cbn.
  - apply addVoter_ok in E as (r & a & Hr & _ & _ & ->). by apply remember_table.
  - by apply addVoter_err in E as ->.
Qed.

Lemma removeServer_table nh c id s : table_ok s → table_ok (RemoveServer nh c id s).2.
Proof. intros Ht. unfold RemoveServer. case_match; cbn; [by apply forget_table|done]. Qed.
End tables.

Section start_tables.
Context `{ListSort} (cfg : RaftConfig) (defaultDir : string).

Lemma bootstrap_table peers r addr s targets s' :
  replicaIDForNodeID (sv_localID s) = Ok r →
  bootstrapReplicaTargets peers r addr s = Ok (targets, s') → table_ok s → table_ok s'.
Proof.
  unfold bootstrapReplicaTargets. destruct (String.eqb_spec (TrimSpace (sv_localID s)) "") as [|Hid]; [done|].
  intros Hr Hb Ht. apply res_bind_ok in Hb as (m & _ & Hb). apply res_bind_ok in Hb as ([t s1] & Hc & E). simplify_eq.
  apply remember_table; [by rewrite replicaID_trim|].
  unfold replicaTargetsFromPeers in Hc. apply res_bind_ok in Hc as ([[t1 seen] s2] & Hf & E). simplify_eq.
  revert Hf. apply (range_fold_inv (λ _ acc, table_ok acc.2)); [done|].
  intros _ id [[ta sa] s3] [[tb sb] s4] _ Hc _ Ha. unfold add_target in Ha.
  apply res_bind_ok in Ha as (r' & Hr' & Ha). apply res_bind_ok in Ha as (? & _ & Ha). simplify_eq/=.
  by apply remember_table.
Qed.

Lemma raft_start_table a n : table_ok (rn_service n) → table_ok (rn_service (raft_Start cfg defaultDir a n).2).
Proof.
  intros Ht. unfold raft_Start. destruct (rn_started n); [done|].
  destruct (replicaIDForNodeID (sv_localID (rn_service n))) as [r|e] eqn:Er; [|done]. cbn.
  destruct (dragonboatAddresses _ _) as [[la ra]|e]; [|done]. cbn.
  destruct (wrap _ _ (oa_mkdir a)) as [[]|e]; [|done]. cbn.
  destruct (wrap _ _ (oa_newNodeHost a la ra)) as [[]|e]; [|done]. cbn.
  assert (table_ok (rememberMember (sv_localID (rn_service n)) r ra (with_local r ra (rn_service n)))) as Ht0
    by (by apply remember_table).
  assert (sv_localID (rememberMember (sv_localID (rn_service n)) r ra (with_local r ra (rn_service n))) =
          sv_localID (rn_service n)) as Hl0 by (by rewrite <-(proj1 (remember_core _ _ _ _))).
  destruct (startReplica _ _ _ _ _) as [res s1] eqn:E. unfold startReplica in E.
  assert (table_ok s1) as Ht1.
  { destruct (oa_hasNodeInfo a r); [by simplify_eq|]. destruct (rc_Bootstrap cfg); [|by simplify_eq].
    destruct (bootstrapReplicaTargets _ _ _ _) as [[targets s2]|e] eqn:Eb; simplify_eq; [|done].
    eapply bootstrap_table; [|exact Eb|done]. by rewrite Hl0. }
  by destruct res as [[]|e].
Qed.
End start_tables.

(** ** Listing the members *)
Definition replicas (m : Membership) : list Z :=
  (map_to_list (ms_Nodes m)).*1 ++ (map_to_list (ms_NonVotings m)).*1 ++ (map_to_list (ms_Witnesses m)).*1.

(** The service knows the name of every replica of the membership. *)
Definition known_members (m : Membership) (s : Service) : Prop :=
  ∀ r, r ∈ replicas m → is_Some (sv_replicaToNode s !! r).

Lemma table_name s r addr :
  table_ok s → is_Some (sv_replicaToNode s !! r) →
  sv_replicaToNode s !! r = Some (nodeIDForMember r addr s) ∧ replicaIDForNodeID (nodeIDForMember r addr s) = Ok r.
Proof.
  intros Ht [id Hid]. destruct (Ht r id Hid) as [Htr Hr].
  assert (nodeIDForMember r addr s = id) as ->; [|done].
  apply nodeIDForMember_known; [done|]. by apply replicaID_nonblank in Hr as [? _].
Qed.

Lemma names_inj s r r' addr addr' :
  table_ok s → is_Some (sv_replicaToNode s !! r) → is_Some (sv_replicaToNode s !! r') →
  nodeIDForMember r addr s = nodeIDForMember r' addr' s → r = r'.
Proof.
  intros Ht Hr Hr' E. pose proof (table_name s r addr Ht Hr) as [_ H1].
  pose proof (table_name s r' addr' Ht Hr') as [_ H2]. rewrite E in H1. congruence.
Qed.

Section listing.
Context `{ReplicaOrderLaws, ListSortLaws}.

Lemma sortedMembership_perm m s : sortedMembershipReplicaIDs m s ≡ₚ replicas m.
Proof.
  unfold sortedMembershipReplicaIDs, appendReplicaIDs, replicas. rewrite list_sort_perm. cbn [app].
  rewrite !replica_order_perm. by rewrite app_assoc.
Qed.

Lemma ListMembers_ok m s :
  sv_nh s = true →
  ListMembers (Ok tt) (Ok m) s = Ok (memberFromReplicaID m s <$> sortedMembershipReplicaIDs m s).
Proof. intros Hn. unfold ListMembers. by rewrite Hn. Qed.

Lemma memberFromReplicaID_eq m s r :
  memberFromReplicaID m s r =
    mkMember (nodeIDForMember r (memberAddressAndSuffrage r m).1 s) (memberAddressAndSuffrage r m).1
      (memberAddressAndSuffrage r m).2.
Proof. unfold memberFromReplicaID. by destruct (memberAddressAndSuffrage r m). Qed.

(** The leader is reported under its own name, with its own address, when its replica and
    those of the other members are in the table. *)
Lemma status_leader err_text ctx' m r s st :
  sv_nh s = true → table_ok s → is_Some (sv_replicaToNode s !! r) →
  status_of err_text (Ok tt) ctx' (Ok (r, true)) m s = Ok st →
  st_Ready st = true ∧ st_IsLeader st = (r =? sv_localReplicaID s)%Z ∧
  sv_replicaToNode s !! r = Some (st_LeaderID st).
Proof.
  intros Hn Ht Hk. unfold status_of. rewrite Hn. cbn. intros [= <-]. cbn.
  split_and!; [done..|]. by apply table_name.
Qed.

Lemma leader_address m r s addr isLeader local :
  table_ok s → known_members m s → r ∈ replicas m → addr ≠ "" →
  (memberAddressAndSuffrage r m).1 = addr →
  leaderAddress r isLeader local (memberFromReplicaID m s <$> sortedMembershipReplicaIDs m s) s = addr.
Proof.
  intros Ht Hk Hin Hne Ha. unfold leaderAddress.
  assert (∀ l, r ∈ l → (∀ r', r' ∈ l → is_Some (sv_replicaToNode s !! r')) →
    find (λ m0, (mb_ID m0 =? nodeIDForMember r (mb_Address m0) s)%string) (memberFromReplicaID m s <$> l) =
    Some (memberFromReplicaID m s r)) as K.
  { clear Hin. induction l as [|x l IH]; intros Hin Hl; [by apply not_elem_of_nil in Hin|].
    cbn. rewrite memberFromReplicaID_eq. cbn [mb_ID mb_Address].
    destruct (String.eqb_spec (nodeIDForMember x (memberAddressAndSuffrage x m).1 s)
                (nodeIDForMember r (memberAddressAndSuffrage x m).1 s)) as [E|Hx].
    - apply names_inj in E as ->; [by rewrite memberFromReplicaID_eq|done|apply Hl; left|by apply Hl].
    - apply IH; [|set_solver]. apply elem_of_cons in Hin as [->|]; done. }
  rewrite K; [|by rewrite sortedMembership_perm|intros r'; rewrite sortedMembership_perm; apply Hk].
  rewrite memberFromReplicaID_eq. cbn [mb_Address]. rewrite Ha, (proj2 (String.eqb_neq _ _) Hne).
  by rewrite andb_false_r.
Qed.
End listing.

(** Two iteration orders give one listing. *)
Lemma ListMembers_order (o1 o2 : ReplicaOrder) `{ListSortLaws} ctx membership s :
  ReplicaOrderLaws (H := o1) → ReplicaOrderLaws (H := o2) → table_ok s →
  (∀ m, membership = Ok m → known_members m s ∧ NoDup (replicas m)) →
  ListMembers (H := o1) ctx membership s = ListMembers (H := o2) ctx membership s.
Proof.
  intros L1 L2 Ht Hk. unfold ListMembers. destruct ctx as [[]|]; [|done]. cbn.
  destruct (negb (sv_nh s)); [done|]. destruct membership as [m|]; [|done]. cbn. f_equal. f_equal.
  destruct (Hk m eq_refl) as [Hkm Hnd]. unfold sortedMembershipReplicaIDs.
  assert (∀ (o : ReplicaOrder), ReplicaOrderLaws (H := o) →
    appendReplicaIDs (H := o) (appendReplicaIDs (H := o) (appendReplicaIDs (H := o) [] (ms_Nodes m))
      (ms_NonVotings m)) (ms_Witnesses m) ≡ₚ replicas m) as P.
  { intros o L. unfold appendReplicaIDs, replicas. cbn [app]. rewrite !(replica_order_perm (H := o)).
    by rewrite app_assoc. }
  apply sort_by_key_unique; [|by rewrite (P o1 L1), (P o2 L2)].
  rewrite (P o1 L1). apply NoDup_fmap_2_strong; [|done].
  intros r r' Hr Hr'. apply names_inj; auto.
Qed.

(** ** Where a write goes *)

(** The leader serves it; a follower that knows the leader's replica sends it to the URL that
    is configured under the leader's id, or says that it is missing. *)
Lemma write_route `{ReplicaOrder, ListSort} err_text ctx' m r s nodeURL :
  sv_nh s = true → table_ok s → is_Some (sv_replicaToNode s !! r) →
  let target := leaderBaseURL nodeURL (status_of err_text (Ok tt) ctx' (Ok (r, true)) m s) in
  ∃ id, replicaIDForNodeID id = Ok r ∧ sv_replicaToNode s !! r = Some id ∧
    target = if (r =? sv_localReplicaID s)%Z then Ok None
             else match nodeURL id with
                  | Some url => Ok (Some url)
                  | None => Err (Errorf "not leader: configure cluster.nodes.%s or target the raft leader" [AStr id])
                  end.
Proof.
  intros Hn Ht Hk. cbn zeta. destruct (status_of err_text (Ok tt) ctx' (Ok (r, true)) m s) as [st|e] eqn:E.
  2: { unfold status_of in E. rewrite Hn in E. by cbn in E. }
  pose proof (status_leader err_text ctx' m r s st Hn Ht Hk E) as (Hready & Hlead & Hid).
  destruct (Ht r _ Hid) as [Htr Hr]. exists (st_LeaderID st). split_and!; [done..|].
  unfold leaderBaseURL. cbn. rewrite Hready, Hlead. cbn. destruct (r =? sv_localReplicaID s)%Z; [done|].
  apply replicaID_nonblank in Hr as [Hnb _]. rewrite Htr in *. by rewrite (proj2 (String.eqb_neq _ _) Hnb).
Qed.

(** A follower that restarts only knows its own replica.  It then reports itself as the
    leader, and forwards writes to itself. *)
Definition restart_answers : open_answers :=
  mkOpen (λ a, Ok (a, Ok tt)) (Ok tt) (λ _ _, Ok tt) (λ _, true) (λ _ _ _, Ok tt).
Definition restart_config : RaftConfig := mkRaftConfig "10.0.0.2:7000" "" "" true [("node-a", "10.0.0.1:7000")].
Definition keys_order : ReplicaOrder := λ m, (map_to_list m).*1.

Lemma restarted_follower_reports_itself :
  let n := (raft_Start (H := merge_list_sort) restart_config "" restart_answers (NewNode "node-b")).2 in
  ∃ ra rb, replicaIDForNodeID "node-a" = Ok ra ∧ replicaIDForNodeID "node-b" = Ok rb ∧ ra ≠ rb ∧
  ∃ st, status_of (H := keys_order) (H0 := merge_list_sort) (λ _, "") (Ok tt) (Ok tt) (Ok (ra, true))
      (Ok (mkMembership {[ra := "10.0.0.1:7000"; rb := "10.0.0.2:7000"]} ∅ ∅)) (rn_service n) = Ok st ∧
    st_IsLeader st = false ∧ st_LeaderID st = "node-b" ∧ st_LeaderAddress st = "10.0.0.2:7000" ∧
    leaderBaseURL (λ id, Some ("http://" +:+ id)) (Ok st) = Ok (Some "http://node-b").
Proof.
  cbn zeta. do 2 eexists. split; [vm_compute; reflexivity|]. split; [vm_compute; reflexivity|]. split; [done|].
  eexists. split; [vm_compute; reflexivity|]. split_and!; vm_compute; reflexivity.
Qed.
