(* ===== verification/Vpn.v ===== *)
(** * The VPN: wire format, gateway, workstation daemon
    (internal/orchvpn: encap_v0.go, encap_ipv4.go, encap_dispatch.go, encap_loop.go,
     gateway_service.go, workstation_forward.go, daemon_workstation.go, config.go;
     config/dns.go: OrchVPNConfig)

    Frames of "orch-vpn/encap-v0" are byte strings; encoding and decoding, the dispatch of one
    datagram to an observer, the read loop of the gateway, and the two pumps between a TUN
    device and the tunnel.  A datagram socket and a TUN device are the lists of what they
    deliver and of what was written to them. *)
From stdpp Require Import base strings numbers list gmap relations.
From Stdlib Require Import Ascii.
From S2P Require Import Prelude GoStrings GoTime GoNet.

(** A Go byte slice. *)
Abbreviation bytes := (list ascii).

(** ** encap_v0.go *)
Definition encapV0HeaderLen : nat := 12.
Definition encapV0Magic : bytes := bytes_of "ORC0".
Definition byte (n : N) : ascii := ascii_of_N n.

Definition EncapV0MsgHeartbeat : ascii := byte 0.
Definition EncapV0MsgIPv4Payload : ascii := byte 1.
Definition EncapV0MsgHeartbeatACK : ascii := byte 2.

Definition MaxUint32 : N := 4294967295.

(** [binary.BigEndian.PutUint32] and [Uint32]; [byte(v)] keeps the low eight bits. *)
Definition PutUint32 (v : N) : bytes :=
  [byte (N.land (N.shiftr v 24) 255); byte (N.land (N.shiftr v 16) 255);
   byte (N.land (N.shiftr v 8) 255); byte (N.land v 255)].
Definition Uint32 (b : bytes) : N :=
  match b with
  | [b0; b1; b2; b3] =>
      N.lor (byte_val b3) (N.lor (N.shiftl (byte_val b2) 8)
        (N.lor (N.shiftl (byte_val b1) 16) (N.shiftl (byte_val b0) 24)))
  | _ => 0
  end.

(** [None]: the function panics. *)
Definition payloadLenUint32 (n : nat) : option N :=
  if (MaxUint32 <? N.of_nat n)%N then None else Some (N.of_nat n).

Definition EncodeEncapV0 (msgType : ascii) (payload : bytes) : option bytes :=
  len ← payloadLenUint32 (length payload);
  Some (encapV0Magic ++ [byte 0; msgType; byte 0; byte 0] ++ PutUint32 len ++ payload).

Definition DecodeEncapV0 (b : bytes) : res (ascii * bytes) :=
  if (length b <? encapV0HeaderLen)%nat then Err (Errorf "encap-v0: packet too short" [])
  else if negb (bool_decide (take 4 b = encapV0Magic)) then Err (Errorf "encap-v0: bad magic" [])
  else match drop 4 b with
       | version :: msgType :: _ =>
           if negb (byte_val version =? 0)%N
           then Err (Errorf "encap-v0: unsupported version %d" [AInt (Z.of_N (byte_val version))])
           else
             let plen := Uint32 (take 4 (drop 8 b)) in
             if (N.of_nat (length b) <? N.of_nat encapV0HeaderLen + plen)%N
             then Err (Errorf "encap-v0: payload length out of range" [])
             else Ok (msgType, take (N.to_nat plen) (drop encapV0HeaderLen b))
       | _ => Err (Errorf "encap-v0: packet too short" [])
       end.

(** ** encap_ipv4.go *)

(** [net.IP(b).String()] of a four-byte address *)
Definition ipv4_string (b : bytes) : string :=
  match b with
  | [a; b; c; d] =>
      Itoa (Z.of_N (byte_val a)) +:+ "." +:+ Itoa (Z.of_N (byte_val b)) +:+ "."
      +:+ Itoa (Z.of_N (byte_val c)) +:+ "." +:+ Itoa (Z.of_N (byte_val d))
  | _ => ""
  end.

Definition SummarizeEncapIPv4Payload (b : bytes) : option (string * string) :=
  if (length b <? 20)%nat then None
  else match b with
       | b0 :: _ =>
           if negb (N.shiftr (byte_val b0) 4 =? 4)%N then None
           else
             let ihl := (N.land (byte_val b0) 15 * 4)%N in
             if (ihl <? 20)%N || (N.of_nat (length b) <? ihl)%N then None
             else Some (ipv4_string (take 4 (drop 12 b)), ipv4_string (take 4 (drop 16 b)))
       | [] => None
       end.

(** ** encap_dispatch.go *)

(** What one datagram makes the handler do: the observer's calls and the datagrams written. *)
Inductive effect :=
| InvalidFrame (remote : string) (e : error) (packetBytes : nat)
| Heartbeat (remote : string)
| HeartbeatACK (remote : string)
| IPv4Inner (remote src dst : string) (inner : bytes)
| UnknownMessage (remote : string) (msgType : ascii) (payload : bytes)
| AckWriteFailed (remote : string) (e : error)
| WriteTo (remote : string) (packet : bytes).

Definition ErrEncapInvalidIPv4Inner : error := Errorf "encap-v0: invalid ipv4 inner" [].

(** [slogEncapObserver.Heartbeat] and [serveEncapObserver.Heartbeat] answer with this frame. *)
Definition heartbeat_ack : option bytes := EncodeEncapV0 EncapV0MsgHeartbeatACK [].

(** [writeErr] is the socket's answer to a write; [None] as a result: the handler panics. *)
Definition HandleEncapUDP (writeErr : option error) (remote : string) (packet : bytes)
    : option (list effect) :=
  match DecodeEncapV0 packet with
  | Err e => Some [InvalidFrame remote e (length packet)]
  | Ok (typ, payload) =>
      if Ascii.eqb typ EncapV0MsgHeartbeat then
        ack ← heartbeat_ack;
        Some (Heartbeat remote ::
          (if (0 <? length ack)%nat then
             match writeErr with
             | None => [WriteTo remote ack]
             | Some e => [WriteTo remote ack; AckWriteFailed remote e]
             end
           else []))
      else if Ascii.eqb typ EncapV0MsgHeartbeatACK then Some [HeartbeatACK remote]
      else if Ascii.eqb typ EncapV0MsgIPv4Payload then
        match SummarizeEncapIPv4Payload payload with
        | None => Some [InvalidFrame remote ErrEncapInvalidIPv4Inner (length packet)]
        | Some (src, dst) => Some [IPv4Inner remote src dst payload]
        end
      else Some [UnknownMessage remote typ payload]
  end.

(** ** encap_loop.go *)

(** One turn of the read loop: the context ended, the deadline could not be set, the read
    failed (a timeout included), or a datagram arrived. *)
Inductive turn :=
| TDone
| TDeadlineErr
| TReadErr
| TPacket (remote : string) (packet : bytes) (writeErr : option error).

Definition udp_buffer : nat := Z.to_nat 65535.

(** The effects of the turns, until the context ends; [None] when the handler panics. *)
Fixpoint runEncapReadLoop (turns : list turn) : option (list effect) :=
  match turns with
  | [] => Some []
  | TDone :: _ => Some []
  | TDeadlineErr :: r | TReadErr :: r => runEncapReadLoop r
  | TPacket remote packet writeErr :: r =>
      let got := take udp_buffer packet in
      es ← (if (0 <? length got)%nat then HandleEncapUDP writeErr remote got else Some []);
      es' ← runEncapReadLoop r;
      Some (es ++ es')
  end.

(** ** gateway_service.go: what [Start] and [Stop] do to the listener *)
Record OrchVPNConfig := mkVPNConfig { vpn_Enabled : bool; vpn_TunnelListenUDP : string }.

Definition ListenUDPOrDefault (c : OrchVPNConfig) : string :=
  let s := TrimSpace (vpn_TunnelListenUDP c) in
  if (s =? "")%string then ":15888" else s.

(** [g.cancel] is set; the read loops that run, which the wait group counts. *)
Record Gateway := mkGateway { g_cancel : bool; g_loops : nat }.

Definition gateway_Start (cfg : OrchVPNConfig) (listen : string → res unit) (g : Gateway)
    : res unit * Gateway :=
  if negb (vpn_Enabled cfg) then (Ok tt, g)
  else if g_cancel g then (Ok tt, g)
  else
    let addr := ListenUDPOrDefault cfg in
    match listen addr with
    | Err e => (Err (Wrapf e "listen udp %s" [AStr addr]), g)
    | Ok _ => (Ok tt, mkGateway true (S (g_loops g)))
    end.

(** [Stop] cancels and waits: a read loop looks at its context at least every two seconds, so
    the wait ends with no loop left. *)
Definition gateway_Stop (g : Gateway) : Gateway := mkGateway false 0.

(** ** workstation_forward.go: the pumps *)
Definition isIPv4Packet (packet : bytes) : bool :=
  match packet with [] => false | b0 :: _ => (N.shiftr (byte_val b0) 4 =? 4)%N end.

Definition decodeIPv4TunnelPayload (frame : bytes) : option bytes :=
  match DecodeEncapV0 frame with
  | Ok (typ, payload) =>
      if negb (Ascii.eqb typ EncapV0MsgIPv4Payload) then None
      else if isIPv4Packet payload then Some payload else None
  | Err _ => None
  end.

(** Reads from the device until it fails ([None]); a write that fails ends the pump.  The
    result is the frames handed to the socket; [None]: a panic. *)
Fixpoint pumpTUNToUDP (reads : list (option bytes)) (writeOK : bytes → bool) : option (list bytes) :=
  match reads with
  | [] | None :: _ => Some []
  | Some packet :: r =>
      let got := take udp_buffer packet in
      if negb (isIPv4Packet got) then pumpTUNToUDP r writeOK
      else
        frame ← EncodeEncapV0 EncapV0MsgIPv4Payload got;
        if negb (writeOK frame) then Some []
        else (cons frame) <$> pumpTUNToUDP r writeOK
  end.

(** The packets written to the device. *)
Fixpoint pumpUDPToTUN (reads : list (option bytes)) : list bytes :=
  match reads with
  | [] | None :: _ => []
  | Some datagram :: r =>
      match decodeIPv4TunnelPayload (take udp_buffer datagram) with
      | Some payload => payload :: pumpUDPToTUN r
      | None => pumpUDPToTUN r
      end
  end.

(** * The workstation daemon and its tunnel
    (internal/orchvpn: daemon_workstation.go, workstation_forward.go, config.go, workstation_conn.go)

    The daemon polls the control plane and starts, keeps or stops a forwarder: a goroutine that
    owns a TUN device and a socket, registered under a mutex as [tunCancel] and [fwdKey], and
    told apart from its successors by an epoch.  The daemon's critical sections and the steps
    of a forwarder are functions on the shared state; their interleavings are a step relation. *)
(** ** The control-plane poll (daemon_workstation.go) *)

(** The parts of the bootstrap answer the daemon uses. *)
Record Bootstrap := mkBootstrap { bt_Enabled : bool; bt_TunnelUDPPort : Z; bt_MTU : Z }.

Record ClientConfig := mkClient {
  cc_ControlPlaneURL : string; cc_BearerToken : string; cc_HealthPeriodSec : Z;
  cc_EnableTUN : bool; cc_TUNName : string }.

Definition Normalize (c : ClientConfig) : res ClientConfig :=
  let url := TrimRightByte (TrimSpace (cc_ControlPlaneURL c)) "/" in
  if (url =? "")%string then Err (Errorf "control plane URL is required" [])
  else Ok (mkClient url (cc_BearerToken c)
             (if (cc_HealthPeriodSec c <=? 0)%Z then 60 else cc_HealthPeriodSec c)
             (cc_EnableTUN c) (TrimSpace (cc_TUNName c))).

Record Daemon := mkDaemon { lastTunnelOK : bool; lastTunnelPeer : string }.

(** The calls into the data plane. *)
Inductive tunnel_call := CallStop | CallRestart (peer : string) (boot : Bootstrap).

Section poll.
(** What [url.Parse] and [Hostname] make of a URL: [None] when it does not parse. *)
Variable urlHostname : string → option string.
Variable cfg : ClientConfig.

Definition tunnelPeerFromBootstrap (controlPlaneURL : string) (boot : option Bootstrap) : option string :=
  match boot with
  | None => None
  | Some b =>
      if negb (bt_Enabled b) || (bt_TunnelUDPPort b <=? 0)%Z then None
      else match urlHostname controlPlaneURL with
           | None => None
           | Some host => if (host =? "")%string then None
                          else Some (JoinHostPort host (Itoa (bt_TunnelUDPPort b)))
           end
  end.

(** The socket's answers to one heartbeat exchange: dial, write, deadline, read. *)
Record exchange := mkExchange {
  x_dial : res unit; x_write : bytes → res unit; x_deadline : res unit; x_read : res bytes }.

Definition ack_buffer : nat := Z.to_nat 2048.

Definition sendEncapHeartbeat (x : exchange) : bool :=
  match x_dial x, EncodeEncapV0 EncapV0MsgHeartbeat [] with
  | Ok _, Some pkt =>
      match x_write x pkt, x_deadline x, x_read x with
      | Ok _, Ok _, Ok datagram =>
          match DecodeEncapV0 (take ack_buffer datagram) with
          | Ok (typ, _) => Ascii.eqb typ EncapV0MsgHeartbeatACK
          | Err _ => false
          end
      | _, _, _ => false
      end
  | _, _ => false
  end.

(** The answers one poll meets: [ctx.Err()] before it, the health check, [ctx.Err()] after a
    failed call, the bootstrap document, the heartbeat exchange. *)
Record answers := mkAnswers {
  an_ctx : option error; an_health : res unit; an_ctxLater : option error;
  an_boot : res (option Bootstrap); an_exchange : string → exchange }.

Definition stopped (d : Daemon) : res unit * Daemon * list tunnel_call := (Ok tt, d, [CallStop]).

Definition pulseTunnel (an : answers) (peer : string) (boot : Bootstrap) (d : Daemon)
    : res unit * Daemon * list tunnel_call :=
  if sendEncapHeartbeat (an_exchange an peer)
  then (Ok tt, mkDaemon true peer, [CallRestart peer boot])
  else stopped (mkDaemon false peer).

Definition handleBootstrap (an : answers) (boot : option Bootstrap) (d : Daemon)
    : res unit * Daemon * list tunnel_call :=
  match tunnelPeerFromBootstrap (cc_ControlPlaneURL cfg) boot, boot with
  | Some peer, Some b => pulseTunnel an peer b d
  | _, _ => stopped (mkDaemon false "")
  end.

Definition workstation_context (e : error) : error := Wrapf e "workstation context" [].

Definition refreshTunnelBootstrap (an : answers) (d : Daemon) : res unit * Daemon * list tunnel_call :=
  match an_boot an with
  | Err e =>
      match an_ctxLater an with
      | Some c => (Err (workstation_context c), d, [])
      | None => stopped (mkDaemon false "")
      end
  | Ok boot => handleBootstrap an boot d
  end.

Definition pollControlPlane (an : answers) (d : Daemon) : res unit * Daemon * list tunnel_call :=
  match an_ctx an with
  | Some c => (Err (workstation_context c), d, [])
  | None =>
      match an_health an with
      | Err e =>
          match an_ctxLater an with
          | Some c => (Err (workstation_context c), d, [])
          | None => stopped d
          end
      | Ok _ => refreshTunnelBootstrap an d
      end
  end.
End poll.

(** ** The data plane (workstation_forward.go) *)
Definition forwardSignature (peer : string) (boot : option Bootstrap) (tunName : string) : string :=
  peer +:+ "|" +:+ Itoa (if boot is Some b then bt_MTU b else 0%Z) +:+ "|" +:+ tunName.

(** Where a forwarder's goroutine is: forwarding; returned, about to compare epochs; about to
    take the mutex and clear; past its cleanup, about to leave the wait group. *)
Inductive phase := Forwarding | Returned | Clearing | Cleaned.
Record forwarder := mkForwarder { f_key : string; f_epoch : Z; f_canceled : bool; f_phase : phase }.

(** Where the daemon is: between calls; about to cancel a context, then waiting for the wait
    group, in a stop or in a restart. *)
Inductive control :=
| Idle
| StopCancel (c : nat) | StopWait
| RestartCancel (c : nat) (key : string) | RestartWait (key : string).

Record tunnel := mkTunnel {
  t_key : string; t_cancel : option nat; t_epoch : Z;
  t_forwarders : gmap nat forwarder; t_next : nat; t_main : control }.

Definition set_registration k c e (t : tunnel) : tunnel :=
  mkTunnel k c e (t_forwarders t) (t_next t) (t_main t).
Definition set_forwarders fs (t : tunnel) : tunnel :=
  mkTunnel (t_key t) (t_cancel t) (t_epoch t) fs (t_next t) (t_main t).
Definition set_main m (t : tunnel) : tunnel :=
  mkTunnel (t_key t) (t_cancel t) (t_epoch t) (t_forwarders t) (t_next t) m.

(** [d.tunEpoch.Add(1)] *)
Definition next_epoch (t : tunnel) : Z := wrap_uint64 (t_epoch t + 1).

(** The critical section of [stopTunnelDataPlane]. *)
Definition stop_section (t : tunnel) : tunnel :=
  let t' := set_registration "" None (next_epoch t) t in
  match t_cancel t with
  | Some c => set_main (StopCancel c) t'
  | None => t'
  end.

(** The end of [maybeRestartTunnelForward]: register and start a new forwarder. *)
Definition install (key : string) (t : tunnel) : tunnel :=
  let c := t_next t in
  let e := next_epoch t in
  mkTunnel key (Some c) e (<[c := mkForwarder key e false Forwarding]> (t_forwarders t)) (S c) Idle.

(** Its first critical section, for a known signature. *)
Definition restart_section (key : string) (t : tunnel) : tunnel :=
  match t_cancel t with
  | Some c =>
      if (t_key t =? key)%string then t
      else set_main (RestartCancel c key) (set_registration "" None (next_epoch t) t)
  | None => install key t
  end.

Definition cancel (c : nat) (t : tunnel) : tunnel :=
  set_forwarders (alter (λ f, mkForwarder (f_key f) (f_epoch f) true (f_phase f)) c (t_forwarders t)) t.

Definition set_phase (p : phase) (f : forwarder) : forwarder :=
  mkForwarder (f_key f) (f_epoch f) (f_canceled f) p.
Definition move (i : nat) (p : phase) (t : tunnel) : tunnel :=
  set_forwarders (alter (set_phase p) i (t_forwarders t)) t.

(** The deferred cleanup of a forwarder: compare, then clear under the mutex. *)
Definition compare_epoch (i : nat) (f : forwarder) (t : tunnel) : tunnel :=
  move i (if (t_epoch t =? f_epoch f)%Z then Clearing else Cleaned) t.
Definition clear_section (i : nat) (t : tunnel) : tunnel :=
  move i Cleaned (set_registration "" None (t_epoch t) t).

(** A call of the daemon, with its configuration. *)
Definition begin_call (cfg : ClientConfig) (c : tunnel_call) (t : tunnel) : tunnel :=
  match c with
  | CallStop => stop_section t
  | CallRestart peer boot =>
      if cc_EnableTUN cfg then restart_section (forwardSignature peer (Some boot) (cc_TUNName cfg)) t
      else stop_section t
  end.

Definition initial_tunnel : tunnel := mkTunnel "" None 0 ∅ 0 Idle.

(** The forwarders' own steps. *)
Inductive forwarder_step : tunnel → tunnel → Prop :=
| fs_return i f t :
    t_forwarders t !! i = Some f → f_phase f = Forwarding → forwarder_step t (move i Returned t)
| fs_compare i f t :
    t_forwarders t !! i = Some f → f_phase f = Returned → forwarder_step t (compare_epoch i f t)
| fs_clear i f t :
    t_forwarders t !! i = Some f → f_phase f = Clearing → forwarder_step t (clear_section i t)
| fs_done i f t :
    t_forwarders t !! i = Some f → f_phase f = Cleaned →
    forwarder_step t (set_forwarders (delete i (t_forwarders t)) t).

(** The daemon's steps; waiting ends when no forwarder is left. *)
Inductive tunnel_step (cfg : ClientConfig) : tunnel → tunnel → Prop :=
| ts_call c t : t_main t = Idle → tunnel_step cfg t (begin_call cfg c t)
| ts_stop_cancel c t : t_main t = StopCancel c → tunnel_step cfg t (set_main StopWait (cancel c t))
| ts_stop_wait t : t_main t = StopWait → t_forwarders t = ∅ → tunnel_step cfg t (set_main Idle t)
| ts_restart_cancel c key t :
    t_main t = RestartCancel c key → tunnel_step cfg t (set_main (RestartWait key) (cancel c t))
| ts_restart_wait key t :
    t_main t = RestartWait key → t_forwarders t = ∅ → tunnel_step cfg t (install key t)
| ts_forwarder t t' : forwarder_step t t' → tunnel_step cfg t t'.
