(* ===== verification/VpnSpec.v ===== *)
(** * What the VPN frames guarantee

    Decoding is characterised exactly (so encoding is undone by it, trailing bytes included),
    the gateway answers heartbeats and nothing else and never panics, and the two pumps carry
    the IPv4 packets of a TUN device to the other end unchanged and in order. *)
From stdpp Require Import base strings numbers list relations gmap.
From Stdlib Require Import Ascii.
From S2P Require Import Prelude GoStrings GoTime GoNet Vpn.

(** ** Bytes and 32-bit words *)
Lemma byte_lt b : (byte_val b < 256)%N.
Proof. apply N_ascii_bounded. Qed.
Lemma byte_val_byte n : (n < 256)%N → byte_val (byte n) = n.
Proof. apply N_ascii_embedding. Qed.
Lemma byte_byte_val b : byte (byte_val b) = b.
Proof. apply ascii_N_embedding. Qed.

Lemma byte_bits b i : (8 ≤ i)%N → N.testbit (byte_val b) i = false.
Proof.
  intros Hi. rewrite <-(N.mod_small (byte_val b) (2 ^ 8)) by apply byte_lt.
  by apply N.mod_pow2_bits_high.
Qed.

Lemma low_byte v : byte_val (byte (N.land v 255)) = N.land v 255.
Proof.
  apply byte_val_byte. change 255%N with (N.ones 8). rewrite N.land_ones. by apply N.mod_lt.
Qed.

Lemma testbit_255 i : N.testbit 255 i = (i <? 8)%N.
Proof.
  change 255%N with (N.ones 8). destruct (N.ltb_spec i 8).
  - by apply N.ones_spec_low.
  - by apply N.ones_spec_high.
Qed.

(** A shift that loses nothing, bit by bit. *)
Lemma shiftl_bits v k i : N.testbit (N.shiftl v k) i = (k <=? i)%N && N.testbit v (i - k).
Proof.
  destruct (N.leb_spec k i).
  - by rewrite N.shiftl_spec_high' by lia.
  - by rewrite N.shiftl_spec_low.
Qed.

Lemma Uint32_PutUint32 v : (v ≤ MaxUint32)%N → Uint32 (PutUint32 v) = v.
Proof.
  intros Hv. unfold Uint32, PutUint32. rewrite !low_byte. apply N.bits_inj. intros i.
  assert (Hhi : (32 ≤ i)%N → N.testbit v i = false).
  { intros Hi. rewrite <-(N.mod_small v (2 ^ 32)) by (unfold MaxUint32 in Hv; lia).
    by apply N.mod_pow2_bits_high. }
  rewrite !N.lor_spec, !shiftl_bits, !N.land_spec, !testbit_255, !N.shiftr_spec by lia.
  destruct (N.ltb_spec i 8), (N.leb_spec 8 i), (N.leb_spec 16 i), (N.leb_spec 24 i); try lia;
    destruct (N.ltb_spec (i - 8) 8), (N.ltb_spec (i - 16) 8), (N.ltb_spec (i - 24) 8); try lia;
    rewrite ?andb_true_r, ?andb_false_r, ?orb_false_r, ?orb_false_l, ?andb_true_l;
    try (f_equal; lia); rewrite Hhi by lia; done.
Qed.

Lemma Uint32_bound l : (Uint32 l ≤ MaxUint32)%N.
Proof.
  destruct l as [|b0 [|b1 [|b2 [|b3 [|]]]]]; try done.
  assert (Uint32 [b0; b1; b2; b3] `mod` 2 ^ 32 = Uint32 [b0; b1; b2; b3])%N as <-.
  { apply N.bits_inj. intros i. destruct (N.ltb_spec i 32).
    - by apply N.mod_pow2_bits_low.
    - rewrite N.mod_pow2_bits_high by done. unfold Uint32.
      rewrite !N.lor_spec, !shiftl_bits, !byte_bits by lia. by rewrite !andb_false_r. }
  pose proof (N.mod_lt (Uint32 [b0; b1; b2; b3]) (2 ^ 32)). unfold MaxUint32. lia.
Qed.

Lemma PutUint32_Uint32 l : length l = 4%nat → PutUint32 (Uint32 l) = l.
Proof.
  destruct l as [|b0 [|b1 [|b2 [|b3 [|]]]]]; try done. intros _.
  assert (∀ k b, (∀ i, (i < 8)%N → N.testbit (Uint32 [b0; b1; b2; b3]) (i + k) = N.testbit (byte_val b) i) →
    byte (N.land (N.shiftr (Uint32 [b0; b1; b2; b3]) k) 255) = b) as K.
  { intros k b Hb. transitivity (byte (byte_val b)); [f_equal|apply byte_byte_val]. apply N.bits_inj. intros i.
    rewrite N.land_spec, testbit_255, N.shiftr_spec by lia. destruct (N.ltb_spec i 8).
    - by rewrite Hb, andb_true_r.
    - by rewrite andb_false_r, byte_bits. }
  unfold PutUint32. rewrite <-(N.shiftr_0_r (Uint32 _)) at 4.
  f_equal; [|f_equal; [|f_equal; [|f_equal]]]; apply K; intros i Hi; unfold Uint32;
    rewrite !N.lor_spec, !shiftl_bits;
    repeat match goal with |- context [(?a <=? ?b)%N] => destruct (N.leb_spec a b); try lia end;
    rewrite ?andb_true_l, ?andb_false_l, ?orb_false_r;
    repeat (rewrite (byte_bits _ (_ - _)) by lia); repeat (rewrite (byte_bits _ (_ + _)) by lia);
    rewrite ?orb_false_l, ?orb_false_r; f_equal; lia.
Qed.

(** ** Frames *)

(** The layout of the documentation: magic, version 0, type, two reserved bytes, the length,
    the payload, and whatever the datagram holds after it. *)
Definition frame_layout (b : bytes) (typ : ascii) (payload : bytes) : Prop :=
  (N.of_nat (length payload) ≤ MaxUint32)%N ∧
  ∃ r1 r2 trailing,
    b = encapV0Magic ++ [byte 0; typ; r1; r2] ++ PutUint32 (N.of_nat (length payload)) ++ payload ++ trailing.

Lemma decode_layout b typ payload :
  frame_layout b typ payload → DecodeEncapV0 b = Ok (typ, payload).
Proof.
  intros (Hlen & r1 & r2 & tr & ->). unfold DecodeEncapV0.
  set (l4 := PutUint32 _). assert (H4 : length l4 = 4%nat) by done.
  assert (HU : Uint32 l4 = N.of_nat (length payload)) by (by apply Uint32_PutUint32).
  clearbody l4. destruct l4 as [|a0 [|a1 [|a2 [|a3 [|]]]]]; try done.
  cbn [encapV0Magic bytes_of app length drop take]. rewrite bool_decide_eq_true_2 by done. cbn [negb].
  rewrite (proj2 (Nat.ltb_ge _ _)) by (unfold encapV0HeaderLen; lia).
  change (byte_val (byte 0) =? 0)%N with true. cbn [negb encapV0HeaderLen drop]. rewrite take_0, HU.
  rewrite (proj2 (N.ltb_ge _ _)) by (unfold encapV0HeaderLen; rewrite length_app; lia).
  rewrite Nat2N.id. unfold encapV0HeaderLen. cbn [drop]. by rewrite drop_0, take_app_length.
Qed.

Lemma decode_ok b typ payload :
  DecodeEncapV0 b = Ok (typ, payload) → frame_layout b typ payload.
Proof.
  unfold DecodeEncapV0, encapV0HeaderLen. destruct (Nat.ltb_spec (length b) 12) as [|Hb]; [done|].
  case_bool_decide as Hm; [|done]. cbn [negb].
  do 12 (destruct b as [|? b]; [cbn in Hb; lia|]). cbn [drop take] in *.
  destruct (N.eqb_spec (byte_val a3) 0) as [Hv|]; [|done]. cbn [negb].
  set (plen := Uint32 _). destruct (N.ltb_spec (N.of_nat (length (a :: a0 :: a1 :: a2 :: a3 :: a4 :: a5 :: a6
    :: a7 :: a8 :: a9 :: a10 :: b))) (N.of_nat 12 + plen)) as [|Hle]; [done|].
  intros [= <- <-]. cbn [length] in Hle.
  assert (length (take (N.to_nat plen) b) = N.to_nat plen) as HL by (apply length_take_le; lia).
  unfold frame_layout. rewrite !drop_0, HL, N2Nat.id. split; [apply Uint32_bound|].
  exists a5, a6, (drop (N.to_nat plen) b). subst plen. rewrite PutUint32_Uint32 by done.
  rewrite take_drop. rewrite <-Hm. assert (a3 = byte 0) as -> by (by rewrite <-(byte_byte_val a3), Hv). done.
Qed.

Lemma decode_iff b typ payload : DecodeEncapV0 b = Ok (typ, payload) ↔ frame_layout b typ payload.
Proof. split; [apply decode_ok|apply decode_layout]. Qed.

Lemma encode_some typ payload :
  (N.of_nat (length payload) ≤ MaxUint32)%N →
  EncodeEncapV0 typ payload = Some (encapV0Magic ++ [byte 0; typ; byte 0; byte 0]
    ++ PutUint32 (N.of_nat (length payload)) ++ payload).
Proof. intros Hl. unfold EncodeEncapV0, payloadLenUint32. by rewrite (proj2 (N.ltb_ge _ _)). Qed.

Lemma encode_frame typ payload frame :
  EncodeEncapV0 typ payload = Some frame →
  length frame = (12 + length payload)%nat ∧ ∀ trailing, frame_layout (frame ++ trailing) typ payload.
Proof.
  unfold EncodeEncapV0, payloadLenUint32. destruct (N.ltb_spec MaxUint32 (N.of_nat (length payload))); [done|].
  cbn [mbind option_bind]. intros Hf. apply (inj Some) in Hf as <-. split; [by rewrite !length_app|].
  intros tr. split; [done|]. exists (byte 0), (byte 0), tr. by rewrite <-!app_assoc.
Qed.

Lemma decode_encode typ payload frame trailing :
  EncodeEncapV0 typ payload = Some frame → DecodeEncapV0 (frame ++ trailing) = Ok (typ, payload).
Proof. intros Hf. apply decode_layout. by apply (encode_frame _ _ _ Hf). Qed.

(** ** The gateway *)
Definition ack_frame : bytes := Eval vm_compute in default [] heartbeat_ack.

Lemma heartbeat_ack_frame : heartbeat_ack = Some ack_frame.
Proof. by vm_compute. Qed.

(** The datagrams a turn or an effect puts on the socket. *)
Definition written (e : effect) : option (string * bytes) :=
  match e with WriteTo remote packet => Some (remote, packet) | _ => None end.

(** A turn that carries a heartbeat (as much of it as the read buffer holds). *)
Definition heartbeat_from (t : turn) : option string :=
  match t with
  | TPacket remote packet _ =>
      match DecodeEncapV0 (take udp_buffer packet) with
      | Ok (typ, _) => if Ascii.eqb typ EncapV0MsgHeartbeat then Some remote else None
      | Err _ => None
      end
  | _ => None
  end.

(** The turns up to the end of the context. *)
Fixpoint before_done (turns : list turn) : list turn :=
  match turns with
  | [] | TDone :: _ => []
  | t :: r => t :: before_done r
  end.

Lemma handle_writes writeErr remote packet :
  ∃ es, HandleEncapUDP writeErr remote packet = Some es ∧
    omap written es = match DecodeEncapV0 packet with
                      | Ok (typ, _) => if Ascii.eqb typ EncapV0MsgHeartbeat then [(remote, ack_frame)] else []
                      | Err _ => []
                      end.
Proof.
  unfold HandleEncapUDP. destruct (DecodeEncapV0 packet) as [[typ payload]|e]; [|eauto].
  destruct (Ascii.eqb typ EncapV0MsgHeartbeat).
  { rewrite heartbeat_ack_frame. cbn [mbind option_bind]. eexists. split; [done|]. by destruct writeErr. }
  destruct (Ascii.eqb typ EncapV0MsgHeartbeatACK); [eauto|].
  destruct (Ascii.eqb typ EncapV0MsgIPv4Payload); [|eauto].
  destruct (SummarizeEncapIPv4Payload payload) as [[? ?]|]; eauto.
Qed.

Lemma read_loop_writes turns :
  ∃ es, runEncapReadLoop turns = Some es ∧
    omap written es = (λ remote, (remote, ack_frame)) <$> omap heartbeat_from (before_done turns).
Proof.
  induction turns as [|[| | |remote packet we] turns (es' & IH & Hw)]; cbn [runEncapReadLoop before_done];
    [by eauto|by eauto|by eauto|by eauto|].
  cbn zeta. rewrite IH. cbn [omap list_omap heartbeat_from].
  destruct (handle_writes we remote (take udp_buffer packet)) as (es & He & Hes).
  destruct (Nat.ltb_spec 0 (length (take udp_buffer packet))) as [|Hz].
  - rewrite He. cbn [mbind option_bind]. eexists. split; [done|]. rewrite omap_app, Hes, Hw.
    destruct (DecodeEncapV0 _) as [[typ p]|]; [|done]. by destruct (Ascii.eqb typ _).
  - cbn [mbind option_bind]. eexists. split; [done|].
    destruct (take udp_buffer packet); [done|cbn in Hz; lia].
Qed.

(** ** The pumps *)
Lemma decode_tunnel payload frame :
  EncodeEncapV0 EncapV0MsgIPv4Payload payload = Some frame → isIPv4Packet payload = true →
  decodeIPv4TunnelPayload frame = Some payload.
Proof.
  intros Hf Hp. unfold decodeIPv4TunnelPayload. rewrite <-(app_nil_r frame), (decode_encode _ _ _ [] Hf).
  rewrite Ascii.eqb_refl. cbn. by rewrite Hp.
Qed.

Lemma decode_tunnel_ipv4 frame payload :
  decodeIPv4TunnelPayload frame = Some payload →
  isIPv4Packet payload = true ∧ frame_layout frame EncapV0MsgIPv4Payload payload.
Proof.
  unfold decodeIPv4TunnelPayload. destruct (DecodeEncapV0 frame) as [[typ p]|] eqn:E; [|done].
  destruct (Ascii.eqb_spec typ EncapV0MsgIPv4Payload) as [->|]; [|done]. cbn.
  destruct (isIPv4Packet p) eqn:Hp; [|done]. intros [= <-]. split; [done|]. by apply decode_ok.
Qed.

(** What fits: the frame of a packet must fit the receiver's buffer. *)
Definition tunnel_mtu : nat := Z.to_nat 65523.

Lemma pumps_carry packets writeOK :
  Forall (λ p, length p ≤ tunnel_mtu) packets → (∀ f, writeOK f = true) →
  ∃ frames, pumpTUNToUDP (Some <$> packets) writeOK = Some frames ∧
    pumpUDPToTUN (Some <$> frames) = filter (λ p, isIPv4Packet p = true) packets.
Proof.
  intros Hp Hw. unfold tunnel_mtu in Hp. induction Hp as [|p packets Hl _ (frames & IH & Hd)]; [by exists []|].
  cbn [fmap list_fmap pumpTUNToUDP]. cbn zeta.
  rewrite take_ge by (unfold udp_buffer; lia). destruct (isIPv4Packet p) eqn:E; cbn [negb].
  - assert (HM : (N.of_nat (length p) ≤ MaxUint32)%N) by (unfold MaxUint32; lia).
    destruct (EncodeEncapV0 EncapV0MsgIPv4Payload p) as [frame|] eqn:Ef;
      [|by rewrite encode_some in Ef]. cbn [mbind option_bind]. rewrite Hw. cbn [negb].
    exists (frame :: frames). split; [by rewrite IH|].
    destruct (encode_frame _ _ _ Ef) as [Hlen _]. cbn [pumpUDPToTUN fmap list_fmap].
    rewrite take_ge by (unfold udp_buffer; lia). rewrite (decode_tunnel p frame Ef E), Hd.
    by rewrite filter_cons_True.
  - exists frames. split; [done|]. rewrite filter_cons_False by (by rewrite E). done.
Qed.

(** ** Starting and stopping the gateway *)
Definition gateway_ok (g : Gateway) : Prop := g_loops g = if g_cancel g then 1%nat else 0%nat.

Inductive gateway_step (cfg : OrchVPNConfig) : Gateway → Gateway → Prop :=
| gw_start listen g : gateway_step cfg g (gateway_Start cfg listen g).2
| gw_stop g : gateway_step cfg g (gateway_Stop g).

Lemma gateway_step_ok cfg g g' : gateway_step cfg g g' → gateway_ok g → gateway_ok g'.
Proof.
  intros [listen ?|?]; unfold gateway_ok, gateway_Start; [|done].
  repeat case_match; cbn in *; congruence.
Qed.

Lemma gateway_reachable_ok cfg g : rtc (gateway_step cfg) (mkGateway false 0) g → gateway_ok g.
Proof.
  intros Hr. assert (gateway_ok (mkGateway false 0)) as Hi by done. revert Hi.
  induction Hr as [|g1 g2 g3 Hs _ IH]; [done|]. intros Hi. by eapply IH, gateway_step_ok.
Qed.

(** * The tunnel of the workstation: what every interleaving keeps

    At most one forwarder is registered or still to clean up after itself, a forwarder clears
    no registration but its own, the registered signature is that of a running forwarder, and
    a daemon that waits can always be released. *)
Definition unfinished (f : forwarder) : Prop := f_phase f ≠ Cleaned.

Record tunnel_inv (t : tunnel) : Prop := {
  ti_fresh : ∀ i, is_Some (t_forwarders t !! i) → i < t_next t;
  ti_some : ∀ c, t_cancel t = Some c → t_main t = Idle ∧
    ∃ f, t_forwarders t !! c = Some f ∧ unfinished f ∧ f_canceled f = false ∧
      f_key f = t_key t ∧ f_epoch f = t_epoch t;
  ti_none : t_cancel t = None → t_key t = "";
  ti_idle : t_main t = Idle → ∀ i f, t_forwarders t !! i = Some f → unfinished f → t_cancel t = Some i;
  ti_one : ∀ i j f g, t_forwarders t !! i = Some f → t_forwarders t !! j = Some g →
    unfinished f → unfinished g → i = j }.

Lemma initial_tunnel_inv : tunnel_inv initial_tunnel.
Proof. split; cbn; [intros i [f Hf]|done..|]; intros; simplify_map_eq. Qed.

(** *** The daemon's sections *)
Lemma unregister_inv m t :
  tunnel_inv t → m ≠ Idle → tunnel_inv (set_main m (set_registration "" None (next_epoch t) t)).
Proof. intros [????]. by split. Qed.

Lemma stop_section_inv t : tunnel_inv t → t_main t = Idle → tunnel_inv (stop_section t).
Proof.
  intros Hi Hm. unfold stop_section. cbn zeta. destruct (t_cancel t) as [c|] eqn:Hc.
  - by apply unregister_inv.
  - destruct Hi as [Hf Hs Hn Hidle Ho]. split; cbn; try done.
    intros _ i f Hl Hu. exfalso. pose proof (Hidle Hm i f Hl Hu). congruence.
Qed.

Lemma install_inv key t :
  tunnel_inv t → (∀ i f, t_forwarders t !! i = Some f → ¬ unfinished f) → tunnel_inv (install key t).
Proof.
  intros [Hf Hs Hn Hidle Ho] Hq. split; cbn.
  - intros i Hi. destruct (decide (i = t_next t)) as [->|Hne]; [lia|].
    rewrite lookup_insert_ne in Hi by done. specialize (Hf i Hi). lia.
  - intros c [= <-]. split; [done|]. eexists. rewrite lookup_insert_eq. by split_and!.
  - done.
  - intros _ i f Hl Hu. destruct (decide (i = t_next t)) as [->|Hne]; [done|].
    rewrite lookup_insert_ne in Hl by done. by destruct (Hq i f Hl).
  - intros i j f g Hi Hj Hu Hv.
    assert (∀ k h, <[t_next t := mkForwarder key (next_epoch t) false Forwarding]> (t_forwarders t) !! k = Some h →
      unfinished h → k = t_next t) as K.
    { intros k h Hk Hh. destruct (decide (k = t_next t)) as [|Hne]; [done|].
      rewrite lookup_insert_ne in Hk by done. by destruct (Hq k h Hk). }
    by rewrite (K i f), (K j g).
Qed.

Lemma restart_section_inv key t : tunnel_inv t → t_main t = Idle → tunnel_inv (restart_section key t).
Proof.
  intros Hi Hm. unfold restart_section. destruct (t_cancel t) as [c|] eqn:Hc.
  - case_match; [done|]. by apply unregister_inv.
  - apply install_inv; [done|]. intros i f Hl Hu. pose proof (ti_idle _ Hi Hm i f Hl Hu). congruence.
Qed.

Lemma begin_call_inv cfg c t : tunnel_inv t → t_main t = Idle → tunnel_inv (begin_call cfg c t).
Proof.
  intros. destruct c as [|peer boot]; cbn; [by apply stop_section_inv|].
  case_match; [by apply restart_section_inv|by apply stop_section_inv].
Qed.

(** Changing one forwarder: a finished one stays finished, a registered one stays as registered. *)
Lemma alter_inv (g : forwarder → forwarder) i t :
  tunnel_inv t →
  (∀ f, t_forwarders t !! i = Some f → unfinished (g f) → unfinished f) →
  (t_cancel t = Some i → ∀ f, unfinished f → f_canceled f = false →
     unfinished (g f) ∧ f_canceled (g f) = false ∧ f_key (g f) = f_key f ∧ f_epoch (g f) = f_epoch f) →
  tunnel_inv (set_forwarders (alter g i (t_forwarders t)) t).
Proof.
  intros [Hf Hs Hn Hidle Ho] Hg Hreg.
  assert (∀ j f, alter g i (t_forwarders t) !! j = Some f →
    ∃ f', t_forwarders t !! j = Some f' ∧ (unfinished f → unfinished f')) as K.
  { intros j f Hj. destruct (decide (i = j)) as [<-|Hne].
    - rewrite lookup_alter_eq in Hj. apply fmap_Some in Hj as (f' & ? & ->). eauto.
    - rewrite lookup_alter_ne in Hj by done. eauto. }
  split; cbn; [|intros c Hc|done| |].
  - intros j [f Hj]. destruct (K j f Hj) as (? & ? & _). eauto.
  - destruct (Hs c Hc) as (Hm & f & Hl & Hu & Hcf & Hk & He). split; [done|].
    destruct (decide (i = c)) as [<-|Hne].
    + destruct (Hreg Hc f Hu Hcf) as (? & ? & ? & ?). exists (g f). rewrite lookup_alter_eq, Hl.
      split_and!; [done..|congruence|congruence].
    + exists f. by rewrite lookup_alter_ne.
  - intros Hm j f Hj Hu. destruct (K j f Hj) as (f' & ? & ?). eauto.
  - intros j k f h Hj Hk Hu Hv. destruct (K j f Hj) as (? & ? & ?), (K k h Hk) as (? & ? & ?). eauto.
Qed.

Lemma set_main_inv m t :
  tunnel_inv t → t_cancel t = None → (m = Idle → t_forwarders t = ∅) → tunnel_inv (set_main m t).
Proof.
  intros [Hf Hs Hn Hidle Ho] Hc Hm. split; cbn; try done.
  - intros c. by rewrite Hc.
  - intros E i f Hl. rewrite (Hm E) in Hl. by rewrite lookup_empty in Hl.
Qed.

Lemma busy_unregistered t : tunnel_inv t → t_main t ≠ Idle → t_cancel t = None.
Proof.
  intros Hi Hm. destruct (t_cancel t) as [c|] eqn:Hc; [|done]. by destruct (ti_some _ Hi c Hc).
Qed.

Lemma cancel_inv c m t :
  tunnel_inv t → t_main t ≠ Idle → m ≠ Idle → tunnel_inv (set_main m (cancel c t)).
Proof.
  intros Hi Hb Hm. pose proof (busy_unregistered _ Hi Hb). apply set_main_inv; [|done|done].
  apply alter_inv; [done|done|congruence].
Qed.

(** *** The forwarders' steps *)
Lemma move_inv i f p t :
  tunnel_inv t → t_forwarders t !! i = Some f → unfinished f → p ≠ Cleaned → tunnel_inv (move i p t).
Proof.
  intros Hi Hf Hu Hp. apply alter_inv; [done| |].
  - intros f' Hf' _. by simplify_eq.
  - intros _ f' Hu' Hc. by split_and!.
Qed.

Lemma retire_inv i t : tunnel_inv t → t_cancel t = None → tunnel_inv (move i Cleaned t).
Proof. intros Hi Hc. apply alter_inv; [done| |congruence]. intros f _ []. done. Qed.

Lemma compare_inv i f t :
  tunnel_inv t → t_forwarders t !! i = Some f → unfinished f → tunnel_inv (compare_epoch i f t).
Proof.
  intros Hi Hf Hu. unfold compare_epoch. destruct (Z.eqb_spec (t_epoch t) (f_epoch f)) as [|Hne].
  - by eapply move_inv.
  - apply retire_inv; [done|]. destruct (t_cancel t) as [c|] eqn:Hc; [|done].
    destruct (ti_some _ Hi c Hc) as (_ & g & Hg & Hv & _ & _ & He).
    assert (c = i) as -> by (by eapply (ti_one _ Hi)). congruence.
Qed.

Lemma clear_inv i f t :
  tunnel_inv t → t_forwarders t !! i = Some f → unfinished f → tunnel_inv (clear_section i t).
Proof.
  intros [Hf Hs Hn Hidle Ho] Hl Hu.
  assert (∀ j g, alter (set_phase Cleaned) i (t_forwarders t) !! j = Some g →
    ¬ unfinished g ∧ is_Some (t_forwarders t !! j)) as K.
  { intros j g. destruct (decide (i = j)) as [<-|Hne].
    - rewrite lookup_alter_eq, Hl. intros [= <-]. split; [|done]. intros []. done.
    - rewrite lookup_alter_ne by done. intros Hg. split; [|done]. intros Hv. by destruct Hne; eapply Ho. }
  split; cbn; [| done | done | |].
  - intros j [g Hg]. apply Hf. by destruct (K j g Hg).
  - intros _ j g Hg Hv. by destruct (K j g Hg).
  - intros j k g h Hg _ Hv. by destruct (K j g Hg).
Qed.

Lemma forget_inv i f t :
  tunnel_inv t → t_forwarders t !! i = Some f → f_phase f = Cleaned →
  tunnel_inv (set_forwarders (delete i (t_forwarders t)) t).
Proof.
  intros [Hf Hs Hn Hidle Ho] Hl Hp.
  assert (∀ j g, delete i (t_forwarders t) !! j = Some g → t_forwarders t !! j = Some g) as K
    by (intros j g Hg; apply lookup_delete_Some in Hg as [_ ?]; done).
  split; cbn; [| |done| |].
  - intros j [g Hg]. apply Hf. eauto.
  - intros c Hc. destruct (Hs c Hc) as (Hm & g & Hg & Hu & Hrest). split; [done|]. exists g.
    rewrite lookup_delete_ne by (intros ->; by simplify_eq). done.
  - eauto.
  - eauto.
Qed.

Lemma forwarder_step_inv t t' : forwarder_step t t' → tunnel_inv t → tunnel_inv t'.
Proof.
  intros [i f ? Hl Hp|i f ? Hl Hp|i f ? Hl Hp|i f ? Hl Hp] Hi.
  - eapply move_inv; [done..| |done]. unfold unfinished. by rewrite Hp.
  - eapply compare_inv; [done..|]. unfold unfinished. by rewrite Hp.
  - eapply clear_inv; [done..|]. unfold unfinished. by rewrite Hp.
  - by eapply forget_inv.
Qed.

Lemma tunnel_step_inv cfg t t' : tunnel_step cfg t t' → tunnel_inv t → tunnel_inv t'.
Proof.
  intros [c ? Hm|c ? Hm|? Hm He|c key ? Hm|key ? Hm He|? ? Hs] Hi.
  - by apply begin_call_inv.
  - apply cancel_inv; [done|congruence|done].
  - apply set_main_inv; [done|apply busy_unregistered; [done|congruence]|done].
  - apply cancel_inv; [done|congruence|done].
  - apply install_inv; [done|]. intros i f. by rewrite He, lookup_empty.
  - by eapply forwarder_step_inv.
Qed.

Lemma tunnel_reachable_inv cfg t : rtc (tunnel_step cfg) initial_tunnel t → tunnel_inv t.
Proof.
  intros Hr. assert (tunnel_inv initial_tunnel) as Hi by apply initial_tunnel_inv. revert Hi.
  induction Hr as [|t1 t2 t3 Hs _ IH]; [done|]. intros Hi. by eapply IH, tunnel_step_inv.
Qed.

(** *** Progress *)

(** How many steps a forwarder is from leaving the wait group, at most. *)
Definition steps_left (f : forwarder) : nat :=
  match f_phase f with Forwarding => 4 | Returned => 3 | Clearing => 2 | Cleaned => 1 end.
Definition weigh (fs : gmap nat forwarder) : nat := map_fold (λ _ f n, steps_left f + n) 0 fs.
Definition total_left (t : tunnel) : nat := weigh (t_forwarders t).

Lemma total_delete i f (fs : gmap nat forwarder) :
  fs !! i = Some f →
  weigh fs = steps_left f + weigh (delete i fs).
Proof. intros Hi. apply (map_fold_delete_L (λ _ f n, steps_left f + n) 0 i f fs); [intros ???????; lia|done]. Qed.

Lemma total_alter i f g (fs : gmap nat forwarder) :
  fs !! i = Some f → steps_left (g f) < steps_left f →
  weigh (alter g i fs) < weigh fs.
Proof.
  intros Hi Hg. rewrite (total_delete i f fs) by done.
  rewrite (total_delete i (g f) (alter g i fs)) by (by rewrite lookup_alter_eq, Hi).
  rewrite delete_alter_eq. lia.
Qed.

Lemma forwarder_progress t i f :
  t_forwarders t !! i = Some f →
  ∃ t', forwarder_step t t' ∧ t_main t' = t_main t ∧ total_left t' < total_left t.
Proof.
  intros Hl. destruct (f_phase f) eqn:Hp; eexists; (split; [by econstructor|split; [done|]]).
  - apply (total_alter i f); [done|]. unfold steps_left. rewrite Hp. cbn. lia.
  - apply (total_alter i f); [done|]. unfold steps_left. rewrite Hp. cbn. destruct (_ =? _)%Z; lia.
  - apply (total_alter i f); [done|]. unfold steps_left. rewrite Hp. cbn. lia.
  - unfold total_left. rewrite (total_delete i f (t_forwarders t)) by done. unfold steps_left.
    rewrite Hp. cbn. lia.
Qed.

(** The forwarders alone can always run to the end of their wait group. *)
Lemma drain t : ∃ t', rtc forwarder_step t t' ∧ t_main t' = t_main t ∧ t_forwarders t' = ∅.
Proof.
  remember (total_left t) as n eqn:Hn. revert t Hn.
  induction (lt_wf n) as [n _ IH]. intros t ->.
  destruct (decide (t_forwarders t = ∅)) as [|Hne]; [by exists t|].
  apply map_choose in Hne as (i & f & Hl). destruct (forwarder_progress t i f Hl) as (t1 & Hs & Hm & Hlt).
  destruct (IH _ Hlt t1 eq_refl) as (t2 & Hr & Hm2 & He). exists t2. split_and!; [by eapply rtc_l|congruence|done].
Qed.

(** A daemon that is busy can come back to [Idle], with the registration its call asked for. *)
Lemma back_to_idle cfg t : ∃ t', rtc (tunnel_step cfg) t t' ∧ t_main t' = Idle.
Proof.
  assert (∀ a b, rtc forwarder_step a b → rtc (tunnel_step cfg) a b) as Hsub
    by (intros a b; apply rtc_subrel; intros; by constructor).
  assert (∀ u, t_main u = StopWait ∨ (∃ key, t_main u = RestartWait key) →
    ∃ t', rtc (tunnel_step cfg) u t' ∧ t_main t' = Idle) as Hwait.
  { intros u Hu. destruct (drain u) as (v & Hr & Hm & He). destruct Hu as [Hu|[key Hu]].
    - exists (set_main Idle v). split; [|done]. eapply rtc_r; [by apply Hsub|].
      apply ts_stop_wait; [congruence|done].
    - exists (install key v). split; [|done]. eapply rtc_r; [by apply Hsub|].
      apply ts_restart_wait; [congruence|done]. }
  destruct (t_main t) as [|c| |c key|key] eqn:Hm; [by exists t| | | |]; try (by apply Hwait; eauto).
  - destruct (Hwait (set_main StopWait (cancel c t))) as (t' & Hr & Hi); [by left|].
    exists t'. split; [|done]. eapply rtc_l; [by apply ts_stop_cancel|done].
  - destruct (Hwait (set_main (RestartWait key) (cancel c t))) as (t' & Hr & Hi); [right; by exists key|].
    exists t'. split; [|done]. eapply rtc_l; [by apply ts_restart_cancel|done].
Qed.

(** *** What the daemon asked for *)

(** The signature that will be registered when the daemon is idle again. *)
Definition target (t : tunnel) : string :=
  match t_main t with
  | Idle => t_key t
  | StopCancel _ | StopWait => ""
  | RestartCancel _ key | RestartWait key => key
  end.

(** The signature a call asks for; none for a stop. *)
Definition wanted (cfg : ClientConfig) (c : tunnel_call) : string :=
  match c with
  | CallStop => ""
  | CallRestart peer boot =>
      if cc_EnableTUN cfg then forwardSignature peer (Some boot) (cc_TUNName cfg) else ""
  end.

Lemma begin_call_target cfg c t : t_main t = Idle → target (begin_call cfg c t) = wanted cfg c.
Proof.
  intros Hm. assert (target (stop_section t) = "") as Hs.
  { unfold stop_section, target. destruct (t_cancel t); cbn; [done|]. by rewrite Hm. }
  destruct c as [|peer boot]; [done|]. cbn. destruct (cc_EnableTUN cfg); [|done].
  unfold restart_section, target. destruct (t_cancel t); [|done].
  destruct (String.eqb_spec (t_key t) (forwardSignature peer (Some boot) (cc_TUNName cfg))); [|done].
  by rewrite Hm.
Qed.

Lemma forwarder_step_target t t' : forwarder_step t t' → target t' = target t ∨ target t' = "".
Proof. intros [i f ? Hl Hp|i f ? Hl Hp|i f ? Hl Hp|i f ? Hl Hp]; unfold target; cbn; destruct (t_main _); auto. Qed.

(** The steps between two calls of the daemon. *)
Definition between_calls (cfg : ClientConfig) (t t' : tunnel) : Prop :=
  tunnel_step cfg t t' ∧ (t_main t = Idle → forwarder_step t t').

Lemma between_calls_target cfg t t' :
  tunnel_inv t → between_calls cfg t t' → target t' = target t ∨ target t' = "".
Proof.
  intros Hi [Hs Hidle]. destruct Hs as [c ? Hm|c ? Hm|? Hm He|c key ? Hm|key ? Hm He|? ? Hs].
  - by apply forwarder_step_target, Hidle.
  - by right.
  - right. unfold target. cbn. apply (ti_none _ Hi), busy_unregistered; [done|congruence].
  - left. unfold target. cbn. by rewrite Hm.
  - left. unfold target. cbn. by rewrite Hm.
  - by apply forwarder_step_target.
Qed.

Lemma between_calls_rtc cfg t t' :
  rtc (between_calls cfg) t t' → tunnel_inv t → tunnel_inv t' ∧ (target t' = target t ∨ target t' = "").
Proof.
  induction 1 as [|t1 t2 t3 Hs _ IH]; [by auto|]. intros Hi.
  destruct IH as [Hi3 Ht3]; [by eapply tunnel_step_inv; [apply Hs|]|]. split; [done|].
  destruct (between_calls_target cfg t1 t2 Hi Hs), Ht3; first [by right | left; congruence | right; congruence].
Qed.

(** *** The poll *)
Section poll_spec.
Variable urlHostname : string → option string.

(** The control plane is healthy, names a peer, and the peer answers the heartbeat. *)
Definition confirmed (cfg : ClientConfig) (an : answers) : option (string * Bootstrap) :=
  match an_health an, an_boot an with
  | Ok _, Ok (Some b) =>
      peer ← tunnelPeerFromBootstrap urlHostname (cc_ControlPlaneURL cfg) (Some b);
      if sendEncapHeartbeat (an_exchange an peer) then Some (peer, b) else None
  | _, _ => None
  end.

Lemma poll_calls cfg an d r d' calls :
  pollControlPlane urlHostname cfg an d = (r, d', calls) →
  (∃ e, r = Err e ∧ d' = d ∧ calls = []) ∨
  (r = Ok tt ∧ calls = [match confirmed cfg an with Some (peer, b) => CallRestart peer b | None => CallStop end]).
Proof.
  unfold pollControlPlane, refreshTunnelBootstrap, handleBootstrap, pulseTunnel, stopped, confirmed.
  destruct (an_ctx an); [intros [= <- <- <-]; eauto|].
  destruct (an_health an) as [[]|e].
  2: { destruct (an_ctxLater an); intros [= <- <- <-]; eauto. }
  destruct (an_boot an) as [[b|]|e]; cbn [mbind option_bind].
  - destruct (tunnelPeerFromBootstrap urlHostname (cc_ControlPlaneURL cfg) (Some b)) as [peer|]; cbn.
    + destruct (sendEncapHeartbeat (an_exchange an peer)); intros [= <- <- <-]; auto.
    + intros [= <- <- <-]; auto.
  - cbn. intros [= <- <- <-]; auto.
  - destruct (an_ctxLater an); intros [= <- <- <-]; eauto.
Qed.
End poll_spec.

(** The gateway's answer to a heartbeat is what the workstation waits for. *)
Lemma heartbeat_handshake x :
  x_dial x = Ok tt → (∀ p, x_write x p = Ok tt) → x_deadline x = Ok tt →
  (∃ pkt es remote ack, EncodeEncapV0 EncapV0MsgHeartbeat [] = Some pkt ∧
     HandleEncapUDP None remote pkt = Some es ∧ WriteTo remote ack ∈ es ∧ x_read x = Ok ack) →
  sendEncapHeartbeat x = true.
Proof.
  intros Hd Hw Hdl (pkt & es & remote & ack & Hpkt & He & Hin & Hr).
  destruct (handle_writes None remote pkt) as (es' & He' & Hes).
  rewrite He in He'. injection He' as <-.
  assert (DecodeEncapV0 pkt = Ok (EncapV0MsgHeartbeat, [])) as Hdec
    by (rewrite <-(app_nil_r pkt); by apply decode_encode).
  assert ((remote, ack) ∈ omap written es) as Hmem by (apply list_elem_of_omap; by exists (WriteTo remote ack)).
  rewrite Hes, Hdec in Hmem. apply list_elem_of_singleton in Hmem as [= ->].
  unfold sendEncapHeartbeat. rewrite Hd, Hpkt, Hw, Hdl, Hr. by vm_compute.
Qed.
