(* ===== verification/TaskBase.v ===== *)
(** * The task service: state, world and the calls it makes
    (internal/services/task/service.go, deploy_runtime.go, volumes.go, dispatcher.go,
     recovery_restart.go, health_controller.go; internal/services/registry)

    The task service is modelled as a state-passing program: its own tables (registry, restart
    counters, rollback guards, health monitors), the Raft service it writes through, and the
    sequence of calls it made to the outside.  What the outside answers (container runtimes,
    worker nodes, sockets, clock, Dragonboat) is a parameter ([World]): a function of
    everything that happened before, so that no answer is assumed to repeat. *)
From stdpp Require Import base strings numbers gmap list.
From Stdlib Require Import Ascii.
From S2P Require Import Prelude GoStrings GoTime GoNet GoList Deploy Meta Placement Fsm RaftService.

(** ** Data *)
Record WorkloadRecord := mkRecord {
  wrec_Name : string; wrec_Node : string; wrec_Runtime : string; wrec_Artifact : string;
  wrec_Status : string; wrec_UpdatedAt : Z }.

Record DispatchResult := mkDispatch {
  dr_Accepted : bool; dr_Node : string; dr_Address : string; dr_Status : string; dr_Workload : string }.

(** The JSON body of a worker's answer. *)
Record WorkerBody := mkWorkerBody {
  wb_Accepted : bool; wb_Node : string; wb_Address : string; wb_Status : string; wb_Workload : string }.

Record RuntimeStatus := mkStatus {
  rs_Name : string; rs_Runtime : string; rs_Status : string; rs_NativeID : string;
  rs_StartedAt : Z; rs_UpdatedAt : Z; rs_Message : string }.

Record workloadRunResult := mkRunResult { rr_Status : string; rr_Address : string }.

Record hostPortClaim := mkClaim {
  hc_Namespace : string; hc_App : string; hc_Workload : string; hc_Endpoint : string;
  hc_Protocol : string; hc_HostIP : string; hc_HostPort : Z }.

Record readinessCheck := mkCheck {
  rc_kind : string; rc_host : string; rc_port : Z; rc_path : string; rc_interval : Z;
  rc_timeout : Z; rc_attempts : Z; rc_startPeriod : Z }.

(** Calls to the outside, with their answers, in the order they were made. *)
Inductive event :=
| EvRaft (c : command) (r : res unit)
| EvCapacity (s : Snapshot) (r : res unit)
| EvCollect
| EvDeploy (m : Metadata) (w : Workload) (r : res unit)
| EvStop (runtime : string) (m : Metadata) (name : string) (r : res unit)
| EvStatus (runtime : string) (m : Metadata) (name : string)
| EvDispatch (node : string) (m : Metadata) (w : Workload) (r : res DispatchResult)
| EvRemoteStop (node : string) (m : Metadata) (w : Workload) (r : res DispatchResult)
| EvListen (c : hostPortClaim) (r : res unit)
| EvProbe (c : readinessCheck) (r : res unit)
| EvSleep (d : Z).

(** The static configuration: this node's id, [cluster.nodes] (in iteration order) and whether
    a worker dispatcher was injected. *)
Record TaskConfig := mkTaskConfig {
  tc_local : string;
  tc_nodes : list (string * string);
  tc_dispatcher : bool }.

Record TaskState := mkTask {
  ts_raft : Service;
  ts_registry : gmap string WorkloadRecord;
  ts_restartAttempts : gmap string Z;
  ts_rollbackAttempts : gset string;
  ts_rollbackSuppressed : gset string;
  ts_healthRun : Z;
  ts_healthMonitors : gmap string Z;
  ts_trace : list event }.

Definition set_raft r (s : TaskState) : TaskState :=
  mkTask r (ts_registry s) (ts_restartAttempts s) (ts_rollbackAttempts s) (ts_rollbackSuppressed s)
    (ts_healthRun s) (ts_healthMonitors s) (ts_trace s).
Definition set_registry r (s : TaskState) : TaskState :=
  mkTask (ts_raft s) r (ts_restartAttempts s) (ts_rollbackAttempts s) (ts_rollbackSuppressed s)
    (ts_healthRun s) (ts_healthMonitors s) (ts_trace s).
Definition set_restartAttempts r (s : TaskState) : TaskState :=
  mkTask (ts_raft s) (ts_registry s) r (ts_rollbackAttempts s) (ts_rollbackSuppressed s)
    (ts_healthRun s) (ts_healthMonitors s) (ts_trace s).
Definition set_rollbackAttempts r (s : TaskState) : TaskState :=
  mkTask (ts_raft s) (ts_registry s) (ts_restartAttempts s) r (ts_rollbackSuppressed s)
    (ts_healthRun s) (ts_healthMonitors s) (ts_trace s).
Definition set_rollbackSuppressed r (s : TaskState) : TaskState :=
  mkTask (ts_raft s) (ts_registry s) (ts_restartAttempts s) (ts_rollbackAttempts s) r
    (ts_healthRun s) (ts_healthMonitors s) (ts_trace s).
Definition set_health run ms (s : TaskState) : TaskState :=
  mkTask (ts_raft s) (ts_registry s) (ts_restartAttempts s) (ts_rollbackAttempts s)
    (ts_rollbackSuppressed s) run ms (ts_trace s).
Definition log_event e (s : TaskState) : TaskState :=
  mkTask (ts_raft s) (ts_registry s) (ts_restartAttempts s) (ts_rollbackAttempts s)
    (ts_rollbackSuppressed s) (ts_healthRun s) (ts_healthMonitors s) (ts_trace s ++ [e]).

(** ** The monad: state passing; a fallible call returns [res] inside it *)
Definition M (A : Type) : Type := TaskState → A * TaskState.
#[export] Instance M_ret : MRet M := λ A a s, (a, s).
#[export] Instance M_bind : MBind M := λ A B f m s, let '(a, s') := m s in f a s'.

Definition get : M TaskState := λ s, (s, s).
Definition modify (f : TaskState → TaskState) : M unit := λ s, (tt, f s).
Definition ok : M (res unit) := mret (Ok tt).
Definition fail {A} (e : error) : M (res A) := mret (Err e).

(** [if v, err := m; err != nil { return err }] *)
Definition try {A B} (m : M (res A)) (k : A → M (res B)) : M (res B) :=
  r ← m; match r with Ok a => k a | Err e => mret (Err e) end.

(** [if err != nil { return Wrapf(err, ...) }] *)
Definition wrapM {A} (fmt : string) (args : list arg) (m : M (res A)) : M (res A) :=
  r ← m; mret (wrap fmt args r).

(** A loop that stops at the first error, and one that visits every element. *)
Fixpoint each_err {A} (f : A → M (res unit)) (l : list A) : M (res unit) :=
  match l with
  | [] => ok
  | x :: r => try (f x) (λ _, each_err f r)
  end.

Fixpoint each {A} (f : A → M unit) (l : list A) : M unit :=
  match l with
  | [] => mret tt
  | x :: r => _ ← f x; each f r
  end.

Section run_lemmas.
Context {A B : Type}.

Lemma run_bind (m : M A) (k : A → M B) s a s' : m s = (a, s') → (m ≫= k) s = k a s'.
Proof. intros Hm. unfold mbind, M_bind. by rewrite Hm. Qed.

Lemma run_get (k : TaskState → M B) s : (get ≫= k) s = k s s.
Proof. done. Qed.

Lemma run_try_ok (m : M (res A)) (k : A → M (res B)) s a s' :
  m s = (Ok a, s') → try m k s = k a s'.
Proof. intros Hm. unfold try, mbind, M_bind. by rewrite Hm. Qed.

Lemma run_try_err (m : M (res A)) (k : A → M (res B)) s e s' :
  m s = (Err e, s') → try m k s = (Err e, s').
Proof. intros Hm. unfold try, mbind, M_bind. by rewrite Hm. Qed.

Lemma run_wrapM fmt args (m : M (res A)) s r s' :
  m s = (r, s') → wrapM fmt args m s = (wrap fmt args r, s').
Proof. intros Hm. unfold wrapM, mbind, M_bind. by rewrite Hm. Qed.
Lemma run_wrapM_err fmt args (m : M (res A)) s e s' :
  m s = (Err e, s') → wrapM fmt args m s = (Err (Wrapf e fmt args), s').
Proof. intros Hm. by rewrite (run_wrapM _ _ _ _ _ _ Hm). Qed.
Lemma run_wrapM_ok fmt args (m : M (res A)) s a s' :
  m s = (Ok a, s') → wrapM fmt args m s = (Ok a, s').
Proof. intros Hm. by rewrite (run_wrapM _ _ _ _ _ _ Hm). Qed.
End run_lemmas.

(** ** The world *)
Class World `{Codec} := {
  w_runtimeDeploy : list event → Metadata → Workload → res unit;
  w_runtimeStop : list event → string → Metadata → string → res unit;
  w_runtimeStatus : list event → string → Metadata → string → res RuntimeStatus;
  (** a worker's HTTP answer to an action on a base URL; the inner result is the JSON decoding *)
  w_workerPost : list event → string → string → string → Metadata → Workload → res (res WorkerBody);
  w_nodeHost : list event → NodeHost;
  w_now : list event → Z;
  (** [hostinfo.Collect], as the snapshot made of it for a node id *)
  w_collect : list event → string → res Snapshot;
  (** listening on an address of a network ("tcp" or "udp"), then closing it *)
  w_listen : list event → string → string → res (res unit);
  (** building a GET request for a URL, then executing it with a timeout, to its status code *)
  w_httpGet : list event → string → Z → res (res Z);
  (** dialling an address with a timeout, then closing the connection *)
  w_tcpDial : list event → string → Z → res (res unit);
  (** [Some e] when the context ends before the timer does *)
  w_sleep : list event → Z → option error;
  (** the registered IPv4 of a workload ([dnssvc]) *)
  w_lookupDNS : list event → string → string → option string;
  (** [err.Error()] *)
  w_errorText : error → string;
  (** [url.Parse(s)]: the host of a URL, when it parses and has one *)
  w_urlHost : string → option string;
  (** the order of [for _, app := range map] *)
  w_order : list event → gmap string App → list App;
}.

(** What is known of them: Dragonboat's promise on proposals, and that iterating a map visits
    its entries. *)
Class WorldLaws `{World} := {
  w_propose_ok tr : propose_ok (w_nodeHost tr);
  w_order_ok tr m : enumerates m (w_order tr m);
}.

Section calls.
Context `{Digest, World} `{ListSort} (cfg : TaskConfig).

(** *** Calls that are logged *)
Definition call {R} (answer : list event → R) (mk : R → event) : M R :=
  s ← get;
  let r := answer (ts_trace s) in
  _ ← modify (log_event (mk r));
  mret r.

Definition runtime_Deploy (m : Metadata) (w : Workload) : M (res unit) :=
  call (λ tr, w_runtimeDeploy tr m w) (EvDeploy m w).
Definition runtime_Stop (rt : string) (m : Metadata) (name : string) : M (res unit) :=
  call (λ tr, w_runtimeStop tr rt m name) (EvStop rt m name).
Definition runtime_Status (rt : string) (m : Metadata) (name : string) : M (res RuntimeStatus) :=
  call (λ tr, w_runtimeStatus tr rt m name) (λ _, EvStatus rt m name).

(** A write through the Raft service. *)
Definition raft_call (op : NodeHost → Service → res unit * Service) (c : command) : M (res unit) :=
  s ← get;
  let '(r, rs) := op (w_nodeHost (ts_trace s)) (ts_raft s) in
  _ ← modify (λ s, log_event (EvRaft c r) (set_raft rs s));
  mret r.

Lemma run_raft_call op c s r rs :
  op (w_nodeHost (ts_trace s)) (ts_raft s) = (r, rs) →
  raft_call op c s = (r, log_event (EvRaft c r) (set_raft rs s)).
Proof. intros Hop. unfold raft_call. rewrite run_get, Hop. done. Qed.

Definition raft_ApplyDeployApp (app : App) : M (res unit) :=
  raft_call (λ nh, ApplyDeployApp nh app) (CUpsertApp app).
Definition raft_ApplyDeleteDeployApp (m : Metadata) : M (res unit) :=
  raft_call (λ nh, ApplyDeleteDeployApp nh m) (CDeleteApp m).
Definition raft_ApplyWorkloadAssignment (a : Assignment) : M (res unit) :=
  s ← get;
  raft_call (λ nh, ApplyWorkloadAssignment nh (w_now (ts_trace s)) a) (CUpsertAssignment a).
Definition raft_ApplyVolumeBinding (b : Binding) : M (res unit) :=
  s ← get;
  raft_call (λ nh, ApplyVolumeBinding nh (w_now (ts_trace s)) b) (CUpsertBinding b).

Definition fsm_of (s : TaskState) : schedulingFSM := sv_fsm (ts_raft s).
Definition raft_GetDesiredDeployApp (m : Metadata) : M (option App) :=
  s ← get; mret (getDeployApp m (fsm_of s)).
Definition raft_GetPreviousDeployApp (m : Metadata) : M (option DeployAppRevision) :=
  s ← get; mret (previousDeployApp m (fsm_of s)).
Definition raft_GetWorkloadAssignment (key : string) : M (option Assignment) :=
  s ← get; mret (getAssignment key (fsm_of s)).
Definition raft_ListDesiredDeployApps : M (list App) :=
  s ← get; mret (w_order (ts_trace s) (DeployApps (state (fsm_of s)))).

Definition workloadAssignment (m : Metadata) (name : string) : M (option Assignment) :=
  raft_GetWorkloadAssignment (AssignmentKey m name).

(** *** Node capacity (nodecapacity/catalog.go) *)
Definition the_catalog : M (option SnapshotStore) :=
  s ← get; mret (Some (raftCapacityStore (fsm_of s))).

(** The store's [Upsert], through the Raft service. *)
Definition store_call (snap : Snapshot) : M (res unit) :=
  s ← get;
  let '(r, rs) := store_Upsert (w_nodeHost (ts_trace s)) snap (ts_raft s) in
  _ ← modify (λ s, log_event (EvCapacity snap r) (set_raft rs s));
  mret r.

Definition RefreshLocal : M (res unit) :=
  let nodeID := CoalesceOrEmpty [TrimSpace (tc_local cfg); "local"] in
  try (wrapM "collect host capacity" [] (call (λ tr, w_collect tr nodeID) (λ _, EvCollect)))
    (λ snap, wrapM "upsert local capacity" [] (store_call snap)).

(** *** registry/service.go *)
Definition registry_Upsert (name node runtime artifact status : string) : M unit :=
  s ← get;
  modify (λ s', set_registry
    (<[name := mkRecord name node runtime artifact status (w_now (ts_trace s))]> (ts_registry s')) s').

Definition registry_Delete (raw : string) : M unit :=
  let name := TrimSpace raw in
  if (name =? "")%string then mret tt
  else modify (λ s, set_registry (delete name (ts_registry s)) s).

Definition registry_List (values : list WorkloadRecord) : list WorkloadRecord :=
  list_sort (by_key wrec_Name) values.

(** *** Assignments and volume bindings (deploy_runtime.go, volumes.go) *)
Definition applyWorkloadAssignment (meta : Metadata) (w : Workload) (nodeID status generation errMsg : string)
    (addresses : list string) : M unit :=
  s ← get;
  let status := CoalesceOrEmpty [TrimSpace status; AssignmentStatusAssigned] in
  let address := match addresses with a :: _ => TrimSpace a | [] => "" end in
  _ ← raft_ApplyWorkloadAssignment
    (mkAssignment (AssignmentKey meta (w_Name w)) meta (w_Name w) (TrimSpace nodeID) address (w_Runtime w)
       (ArtifactSummary (w_Run w)) status (TrimSpace generation) (TrimSpace errMsg) (w_now (ts_trace s)));
  mret tt.

Definition volumeSpecsByName (app : App) : gmap string Volume :=
  foldl (λ out v,
    let name := TrimSpace (vol_Name v) in
    if (name =? "")%string then out
    else <[name := mkVolume name (vol_Persistent v) (vol_SizeBytes v)]> out) ∅ (app_Volumes app).

(** The zero [Volume] of a missing map entry. *)
Definition zero_volume : Volume := mkVolume "" false 0.

Definition applyWorkloadVolumeBindings (app : App) (w : Workload) (nodeID status generation errMsg : string)
    : M unit :=
  let status := CoalesceOrEmpty [TrimSpace status; BindingStatusBound] in
  let specs := volumeSpecsByName app in
  each (λ mount,
    let volumeName := TrimSpace (vr_Name (mnt_Volume mount)) in
    if (volumeName =? "")%string then mret tt
    else
      let volume := default zero_volume (specs !! volumeName) in
      s ← get;
      _ ← raft_ApplyVolumeBinding
        (mkBinding (BindingKey (app_Metadata app) (w_Name w) volumeName) (app_Metadata app) volumeName
           (w_Name w) (TrimSpace (mnt_Target mount)) (TrimSpace nodeID) (w_Runtime w)
           (VolumeName (app_Metadata app) volumeName) (vol_Persistent volume) (vol_SizeBytes volume)
           status (TrimSpace generation) (TrimSpace errMsg) (w_now (ts_trace s)));
      mret tt) (w_Mounts w).

(** *** The worker dispatcher (dispatcher.go, config/runtime.go) *)

(** [strings.TrimRight(s, "/")] after trimming spaces; the first entry whose key matches. *)
Fixpoint NodeURL_in (id : string) (nodes : list (string * string)) : option string :=
  match nodes with
  | [] => None
  | (k, v) :: r =>
      if (TrimSpace k =? id)%string then
        let url := TrimRightByte (TrimSpace v) "/" in
        if (url =? "")%string then None else Some url
      else NodeURL_in id r
  end.
Definition NodeURL (nodeID : string) : option string :=
  let id := TrimSpace nodeID in
  if (id =? "")%string then None else NodeURL_in id (tc_nodes cfg).

Definition decodeWorkerDeploy (data : res WorkerBody) (nodeID fallbackWorkload : string) : res DispatchResult :=
  b ← wrap "decode worker deploy response" [] data;
  let status := TrimSpace (wb_Status b) in
  let status := if (status =? "")%string && wb_Accepted b then "running" else status in
  Ok (mkDispatch (wb_Accepted b) (CoalesceOrEmpty [TrimSpace (wb_Node b); nodeID])
        (TrimSpace (wb_Address b)) status
        (CoalesceOrEmpty [TrimSpace (wb_Workload b); fallbackWorkload])).

Definition decodeWorkerStop (data : res WorkerBody) (nodeID fallbackWorkload : string) : res DispatchResult :=
  b ← wrap "decode worker stop response" [] data;
  let status := TrimSpace (wb_Status b) in
  let status := if (status =? "")%string && wb_Accepted b then "stopped" else status in
  Ok (mkDispatch (wb_Accepted b) (CoalesceOrEmpty [TrimSpace (wb_Node b); nodeID]) "" status
        (CoalesceOrEmpty [TrimSpace (wb_Workload b); fallbackWorkload])).

Definition executeWorker (tr : list event) (action nodeID : string) (m : Metadata) (w : Workload)
    (decode : res WorkerBody → string → string → res DispatchResult) : res DispatchResult :=
  match NodeURL nodeID with
  | None => Err (Errorf "no worker API URL configured for node %q (set cluster.nodes.%s)"
                   [AStr nodeID; AStr nodeID])
  | Some baseURL =>
      raw ← w_workerPost tr action baseURL nodeID m w;
      decode raw nodeID (w_Name w)
  end.

Definition DispatchWorkload (nodeID : string) (m : Metadata) (w : Workload) : M (res DispatchResult) :=
  call (λ tr, executeWorker tr "dispatch" nodeID m w decodeWorkerDeploy) (EvDispatch nodeID m w).
Definition StopWorkload (nodeID : string) (m : Metadata) (w : Workload) : M (res DispatchResult) :=
  call (λ tr, executeWorker tr "stop" nodeID m w decodeWorkerStop) (EvRemoteStop nodeID m w).

Definition set_dr_status (st : string) (d : DispatchResult) : DispatchResult :=
  mkDispatch (dr_Accepted d) (dr_Node d) (dr_Address d) st (dr_Workload d).

Definition dispatchWorkload (meta : Metadata) (w : Workload) (nodeID : string) : M (res DispatchResult) :=
  if negb (tc_dispatcher cfg)
  then fail (Errorf "placement selected node %q for workload %q but worker dispatcher is unavailable"
               [AStr nodeID; AStr (w_Name w)])
  else
    try (wrapM "dispatch workload %s to node %s" [AStr (w_Name w); AStr nodeID] (DispatchWorkload nodeID meta w))
      (λ d, mret (Ok (set_dr_status (CoalesceOrEmpty [TrimSpace (dr_Status d); "dispatched"]) d))).

(** *** Restart accounting (recovery.go, recovery_restart.go) *)
Inductive restartPolicy := restartPolicyAlways | restartPolicyOnFailure | restartPolicyNever.

Definition restartPolicyForWorkload (w : Workload) : restartPolicy :=
  let byKind := if (w_Kind w =? WorkloadKindJob)%string || (w_Kind w =? WorkloadKindCron)%string
                then restartPolicyNever else restartPolicyAlways in
  match w_Lifecycle w with
  | None => byKind
  | Some lc =>
      let p := TrimSpace (lc_RestartPolicy lc) in
      if (p =? RestartPolicyAlways)%string then restartPolicyAlways
      else if (p =? RestartPolicyOnFailure)%string then restartPolicyOnFailure
      else if (p =? RestartPolicyNever)%string then restartPolicyNever
      else byKind
  end.

Definition never_restarts (w : Workload) : bool :=
  match restartPolicyForWorkload w with restartPolicyNever => true | _ => false end.

Definition workloadMaxRestarts (w : Workload) : Z :=
  match w_Lifecycle w with
  | None => 0
  | Some lc => if (lc_MaxRestarts lc <=? 0)%Z then 0 else lc_MaxRestarts lc
  end.

Definition restartAttemptKey (assignmentKey generation : string) : string :=
  TrimSpace assignmentKey +:+ "@" +:+ TrimSpace generation.

Definition allowWorkloadRestart (w : Workload) (assignmentKey generation : string) : M bool :=
  if never_restarts w then mret false
  else
    s ← get;
    let maxRestarts := workloadMaxRestarts w in
    let key := restartAttemptKey assignmentKey generation in
    let attempts := default 0%Z (ts_restartAttempts s !! key) in
    if (0 <? maxRestarts)%Z && (maxRestarts <=? attempts)%Z then mret false
    else
      _ ← modify (λ s, set_restartAttempts
             (<[key := wrap_int64 (attempts + 1)]> (ts_restartAttempts s)) s);
      mret true.

(** [sleepContext] *)
Definition sleepContext (d : Z) : M (res unit) :=
  if (d <=? 0)%Z then ok
  else
    r ← call (λ tr, w_sleep tr d) (λ _, EvSleep d);
    mret (match r with None => Ok tt | Some e => Err (Wrapf e "readiness wait canceled: %w" []) end).

(** [None] when the delay elapsed; the context's error otherwise. *)
Definition waitWorkloadRestartDelay (w : Workload) : M (option error) :=
  match w_Lifecycle w with
  | None => mret None
  | Some lc =>
      if (TrimSpace (lc_RestartDelay lc) =? "")%string then mret None
      else match ParseDuration (lc_RestartDelay lc) with
           | Err _ => mret None
           | Ok delay =>
               if (delay <=? 0)%Z then mret None
               else call (λ tr, w_sleep tr delay) (λ _, EvSleep delay)
           end
  end.

(** *** Health monitors (health_controller.go) *)
Definition workloadHasBackgroundHealth (w : Workload) : bool :=
  match w_Health w with
  | None => false
  | Some h => if h_Startup h is Some _ then true else if h_Liveness h is Some _ then true else false
  end.

(** The entry of the map is the monitor's run id; replacing one cancels the old run. *)
Definition registerWorkloadHealthMonitor (key : string) : M Z :=
  s ← get;
  let runID := wrap_uint64 (ts_healthRun s + 1) in
  _ ← modify (λ s, set_health runID (<[key := runID]> (ts_healthMonitors s)) s);
  mret runID.

Definition stopWorkloadHealthMonitor (meta : Metadata) (name : string) : M unit :=
  let key := AssignmentKey meta name in
  if (key =? "")%string then mret tt
  else modify (λ s, set_health (ts_healthRun s) (delete key (ts_healthMonitors s)) s).

Definition finishWorkloadHealthMonitor (key : string) (runID : Z) : M unit :=
  modify (λ s,
    if bool_decide (ts_healthMonitors s !! key = Some runID)
    then set_health (ts_healthRun s) (delete key (ts_healthMonitors s)) s else s).

Definition StopWorkloadHealthMonitors : M unit :=
  modify (λ s, set_health (ts_healthRun s) ∅ s).

Definition startLocalWorkloadHealthMonitor (app : App) (w : Workload) (nodeID : string) : M unit :=
  if negb (tc_local cfg =? TrimSpace nodeID)%string || negb (workloadHasBackgroundHealth w) then mret tt
  else
    let key := AssignmentKey (app_Metadata app) (w_Name w) in
    if (key =? "")%string then mret tt
    else _ ← registerWorkloadHealthMonitor key; mret tt.
End calls.
