(* ===== verification/TaskRun.v ===== *)
(** * Running and stopping one workload
    (internal/services/task/readiness.go, deploy_runtime.go, operations_nodes.go, lifecycle.go)

    Probe targets, the readiness loop, and the local and remote start and stop of a workload. *)
From stdpp Require Import base strings numbers gmap list.
From Stdlib Require Import Ascii.
From S2P Require Import Prelude GoStrings GoTime GoNet GoList Deploy Meta Placement Fsm RaftService TaskBase.

(** ** readiness.go: what is probed *)
(** [time.Second], in nanoseconds. *)
Definition second : Z := 1000000000.
Definition defaultReadinessInterval : Z := second.
Definition defaultReadinessTimeout : Z := 2 * second.
Definition defaultReadinessAttempts : Z := 30.

Definition probeDurationOrDefault (raw : string) (fallback : Z) : Z :=
  if (TrimSpace raw =? "")%string then fallback
  else match ParseDuration raw with Ok d => d | Err _ => fallback end.

Definition probeAttemptsOrDefault (retries : Z) : Z :=
  if (retries <=? 0)%Z then defaultReadinessAttempts else retries.

(** [strconv.Atoi] *)
Definition Atoi (s : string) : option Z :=
  let '(neg, digits) :=
    match bytes_of s with
    | "+"%char :: r => (false, r)
    | "-"%char :: r => (true, r)
    | r => (false, r)
    end in
  match digits with
  | [] => None
  | _ =>
      if forallb is_digit digits then
        let n := foldl (λ acc d, acc * 10 + digit_val d)%Z 0%Z digits in
        let v := if neg then (- n)%Z else n in
        if (min_int64 <=? v)%Z && (v <=? max_int64)%Z then Some v else None
      else None
  end.

Section probes.
(** What [url.Parse] makes of an address. *)
Variable urlHost : string → option string.

Definition splitProbeAddress (raw : string) : string * Z :=
  let address := TrimSpace raw in
  if (address =? "")%string then ("127.0.0.1", 0%Z)
  else
    let address := default address (urlHost address) in
    match SplitHostPort address with
    | Err _ => (address, 0%Z)
    | Ok (host, portText) =>
        match Atoi portText with None => (host, 0%Z) | Some port => (host, port) end
    end.

Definition probeEndpointMatches (actual want : string) : bool :=
  if (want =? ProtoTCP)%string then (actual =? ProtoTCP)%string || (actual =? ProtoHTTP)%string
  else (actual =? want)%string.

Definition workloadEndpointByName (w : Workload) (name : string) : option Endpoint :=
  find (λ e, (TrimSpace (ep_Name e) =? name)%string) (w_Endpoints w).

Definition firstProbeEndpoint (w : Workload) (want : string) : option Endpoint :=
  find (λ e, probeEndpointMatches (ep_Protocol e) want) (w_Endpoints w).

Definition namedProbePort (w : Workload) (endpointName want : string) : res Z :=
  match workloadEndpointByName w endpointName with
  | None => Err (Errorf "unknown endpoint %q" [AStr endpointName])
  | Some e =>
      if negb (probeEndpointMatches (ep_Protocol e) want)
      then Err (Errorf "endpoint %q uses %s" [AStr endpointName; AStr (ep_Protocol e)])
      else Ok (ep_Port e)
  end.

Definition probePort (w : Workload) (rawEndpoint want : string) (explicitPort fallbackPort : Z) : res Z :=
  if (0 <? explicitPort)%Z then Ok explicitPort
  else
    let endpointName := TrimSpace rawEndpoint in
    if negb (endpointName =? "")%string then namedProbePort w endpointName want
    else if (0 <? fallbackPort)%Z then Ok fallbackPort
    else match firstProbeEndpoint w want with
         | None => Err (Errorf "no %s endpoint or explicit port" [AStr want])
         | Some e => Ok (ep_Port e)
         end.

Definition normalizeHTTPProbePath (raw : string) : string :=
  let path := TrimSpace raw in
  if (path =? "")%string then "/"
  else if HasPrefix path "/" then path
  else "/" +:+ path.

Definition buildReadinessCheck (meta : Metadata) (w : Workload) (p : Probe) (address : string)
    : res readinessCheck :=
  let '(host, embeddedPort) := splitProbeAddress address in
  let check kind port path :=
    mkCheck kind host port path
      (probeDurationOrDefault (pr_Interval p) defaultReadinessInterval)
      (probeDurationOrDefault (pr_Timeout p) defaultReadinessTimeout)
      (probeAttemptsOrDefault (pr_Retries p))
      (probeDurationOrDefault (pr_StartPeriod p) 0) in
  match pr_HTTP p, pr_TCP p with
  | Some hp, _ =>
      port ← wrap "resolve readiness http target for %s/%s" [AStr (md_Name meta); AStr (w_Name w)]
               (probePort w (er_Endpoint (hp_Endpoint hp)) ProtoHTTP (hp_Port hp) embeddedPort);
      Ok (check "http" port (normalizeHTTPProbePath (hp_Path hp)))
  | None, Some tp =>
      port ← wrap "resolve readiness tcp target for %s/%s" [AStr (md_Name meta); AStr (w_Name w)]
               (probePort w (er_Endpoint (tp_Endpoint tp)) ProtoTCP (tp_Port tp) embeddedPort);
      Ok (check "tcp" port "")
  | None, None => Err (Errorf "workload %s readiness probe kind is required" [AStr (w_Name w)])
  end.
End probes.

Section run.
Context `{Digest, World} `{ListSort} (cfg : TaskConfig).

(** ** readiness.go: the loop *)
Definition probe_answer (c : readinessCheck) (tr : list event) : res unit :=
  let target := JoinHostPort (rc_host c) (Itoa (rc_port c)) in
  if (rc_kind c =? "http")%string then
    resp ← wrap "create http readiness request: %w" []
             (w_httpGet tr ("http://" +:+ target +:+ rc_path c) (rc_timeout c));
    code ← wrap "execute http readiness request: %w" [] resp;
    if (200 <=? code)%Z && (code <? 400)%Z then Ok tt
    else Err (Errorf "http readiness returned status %d" [AInt code])
  else if (rc_kind c =? "tcp")%string then
    conn ← wrap "dial tcp readiness target: %w" [] (w_tcpDial tr target (rc_timeout c));
    wrap "close tcp readiness connection: %w" [] conn
  else Err (Errorf "unsupported readiness probe kind %q" [AStr (rc_kind c)]).

Definition runReadinessCheck (c : readinessCheck) : M (res unit) := call (probe_answer c) (EvProbe c).

(** [n] attempts are left; [last] is the error of the previous one.  Between attempts the
    loop sleeps, and gives up when the context ends. *)
Fixpoint probeAttempts (c : readinessCheck) (exhausted : option error → error) (n : nat)
    (last : option error) : M (res unit) :=
  match n with
  | O => fail (exhausted last)
  | S n' =>
      r ← runReadinessCheck c;
      match r with
      | Ok _ => ok
      | Err e =>
          match n' with
          | O => fail (exhausted (Some e))
          | _ => try (sleepContext (rc_interval c)) (λ _, probeAttempts c exhausted n' (Some e))
          end
      end
  end.

Definition attempts_error (fmt : string) (args : list arg) (last : option error) : error :=
  match last with Some e => Wrapf e fmt args | None => Errorf fmt args end.

Definition waitReadinessAttempts (w : Workload) (c : readinessCheck) : M (res unit) :=
  probeAttempts c
    (attempts_error "workload %s readiness probe failed after %d attempt(s)"
       [AStr (w_Name w); AInt (rc_attempts c)]) (Z.to_nat (rc_attempts c)) None.

Definition waitHealthProbeAttempts (w : Workload) (phase : string) (c : readinessCheck) : M (res unit) :=
  probeAttempts c
    (attempts_error "workload %s %s probe failed after %d attempt(s): %w"
       [AStr (w_Name w); AStr phase; AInt (rc_attempts c)]) (Z.to_nat (rc_attempts c)) None.

Definition waitWorkloadReadiness (meta : Metadata) (w : Workload) (address : string) : M (res unit) :=
  match (h ← w_Health w; h_Readiness h) with
  | None => ok
  | Some probe =>
      match buildReadinessCheck w_urlHost meta w probe address with
      | Err e => fail e
      | Ok check =>
          try (sleepContext (rc_startPeriod check)) (λ _, waitReadinessAttempts w check)
      end
  end.

(** ** Stop (lifecycle.go) *)
Definition stopLocalWorkload (meta : Metadata) (w : Workload) : M (res unit) :=
  _ ← stopWorkloadHealthMonitor meta (w_Name w);
  try (wrapM "stop workload %s" [AStr (w_Name w)] (runtime_Stop (w_Runtime w) meta (w_Name w)))
    (λ _, _ ← registry_Delete (w_Name w); ok).

Definition stopRemoteWorkload (meta : Metadata) (w : Workload) (nodeID : string) : M (res unit) :=
  if negb (tc_dispatcher cfg)
  then fail (Errorf "workload %q assigned to remote node %q but worker dispatcher is unavailable"
               [AStr (w_Name w); AStr nodeID])
  else
    try (wrapM "stop workload %s on node %s" [AStr (w_Name w); AStr nodeID] (StopWorkload cfg nodeID meta w))
      (λ _, _ ← registry_Delete (w_Name w); ok).

Definition stopWorkloadOnNode (meta : Metadata) (w : Workload) (rawNode : string) : M (res unit) :=
  let nodeID := TrimSpace rawNode in
  if negb (nodeID =? "")%string && negb (nodeID =? tc_local cfg)%string
  then stopRemoteWorkload meta w nodeID
  else stopLocalWorkload meta w.

Definition stopTargetNode (meta : Metadata) (name : string) : M string :=
  a ← workloadAssignment meta name;
  mret (match a with
        | Some a => if (TrimSpace (as_Node a) =? "")%string then tc_local cfg else TrimSpace (as_Node a)
        | None => tc_local cfg
        end).

Definition stopWorkload (meta : Metadata) (w : Workload) : M (res unit) :=
  node ← stopTargetNode meta (w_Name w);
  stopWorkloadOnNode meta w node.

(** ** Start (deploy_runtime.go, operations_nodes.go) *)
Definition deployLocalWorkload (meta : Metadata) (w : Workload) (nodeID : string) : M (res unit) :=
  try (wrapM "deploy workload %s" [AStr (w_Name w)] (runtime_Deploy meta w))
    (λ _, _ ← registry_Upsert (w_Name w) nodeID (w_Runtime w) (ArtifactSummary (w_Run w)) "running"; ok).

Definition localWorkloadAddress (meta : Metadata) (name : string) : M string :=
  s ← get; mret (default "" (w_lookupDNS (ts_trace s) (md_Namespace meta) name)).

Definition runLocalWorkload (meta : Metadata) (w : Workload) (nodeID : string) : M (res workloadRunResult) :=
  try (deployLocalWorkload meta w nodeID) (λ _,
    address ← localWorkloadAddress meta (w_Name w);
    r ← waitWorkloadReadiness meta w address;
    match r with
    | Err e => _ ← stopLocalWorkload meta w; fail e
    | Ok _ => mret (Ok (mkRunResult AssignmentStatusRunning address))
    end).

Definition runRemoteWorkload (meta : Metadata) (w : Workload) (nodeID : string) : M (res workloadRunResult) :=
  try (dispatchWorkload cfg meta w nodeID) (λ d,
    let status := CoalesceOrEmpty [TrimSpace (dr_Status d); "dispatched"] in
    _ ← registry_Upsert (w_Name w) nodeID (w_Runtime w) (ArtifactSummary (w_Run w)) status;
    mret (Ok (mkRunResult status (TrimSpace (dr_Address d))))).

Definition runWorkloadOnNode (meta : Metadata) (w : Workload) (rawNode : string) : M (res workloadRunResult) :=
  let nodeID := TrimSpace rawNode in
  if (nodeID =? "")%string then fail (Errorf "empty target node for workload %q" [AStr (w_Name w)])
  else if (nodeID =? tc_local cfg)%string then runLocalWorkload meta w nodeID
  else runRemoteWorkload meta w nodeID.
End run.
