(* ===== verification/TaskDeploy.v ===== *)
(** * Deploying, stopping, rolling back (internal/services/task: preflight.go, deploy.go,
      deploy_assignment.go, auto_rollback.go, lifecycle.go, reconcile.go, revisions.go)

    The handlers of the task service that write the desired state and drive the workloads of
    an application towards it. *)
From stdpp Require Import base strings numbers gmap list.
From Stdlib Require Import Ascii.
From S2P Require Import Prelude GoStrings GoTime GoNet GoList Deploy Dependency Validate Meta Placement Fsm RaftService TaskBase TaskRun.

(** ** preflight.go: host ports *)
Definition normalizeHostPortProtocol (proto : string) : string :=
  if (proto =? ProtoUDP)%string then ProtoUDP else ProtoTCP.

Definition normalizeHostPortIP (raw : string) : string :=
  let ip := TrimSpace raw in
  if (ip =? "0.0.0.0")%string || (ip =? "::")%string || (ip =? "[::]")%string then "" else ip.

Definition hostPortClaims (app : App) : list hostPortClaim :=
  app_Workloads app ≫= λ w,
    omap (λ e,
      if (ep_HostPort e <=? 0)%Z then None
      else Some (mkClaim (NamespaceOrDefault (md_Namespace (app_Metadata app)))
                   (TrimSpace (md_Name (app_Metadata app))) (TrimSpace (w_Name w)) (TrimSpace (ep_Name e))
                   (normalizeHostPortProtocol (ep_Protocol e)) (normalizeHostPortIP (ep_HostIP e))
                   (ep_HostPort e))) (w_Endpoints w).

Definition sameAppMetadata (a b : Metadata) : bool :=
  (NamespaceOrDefault (md_Namespace a) =? NamespaceOrDefault (md_Namespace b))%string
  && (TrimSpace (md_Name a) =? TrimSpace (md_Name b))%string.

Definition hostPortClaimsConflict (a b : hostPortClaim) : bool :=
  if negb (hc_HostPort a =? hc_HostPort b)%Z || negb (hc_Protocol a =? hc_Protocol b)%string then false
  else (hc_HostIP a =? "")%string || (hc_HostIP b =? "")%string || (hc_HostIP a =? hc_HostIP b)%string.

Fixpoint findHostPortConflict (incoming existing : list hostPortClaim) : option (hostPortClaim * hostPortClaim) :=
  match incoming with
  | [] => None
  | next :: r =>
      match find (hostPortClaimsConflict next) existing with
      | Some current => Some (next, current)
      | None => findHostPortConflict r existing
      end
  end.

Definition describe (c : hostPortClaim) : string :=
  hc_Namespace c +:+ "/" +:+ hc_App c +:+ " workload=" +:+ hc_Workload c +:+ " endpoint=" +:+ hc_Endpoint c.
Definition listenHost (c : hostPortClaim) : string :=
  if (hc_HostIP c =? "")%string then "0.0.0.0" else hc_HostIP c.
Definition bindText (c : hostPortClaim) : string :=
  listenHost c +:+ "/" +:+ hc_Protocol c +:+ ":" +:+ Itoa (hc_HostPort c).

Fixpoint duplicate_claims (claims : list hostPortClaim) : res unit :=
  match claims with
  | [] => Ok tt
  | c :: r =>
      match find (hostPortClaimsConflict c) r with
      | Some d => Err (Errorf "host port conflict: %s and %s both claim %s"
                         [AStr (describe c); AStr (describe d); AStr (bindText c)])
      | None => duplicate_claims r
      end
  end.
Definition preflightDuplicateHostPorts (app : App) : res unit := duplicate_claims (hostPortClaims app).

(** The loop over the desired applications. *)
Fixpoint existing_conflict (meta : Metadata) (incoming : list hostPortClaim) (apps : list App) : res unit :=
  match apps with
  | [] => Ok tt
  | existing :: r =>
      if sameAppMetadata meta (app_Metadata existing) then existing_conflict meta incoming r
      else match findHostPortConflict incoming (hostPortClaims existing) with
           | None => existing_conflict meta incoming r
           | Some (next, current) =>
               Err (Errorf "host port conflict: %s wants %s already claimed by %s"
                      [AStr (describe next); AStr (bindText next); AStr (describe current)])
           end
  end.

(** ** auto_rollback.go: guards *)
Definition autoRollbackGuardKey (meta : Metadata) (rawGeneration : string) : string :=
  let name := TrimSpace (md_Name meta) in
  let generation := TrimSpace rawGeneration in
  if (name =? "")%string || (generation =? "")%string then ""
  else NamespaceOrDefault (md_Namespace meta) +:+ "/" +:+ name +:+ "@" +:+ generation.

(** ** deploy_assignment.go: what an existing assignment means *)
Record deployOptions := mkOptions { forceStopped : bool }.

Definition workloadAssignmentConverged (a : Assignment) (generation : string) : bool :=
  (TrimSpace (as_Generation a) =? TrimSpace generation)%string
  && (as_Status a =? AssignmentStatusRunning)%string.

Definition shouldSkipStoppedAssignment (a : Assignment) (generation : string) (opts : deployOptions) : bool :=
  negb (forceStopped opts) && (TrimSpace (as_Generation a) =? TrimSpace generation)%string
  && (TrimSpace (as_Status a) =? AssignmentStatusStopped)%string.

Definition failedAssignmentSameGeneration (a : Assignment) (generation : string) : bool :=
  (TrimSpace (as_Generation a) =? TrimSpace generation)%string
  && (TrimSpace (as_Status a) =? AssignmentStatusFailed)%string.

Definition assignmentMayHaveRuntime (status : string) : bool :=
  (TrimSpace status =? AssignmentStatusAssigned)%string
  || (TrimSpace status =? AssignmentStatusRunning)%string.

Definition assignmentConvergedStatus (status : string) : bool :=
  (TrimSpace status =? AssignmentStatusAssigned)%string
  || (TrimSpace status =? AssignmentStatusRunning)%string.

Definition assignmentConvergedOnDifferentNode (a : Assignment) (rawFailed generation : string) : bool :=
  if negb (TrimSpace (as_Generation a) =? TrimSpace generation)%string then false
  else if negb (assignmentConvergedStatus (as_Status a)) then false
  else
    let currentNode := TrimSpace (as_Node a) in
    let failedNodeID := TrimSpace rawFailed in
    negb (currentNode =? "")%string && negb (failedNodeID =? "")%string
    && negb (currentNode =? failedNodeID)%string.

Definition normalizeOperationMetadata (m : Metadata) : Metadata := set_metadata_trimmed m.

Section deploy.
Context `{Digest, World} `{ListSort, GraphLib} (cfg : TaskConfig).

(** ** preflight.go: the service's part *)
Definition listen_answer (c : hostPortClaim) (tr : list event) : res unit :=
  let addr := JoinHostPort (listenHost c) (Itoa (hc_HostPort c)) in
  let udp := (hc_Protocol c =? ProtoUDP)%string in
  closed ← wrap "host port unavailable: %s cannot bind %s" [AStr (describe c); AStr (bindText c)]
             (w_listen tr (if udp then "udp" else "tcp") addr);
  wrap (if udp then "close host port preflight socket" else "close host port preflight listener") [] closed.
Definition checkLocalAvailable (c : hostPortClaim) : M (res unit) := call (listen_answer c) (EvListen c).

Definition sameAppHostPortClaims (meta : Metadata) : M (list hostPortClaim) :=
  a ← raft_GetDesiredDeployApp meta;
  mret (if a is Some app then hostPortClaims app else []).

Definition preflightLocalHostPorts (meta : Metadata) (incoming : list hostPortClaim) : M (res unit) :=
  current ← sameAppHostPortClaims meta;
  each_err (λ claim,
    match findHostPortConflict [claim] current with
    | Some _ => ok
    | None => checkLocalAvailable claim
    end) incoming.

Definition preflightExistingHostPorts (meta : Metadata) (incoming : list hostPortClaim) : M (res unit) :=
  apps ← raft_ListDesiredDeployApps;
  mret (existing_conflict meta incoming apps).

Definition preflightDeploy (app : App) : M (res unit) :=
  try (mret (preflightDuplicateHostPorts app)) (λ _,
    let incoming := hostPortClaims app in
    if (length incoming =? 0)%nat then ok
    else try (preflightExistingHostPorts (app_Metadata app) incoming)
           (λ _, preflightLocalHostPorts (app_Metadata app) incoming)).

(** ** auto_rollback.go *)
Definition markAutoRollbackAttempt (meta : Metadata) (generation : string) : M bool :=
  let key := autoRollbackGuardKey meta generation in
  if (key =? "")%string then mret false
  else
    s ← get;
    if bool_decide (key ∈ ts_rollbackAttempts s) then mret false
    else _ ← modify (λ s, set_rollbackAttempts ({[key]} ∪ ts_rollbackAttempts s) s); mret true.

Definition suppressAutoRollback (meta : Metadata) (generation : string) : M unit :=
  let key := autoRollbackGuardKey meta generation in
  if (key =? "")%string then mret tt
  else modify (λ s, set_rollbackSuppressed ({[key]} ∪ ts_rollbackSuppressed s) s).

Definition autoRollbackIsSuppressed (meta : Metadata) (generation : string) (s : TaskState) : bool :=
  let key := autoRollbackGuardKey meta generation in
  if (key =? "")%string then false else bool_decide (key ∈ ts_rollbackSuppressed s).

Definition autoRollbackConfigured (app : App) (w : Workload) (generation : string) (s : TaskState) : bool :=
  if (generation =? "")%string then false
  else if negb (RollbackOnFailureEnabled (w_Rollout w)) then false
  else negb (autoRollbackIsSuppressed (app_Metadata app) generation s).

Definition autoRollbackDesiredGenerationCurrent (meta : Metadata) (generation : string) (s : TaskState) : bool :=
  match getDeployApp meta (fsm_of s) with
  | Some current => (TrimSpace (AppGeneration current) =? generation)%string
  | None => false
  end.

Definition previousAutoRollbackRevision (meta : Metadata) (generation : string) (s : TaskState)
    : option DeployAppRevision :=
  match previousDeployApp meta (fsm_of s) with
  | None => None
  | Some revision =>
      let target := TrimSpace (rev_Generation revision) in
      if negb (target =? "")%string && negb (target =? generation)%string then Some revision else None
  end.

Definition autoRollbackRevision (app : App) (w : Workload) (rawGeneration : string)
    : M (option DeployAppRevision) :=
  let generation := TrimSpace rawGeneration in
  let meta := app_Metadata app in
  s ← get;
  if negb (autoRollbackConfigured app w generation s) then mret None
  else if negb (autoRollbackDesiredGenerationCurrent meta generation s) then mret None
  else match previousAutoRollbackRevision meta generation s with
       | None => mret None
       | Some revision =>
           marked ← markAutoRollbackAttempt meta generation;
           mret (if marked : bool then Some revision else None)
       end.

Definition maybeAutoRollbackDeployFailure (app : App) (w : Workload) (generation : string) : M unit :=
  o ← autoRollbackRevision app w generation;
  match o with
  | None => mret tt
  | Some revision =>
      p ← preflightDeploy (rev_App revision);
      match p with
      | Err _ => mret tt
      | Ok _ =>
          _ ← suppressAutoRollback (app_Metadata app) (rev_Generation revision);
          _ ← raft_ApplyDeployApp (rev_App revision);
          mret tt
      end
  end.

(** ** deploy.go *)
Definition skipStaleDeployFailure (meta : Metadata) (name failedNodeID generation : string) : M bool :=
  a ← workloadAssignment meta name;
  mret (if a is Some a then assignmentConvergedOnDifferentNode a failedNodeID generation else false).

Definition recordDeployFailure (app : App) (w : Workload) (nodeID generation : string) (err : error) : M unit :=
  let meta := app_Metadata app in
  _ ← stopWorkloadHealthMonitor meta (w_Name w);
  skip ← skipStaleDeployFailure meta (w_Name w) nodeID generation;
  if skip : bool then mret tt
  else
    _ ← applyWorkloadAssignment meta w nodeID AssignmentStatusFailed generation (w_errorText err) [];
    _ ← applyWorkloadVolumeBindings app w nodeID BindingStatusFailed generation (w_errorText err);
    maybeAutoRollbackDeployFailure app w generation.

(** The loop over [PreferredNodes]. *)
Fixpoint preferred_configured (self : string) (nodes : list string) : option string :=
  match nodes with
  | [] => None
  | raw :: r =>
      let nodeID := TrimSpace raw in
      if (nodeID =? "")%string || (nodeID =? TrimSpace self)%string then preferred_configured self r
      else if NodeURL cfg nodeID is Some _ then Some nodeID
      else preferred_configured self r
  end.
Definition preferredConfiguredNode (w : Workload) (self : string) : option string :=
  sch ← w_Scheduling w; preferred_configured self (sch_PreferredNodes sch).

Definition chooseWorkloadNode (w : Workload) (self : string) : M (res string) :=
  catalog ← the_catalog;
  mret (match Choose w catalog self with
        | Ok chosen => Ok chosen
        | Err e =>
            match preferredConfiguredNode w self with
            | Some fallback => Ok fallback
            | None => Err (Wrapf e "choose workload node" [])
            end
        end).

Definition deployRemoteWorkload (app : App) (w : Workload) (nodeID generation : string) : M (res unit) :=
  let meta := app_Metadata app in
  r ← dispatchWorkload cfg meta w nodeID;
  match r with
  | Err e => _ ← recordDeployFailure app w nodeID generation e; fail e
  | Ok result =>
      let status := CoalesceOrEmpty [TrimSpace (dr_Status result); "dispatched"] in
      _ ← registry_Upsert (w_Name w) nodeID (w_Runtime w) (ArtifactSummary (w_Run w)) status;
      _ ← applyWorkloadAssignment meta w nodeID status generation "" [dr_Address result];
      _ ← applyWorkloadVolumeBindings app w nodeID BindingStatusBound generation "";
      ok
  end.

Definition deployLocalAssignedWorkload (app : App) (w : Workload) (nodeID generation : string) : M (res unit) :=
  let meta := app_Metadata app in
  r ← runLocalWorkload meta w nodeID;
  match r with
  | Err e => _ ← recordDeployFailure app w nodeID generation e; fail e
  | Ok result =>
      let status := CoalesceOrEmpty [TrimSpace (rr_Status result); AssignmentStatusRunning] in
      _ ← applyWorkloadAssignment meta w nodeID status generation "" [rr_Address result];
      _ ← applyWorkloadVolumeBindings app w nodeID BindingStatusBound generation "";
      _ ← startLocalWorkloadHealthMonitor cfg app w nodeID;
      ok
  end.

(** ** deploy_assignment.go *)
Definition stopPreviousGeneration (meta : Metadata) (w : Workload) (a : Assignment) (generation : string)
    : M (res unit) :=
  if (TrimSpace (as_Generation a) =? TrimSpace generation)%string then ok
  else
    let nodeID := TrimSpace (as_Node a) in
    if (nodeID =? "")%string || negb (assignmentMayHaveRuntime (as_Status a)) then ok
    else stopWorkloadOnNode cfg meta w nodeID.

Definition canRetryFailedAssignment (w : Workload) (a : Assignment) (generation : string) : M bool :=
  if negb (failedAssignmentSameGeneration a generation) then mret true
  else allowWorkloadRestart w (as_Key a) generation.

(** [(handled, err)]: [Ok true] and [Err _] end the deployment of the workload. *)
Definition handleExistingAssignment (app : App) (w : Workload) (a : Assignment) (generation : string)
    (opts : deployOptions) : M (res bool) :=
  if workloadAssignmentConverged a generation then mret (Ok true)
  else if shouldSkipStoppedAssignment a generation opts then mret (Ok true)
  else
    retry ← canRetryFailedAssignment w a generation;
    if negb retry then mret (Ok true)
    else
      delayed ← (if failedAssignmentSameGeneration a generation
                 then waitWorkloadRestartDelay w else mret None);
      match delayed with
      | Some e => fail (Wrapf e "wait restart delay for workload %s" [AStr (w_Name w)])
      | None =>
          r ← stopPreviousGeneration (app_Metadata app) w a generation;
          match r with
          | Ok _ => mret (Ok false)
          | Err e => _ ← recordDeployFailure app w (TrimSpace (as_Node a)) generation e; fail e
          end
      end.

Definition placeWorkload (app : App) (w : Workload) (self generation : string) : M (res unit) :=
  let meta := app_Metadata app in
  c ← chooseWorkloadNode w self;
  match c with
  | Err e =>
      _ ← recordDeployFailure app w "" generation e;
      fail (Wrapf e "placement workload %s" [AStr (w_Name w)])
  | Ok chosen =>
      _ ← applyWorkloadAssignment meta w chosen AssignmentStatusAssigned generation "" [];
      if negb (chosen =? self)%string then deployRemoteWorkload app w chosen generation
      else deployLocalAssignedWorkload app w chosen generation
  end.

Definition deployOneWorkload (app : App) (self generation : string) (opts : deployOptions) (w : Workload)
    : M (res unit) :=
  a ← workloadAssignment (app_Metadata app) (w_Name w);
  match a with
  | None => placeWorkload app w self generation
  | Some a =>
      try (handleExistingAssignment app w a generation opts)
        (λ handled, if handled : bool then ok else placeWorkload app w self generation)
  end.

Definition deployOrderedWorkloads (app : App) (workloads : list Workload) (generation : string)
    (opts : deployOptions) : M (res unit) :=
  each_err (deployOneWorkload app (tc_local cfg) generation opts) workloads.

Definition prepareDeploy (app : App) : M (res (list Workload * string)) :=
  try (wrapM "validate app" [] (mret (Validate app))) (λ _,
    _ ← RefreshLocal cfg;
    try (wrapM "order workloads" [] (mret (WorkloadsInDependencyOrder app)))
      (λ workloads, mret (Ok (workloads, AppGeneration app)))).

Definition deployAppWorkloadsWithOptions (app : App) (opts : deployOptions) : M (res unit) :=
  try (prepareDeploy app) (λ '(workloads, generation), deployOrderedWorkloads app workloads generation opts).

Definition deployAppWorkloads (app : App) : M (res unit) :=
  deployAppWorkloadsWithOptions app (mkOptions false).
Definition startAppWorkloads (app : App) : M (res unit) :=
  deployAppWorkloadsWithOptions app (mkOptions true).

Definition SubmitDeploy (app : App) : M (res unit) :=
  try (wrapM "validate app" [] (mret (Validate app))) (λ _,
  try (wrapM "preflight deploy" [] (preflightDeploy app)) (λ _,
  wrapM "replicate deploy" [] (raft_ApplyDeployApp app))).

(** ** lifecycle.go *)
Definition assignmentNodeOrEmpty (meta : Metadata) (name : string) : M string :=
  a ← workloadAssignment meta name; mret (if a is Some a then as_Node a else "").

Definition stopOneWorkload (app : App) (generation : string) (w : Workload) : M (res unit) :=
  let meta := app_Metadata app in
  r ← stopWorkload cfg meta w;
  nodeID ← assignmentNodeOrEmpty meta (w_Name w);
  match r with
  | Err e =>
      _ ← applyWorkloadAssignment meta w nodeID AssignmentStatusFailed generation (w_errorText e) [];
      _ ← applyWorkloadVolumeBindings app w nodeID BindingStatusFailed generation (w_errorText e);
      fail e
  | Ok _ =>
      _ ← applyWorkloadAssignment meta w nodeID AssignmentStatusStopped generation "" [];
      _ ← applyWorkloadVolumeBindings app w nodeID BindingStatusReleased generation "";
      ok
  end.

Definition stopAppWorkloads (app : App) : M (res unit) :=
  try (wrapM "order workloads" [] (mret (WorkloadsInDependencyOrder app)))
    (λ workloads, each_err (stopOneWorkload app (AppGeneration app)) (reverse workloads)).

Definition name_required : error := Errorf "metadata.name is required" [].
Definition app_not_found (m : Metadata) : error :=
  Errorf "deploy app %s/%s not found" [AStr (NamespaceOrDefault (md_Namespace m)); AStr (md_Name m)].

Definition SubmitDelete (raw : Metadata) : M (res unit) :=
  let meta := normalizeOperationMetadata raw in
  if (md_Name meta =? "")%string then fail name_required
  else
    app ← raft_GetDesiredDeployApp meta;
    try (wrapM "delete desired app" [] (raft_ApplyDeleteDeployApp meta))
      (λ _, match app with Some app => stopAppWorkloads app | None => ok end).

Definition submitExistingDeployApp (raw : Metadata) (run : App → M (res unit)) : M (res unit) :=
  let meta := normalizeOperationMetadata raw in
  if (md_Name meta =? "")%string then fail name_required
  else
    app ← raft_GetDesiredDeployApp meta;
    match app with
    | None => fail (app_not_found meta)
    | Some app => run app
    end.

Definition SubmitStop (meta : Metadata) : M (res unit) := submitExistingDeployApp meta stopAppWorkloads.
Definition SubmitStart (meta : Metadata) : M (res unit) := submitExistingDeployApp meta startAppWorkloads.
Definition SubmitRestart (meta : Metadata) : M (res unit) :=
  try (SubmitStop meta) (λ _, SubmitStart meta).

Definition SubmitRollback (raw : Metadata) : M (res unit) :=
  let meta := normalizeOperationMetadata raw in
  if (md_Name meta =? "")%string then fail name_required
  else
    revision ← raft_GetPreviousDeployApp meta;
    match revision with
    | None => fail (Errorf "deploy app %s/%s has no rollback revision"
                      [AStr (NamespaceOrDefault (md_Namespace meta)); AStr (md_Name meta)])
    | Some revision =>
        _ ← suppressAutoRollback meta (rev_Generation revision);
        wrapM "rollback deploy app" [] (SubmitDeploy (rev_App revision))
    end.

(** ** reconcile.go: one pass over the desired applications *)
Definition reconcileAll : M unit :=
  apps ← raft_ListDesiredDeployApps;
  each (λ app, _ ← deployAppWorkloads app; mret tt) apps.

(** ** lifecycle.go: the worker side *)
Definition validateWorkerWorkload (meta : Metadata) (w : Workload) (assignedNode : string) : res unit :=
  if (TrimSpace (md_Name meta) =? "")%string then Err name_required
  else if (TrimSpace (w_Name w) =? "")%string then Err (Errorf "workload.name is required" [])
  else
    let self := tc_local cfg in
    let nodeID := TrimSpace assignedNode in
    guard_err (negb (nodeID =? "")%string && negb (self =? "")%string && negb (nodeID =? self)%string)
      (Errorf "workload %q assigned to node %q, local node is %q" [AStr (w_Name w); AStr nodeID; AStr self]).

Definition desiredHealthMonitorApp (meta : Metadata) (w : Workload) : M App :=
  a ← raft_GetDesiredDeployApp meta;
  mret (default (mkApp "" "" meta [w] [] [] [] []) a).

Definition DeployWorkerWorkload (meta : Metadata) (w : Workload) (assignedNode : string) : M (res string) :=
  try (mret (validateWorkerWorkload meta w assignedNode)) (λ _,
  try (runLocalWorkload meta w (tc_local cfg)) (λ result,
    app ← desiredHealthMonitorApp meta w;
    _ ← startLocalWorkloadHealthMonitor cfg app w (tc_local cfg);
    mret (Ok (rr_Address result)))).

Definition StopWorkerWorkload (meta : Metadata) (w : Workload) (assignedNode : string) : M (res unit) :=
  try (mret (validateWorkerWorkload meta w assignedNode)) (λ _,
    _ ← stopWorkloadHealthMonitor meta (w_Name w);
    try (wrapM "stop worker workload" [] (runtime_Stop (w_Runtime w) meta (w_Name w)))
      (λ _, _ ← registry_Delete (w_Name w); ok)).
End deploy.
