(* ===== verification/TaskOps.v ===== *)
(** * Moving workloads between nodes (internal/services/task/operations*.go) *)
From stdpp Require Import base strings numbers gmap list.
From Stdlib Require Import Ascii.
From S2P Require Import Prelude GoStrings GoTime GoNet GoList Deploy Dependency Validate Meta Placement Fsm RaftService TaskBase TaskRun TaskDeploy.

(** ** operations_select.go *)

(** An insertion-ordered set of names. *)
Definition requestedWorkloadNames (names : list string) : list string :=
  foldl (λ s raw, let name := TrimSpace raw in
                  if (name =? "")%string then s else ordered_add s name) [] names.

(** The loop removes each name it finds; what is left of the set was not found. *)
Definition select_step (acc : list Workload * list string) (w : Workload) : list Workload * list string :=
  let name := TrimSpace (w_Name w) in
  if bool_decide (name ∈ acc.2) then (acc.1 ++ [w], filter (λ n, n ≠ name) acc.2) else acc.
Definition selectedOperationWorkloads (ordered : list Workload) (wanted : list string)
    : list Workload * list string :=
  foldl select_step ([], wanted) ordered.

Record AppOperationOptions := mkOpOptions { oo_TargetNode : string; oo_Workloads : list string }.
Record AppOperationSummary := mkSummary {
  su_Operation : string; su_App : string; su_Namespace : string; su_TargetNode : string;
  su_Workloads : nat; su_Moved : nat; su_Status : string }.
Definition set_su (target : string) (moved : nat) (status : string) (su : AppOperationSummary) : AppOperationSummary :=
  mkSummary (su_Operation su) (su_App su) (su_Namespace su) target (su_Workloads su) moved status.

Record plannedWorkloadMove := mkMove {
  mv_workload : Workload; mv_current : string; mv_target : string; mv_assigned : bool }.

Definition OperationMigrate := "migrate".
Definition OperationFailover := "failover".
Definition OperationRebalance := "rebalance".

(** [addNodeCandidate]: [seen] is the set of the candidates already in [out]. *)
Definition addNodeCandidate (current : string) (out : list string) (nodeIDs : list string) : list string :=
  foldl (λ out raw,
    let nodeID := TrimSpace raw in
    if (nodeID =? "")%string || (nodeID =? current)%string then out
    else ordered_add out nodeID) out nodeIDs.

Definition failoverCandidate (w : Workload) (candidates : list string) : Workload :=
  let sch := default (mkScheduling false false []) (w_Scheduling w) in
  set_scheduling (Some (mkScheduling (sch_Stateful sch) (sch_AllowLeader sch) candidates)) w.

Section operations.
Context `{Digest, World} `{ListSort, GraphLib} (cfg : TaskConfig).

Definition missingWorkloadError (wanted : list string) : error :=
  Errorf "workload(s) not found: %s" [AStr (String.concat ", " (list_sort Compare wanted))].

Definition selectOperationWorkloads (app : App) (names : list string) : res (list Workload) :=
  ordered ← wrap "order workloads" [] (WorkloadsInDependencyOrder app);
  match requestedWorkloadNames names with
  | [] => Ok ordered
  | wanted =>
      let '(selected, missing) := selectedOperationWorkloads ordered wanted in
      match missing with
      | [] => Ok selected
      | _ => Err (missingWorkloadError missing)
      end
  end.

Definition failedWorkloads (meta : Metadata) (workloads : list Workload) (s : TaskState) : list Workload :=
  filter (λ w, match getAssignment (AssignmentKey meta (w_Name w)) (fsm_of s) with
               | Some a => (as_Status a =? AssignmentStatusFailed)%string
               | None => false
               end = true) workloads.

Definition failoverWorkloads (app : App) (names : list string) : M (res (list Workload)) :=
  try (mret (selectOperationWorkloads app names)) (λ workloads,
    if (0 <? length names)%nat then mret (Ok workloads)
    else
      s ← get;
      match failedWorkloads (app_Metadata app) workloads s with
      | [] => fail (Errorf "deploy app %s/%s has no failed workloads"
                      [AStr (NamespaceOrDefault (md_Namespace (app_Metadata app)));
                       AStr (md_Name (app_Metadata app))])
      | failed => mret (Ok failed)
      end).

(** ** operations_nodes.go *)
Definition currentWorkloadAssignmentNode (meta : Metadata) (name : string) : M (string * bool) :=
  a ← workloadAssignment meta name;
  mret (if a is Some a then (TrimSpace (as_Node a), true) else ("", false)).

Definition workloadAssignmentStatus (meta : Metadata) (name : string) : M string :=
  a ← workloadAssignment meta name; mret (if a is Some a then TrimSpace (as_Status a) else "").

Definition sortedConfiguredNodeIDs : list string := list_sort Compare (tc_nodes cfg).*1.

Definition alternativeNodeCandidates (rawCurrent : string) : M (list string) :=
  let current := TrimSpace rawCurrent in
  catalog ← the_catalog;
  let out := addNodeCandidate current [] (Catalog_NodeIDs catalog) in
  let out := addNodeCandidate current out sortedConfiguredNodeIDs in
  mret (addNodeCandidate current out [tc_local cfg]).

Definition chooseFailoverNode (w : Workload) (current : string) : M (res string) :=
  _ ← RefreshLocal cfg;
  candidates ← alternativeNodeCandidates current;
  if (length candidates =? 0)%nat
  then fail (Errorf "no alternative node available for workload %q" [AStr (w_Name w)])
  else chooseWorkloadNode cfg (failoverCandidate w candidates) (tc_local cfg).

(** ** operations_move.go *)
Definition normalizeMoveTarget (targetFor : Workload → M (res string)) (w : Workload) : M (res string) :=
  try (targetFor w) (λ target,
    let target := TrimSpace target in
    if (target =? "")%string then fail (Errorf "empty target node for workload %q" [AStr (w_Name w)])
    else mret (Ok target)).

(** One turn of the planning loop: the plans so far and the first target chosen. *)
Definition plan_step (meta : Metadata) (targetFor : Workload → M (res string))
    (acc : list plannedWorkloadMove * string) (w : Workload)
    : M (res (list plannedWorkloadMove * string)) :=
  try (normalizeMoveTarget targetFor w) (λ target,
    '(node, assigned) ← currentWorkloadAssignmentNode meta (w_Name w);
    let current := if (node =? "")%string then tc_local cfg else node in
    if assigned && (current =? target)%string then mret (Ok acc)
    else mret (Ok (acc.1 ++ [mkMove w current target assigned],
                   if (acc.2 =? "")%string then target else acc.2))).

(** The plans and the target are returned beside the error. *)
Fixpoint planWorkloadMoves (meta : Metadata) (targetFor : Workload → M (res string))
    (acc : list plannedWorkloadMove * string) (l : list Workload)
    : M (list plannedWorkloadMove * string * res unit) :=
  match l with
  | [] => mret (acc, Ok tt)
  | w :: r =>
      a ← plan_step meta targetFor acc w;
      match a with
      | Ok acc' => planWorkloadMoves meta targetFor acc' r
      | Err e => mret (acc, Err e)
      end
  end.

Definition skipMoveStop (meta : Metadata) (operation : string) (plan : plannedWorkloadMove) : M bool :=
  if negb (mv_assigned plan) then mret true
  else
    st ← workloadAssignmentStatus meta (w_Name (mv_workload plan));
    mret ((operation =? OperationFailover)%string && (st =? AssignmentStatusFailed)%string).

Definition stopOneMove (app : App) (operation generation : string) (plan : plannedWorkloadMove) : M (res unit) :=
  let meta := app_Metadata app in
  let w := mv_workload plan in
  skip ← skipMoveStop meta operation plan;
  if skip : bool then ok
  else
    r ← stopWorkload cfg meta w;
    match r with
    | Err e =>
        _ ← applyWorkloadAssignment meta w (mv_current plan) AssignmentStatusFailed generation (w_errorText e) [];
        _ ← applyWorkloadVolumeBindings app w (mv_current plan) BindingStatusFailed generation (w_errorText e);
        if (operation =? OperationFailover)%string then ok else fail e
    | Ok _ =>
        _ ← applyWorkloadAssignment meta w (mv_current plan) AssignmentStatusStopped generation "" [];
        _ ← applyWorkloadVolumeBindings app w (mv_current plan) BindingStatusReleased generation "";
        ok
    end.

Definition stopMovePlans (app : App) (operation generation : string) (plans : list plannedWorkloadMove)
    : M (res unit) := each_err (stopOneMove app operation generation) (reverse plans).

Definition startOneMove (app : App) (generation : string) (plan : plannedWorkloadMove) : M (res unit) :=
  let meta := app_Metadata app in
  let w := mv_workload plan in
  let target := mv_target plan in
  _ ← applyWorkloadAssignment meta w target AssignmentStatusAssigned generation "" [];
  r ← runWorkloadOnNode cfg meta w target;
  match r with
  | Err e =>
      _ ← applyWorkloadAssignment meta w target AssignmentStatusFailed generation (w_errorText e) [];
      _ ← applyWorkloadVolumeBindings app w target BindingStatusFailed generation (w_errorText e);
      fail e
  | Ok result =>
      let status := CoalesceOrEmpty [TrimSpace (rr_Status result); AssignmentStatusRunning] in
      _ ← applyWorkloadAssignment meta w target status generation "" [rr_Address result];
      _ ← applyWorkloadVolumeBindings app w target BindingStatusBound generation "";
      ok
  end.

Fixpoint startMovePlans (app : App) (generation : string) (moved : nat) (plans : list plannedWorkloadMove)
    : M (nat * res unit) :=
  match plans with
  | [] => mret (moved, Ok tt)
  | plan :: r =>
      x ← startOneMove app generation plan;
      match x with
      | Err e => mret (moved, Err e)
      | Ok _ => startMovePlans app generation (S moved) r
      end
  end.

Definition operationSummary (app : App) (operation : string) (n : nat) : AppOperationSummary :=
  mkSummary operation (md_Name (app_Metadata app)) (NamespaceOrDefault (md_Namespace (app_Metadata app)))
    "" n 0 AssignmentStatusRunning.

Definition moveAppWorkloads (app : App) (operation : string) (workloads : list Workload)
    (targetFor : Workload → M (res string)) : M (AppOperationSummary * res unit) :=
  let su := operationSummary app operation (length workloads) in
  '(plans, targetNode, planned) ← planWorkloadMoves (app_Metadata app) targetFor ([], "") workloads;
  match planned with
  | Err e => mret (set_su targetNode 0 AssignmentStatusFailed su,
                   Err (Wrapf e "%s target selection failed" [AStr operation]))
  | Ok _ =>
      if (length plans =? 0)%nat then mret (set_su targetNode 0 "unchanged" su, Ok tt)
      else
        let generation := AppGeneration app in
        stopped ← stopMovePlans app operation generation plans;
        match stopped with
        | Err e => mret (set_su targetNode 0 AssignmentStatusFailed su, Err e)
        | Ok _ =>
            '(moved, started) ← startMovePlans app generation 0 plans;
            match started with
            | Err e => mret (set_su targetNode moved AssignmentStatusFailed su, Err e)
            | Ok _ => mret (set_su targetNode moved AssignmentStatusRunning su, Ok tt)
            end
        end
  end.

(** ** operations.go *)
Definition zero_summary : AppOperationSummary := mkSummary "" "" "" "" 0 0 "".

Definition operationApp (raw : Metadata) : M (res App) :=
  let meta := normalizeOperationMetadata raw in
  if (md_Name meta =? "")%string then fail name_required
  else app ← raft_GetDesiredDeployApp meta;
       match app with None => fail (app_not_found meta) | Some a => mret (Ok a) end.

Definition or_zero {A} (m : M (res A)) (k : A → M (AppOperationSummary * res unit))
    : M (AppOperationSummary * res unit) :=
  r ← m; match r with Ok a => k a | Err e => mret (zero_summary, Err e) end.

Definition SubmitMigrate (meta : Metadata) (opts : AppOperationOptions) : M (AppOperationSummary * res unit) :=
  let target := TrimSpace (oo_TargetNode opts) in
  if (target =? "")%string then mret (zero_summary, Err (Errorf "target node is required" []))
  else
    or_zero (operationApp meta) (λ app,
    or_zero (mret (selectOperationWorkloads app (oo_Workloads opts))) (λ workloads,
    moveAppWorkloads app OperationMigrate workloads (λ _, mret (Ok target)))).

Definition SubmitFailover (meta : Metadata) (opts : AppOperationOptions) : M (AppOperationSummary * res unit) :=
  or_zero (operationApp meta) (λ app,
  or_zero (failoverWorkloads app (oo_Workloads opts)) (λ workloads,
  let target := TrimSpace (oo_TargetNode opts) in
  moveAppWorkloads app OperationFailover workloads (λ w,
    if negb (target =? "")%string then mret (Ok target)
    else current ← assignmentNodeOrEmpty (app_Metadata app) (w_Name w);
         chooseFailoverNode w current))).

Definition SubmitRebalance (meta : Metadata) (opts : AppOperationOptions) : M (AppOperationSummary * res unit) :=
  or_zero (operationApp meta) (λ app,
  or_zero (mret (selectOperationWorkloads app (oo_Workloads opts))) (λ workloads,
  _ ← RefreshLocal cfg;
  moveAppWorkloads app OperationRebalance workloads (λ w, chooseWorkloadNode cfg w (tc_local cfg)))).
End operations.
