(* ===== verification/TaskViews.v ===== *)
(** * Failure recovery, health and the application views (internal/services/task: recovery.go,
      health_controller.go, apps.go, revisions.go, runtime_view.go) *)
From stdpp Require Import base strings numbers gmap list.
From Stdlib Require Import Ascii.
From S2P Require Import Prelude GoStrings GoTime GoNet GoList Deploy Dependency Validate Meta Placement Fsm RaftService TaskBase TaskRun TaskDeploy.

(** ** recovery.go *)
Record RecoverySummary := mkRecovery { rs_Checked : nat; rs_Restarted : nat; rs_Failed : nat }.
Definition rec_zero : RecoverySummary := mkRecovery 0 0 0.
Definition rec_add (a b : RecoverySummary) : RecoverySummary :=
  mkRecovery (rs_Checked a + rs_Checked b) (rs_Restarted a + rs_Restarted b) (rs_Failed a + rs_Failed b).

(** [strings.ToLower(s) == word] for an ASCII word: [to_lower_rune] is exact on the runes whose
    lower case is ASCII, and no other rune can contribute a character of the word. *)
Definition lower_is (s word : string) : bool :=
  bool_decide ((to_lower_rune <$> runes s) = runes word).

Definition restartableRuntimeStatus (status : string) : bool :=
  let s := TrimSpace status in
  lower_is s "dead" || lower_is s "exited" || lower_is s "failed" || lower_is s "stopped".

(** ** health_controller.go *)
Record workloadHealthTarget := mkTarget {
  ht_app : App; ht_workload : Workload; ht_nodeID : string; ht_generation : string;
  ht_address : string; ht_key : string }.

(** ** apps.go: views *)
Record AppWorkloadView := mkWorkloadView {
  wv_Name : string; wv_Kind : string; wv_Runtime : string; wv_Node : string; wv_Artifact : string;
  wv_Status : string; wv_Generation : string; wv_Error : string; wv_UpdatedAt : Z }.
Record AppView := mkAppView {
  av_Metadata : Metadata; av_Status : string; av_DesiredGeneration : string;
  av_ObservedGeneration : string; av_DesiredWorkloads : nat; av_Running : nat; av_Stopped : nat;
  av_Failed : nat; av_Pending : nat; av_LastTransitionAt : Z; av_LastError : string;
  av_RevisionCount : nat; av_RollbackAvailable : bool; av_PreviousGeneration : string;
  av_Workloads : list AppWorkloadView }.

Definition AppStatusPending := "pending".
Definition AppStatusRunning := "running".
Definition AppStatusStopped := "stopped".
Definition AppStatusPartial := "partial".
Definition AppStatusFailed := "failed".

(** [countWorkloadStatus] and [addWorkload] on the counters of a view. *)
Definition addWorkload (v : AppView) (item : AppWorkloadView) : AppView :=
  let st := wv_Status item in
  let r := (st =? AssignmentStatusRunning)%string in
  let t := (st =? AssignmentStatusStopped)%string in
  let f := (st =? AssignmentStatusFailed)%string in
  let p := negb r && negb t && negb f in
  let inc (b : bool) n := if b then S n else n in
  mkAppView (av_Metadata v) (av_Status v) (av_DesiredGeneration v) (av_ObservedGeneration v)
    (av_DesiredWorkloads v) (inc r (av_Running v)) (inc t (av_Stopped v)) (inc f (av_Failed v))
    (inc p (av_Pending v))
    (if (av_LastTransitionAt v <? wv_UpdatedAt item)%Z then wv_UpdatedAt item else av_LastTransitionAt v)
    (if negb (wv_Error item =? "")%string && (av_LastError v =? "")%string then wv_Error item else av_LastError v)
    (av_RevisionCount v) (av_RollbackAvailable v) (av_PreviousGeneration v)
    (av_Workloads v ++ [item]).

Definition allDesiredWorkloadsObserved (v : AppView) : bool :=
  if (av_DesiredWorkloads v =? 0)%nat || negb (av_Pending v =? 0)%nat then false
  else (av_Running v + av_Stopped v + av_Failed v =? av_DesiredWorkloads v)%nat.

Definition aggregateAppStatus (v : AppView) : string :=
  let total := av_DesiredWorkloads v in
  if (total =? 0)%nat then AppStatusPending
  else if (0 <? av_Failed v)%nat then AppStatusFailed
  else if (av_Running v =? total)%nat then AppStatusRunning
  else if (av_Stopped v =? total)%nat then AppStatusStopped
  else if (0 <? av_Running v)%nat || (0 <? av_Stopped v)%nat then AppStatusPartial
  else AppStatusPending.

Section views.
Context `{Digest, Codec} `{GraphLib}.

Definition appWorkloadsForView (app : App) : list Workload :=
  match WorkloadsInDependencyOrder app with Ok l => l | Err _ => app_Workloads app end.

Definition buildAppWorkloadView (f : schedulingFSM) (meta : Metadata) (desiredGeneration : string) (w : Workload)
    : AppWorkloadView :=
  let artifact := ArtifactSummary (w_Run w) in
  match getAssignment (AssignmentKey meta (w_Name w)) f with
  | None => mkWorkloadView (w_Name w) (w_Kind w) (w_Runtime w) "" artifact AppStatusPending "" "" 0
  | Some a =>
      let observed := TrimSpace (as_Generation a) in
      let artifact := if (as_Artifact a =? "")%string then artifact else as_Artifact a in
      if negb (observed =? desiredGeneration)%string
      then mkWorkloadView (w_Name w) (w_Kind w) (w_Runtime w) (as_Node a) artifact AppStatusPending
             observed "" (as_UpdatedAt a)
      else mkWorkloadView (w_Name w) (w_Kind w) (w_Runtime w) (as_Node a) artifact
             (CoalesceOrEmpty [TrimSpace (as_Status a); AppStatusPending]) observed (as_Error a) (as_UpdatedAt a)
  end.

(** The counting part of [buildAppView]. *)
Definition countedView (f : schedulingFSM) (app : App) : AppView :=
  let workloads := appWorkloadsForView app in
  let generation := AppGeneration app in
  foldl addWorkload
    (mkAppView (app_Metadata app) "" generation "" (length workloads) 0 0 0 0 0 "" 0 false "" [])
    (buildAppWorkloadView f (app_Metadata app) generation <$> workloads).

Definition finishView (f : schedulingFSM) (app : App) (v : AppView) : AppView :=
  let previous := previousDeployApp (av_Metadata v) f in
  mkAppView (av_Metadata v) (aggregateAppStatus v) (av_DesiredGeneration v)
    (if allDesiredWorkloadsObserved v then AppGeneration app else "")
    (av_DesiredWorkloads v) (av_Running v) (av_Stopped v) (av_Failed v) (av_Pending v)
    (av_LastTransitionAt v) (av_LastError v)
    (length (listDeployAppRevisions (av_Metadata v) f))
    (if previous is Some _ then true else false)
    (if previous is Some r then TrimSpace (rev_Generation r) else "")
    (av_Workloads v).

Definition buildAppView (f : schedulingFSM) (app : App) : AppView :=
  finishView f app (countedView f app).

Definition GetApp (f : schedulingFSM) (meta : Metadata) : option AppView :=
  buildAppView f <$> getDeployApp meta f.

Definition app_view_cmp (a b : AppView) : comparison :=
  match Compare (NamespaceOrDefault (md_Namespace (av_Metadata a)))
          (NamespaceOrDefault (md_Namespace (av_Metadata b))) with
  | Eq => Compare (TrimSpace (md_Name (av_Metadata a))) (TrimSpace (md_Name (av_Metadata b)))
  | c => c
  end.

(** [apps] is the order in which the map of desired applications was iterated. *)
Definition ListApps `{ListSort} (f : schedulingFSM) (apps : list App) : list AppView :=
  list_sort app_view_cmp (buildAppView f <$> apps).

Definition DesiredWorkload (f : schedulingFSM) (meta : Metadata) (rawName : string) : option Workload :=
  app ← getDeployApp meta f;
  find (λ w, (TrimSpace (w_Name w) =? TrimSpace rawName)%string) (appWorkloadsForView app).

(** ** revisions.go *)
Record AppRevisionView := mkRevisionView {
  rv_Metadata : Metadata; rv_Generation : string; rv_Workloads : nat; rv_App : App }.

(** The list, and whether the application exists. *)
Definition ListAppRevisions (f : schedulingFSM) (raw : Metadata) : list AppRevisionView * bool :=
  let meta := normalizeOperationMetadata raw in
  if (TrimSpace (md_Name meta) =? "")%string then ([], false)
  else match getDeployApp meta f with
       | None => ([], false)
       | Some _ =>
           ((λ r, let app := rev_App r in
                  let app := set_app_metadata
                               (set_namespace (NamespaceOrDefault (md_Namespace (app_Metadata app))) (app_Metadata app)) app in
                  mkRevisionView (app_Metadata app) (rev_Generation r) (length (app_Workloads app)) app)
              <$> listDeployAppRevisions meta f, true)
       end.
End views.

Section recovery.
Context `{Digest, World} `{ListSort} (cfg : TaskConfig).

Definition localRunningAssignment (meta : Metadata) (w : Workload) (self generation : string)
    : M (option Assignment) :=
  a ← workloadAssignment meta (w_Name w);
  mret (a ← a;
        if negb (TrimSpace (as_Node a) =? self)%string
           || negb (TrimSpace (as_Status a) =? AssignmentStatusRunning)%string then None
        else
          let g := TrimSpace (as_Generation a) in
          if negb (g =? "")%string && negb (g =? TrimSpace generation)%string then None else Some a).

Definition recoverLocalWorkload (app : App) (w : Workload) (a : Assignment) (generation : string) : M bool :=
  let self := TrimSpace (as_Node a) in
  let meta := app_Metadata app in
  r ← runLocalWorkload meta w self;
  match r with
  | Err e =>
      _ ← applyWorkloadAssignment meta w self AssignmentStatusFailed generation (w_errorText e) [as_Address a];
      mret false
  | Ok result =>
      let address := CoalesceOrEmpty [TrimSpace (rr_Address result); TrimSpace (as_Address a)] in
      let status := CoalesceOrEmpty [TrimSpace (rr_Status result); AssignmentStatusRunning] in
      _ ← applyWorkloadAssignment meta w self status generation "" [address];
      mret true
  end.

(** The summary and whether to keep going. *)
Definition recoverWorkloadFailure (app : App) (self generation : string) (w : Workload)
    : M (RecoverySummary * bool) :=
  let meta := app_Metadata app in
  a ← localRunningAssignment meta w self generation;
  match a with
  | None => mret (rec_zero, true)
  | Some a =>
      if never_restarts w then mret (rec_zero, true)
      else
        let checked := mkRecovery 1 0 0 in
        status ← runtime_Status (w_Runtime w) meta (w_Name w);
        match status with
        | Err _ => mret (checked, true)
        | Ok status =>
            if negb (restartableRuntimeStatus (rs_Status status)) then mret (checked, true)
            else
              allowed ← allowWorkloadRestart w (as_Key a) generation;
              if negb allowed then mret (checked, true)
              else
                delayed ← waitWorkloadRestartDelay w;
                match delayed with
                | Some _ => mret (checked, false)
                | None =>
                    restarted ← recoverLocalWorkload app w a generation;
                    mret (if restarted : bool then mkRecovery 1 1 0 else mkRecovery 1 0 1, true)
                end
        end
  end.

(** A loop that adds up summaries and stops when told to. *)
Fixpoint recover_each {A} (f : A → M (RecoverySummary * bool)) (acc : RecoverySummary) (l : list A)
    : M (RecoverySummary * bool) :=
  match l with
  | [] => mret (acc, true)
  | x :: r =>
      '(cur, keepGoing) ← f x;
      let acc' := rec_add acc cur in
      if keepGoing : bool then recover_each f acc' r else mret (acc', false)
  end.

Definition recoverAppLocalFailures (self : string) (app : App) : M (RecoverySummary * bool) :=
  recover_each (recoverWorkloadFailure app self (AppGeneration app)) rec_zero (app_Workloads app).

Definition RecoverLocalFailures : M RecoverySummary :=
  let self := TrimSpace (tc_local cfg) in
  if (self =? "")%string then mret rec_zero
  else
    apps ← raft_ListDesiredDeployApps;
    '(summary, _) ← recover_each (recoverAppLocalFailures self) rec_zero apps;
    mret summary.

(** ** health_controller.go *)
Definition newWorkloadHealthTarget (app : App) (w : Workload) (nodeID rawGeneration address : string)
    : workloadHealthTarget :=
  let generation := if (TrimSpace rawGeneration =? "")%string then AppGeneration app else rawGeneration in
  mkTarget app w (TrimSpace nodeID) (TrimSpace generation) (TrimSpace address)
    (AssignmentKey (app_Metadata app) (w_Name w)).

Definition healthAssignmentStillCurrent (t : workloadHealthTarget) : M bool :=
  a ← raft_GetWorkloadAssignment (ht_key t);
  mret (match a with
        | None => true
        | Some a =>
            if negb (TrimSpace (as_Node a) =? ht_nodeID t)%string then false
            else if negb (ht_generation t =? "")%string
                    && negb (TrimSpace (as_Generation a) =? ht_generation t)%string then false
            else (TrimSpace (as_Status a) =? AssignmentStatusRunning)%string
        end).

Definition failLocalWorkloadHealth (t : workloadHealthTarget) (phase : string) (err : error) : M unit :=
  let w := ht_workload t in
  let meta := app_Metadata (ht_app t) in
  let message := phase +:+ " health failed: " +:+ w_errorText err in
  stopped ← runtime_Stop (w_Runtime w) meta (w_Name w);
  let message := match stopped with
                 | Ok _ => message
                 | Err e => message +:+ "; stop failed: " +:+ w_errorText e
                 end in
  _ ← registry_Delete (w_Name w);
  current ← healthAssignmentStillCurrent t;
  if negb current then mret tt
  else
    _ ← applyWorkloadAssignment meta w (ht_nodeID t) AssignmentStatusFailed (ht_generation t) message [];
    applyWorkloadVolumeBindings (ht_app t) w (ht_nodeID t) BindingStatusFailed (ht_generation t) message.

(** The startup phase of a monitor. *)
Definition runStartupHealth (t : workloadHealthTarget) : M (res unit) :=
  match (h ← w_Health (ht_workload t); h_Startup h) with
  | None => ok
  | Some probe =>
      match buildReadinessCheck w_urlHost (app_Metadata (ht_app t)) (ht_workload t) probe (ht_address t) with
      | Err e => fail e
      | Ok check =>
          try (sleepContext (rc_startPeriod check))
            (λ _, waitHealthProbeAttempts (ht_workload t) "startup" check)
      end
  end.

(** The liveness loop only ends with an error: [n] bounds the rounds that are modelled, and
    [None] says that all of them succeeded and the loop goes on. *)
Fixpoint liveness_rounds (n : nat) (w : Workload) (check : readinessCheck) : M (option (res unit)) :=
  match n with
  | O => mret None
  | S n' =>
      r ← waitHealthProbeAttempts w "liveness" check;
      match r with
      | Err e => mret (Some (Err e))
      | Ok _ =>
          slept ← sleepContext (rc_interval check);
          match slept with Err e => mret (Some (Err e)) | Ok _ => liveness_rounds n' w check end
      end
  end.

Definition runLivenessHealth (n : nat) (t : workloadHealthTarget) : M (option (res unit)) :=
  match (h ← w_Health (ht_workload t); h_Liveness h) with
  | None => mret (Some (Ok tt))
  | Some probe =>
      match buildReadinessCheck w_urlHost (app_Metadata (ht_app t)) (ht_workload t) probe (ht_address t) with
      | Err e => mret (Some (Err e))
      | Ok check =>
          slept ← sleepContext (rc_startPeriod check);
          match slept with
          | Err e => mret (Some (Err e))
          | Ok _ => liveness_rounds n (ht_workload t) check
          end
      end
  end.

(** The run of a monitor up to [n] liveness rounds; [canceled] says whether its context has
    ended after the calls made so far.  A run that is still going has not finished its entry. *)
Definition runWorkloadHealthMonitor (n : nat) (canceled : list event → bool) (runID : Z)
    (t : workloadHealthTarget) : M unit :=
  let fail_unless_canceled phase e :=
    s ← get; if canceled (ts_trace s) then mret tt else failLocalWorkloadHealth t phase e in
  started ← runStartupHealth t;
  match started with
  | Err e =>
      _ ← fail_unless_canceled "startup" e;
      finishWorkloadHealthMonitor (ht_key t) runID
  | Ok _ =>
      lived ← runLivenessHealth n t;
      match lived with
      | None => mret tt
      | Some r =>
          _ ← (match r with Err e => fail_unless_canceled "liveness" e | Ok _ => mret tt end);
          finishWorkloadHealthMonitor (ht_key t) runID
      end
  end.
End recovery.
