(* ===== verification/TaskFrame.v ===== *)
(** * What every handler of the task service leaves alone

    A relation between states that survives each kind of update the service makes ([Closed])
    relates the state before any handler to the state after it.  The instances say that the
    trace, the guards of automatic rollback and the replicated log only grow, so that the
    invariant of the state machine holds through any sequence of requests. *)
From stdpp Require Import base strings numbers gmap list.
From Stdlib Require Import Ascii.
From S2P Require Import Prelude GoStrings GoTime GoNet GoList Deploy Dependency Validate Meta Placement Fsm FsmSpec RaftService RaftSpec TaskBase TaskRun TaskDeploy TaskOps TaskViews.

Definition Frame (R : relation TaskState) {A} (m : M A) : Prop := ∀ s, R s (m s).2.

Create HintDb frame.

(** The updates a handler is made of, each with the relations it respects. *)
Inductive kind :=
| KDeploy | KStop | KStatus | KDispatch | KRemoteStop | KListen | KProbe | KSleep | KCollect | KWrite.
Definition kind_of (e : event) : kind :=
  match e with
  | EvRaft _ _ | EvCapacity _ _ => KWrite
  | EvCollect => KCollect
  | EvDeploy _ _ _ => KDeploy
  | EvStop _ _ _ _ => KStop
  | EvStatus _ _ _ => KStatus
  | EvDispatch _ _ _ _ => KDispatch
  | EvRemoteStop _ _ _ _ => KRemoteStop
  | EvListen _ _ => KListen
  | EvProbe _ _ => KProbe
  | EvSleep _ => KSleep
  end.
(** a call to the outside *)
Class RCall (k : kind) (R : relation TaskState) : Prop :=
  closed_call e s : kind_of e = k → R s (log_event e s).
(** a write to the replicated state *)
Class RWrite `{Digest, Codec} (R : relation TaskState) : Prop := closed_write e rs s :
  kind_of e = KWrite → extends (ts_raft s) rs → R s (log_event e (set_raft rs s)).
(** one operation on the replicated state, where a relation does not survive all of them *)
Class RAssign `{Digest, World} (R : relation TaskState) : Prop :=
  frame_raft_assign a : Frame R (raft_ApplyWorkloadAssignment a).
Class RBind `{Digest, World} (R : relation TaskState) : Prop :=
  frame_raft_bind b : Frame R (raft_ApplyVolumeBinding b).
Class RDelete `{Digest, World} (R : relation TaskState) : Prop :=
  frame_raft_delete m : Frame R (raft_ApplyDeleteDeployApp m).
Class RCapacity `{Digest, World} (R : relation TaskState) : Prop :=
  frame_store snap : Frame R (store_call snap).
Class RAuto `{Digest, World} (R : relation TaskState) : Prop :=
  frame_autoRollback a w g : Frame R (maybeAutoRollbackDeployFailure a w g).
Class RRegistry (R : relation TaskState) : Prop := closed_registry r s : R s (set_registry r s).
Class RMonitorNew (R : relation TaskState) : Prop := closed_monitor_new k run s :
  R s (set_health run (<[k := run]> (ts_healthMonitors s)) s).
Class RMonitorEnd (R : relation TaskState) : Prop := closed_monitor_end k s :
  R s (set_health (ts_healthRun s) (delete k (ts_healthMonitors s)) s).
Class RMonitorClear (R : relation TaskState) : Prop := closed_monitor_clear s :
  R s (set_health (ts_healthRun s) ∅ s).
Class RRestart (R : relation TaskState) : Prop := closed_restart k s :
  R s (set_restartAttempts
         (<[k := wrap_int64 (default 0%Z (ts_restartAttempts s !! k) + 1)]> (ts_restartAttempts s)) s).
Class RAttempts (R : relation TaskState) : Prop :=
  closed_attempts k s : R s (set_rollbackAttempts ({[k]} ∪ ts_rollbackAttempts s) s).
Class RSuppressed (R : relation TaskState) : Prop :=
  closed_suppressed k s : R s (set_rollbackSuppressed ({[k]} ∪ ts_rollbackSuppressed s) s).

Class Closed `{Digest, Codec} (R : relation TaskState) : Prop := {
  closed_pre :: PreOrder R;
  closed_rcall k :: RCall k R;
  closed_rwrite :: RWrite R;
  closed_rregistry :: RRegistry R;
  closed_rmonitor_new :: RMonitorNew R;
  closed_rmonitor_end :: RMonitorEnd R;
  closed_rmonitor_clear :: RMonitorClear R;
  closed_rrestart :: RRestart R;
  closed_rattempts :: RAttempts R;
  closed_rsuppressed :: RSuppressed R;
}.

Section combinators.
Context (R : relation TaskState) `{!PreOrder R}.

Lemma frame_ret {A} (a : A) : Frame R (mret a).
Proof. intros s. reflexivity. Qed.
Lemma frame_fail {A} e : Frame R (fail (A := A) e).
Proof. intros s. reflexivity. Qed.
Lemma frame_ok : Frame R ok.
Proof. intros s. reflexivity. Qed.
Lemma frame_get : Frame R get.
Proof. intros s. reflexivity. Qed.
Lemma frame_bind {A B} (m : M A) (k : A → M B) :
  Frame R m → (∀ a, Frame R (k a)) → Frame R (m ≫= k).
Proof.
  intros Hm Hk s. unfold mbind, M_bind. specialize (Hm s). destruct (m s) as [a s'].
  etrans; [exact Hm|]. apply Hk.
Qed.
(** A computation whose updates depend on the state it reads. *)
Lemma frame_get_bind {B} (k : TaskState → M B) : (∀ s, R s (k s s).2) → Frame R (get ≫= k).
Proof. intros Hk s. apply Hk. Qed.
Lemma frame_modify f : (∀ s, R s (f s)) → Frame R (modify f).
Proof. intros Hf s. apply Hf. Qed.
Lemma frame_try {A B} (m : M (res A)) (k : A → M (res B)) :
  Frame R m → (∀ a, Frame R (k a)) → Frame R (try m k).
Proof.
  intros Hm Hk. apply frame_bind; [done|]. intros [a|e]; [apply Hk|apply frame_ret].
Qed.
Lemma frame_wrap {A} fmt args (m : M (res A)) : Frame R m → Frame R (wrapM fmt args m).
Proof. intros Hm. apply frame_bind; [done|]. intros. apply frame_ret. Qed.
Lemma frame_each_err {A} (f : A → M (res unit)) l : (∀ x, Frame R (f x)) → Frame R (each_err f l).
Proof. intros Hf. induction l; [apply frame_ok|]. by apply frame_try. Qed.
Lemma frame_each {A} (f : A → M unit) l : (∀ x, Frame R (f x)) → Frame R (each f l).
Proof. intros Hf. induction l; [apply frame_ret|]. by apply frame_bind. Qed.
End combinators.

#[export] Hint Resolve frame_ret frame_fail frame_ok frame_get frame_bind frame_try frame_wrap
  frame_each_err frame_each : frame.

(** Splits a computation into its calls, each proved by a lemma of the database. *)
Ltac frame :=
  repeat first
    [ solve [eauto 2 with frame]
    | match goal with
      | |- ∀ _, _ => intro
      | |- Frame _ (let '(_, _) := ?x in _) => destruct x
      | |- Frame _ (match ?x with _ => _ end) => destruct x
      end
    | apply frame_bind | apply frame_try | apply frame_wrap | apply frame_each_err | apply frame_each
    | apply frame_ret | progress cbn zeta ].

Section frames.
Context `{Digest, World} `{ListSort, GraphLib} (cfg : TaskConfig).
Context (R : relation TaskState)
  `{!PreOrder R, !RCall KDeploy R, !RCall KStop R, !RCall KStatus R, !RCall KDispatch R,
   !RCall KRemoteStop R, !RCall KListen R, !RCall KProbe R, !RCall KSleep R, !RCall KCollect R, !RAssign R, !RBind R, !RDelete R,
   !RCapacity R, !RAuto R, !RRegistry R, !RMonitorNew R, !RMonitorEnd R, !RMonitorClear R,
   !RRestart R, !RAttempts R, !RSuppressed R}.
#[local] Hint Extern 0 (PreOrder R) => assumption : frame.
#[local] Hint Extern 1 (R _ _) =>
  first [ apply closed_registry | apply closed_monitor_end | apply closed_monitor_clear
        | apply closed_restart | apply closed_attempts | apply closed_suppressed ] : frame.

Lemma frame_call k `{!RCall k R} {A} (answer : list event → A) mk :
  (∀ r, kind_of (mk r) = k) → Frame R (call answer mk).
Proof. intros Hk s. apply (closed_call (k := k)), Hk. Qed.

Lemma frame_runtime_Deploy m w : Frame R (runtime_Deploy m w).
Proof. by apply (frame_call KDeploy). Qed.
Lemma frame_runtime_Stop rt m n : Frame R (runtime_Stop rt m n).
Proof. by apply (frame_call KStop). Qed.
Lemma frame_runtime_Status rt m n : Frame R (runtime_Status rt m n).
Proof. by apply (frame_call KStatus). Qed.
Lemma frame_Dispatch n m w : Frame R (DispatchWorkload cfg n m w).
Proof. by apply (frame_call KDispatch). Qed.
Lemma frame_StopWorkload n m w : Frame R (StopWorkload cfg n m w).
Proof. by apply (frame_call KRemoteStop). Qed.
Lemma frame_listen c : Frame R (checkLocalAvailable c).
Proof. by apply (frame_call KListen). Qed.
Lemma frame_probe c : Frame R (runReadinessCheck c).
Proof. by apply (frame_call KProbe). Qed.
Lemma frame_wait d : Frame R (call (λ tr, w_sleep tr d) (λ _, EvSleep d)).
Proof. by apply (frame_call KSleep). Qed.
Lemma frame_collect n : Frame R (call (λ tr, w_collect tr n) (λ _, EvCollect)).
Proof. by apply (frame_call KCollect). Qed.
Hint Resolve frame_runtime_Deploy frame_runtime_Stop frame_runtime_Status frame_Dispatch
  frame_StopWorkload frame_listen frame_probe frame_wait frame_collect : frame.

#[local] Hint Resolve frame_raft_delete frame_raft_assign frame_raft_bind frame_store frame_autoRollback : frame.

(** Reads. *)
Lemma frame_read_app m : Frame R (raft_GetDesiredDeployApp m).
Proof. unfold raft_GetDesiredDeployApp. frame. Qed.
Lemma frame_read_prev m : Frame R (raft_GetPreviousDeployApp m).
Proof. unfold raft_GetPreviousDeployApp. frame. Qed.
Lemma frame_read_assignment k : Frame R (raft_GetWorkloadAssignment k).
Proof. unfold raft_GetWorkloadAssignment. frame. Qed.
Lemma frame_read_apps : Frame R raft_ListDesiredDeployApps.
Proof. unfold raft_ListDesiredDeployApps. frame. Qed.
Lemma frame_workloadAssignment m n : Frame R (workloadAssignment m n).
Proof. apply frame_read_assignment. Qed.
Lemma frame_catalog : Frame R the_catalog.
Proof. unfold the_catalog. frame. Qed.
Hint Resolve frame_read_app frame_read_prev frame_read_assignment frame_read_apps
  frame_workloadAssignment frame_catalog : frame.

Lemma frame_RefreshLocal : Frame R (RefreshLocal cfg).
Proof. unfold RefreshLocal. frame. Qed.

Lemma frame_registry_upsert a b c d e : Frame R (registry_Upsert a b c d e).
Proof. unfold registry_Upsert. apply (frame_bind R); [frame|]. intros x. apply frame_modify. frame. Qed.
Lemma frame_registry_delete n : Frame R (registry_Delete n).
Proof. unfold registry_Delete. case_match; [frame|]. apply frame_modify. frame. Qed.
Hint Resolve frame_RefreshLocal frame_registry_upsert frame_registry_delete : frame.

Lemma frame_applyAssignment m w n st g e ad : Frame R (applyWorkloadAssignment m w n st g e ad).
Proof. unfold applyWorkloadAssignment. frame. Qed.
Lemma frame_applyBindings a w n st g e : Frame R (applyWorkloadVolumeBindings a w n st g e).
Proof. unfold applyWorkloadVolumeBindings. frame. Qed.
Lemma frame_dispatchWorkload m w n : Frame R (dispatchWorkload cfg m w n).
Proof. unfold dispatchWorkload. frame. Qed.
Lemma frame_allowRestart w k g : Frame R (allowWorkloadRestart w k g).
Proof.
  unfold allowWorkloadRestart. case_match; [frame|]. apply frame_get_bind. intros s.
  cbn zeta. case_match; [cbn; reflexivity|]. apply closed_restart.
Qed.
Lemma frame_sleep d : Frame R (sleepContext d).
Proof.
  unfold sleepContext. case_match; [apply frame_ok, _|].
  apply (frame_bind R); [apply frame_wait|]. intros x. apply frame_ret, _.
Qed.
Lemma frame_restartDelay w : Frame R (waitWorkloadRestartDelay w).
Proof. unfold waitWorkloadRestartDelay. frame. Qed.
Lemma frame_register k : Frame R (registerWorkloadHealthMonitor k).
Proof. apply frame_get_bind. intros s. apply closed_monitor_new. Qed.
Lemma frame_stopMonitor m n : Frame R (stopWorkloadHealthMonitor m n).
Proof. unfold stopWorkloadHealthMonitor. case_match; [frame|]. apply frame_modify. frame. Qed.
Lemma frame_finishMonitor k i : Frame R (finishWorkloadHealthMonitor k i).
Proof. apply frame_modify. intros. case_match; [frame|reflexivity]. Qed.
Lemma frame_stopMonitors : Frame R StopWorkloadHealthMonitors.
Proof. apply frame_modify. frame. Qed.
Hint Resolve frame_applyAssignment frame_applyBindings frame_dispatchWorkload frame_allowRestart
  frame_sleep frame_restartDelay frame_register frame_stopMonitor frame_finishMonitor : frame.
Lemma frame_startMonitor a w n : Frame R (startLocalWorkloadHealthMonitor cfg a w n).
Proof. unfold startLocalWorkloadHealthMonitor. frame. Qed.
Hint Resolve frame_startMonitor : frame.

(** Running and stopping. *)
Lemma frame_probeAttempts c ex n l : Frame R (probeAttempts c ex n l).
Proof.
  revert l. induction n as [|n IH]; intros l; cbn [probeAttempts]; [frame|].
  frame.
Qed.
Hint Resolve frame_probeAttempts : frame.
Lemma frame_readiness m w a : Frame R (waitWorkloadReadiness m w a).
Proof. unfold waitWorkloadReadiness, waitReadinessAttempts. frame. Qed.
Lemma frame_stopLocal m w : Frame R (stopLocalWorkload m w).
Proof. unfold stopLocalWorkload. frame. Qed.
Lemma frame_stopRemote m w n : Frame R (stopRemoteWorkload cfg m w n).
Proof. unfold stopRemoteWorkload. frame. Qed.
Hint Resolve frame_readiness frame_stopLocal frame_stopRemote : frame.
Lemma frame_stopOnNode m w n : Frame R (stopWorkloadOnNode cfg m w n).
Proof. unfold stopWorkloadOnNode. frame. Qed.
Hint Resolve frame_stopOnNode : frame.
Lemma frame_stopWorkload m w : Frame R (stopWorkload cfg m w).
Proof. unfold stopWorkload, stopTargetNode. frame. Qed.
Lemma frame_runLocal m w n : Frame R (runLocalWorkload m w n).
Proof. unfold runLocalWorkload, deployLocalWorkload, localWorkloadAddress. frame. Qed.
Hint Resolve frame_stopWorkload frame_runLocal : frame.
Lemma frame_runOnNode m w n : Frame R (runWorkloadOnNode cfg m w n).
Proof. unfold runWorkloadOnNode, runRemoteWorkload. frame. Qed.
Hint Resolve frame_runOnNode : frame.

(** Deploying. *)
Lemma frame_preflight a : Frame R (preflightDeploy a).
Proof.
  unfold preflightDeploy, preflightExistingHostPorts, preflightLocalHostPorts, sameAppHostPortClaims. frame.
Qed.
Lemma frame_mark m g : Frame R (markAutoRollbackAttempt m g).
Proof.
  unfold markAutoRollbackAttempt. case_match; [frame|]. apply frame_get_bind. intros s.
  case_bool_decide; [cbn; reflexivity|]. apply closed_attempts.
Qed.
Lemma frame_suppress m g : Frame R (suppressAutoRollback m g).
Proof. unfold suppressAutoRollback. case_match; [frame|]. apply frame_modify. frame. Qed.
Hint Resolve frame_preflight frame_mark frame_suppress : frame.
Lemma frame_recordFailure a w n g e : Frame R (recordDeployFailure a w n g e).
Proof. unfold recordDeployFailure, skipStaleDeployFailure. frame. Qed.
Hint Resolve frame_recordFailure : frame.
Lemma frame_place a w se g : Frame R (placeWorkload cfg a w se g).
Proof.
  unfold placeWorkload, chooseWorkloadNode, deployRemoteWorkload, deployLocalAssignedWorkload. frame.
Qed.
Hint Resolve frame_place : frame.
Lemma frame_handleExisting a w x g o : Frame R (handleExistingAssignment cfg a w x g o).
Proof. unfold handleExistingAssignment, canRetryFailedAssignment, stopPreviousGeneration. frame. Qed.
Hint Resolve frame_handleExisting : frame.
Lemma frame_deployOne a se g o w : Frame R (deployOneWorkload cfg a se g o w).
Proof. unfold deployOneWorkload. frame. Qed.
Hint Resolve frame_deployOne : frame.
Lemma frame_deployApp a o : Frame R (deployAppWorkloadsWithOptions cfg a o).
Proof. unfold deployAppWorkloadsWithOptions, prepareDeploy, deployOrderedWorkloads. frame. Qed.
Hint Resolve frame_deployApp : frame.
Lemma frame_stopApp a : Frame R (stopAppWorkloads cfg a).
Proof. unfold stopAppWorkloads, stopOneWorkload, assignmentNodeOrEmpty. frame. Qed.
Hint Resolve frame_stopApp : frame.
Lemma frame_SubmitDelete m : Frame R (SubmitDelete cfg m).
Proof. unfold SubmitDelete. frame. Qed.
Lemma frame_SubmitStop m : Frame R (SubmitStop cfg m).
Proof. unfold SubmitStop, submitExistingDeployApp. frame. Qed.
Lemma frame_SubmitStart m : Frame R (SubmitStart cfg m).
Proof. unfold SubmitStart, submitExistingDeployApp, startAppWorkloads. frame. Qed.
Lemma frame_SubmitRestart m : Frame R (SubmitRestart cfg m).
Proof. unfold SubmitRestart. apply (frame_try R); [apply frame_SubmitStop|]. intros ?. apply frame_SubmitStart. Qed.
Lemma frame_reconcileAll : Frame R (reconcileAll cfg).
Proof. unfold reconcileAll, deployAppWorkloads. frame. Qed.
Lemma frame_worker_deploy m w n : Frame R (DeployWorkerWorkload cfg m w n).
Proof. unfold DeployWorkerWorkload, desiredHealthMonitorApp. frame. Qed.
Lemma frame_worker_stop m w n : Frame R (StopWorkerWorkload cfg m w n).
Proof. unfold StopWorkerWorkload. frame. Qed.

(** Operations, recovery, health. *)
Lemma frame_failoverNode w c : Frame R (chooseFailoverNode cfg w c).
Proof. unfold chooseFailoverNode, alternativeNodeCandidates, chooseWorkloadNode. frame. Qed.
Lemma frame_plan m tf acc l : (∀ w, Frame R (tf w)) → Frame R (planWorkloadMoves cfg m tf acc l).
Proof.
  intros Htf. revert acc. induction l as [|w l IH]; intros acc; cbn [planWorkloadMoves]; [frame|].
  unfold plan_step, normalizeMoveTarget, currentWorkloadAssignmentNode. frame.
Qed.
Lemma frame_stopMove a o g p : Frame R (stopOneMove cfg a o g p).
Proof. unfold stopOneMove, skipMoveStop, workloadAssignmentStatus. frame. Qed.
Lemma frame_startMove a g p : Frame R (startOneMove cfg a g p).
Proof. unfold startOneMove. frame. Qed.
Hint Resolve frame_failoverNode frame_stopMove frame_startMove : frame.
Lemma frame_startMoves a g n l : Frame R (startMovePlans cfg a g n l).
Proof. revert n. induction l as [|p l IH]; intros n; cbn [startMovePlans]; frame. Qed.
Hint Resolve frame_startMoves : frame.
Lemma frame_move a o l tf : (∀ w, Frame R (tf w)) → Frame R (moveAppWorkloads cfg a o l tf).
Proof.
  intros Htf. unfold moveAppWorkloads. apply (frame_bind R); [by apply frame_plan|].
  unfold stopMovePlans. frame.
Qed.
Lemma frame_or_zero {A} (m : M (res A)) k :
  Frame R m → (∀ a, Frame R (k a)) → Frame R (or_zero m k).
Proof. intros Hm Hk. apply (frame_bind R); [done|]. frame. Qed.
Lemma frame_operationApp m : Frame R (operationApp m).
Proof. unfold operationApp. frame. Qed.
Lemma frame_failoverWorkloads a n : Frame R (failoverWorkloads a n).
Proof. unfold failoverWorkloads. frame. Qed.
Hint Resolve frame_move frame_or_zero frame_operationApp frame_failoverWorkloads : frame.
Lemma frame_SubmitMigrate m o : Frame R (SubmitMigrate cfg m o).
Proof. unfold SubmitMigrate. case_match; [frame|]. repeat (apply frame_or_zero; [frame|intros ?]). apply frame_move. frame. Qed.
Lemma frame_SubmitFailover m o : Frame R (SubmitFailover cfg m o).
Proof.
  unfold SubmitFailover. repeat (apply frame_or_zero; [frame|intros ?]). apply frame_move.
  unfold assignmentNodeOrEmpty. frame.
Qed.
Lemma frame_SubmitRebalance m o : Frame R (SubmitRebalance cfg m o).
Proof.
  unfold SubmitRebalance. repeat (apply frame_or_zero; [frame|intros ?]).
  apply (frame_bind R); [frame|]. intros x. apply frame_move. unfold chooseWorkloadNode. frame.
Qed.
Lemma frame_recover_each {A} (f : A → M (RecoverySummary * bool)) acc l :
  (∀ x, Frame R (f x)) → Frame R (recover_each f acc l).
Proof. intros Hf. revert acc. induction l as [|x l IH]; intros acc; cbn [recover_each]; frame. Qed.
Hint Resolve frame_recover_each : frame.
Lemma frame_recover : Frame R (RecoverLocalFailures cfg).
Proof.
  unfold RecoverLocalFailures. case_match; [frame|]. apply (frame_bind R); [frame|]. intros apps.
  apply (frame_bind R); [|frame]. apply frame_recover_each. intros app.
  unfold recoverAppLocalFailures. apply frame_recover_each. intros w.
  unfold recoverWorkloadFailure, localRunningAssignment, recoverLocalWorkload. frame.
Qed.
Lemma frame_healthFail t p e : Frame R (failLocalWorkloadHealth t p e).
Proof. unfold failLocalWorkloadHealth, healthAssignmentStillCurrent. frame. Qed.
Hint Resolve frame_healthFail : frame.
Lemma frame_liveness_rounds n w c : Frame R (liveness_rounds n w c).
Proof. induction n as [|n IH]; cbn [liveness_rounds]; unfold waitHealthProbeAttempts; frame. Qed.
Hint Resolve frame_liveness_rounds : frame.
Lemma frame_monitor n c i t : Frame R (runWorkloadHealthMonitor n c i t).
Proof.
  unfold runWorkloadHealthMonitor, runStartupHealth, runLivenessHealth, waitHealthProbeAttempts. frame.
Qed.
End frames.

(** A relation that survives every write survives each of them. *)
Section writes.
Context `{Digest, World} `{ListSort, GraphLib}.
Context (R : relation TaskState)
  `{!PreOrder R, !RCall KListen R, !RWrite R, !RAttempts R, !RSuppressed R}.
#[local] Hint Extern 0 (PreOrder R) => assumption : frame.

Lemma frame_raft_call op c : (∀ nh rs, extends rs (op nh rs).2) → Frame R (raft_call op c).
Proof.
  intros Hop s. unfold raft_call, mbind, M_bind, get.
  specialize (Hop (w_nodeHost (ts_trace s)) (ts_raft s)).
  destruct (op _ _) as [r rs]. cbn in *. by apply closed_write.
Qed.

Lemma frame_raft_deploy app : Frame R (raft_ApplyDeployApp app).
Proof. apply frame_raft_call. intros. apply propose_extends. Qed.

#[export] Instance rdelete_write : RDelete R.
Proof.
  intros m. apply frame_raft_call. intros. unfold ApplyDeleteDeployApp.
  case_match; [apply extends_refl|apply propose_extends].
Qed.

#[export] Instance rassign_write : RAssign R.
Proof.
  intros a. unfold raft_ApplyWorkloadAssignment. apply (frame_bind R); [frame|]. intros x.
  apply frame_raft_call. intros. unfold ApplyWorkloadAssignment.
  case_match; [apply propose_extends|apply extends_refl].
Qed.

#[export] Instance rbind_write : RBind R.
Proof.
  intros b. unfold raft_ApplyVolumeBinding. apply (frame_bind R); [frame|]. intros x.
  apply frame_raft_call. intros. unfold ApplyVolumeBinding.
  case_match; [apply propose_extends|apply extends_refl].
Qed.

#[export] Instance rcapacity_write : RCapacity R.
Proof.
  intros snap s. unfold store_call, mbind, M_bind, get.
  destruct (store_Upsert (w_nodeHost (ts_trace s)) snap (ts_raft s)) as [r rs] eqn:E. cbn.
  apply closed_write; [done|].
  unfold store_Upsert in E. repeat case_match; simplify_eq; try apply extends_refl.
  - by exists [a].
  - match goal with Ha : applyCommand ?nh ?d ?msg ?sv = _ |- _ =>
      pose proof (applyCommand_extends nh d msg sv) as He; by rewrite Ha in He end.
Qed.

#[local] Hint Extern 1 (Frame R (preflightDeploy _)) => apply frame_preflight; apply _ : frame.
#[local] Hint Extern 1 (Frame R (markAutoRollbackAttempt _ _)) => apply frame_mark; apply _ : frame.
#[local] Hint Extern 1 (Frame R (suppressAutoRollback _ _)) => apply frame_suppress; apply _ : frame.
#[local] Hint Resolve frame_raft_deploy : frame.

#[export] Instance rauto_write : RAuto R.
Proof. intros a w g. unfold maybeAutoRollbackDeployFailure, autoRollbackRevision. frame. Qed.

Lemma frame_SubmitDeploy a : Frame R (SubmitDeploy a).
Proof. unfold SubmitDeploy. frame. Qed.
#[local] Hint Resolve frame_SubmitDeploy : frame.
Lemma frame_SubmitRollback m : Frame R (SubmitRollback m).
Proof. unfold SubmitRollback, raft_GetPreviousDeployApp. frame. Qed.
End writes.
