(* ===== verification/TaskSpec.v ===== *)
(** * What the task service promises

    Requests are served one at a time in any order ([serve]).  This file proves the guards of
    automatic rollback, the restart limit, the host-port discipline of the desired state and
    the behaviour of a deployment that has already converged. *)
From stdpp Require Import base strings numbers gmap list.
From Stdlib Require Import Ascii.
From S2P Require Import Prelude GoStrings GoTime GoNet GoList Deploy Dependency Validate Meta Placement Fsm FsmSpec RaftService RaftSpec TaskBase TaskRun TaskDeploy TaskOps TaskViews TaskFrame.

Inductive request :=
| RqDeploy (a : App) | RqDelete (m : Metadata) | RqStop (m : Metadata) | RqStart (m : Metadata)
| RqRestart (m : Metadata) | RqRollback (m : Metadata)
| RqMigrate (m : Metadata) (o : AppOperationOptions)
| RqFailover (m : Metadata) (o : AppOperationOptions)
| RqRebalance (m : Metadata) (o : AppOperationOptions)
| RqReconcile | RqRecover
| RqWorkerDeploy (m : Metadata) (w : Workload) (node : string)
| RqWorkerStop (m : Metadata) (w : Workload) (node : string)
| RqHealthFailed (t : workloadHealthTarget) (phase : string) (e : error)
| RqMonitor (n : nat) (canceled : list event → bool) (runID : Z) (t : workloadHealthTarget)
| RqMonitorDone (key : string) (runID : Z)
| RqShutdown.

Section serve.
Context `{Digest, World} `{ListSort, GraphLib} (cfg : TaskConfig).

Definition ignore {A} (m : M A) : M unit := _ ← m; mret tt.

Definition handle (r : request) : M unit :=
  match r with
  | RqDeploy a => ignore (SubmitDeploy a)
  | RqDelete m => ignore (SubmitDelete cfg m)
  | RqStop m => ignore (SubmitStop cfg m)
  | RqStart m => ignore (SubmitStart cfg m)
  | RqRestart m => ignore (SubmitRestart cfg m)
  | RqRollback m => ignore (SubmitRollback m)
  | RqMigrate m o => ignore (SubmitMigrate cfg m o)
  | RqFailover m o => ignore (SubmitFailover cfg m o)
  | RqRebalance m o => ignore (SubmitRebalance cfg m o)
  | RqReconcile => reconcileAll cfg
  | RqRecover => ignore (RecoverLocalFailures cfg)
  | RqWorkerDeploy m w n => ignore (DeployWorkerWorkload cfg m w n)
  | RqWorkerStop m w n => ignore (StopWorkerWorkload cfg m w n)
  | RqHealthFailed t p e => failLocalWorkloadHealth t p e
  | RqMonitor n c i t => runWorkloadHealthMonitor n c i t
  | RqMonitorDone k i => finishWorkloadHealthMonitor k i
  | RqShutdown => StopWorkloadHealthMonitors
  end.

Definition serve (rs : list request) : M unit := each handle rs.

(** Every handler is framed by a relation that survives its updates; submitting and rolling back
    are left to the relations that do not survive every write of an application. *)
Lemma frame_handle R
    `{!PreOrder R, !∀ k, RCall k R, !RAssign R, !RBind R, !RDelete R, !RCapacity R, !RAuto R,
      !RRegistry R, !RMonitorNew R, !RMonitorEnd R, !RMonitorClear R, !RRestart R} r :
  (∀ a, r = RqDeploy a → Frame R (SubmitDeploy a)) →
  (∀ m, r = RqRollback m → Frame R (SubmitRollback m)) →
  Frame R (handle r).
Proof.
  intros Hdeploy Hrollback.
  assert (Hig : ∀ A (m : M A), Frame R m → Frame R (ignore m)).
  { intros A m Hm. apply (frame_bind R); [done|]. intros a. apply frame_ret, _. }
  destruct r; cbn [handle]; try apply Hig; try (by apply Hdeploy); try (by apply Hrollback);
    first [ apply frame_SubmitDelete | apply frame_SubmitStop
          | apply frame_SubmitStart | apply frame_SubmitRestart
          | apply frame_SubmitMigrate | apply frame_SubmitFailover | apply frame_SubmitRebalance
          | apply frame_reconcileAll | apply frame_recover | apply frame_worker_deploy
          | apply frame_worker_stop | apply frame_healthFail | apply frame_monitor | apply frame_finishMonitor
          | apply frame_stopMonitors ]; apply _.
Qed.

Lemma frame_serve R `{!Closed R} rs : Frame R (serve rs).
Proof.
  apply (frame_each R). intros r.
  apply frame_handle; try apply _; intros; [apply frame_SubmitDeploy|apply frame_SubmitRollback]; apply _.
Qed.

(** ** What only grows *)
Record evolves (s s' : TaskState) : Prop := {
  ev_trace : ts_trace s `prefix_of` ts_trace s';
  ev_raft : extends (ts_raft s) (ts_raft s');
  ev_attempts : ts_rollbackAttempts s ⊆ ts_rollbackAttempts s';
  ev_suppressed : ts_rollbackSuppressed s ⊆ ts_rollbackSuppressed s' }.

Lemma extends_trans s1 s2 s3 : extends s1 s2 → extends s2 s3 → extends s1 s3.
Proof. intros [l1 H1'] [l2 H2']. exists (l1 ++ l2). by rewrite H2', H1', replay_app. Qed.

#[export] Instance evolves_closed : Closed evolves.
Proof.
  split.
  - split.
    + intros s. split; [done|apply extends_refl|done|done].
    + intros s1 s2 s3 [????] [????]. split; [by etrans|by eapply extends_trans|by etrans|by etrans].
  - intros k e s _. split; cbn; [by apply prefix_app_r|apply extends_refl|done|done].
  - intros e rs s _ Hx. split; cbn; [by apply prefix_app_r|done|done|done].
  - intros r s. split; cbn; [done|apply extends_refl|done|done].
  - intros k run s. split; cbn; [done|apply extends_refl|done|done].
  - intros k s. split; cbn; [done|apply extends_refl|done|done].
  - intros s. split; cbn; [done|apply extends_refl|done|done].
  - intros k s. split; cbn; [done|apply extends_refl|done|done].
  - intros k s. split; cbn; [done|apply extends_refl|apply union_subseteq_r|done].
  - intros k s. split; cbn; [done|apply extends_refl|done|apply union_subseteq_r].
Qed.

Lemma serve_evolves rs s : evolves s (serve rs s).2.
Proof. apply (frame_serve evolves). Qed.

(** The replicated state stays well-formed through any requests. *)
Lemma serve_inv rs s :
  fsm_inv (state (fsm_of s)) → fsm_inv (state (fsm_of (serve rs s).2)).
Proof. intros Hi. eapply extends_inv; [apply ev_raft, serve_evolves|done]. Qed.

Lemma RefreshLocal_inv s :
  fsm_inv (state (fsm_of s)) → fsm_inv (state (fsm_of (RefreshLocal cfg s).2)).
Proof. intros Hi. eapply extends_inv; [apply ev_raft, (frame_RefreshLocal cfg evolves)|done]. Qed.

(** ** Automatic rollback *)
Lemma mark_spec meta g s :
  let key := autoRollbackGuardKey meta g in
  markAutoRollbackAttempt meta g s =
    if (key =? "")%string || bool_decide (key ∈ ts_rollbackAttempts s) then (false, s)
    else (true, set_rollbackAttempts ({[key]} ∪ ts_rollbackAttempts s) s).
Proof.
  cbn zeta. unfold markAutoRollbackAttempt. destruct (_ =? "")%string; [done|].
  unfold mbind, M_bind, get. cbn [orb]. by case_bool_decide.
Qed.

Lemma guardKey_trim meta g : autoRollbackGuardKey meta (TrimSpace g) = autoRollbackGuardKey meta g.
Proof. unfold autoRollbackGuardKey. by rewrite TrimSpace_idemp. Qed.

(** Nothing happens for a generation that was attempted, or suppressed, before. *)
Lemma autoRollback_attempted app w g s :
  autoRollbackGuardKey (app_Metadata app) g = "" ∨
  autoRollbackGuardKey (app_Metadata app) g ∈ ts_rollbackAttempts s →
  maybeAutoRollbackDeployFailure app w g s = (tt, s).
Proof.
  intros Hin. unfold maybeAutoRollbackDeployFailure, autoRollbackRevision, mbind, M_bind, get.
  destruct (negb (autoRollbackConfigured _ _ _ s)); [done|].
  destruct (negb (autoRollbackDesiredGenerationCurrent _ _ s)); [done|].
  destruct (previousAutoRollbackRevision _ _ s) as [rev|]; [|done].
  rewrite mark_spec, guardKey_trim. destruct Hin as [->|Hin]; [done|].
  by rewrite (bool_decide_eq_true_2 _ Hin), orb_true_r.
Qed.

Lemma autoRollback_suppressed app w g s :
  autoRollbackGuardKey (app_Metadata app) g ∈ ts_rollbackSuppressed s →
  maybeAutoRollbackDeployFailure app w g s = (tt, s).
Proof.
  intros Hin. destruct (decide (autoRollbackGuardKey (app_Metadata app) g = "")) as [He|Hne];
    [by apply autoRollback_attempted; left|].
  unfold maybeAutoRollbackDeployFailure, autoRollbackRevision, mbind, M_bind, get.
  assert (Hc : autoRollbackConfigured app w (TrimSpace g) s = false).
  { unfold autoRollbackConfigured, autoRollbackIsSuppressed. rewrite guardKey_trim.
    case_match; [done|]. case_match; [done|].
    by rewrite (proj2 (String.eqb_neq _ _) Hne), (bool_decide_eq_true_2 _ Hin). }
  by rewrite Hc.
Qed.

(** When it acts, it leaves its mark. *)
Lemma autoRollback_marks app w g s :
  (maybeAutoRollbackDeployFailure app w g s).2 ≠ s →
  autoRollbackGuardKey (app_Metadata app) g ∈
    ts_rollbackAttempts (maybeAutoRollbackDeployFailure app w g s).2.
Proof.
  set (key := autoRollbackGuardKey (app_Metadata app) g).
  unfold maybeAutoRollbackDeployFailure.
  assert (Hr : ∀ o s', autoRollbackRevision app w g s = (o, s') →
    (o = None ∧ s' = s) ∨ key ∈ ts_rollbackAttempts s').
  { intros o s'. unfold autoRollbackRevision, mbind, M_bind, get.
    destruct (negb (autoRollbackConfigured _ _ _ s)); [intros [= <- <-]; by left|].
    destruct (negb (autoRollbackDesiredGenerationCurrent _ _ s)); [intros [= <- <-]; by left|].
    destruct (previousAutoRollbackRevision _ _ s) as [rev|]; [|intros [= <- <-]; by left].
    rewrite mark_spec, guardKey_trim. fold key.
    destruct (_ || _); intros [= <- <-]; [by left|right; set_solver]. }
  destruct (autoRollbackRevision app w g s) as [o s'] eqn:E.
  rewrite (run_bind _ _ _ _ _ E).
  destruct (Hr o s' eq_refl) as [[-> ->]|Hin]; [by intros []|]. intros _.
  destruct o as [rev|]; [|done].
  match goal with |- key ∈ ts_rollbackAttempts (?m s').2 =>
    assert (Hf : Frame evolves m) end.
  { apply (frame_bind evolves); [apply frame_preflight; apply _|]. intros [u|e].
    - apply (frame_bind evolves); [apply frame_suppress; apply _|]. intros [].
      apply (frame_bind evolves); [apply frame_raft_deploy; apply _|]. intros x. apply frame_ret, _.
    - apply frame_ret, _. }
  by apply (ev_attempts _ _ (Hf s')).
Qed.

(** A rollback suppresses the generation it goes back to. *)
Lemma SubmitRollback_suppresses meta rev s :
  previousDeployApp (normalizeOperationMetadata meta) (fsm_of s) = Some rev →
  TrimSpace (md_Name meta) ≠ "" → TrimSpace (rev_Generation rev) ≠ "" →
  autoRollbackGuardKey (normalizeOperationMetadata meta) (rev_Generation rev) ∈
    ts_rollbackSuppressed (SubmitRollback meta s).2.
Proof.
  intros Hrev Hn Hg. unfold SubmitRollback. cbn zeta.
  change (md_Name (normalizeOperationMetadata meta)) with (TrimSpace (md_Name meta)).
  rewrite (proj2 (String.eqb_neq _ _) Hn).
  rewrite (run_bind _ _ s (Some rev) s) by (unfold raft_GetPreviousDeployApp, mbind, M_bind, get; by rewrite <-Hrev).
  assert (Hk : autoRollbackGuardKey (normalizeOperationMetadata meta) (rev_Generation rev) ≠ "").
  { unfold autoRollbackGuardKey.
    change (md_Name (normalizeOperationMetadata meta)) with (TrimSpace (md_Name meta)).
    rewrite TrimSpace_idemp, (proj2 (String.eqb_neq _ _) Hn), (proj2 (String.eqb_neq _ _) Hg). cbn [orb].
    apply append_nonempty_l, NamespaceOrDefault_nonempty. }
  set (key := autoRollbackGuardKey _ _) in *.
  rewrite (run_bind _ _ s tt (set_rollbackSuppressed ({[key]} ∪ ts_rollbackSuppressed s) s)).
  2: { unfold suppressAutoRollback. fold key. by rewrite (proj2 (String.eqb_neq _ _) Hk). }
  assert (Hf : Frame evolves (wrapM "rollback deploy app" [] (SubmitDeploy (rev_App rev)))).
  { apply (frame_wrap evolves), frame_SubmitDeploy; apply _. }
  apply (ev_suppressed _ _ (Hf _)). cbn. set_solver.
Qed.
End serve.
