(* ===== verification/TaskLoops.v ===== *)
(** * The background loops of the task service
      (internal/services/task: reconcile.go, recovery.go; internal/raftsvc: the signals)

    Each loop is a goroutine with a cancelable context; a controller holds the function that
    cancels the newest one, a run counter and a wait group.  Calls that start and stop loops, the
    goroutines, the signals of the replicated state and the requests of other clients interleave:
    a step is a critical section, a [select], an operation on the wait group, or a whole pass or
    request. *)
From stdpp Require Import base strings numbers gmap list.
From S2P Require Import Prelude GoStrings GoTime GoNet GoList Deploy Dependency Validate Meta Placement Fsm FsmSpec RaftService RaftSpec RaftMembers TaskBase TaskRun TaskDeploy TaskOps TaskViews TaskFrame TaskSpec.

(** Where a goroutine is: waiting for leadership, about to run a pass, at the [select] after a pass,
    at the [select] that waits, about to leave the table, about to leave the wait group, about to
    cancel its own context, at its end. *)
Inductive loop_pc := WaitLeader | Pass | Drain | Idle | Finish | WgDone | CancelOwn | Gone.
#[export] Instance loop_pc_eq_dec : EqDecision loop_pc.
Proof. solve_decision. Defined.

Record loop := mkLoop { lp_runID : Z; lp_canceled : bool; lp_pc : loop_pc }.

(** A call of Stop: holding the function it took, waiting (whether the wait group was seen at
    zero), returned.  [sc_started] counts the loops started before it. *)
Inductive stop_pc := StopCancel (taken : option nat) | StopWait (done : bool) | StopReturned (r : res unit).
Record stop_call := mkStop { sc_started : nat; sc_pc : stop_pc }.

(** [reconcileCancel], [reconcileRun] and [reconcileWG], or [recoveryCancel], [recoveryRun] and
    [recoveryWG]; a cancel function is the index of the loop whose context it ends. *)
Record controller := mkController {
  ctl_cancel : option nat; ctl_run : Z; ctl_wg : Z; ctl_loops : list loop; ctl_stops : list stop_call }.
Definition new_controller : controller := mkController None 0 0 [] [].

Definition set_loop (i : nat) (l : loop) (c : controller) : controller :=
  mkController (ctl_cancel c) (ctl_run c) (ctl_wg c) (<[i := l]> (ctl_loops c)) (ctl_stops c).
Definition set_stop (j : nat) (s : stop_call) (c : controller) : controller :=
  mkController (ctl_cancel c) (ctl_run c) (ctl_wg c) (ctl_loops c) (<[j := s]> (ctl_stops c)).
Definition cancel_loop (l : loop) : loop := mkLoop (lp_runID l) true (lp_pc l).
Definition at_pc (pc : loop_pc) (l : loop) : loop := mkLoop (lp_runID l) (lp_canceled l) pc.

(** ** Starting and stopping *)

(** The critical section of a start, and the goroutine it starts; a running loop is left alone. *)
Definition begin_run (first : loop_pc) (c : controller) : controller :=
  match ctl_cancel c with
  | Some _ => c
  | None =>
      let runID := wrap_uint64 (ctl_run c + 1) in
      mkController (Some (length (ctl_loops c))) runID (ctl_wg c + 1)
        (ctl_loops c ++ [mkLoop runID false first]) (ctl_stops c)
  end.
Definition StartDeployReconcile : controller → controller := begin_run WaitLeader.
Definition StartFailureRecovery : controller → controller := begin_run Pass.

(** [finishDeployReconcile] and [finishFailureRecovery]: the critical section, then the wait group. *)
Definition finish_run (runID : Z) (c : controller) : controller :=
  mkController (if (ctl_run c =? runID)%Z then None else ctl_cancel c) (ctl_run c) (ctl_wg c)
    (ctl_loops c) (ctl_stops c).
Definition wg_done (c : controller) : controller :=
  mkController (ctl_cancel c) (ctl_run c) (ctl_wg c - 1) (ctl_loops c) (ctl_stops c).

(** [takeDeployReconcileCancel] and [takeFailureRecoveryCancel], in a new call of Stop. *)
Definition take_cancel (c : controller) : controller :=
  mkController None (ctl_run c) (ctl_wg c) (ctl_loops c)
    (ctl_stops c ++ [mkStop (length (ctl_loops c)) (StopCancel (ctl_cancel c))]).

(** What a call of Stop does next: cancel what it took, see the wait group at zero, return because
    of that, or return because its own context ended. *)
Inductive stop_move := StopCancels | StopSees | StopReturns | StopExpires (e : error).
Definition stop_step (what : string) (m : stop_move) (j : nat) (c : controller) : option controller :=
  s ← ctl_stops c !! j;
  let goes pc := set_stop j (mkStop (sc_started s) pc) in
  match sc_pc s, m with
  | StopCancel o, StopCancels =>
      let c := match o with
               | Some i => match ctl_loops c !! i with Some l => set_loop i (cancel_loop l) c | None => c end
               | None => c
               end in
      Some (goes (StopWait false) c)
  | StopWait _, StopSees => if (ctl_wg c =? 0)%Z then Some (goes (StopWait true) c) else None
  | StopWait true, StopReturns => Some (goes (StopReturned (Ok tt)) c)
  | StopWait _, StopExpires e => Some (goes (StopReturned (Err (Wrapf e what []))) c)
  | _, _ => None
  end.

Definition StopDeployReconcile : stop_move → nat → controller → option controller := stop_step "stop deploy reconcile".
Definition StopFailureRecovery : stop_move → nat → controller → option controller := stop_step "stop failure recovery".

(** ** The goroutines *)

(** What a goroutine does next, where it has a choice or depends on others. *)
Inductive loop_move :=
| Leadership (leader : res (Z * bool)) (turns : list wait_turn)
| Run | CtxDone | Signal | Ticked | Default | Exit.

Definition waitDeployReconcileLeader (svc : Service) (canceled : bool) leader turns : option loop_pc :=
  match WaitLocalLeader leader turns svc with
  | Some (Ok _) => Some Pass
  | Some (Err _) => if canceled then Some Finish else None
  | None => None
  end.

(** The waiting [select], with the signal that is left. *)
Definition waitDeployReconcileTrigger (canceled signal : bool) (m : loop_move) : option (loop_pc * bool) :=
  match m with
  | CtxDone => if canceled then Some (Finish, signal) else None
  | Signal => if signal then Some (Pass, false) else None
  | Ticked => Some (Pass, signal)
  | _ => None
  end.

(** The [select] after a pass, whose default is taken when nothing else is ready. *)
Definition reconcilePendingDeploys (canceled signal : bool) (m : loop_move) : option (loop_pc * bool) :=
  match m with
  | CtxDone => if canceled then Some (Finish, signal) else None
  | Signal => if signal then Some (Pass, false) else None
  | Default => if canceled || signal then None else Some (Idle, signal)
  | _ => None
  end.

Definition runDeployReconcile (svc : Service) (signal : bool) (m : loop_move) (l : loop) : option (loop_pc * bool) :=
  match lp_pc l, m with
  | WaitLeader, Leadership leader turns =>
      pc ← waitDeployReconcileLeader svc (lp_canceled l) leader turns; Some (pc, signal)
  | Pass, Run => Some (Drain, signal)
  | Drain, _ => reconcilePendingDeploys (lp_canceled l) signal m
  | Idle, _ => waitDeployReconcileTrigger (lp_canceled l) signal m
  | _, _ => None
  end.

Definition runFailureRecovery (m : loop_move) (l : loop) : option loop_pc :=
  match lp_pc l, m with
  | Pass, Run => Some Idle
  | Idle, CtxDone => if lp_canceled l then Some Finish else None
  | Idle, Ticked => Some Pass
  | _, _ => None
  end.

(** The deferred calls of a goroutine that leaves. *)
Definition leave (m : loop_move) (i : nat) (l : loop) (c : controller) : option controller :=
  match lp_pc l, m with
  | Finish, Exit => Some (set_loop i (at_pc WgDone l) (finish_run (lp_runID l) c))
  | WgDone, Exit => Some (set_loop i (at_pc CancelOwn l) (wg_done c))
  | CancelOwn, Exit => Some (set_loop i (at_pc Gone (cancel_loop l)) c)
  | _, _ => None
  end.

(** ** The service with its loops *)
Inductive controller_kind := Reconciler | Recoverer.

(** [cs_signal]: the channel of capacity one holds a signal. *)
Record Controllers := mkControllers {
  cs_task : TaskState; cs_signal : bool; cs_reconcile : controller; cs_recovery : controller }.
Definition NewControllers (s : TaskState) : Controllers := mkControllers s false new_controller new_controller.

Definition ctl (k : controller_kind) (st : Controllers) : controller :=
  match k with Reconciler => cs_reconcile st | Recoverer => cs_recovery st end.
Definition set_ctl (k : controller_kind) (c : controller) (st : Controllers) : Controllers :=
  match k with
  | Reconciler => mkControllers (cs_task st) (cs_signal st) c (cs_recovery st)
  | Recoverer => mkControllers (cs_task st) (cs_signal st) (cs_reconcile st) c
  end.
Definition set_task (s : TaskState) (st : Controllers) : Controllers :=
  mkControllers s (cs_signal st) (cs_reconcile st) (cs_recovery st).
Definition set_signal (b : bool) (st : Controllers) : Controllers :=
  mkControllers (cs_task st) b (cs_reconcile st) (cs_recovery st).

(** What happens: a start, a stop and its moves, the end of the context a loop was started under, a
    move of a goroutine, a change of the desired documents, a request of another client. *)
Inductive happening :=
| HStart (k : controller_kind) | HStop (k : controller_kind) | HStopMove (k : controller_kind) (j : nat) (m : stop_move)
| HParent (k : controller_kind) (i : nat) | HLoop (k : controller_kind) (i : nat) (m : loop_move)
| HNotify | HRequest (r : request).

Section steps.
Context `{Digest, World} `{ListSort, GraphLib} (cfg : TaskConfig).

Definition stop_of (k : controller_kind) : stop_move → nat → controller → option controller :=
  match k with Reconciler => StopDeployReconcile | Recoverer => StopFailureRecovery end.
Definition start_of (k : controller_kind) : controller → controller :=
  match k with Reconciler => StartDeployReconcile | Recoverer => StartFailureRecovery end.
Definition pass_of (k : controller_kind) : request := match k with Reconciler => RqReconcile | Recoverer => RqRecover end.

(** The pass runs when the goroutine moves on from [Pass]. *)
Definition run_pass (k : controller_kind) (l : loop) (st : Controllers) : Controllers :=
  if bool_decide (lp_pc l = Pass) then set_task (handle cfg (pass_of k) (cs_task st)).2 st else st.

Definition body (k : controller_kind) (st : Controllers) (m : loop_move) (l : loop) : option (loop_pc * bool) :=
  match k with
  | Reconciler => runDeployReconcile (ts_raft (cs_task st)) (cs_signal st) m l
  | Recoverer => pc ← runFailureRecovery m l; Some (pc, cs_signal st)
  end.

Definition loop_step (k : controller_kind) (i : nat) (m : loop_move) (st : Controllers) : option Controllers :=
  l ← ctl_loops (ctl k st) !! i;
  match leave m i l (ctl k st) with
  | Some c => Some (set_ctl k c st)
  | None =>
      '(pc, signal) ← body k st m l;
      Some (set_ctl k (set_loop i (at_pc pc l) (ctl k st)) (set_signal signal (run_pass k l st)))
  end.

Definition step (h : happening) (st : Controllers) : option Controllers :=
  match h with
  | HStart k => Some (set_ctl k (start_of k (ctl k st)) st)
  | HStop k => Some (set_ctl k (take_cancel (ctl k st)) st)
  | HStopMove k j m => c ← stop_of k m j (ctl k st); Some (set_ctl k c st)
  | HParent k i => l ← ctl_loops (ctl k st) !! i; Some (set_ctl k (set_loop i (cancel_loop l) (ctl k st)) st)
  | HLoop k i m => loop_step k i m st
  | HNotify => Some (set_signal true st)
  | HRequest r => Some (set_task (handle cfg r (cs_task st)).2 st)
  end.

Fixpoint steps (hs : list happening) (st : Controllers) : option Controllers :=
  match hs with [] => Some st | h :: hs => st' ← step h st; steps hs st' end.
End steps.

(** ** What every interleaving keeps *)

(** In the wait group, and before the end of its work. *)
Definition counted (l : loop) : bool := match lp_pc l with CancelOwn | Gone => false | _ => true end.
Definition active (l : loop) : bool := match lp_pc l with WgDone | CancelOwn | Gone => false | _ => true end.

Definition counter (b : bool) : Z := if b then 1 else 0.
Fixpoint in_group (ls : list loop) : Z :=
  match ls with [] => 0%Z | l :: ls => (counter (counted l) + in_group ls)%Z end.

Lemma in_group_app ls ls' : in_group (ls ++ ls') = (in_group ls + in_group ls')%Z.
Proof. induction ls as [|l ls IH]; cbn; [done|]. rewrite IH. lia. Qed.

Lemma in_group_insert ls i l l' : ls !! i = Some l →
  in_group (<[i := l']> ls) = (in_group ls - counter (counted l) + counter (counted l'))%Z.
Proof.
  revert i. induction ls as [|x ls IH]; intros [|i] Hi; simplify_eq/=; [lia|].
  specialize (IH _ Hi). unfold insert in *. lia.
Qed.

Lemma in_group_pos ls : (0 ≤ in_group ls)%Z.
Proof. induction ls as [|l ls IH]; cbn; [lia|]. unfold counter. destruct (counted l); lia. Qed.

Lemma in_group_zero ls i l : in_group ls = 0%Z → ls !! i = Some l → counted l = false.
Proof.
  intros E Hi. pose proof (in_group_insert ls i l (at_pc Gone l) Hi) as Ei. pose proof (in_group_pos (<[i := at_pc Gone l]> ls)).
  unfold counter, at_pc, counted in *. cbn in *. destruct (lp_pc l); cbn in *; first [done|lia].
Qed.

Lemma active_counted l : active l = true → counted l = true.
Proof. unfold active, counted. by destruct (lp_pc l). Qed.

Lemma in_group_filter ls : in_group ls = Z.of_nat (length (filter (λ l, counted l = true) ls)).
Proof.
  induction ls as [|l ls IH]; [done|]. cbn [in_group]. rewrite filter_cons, IH. unfold counter.
  destruct (counted l); case_decide; cbn; try done; lia.
Qed.

(** About to be canceled by a call of Stop that took its function. *)
Definition taken (c : controller) (i : nat) : Prop :=
  ∃ j n, ctl_stops c !! j = Some (mkStop n (StopCancel (Some i))).
Definition waited (s : stop_call) : bool :=
  match sc_pc s with StopWait b => b | StopReturned (Ok _) => true | _ => false end.

Record ctl_inv (c : controller) : Prop := {
  ci_run : ctl_run c = wrap_uint64 (Z.of_nat (length (ctl_loops c)));
  ci_ids : ∀ i l, ctl_loops c !! i = Some l → lp_runID l = wrap_uint64 (Z.of_nat (S i));
  ci_wg : ctl_wg c = in_group (ctl_loops c);
  ci_last : ∀ i, ctl_cancel c = Some i → S i = length (ctl_loops c);
  ci_live : ∀ i l, ctl_loops c !! i = Some l → active l = true → lp_canceled l = false →
    ctl_cancel c = Some i ∨ taken c i;
  ci_stops : ∀ j s, ctl_stops c !! j = Some s → (sc_started s ≤ length (ctl_loops c))%nat ∧
    (waited s = true → ∀ i l, (i < sc_started s)%nat → ctl_loops c !! i = Some l → counted l = false) }.

Definition bounded (c : controller) : Prop := (Z.of_nat (length (ctl_loops c)) < 2 ^ 64)%Z.

Lemma new_inv : ctl_inv new_controller.
Proof. split; cbn; try done; intros ?? E; by rewrite lookup_nil in E. Qed.

(** A goroutine moves on, or its context ends: nothing that is finished starts again. *)
Record progress (l l' : loop) : Prop := {
  pr_runID : lp_runID l' = lp_runID l;
  pr_canceled : lp_canceled l = true → lp_canceled l' = true;
  pr_counted : counted l' = true → counted l = true;
  pr_active : active l' = true → active l = true }.

Lemma loop_move_inv c i l l' wg : ctl_inv c → ctl_loops c !! i = Some l → progress l l' →
  wg = (ctl_wg c - counter (counted l) + counter (counted l'))%Z →
  ctl_inv (mkController (ctl_cancel c) (ctl_run c) wg (<[i := l']> (ctl_loops c)) (ctl_stops c)).
Proof.
  intros [Hr Hids Hwg Hl Hlive Hs] Hi [P1 P2 P3 P4] ->. pose proof (lookup_lt_Some _ _ _ Hi) as Hlt.
  split; cbn; rewrite ?length_insert; try done.
  - intros i' x [(<- & <- & _)|[_ Hx]]%list_lookup_insert_Some; [|by apply Hids]. rewrite P1. by apply Hids.
  - by rewrite (in_group_insert _ _ _ _ Hi), Hwg.
  - intros i' x [(<- & <- & _)|[_ Hx]]%list_lookup_insert_Some Ha Hc; [|by eapply Hlive].
    apply (Hlive _ l); [done|by apply P4|]. destruct (lp_canceled l); [|done]. by rewrite P2 in Hc.
  - intros j s Hj. destruct (Hs _ _ Hj) as [Hs1 Hs2]. split; [done|]. intros Hw i' x Hlt' [(<- & <- & _)|[_ Hx]]%list_lookup_insert_Some.
    + apply not_true_is_false. intros E. apply P3 in E. by rewrite (Hs2 Hw _ _ Hlt' Hi) in E.
    + by eapply Hs2.
Qed.

Lemma set_loop_inv c i l l' : ctl_inv c → ctl_loops c !! i = Some l → progress l l' → counted l' = counted l →
  ctl_inv (set_loop i l' c).
Proof. intros Hc Hi Hp E. eapply loop_move_inv; [done..|]. rewrite E. lia. Qed.

Lemma progress_cancel l : progress l (cancel_loop l).
Proof. by split. Qed.

Lemma begin_inv first c : active (mkLoop 0 false first) = true → ctl_inv c → ctl_inv (begin_run first c).
Proof.
  intros Hf Hc. unfold begin_run. destruct (ctl_cancel c) eqn:E; [done|]. destruct Hc as [Hr Hids Hwg Hl Hlive Hs].
  split; cbn; rewrite ?length_app; cbn.
  - rewrite Hr. unfold wrap_uint64. rewrite Zplus_mod_idemp_l. f_equal. lia.
  - intros i l [Hi|[Hge Hi]]%lookup_app_Some; [by apply Hids|]. apply list_lookup_singleton_Some in Hi as [Hz <-]. cbn.
    rewrite Hr. unfold wrap_uint64. rewrite Zplus_mod_idemp_l. f_equal. lia.
  - rewrite in_group_app, Hwg. cbn. assert (counted (mkLoop (wrap_uint64 (ctl_run c + 1)) false first) = true) as ->; [|cbn; lia].
    apply active_counted in Hf. exact Hf.
  - intros i [= <-]. lia.
  - intros i l [Hi|[Hge Hi]]%lookup_app_Some Ha Hcn.
    + destruct (Hlive _ _ Hi Ha Hcn) as [Hx|Hx]; [congruence|]. by right.
    + apply list_lookup_singleton_Some in Hi as [Hz _]. left. f_equal. lia.
  - intros j s Hj. destruct (Hs _ _ Hj) as [Hs1 Hs2]. split; [lia|]. intros Hw i l Hlt Hi. eapply (Hs2 Hw); [done|].
    apply lookup_app_Some in Hi as [Hi|[Hge _]]; [done|lia].
Qed.

Lemma take_inv c : ctl_inv c → ctl_inv (take_cancel c).
Proof.
  intros [Hr Hids Hwg Hl Hlive Hs]. split; cbn; try done.
  - intros i l Hi Ha Hcn. right. destruct (Hlive _ _ Hi Ha Hcn) as [Hx|(j & n & Hj)].
    + exists (length (ctl_stops c)), (length (ctl_loops c)). cbn. by rewrite lookup_app_r, Nat.sub_diag, Hx by lia.
    + exists j, n. cbn. by apply lookup_app_l_Some.
  - intros j s [Hj|[_ Hj]]%lookup_app_Some; [exact (Hs _ _ Hj)|]. by apply list_lookup_singleton_Some in Hj as [_ <-].
Qed.

(** A call of Stop goes on without giving up a function it holds. *)
Lemma set_stop_inv c j s pc : ctl_inv c → ctl_stops c !! j = Some s →
  (∀ i l, sc_pc s = StopCancel (Some i) → ctl_loops c !! i = Some l → lp_canceled l = true) →
  (waited (mkStop (sc_started s) pc) = true → waited s = true ∨ ctl_wg c = 0%Z) →
  ctl_inv (set_stop j (mkStop (sc_started s) pc) c).
Proof.
  intros [Hr Hids Hwg Hl Hlive Hs] Hj Hc Hw. split; cbn; try done.
  - intros i l Hi Ha Hcn. destruct (Hlive _ _ Hi Ha Hcn) as [Hx|(j' & n & Hj')]; [by left|]. right.
    destruct (decide (j' = j)) as [->|Hne].
    + rewrite Hj in Hj'. injection Hj' as ->. specialize (Hc i l eq_refl Hi). congruence.
    + exists j', n. cbn. by rewrite list_lookup_insert_ne.
  - intros j' s' [(<- & <- & _)|[_ Hj']]%list_lookup_insert_Some; [|exact (Hs _ _ Hj')]. destruct (Hs _ _ Hj) as [Hs1 Hs2].
    split; [done|]. intros W i l Hlt Hi. destruct (Hw W) as [Hw'|Hz]; [by eapply Hs2|]. eapply in_group_zero; [|done]. by rewrite <-Hwg.
Qed.

Lemma stop_step_inv what m j c c' : ctl_inv c → stop_step what m j c = Some c' → ctl_inv c'.
Proof.
  unfold stop_step. intros Hc. destruct (ctl_stops c !! j) as [s|] eqn:Ej; [|done]. cbn.
  destruct (sc_pc s) as [o|[|]|r] eqn:Ep, m; try done.
  2, 5: destruct (Z.eqb_spec (ctl_wg c) 0); [|done].
  1: { intros [= <-]. destruct o as [i|]; [destruct (ctl_loops c !! i) as [l|] eqn:Ei|].
    + apply set_stop_inv; [by eapply set_loop_inv; [..|apply progress_cancel|]|done| |done].
      rewrite Ep. cbn. intros i' l' [= <-]. rewrite list_lookup_insert_eq by by eapply lookup_lt_Some. by intros [= <-].
    + apply set_stop_inv; [done..| |done]. rewrite Ep. intros i' l' [= <-]. by rewrite Ei.
    + apply set_stop_inv; [done..| |done]. by rewrite Ep. }
  all: intros [= <-]; (apply set_stop_inv; [done..|by rewrite Ep|]); try done; try by right.
  left. unfold waited. by rewrite Ep.
Qed.

(** ** Steps keep the invariant *)
Lemma wrap_small n : (Z.of_nat n < 2 ^ 64)%Z → wrap_uint64 (Z.of_nat n) = Z.of_nat n.
Proof. intros ?. apply Z.mod_small. lia. Qed.

(** The newest loop is the one whose end clears the table. *)
Lemma leave_inv m i l c c' : bounded c → ctl_inv c → ctl_loops c !! i = Some l → leave m i l c = Some c' → ctl_inv c'.
Proof.
  intros Hb Hc Hi. unfold leave, bounded in *. pose proof (lookup_lt_Some _ _ _ Hi).
  destruct (lp_pc l) eqn:Ep, m; try done; intros [= <-].
  - assert (ctl_inv (set_loop i (at_pc WgDone l) c)) as [Hr Hids Hwg Hl Hlive Hs].
    { eapply set_loop_inv; [done..| |]; [split|]; unfold counted, active; cbn; by rewrite ?Ep. }
    split; try done; cbn in *.
    + intros i' E. apply Hl. by case_match.
    + intros i' x Hx Ha Hcn. destruct (Hlive _ _ Hx Ha Hcn) as [E|]; [|by right]. left. rewrite E.
      pose proof (Hl _ E) as El. rewrite length_insert in El. destruct (Z.eqb_spec (ctl_run c) (lp_runID l)) as [Er|]; [|done].
      exfalso. rewrite (ci_run _ Hc), (ci_ids _ Hc _ _ Hi), !wrap_small in Er by lia. assert (i' = i) as -> by lia.
      rewrite list_lookup_insert_eq in Hx by lia. by injection Hx as <-.
  - apply (loop_move_inv c i l); [done..| |]; [split|]; unfold counted, active; cbn; rewrite ?Ep; try done. cbn. lia.
  - eapply set_loop_inv; [done..| |]; [split|]; unfold counted, active; cbn; by rewrite ?Ep.
Qed.

Lemma stop_of_step k m j c c' : stop_of k m j c = Some c' → ∃ what, stop_step what m j c = Some c'.
Proof. destruct k; eexists; done. Qed.

Lemma loops_grow_leave m i l c c' : leave m i l c = Some c' → length (ctl_loops c') = length (ctl_loops c).
Proof. unfold leave. destruct (lp_pc l), m; try done; intros [= <-]; apply length_insert. Qed.

Lemma loops_grow_stop what m j c c' : stop_step what m j c = Some c' → length (ctl_loops c') = length (ctl_loops c).
Proof.
  unfold stop_step. destruct (ctl_stops c !! j) as [s|]; [|done]. cbn.
  destruct (sc_pc s) as [[i|]|[|]|r], m; try done; repeat case_match; try done; intros [= <-]; cbn; by rewrite ?length_insert.
Qed.

Lemma loops_grow_begin first c : (length (ctl_loops (begin_run first c)) ≤ S (length (ctl_loops c)))%nat.
Proof. unfold begin_run. case_match; cbn; rewrite ?length_app; cbn; lia. Qed.

Section invariant.
Context `{Digest, World} `{ListSort, GraphLib} (cfg : TaskConfig).

(** A move of the body keeps the loop at work. *)
Lemma body_moves k st m l pc b : body k st m l = Some (pc, b) →
  progress l (at_pc pc l) ∧ counted (at_pc pc l) = counted l ∧ active (at_pc pc l) = true ∧ active l = true.
Proof.
  intros E. assert (active l = true ∧ active (at_pc pc l) = true) as [Hl Hpc].
  { unfold body, runDeployReconcile, runFailureRecovery, waitDeployReconcileLeader, waitDeployReconcileTrigger,
      reconcilePendingDeploys, active in *. cbn. destruct k, (lp_pc l), m; try done; repeat (case_match; simplify_eq/=; try done). }
  pose proof (active_counted _ Hl). pose proof (active_counted _ Hpc). split_and!; [by split|congruence|done|done].
Qed.

Definition both (P : controller → Prop) (st : Controllers) : Prop := ∀ k, P (ctl k st).
Lemma both_set (P : controller → Prop) k c st : P c → both P st → both P (set_ctl k c st).
Proof. intros Hc Hs k'. specialize (Hs k'). by destruct k, k'. Qed.

Definition started_loops (st : Controllers) (k : controller_kind) : nat := length (ctl_loops (ctl k st)).

Lemma step_inv h st st' : both bounded st → both ctl_inv st → step cfg h st = Some st' → both ctl_inv st'.
Proof.
  intros Hb Hs. destruct h as [k|k|k j m|k i|k i m| |r]; cbn; intros E.
  - injection E as <-. apply both_set; [|done]. destruct k; by apply begin_inv.
  - injection E as <-. apply both_set; [|done]. apply take_inv, Hs.
  - destruct (stop_of _ _ _ _) as [c|] eqn:Es; [|done]. apply stop_of_step in Es as [what Es]. injection E as <-. apply both_set; [|done]. by eapply stop_step_inv.
  - destruct (ctl_loops (ctl k st) !! i) as [l|] eqn:Ei; [|done]. injection E as <-. apply both_set; [|done].
    eapply set_loop_inv; [apply Hs|done|apply progress_cancel|done].
  - unfold loop_step in E. destruct (ctl_loops (ctl k st) !! i) as [l|] eqn:Ei; [|done]. cbn in E.
    destruct (leave m i l (ctl k st)) as [c|] eqn:El.
    { injection E as <-. apply both_set; [|done]. by eapply leave_inv. }
    destruct (body k st m l) as [[pc b]|] eqn:Eb; [|done]. injection E as <-. apply body_moves in Eb as (Hp & Hc & _).
    apply both_set; [by eapply set_loop_inv|]. intros k'. specialize (Hs k'). unfold run_pass. case_match; by destruct k'.
  - injection E as <-. intros k. specialize (Hs k). by destruct k.
  - injection E as <-. intros k. specialize (Hs k). by destruct k.
Qed.

Lemma started_set k c st k' n : (length (ctl_loops c) ≤ n + started_loops st k)%nat → (started_loops (set_ctl k c st) k' ≤ n + started_loops st k')%nat.
Proof. unfold started_loops. destruct k, k'; cbn; lia. Qed.

Lemma step_size h st st' k : step cfg h st = Some st' → (started_loops st' k ≤ S (started_loops st k))%nat.
Proof.
  destruct h as [k'|k'|k' j m|k' i|k' i m| |r]; cbn; intros E.
  - injection E as <-. apply (started_set _ _ _ _ 1). destruct k'; apply loops_grow_begin.
  - injection E as <-. apply (started_set _ _ _ _ 1). cbn. unfold started_loops. lia.
  - destruct (stop_of _ _ _ _) as [c|] eqn:Es; [|done]. apply stop_of_step in Es as [what Es]. injection E as <-. apply (started_set _ _ _ _ 1).
    rewrite (loops_grow_stop _ _ _ _ _ Es). unfold started_loops. lia.
  - destruct (ctl_loops (ctl k' st) !! i) as [l|] eqn:Ei; [|done]. injection E as <-. apply (started_set _ _ _ _ 1).
    cbn. rewrite length_insert. unfold started_loops. lia.
  - unfold loop_step in E. destruct (ctl_loops (ctl k' st) !! i) as [l|] eqn:Ei; [|done]. cbn in E.
    destruct (leave m i l (ctl k' st)) as [c|] eqn:El.
    { injection E as <-. apply (started_set _ _ _ _ 1). rewrite (loops_grow_leave _ _ _ _ _ El). unfold started_loops. lia. }
    destruct (body k' st m l) as [[pc b]|] eqn:Eb; [|done]. injection E as <-. unfold run_pass, started_loops.
    case_match; destruct k', k; cbn; rewrite ?length_insert; lia.
  - injection E as <-. unfold started_loops. destruct k; cbn; lia.
  - injection E as <-. unfold started_loops. destruct k; cbn; lia.
Qed.

Lemma steps_inv hs st st' : both ctl_inv st → both (λ c, Z.of_nat (length (ctl_loops c) + length hs) < 2 ^ 64)%Z st →
  steps cfg hs st = Some st' → both ctl_inv st'.
Proof.
  revert st. induction hs as [|h hs IH]; intros st Hi Hb E; cbn in E; [by simplify_eq|].
  destruct (step cfg h st) as [st1|] eqn:E1; [|done]. cbn in E. apply (IH st1); [| |done].
  - eapply step_inv; [|done..]. intros k. specialize (Hb k). unfold bounded. cbn in Hb. lia.
  - intros k. specialize (Hb k). pose proof (step_size _ _ _ k E1) as Hz. unfold started_loops in Hz. cbn in Hb. lia.
Qed.

(** Every state a service reaches. *)
Lemma reached_inv s hs st : (Z.of_nat (length hs) < 2 ^ 64)%Z → steps cfg hs (NewControllers s) = Some st → both ctl_inv st.
Proof.
  intros Hl. apply steps_inv; intros []; cbn; first [apply new_inv|lia].
Qed.

(** ** Passes are requests *)
Definition request_of (h : happening) : option request :=
  match h with HRequest r => Some r | HLoop k _ Run => Some (pass_of k) | _ => None end.

Lemma task_set_ctl k c st : cs_task (set_ctl k c st) = cs_task st.
Proof. by destruct k. Qed.

Lemma step_task h st st' : step cfg h st = Some st' →
  cs_task st' = match request_of h with Some r => (handle cfg r (cs_task st)).2 | None => cs_task st end.
Proof.
  destruct h as [k|k|k j m|k i|k i m| |r]; cbn; intros E; try (injection E as <-; by rewrite ?task_set_ctl).
  - destruct (stop_of _ _ _ _); [|done]. injection E as <-. apply task_set_ctl.
  - destruct (_ !! i); [|done]. injection E as <-. apply task_set_ctl.
  - unfold loop_step in E. destruct (_ !! i) as [l|]; [|done]. cbn in E. destruct (leave m i l _) as [c|] eqn:El.
    { injection E as <-. rewrite task_set_ctl. unfold leave in El. by destruct (lp_pc l), m. }
    destruct (body k st m l) as [[pc b]|] eqn:Eb; [|done]. injection E as <-. rewrite task_set_ctl. cbn. unfold run_pass.
    assert (lp_pc l = Pass ↔ m = Run) as Hm.
    { unfold body, runDeployReconcile, runFailureRecovery, waitDeployReconcileTrigger, reconcilePendingDeploys in Eb.
      destruct k, (lp_pc l), m; try done; by repeat (case_match; simplify_eq/=; try done). }
    case_bool_decide as Hp; [by rewrite (proj1 Hm Hp)|]. destruct m; try done. by destruct Hp; apply Hm.
Qed.

Lemma steps_task hs st st' : steps cfg hs st = Some st' → cs_task st' = (serve cfg (omap request_of hs) (cs_task st)).2.
Proof.
  revert st. induction hs as [|h hs IH]; intros st E; cbn in E; [by simplify_eq|].
  destruct (step cfg h st) as [st1|] eqn:E1; [|done]. cbn in E. rewrite (IH _ E), (step_task _ _ _ E1). cbn.
  destruct (request_of h) as [r|]; [|done]. unfold serve. cbn. unfold mbind, M_bind. by destruct (handle cfg r _).
Qed.

(** ** Signals *)

(** A signal is kept, or some loop is about to run a pass. *)
Definition heard (st : Controllers) : Prop :=
  cs_signal st = true ∨ ∃ i l, ctl_loops (cs_reconcile st) !! i = Some l ∧ lp_pc l = Pass.

Lemma heard_insert st st' i l l' : heard st → ctl_loops (cs_reconcile st) !! i = Some l →
  ctl_loops (cs_reconcile st') = <[i := l']> (ctl_loops (cs_reconcile st)) → (lp_pc l = Pass → lp_pc l' = Pass) →
  (cs_signal st = true → cs_signal st' = true ∨ lp_pc l' = Pass) → heard st'.
Proof.
  intros Hh Hi El Hp Hs. pose proof (lookup_lt_Some _ _ _ Hi).
  assert (lp_pc l' = Pass → heard st') as Hl'.
  { intros E. right. exists i, l'. by rewrite El, list_lookup_insert_eq. }
  destruct Hh as [Hg|(i' & x & Hx & Ex)]; [destruct (Hs Hg); [by left|auto]|].
  destruct (decide (i = i')) as [<-|Hne]; [apply Hl', Hp; congruence|].
  right. exists i', x. by rewrite El, list_lookup_insert_ne.
Qed.

Lemma heard_loops st st' : heard st → cs_signal st' = cs_signal st →
  (∀ i l, ctl_loops (cs_reconcile st) !! i = Some l → lp_pc l = Pass →
     ∃ l', ctl_loops (cs_reconcile st') !! i = Some l' ∧ lp_pc l' = Pass) → heard st'.
Proof. intros [Hg|(i & l & Hi & Hl)] Es Hm; [left; congruence|]. right. destruct (Hm _ _ Hi Hl) as (l' & ? & ?). by exists i, l'. Qed.

Lemma cancel_loops i l0 c i' l : ctl_loops c !! i = Some l0 → ctl_loops c !! i' = Some l →
  ∃ l', <[i := cancel_loop l0]> (ctl_loops c) !! i' = Some l' ∧ lp_pc l' = lp_pc l.
Proof.
  intros H0' Hl. destruct (decide (i = i')) as [->|Hne]; [|exists l; by rewrite list_lookup_insert_ne].
  exists (cancel_loop l0). rewrite list_lookup_insert_eq by by eapply lookup_lt_Some. split; [done|]. cbn. congruence.
Qed.

Lemma stop_step_loops what m j c c' i l : stop_step what m j c = Some c' → ctl_loops c !! i = Some l →
  ∃ l', ctl_loops c' !! i = Some l' ∧ lp_pc l' = lp_pc l.
Proof.
  unfold stop_step. intros E Hi. destruct (ctl_stops c !! j) as [s|]; [|done]. cbn in E.
  destruct (sc_pc s) as [[i0|]|[|]|r], m; try done.
  1: destruct (ctl_loops c !! i0) as [l0|] eqn:E0; injection E as <-; [by apply cancel_loops|by exists l].
  all: repeat case_match; try done; injection E as <-; by exists l.
Qed.

Lemma begin_run_loops first c i l : ctl_loops c !! i = Some l → ctl_loops (begin_run first c) !! i = Some l.
Proof. intros Hi. unfold begin_run. case_match; [done|]. cbn. by apply lookup_app_l_Some. Qed.

Lemma reconcile_step_heard i m st st' : m ≠ Run → heard st → loop_step cfg Reconciler i m st = Some st' → heard st'.
Proof.
  unfold loop_step. intros Hm Hh E. destruct (ctl_loops (ctl Reconciler st) !! i) as [l|] eqn:Ei; [|done]. cbn in E.
  destruct (leave m i l _) as [c|] eqn:El.
  - injection E as <-. unfold leave in El. destruct (lp_pc l) eqn:Ep, m; try done; injection El as <-;
      (eapply heard_insert; [done|exact Ei|reflexivity|congruence|by left]).
  - destruct (runDeployReconcile _ _ _ _) as [[pc b]|] eqn:Eb; [|done]. injection E as <-.
    assert (run_pass cfg Reconciler l st = st ∧ lp_pc l ≠ Pass ∧ (cs_signal st = true → b = true ∨ pc = Pass)) as (-> & Hp & Hs).
    { unfold runDeployReconcile, waitDeployReconcileTrigger, reconcilePendingDeploys, run_pass in *.
      destruct (lp_pc l) eqn:Ep, m; try done; (split; [done|]; split; [done|]); intros Hs; rewrite Hs in Eb;
        unfold mbind, option_bind in *; repeat (case_match; simplify_eq/=; try done); simplify_eq; auto. }
    eapply heard_insert; [done|exact Ei|reflexivity|done|exact Hs].
Qed.

Lemma step_heard h st st' : (∀ i, h ≠ HLoop Reconciler i Run) → heard st → step cfg h st = Some st' → heard st'.
Proof.
  intros Hn Hh. destruct h as [k|k|k j m|k i|[] i m| |r]; cbn; intros E.
  - injection E as <-. eapply heard_loops; [done|by destruct k|]. intros i l Hi Hl. exists l. destruct k; cbn; [|done].
    split; [by apply begin_run_loops|done].
  - injection E as <-. eapply heard_loops; [done|by destruct k|]. intros i l Hi Hl. exists l. by destruct k.
  - destruct (stop_of _ _ _ _) as [c|] eqn:Es; [|done]. apply stop_of_step in Es as [what Es]. injection E as <-. eapply heard_loops; [done|by destruct k|].
    intros i l Hi Hl. destruct k; cbn; [|by exists l]. destruct (stop_step_loops _ _ _ _ _ _ _ Es Hi) as (l' & ? & ?). exists l'. split; [done|congruence].
  - destruct (ctl_loops (ctl k st) !! i) as [l0|] eqn:Ei; [|done]. injection E as <-. eapply heard_loops; [done|by destruct k|].
    intros i' l Hi Hl. destruct k; cbn; [|by exists l]. destruct (cancel_loops _ _ _ _ _ Ei Hi) as (l' & ? & ?). exists l'. split; [done|congruence].
  - eapply reconcile_step_heard; [|done..]. intros ->. by eapply Hn.
  - unfold loop_step in E. destruct (_ !! i) as [l|]; [|done]. cbn in E. destruct (leave m i l _) as [c|]; [by simplify_eq|].
    destruct (runFailureRecovery m l); [|done]. injection E as <-. unfold run_pass. by case_match.
  - injection E as <-. by left.
  - by injection E as <-.
Qed.

Lemma steps_heard hs st st' : (∀ i, HLoop Reconciler i Run ∉ hs) → heard st → steps cfg hs st = Some st' → heard st'.
Proof.
  revert st. induction hs as [|h hs IH]; intros st Hn Hh E; cbn in E; [by simplify_eq|].
  destruct (step cfg h st) as [st1|] eqn:E1; [|done]. apply (IH st1); [set_solver| |done].
  eapply step_heard; [|done..]. intros i ->. by apply (Hn i); left.
Qed.

Lemma steps_app hs1 hs2 st : steps cfg (hs1 ++ hs2) st = steps cfg hs1 st ≫= steps cfg hs2.
Proof. revert st. induction hs1 as [|h hs IH]; intros st; cbn; [done|]. destruct (step cfg h st); cbn; auto. Qed.

(** ** A canceled loop ends *)
Definition rank (pc : loop_pc) : nat :=
  match pc with WaitLeader => 6 | Pass => 5 | Drain | Idle => 4 | Finish => 3 | WgDone => 2 | CancelOwn => 1 | Gone => 0 end.

(** What the moves of one loop leave alone. *)
Record others (k : controller_kind) (i : nat) (st st' : Controllers) : Prop := {
  ot_stops : ctl_stops (ctl k st') = ctl_stops (ctl k st);
  ot_loops : ∀ i', i' ≠ i → ctl_loops (ctl k st') !! i' = ctl_loops (ctl k st) !! i' }.

Lemma others_trans k i st1 st2 st3 : others k i st1 st2 → others k i st2 st3 → others k i st1 st3.
Proof. intros [E1 L1] [E2 L2]. split; [by rewrite E2|]. intros i' Hi. by rewrite L2, L1. Qed.

Lemma leave_goes k i l st : ctl_loops (ctl k st) !! i = Some l → (1 ≤ rank (lp_pc l) ≤ 3)%nat → lp_canceled l = true →
  ∃ st' l', step cfg (HLoop k i Exit) st = Some st' ∧ others k i st st' ∧
    ctl_loops (ctl k st') !! i = Some l' ∧ lp_canceled l' = true ∧ (S (rank (lp_pc l')) = rank (lp_pc l))%nat.
Proof.
  intros Hi Hr Hc. pose proof (lookup_lt_Some _ _ _ Hi). cbn. unfold loop_step. rewrite Hi. cbn. unfold leave.
  destruct (lp_pc l) eqn:Ep; cbn in Hr; try lia.
  all: do 2 eexists; split; [reflexivity|]; split; [split; [by destruct k|];
    intros i' Hne; destruct k; cbn; by rewrite list_lookup_insert_ne|].
  all: split; [destruct k; cbn; by apply list_lookup_insert_eq|done].
Qed.

Lemma body_goes k i l m pc b st : ctl_loops (ctl k st) !! i = Some l → leave m i l (ctl k st) = None →
  body k st m l = Some (pc, b) →
  ∃ st', step cfg (HLoop k i m) st = Some st' ∧ others k i st st' ∧ ctl_loops (ctl k st') !! i = Some (at_pc pc l).
Proof.
  intros Hi Hl Hb. pose proof (lookup_lt_Some _ _ _ Hi). cbn. unfold loop_step. rewrite Hi. cbn. rewrite Hl, Hb. cbn.
  eexists. split; [reflexivity|]. split.
  - split; destruct k; cbn; try done; intros i' Hne; by rewrite list_lookup_insert_ne.
  - destruct k; cbn; by apply list_lookup_insert_eq.
Qed.

(** The recovery loop has no leadership to wait for and no signals to drain. *)
Definition fits (k : controller_kind) (pc : loop_pc) : bool :=
  match k, pc with Recoverer, (WaitLeader | Drain) => false | _, _ => true end.
Definition fit (st : Controllers) : Prop :=
  ∀ k, Forall (λ l, fits k (lp_pc l) = true) (ctl_loops (ctl k st)).

Lemma fit_set k c st : fit st → Forall (λ l, fits k (lp_pc l) = true) (ctl_loops c) → fit (set_ctl k c st).
Proof. intros Hs Hc k'. specialize (Hs k'). by destruct k, k'. Qed.

Lemma fit_insert k i l c : Forall (λ l, fits k (lp_pc l) = true) (ctl_loops c) → fits k (lp_pc l) = true →
  Forall (λ l, fits k (lp_pc l) = true) (<[i := l]> (ctl_loops c)).
Proof. intros. by apply Forall_insert. Qed.

Lemma fit_lookup k i l st : fit st → ctl_loops (ctl k st) !! i = Some l → fits k (lp_pc l) = true.
Proof. intros Hs Hi. by eapply (Forall_lookup_1 _ _ i _ (Hs k)). Qed.

Lemma step_fit h st st' : fit st → step cfg h st = Some st' → fit st'.
Proof.
  intros Hs. destruct h as [k|k|k j m|k i|k i m| |r]; cbn; intros E.
  - injection E as <-. apply fit_set; [done|]. specialize (Hs k).
    destruct k; cbn; unfold StartDeployReconcile, StartFailureRecovery, begin_run; case_match; try done;
      (apply Forall_app; split; [done|by repeat constructor]).
  - injection E as <-. apply fit_set; [done|]. apply Hs.
  - destruct (stop_of _ _ _ _) as [c|] eqn:Es; [|done]. apply stop_of_step in Es as [what Es]. injection E as <-. apply fit_set; [done|]. unfold stop_step in Es.
    destruct (ctl_stops (ctl k st) !! j) as [s|]; [|done]. cbn in Es. destruct (sc_pc s) as [[i0|]|[|]|r], m; try done;
      repeat case_match; try done; injection Es as <-; cbn; try apply Hs.
    apply fit_insert; [apply Hs|]. match goal with Hl : _ !! _ = Some _ |- _ => exact (fit_lookup _ _ _ _ Hs Hl) end.
  - destruct (ctl_loops (ctl k st) !! i) as [l|] eqn:Ei; [|done]. injection E as <-. apply fit_set; [done|].
    apply fit_insert; [apply Hs|]. exact (fit_lookup _ _ _ _ Hs Ei).
  - unfold loop_step in E. destruct (ctl_loops (ctl k st) !! i) as [l|] eqn:Ei; [|done]. cbn in E.
    destruct (leave m i l (ctl k st)) as [c|] eqn:El.
    + injection E as <-. apply fit_set; [done|]. unfold leave in El.
      destruct (lp_pc l), m; try done; injection El as <-; (apply fit_insert; [apply Hs|by destruct k]).
    + destruct (body k st m l) as [[pc b]|] eqn:Eb; [|done]. injection E as <-. apply fit_set.
      { intros k'. specialize (Hs k'). unfold run_pass. case_match; by destruct k'. }
      apply fit_insert; [apply Hs|]. cbn. destruct k; [done|]. cbn in Eb. unfold runFailureRecovery in Eb.
      destruct (lp_pc l), m; try done; destruct (lp_canceled l); by simplify_eq/=.
  - injection E as <-. intros k. specialize (Hs k). by destruct k.
  - injection E as <-. intros k. specialize (Hs k). by destruct k.
Qed.

Lemma steps_fit hs st st' : fit st → steps cfg hs st = Some st' → fit st'.
Proof.
  revert st. induction hs as [|h hs IH]; intros st Hs E; cbn in E; [by simplify_eq|].
  destruct (step cfg h st) as [st1|] eqn:E1; [|done]. eapply IH; [by eapply step_fit|done].
Qed.

Lemma canceled_next k i l st : fit st → ctl_loops (ctl k st) !! i = Some l → lp_canceled l = true → lp_pc l ≠ Gone →
  ∃ m st' l', step cfg (HLoop k i m) st = Some st' ∧ others k i st st' ∧
    ctl_loops (ctl k st') !! i = Some l' ∧ lp_canceled l' = true ∧
    (rank (lp_pc l') < rank (lp_pc l))%nat ∧ (m = Run → lp_pc l = Pass).
Proof.
  intros Hf Hi Hc Hg. pose proof (fit_lookup _ _ _ _ Hf Hi) as Hk.
  destruct (decide (rank (lp_pc l) ≤ 3)) as [Hr|Hr].
  { destruct (leave_goes k i l st Hi) as (st' & l' & ? & ? & ? & ? & ?); [destruct (lp_pc l); cbn in *; first [done|lia]|done|].
    exists Exit, st', l'. split_and!; try done. lia. }
  assert (∃ m pc b, leave m i l (ctl k st) = None ∧ body k st m l = Some (pc, b) ∧ (rank pc < rank (lp_pc l))%nat ∧
    (m = Run → lp_pc l = Pass)) as (m & pc & b & Hl & Hb & Hrk & Hm).
  { unfold leave, body, runDeployReconcile, runFailureRecovery.
    destruct (lp_pc l) eqn:Ep; cbn in Hr; try lia; destruct k; try done.
    - destruct (sv_nh (ts_raft (cs_task st))) eqn:En.
      + exists (Leadership (Err (Errorf "" [])) [Done (Errorf "" [])]). unfold waitDeployReconcileLeader, WaitLocalLeader, wait_loop, leads.
        rewrite En, Hc, andb_false_r. cbn. do 2 eexists. split_and!; [done|reflexivity|cbn; lia|done].
      + exists (Leadership (Err (Errorf "" [])) []). unfold waitDeployReconcileLeader, WaitLocalLeader. rewrite En. cbn.
        do 2 eexists. split_and!; [done|reflexivity|cbn; lia|done].
    - exists Run. do 2 eexists. split_and!; [done|reflexivity|cbn; lia|done].
    - exists Run. do 2 eexists. split_and!; [done|reflexivity|cbn; lia|done].
    - exists CtxDone. cbn. rewrite Hc. do 2 eexists. split_and!; [done|reflexivity|cbn; lia|done].
    - exists CtxDone. cbn. rewrite Hc. do 2 eexists. split_and!; [done|reflexivity|cbn; lia|done].
    - exists CtxDone. cbn. rewrite Hc. do 2 eexists. split_and!; [done|reflexivity|cbn; lia|done]. }
  destruct (body_goes k i l m pc b st Hi Hl Hb) as (st' & ? & ? & ?). exists m, st', (at_pc pc l). by split_and!.
Qed.

(** The moves of one loop, with the passes among them. *)
Definition own (k : controller_kind) (i : nat) (h : happening) : Prop := ∃ m, h = HLoop k i m.

Lemma canceled_ends k i l st : fit st → ctl_loops (ctl k st) !! i = Some l → lp_canceled l = true →
  ∃ hs st' l', steps cfg hs st = Some st' ∧ Forall (own k i) hs ∧ others k i st st' ∧
    ctl_loops (ctl k st') !! i = Some l' ∧ lp_pc l' = Gone ∧
    (length (omap request_of hs) ≤ if decide (5 ≤ rank (lp_pc l)) then 1 else 0)%nat.
Proof.
  remember (rank (lp_pc l)) as n eqn:En. revert l st En. induction (lt_wf n) as [n _ IH]. intros l st -> Hf Hi Hc.
  destruct (decide (lp_pc l = Gone)) as [Hg|Hg].
  { exists [], st, l. split_and!; try done. cbn. lia. }
  destruct (canceled_next k i l st Hf Hi Hc Hg) as (m & st1 & l1 & E1 & O1 & L1 & C1 & R1 & M1).
  destruct (IH _ R1 l1 st1 eq_refl (step_fit _ _ _ Hf E1) L1 C1) as (hs & st' & l' & E2 & F2 & O2 & L2 & G2 & N2).
  exists (HLoop k i m :: hs), st', l'. split_and!; try done.
  - cbn [steps]. by rewrite E1.
  - constructor; [by exists m|done].
  - by eapply others_trans.
  - cbn [omap list_omap request_of]. destruct m; cbn [length]; repeat case_decide; try lia.
    all: rewrite (M1 eq_refl) in *; cbn in *; lia.
Qed.

(** ** A call of Stop returns *)
Definition moves (k : controller_kind) (h : happening) : Prop := ∃ i, own k i h.

Lemma drain_to k st n : fit st →
  (∀ i l, ctl_loops (ctl k st) !! i = Some l → counted l = true → lp_canceled l = true) →
  ∃ hs st', steps cfg hs st = Some st' ∧ Forall (moves k) hs ∧ ctl_stops (ctl k st') = ctl_stops (ctl k st) ∧
    (∀ i, (n ≤ i)%nat → ctl_loops (ctl k st') !! i = ctl_loops (ctl k st) !! i) ∧
    (∀ i l, (i < n)%nat → ctl_loops (ctl k st') !! i = Some l → counted l = false).
Proof.
  intros Hf Hc. induction n as [|n (hs & st1 & E & F & S & G & L)].
  { exists [], st. split_and!; try done. lia. }
  destruct (ctl_loops (ctl k st) !! n) as [l|] eqn:En.
  2: { exists hs, st1. split_and!; try done; [intros i Hi; apply G; lia|]. intros i l Hi Hl.
       destruct (decide (i = n)) as [->|]; [rewrite G, En in Hl by lia; done|]. eapply L; [|done]. lia. }
  destruct (counted l) eqn:El.
  2: { exists hs, st1. split_and!; try done; [intros i Hi; apply G; lia|]. intros i x Hi Hx.
       destruct (decide (i = n)) as [->|]; [rewrite G, En in Hx by lia; congruence|]. eapply L; [|done]. lia. }
  assert (ctl_loops (ctl k st1) !! n = Some l) as En1 by (rewrite G; [done|lia]).
  destruct (canceled_ends k n l st1 (steps_fit _ _ _ Hf E) En1 (Hc _ _ En El)) as (hs2 & st2 & l2 & E2 & F2 & [O1 O2] & L2 & G2 & _).
  exists (hs ++ hs2), st2. split_and!.
  - by rewrite steps_app, E.
  - apply Forall_app. split; [done|]. eapply Forall_impl; [done|]. intros h Hh. by exists n.
  - congruence.
  - intros i Hi. rewrite O2, G by lia. done.
  - intros i x Hi Hx. destruct (decide (i = n)) as [->|].
    + rewrite L2 in Hx. injection Hx as <-. unfold counted. by rewrite G2.
    + rewrite O2 in Hx by done. eapply L; [|done]. lia.
Qed.

Lemma moves_size k k' h st st' : moves k h → step cfg h st = Some st' → started_loops st' k' = started_loops st k'.
Proof.
  intros (i & m & ->). cbn. unfold loop_step, started_loops. destruct (ctl_loops (ctl k st) !! i) as [l|]; [|done]. cbn.
  destruct (leave m i l (ctl k st)) as [c|] eqn:El.
  - intros [= <-]. apply loops_grow_leave in El. by destruct k, k'.
  - destruct (body k st m l) as [[pc b]|]; [|done]. intros [= <-]. unfold run_pass. case_match; destruct k, k'; cbn; by rewrite ?length_insert.
Qed.

Lemma moves_inv k hs st st' : Forall (moves k) hs → both bounded st → both ctl_inv st → steps cfg hs st = Some st' → both ctl_inv st'.
Proof.
  intros Hm. revert st. induction Hm as [|h hs Hh Hm IH]; intros st Hb Hi E; cbn in E; [by simplify_eq|].
  destruct (step cfg h st) as [st1|] eqn:E1; [|done]. apply (IH st1); [|by eapply step_inv|done].
  intros k'. specialize (Hb k'). unfold bounded. pose proof (moves_size k k' _ _ _ Hh E1) as Hz. unfold started_loops in Hz. by rewrite Hz.
Qed.

Lemma steps_bounded hs st st' : both (λ c, Z.of_nat (length (ctl_loops c) + length hs) < 2 ^ 64)%Z st →
  steps cfg hs st = Some st' → both bounded st'.
Proof.
  revert st. induction hs as [|h hs IH]; intros st Hb E; cbn in E.
  { simplify_eq. intros k. specialize (Hb k). unfold bounded. cbn in Hb. lia. }
  destruct (step cfg h st) as [st1|] eqn:E1; [|done]. apply (IH st1); [|done].
  intros k. specialize (Hb k). pose proof (step_size _ _ _ k E1) as Hz. unfold started_loops in Hz. cbn in Hb. lia.
Qed.

Lemma in_group_none ls : (∀ i l, ls !! i = Some l → counted l = false) → in_group ls = 0%Z.
Proof.
  induction ls as [|l ls IH]; intros Hn; [done|]. cbn. rewrite (Hn 0%nat l eq_refl), IH; [done|]. intros i x Hx. exact (Hn (S i) x Hx).
Qed.

Lemma stop_moves k j n m pc c st : ctl_stops (ctl k st) !! j = Some (mkStop n pc) →
  (∀ what, stop_step what m j (ctl k st) = Some c) →
  step cfg (HStopMove k j m) st = Some (set_ctl k c st) ∧ ctl k (set_ctl k c st) = c.
Proof. intros Hj Hs. destruct k; cbn; unfold StopDeployReconcile, StopFailureRecovery; by rewrite Hs. Qed.

Lemma stop_returns k j n st : ctl_stops (ctl k st) !! j = Some (mkStop n (StopWait false)) → ctl_wg (ctl k st) = 0%Z →
  ∃ st', steps cfg [HStopMove k j StopSees; HStopMove k j StopReturns] st = Some st' ∧
    ctl_stops (ctl k st') !! j = Some (mkStop n (StopReturned (Ok tt))).
Proof.
  intros Hj Hw. pose proof (lookup_lt_Some _ _ _ Hj).
  destruct (stop_moves k j n StopSees _ (set_stop j (mkStop n (StopWait true)) (ctl k st)) st Hj) as [E1 C1].
  { intros what. unfold stop_step. rewrite Hj. cbn. by rewrite Hw. }
  set (st1 := set_ctl _ _ _) in *.
  assert (ctl_stops (ctl k st1) !! j = Some (mkStop n (StopWait true))) as Hj1 by (rewrite C1; by apply list_lookup_insert_eq).
  destruct (stop_moves k j n StopReturns _ (set_stop j (mkStop n (StopReturned (Ok tt))) (ctl k st1)) st1 Hj1) as [E2 C2].
  { intros what. unfold stop_step. by rewrite Hj1. }
  eexists. split; [cbn [steps]; rewrite E1; cbn [mbind option_bind steps]; rewrite E2; reflexivity|].
  rewrite C2. apply list_lookup_insert_eq. by eapply lookup_lt_Some.
Qed.

Lemma stop_can_return k j n st : both bounded st → both ctl_inv st → fit st →
  ctl_stops (ctl k st) !! j = Some (mkStop n (StopWait false)) →
  (∀ i l, ctl_loops (ctl k st) !! i = Some l → counted l = true → lp_canceled l = true) →
  ∃ hs st', steps cfg (hs ++ [HStopMove k j StopSees; HStopMove k j StopReturns]) st = Some st' ∧ Forall (moves k) hs ∧
    ctl_stops (ctl k st') !! j = Some (mkStop n (StopReturned (Ok tt))).
Proof.
  intros Hb Hi Hf Hj Hc. pose proof (lookup_lt_Some _ _ _ Hj) as Hlt.
  destruct (drain_to k st (started_loops st k) Hf Hc) as (hs & st1 & E & F & S & G & L).
  pose proof (moves_inv k hs st st1 F Hb Hi E k) as Hi1.
  assert (ctl_wg (ctl k st1) = 0%Z) as Hw.
  { rewrite (ci_wg _ Hi1). apply in_group_none. intros i l Hl. destruct (decide (i < started_loops st k)%nat) as [|Hge]; [by eapply L|].
    rewrite G in Hl by lia. apply lookup_lt_Some in Hl. unfold started_loops in Hge. lia. }
  destruct (stop_returns k j n st1) as (st' & E' & Hj'); [by rewrite S|done|].
  exists hs, st'. split_and!; [by rewrite steps_app, E|done|done].
Qed.
End invariant.
