(* ===== verification/TaskPorts.v ===== *)
(** * Host ports of the desired state

    [preflightDeploy] keeps the desired applications free of host-port conflicts: the checks
    are shown to decide the declarative condition, and every request the service handles,
    rollbacks and automatic rollbacks included, preserves it.  The same argument shows that
    what a deploy checks of a document stays true of every stored document. *)
From stdpp Require Import base strings numbers gmap list.
From Stdlib Require Import Ascii.
From S2P Require Import Prelude GoStrings GoTime GoNet GoList Deploy Dependency Validate Meta Placement Fsm FsmSpec RaftService RaftSpec TaskBase TaskRun TaskDeploy TaskOps TaskViews TaskFrame TaskSpec.

(** Two applications that can run side by side on every node. *)
Definition compatible (a b : App) : Prop :=
  ∀ c d, c ∈ hostPortClaims a → d ∈ hostPortClaims b → hostPortClaimsConflict c d = false.

Lemma conflict_sym c d : hostPortClaimsConflict c d = hostPortClaimsConflict d c.
Proof.
  unfold hostPortClaimsConflict. rewrite (Z.eqb_sym (hc_HostPort d)), (String.eqb_sym (hc_Protocol d)).
  destruct (_ || _); [done|]. rewrite (String.eqb_sym (hc_HostIP d) (hc_HostIP c)).
  by destruct (hc_HostIP c =? "")%string, (hc_HostIP d =? "")%string.
Qed.

Lemma compatible_sym a b : compatible a b → compatible b a.
Proof. intros Hab c d Hc Hd. rewrite conflict_sym. by apply Hab. Qed.

Lemma find_none_iff {A} (f : A → bool) l : find f l = None ↔ ∀ x, x ∈ l → f x = false.
Proof.
  split.
  - intros Hf x Hx. by eapply find_none, list_elem_of_In.
  - intros Hf. destruct (find f l) as [x|] eqn:E; [|done].
    apply find_some in E as [Hin Hfx]. apply list_elem_of_In in Hin. by rewrite Hf in Hfx.
Qed.

Lemma findHostPortConflict_none xs ys :
  findHostPortConflict xs ys = None ↔ ∀ c d, c ∈ xs → d ∈ ys → hostPortClaimsConflict c d = false.
Proof.
  induction xs as [|x xs IH]; cbn [findHostPortConflict].
  - split; [|done]. intros _ c d Hc. by apply elem_of_nil in Hc.
  - destruct (find (hostPortClaimsConflict x) ys) as [y|] eqn:E.
    + split; [done|]. intros Hall. apply find_some in E as [Hy Hc]. apply list_elem_of_In in Hy.
      rewrite Hall in Hc; [done|left|done].
    + rewrite find_none_iff in E. rewrite IH. split.
      * intros Hxs c d [->|Hc]%elem_of_cons Hd; eauto.
      * intros Hall c d Hc Hd. apply Hall; [by right|done].
Qed.

Lemma existing_conflict_ok meta incoming apps :
  existing_conflict meta incoming apps = Ok tt ↔
  ∀ b, b ∈ apps → sameAppMetadata meta (app_Metadata b) = false →
    ∀ c d, c ∈ incoming → d ∈ hostPortClaims b → hostPortClaimsConflict c d = false.
Proof.
  induction apps as [|b apps IH]; cbn [existing_conflict].
  { split; [|done]. intros _ x Hx. by apply elem_of_nil in Hx. }
  destruct (sameAppMetadata meta (app_Metadata b)) eqn:Es.
  - rewrite IH. split.
    + intros Hall x [->|Hx]%elem_of_cons; [congruence|eauto].
    + intros Hall x Hx. apply Hall. by right.
  - destruct (findHostPortConflict incoming (hostPortClaims b)) as [[c d]|] eqn:E.
    + split; [done|]. intros Hall.
      enough (findHostPortConflict incoming (hostPortClaims b) = None) by congruence.
      apply findHostPortConflict_none. apply (Hall b); [left|done].
    + rewrite findHostPortConflict_none in E. rewrite IH. split.
      * intros Hall x [->|Hx]%elem_of_cons; [by intros _; apply E|eauto].
      * intros Hall x Hx. apply Hall. by right.
Qed.

(** No two endpoints of one application claim the same host port. *)
Lemma duplicate_claims_ok cs :
  duplicate_claims cs = Ok tt ↔
  ∀ i j c d, i < j → cs !! i = Some c → cs !! j = Some d → hostPortClaimsConflict c d = false.
Proof.
  induction cs as [|x cs IH]; cbn [duplicate_claims].
  { split; [|done]. intros _ i j c d _ Hi. by rewrite lookup_nil in Hi. }
  destruct (find (hostPortClaimsConflict x) cs) as [y|] eqn:E.
  - split; [done|]. intros Hall. apply find_some in E as [Hy Hc].
    apply list_elem_of_In, list_elem_of_lookup in Hy as [j Hj].
    rewrite (Hall 0 (S j) x y) in Hc; [done|lia|done|done].
  - rewrite find_none_iff in E. rewrite IH. split.
    + intros Hall [|i] [|j] c d Hij Hi Hj; try lia; cbn in *.
      * simplify_eq. apply E. by eapply list_elem_of_lookup_2.
      * apply (Hall i j); [lia|done|done].
    + intros Hall i j c d Hij Hi Hj. apply (Hall (S i) (S j)); [lia|done|done].
Qed.

Lemma sameAppMetadata_key a b : sameAppMetadata a b = true → deployAppMapKey a = deployAppMapKey b.
Proof.
  unfold sameAppMetadata, deployAppMapKey. rewrite andb_true_iff, !String.eqb_eq. by intros [-> ->].
Qed.

(** The desired state as a whole. *)
Definition ports_disjoint (st : fsmSnapshotState) : Prop :=
  ∀ k a k' b, DeployApps st !! k = Some a → DeployApps st !! k' = Some b → k ≠ k' → compatible a b.

Section ports.
Context `{Digest, CodecLaws} `{!World, !WorldLaws} `{ListSort, GraphLib}.

(** What an operation that only makes outside calls leaves alone. *)
Definition same_raft (s s' : TaskState) : Prop := ts_raft s' = ts_raft s.
#[local] Instance same_raft_pre : PreOrder same_raft.
Proof. split; [done|]. intros s1 s2 s3 H12 H23. unfold same_raft in *. congruence. Qed.
#[local] Instance same_raft_call k : RCall k same_raft.
Proof. done. Qed.

Lemma preflight_raft app s : ts_raft (preflightDeploy app s).2 = ts_raft s.
Proof. apply (frame_preflight same_raft app s). Qed.

Lemma preflight_ok app s s' :
  preflightDeploy app s = (Ok tt, s') →
  duplicate_claims (hostPortClaims app) = Ok tt ∧
  ∀ k b, DeployApps (state (fsm_of s)) !! k = Some b →
    sameAppMetadata (app_Metadata app) (app_Metadata b) = false → compatible app b.
Proof.
  unfold preflightDeploy. destruct (preflightDuplicateHostPorts app) as [[]|e] eqn:Ed.
  2: { by erewrite run_try_err by reflexivity. }
  erewrite run_try_ok by reflexivity. cbn zeta.
  intros Hrest. split; [exact Ed|]. intros k b Hb Hs.
  destruct (Nat.eqb_spec (length (hostPortClaims app)) 0) as [Hl|Hl].
  { apply length_zero_iff_nil in Hl. intros c d Hc. rewrite Hl in Hc. by apply elem_of_nil in Hc. }
  set (apps := w_order (ts_trace s) (DeployApps (state (fsm_of s)))).
  assert (Hx : preflightExistingHostPorts (app_Metadata app) (hostPortClaims app) s =
    (existing_conflict (app_Metadata app) (hostPortClaims app) apps, s)) by done.
  destruct (existing_conflict (app_Metadata app) (hostPortClaims app) apps) as [[]|e] eqn:Ee.
  2: { by erewrite run_try_err in Hrest by exact Hx. }
  rewrite existing_conflict_ok in Ee. refine (Ee b _ Hs).
  subst apps. rewrite (w_order_ok (ts_trace s)). apply list_elem_of_fmap. exists (k, b).
  split; [done|]. by apply elem_of_map_to_list.
Qed.

(** Only this service proposes. *)
Definition quiet : Prop := ∀ tr, quiet_host (w_nodeHost tr).

(** ** The invariant: no conflict between desired applications, and every stored document is one
    that JSON represents. *)
Record ports_inv (st : fsmSnapshotState) : Prop := {
  pi_inv : fsm_inv st;
  pi_disjoint : ports_disjoint st;
  pi_apps : map_Forall (λ _ a, representable (CUpsertApp a)) (DeployApps st);
  pi_revs : map_Forall (λ _ rs, Forall (λ r, representable (CUpsertApp (rev_App r))) rs)
              (DeployAppRevisions st) }.

(** What a deploy checks of a document on its own: validation, and its own host ports. *)
Definition admitted (a : App) : Prop :=
  Validate a = Ok tt ∧ duplicate_claims (hostPortClaims a) = Ok tt.

(** A property of every stored document: the desired ones and the revisions kept for rollback. *)
Definition stored (Q : App → Prop) (st : fsmSnapshotState) : Prop :=
  map_Forall (λ _ a, Q a) (DeployApps st) ∧
  map_Forall (λ _ rs, Forall (λ r, Q (rev_App r)) rs) (DeployAppRevisions st).

Lemma stored_same (Q : App → Prop) st st' :
  DeployApps st' = DeployApps st → DeployAppRevisions st' = DeployAppRevisions st →
  stored Q st → stored Q st'.
Proof. unfold stored. by intros -> ->. Qed.

(** ** The invariant together with a property [Q] that the deploy path guarantees *)
Section documents.
Variable Q : App → Prop.
Hypothesis HQ : ∀ a, admitted a → Q a.

Definition docs_inv (st : fsmSnapshotState) : Prop := ports_inv st ∧ stored Q st.

Definition keeps (s s' : TaskState) : Prop :=
  docs_inv (state (fsm_of s)) → docs_inv (state (fsm_of s')).

Lemma keeps_same s s' : ts_raft s' = ts_raft s → keeps s s'.
Proof. unfold keeps, fsm_of. by intros ->. Qed.

#[local] Instance keeps_pre : PreOrder keeps.
Proof. split; [by intros s Hi|]. intros s1 s2 s3 H12 H23 Hi. by apply H23, H12. Qed.
#[local] Instance keeps_call k : RCall k keeps.
Proof. intros e s _. by apply keeps_same. Qed.
#[local] Instance keeps_registry : RRegistry keeps.
Proof. intros r s. by apply keeps_same. Qed.
#[local] Instance keeps_new : RMonitorNew keeps.
Proof. intros k r s. by apply keeps_same. Qed.
#[local] Instance keeps_end : RMonitorEnd keeps.
Proof. intros k s. by apply keeps_same. Qed.
#[local] Instance keeps_clear : RMonitorClear keeps.
Proof. intros s. by apply keeps_same. Qed.
#[local] Instance keeps_restart : RRestart keeps.
Proof. intros k s. by apply keeps_same. Qed.
#[local] Instance keeps_attempts : RAttempts keeps.
Proof. intros k s. by apply keeps_same. Qed.
#[local] Instance keeps_suppressed : RSuppressed keeps.
Proof. intros k s. by apply keeps_same. Qed.

(** ** Writes that are not of an application *)
Lemma disjoint_subseteq st st' :
  DeployApps st' ⊆ DeployApps st → ports_disjoint st → ports_disjoint st'.
Proof. intros Hsub Hd k a k' b Ha Hb. apply Hd; by eapply lookup_weaken. Qed.

Lemma exec_small o st :
  op_ok o → (∀ key a, o ≠ OpApp key a) → docs_inv st → docs_inv (exec (Some o) st).
Proof.
  intros Hok Hno [[Hi Hd Ha Hr] [HQa HQr]].
  assert (fsm_inv (exec (Some o) st)) by (by apply exec_inv).
  destruct o as [|key a|key| |]; [by split|by destruct (Hno key a)| |by split|by split].
  split; [split; [done| | |]|split]; cbn; try by apply map_Forall_delete.
  eapply disjoint_subseteq; [|exact Hd]. apply delete_subseteq.
Qed.

Lemma bump_docs st : docs_inv st → docs_inv (bump st).
Proof. intros [[] ?]. split; [split; [by apply bump_inv|done..]|done]. Qed.

Lemma written_small c st st' :
  written c st st' → (∀ a, c ≠ CUpsertApp a) → docs_inv st → docs_inv st'.
Proof.
  intros [->|(b & He & ->)] Hc Hi; [done|]. apply bump_docs in Hi.
  destruct (classify b) as [o|] eqn:Eo; [|done]. apply exec_small; [by eapply classify_ok| |done].
  intros key a ->. pose proof (classify_kind _ _ _ He Eo) as Hk. destruct c as [|a'| | |]; try done. by destruct (Hc a').
Qed.

(** A Raft call whose operation is a proposal, or refuses before it proposes. *)
Lemma raft_call_state op c s :
  let r := op (w_nodeHost (ts_trace s)) (ts_raft s) in
  fsm_of (raft_call op c s).2 = sv_fsm r.2 ∧ (raft_call op c s).1 = r.1.
Proof. cbn zeta. destruct (op _ _) as [r rs] eqn:E. by erewrite run_raft_call by exact E. Qed.

Section quiet.
Hypothesis Hq : quiet.

Lemma keeps_raft_call op c cmd s :
  (∀ a, cmd ≠ CUpsertApp a) →
  written cmd (state (fsm_of s)) (state (sv_fsm (op (w_nodeHost (ts_trace s)) (ts_raft s)).2)) →
  keeps s (raft_call op c s).2.
Proof.
  intros Hcmd Hw Hi. destruct (raft_call_state op c s) as [-> _]. by eapply written_small.
Qed.

#[local] Instance keeps_delete : RDelete keeps.
Proof.
  intros m s. apply (keeps_raft_call _ _ (CDeleteApp m)); [done|]. unfold ApplyDeleteDeployApp.
  case_match; [by left|apply propose_quiet, Hq].
Qed.

#[local] Instance keeps_assign : RAssign keeps.
Proof.
  intros a s. unfold raft_ApplyWorkloadAssignment. rewrite run_get.
  destruct (prepareAssignment (w_now (ts_trace s)) a) as [a'|e] eqn:Ep.
  - apply (keeps_raft_call _ _ (CUpsertAssignment a')); [done|].
    unfold ApplyWorkloadAssignment. rewrite Ep. apply propose_quiet, Hq.
  - apply (keeps_raft_call _ _ (CUpsertAssignment a)); [done|].
    unfold ApplyWorkloadAssignment. rewrite Ep. by left.
Qed.

#[local] Instance keeps_bind : RBind keeps.
Proof.
  intros b s. unfold raft_ApplyVolumeBinding. rewrite run_get.
  destruct (prepareBinding (w_now (ts_trace s)) b) as [b'|e] eqn:Ep.
  - apply (keeps_raft_call _ _ (CUpsertBinding b')); [done|].
    unfold ApplyVolumeBinding. rewrite Ep. apply propose_quiet, Hq.
  - apply (keeps_raft_call _ _ (CUpsertBinding b)); [done|].
    unfold ApplyVolumeBinding. rewrite Ep. by left.
Qed.

#[local] Instance keeps_capacity : RCapacity keeps.
Proof.
  intros snap s Hi. unfold store_call. rewrite run_get.
  pose proof (store_quiet (w_nodeHost (ts_trace s)) snap (ts_raft s) (Hq _)) as Hw.
  destruct (store_Upsert _ snap (ts_raft s)) as [r rs]. by eapply written_small.
Qed.

(** ** Writing an application that preflight let through *)
Definition cleared (app : App) (st : fsmSnapshotState) : Prop :=
  ∀ k b, DeployApps st !! k = Some b →
    sameAppMetadata (app_Metadata app) (app_Metadata b) = false → compatible app b.

Lemma append_revs (P : DeployAppRevision → Prop) key a st :
  P (to_rev a) → map_Forall (λ _ rs, Forall P rs) (DeployAppRevisions st) →
  map_Forall (λ _ rs, Forall P rs) (DeployAppRevisions (appendDeployAppRevisionLocked key a st)).
Proof.
  intros Ha Hr. unfold appendDeployAppRevisionLocked. destruct (_ =? "")%string; [done|].
  destruct (match last _ with Some _ => _ | None => _ end); [done|]. cbn.
  apply map_Forall_insert_2; [|done]. rewrite push_revision_lastn. unfold lastn.
  apply Forall_drop, Forall_app. split; [|by apply Forall_singleton].
  unfold revisions_of. destruct (DeployAppRevisions st !! key) as [rs|] eqn:E; [|constructor].
  exact (Hr _ _ E).
Qed.

Lemma upsert_keeps app st :
  representable (CUpsertApp app) → TrimSpace (md_Name (app_Metadata app)) ≠ "" → cleared app st →
  Q app → docs_inv st → docs_inv (upsert_app app st).
Proof.
  intros Hrep Hn Hc HQapp [[Hi Hd Ha Hr] [HQa HQr]]. set (key := deployAppMapKey (app_Metadata app)).
  assert (Hnew : ∀ k b, DeployApps st !! k = Some b → key ≠ k → compatible app b).
  { intros k b Hb Hk. apply (Hc k b Hb).
    destruct (sameAppMetadata (app_Metadata app) (app_Metadata b)) eqn:Es; [|done].
    apply sameAppMetadata_key in Es. destruct (inv_apps _ Hi _ _ Hb) as [Hkb _]. by subst key k. }
  assert (Happs : ∀ P : App → Prop, P app → map_Forall (λ _ a, P a) (DeployApps st) →
    map_Forall (λ _ a, P a) (DeployApps (upsert_app app st))).
  { intros P HP HPs. rewrite upsert_app_apps. by apply map_Forall_insert_2. }
  assert (Hrevs : ∀ P : App → Prop, map_Forall (λ _ a, P a) (DeployApps st) →
    map_Forall (λ _ rs, Forall (λ r, P (rev_App r)) rs) (DeployAppRevisions st) →
    map_Forall (λ _ rs, Forall (λ r, P (rev_App r)) rs) (DeployAppRevisions (upsert_app app st))).
  { intros P HP HPs. unfold upsert_app. destruct (DeployApps st !! _) as [cur|] eqn:Ec; [|done].
    destruct (_ =? _)%string; [done|]. apply append_revs; [|done]. exact (HP _ _ Ec). }
  split; [split|split].
  - apply (exec_inv (OpApp key app)); [by split|done].
  - intros k a k' b. rewrite upsert_app_apps. fold key.
    intros [[<- <-]|[Hk Hka]]%lookup_insert_Some [[<- <-]|[Hk' Hkb]]%lookup_insert_Some Hne; [done| | |].
    + by apply (Hnew k').
    + apply compatible_sym. by apply (Hnew k).
    + by apply (Hd k a k' b).
  - by apply (Happs (λ a, representable (CUpsertApp a))).
  - by apply (Hrevs (λ a, representable (CUpsertApp a))).
  - by apply Happs.
  - by apply Hrevs.
Qed.

Lemma raft_deploy_keeps app s :
  representable (CUpsertApp app) → cleared app (state (fsm_of s)) → Q app →
  keeps s (raft_ApplyDeployApp app s).2.
Proof.
  intros Hrep Hc HQa Hi. unfold raft_ApplyDeployApp.
  destruct (raft_call_state (λ nh, ApplyDeployApp nh app) (CUpsertApp app) s) as [-> _].
  destruct (propose_quiet (w_nodeHost (ts_trace s)) (CUpsertApp app) "marshal deploy app command"
    "not leader: send deploy to the raft leader node" (ts_raft s) (Hq _)) as [E|(b & He & E)];
    unfold ApplyDeployApp; rewrite E; [done|].
  rewrite (classify_encode _ _ Hrep He). cbn. unfold nonblank.
  apply bump_docs in Hi.
  destruct (String.eqb_spec (TrimSpace (md_Name (app_Metadata app))) "") as [|Hn]; [done|].
  by apply upsert_keeps.
Qed.

Lemma submit_keeps app : representable (CUpsertApp app) → Frame keeps (SubmitDeploy app).
Proof.
  intros Hrep s. unfold SubmitDeploy. destruct (Validate app) as [[]|e] eqn:Ev.
  2: { by erewrite run_try_err by (apply run_wrapM_err; reflexivity). }
  erewrite run_try_ok by (apply run_wrapM_ok; reflexivity).
  pose proof (preflight_raft app s) as Hraft.
  destruct (preflightDeploy app s) as [[[]|e] s1] eqn:Ep; cbn in Hraft.
  - erewrite run_try_ok by (apply run_wrapM_ok; exact Ep). apply preflight_ok in Ep as [Hdup Hc].
    destruct (raft_ApplyDeployApp app s1) as [r s2] eqn:Ea. erewrite run_wrapM by exact Ea.
    etrans; [by apply keeps_same|]. replace s2 with (raft_ApplyDeployApp app s1).2 by (by rewrite Ea).
    apply raft_deploy_keeps; [done| |by apply HQ]. unfold cleared, fsm_of in *. by rewrite Hraft.
  - erewrite run_try_err by (apply run_wrapM_err; exact Ep). by apply keeps_same.
Qed.

(** A revision of the state is representable and satisfies [Q]. *)
Lemma previous_stored m s rev :
  docs_inv (state (fsm_of s)) → previousDeployApp m (fsm_of s) = Some rev →
  representable (CUpsertApp (rev_App rev)) ∧ Q (rev_App rev).
Proof.
  intros [Hi [_ HQr]] Hp. unfold previousDeployApp, revisions_of in Hp.
  destruct (DeployAppRevisions (state (fsm_of s)) !! deployAppMapKey m) as [rs|] eqn:E; [|done].
  apply last_Some_elem_of in Hp. pose proof (pi_revs _ Hi _ _ E) as Hr. pose proof (HQr _ _ E) as Hr'.
  rewrite Forall_forall in Hr. rewrite Forall_forall in Hr'. split; [by apply Hr|by apply Hr'].
Qed.

Lemma suppress_raft m g s : ts_raft (suppressAutoRollback m g s).2 = ts_raft s.
Proof. unfold suppressAutoRollback. by destruct (_ =? _)%string. Qed.

Lemma rollback_keeps m : Frame keeps (SubmitRollback m).
Proof.
  intros s Hi. unfold SubmitRollback. set (meta := normalizeOperationMetadata m).
  destruct (_ =? _)%string; [done|].
  rewrite (run_bind _ _ s (previousDeployApp meta (fsm_of s)) s) by done.
  destruct (previousDeployApp meta (fsm_of s)) as [rev|] eqn:Ep; [|done].
  destruct (previous_stored _ _ _ Hi Ep) as [Hrep _].
  pose proof (suppress_raft meta (rev_Generation rev) s) as Hraft.
  destruct (suppressAutoRollback meta (rev_Generation rev) s) as [[] s1] eqn:Es. cbn in Hraft.
  rewrite (run_bind _ _ _ _ _ Es). apply (frame_wrap keeps); [by apply submit_keeps|].
  by apply (keeps_same s).
Qed.

#[local] Instance keeps_auto : RAuto keeps.
Proof.
  intros app w g s Hi. unfold maybeAutoRollbackDeployFailure.
  destruct (autoRollbackRevision app w g s) as [o s1] eqn:Eo.
  assert (ts_raft s1 = ts_raft s ∧ ∀ rev, o = Some rev → previousDeployApp (app_Metadata app) (fsm_of s) = Some rev)
    as [Hraft Hprev].
  { revert Eo. unfold autoRollbackRevision. rewrite run_get.
    destruct (negb _); [by intros [= <- <-]|]. destruct (negb _); [by intros [= <- <-]|].
    unfold previousAutoRollbackRevision.
    destruct (previousDeployApp (app_Metadata app) (fsm_of s)) as [rev|]; [|by intros [= <- <-]].
    destruct (_ && _); [|by intros [= <- <-]].
    pose proof (mark_spec (app_Metadata app) (TrimSpace g) s) as Hm. cbn zeta in Hm.
    destruct (_ || _); rewrite (run_bind _ _ _ _ _ Hm); intros [= <- <-]; naive_solver. }
  rewrite (run_bind _ _ _ _ _ Eo). destruct o as [rev|]; [|by apply (keeps_same s)].
  destruct (previous_stored _ _ _ Hi (Hprev _ eq_refl)) as [Hrep HQrev].
  pose proof (preflight_raft (rev_App rev) s1) as Hraft2.
  destruct (preflightDeploy (rev_App rev) s1) as [r s2] eqn:Ep. cbn in Hraft2.
  rewrite (run_bind _ _ _ _ _ Ep). destruct r as [[]|e]; [|apply (keeps_same s); [cbn; congruence|done]].
  apply preflight_ok in Ep as [_ Hc].
  pose proof (suppress_raft (app_Metadata app) (rev_Generation rev) s2) as Hraft3.
  destruct (suppressAutoRollback (app_Metadata app) (rev_Generation rev) s2) as [[] s3] eqn:Es.
  cbn in Hraft3. rewrite (run_bind _ _ _ _ _ Es).
  destruct (raft_ApplyDeployApp (rev_App rev) s3) as [r s4] eqn:Ea. rewrite (run_bind _ _ _ _ _ Ea). cbn.
  replace s4 with (raft_ApplyDeployApp (rev_App rev) s3).2 by (by rewrite Ea).
  apply raft_deploy_keeps; [done| |done|apply (keeps_same s); [congruence|done]].
  unfold cleared, fsm_of in *. by rewrite Hraft3, Hraft2.
Qed.
(** ** Any requests *)
Definition request_ok (r : request) : Prop :=
  match r with RqDeploy a => representable (CUpsertApp a) | _ => True end.

Lemma serve_keeps cfg rs : Forall request_ok rs → Frame keeps (serve cfg rs).
Proof.
  intros Hrs. induction Hrs as [|r rs Hr _ IH]; [apply frame_ret, _|].
  apply (frame_bind keeps); [|intros ?; exact IH].
  apply frame_handle; try apply _; [|intros m _; apply rollback_keeps].
  intros a ->. by apply submit_keeps.
Qed.
End quiet.
End documents.

Lemma serve_ports cfg rs s :
  quiet → Forall request_ok rs → ports_inv (state (fsm_of s)) →
  ports_inv (state (fsm_of (serve cfg rs s).2)).
Proof.
  intros Hq Hrs Hi. apply (serve_keeps (λ _, True) (λ _ _, I) Hq cfg rs Hrs s).
  split; [done|]. split; [done|]. intros k ys _. by apply Forall_true.
Qed.

Lemma serve_stored cfg rs s :
  quiet → Forall request_ok rs → ports_inv (state (fsm_of s)) → stored admitted (state (fsm_of s)) →
  stored admitted (state (fsm_of (serve cfg rs s).2)).
Proof. intros Hq Hrs Hi Ha. by apply (serve_keeps admitted (λ _ Ha, Ha) Hq cfg rs Hrs s). Qed.
End ports.
