(* ===== verification/TaskOrder.v ===== *)
(** * Order and convergence of deployments

    Which outside calls a handler makes, and in what order: workloads are stopped in reverse
    dependency order and started in dependency order, and a deployment that has converged
    makes no runtime call at all. *)
From stdpp Require Import base strings numbers gmap list.
From Stdlib Require Import Ascii.
From S2P Require Import Prelude GoStrings GoTime GoNet GoList Deploy Dependency Validate Meta Placement Fsm FsmSpec RaftService RaftSpec TaskBase TaskRun TaskDeploy TaskOps TaskViews TaskFrame.

(** ** Observations on the trace *)
Definition obs_stop (e : event) : option string :=
  match e with
  | EvStop _ _ name _ => Some name
  | EvRemoteStop _ _ w _ => Some (w_Name w)
  | _ => None
  end.

Definition obs_start (e : event) : option string :=
  match e with
  | EvDeploy _ w _ => Some (w_Name w)
  | EvDispatch _ _ w _ => Some (w_Name w)
  | _ => None
  end.

(** [observes obs m P]: whatever [m] does, it appends to the trace, and [P] holds of its
    result and of what [obs] sees of the new calls. *)
Definition observes {O} (obs : event → option O) {A} (m : M A) (P : A → list O → Prop) : Prop :=
  ∀ s, ∃ tr, ts_trace (m s).2 = ts_trace s ++ tr ∧ P (m s).1 (omap obs tr).

(** Nothing of interest is called. *)
Definition unseen {O} (obs : event → option O) (s s' : TaskState) : Prop :=
  ∃ tr, ts_trace s' = ts_trace s ++ tr ∧ omap obs tr = [].

Section observing.
Context {O : Type} (obs : event → option O).

Lemma observes_ret {A} (a : A) (P : A → list O → Prop) : P a [] → observes obs (mret a) P.
Proof. intros HP s. exists []. by rewrite app_nil_r. Qed.

Lemma observes_bind {A B} (m : M A) (k : A → M B) P Q :
  observes obs m P → (∀ a l, P a l → observes obs (k a) (λ b l', Q b (l ++ l'))) →
  observes obs (m ≫= k) Q.
Proof.
  intros Hm Hk s. destruct (Hm s) as (tr & Htr & HP). unfold mbind, M_bind.
  destruct (m s) as [a s1]. cbn in *. destruct (Hk a _ HP s1) as (tr' & Htr' & HQ).
  exists (tr ++ tr'). by rewrite Htr', Htr, app_assoc, omap_app.
Qed.

Lemma observes_weaken {A} (m : M A) (P Q : A → list O → Prop) :
  observes obs m P → (∀ a l, P a l → Q a l) → observes obs m Q.
Proof. intros Hm HPQ s. destruct (Hm s) as (tr & ? & ?). eauto. Qed.

Lemma observes_unseen {A} (m : M A) : Frame (unseen obs) m → observes obs m (λ _ l, l = []).
Proof. intros Hm. exact Hm. Qed.

(** The frame-only part of a sequence disappears. *)
Lemma observes_after {A B} (m : M A) (k : A → M B) Q :
  Frame (unseen obs) m → (∀ a, observes obs (k a) Q) → observes obs (m ≫= k) Q.
Proof.
  intros Hm Hk. eapply observes_bind; [by apply observes_unseen|]. intros a l ->. apply Hk.
Qed.

Lemma observes_then {A B} (m : M A) (k : A → M B) P :
  observes obs m P → (∀ a, Frame (unseen obs) (k a)) →
  observes obs (m ≫= k) (λ _ l, ∃ a, P a l).
Proof.
  intros Hm Hk. eapply observes_bind; [exact Hm|]. intros a l HP.
  eapply observes_weaken; [apply observes_unseen, Hk|]. cbn. intros b l' ->. rewrite app_nil_r. eauto.
Qed.

#[export] Instance unseen_pre : PreOrder (unseen obs).
Proof.
  split.
  - intros s. exists []. by rewrite app_nil_r.
  - intros s1 s2 s3 (t1 & H1 & O1) (t2 & H2 & O2). exists (t1 ++ t2).
    by rewrite H2, H1, app_assoc, omap_app, O1, O2.
Qed.

Lemma unseen_same s s' : ts_trace s' = ts_trace s → unseen obs s s'.
Proof. exists []. by rewrite app_nil_r. Qed.

#[export] Instance unseen_registry : RRegistry (unseen obs).
Proof. intros r s. by apply unseen_same. Qed.
#[export] Instance unseen_new : RMonitorNew (unseen obs).
Proof. intros k r s. by apply unseen_same. Qed.
#[export] Instance unseen_end : RMonitorEnd (unseen obs).
Proof. intros k s. by apply unseen_same. Qed.
#[export] Instance unseen_clear : RMonitorClear (unseen obs).
Proof. intros s. by apply unseen_same. Qed.
#[export] Instance unseen_restart : RRestart (unseen obs).
Proof. intros k s. by apply unseen_same. Qed.
#[export] Instance unseen_attempts : RAttempts (unseen obs).
Proof. intros k s. by apply unseen_same. Qed.
#[export] Instance unseen_suppressed : RSuppressed (unseen obs).
Proof. intros k s. by apply unseen_same. Qed.

Lemma unseen_call k : (∀ e, kind_of e = k → obs e = None) → RCall k (unseen obs).
Proof. intros Ho e s Hk. exists [e]. split; [done|]. cbn. by rewrite Ho. Qed.

Lemma unseen_write `{Digest, Codec} : (∀ e, kind_of e = KWrite → obs e = None) → RWrite (unseen obs).
Proof. intros Ho e rs s Hk _. exists [e]. split; [done|]. cbn. by rewrite Ho. Qed.

(** A loop that stops at the first error sees a prefix of what the whole list would show,
    and all of it when it succeeds. *)
Lemma observes_each_err {A} (f : A → M (res unit)) (name : A → O) l :
  (∀ x, observes obs (f x) (λ r o, o = [name x] ∨ (o = [] ∧ r ≠ Ok tt))) →
  observes obs (each_err f l)
    (λ r o, o `prefix_of` (name <$> l) ∧ (r = Ok tt → o = name <$> l)).
Proof.
  intros Hf. induction l as [|x l IH]; cbn [each_err].
  { apply observes_ret. done. }
  eapply observes_bind; [apply Hf|]. intros [[]|e] o Ho; cbn in Ho.
  - destruct Ho as [->|[_ []]]; [|done].
    eapply observes_weaken; [exact IH|]. cbn. intros r o [Hp Hok]. split; [by apply prefix_cons|].
    intros ->. by rewrite Hok.
  - apply observes_ret. rewrite app_nil_r. split; [|done].
    destruct Ho as [->|[-> _]]; [|apply prefix_nil]. exists (name <$> l). done.
Qed.

(** The same with what each element shows when it succeeds ([good]) and when it fails ([bad]): an
    error ends the loop after the elements before it succeeded. *)
Lemma observes_each_err_exact {A} (f : A → M (res unit)) (good : A → list O) (bad : A → list O → Prop) l :
  (∀ x, observes obs (f x) (λ r o, match r with Ok _ => o = good x | Err _ => bad x o end)) →
  observes obs (each_err f l) (λ r o,
    match r with
    | Ok _ => o = l ≫= good
    | Err _ => ∃ pre x post o', l = pre ++ x :: post ∧ o = (pre ≫= good) ++ o' ∧ bad x o'
    end).
Proof.
  intros Hf. induction l as [|x l IH]; cbn [each_err].
  { apply observes_ret. done. }
  eapply observes_bind; [apply Hf|]. intros [[]|e] o Ho; cbn in Ho.
  - subst o. eapply observes_weaken; [exact IH|]. intros [[]|e] o; [by intros ->|].
    intros (pre & y & post & o' & -> & -> & Hb). exists (x :: pre), y, post, o'.
    split_and!; [done| |done]. cbn. by rewrite app_assoc.
  - apply observes_ret. rewrite app_nil_r. by exists [], x, l, o.
Qed.

(** The same for a body that may skip its element: what is seen is a subsequence. *)
Lemma observes_each_err_sub {A} (f : A → M (res unit)) (name : A → O) l :
  (∀ x, observes obs (f x) (λ _ o, o = [name x] ∨ o = [])) →
  observes obs (each_err f l) (λ _ o, o `sublist_of` (name <$> l)).
Proof.
  intros Hf. induction l as [|x l IH]; cbn [each_err].
  { apply observes_ret. done. }
  eapply observes_bind; [apply Hf|]. intros r o Ho; cbn in Ho.
  assert (Hox : o `sublist_of` [name x]) by (destruct Ho as [->| ->]; [done|apply sublist_nil_l]).
  destruct r as [[]|e].
  - eapply observes_weaken; [exact IH|]. cbn. intros r o' Ho'.
    change (name x :: (name <$> l)) with ([name x] ++ (name <$> l)). by apply sublist_app.
  - apply observes_ret. rewrite app_nil_r. etrans; [exact Hox|].
    apply sublist_skip, sublist_nil_l.
Qed.
End observing.

#[export] Instance stop_unseen_deploy : RCall KDeploy (unseen obs_stop).
Proof. apply unseen_call. by intros []. Qed.
#[export] Instance stop_unseen_status : RCall KStatus (unseen obs_stop).
Proof. apply unseen_call. by intros []. Qed.
#[export] Instance stop_unseen_write `{Digest, Codec} : RWrite (unseen obs_stop).
Proof. apply unseen_write. by intros []. Qed.

(** The calls of the kinds an instance names carry nothing the observation shows. *)
Ltac unseen_kinds :=
  let Hk := fresh in intros Hk; apply unseen_call; intros [] <-; try done;
    repeat match goal with
    | h : TCOr _ _ |- _ => inversion_clear h
    | h : TCEq _ _ |- _ => inversion h
    end.

#[export] Instance start_unseen_call k : TCOr (TCEq k KStop) (TCOr (TCEq k KRemoteStop) (TCOr (TCEq k KListen)
  (TCOr (TCEq k KProbe) (TCOr (TCEq k KSleep) (TCEq k KCollect))))) → RCall k (unseen obs_start).
Proof. unseen_kinds. Qed.
#[export] Instance start_unseen_write `{Digest, Codec} : RWrite (unseen obs_start).
Proof. apply unseen_write. by intros []. Qed.

Section order.
Context `{Digest, World} `{ListSort, GraphLib} (cfg : TaskConfig).

(** ** Stopping *)
Lemma call_observes {O} (obs : event → option O) {R} (answer : list event → R) mk :
  observes obs (call answer mk) (λ r l, l = omap obs [mk r]).
Proof. intros s. by exists [mk (answer (ts_trace s))]. Qed.

Lemma wrap_observes {O} (obs : event → option O) {A} fmt args (m : M (res A)) P :
  observes obs m P → observes obs (wrapM fmt args m) (λ r l, ∃ r', r = wrap fmt args r' ∧ P r' l).
Proof.
  intros Hm. eapply observes_bind; [exact Hm|]. intros r l HP. apply observes_ret.
  rewrite app_nil_r. eauto.
Qed.

Lemma stopOnNode_observes m w n :
  observes obs_stop (stopWorkloadOnNode cfg m w n)
    (λ r l, l = [w_Name w] ∨ (l = [] ∧ r ≠ Ok tt)).
Proof.
  assert (Hgo : ∀ A (call_stop : M (res A)) fmt args,
    observes obs_stop call_stop (λ _ l, l = [w_Name w]) →
    observes obs_stop (try (wrapM fmt args call_stop) (λ _, _ ← registry_Delete (w_Name w); ok))
      (λ r l, l = [w_Name w] ∨ (l = [] ∧ r ≠ Ok tt))).
  { intros A c fmt args Hc. eapply observes_bind; [by apply wrap_observes|].
    intros r l (r' & -> & ->). destruct (wrap fmt args r').
    - eapply observes_weaken; [apply (observes_unseen obs_stop)|intros ? ? ->; by left].
      apply (frame_bind _); [apply frame_registry_delete; apply _|]. intros ?. apply frame_ok, _.
    - apply observes_ret. by left. }
  unfold stopWorkloadOnNode. case_match.
  - unfold stopRemoteWorkload. case_match; [apply observes_ret; by right|].
    apply Hgo, (call_observes obs_stop).
  - unfold stopLocalWorkload. apply observes_after; [apply frame_stopMonitor; apply _|]. intros _.
    apply Hgo, (call_observes obs_stop).
Qed.

Lemma stopOne_observes app g w :
  observes obs_stop (stopOneWorkload cfg app g w) (λ r l, l = [w_Name w] ∨ (l = [] ∧ r ≠ Ok tt)).
Proof.
  unfold stopOneWorkload, stopWorkload.
  eapply observes_bind.
  { apply observes_after; [|intros n; apply stopOnNode_observes].
    unfold stopTargetNode. apply (frame_bind _); [apply frame_workloadAssignment; apply _|].
    intros ?. apply frame_ret, _. }
  intros r l Hl. cbn in Hl.
  apply observes_after; [unfold assignmentNodeOrEmpty; apply (frame_bind _);
    [apply frame_workloadAssignment; apply _|intros ?; apply frame_ret, _]|].
  intros node. destruct r as [[]|e].
  - destruct Hl as [->|[_ []]]; [|done].
    apply observes_after; [apply frame_applyAssignment; apply _|]. intros _.
    apply observes_after; [apply frame_applyBindings; apply _|]. intros _.
    apply observes_ret. by left.
  - apply observes_after; [apply frame_applyAssignment; apply _|]. intros _.
    apply observes_after; [apply frame_applyBindings; apply _|]. intros _.
    apply observes_ret. rewrite app_nil_r. destruct Hl as [->|[-> _]]; [by left|by right].
Qed.

Lemma stopApp_observes app ws :
  WorkloadsInDependencyOrder app = Ok ws →
  observes obs_stop (stopAppWorkloads cfg app)
    (λ r l, l `prefix_of` reverse (w_Name <$> ws) ∧ (r = Ok tt → l = reverse (w_Name <$> ws))).
Proof.
  intros Hws s. unfold stopAppWorkloads. rewrite Hws.
  erewrite run_try_ok by reflexivity. rewrite <-fmap_reverse.
  apply observes_each_err. apply stopOne_observes.
Qed.

(** ** Starting *)
Lemma runLocal_observes m w n :
  observes obs_start (runLocalWorkload m w n) (λ _ l, l = [w_Name w]).
Proof.
  unfold runLocalWorkload. eapply observes_bind.
  { unfold deployLocalWorkload. eapply observes_bind; [apply wrap_observes, (call_observes obs_start)|].
    intros r l (r' & -> & ->). instantiate (1 := λ _ l, l = [w_Name w]). destruct (wrap _ _ r').
    - eapply observes_weaken; [apply (observes_unseen obs_start)|by intros ? ? ->].
      apply (frame_bind _); [apply frame_registry_upsert; apply _|]. intros ?. apply frame_ok, _.
    - by apply observes_ret. }
  intros [u|e] l ->; [|by apply observes_ret].
  eapply observes_weaken; [apply (observes_unseen obs_start)|by intros ? ? ->].
  apply (frame_bind _); [unfold localWorkloadAddress; apply (frame_bind _);
    [apply frame_get, _|intros ?; apply frame_ret, _]|]. intros a.
  apply (frame_bind _); [apply frame_readiness; apply _|]. intros [u'|e].
  - apply frame_ret, _.
  - apply (frame_bind _); [apply frame_stopLocal; apply _|]. intros ?. apply frame_fail, _.
Qed.

Lemma dispatch_observes m w n :
  observes obs_start (dispatchWorkload cfg m w n) (λ _ l, l = [w_Name w] ∨ l = []).
Proof.
  unfold dispatchWorkload. case_match; [apply observes_ret; by right|].
  eapply observes_bind; [apply wrap_observes, (call_observes obs_start)|].
  intros r l (r' & -> & ->). destruct (wrap _ _ r'); apply observes_ret; by left.
Qed.

(** What follows the start of a workload starts nothing else. *)
Lemma place_observes app w self g :
  observes obs_start (placeWorkload cfg app w self g) (λ _ l, l = [w_Name w] ∨ l = []).
Proof.
  unfold placeWorkload. apply observes_after.
  { unfold chooseWorkloadNode. apply (frame_bind _); [apply frame_catalog; apply _|].
    intros ?. apply frame_ret, _. }
  intros [chosen|e].
  2: { apply observes_after; [apply frame_recordFailure; apply _|]. intros _. apply observes_ret. by right. }
  apply observes_after; [apply frame_applyAssignment; apply _|]. intros _. case_match.
  - unfold deployRemoteWorkload. eapply observes_bind; [apply dispatch_observes|].
    intros [d|e] l Hl; cbn in Hl.
    + apply observes_after; [apply frame_registry_upsert; apply _|]. intros _.
      apply observes_after; [apply frame_applyAssignment; apply _|]. intros _.
      apply observes_after; [apply frame_applyBindings; apply _|]. intros _.
      apply observes_ret. by rewrite app_nil_r.
    + apply observes_after; [apply frame_recordFailure; apply _|]. intros _.
      apply observes_ret. by rewrite app_nil_r.
  - unfold deployLocalAssignedWorkload. eapply observes_bind; [apply runLocal_observes|].
    intros [d|e] l ->.
    + apply observes_after; [apply frame_applyAssignment; apply _|]. intros _.
      apply observes_after; [apply frame_applyBindings; apply _|]. intros _.
      apply observes_after; [apply frame_startMonitor; apply _|]. intros _.
      apply observes_ret. by left.
    + apply observes_after; [apply frame_recordFailure; apply _|]. intros _.
      apply observes_ret. by left.
Qed.

Lemma deployOne_observes app self g o w :
  observes obs_start (deployOneWorkload cfg app self g o w) (λ _ l, l = [w_Name w] ∨ l = []).
Proof.
  unfold deployOneWorkload. apply observes_after; [apply frame_workloadAssignment; apply _|].
  intros [a|]; [|apply place_observes].
  apply observes_after; [apply frame_handleExisting; apply _|].
  intros [[]|e]; [apply observes_ret; by right|apply place_observes|apply observes_ret; by right].
Qed.

Lemma deployApp_observes app ws o :
  WorkloadsInDependencyOrder app = Ok ws →
  observes obs_start (deployAppWorkloadsWithOptions cfg app o) (λ _ l, l `sublist_of` (w_Name <$> ws)).
Proof.
  intros Hws. unfold deployAppWorkloadsWithOptions, prepareDeploy.
  eapply observes_bind.
  { instantiate (1 := λ r l, l = [] ∧ ∀ p, r = Ok p → p.1 = ws).
    eapply observes_bind; [apply (observes_unseen obs_start), (frame_wrap _), frame_ret, _|].
    intros [[]|e] l ->; [|by apply observes_ret].
    apply observes_after; [apply frame_RefreshLocal; apply _|]. intros _.
    rewrite Hws. intros s. exists []. rewrite app_nil_r. split; [done|]. split; [done|]. by intros p [= <-]. }
  intros [[ws' g]|e] l [-> Hp]; [|apply observes_ret, sublist_nil_l].
  cbn. specialize (Hp _ eq_refl) as Hp'. cbn in Hp'. subst ws'.
  apply observes_each_err_sub. intros w. apply deployOne_observes.
Qed.

(** ** Convergence *)

(** A workload whose recorded assignment runs the wanted generation. *)
Definition converged_in (s : TaskState) (meta : Metadata) (g : string) (w : Workload) : Prop :=
  ∃ a, getAssignment (AssignmentKey meta (w_Name w)) (fsm_of s) = Some a ∧
       workloadAssignmentConverged a g = true.

Lemma deployOne_converged app self g o w s :
  converged_in s (app_Metadata app) g w → deployOneWorkload cfg app self g o w s = (Ok tt, s).
Proof.
  intros (a & Ha & Hc). unfold deployOneWorkload.
  rewrite (run_bind _ _ s (Some a) s)
    by (unfold workloadAssignment, raft_GetWorkloadAssignment, mbind, M_bind, get; by rewrite <-Ha).
  rewrite (run_try_ok _ _ s true s); [done|]. unfold handleExistingAssignment. by rewrite Hc.
Qed.

Lemma each_err_id {A} (f : A → M (res unit)) l s :
  (∀ x, x ∈ l → f x s = (Ok tt, s)) → each_err f l s = (Ok tt, s).
Proof.
  induction l as [|x l IH]; intros Hf; [done|]. cbn [each_err].
  rewrite (run_try_ok _ _ s tt s) by (apply Hf; left). apply IH. intros y Hy. apply Hf. by right.
Qed.

Lemma deployApp_converged app ws o s :
  Validate app = Ok tt → WorkloadsInDependencyOrder app = Ok ws →
  Forall (converged_in (RefreshLocal cfg s).2 (app_Metadata app) (AppGeneration app)) ws →
  deployAppWorkloadsWithOptions cfg app o s = (Ok tt, (RefreshLocal cfg s).2).
Proof.
  intros Hv Hws Hc. unfold deployAppWorkloadsWithOptions, prepareDeploy. rewrite Hv, Hws.
  destruct (RefreshLocal cfg s) as [r s1] eqn:Er. cbn [snd] in *.
  rewrite (run_try_ok _ _ s (ws, AppGeneration app) s1).
  - apply each_err_id. intros w Hw. rewrite Forall_forall in Hc. by apply deployOne_converged, Hc.
  - erewrite run_try_ok by reflexivity. by rewrite (run_bind _ _ _ _ _ Er).
Qed.
End order.
