(* ===== verification/TaskOpsSpec.v ===== *)
(** * Operations, restarts, probes and views: what they guarantee *)
From stdpp Require Import base strings numbers gmap list.
From Stdlib Require Import Ascii.
From S2P Require Import Prelude GoStrings GoTime GoNet GoList Deploy Dependency Validate Meta Placement Fsm FsmSpec RaftService RaftSpec TaskBase TaskRun TaskDeploy TaskOps TaskViews TaskFrame TaskSpec TaskOrder.

(** ** Selecting workloads by name *)
Lemma ordered_add_spec s x y : y ∈ ordered_add s x ↔ y ∈ s ∨ y = x.
Proof. unfold ordered_add. case_bool_decide; set_solver. Qed.

Lemma requested_spec names n :
  n ∈ requestedWorkloadNames names ↔ n ≠ "" ∧ ∃ raw, raw ∈ names ∧ TrimSpace raw = n.
Proof.
  unfold requestedWorkloadNames. induction names as [|raw names IH] using rev_ind.
  { cbn. rewrite elem_of_nil. split; [done|]. intros (_ & r & Hr & _). by apply elem_of_nil in Hr. }
  rewrite foldl_snoc. cbn zeta. destruct (String.eqb_spec (TrimSpace raw) "") as [E|E].
  - rewrite IH. setoid_rewrite elem_of_app. setoid_rewrite list_elem_of_singleton. naive_solver.
  - rewrite ordered_add_spec, IH. setoid_rewrite elem_of_app. setoid_rewrite list_elem_of_singleton.
    naive_solver.
Qed.

(** The loop splits the wanted names into the ones it found and the ones still missing. *)
Lemma select_spec ordered wanted sel missing :
  NoDup (wname <$> ordered) →
  selectedOperationWorkloads ordered wanted = (sel, missing) →
  sel = filter (λ w, wname w ∈ wanted) ordered ∧
  (∀ n, n ∈ missing ↔ n ∈ wanted ∧ n ∉ (wname <$> ordered)).
Proof.
  unfold selectedOperationWorkloads. revert sel missing.
  induction ordered as [|w l IH] using rev_ind; intros sel missing Hnd.
  { cbn. intros [= <- <-]. split; [done|]. intros n. rewrite elem_of_nil. naive_solver. }
  rewrite foldl_snoc. rewrite fmap_app, NoDup_app in Hnd. destruct Hnd as (Hl & Hdis & _).
  destruct (foldl select_step ([], wanted) l) as [sel0 missing0] eqn:E.
  destruct (IH _ _ Hl eq_refl) as [-> Hmiss]. unfold select_step. cbn [fst snd].
  rewrite filter_app, fmap_app. change (TrimSpace (w_Name w)) with (wname w).
  assert (Hw : wname w ∉ (wname <$> l)) by (intros Hin; apply (Hdis _ Hin); cbn; left).
  case_bool_decide as Hin; intros [= <- <-].
  - apply Hmiss in Hin as [Hin _]. rewrite filter_cons_True by done. split; [done|].
    intros n. rewrite list_elem_of_filter, Hmiss, elem_of_app. cbn. rewrite list_elem_of_singleton. naive_solver.
  - assert (Hnw : wname w ∉ wanted) by (rewrite Hmiss in Hin; naive_solver).
    rewrite filter_cons_False, app_nil_r by done. split; [done|].
    intros n. rewrite Hmiss, elem_of_app. cbn. rewrite list_elem_of_singleton. naive_solver.
Qed.

(** ** Failover candidates *)
Lemma addNodeCandidate_spec current out ids n :
  n ∈ addNodeCandidate current out ids ↔
  n ∈ out ∨ (n ≠ "" ∧ n ≠ current ∧ ∃ raw, raw ∈ ids ∧ TrimSpace raw = n).
Proof.
  unfold addNodeCandidate. induction ids as [|raw ids IH] using rev_ind.
  { cbn. split; [auto|]. intros [?|(_ & _ & r & Hr & _)]; [done|]. by apply elem_of_nil in Hr. }
  rewrite foldl_snoc. cbn zeta. setoid_rewrite elem_of_app. setoid_rewrite list_elem_of_singleton.
  destruct (String.eqb_spec (TrimSpace raw) "") as [E|E]; cbn [orb]; [rewrite IH; naive_solver|].
  destruct (String.eqb_spec (TrimSpace raw) current) as [Ec|Ec]; [rewrite IH; naive_solver|].
  rewrite ordered_add_spec, IH. naive_solver.
Qed.

Section ops.
Context `{Digest, World} `{ListSortLaws, GraphLaws} (cfg : TaskConfig).

(** *** Selection *)
Lemma well_named_NoDup (ws : list Workload) : well_named ws → NoDup (wname <$> ws).
Proof. by intros [_ ?]. Qed.

Lemma selectOperation_spec app names ws :
  selectOperationWorkloads app names = Ok ws →
  ∃ ordered, WorkloadsInDependencyOrder app = Ok ordered ∧
    ((requestedWorkloadNames names = [] ∧ ws = ordered) ∨
     (requestedWorkloadNames names ≠ [] ∧
      ws = filter (λ w, wname w ∈ requestedWorkloadNames names) ordered ∧
      ∀ n, n ∈ requestedWorkloadNames names → n ∈ (wname <$> ordered))).
Proof.
  unfold selectOperationWorkloads. rewrite res_bind_ok. intros (ordered & Ho & Hrest).
  rewrite wrap_ok in Ho. exists ordered. split; [done|].
  destruct (order_ok_spec _ _ Ho) as (Hp & _ & Hwn & _).
  assert (Hnd : NoDup (wname <$> ordered)) by (rewrite Hp; by apply well_named_NoDup).
  destruct (requestedWorkloadNames names) as [|n0 rest] eqn:Er; [left; by simplify_eq|]. right.
  destruct (selectedOperationWorkloads ordered (n0 :: rest)) as [sel missing] eqn:Es.
  destruct (select_spec _ _ _ _ Hnd Es) as [-> Hmiss].
  destruct missing as [|x missing]; [|done]. simplify_eq. split_and!; [done|done|].
  intros n Hn. destruct (decide (n ∈ (wname <$> ordered))) as [|Hnin]; [done|].
  exfalso. apply (elem_of_nil n), Hmiss. auto.
Qed.

(** *** Failover *)
Lemma candidates_run current s :
  ∃ cs, alternativeNodeCandidates cfg current s = (cs, s) ∧
    ∀ n, n ∈ cs → n ≠ "" ∧ n ≠ TrimSpace current ∧ trimmed n.
Proof.
  eexists. split; [reflexivity|]. intros n.
  rewrite !addNodeCandidate_spec, elem_of_nil.
  assert (Ht : ∀ raw, TrimSpace raw = n → trimmed n) by (intros raw <-; apply TrimSpace_trimmed).
  naive_solver.
Qed.

Lemma preferredNames_candidates w cs :
  cs ≠ [] → (∀ n, n ∈ cs → n ≠ "" ∧ trimmed n) →
  ∃ want, preferredNames (failoverCandidate w cs) = Some want ∧ ∀ n, n ∈ want → n ∈ cs.
Proof.
  intros Hne Hcs. unfold preferredNames, failoverCandidate. cbn.
  destruct cs as [|c cs']; [done|]. eexists. split; [reflexivity|].
  remember (c :: cs') as l eqn:El. clear Hne.
  assert (Hgen : ∀ k acc, (∀ n, n ∈ acc → n ∈ l) → k ⊆ l → ∀ n,
    n ∈ foldl (λ s n0, if (TrimSpace n0 =? "")%string then s else ordered_add s (TrimSpace n0)) acc k → n ∈ l).
  { induction k as [|x k IH]; intros acc Hacc Hk n; cbn [foldl]; [auto|].
    apply IH; [|set_solver]. intros m Hm. case_match; [auto|].
    apply ordered_add_spec in Hm as [?| ->]; [auto|].
    assert (Hx : x ∈ l) by set_solver. destruct (Hcs x Hx) as [_ Ht]. by rewrite Ht. }
  intros n Hn. eapply (Hgen (c :: cs') []); [by intros ? []%elem_of_nil|by rewrite El|exact Hn].
Qed.

(** With at least one node in the catalog, failover leaves the current node. *)
Lemma chooseFailover_ne w current s n s' :
  let s1 := (RefreshLocal cfg s).2 in
  fsm_inv (state (fsm_of s1)) → 0 < size (NodeCapacity (state (fsm_of s1))) →
  chooseFailoverNode cfg w current s = (Ok n, s') → n ≠ TrimSpace current.
Proof.
  cbn zeta. intros Hi Hsz. unfold chooseFailoverNode.
  destruct (RefreshLocal cfg s) as [r0 s1] eqn:Er. cbn [snd] in *.
  rewrite (run_bind _ _ _ _ _ Er). destruct (candidates_run current s1) as (cs & Hcs & Hok).
  rewrite (run_bind _ _ _ _ _ Hcs). destruct (Nat.eqb_spec (length cs) 0) as [|Hl]; [done|].
  assert (Hne : cs ≠ []) by (by intros ->).
  unfold chooseWorkloadNode. rewrite (run_bind _ _ s1 (Some (raftCapacityStore (fsm_of s1))) s1) by done.
  set (cat := Some (raftCapacityStore (fsm_of s1))). set (wf := failoverCandidate w cs).
  unfold mret, M_ret. intros [= Hres _].
  destruct (preferredNames_candidates w cs Hne) as (want & Hwant & Hsub); [naive_solver|].
  destruct (Choose wf cat (tc_local cfg)) as [chosen|e] eqn:Ec.
  - injection Hres as <-. unfold Choose, chooseV1Alpha1 in Ec.
    assert (Hlen : Catalog_Len cat = size (NodeCapacity (state (fsm_of s1)))) by done.
    destruct (Nat.eqb_spec (Catalog_Len cat) 0); [lia|].
    apply res_bind_ok in Ec as ([ids prefs] & Hc & Ec).
    destruct (placementCandidates_ok _ _ _ _ Hc) as [-> Hids].
    destruct (bestPlacementCandidate _ _ _ _ _) as [best|] eqn:Eb; [|done]. injection Ec as <-.
    assert (Hin : sc_id best ∈ ids).
    { clear -Eb. unfold bestPlacementCandidate in Eb. revert best Eb.
      induction ids as [|i ids IH] using rev_ind; [done|]. intros best. rewrite foldl_snoc.
      unfold chooseBetterCandidate at 1. set (b0 := foldl _ None ids) in *.
      rewrite elem_of_app, list_elem_of_singleton.
      destruct (Catalog_Get cat i); [|auto]. case_match; [auto|].
      destruct b0 as [p|]; [case_match|]; intros [= <-]; auto. }
    apply Hids in Hin as [Hid Hpref]. specialize (Hpref _ Hwant).
    assert (Htr : trimmed (sc_id best)).
    { cbn in Hid. rewrite list_sort_perm in Hid.
      apply list_elem_of_fmap in Hid as ([k sn] & -> & Hk%elem_of_map_to_list).
      destruct (inv_nodes _ Hi _ _ Hk) as [-> _]. apply TrimSpace_trimmed. }
    rewrite Htr in Hpref. by apply Hok, Hsub.
  - destruct (preferredConfiguredNode cfg wf (tc_local cfg)) as [fb|] eqn:Ep; [|done].
    injection Hres as <-. unfold preferredConfiguredNode in Ep. cbn in Ep.
    assert (Hfb : ∃ raw, raw ∈ cs ∧ TrimSpace raw = fb).
    { clear -Ep. induction cs as [|c cs IH]; cbn [preferred_configured] in Ep; [done|].
      destruct (_ || _); [destruct (IH Ep) as (x & ? & ?); exists x; set_solver|].
      destruct (NodeURL cfg (TrimSpace c)); [|destruct (IH Ep) as (x & ? & ?); exists x; set_solver].
      injection Ep as <-. exists c. set_solver. }
    destruct Hfb as (raw & Hraw & <-). destruct (Hok raw Hraw) as (_ & Hn & Ht). by rewrite Ht.
Qed.

(** With an empty catalog the preferences are not consulted: the local node is chosen. *)
Lemma chooseFailover_empty w current s :
  let s1 := (RefreshLocal cfg s).2 in
  size (NodeCapacity (state (fsm_of s1))) = 0 →
  (alternativeNodeCandidates cfg current s1).1 ≠ [] →
  chooseFailoverNode cfg w current s = (Ok (fallbackNodeID (tc_local cfg)), s1).
Proof.
  cbn zeta. intros Hsz Hcs. unfold chooseFailoverNode.
  destruct (RefreshLocal cfg s) as [r0 s1] eqn:Er. cbn [snd] in *.
  rewrite (run_bind _ _ _ _ _ Er).
  destruct (alternativeNodeCandidates cfg current s1) as [cs s2] eqn:Ec.
  assert (s2 = s1) as -> by (unfold alternativeNodeCandidates, the_catalog, mbind, M_bind, get in Ec; by injection Ec).
  cbn in Hcs. rewrite (run_bind _ _ _ _ _ Ec).
  destruct (Nat.eqb_spec (length cs) 0) as [Hl|Hl]; [by apply length_zero_iff_nil in Hl|].
  unfold chooseWorkloadNode. rewrite (run_bind _ _ s1 (Some (raftCapacityStore (fsm_of s1))) s1) by done.
  unfold Choose, chooseV1Alpha1. cbn [Catalog_Len raftCapacityStore st_Len]. unfold lenNodeCapacity.
  by rewrite Hsz.
Qed.
End ops.

(** ** Moves: every source is stopped before any target is started *)
Inductive step := MStop (name : string) (succeeded : bool) | MStart (name : string).

Definition obs_move (e : event) : option step :=
  match e with
  | EvStop _ _ name r => Some (MStop name (is_ok r))
  | EvRemoteStop _ _ w r => Some (MStop (w_Name w) (is_ok r))
  | EvDeploy _ w _ => Some (MStart (w_Name w))
  | EvDispatch _ _ w _ => Some (MStart (w_Name w))
  | _ => None
  end.

Definition move_name (p : plannedWorkloadMove) : string := w_Name (mv_workload p).

(** What moving a workload shows: a stop of the source when the workload is assigned, and a start. *)
Definition stop_shows (p : plannedWorkloadMove) : list step :=
  if mv_assigned p then [MStop (move_name p) true] else [].
Definition start_shows (p : plannedWorkloadMove) : list step := [MStart (move_name p)].

(** A stop that fails is of an assigned workload, and shows a refused call or no call at all (no
    dispatcher). *)
Definition stop_fails (p : plannedWorkloadMove) (l : list step) : Prop :=
  mv_assigned p = true ∧ (l = [] ∨ l = [MStop (move_name p) false]).

(** A start that fails shows no call, a call that failed, or a call that succeeded followed by the
    stop of the workload that did not become ready. *)
Definition start_fails (p : plannedWorkloadMove) (l : list step) : Prop :=
  l = [] ∨ l = start_shows p ∨ ∃ b, l = start_shows p ++ [MStop (move_name p) b].

(** The calls of the stop phase, in reverse order of the plans. *)
Definition stop_phase (plans : list plannedWorkloadMove) (r : res unit) (l : list step) : Prop :=
  match r with
  | Ok _ => l = reverse plans ≫= stop_shows
  | Err _ => ∃ pre p post l', reverse plans = pre ++ p :: post ∧
      l = (pre ≫= stop_shows) ++ l' ∧ stop_fails p l'
  end.

(** The calls of the start phase, in the order of the plans. *)
Definition start_phase (plans : list plannedWorkloadMove) (r : res unit) (l : list step) : Prop :=
  match r with
  | Ok _ => l = plans ≫= start_shows
  | Err _ => ∃ pre p post l', plans = pre ++ p :: post ∧
      l = (pre ≫= start_shows) ++ l' ∧ start_fails p l'
  end.

(** A move with these plans that ends in [r]: nothing is called when there is nothing to move; when a
    stop fails, only the stop phase is seen; otherwise the whole stop phase, then the starts. *)
Definition move_shows (plans : list plannedWorkloadMove) (planned r : res unit) (l : list step) : Prop :=
  match planned with
  | Err _ => l = [] ∧ ∃ e, r = Err e
  | Ok _ =>
      (∃ e, r = Err e ∧ stop_phase plans r l) ∨
      (∃ l1 l2, l = l1 ++ l2 ∧ stop_phase plans (Ok tt) l1 ∧ start_phase plans r l2)
  end.

Section moves.
Context `{Digest, World} `{ListSort, GraphLib} (cfg : TaskConfig).

#[local] Instance move_unseen_call k :
  TCOr (TCEq k KProbe) (TCEq k KSleep) → RCall k (unseen obs_move).
Proof. unseen_kinds. Qed.
#[local] Instance move_unseen_write : RWrite (unseen obs_move).
Proof. apply unseen_write. by intros []. Qed.

Lemma stop_call_steps {A} (c : M (res A)) fmt args name :
  observes obs_move c (λ r l, l = [MStop name (is_ok r)]) →
  observes obs_move (try (wrapM fmt args c) (λ _, _ ← registry_Delete name; ok))
    (λ r l, match r with Ok _ => l = [MStop name true] | Err _ => l = [] ∨ l = [MStop name false] end).
Proof.
  intros Hc. eapply observes_bind; [apply wrap_observes, Hc|].
  intros r l (r' & -> & ->). destruct r' as [a|e]; cbn [wrap is_ok].
  - apply observes_after; [apply frame_registry_delete; apply _|]. intros _. by apply observes_ret.
  - apply observes_ret. by right.
Qed.

Lemma stopWorkload_steps m w :
  observes obs_move (stopWorkload cfg m w) (λ r l,
    match r with Ok _ => l = [MStop (w_Name w) true] | Err _ => l = [] ∨ l = [MStop (w_Name w) false] end).
Proof.
  unfold stopWorkload. apply observes_after.
  { unfold stopTargetNode. apply (frame_bind _); [apply frame_workloadAssignment; apply _|].
    intros ?. apply frame_ret, _. }
  intros n. unfold stopWorkloadOnNode. case_match.
  - unfold stopRemoteWorkload. case_match.
    + apply observes_ret. by left.
    + apply stop_call_steps, (call_observes obs_move).
  - unfold stopLocalWorkload. apply observes_after; [apply frame_stopMonitor; apply _|]. intros _.
    apply stop_call_steps, (call_observes obs_move).
Qed.

Lemma skipMoveStop_steps m op p :
  op ≠ OperationFailover →
  observes obs_move (skipMoveStop m op p) (λ b l, l = [] ∧ b = negb (mv_assigned p)).
Proof.
  intros Hop. unfold skipMoveStop. rewrite (proj2 (String.eqb_neq _ _) Hop).
  destruct (mv_assigned p); [|by apply observes_ret]. cbn [negb andb].
  apply observes_after; [|intros ?; by apply observes_ret].
  unfold workloadAssignmentStatus. apply (frame_bind _); [apply frame_workloadAssignment; apply _|].
  intros ?. apply frame_ret, _.
Qed.

Lemma stopOneMove_steps app op g p :
  op ≠ OperationFailover →
  observes obs_move (stopOneMove cfg app op g p) (λ r l,
    match r with Ok _ => l = stop_shows p | Err _ => stop_fails p l end).
Proof.
  intros Hop. unfold stopOneMove, stop_shows, stop_fails.
  eapply observes_bind; [by apply skipMoveStop_steps|]. intros skip l [-> ->].
  destruct (mv_assigned p); cbn [negb]; [|by apply observes_ret].
  eapply observes_bind; [apply stopWorkload_steps|]. intros [[]|e] l Hl; cbn in Hl.
  - apply observes_after; [apply frame_applyAssignment; apply _|]. intros _.
    apply observes_after; [apply frame_applyBindings; apply _|]. intros _.
    apply observes_ret. by rewrite app_nil_r.
  - apply observes_after; [apply frame_applyAssignment; apply _|]. intros _.
    apply observes_after; [apply frame_applyBindings; apply _|]. intros _.
    rewrite (proj2 (String.eqb_neq _ _) Hop). apply observes_ret. by rewrite app_nil_r.
Qed.

Lemma stopMoves_steps app op g plans :
  op ≠ OperationFailover → observes obs_move (stopMovePlans cfg app op g plans) (stop_phase plans).
Proof.
  intros Hop. eapply observes_weaken.
  - apply (observes_each_err_exact obs_move _ stop_shows stop_fails). intros p. by apply stopOneMove_steps.
  - by intros [[]|e] l.
Qed.

(** *** Starting *)
Lemma runLocal_moves m w n :
  observes obs_move (runLocalWorkload m w n) (λ r l,
    match r with
    | Ok _ => l = [MStart (w_Name w)]
    | Err _ => l = [MStart (w_Name w)] ∨ ∃ b, l = [MStart (w_Name w); MStop (w_Name w) b]
    end).
Proof.
  unfold runLocalWorkload. eapply observes_bind.
  { unfold deployLocalWorkload. eapply observes_bind; [apply wrap_observes, (call_observes obs_move)|].
    intros r l (r' & -> & ->). instantiate (1 := λ _ l, l = [MStart (w_Name w)]). destruct (wrap _ _ r').
    - eapply observes_weaken; [apply (observes_unseen obs_move)|by intros ? ? ->].
      apply (frame_bind _); [apply frame_registry_upsert; apply _|]. intros ?. apply frame_ok, _.
    - by apply observes_ret. }
  intros [u|e] l ->; [|apply observes_ret; by left].
  apply observes_after; [unfold localWorkloadAddress; apply (frame_bind _);
    [apply frame_get, _|intros ?; apply frame_ret, _]|]. intros a.
  apply observes_after; [apply frame_readiness; apply _|]. intros [u'|e]; [by apply observes_ret|].
  unfold stopLocalWorkload. eapply observes_bind.
  { apply observes_after; [apply frame_stopMonitor; apply _|]. intros _.
    apply stop_call_steps, (call_observes obs_move). }
  intros r l Hl. apply observes_ret. rewrite app_nil_r. destruct r as [[]|e']; cbn in Hl.
  - subst l. right. by eexists.
  - destruct Hl as [->| ->]; [by left|right; by eexists].
Qed.

Lemma runRemote_moves m w n :
  observes obs_move (runRemoteWorkload cfg m w n) (λ r l,
    match r with Ok _ => l = [MStart (w_Name w)] | Err _ => l = [] ∨ l = [MStart (w_Name w)] end).
Proof.
  unfold runRemoteWorkload. eapply observes_bind.
  { unfold dispatchWorkload. case_match.
    - apply observes_ret. instantiate (1 := λ r l,
        match r with Ok _ => l = [MStart (w_Name w)] | Err _ => l = [] ∨ l = [MStart (w_Name w)] end).
      by left.
    - eapply observes_bind; [apply wrap_observes, (call_observes obs_move)|].
      intros r l (r' & -> & ->). destruct (wrap _ _ r'); apply observes_ret; [done|by right]. }
  intros [d|e] l Hl; cbn in Hl.
  - subst l. apply observes_after; [apply frame_registry_upsert; apply _|]. intros _. by apply observes_ret.
  - apply observes_ret. by rewrite app_nil_r.
Qed.

Lemma startOneMove_steps app g p :
  observes obs_move (startOneMove cfg app g p) (λ r l,
    match r with Ok _ => l = start_shows p | Err _ => start_fails p l end).
Proof.
  unfold startOneMove, start_fails, start_shows.
  apply observes_after; [apply frame_applyAssignment; apply _|]. intros _.
  eapply observes_bind.
  { instantiate (1 := λ r l, match r with Ok _ => l = start_shows p | Err _ => start_fails p l end).
    unfold runWorkloadOnNode, start_fails, start_shows, move_name. case_match; [apply observes_ret; by left|].
    case_match; eapply observes_weaken; [apply runLocal_moves| |apply runRemote_moves|].
    - intros [d|e] l; [done|]. intros [->|[b ->]]; [by auto|eauto].
    - intros [d|e] l; [done|]. intros [->| ->]; by auto. }
  intros [d|e] l Hl; cbn in Hl;
    (apply observes_after; [apply frame_applyAssignment; apply _|]; intros _;
     apply observes_after; [apply frame_applyBindings; apply _|]; intros _;
     apply observes_ret; by rewrite app_nil_r).
Qed.

Lemma startMoves_steps app g n plans :
  observes obs_move (startMovePlans cfg app g n plans) (λ r l, start_phase plans r.2 l).
Proof.
  revert n. induction plans as [|p plans IH]; intros n; cbn [startMovePlans]; [by apply observes_ret|].
  eapply observes_bind; [apply startOneMove_steps|]. intros [[]|e] l Hl; cbn in Hl.
  - subst l. eapply observes_weaken; [apply IH|]. intros [m [[]|e]] l; cbn; [by intros ->|].
    intros (pre & q & post & l' & -> & -> & Hf). by exists (p :: pre), q, post, l'.
  - apply observes_ret. rewrite app_nil_r. by exists [], p, plans, l.
Qed.

Lemma plan_unseen meta tf acc l :
  (∀ w, Frame (unseen obs_move) (tf w)) → Frame (unseen obs_move) (planWorkloadMoves cfg meta tf acc l).
Proof. intros Htf. by apply (frame_plan cfg (unseen obs_move)). Qed.

(** The choosers of a migration (a constant) and of a rebalance start and stop nothing. *)
Lemma chosen_target_unseen w : Frame (unseen obs_move) (chooseWorkloadNode cfg w (tc_local cfg)).
Proof.
  unfold chooseWorkloadNode. apply (frame_bind _); [apply frame_catalog; apply _|].
  intros ?. apply frame_ret, _.
Qed.

(** Only listed workloads are moved, in the order of the list. *)
Lemma plan_step_workloads meta tf acc w s acc' s' :
  plan_step cfg meta tf acc w s = (Ok acc', s') →
  acc'.1 = acc.1 ∨ ∃ p, acc'.1 = acc.1 ++ [p] ∧ mv_workload p = w.
Proof.
  unfold plan_step, try, mbind, M_bind.
  destruct (normalizeMoveTarget tf w s) as [[target|e] s1]; [|done].
  destruct (currentWorkloadAssignmentNode meta (w_Name w) s1) as [[node assigned] s2].
  destruct (_ && _); intros [= <- _]; [by left|right]. by eexists.
Qed.

Lemma plan_workloads meta tf acc ws s plans first planned s1 :
  planWorkloadMoves cfg meta tf acc ws s = ((plans, first, planned), s1) →
  ∃ new, plans = acc.1 ++ new ∧ (mv_workload <$> new) `sublist_of` ws.
Proof.
  revert acc s. induction ws as [|w ws IH]; intros acc s; cbn [planWorkloadMoves].
  { destruct acc as [pl fi]. intros [= <- <- <- <-]. exists []. by rewrite app_nil_r. }
  unfold mbind, M_bind. destruct (plan_step cfg meta tf acc w s) as [[acc'|e] s2] eqn:Es.
  - intros (new & -> & Hsub)%IH. apply plan_step_workloads in Es as [->|(p & -> & <-)].
    + exists new. split; [done|]. by apply sublist_cons.
    + exists (p :: new). split; [by rewrite <-app_assoc|]. by apply sublist_skip.
  - destruct acc as [pl fi]. intros [= <- <- <- <-]. exists []. rewrite app_nil_r.
    split; [done|apply sublist_nil_l].
Qed.

Lemma move_steps app op ws tf s plans first planned s1 :
  op ≠ OperationFailover → (∀ w, Frame (unseen obs_move) (tf w)) →
  planWorkloadMoves cfg (app_Metadata app) tf ([], "") ws s = ((plans, first, planned), s1) →
  ∃ tr, ts_trace (moveAppWorkloads cfg app op ws tf s).2 = ts_trace s ++ tr ∧
    move_shows plans planned (moveAppWorkloads cfg app op ws tf s).1.2 (omap obs_move tr).
Proof.
  intros Hop Htf Hplan. unfold moveAppWorkloads.
  destruct (plan_unseen (app_Metadata app) tf ([], "") ws Htf s) as (tr0 & Htr0 & Hobs0).
  rewrite Hplan in Htr0. cbn [snd] in Htr0. rewrite (run_bind _ _ _ _ _ Hplan).
  set (k := match planned with Ok _ => _ | Err _ => _ end).
  assert (Hk : observes obs_move k (λ r l, move_shows plans planned r.2 l)).
  { subst k. unfold move_shows. destruct planned as [u|e].
    2: { apply observes_ret. cbn. eauto. }
    destruct (Nat.eqb_spec (length plans) 0) as [El|_].
    { apply length_zero_iff_nil in El as ->. apply observes_ret. cbn. right. by exists [], []. }
    cbn zeta. eapply observes_bind; [by apply stopMoves_steps|]. intros [[]|e] l1 Hs.
    - eapply observes_bind; [apply startMoves_steps|]. intros [moved started] l2 Hs2; cbn in Hs2.
      destruct started; apply observes_ret; rewrite app_nil_r; right; by exists l1, l2.
    - apply observes_ret. rewrite app_nil_r. left. by exists e. }
  destruct (Hk s1) as (tr & Htr & HP). exists (tr0 ++ tr).
  by rewrite Htr, Htr0, app_assoc, omap_app, Hobs0.
Qed.
End moves.

(** * Restart limits, probe loops, guarded writes and views *)
(** ** The restart limit *)
Definition attempts_of (key : string) (s : TaskState) : Z := default 0%Z (ts_restartAttempts s !! key).

(** A history of restart decisions for one workload and generation; between two decisions
    anything may happen that does not lower the counter. *)
Inductive restarts (w : Workload) (k g : string) (s0 : TaskState) : nat → TaskState → Prop :=
| restarts_start : restarts w k g s0 0 s0
| restarts_ask n s s1 b s2 :
    restarts w k g s0 n s →
    (attempts_of (restartAttemptKey k g) s ≤ attempts_of (restartAttemptKey k g) s1)%Z →
    allowWorkloadRestart w k g s1 = (b, s2) →
    restarts w k g s0 (if b then S n else n) s2.

Section restart_limit.
Variables (w : Workload) (k g : string).
#[local] Abbreviation key := (restartAttemptKey k g).
#[local] Abbreviation limit := (workloadMaxRestarts w).

Lemma allow_run s b s' :
  allowWorkloadRestart w k g s = (b, s') →
  (b = false ∧ s' = s) ∨
  (b = true ∧ never_restarts w = false ∧ ((0 < limit)%Z → (attempts_of key s < limit)%Z) ∧
   attempts_of key s' = wrap_int64 (attempts_of key s + 1)).
Proof.
  unfold allowWorkloadRestart. destruct (never_restarts w); [intros [= <- <-]; by left|].
  rewrite run_get. cbn zeta. fold (attempts_of key s).
  destruct (_ && _) eqn:E; [intros [= <- <-]; by left|]. intros [= <- <-]. right.
  split_and!; [done|done| |].
  - intros Hpos. apply andb_false_iff in E. rewrite Z.ltb_ge, Z.leb_gt in E. lia.
  - unfold attempts_of. cbn. by rewrite lookup_insert_eq.
Qed.

Lemma restarts_bound s0 n s :
  (0 < limit ≤ max_int64)%Z → (0 ≤ attempts_of key s0)%Z →
  restarts w k g s0 n s →
  (attempts_of key s0 + Z.of_nat n ≤ attempts_of key s)%Z ∧ (Z.of_nat n ≤ limit)%Z.
Proof.
  intros Hlim Hs0. induction 1 as [|n s s1 b s2 Hr [IH1 IH2] Hle Ha]; [lia|].
  destruct (allow_run _ _ _ Ha) as [[-> ->]|(-> & _ & Hlt & Heq)]; [lia|].
  specialize (Hlt ltac:(lia)).
  rewrite wrap_int64_small in Heq by (unfold min_int64, max_int64 in *; lia). lia.
Qed.
End restart_limit.

(** ** Probes *)
Lemma probeAttemptsOrDefault_pos r : (1 ≤ probeAttemptsOrDefault r)%Z.
Proof. unfold probeAttemptsOrDefault, defaultReadinessAttempts. case_match eqn:E; lia. Qed.

Definition obs_probe (e : event) : option bool :=
  match e with EvProbe _ r => Some (is_ok r) | _ => None end.

Section probe_loop.
Context `{Digest, World}.

(** What a run of the loop shows: at most [n] probes, all of them failed but the last, and
    success exactly when the last one succeeded. *)
Definition probed (n : nat) (r : res unit) (l : list bool) : Prop :=
  length l ≤ n ∧
  ((r = Ok tt ∧ ∃ k, l = repeat false k ++ [true]) ∨ (r ≠ Ok tt ∧ l = repeat false (length l))).

#[local] Instance probe_unseen_sleep : RCall KSleep (unseen obs_probe).
Proof. apply unseen_call. by intros []. Qed.

Lemma probed_more n r l : probed n r l → probed (S n) r (false :: l).
Proof.
  intros (Hl & [[-> [k ->]]|[Hr Hn]]); (split; [cbn; lia|]).
  - left. split; [done|]. by exists (S k).
  - right. split; [done|]. cbn. by f_equal.
Qed.

Lemma probeAttempts_spec c ex n last :
  observes obs_probe (probeAttempts c ex n last) (λ r l, probed n r l ∧ (n ≠ 0 → l ≠ [])).
Proof.
  revert last. induction n as [|n IH]; intros last; cbn [probeAttempts].
  { apply observes_ret. split; [|done]. split; [done|]. by right. }
  eapply observes_bind; [apply (call_observes obs_probe)|]. intros r l ->. cbn [omap list_omap obs_probe].
  destruct r as [[]|e]; cbn [is_ok].
  - apply observes_ret. split; [|done]. split; [cbn; lia|]. left. split; [done|]. by exists 0.
  - destruct n as [|n].
    { apply observes_ret. split; [|done]. split; [cbn; lia|]. by right. }
    eapply observes_bind; [apply (observes_unseen obs_probe), frame_sleep; apply _|].
    intros [[]|e'] l ->.
    + eapply observes_weaken; [apply IH|]. intros r l [Hp _]. split; [|done]. by apply probed_more.
    + apply observes_ret. split; [|done]. split; [cbn; lia|]. by right.
Qed.
End probe_loop.

(** ** Views *)
Lemma addWorkload_counts v item :
  let v' := addWorkload v item in
  av_Running v' + av_Stopped v' + av_Failed v' + av_Pending v' =
    S (av_Running v + av_Stopped v + av_Failed v + av_Pending v) ∧
  av_DesiredWorkloads v' = av_DesiredWorkloads v ∧ av_Workloads v' = av_Workloads v ++ [item].
Proof.
  cbn zeta. unfold addWorkload. cbn zeta. split_and!; [|done|done].
  cbn beta iota zeta delta [av_Running av_Stopped av_Failed av_Pending].
  unfold AssignmentStatusRunning, AssignmentStatusStopped, AssignmentStatusFailed.
  destruct (String.eqb_spec (wv_Status item) "running") as [->|]; [cbn; lia|].
  destruct (String.eqb_spec (wv_Status item) "stopped") as [->|]; [cbn; lia|].
  destruct (String.eqb_spec (wv_Status item) "failed") as [_|_]; cbn; lia.
Qed.

(** The number of items with a status. *)
Definition count_status (st : string) (items : list AppWorkloadView) : nat :=
  length (filter (λ i, wv_Status i = st) items).

Lemma count_status_snoc st items i :
  count_status st (items ++ [i]) = (if decide (wv_Status i = st) then 1 else 0) + count_status st items.
Proof.
  unfold count_status. rewrite filter_app, length_app.
  destruct (decide (wv_Status i = st)); [rewrite filter_cons_True by done|rewrite filter_cons_False by done];
    rewrite filter_nil; cbn [length]; lia.
Qed.

Lemma fold_counts v0 items :
  av_Running v0 = 0 → av_Stopped v0 = 0 → av_Failed v0 = 0 → av_Pending v0 = 0 → av_Workloads v0 = [] →
  let v := foldl addWorkload v0 items in
  av_Workloads v = items ∧ av_DesiredWorkloads v = av_DesiredWorkloads v0 ∧
  av_Running v = count_status "running" items ∧ av_Stopped v = count_status "stopped" items ∧
  av_Failed v = count_status "failed" items ∧
  av_Running v + av_Stopped v + av_Failed v + av_Pending v = length items ∧
  av_Metadata v = av_Metadata v0 ∧ av_DesiredGeneration v = av_DesiredGeneration v0.
Proof.
  intros H1 H2 H3 H4 H5. cbn zeta. induction items as [|i items IH] using rev_ind.
  { cbn. rewrite H1, H2, H3, H4, H5. done. }
  rewrite foldl_snoc. set (v := foldl addWorkload v0 items) in *.
  destruct IH as (Hw & Hd & Hr & Hs & Hf & Ht & Hm & Hg).
  destruct (addWorkload_counts v i) as (Hc & Hdw & Hwl).
  rewrite !count_status_snoc, length_app, Hwl, Hdw, Hw, Hd, Hc, Ht. cbn [length].
  split_and!; try done; try lia; unfold addWorkload; cbn beta iota zeta delta [av_Running av_Stopped av_Failed];
    unfold AssignmentStatusRunning, AssignmentStatusStopped, AssignmentStatusFailed.
  - rewrite <-Hr. by destruct (String.eqb_spec (wv_Status i) "running"), (decide (wv_Status i = "running")).
  - rewrite <-Hs. by destruct (String.eqb_spec (wv_Status i) "stopped"), (decide (wv_Status i = "stopped")).
  - rewrite <-Hf. by destruct (String.eqb_spec (wv_Status i) "failed"), (decide (wv_Status i = "failed")).
Qed.

Section views.
Context `{Digest, Codec} `{GraphLib}.

Lemma counted_view f app :
  let v := countedView f app in
  let items := buildAppWorkloadView f (app_Metadata app) (AppGeneration app) <$> appWorkloadsForView app in
  av_Workloads v = items ∧ av_DesiredWorkloads v = length items ∧
  av_Running v = count_status "running" items ∧ av_Stopped v = count_status "stopped" items ∧
  av_Failed v = count_status "failed" items ∧
  av_Running v + av_Stopped v + av_Failed v + av_Pending v = length items.
Proof.
  cbn zeta. unfold countedView. cbn zeta.
  set (items := buildAppWorkloadView _ _ _ <$> _).
  set (v0 := mkAppView _ _ _ _ _ _ _ _ _ _ _ _ _ _ _).
  destruct (fold_counts v0 items) as (Hw & Hd & Hr & Hs & Hf & Ht & _); [done..|].
  split_and!; try done. rewrite Hd. subst v0 items. cbn. by rewrite length_fmap.
Qed.

Lemma count_status_all st items :
  count_status st items = length items ↔ Forall (λ i, wv_Status i = st) items.
Proof.
  unfold count_status. split.
  - intros Hl. rewrite Forall_forall. intros i Hi.
    destruct (decide (wv_Status i = st)) as [|Hne]; [done|].
    pose proof (length_filter_lt (λ i, wv_Status i = st) items i Hi Hne). lia.
  - induction 1 as [|i items Hi _ IH]; [done|]. rewrite filter_cons_True by done. cbn. by rewrite IH.
Qed.

Lemma count_status_pos st items :
  0 < count_status st items ↔ Exists (λ i, wv_Status i = st) items.
Proof.
  unfold count_status. rewrite Exists_exists. split.
  - intros Hl. destruct (filter (λ i, wv_Status i = st) items) as [|i l] eqn:E; [cbn in Hl; lia|].
    exists i. assert (Hin : i ∈ filter (λ i, wv_Status i = st) items) by (rewrite E; left).
    apply list_elem_of_filter in Hin. naive_solver.
  - intros (i & Hi & He).
    assert (Hin : i ∈ filter (λ i, wv_Status i = st) items) by (by apply list_elem_of_filter).
    destruct (filter _ items); [by apply elem_of_nil in Hin|cbn; lia].
Qed.

(** The aggregate status, from the statuses of the items. *)
Lemma aggregate_spec f app :
  let v := buildAppView f app in
  let items := av_Workloads v in
  (av_Status v = AppStatusFailed ↔ Exists (λ i, wv_Status i = "failed") items) ∧
  (av_Status v = AppStatusRunning ↔ items ≠ [] ∧ Forall (λ i, wv_Status i = "running") items) ∧
  (av_Status v = AppStatusStopped ↔ items ≠ [] ∧ Forall (λ i, wv_Status i = "stopped") items).
Proof.
  cbn zeta. unfold buildAppView, finishView. cbn [av_Status av_Workloads].
  destruct (counted_view f app) as (Hw & Hd & Hr & Hs & Hf & Ht).
  set (v := countedView f app) in *. rewrite Hw. set (items := _ <$> _) in *.
  unfold aggregateAppStatus. rewrite Hd.
  assert (Hex : Exists (λ i, wv_Status i = "failed") items ↔ 0 < av_Failed v).
  { rewrite Hf. symmetry. apply count_status_pos. }
  assert (Hne : items ≠ [] ↔ length items ≠ 0) by (by rewrite length_zero_iff_nil).
  pose proof (count_status_all "running" items) as Har. rewrite <-Hr in Har.
  pose proof (count_status_all "stopped" items) as Has. rewrite <-Hs in Has.
  unfold AppStatusFailed, AppStatusRunning, AppStatusStopped, AppStatusPending, AppStatusPartial.
  rewrite Hex, Hne, <-Har, <-Has.
  destruct (Nat.eqb_spec (length items) 0) as [E0|E0]; [split_and!; (split; intros; first [done|lia|exfalso; lia])|].
  destruct (Nat.ltb_spec 0 (av_Failed v)); [split_and!; (split; intros; first [done|lia|exfalso; lia])|].
  destruct (Nat.eqb_spec (av_Running v) (length items)); [split_and!; (split; intros; first [done|lia|exfalso; lia])|].
  destruct (Nat.eqb_spec (av_Stopped v) (length items)); [split_and!; (split; intros; first [done|lia|exfalso; lia])|].
  destruct (_ || _); split_and!; (split; intros; first [done|lia|exfalso; lia]).
Qed.
End views.
