(* ===== verification/TaskConverge.v ===== *)
(** * A successful deployment converges

    On a node whose writes are applied (no NodeHost is open, or the node leads and its
    proposals are the only ones), a deployment that reports success leaves every workload of
    the application settled: running at the deployed generation, handed to a worker, or left
    alone on purpose. *)
From stdpp Require Import base strings numbers gmap list.
From Stdlib Require Import Ascii.
From S2P Require Import Prelude GoStrings GoTime GoNet GoList Deploy Dependency Validate ValidateSpec Meta Placement Fsm FsmSpec RaftService RaftSpec TaskBase TaskRun TaskDeploy TaskOps TaskViews TaskFrame TaskSpec TaskPorts TaskOrder.

Section converge.
Context `{Digest, CodecLaws} `{!World} `{ListSort, GraphLib} (cfg : TaskConfig).

(** Writes are applied, and nothing else is: commands are applied directly, or the node leads
    and every proposal commits alone. *)
Definition writable_service (sv : Service) : Prop :=
  sv_nh sv = false ∨
  ∀ tr, isLocalLeader (w_nodeHost tr) sv = true ∧
    ∀ data, pr_others (SyncPropose (w_nodeHost tr) data) = [] ∧
            pr_applied (SyncPropose (w_nodeHost tr) data) = true.
Definition writable (s : TaskState) : Prop := writable_service (ts_raft s).

Lemma applyCommand_writable tr data msg sv :
  writable_service sv →
  ∃ r, applyCommand (w_nodeHost tr) data msg sv = (r, on_fsm (applyCommandPayload data) sv).
Proof.
  unfold applyCommand. intros [Hd|Hl]; [rewrite Hd; eauto|].
  destruct (Hl tr) as [Hlead Hp]. destruct (Hp data) as [Ho Ha]. rewrite Hlead, Ho, Ha.
  destruct (negb (sv_nh sv)); eexists; done.
Qed.

(** A write of a command that JSON represents is exactly the command. *)
Lemma propose_writable tr c e msg sv :
  representable c → writable_service sv →
  ∃ data r, encode c = Ok data ∧
    propose (w_nodeHost tr) c e msg sv = (r, on_fsm (applyCommandPayload data) sv).
Proof.
  intros Hc Hd. destruct (encode_total c Hc) as [data Hb].
  destruct (applyCommand_writable tr data msg sv Hd) as [r Hr].
  exists data, r. split; [done|]. unfold propose. by rewrite Hb.
Qed.

(** A write of any other command applies what it was encoded to, or nothing. *)
Lemma propose_written tr c e msg sv :
  writable_service sv →
  let sv' := (propose (w_nodeHost tr) c e msg sv).2 in
  writable_service sv' ∧ written c (state (sv_fsm sv)) (state (sv_fsm sv')).
Proof.
  intros Hd. unfold propose. destruct (encode c) as [data|er] eqn:He; [|by split; [|left]].
  destruct (applyCommand_writable tr data msg sv Hd) as [r ->]. split; [exact Hd|].
  right. exists data. split; [done|apply apply_classify].
Qed.

Lemma store_written tr snap sv :
  writable_service sv →
  let sv' := (store_Upsert (w_nodeHost tr) snap sv).2 in
  writable_service sv' ∧ written (CUpsertNode snap) (state (sv_fsm sv)) (state (sv_fsm sv')).
Proof.
  intros Hd. unfold store_Upsert.
  destruct (encode (CUpsertNode snap)) as [data|er] eqn:He; [|by split; [|left]].
  destruct (applyCommand_writable tr data "not leader: send node capacity to the raft leader node" sv Hd)
    as [r ->].
  destruct (negb (sv_nh sv)); [|destruct (negb (isLocalLeader _ _)); [by split; [|left]|]];
    (split; [exact Hd|right; exists data; split; [done|apply apply_classify]]).
Qed.

(** Only a command of an assignment writes one. *)
Lemma written_assignments c st st' :
  written c st st' → (∀ a, c ≠ CUpsertAssignment a) → Assignments st' = Assignments st.
Proof.
  intros [->|(b & He & ->)] Hc; [done|]. destruct (classify b) as [o|] eqn:Eo; [|done].
  pose proof (classify_kind _ _ _ He Eo) as Hk.
  destruct c as [| | |a|], o; try done; [|by destruct (Hc a)].
  cbn. unfold upsert_app. repeat case_match; try done.
  cbn. unfold appendDeployAppRevisionLocked. repeat case_match; done.
Qed.

(** *** Assignments *)
Lemma prepareAssignment_nonblank now a :
  TrimSpace (md_Name (as_Metadata a)) ≠ "" → TrimSpace (as_Workload a) ≠ "" →
  as_Key a = AssignmentKey (as_Metadata a) (as_Workload a) →
  ∃ a', prepareAssignment now a = Ok a' ∧ as_Key a' = as_Key a ∧
    as_Status a' = TrimSpace (as_Status a) ∧ as_Generation a' = as_Generation a ∧
    as_Node a' = TrimSpace (as_Node a).
Proof.
  intros Hn Hw Hk. unfold prepareAssignment. cbn zeta.
  assert (Hkey : TrimSpace (as_Key a) = as_Key a) by (rewrite Hk; apply AssignmentKey_trimmed).
  assert (Hne : as_Key a ≠ "").
  { rewrite Hk. rewrite AssignmentKey_empty. naive_solver. }
  unfold trim_assignment. cbn [as_Metadata set_metadata_trimmed md_Name as_Workload as_Key].
  rewrite (proj2 (String.eqb_neq _ _) Hn), (proj2 (String.eqb_neq _ _) Hw), Hkey,
    (proj2 (String.eqb_neq _ _) Hne). cbn [as_Key]. rewrite (proj2 (String.eqb_neq _ _) Hne).
  eexists. split; [reflexivity|]. cbn [as_UpdatedAt]. by destruct (_ =? 0)%Z.
Qed.

(** *** What a handler may touch *)

(** Every assignment that was written up to here is one that JSON represents, as it was
    completed for the log. *)
Definition writes_representable (s : TaskState) : Prop :=
  ∀ tr a r a', tr ++ [EvRaft (CUpsertAssignment a) r] `prefix_of` ts_trace s →
    prepareAssignment (w_now tr) a = Ok a' → representable (CUpsertAssignment a').

Lemma writes_representable_prefix s s' : ts_trace s `prefix_of` ts_trace s' → writes_representable s' → writes_representable s.
Proof. intros Hp Hr tr a r a' Ha. apply (Hr tr a r). by etrans. Qed.

(** Only the assignments with keys in [K] and the restart counters in [X] may differ. *)
Record touches (K X : gset string) (s s' : TaskState) : Prop := {
  to_trace : ts_trace s `prefix_of` ts_trace s';
  to_writable : writable s → writable s';
  to_keys : writable s → writes_representable s' →
    ∀ k, k ∉ K → Assignments (state (fsm_of s')) !! k = Assignments (state (fsm_of s)) !! k;
  to_restarts : ∀ x, x ∉ X → ts_restartAttempts s' !! x = ts_restartAttempts s !! x }.

Lemma touches_mono K X K' X' s s' : K ⊆ K' → X ⊆ X' → touches K X s s' → touches K' X' s s'.
Proof. intros HK HX [? ? Hk Hx]. split; [done..| |]; set_solver. Qed.

Lemma touches_writes_representable K X s s' : touches K X s s' → writes_representable s' → writes_representable s.
Proof. intros Ht. apply writes_representable_prefix, Ht. Qed.

(** The assignments are not written at all. *)
Lemma touches_same K X s s' :
  ts_trace s `prefix_of` ts_trace s' → (writable s → writable s') →
  (writable s → Assignments (state (fsm_of s')) = Assignments (state (fsm_of s))) →
  ts_restartAttempts s' = ts_restartAttempts s → touches K X s s'.
Proof. intros ? ? Ha Hx. split; [done..| |]; [intros Hw _ k _; by rewrite Ha|by rewrite Hx]. Qed.

Section touches.
Context (K X : gset string).

#[export] Instance touches_pre : PreOrder (touches K X).
Proof.
  split; [by intros s; apply touches_same|]. intros s1 s2 s3 [T12 W12 K12 X12] [T23 W23 K23 X23].
  split; [by etrans|by auto| |].
  - intros Hw Hr k Hk. rewrite K23 by auto. apply K12; [done|by eapply writes_representable_prefix|done].
  - intros x Hx. by rewrite X23, X12.
Qed.
#[export] Instance touches_call k : RCall k (touches K X).
Proof. intros e s _. apply touches_same; [by apply prefix_app_r|done..]. Qed.
#[export] Instance touches_registry : RRegistry (touches K X).
Proof. by intros r s; apply touches_same. Qed.
#[export] Instance touches_new : RMonitorNew (touches K X).
Proof. by intros k r s; apply touches_same. Qed.
#[export] Instance touches_end : RMonitorEnd (touches K X).
Proof. by intros k s; apply touches_same. Qed.

(** A Raft call that writes no assignment. *)
Lemma touches_raft_call op c cmd s :
  (∀ a, cmd ≠ CUpsertAssignment a) →
  (writable s → let sv' := (op (w_nodeHost (ts_trace s)) (ts_raft s)).2 in
     writable_service sv' ∧ written cmd (state (fsm_of s)) (state (sv_fsm sv'))) →
  touches K X s (raft_call op c s).2.
Proof.
  intros Hcmd Hw. destruct (op (w_nodeHost (ts_trace s)) (ts_raft s)) as [r rs] eqn:E.
  erewrite run_raft_call by exact E. cbn [snd] in *.
  apply touches_same; [by apply prefix_app_r| | |done]; intros [Hs Hwr]%Hw; [exact Hs|].
  by eapply written_assignments.
Qed.

#[export] Instance touches_bind : RBind (touches K X).
Proof.
  intros b s. unfold raft_ApplyVolumeBinding. rewrite run_get.
  destruct (prepareBinding (w_now (ts_trace s)) b) as [b'|e] eqn:Eb.
  - apply (touches_raft_call _ _ (CUpsertBinding b')); [done|]. intros Hw.
    unfold ApplyVolumeBinding. rewrite Eb. by apply propose_written.
  - apply (touches_raft_call _ _ (CUpsertBinding b)); [done|]. intros Hw.
    unfold ApplyVolumeBinding. rewrite Eb. by split; [|left].
Qed.

#[export] Instance touches_capacity : RCapacity (touches K X).
Proof.
  intros snap s. unfold store_call. rewrite run_get.
  pose proof (store_written (ts_trace s) snap (ts_raft s)) as Hw.
  destruct (store_Upsert _ snap (ts_raft s)) as [r rs]. cbn [snd] in *.
  apply touches_same; [by apply prefix_app_r| | |done]; intros [Hs Hwr]%Hw; [exact Hs|].
  by eapply written_assignments.
Qed.
End touches.

Lemma applyAssignment_writes meta w n st g e ad s :
  writable s → TrimSpace (md_Name meta) ≠ "" → TrimSpace (w_Name w) ≠ "" →
  let s' := (applyWorkloadAssignment meta w n st g e ad s).2 in
  touches {[AssignmentKey meta (w_Name w)]} ∅ s s' ∧
  (writes_representable s' → ∃ a, getAssignment (AssignmentKey meta (w_Name w)) (fsm_of s') = Some a ∧
    as_Status a = CoalesceOrEmpty [TrimSpace st; AssignmentStatusAssigned] ∧
    as_Generation a = TrimSpace g ∧ as_Node a = TrimSpace n).
Proof.
  intros Hd Hn Hw. cbn zeta. unfold applyWorkloadAssignment. rewrite run_get. cbn zeta.
  set (st' := CoalesceOrEmpty [TrimSpace st; AssignmentStatusAssigned]).
  assert (Hst : trimmed st').
  { subst st'. unfold CoalesceOrEmpty. case_match; [done|apply TrimSpace_trimmed]. }
  set (raw := mkAssignment (AssignmentKey meta (w_Name w)) _ _ _ _ _ _ _ _ _ _).
  destruct (prepareAssignment_nonblank (w_now (ts_trace s)) raw) as (a & Ha & Hka & Hsa & Hga & Hna);
    [done|done|done|].
  destruct (propose (w_nodeHost (ts_trace s)) (CUpsertAssignment a) "marshal workload assignment command"
    "not leader: send workload assignment to the raft leader node" (ts_raft s)) as [r rs] eqn:Hpr.
  assert (Hrun : raft_ApplyWorkloadAssignment raw s = (r,
    log_event (EvRaft (CUpsertAssignment raw) r) (set_raft rs s))).
  { unfold raft_ApplyWorkloadAssignment. rewrite run_get. apply run_raft_call.
    unfold ApplyWorkloadAssignment. by rewrite Ha. }
  rewrite (run_bind _ _ _ _ _ Hrun). cbn [mret M_ret snd].
  set (s' := log_event _ _).
  assert (Hin : writes_representable s' → Assignments (state (fsm_of s'))
                = <[AssignmentKey meta (w_Name w) := a]> (Assignments (state (fsm_of s)))).
  { intros Hr. assert (representable (CUpsertAssignment a)) as Hrep by (by eapply (Hr (ts_trace s) raw r)).
    destruct (propose_writable (ts_trace s) (CUpsertAssignment a) "marshal workload assignment command"
      "not leader: send workload assignment to the raft leader node" (ts_raft s) Hrep Hd) as (data & r' & He & Hpr').
    rewrite Hpr in Hpr'. injection Hpr' as <- ->. subst s'.
    unfold fsm_of at 1. cbn [ts_raft log_event set_raft on_fsm sv_fsm]. fold (fsm_of s).
    rewrite apply_classify, (classify_encode _ _ Hrep He). cbn [op_of_command].
    rewrite (prepareAssignment_ok _ _ _ Ha). cbn. by rewrite Hka. }
  split.
  - split; [by apply prefix_app_r| | |done].
    + intros _. pose proof (propose_written (ts_trace s) (CUpsertAssignment a) "marshal workload assignment command"
        "not leader: send workload assignment to the raft leader node" (ts_raft s) Hd) as [Hs _].
      by rewrite Hpr in Hs.
    + intros _ Hr k Hk. rewrite (Hin Hr). apply lookup_insert_ne. set_solver.
  - intros Hr. exists a. unfold getAssignment.
    rewrite (Hin Hr), (AssignmentKey_trimmed meta (w_Name w)), lookup_insert_eq. split_and!; [done| |done|].
    + rewrite Hsa. exact Hst.
    + rewrite Hna. cbn. apply TrimSpace_idemp.
Qed.

(** *** Settled workloads *)

(** No further restart of a failed workload is allowed. *)
Definition restart_refused (s : TaskState) (w : Workload) (key g : string) : Prop :=
  never_restarts w = true ∨
  (0 < workloadMaxRestarts w ≤ default 0 (ts_restartAttempts s !! restartAttemptKey key g))%Z.

(** Why a deployment at generation [g] may leave a workload at the assignment [a]. *)
Inductive settled_by (o : deployOptions) (s : TaskState) (meta : Metadata) (g : string) (w : Workload)
    (a : Assignment) : Prop :=
| by_running : as_Status a = AssignmentStatusRunning → settled_by o s meta g w a
| by_worker n d : EvDispatch n meta w (Ok d) ∈ ts_trace s → as_Node a = TrimSpace n →
    as_Status a = CoalesceOrEmpty [TrimSpace (dr_Status d); "dispatched"] → settled_by o s meta g w a
| by_stop : forceStopped o = false → TrimSpace (as_Status a) = AssignmentStatusStopped →
    settled_by o s meta g w a
| by_failure : TrimSpace (as_Status a) = AssignmentStatusFailed →
    restart_refused s w (AssignmentKey meta (w_Name w)) g → settled_by o s meta g w a.

Definition settled (o : deployOptions) (s : TaskState) (meta : Metadata) (g : string) (w : Workload) : Prop :=
  ∃ a, getAssignment (AssignmentKey meta (w_Name w)) (fsm_of s) = Some a ∧
       TrimSpace (as_Generation a) = TrimSpace g ∧ settled_by o s meta g w a.

Lemma settled_touches o K X s s' meta g w :
  touches K X s s' → evolves s s' → writable s → writes_representable s' →
  AssignmentKey meta (w_Name w) ∉ K → restartAttemptKey (AssignmentKey meta (w_Name w)) g ∉ X →
  settled o s meta g w → settled o s' meta g w.
Proof.
  intros Ht Hev Hw Hr Hk Hx (a & Ha & Hg & Hs).
  pose proof (to_keys _ _ _ _ Ht Hw Hr) as HK. pose proof (to_restarts _ _ _ _ Ht) as HX.
  exists a. split_and!; [|done|].
  - unfold getAssignment in *. rewrite AssignmentKey_trimmed in *. by rewrite HK.
  - destruct Hs as [|n d Hd Hn ?| |? Hrf]; [by apply by_running| |by apply by_stop|].
    + eapply by_worker; [|done|done]. destruct (ev_trace _ _ Hev) as [l ->]. set_solver.
    + apply by_failure; [done|]. unfold restart_refused. by rewrite HX.
Qed.

(** The end of a successful start: the assignment is written, then the bindings. *)
Definition record_start (app : App) (w : Workload) (n st g ad : string) : M unit :=
  _ ← applyWorkloadAssignment (app_Metadata app) w n st g "" [ad];
  applyWorkloadVolumeBindings app w n BindingStatusBound g "".

Lemma record_start_writes app w n st g ad s :
  writable s → TrimSpace (md_Name (app_Metadata app)) ≠ "" → TrimSpace (w_Name w) ≠ "" →
  let key := AssignmentKey (app_Metadata app) (w_Name w) in
  let s' := (record_start app w n st g ad s).2 in
  touches {[key]} ∅ s s' ∧
  (writes_representable s' → ∃ a, getAssignment key (fsm_of s') = Some a ∧
    as_Status a = CoalesceOrEmpty [TrimSpace st; AssignmentStatusAssigned] ∧
    as_Generation a = TrimSpace g ∧ as_Node a = TrimSpace n).
Proof.
  intros Hw Hn Hwn. cbn zeta. unfold record_start.
  destruct (applyAssignment_writes (app_Metadata app) w n st g "" [ad] s Hw Hn Hwn) as (Ht & Ha).
  destruct (applyWorkloadAssignment (app_Metadata app) w n st g "" [ad] s) as [u s1] eqn:E.
  rewrite (run_bind _ _ _ _ _ E). cbn [snd] in *. split.
  - etrans; [exact Ht|]. apply (frame_applyBindings (touches _ _)).
  - intros Hr. pose proof (frame_applyBindings (touches ∅ ∅) app w n BindingStatusBound g "" s1) as Ht2.
    destruct (Ha (touches_writes_representable _ _ _ _ Ht2 Hr)) as (a & Hget & Hrest).
    exists a. split; [|done]. unfold getAssignment in *.
    by rewrite (to_keys _ _ _ _ Ht2 (to_writable _ _ _ _ Ht Hw) Hr).
Qed.

Lemma run_assoc {A B C} (m : M A) (k : A → M B) (j : B → M C) s :
  ((m ≫= k) ≫= j) s = (m ≫= λ a, k a ≫= j) s.
Proof. unfold mbind, M_bind. by destruct (m s). Qed.

Lemma runLocal_running m w n s r s' :
  runLocalWorkload m w n s = (Ok r, s') → rr_Status r = AssignmentStatusRunning.
Proof.
  unfold runLocalWorkload.
  destruct (deployLocalWorkload m w n s) as [[[]|e] s1] eqn:Ed.
  2: { by erewrite run_try_err by exact Ed. }
  erewrite run_try_ok by exact Ed.
  destruct (localWorkloadAddress m (w_Name w) s1) as [ad s2] eqn:Ea.
  rewrite (run_bind _ _ _ _ _ Ea).
  destruct (waitWorkloadReadiness m w ad s2) as [[[]|e] s3] eqn:Er; rewrite (run_bind _ _ _ _ _ Er).
  - by intros [= <- <-].
  - unfold mbind, M_bind. by destruct (stopLocalWorkload m w s3).
Qed.

Section one.
Context (app : App) (w : Workload) (g : string) (o : deployOptions).
#[local] Abbreviation key := (AssignmentKey (app_Metadata app) (w_Name w)).
Hypothesis app_name : TrimSpace (md_Name (app_Metadata app)) ≠ "".
Hypothesis workload_name : TrimSpace (w_Name w) ≠ "".

Lemma deployLocal_settles n s s' :
  writable s → deployLocalAssignedWorkload cfg app w n g s = (Ok tt, s') →
  touches {[key]} ∅ s s' ∧ (writes_representable s' → settled o s' (app_Metadata app) g w).
Proof.
  intros Hw. unfold deployLocalAssignedWorkload.
  pose proof (frame_runLocal (touches {[key]} ∅) (app_Metadata app) w n s) as Ht1.
  destruct (runLocalWorkload (app_Metadata app) w n s) as [[r|e] s1] eqn:Er; rewrite (run_bind _ _ _ _ _ Er).
  2: { unfold mbind, M_bind. by destruct (recordDeployFailure app w n g e s1). }
  rewrite (runLocal_running _ _ _ _ _ _ Er). cbn [snd] in *.
  change (CoalesceOrEmpty [TrimSpace AssignmentStatusRunning; AssignmentStatusRunning]) with AssignmentStatusRunning.
  pose proof (to_writable _ _ _ _ Ht1 Hw) as Hw1.
  destruct (record_start_writes app w n AssignmentStatusRunning g (rr_Address r) s1 Hw1 app_name workload_name)
    as (Ht2 & Hrec).
  rewrite <-run_assoc. fold (record_start app w n AssignmentStatusRunning g (rr_Address r)).
  destruct (record_start app w n AssignmentStatusRunning g (rr_Address r) s1) as [u s2] eqn:E2.
  rewrite (run_bind _ _ _ _ _ E2). cbn [snd] in *. pose proof (to_writable _ _ _ _ Ht2 Hw1) as Hw2.
  pose proof (frame_startMonitor cfg (touches ∅ ∅) app w n s2) as Ht3.
  destruct (startLocalWorkloadHealthMonitor cfg app w n s2) as [u' s3] eqn:E3.
  rewrite (run_bind _ _ _ _ _ E3). cbn [snd] in *. intros [= <-]. split.
  - etrans; [exact Ht1|]. etrans; [exact Ht2|]. eapply touches_mono; [..|exact Ht3]; set_solver.
  - intros Hr. destruct (Hrec (touches_writes_representable _ _ _ _ Ht3 Hr)) as (a & Ha & Hst & Hg & _).
    exists a. split_and!.
    + unfold getAssignment in *. by rewrite (to_keys _ _ _ _ Ht3 Hw2 Hr).
    + by rewrite Hg, TrimSpace_idemp.
    + by apply by_running.
Qed.

Lemma dispatch_ok n s d s' :
  dispatchWorkload cfg (app_Metadata app) w n s = (Ok d, s') →
  ∃ d0, EvDispatch n (app_Metadata app) w (Ok d0) ∈ ts_trace s' ∧
    dr_Status d = CoalesceOrEmpty [TrimSpace (dr_Status d0); "dispatched"].
Proof.
  unfold dispatchWorkload. destruct (negb (tc_dispatcher cfg)); [done|].
  destruct (DispatchWorkload cfg n (app_Metadata app) w s) as [[d0|e] s1] eqn:E.
  - erewrite run_try_ok by (by apply run_wrapM_ok). intros [= <- <-]. exists d0. split; [|done].
    unfold DispatchWorkload, call, mbind, M_bind, get, modify in E. cbn in E. injection E as Er <-.
    rewrite Er. cbn. set_solver.
  - by erewrite run_try_err by (by apply run_wrapM_err).
Qed.

Lemma dispatched_trimmed st : trimmed (CoalesceOrEmpty [TrimSpace st; "dispatched"])
  ∧ CoalesceOrEmpty [TrimSpace st; "dispatched"] ≠ "".
Proof.
  unfold CoalesceOrEmpty. destruct (String.eqb_spec (TrimSpace st) ""); [done|].
  split; [apply TrimSpace_trimmed|done].
Qed.
Lemma coalesce_same x y : trimmed x → x ≠ "" → CoalesceOrEmpty [TrimSpace x; y] = x.
Proof.
  intros Ht Hne. rewrite Ht. unfold CoalesceOrEmpty. by rewrite (proj2 (String.eqb_neq _ _) Hne).
Qed.

Lemma deployRemote_settles n s s' :
  writable s → deployRemoteWorkload cfg app w n g s = (Ok tt, s') →
  touches {[key]} ∅ s s' ∧ (writes_representable s' → settled o s' (app_Metadata app) g w).
Proof.
  intros Hw. unfold deployRemoteWorkload.
  pose proof (frame_dispatchWorkload cfg (touches {[key]} ∅) (app_Metadata app) w n s) as Ht1.
  destruct (dispatchWorkload cfg (app_Metadata app) w n s) as [[d|e] s1] eqn:Er; rewrite (run_bind _ _ _ _ _ Er).
  2: { unfold mbind, M_bind. by destruct (recordDeployFailure app w n g e s1). }
  destruct (dispatch_ok _ _ _ _ Er) as (d0 & Hd0 & Hst0). cbn [snd] in *.
  destruct (dispatched_trimmed (dr_Status d0)) as [Htr Hne]. rewrite <-Hst0 in Htr, Hne.
  rewrite (coalesce_same _ "dispatched" Htr Hne). cbn zeta.
  set (s2 := (registry_Upsert (w_Name w) n (w_Runtime w) (ArtifactSummary (w_Run w)) (dr_Status d) s1).2).
  rewrite (run_bind _ _ s1 tt s2) by done.
  assert (Hw2 : writable s2) by exact (to_writable _ _ _ _ Ht1 Hw).
  destruct (record_start_writes app w n (dr_Status d) g (dr_Address d) s2 Hw2 app_name workload_name)
    as (Ht2 & Hrec).
  rewrite <-run_assoc. fold (record_start app w n (dr_Status d) g (dr_Address d)).
  pose proof (frame_applyAssignment evolves (app_Metadata app) w n (dr_Status d) g "" [dr_Address d]) as Hev1.
  pose proof (frame_applyBindings evolves app w n BindingStatusBound g "") as Hev2.
  pose proof (frame_bind evolves _ _ Hev1 (λ _, Hev2) s2) as Hev.
  fold (record_start app w n (dr_Status d) g (dr_Address d)) in Hev.
  destruct (record_start app w n (dr_Status d) g (dr_Address d) s2) as [u s3] eqn:E2.
  rewrite (run_bind _ _ _ _ _ E2). cbn [snd] in *. intros [= <-]. split.
  - etrans; [exact Ht1|]. etrans; [|exact Ht2].
    apply (frame_registry_upsert (touches {[key]} ∅)).
  - intros Hr. destruct (Hrec Hr) as (a & Ha & Hst & Hg & Hn).
    exists a. split_and!; [done|by rewrite Hg, TrimSpace_idemp|]. eapply (by_worker _ _ _ _ _ _ n d0).
    + destruct (ev_trace _ _ Hev) as [l ->]. apply elem_of_app. by left.
    + done.
    + by rewrite Hst, (coalesce_same _ _ Htr Hne).
Qed.

Lemma place_settles s s' :
  writable s → placeWorkload cfg app w (tc_local cfg) g s = (Ok tt, s') →
  touches {[key]} ∅ s s' ∧ (writes_representable s' → settled o s' (app_Metadata app) g w).
Proof.
  intros Hw. unfold placeWorkload.
  destruct (chooseWorkloadNode cfg w (tc_local cfg) s) as [c s0] eqn:Ec.
  assert (s0 = s) as -> by (unfold chooseWorkloadNode, mbind, M_bind, the_catalog, get, mret, M_ret in Ec;
    cbn in Ec; by injection Ec as _ <-).
  rewrite (run_bind _ _ _ _ _ Ec). destruct c as [chosen|e].
  2: { unfold mbind, M_bind. by destruct (recordDeployFailure app w "" g e s). }
  destruct (applyAssignment_writes (app_Metadata app) w chosen AssignmentStatusAssigned g "" [] s Hw
    app_name workload_name) as (Ht & _).
  destruct (applyWorkloadAssignment (app_Metadata app) w chosen AssignmentStatusAssigned g "" [] s)
    as [u s1] eqn:E1. rewrite (run_bind _ _ _ _ _ E1). cbn [snd] in *.
  pose proof (to_writable _ _ _ _ Ht Hw) as Hw1.
  intros Hd. destruct (negb (chosen =? tc_local cfg)%string);
    [apply deployRemote_settles in Hd|apply deployLocal_settles in Hd]; try done;
    (destruct Hd as [Ht' Hs]; split; [by etrans|done]).
Qed.

(** What is recorded for the workload before the deployment. *)
Lemma canRetry_spec a s retry s' :
  as_Key a = key → canRetryFailedAssignment w a g s = (retry, s') →
  touches ∅ {[restartAttemptKey key g]} s s' ∧
  (retry = false → TrimSpace (as_Generation a) = TrimSpace g ∧
     TrimSpace (as_Status a) = AssignmentStatusFailed ∧ restart_refused s' w key g).
Proof.
  intros Hk. unfold canRetryFailedAssignment, failedAssignmentSameGeneration. rewrite Hk.
  destruct (String.eqb_spec (TrimSpace (as_Generation a)) (TrimSpace g)); cbn [andb negb];
    [|by intros [= <- <-]].
  destruct (String.eqb_spec (TrimSpace (as_Status a)) AssignmentStatusFailed); cbn [andb negb];
    [|by intros [= <- <-]].
  unfold allowWorkloadRestart, restart_refused. destruct (never_restarts w); [intros [= <- <-]; split; [done|]; by auto|].
  rewrite run_get. cbn zeta. destruct (_ && _) eqn:E.
  - intros [= <- <-]. split; [done|]. intros _. split_and!; [done..|right].
    apply andb_true_iff in E as [E1%Z.ltb_lt E2%Z.leb_le]. lia.
  - intros [= <- <-]. split; [|done]. split; [done..|]. intros x Hx. cbn.
    rewrite lookup_insert_ne; [done|set_solver].
Qed.

Lemma handleExisting_settles a s handled s' :
  writable s → getAssignment key (fsm_of s) = Some a → as_Key a = key →
  handleExistingAssignment cfg app w a g o s = (Ok handled, s') →
  touches ∅ {[restartAttemptKey key g]} s s' ∧
  (writes_representable s' → handled = true → settled o s' (app_Metadata app) g w).
Proof.
  intros Hw Ha Hk. unfold handleExistingAssignment.
  destruct (workloadAssignmentConverged a g) eqn:Ec.
  { intros [= <- <-]. split; [done|]. intros _ _. unfold workloadAssignmentConverged in Ec.
    apply andb_true_iff in Ec as [E1%String.eqb_eq E2%String.eqb_eq]. exists a.
    split_and!; [done..|by apply by_running]. }
  destruct (shouldSkipStoppedAssignment a g o) eqn:Es.
  { intros [= <- <-]. split; [done|]. intros _ _. unfold shouldSkipStoppedAssignment in Es.
    apply andb_true_iff in Es as [[E0%negb_true_iff E1%String.eqb_eq]%andb_true_iff E2%String.eqb_eq].
    exists a. split_and!; [done..|by apply by_stop]. }
  destruct (canRetryFailedAssignment w a g s) as [retry s1] eqn:Er. rewrite (run_bind _ _ _ _ _ Er).
  destruct (canRetry_spec a s retry s1 Hk Er) as [Ht1 Href]. destruct retry; cbn [negb].
  2: { intros [= <- <-]. split; [done|]. intros Hrec _. destruct (Href eq_refl) as (Hg & Hf & Hr).
       exists a. split_and!; [|done|by apply by_failure].
       unfold getAssignment in *. by rewrite (to_keys _ _ _ _ Ht1 Hw Hrec). }
  set (delay := if failedAssignmentSameGeneration a g then waitWorkloadRestartDelay w else mret None).
  assert (Hdelay : Frame (touches ∅ {[restartAttemptKey key g]}) delay).
  { subst delay. case_match; [apply (frame_restartDelay (touches _ _))|apply frame_ret, _]. }
  specialize (Hdelay s1). destruct (delay s1) as [delayed s2] eqn:Ed. rewrite (run_bind _ _ _ _ _ Ed).
  destruct delayed as [e|]; [done|]. cbn [snd] in *.
  assert (Hstop : Frame (touches ∅ {[restartAttemptKey key g]}) (stopPreviousGeneration cfg (app_Metadata app) w a g)).
  { unfold stopPreviousGeneration. repeat case_match; first [apply frame_ok, _|apply (frame_stopOnNode cfg (touches _ _))]. }
  specialize (Hstop s2). destruct (stopPreviousGeneration cfg (app_Metadata app) w a g s2) as [[[]|e] s3] eqn:Eq;
    rewrite (run_bind _ _ _ _ _ Eq).
  - intros [= <- <-]. split; [|done]. etrans; [exact Ht1|]. by etrans.
  - unfold mbind, M_bind. by destruct (recordDeployFailure app w (TrimSpace (as_Node a)) g e s3).
Qed.

Lemma deployOne_settles s s' :
  writable s → fsm_inv (state (fsm_of s)) →
  deployOneWorkload cfg app (tc_local cfg) g o w s = (Ok tt, s') →
  touches {[key]} {[restartAttemptKey key g]} s s' ∧ (writes_representable s' → settled o s' (app_Metadata app) g w).
Proof.
  intros Hw Hi. unfold deployOneWorkload.
  rewrite (run_bind _ _ s (getAssignment key (fsm_of s)) s) by done.
  destruct (getAssignment key (fsm_of s)) as [a|] eqn:Ea.
  - assert (Hk : as_Key a = key).
    { unfold getAssignment in Ea. rewrite AssignmentKey_trimmed in Ea. by apply (inv_assign _ Hi) in Ea as [-> _]. }
    destruct (handleExistingAssignment cfg app w a g o s) as [[handled|e] s1] eqn:Eh.
    2: { by erewrite run_try_err by exact Eh. }
    erewrite run_try_ok by exact Eh. destruct (handleExisting_settles a s handled s1 Hw Ea Hk Eh) as [Ht1 Hs].
    pose proof (to_writable _ _ _ _ Ht1 Hw) as Hw1. destruct handled.
    + intros [= <-]. split; [|by intros Hr; apply Hs]. eapply touches_mono; [..|exact Ht1]; set_solver.
    + intros [Ht2 Hs2]%place_settles; [|done]. split; [|done].
      etrans; [eapply touches_mono; [..|exact Ht1]|eapply touches_mono; [..|exact Ht2]]; set_solver.
  - intros [Ht2 Hs2]%place_settles; [|done]. split; [|done]. eapply touches_mono; [..|exact Ht2]; set_solver.
Qed.
End one.

(** *** A whole application *)
Lemma AssignmentKey_workload meta w w' :
  TrimSpace (md_Name meta) ≠ "" → TrimSpace w ≠ "" → TrimSpace w' ≠ "" →
  AssignmentKey meta w = AssignmentKey meta w' → TrimSpace w = TrimSpace w'.
Proof.
  intros Hm Hw Hw'. rewrite !AssignmentKey_eq by done. intros E.
  repeat first [apply (inj (String.append _)) in E | apply (inj (String.String _)) in E]. done.
Qed.

Lemma restartAttemptKey_inj meta meta' w w' g :
  restartAttemptKey (AssignmentKey meta w) g = restartAttemptKey (AssignmentKey meta' w') g →
  AssignmentKey meta w = AssignmentKey meta' w'.
Proof.
  unfold restartAttemptKey. rewrite !(AssignmentKey_trimmed _ _). intros E%(f_equal bytes_of).
  rewrite !bytes_of_app in E. apply app_inv_tail in E.
  rewrite <-(String.string_of_list_ascii_of_string (AssignmentKey meta w)), E.
  apply String.string_of_list_ascii_of_string.
Qed.

Section application.
Context (app : App) (g : string) (o : deployOptions).
Hypothesis app_name : TrimSpace (md_Name (app_Metadata app)) ≠ "".
#[local] Abbreviation keyof := (λ w, AssignmentKey (app_Metadata app) (w_Name w)).

Lemma deployOrdered_settles ws s s' :
  writable s → fsm_inv (state (fsm_of s)) → well_named ws →
  deployOrderedWorkloads cfg app ws g o s = (Ok tt, s') →
  touches (list_to_set (keyof <$> ws)) (list_to_set ((λ w, restartAttemptKey (keyof w) g) <$> ws)) s s' ∧
  (writes_representable s' → Forall (settled o s' (app_Metadata app) g) ws).
Proof.
  revert s. induction ws as [|w ws IH]; intros s Hw Hi Hn; unfold deployOrderedWorkloads; cbn [each_err].
  { intros [= <-]. split; [done|by constructor]. }
  destruct Hn as [[Hwn Hall]%Forall_cons [Hfresh Hnd]%NoDup_cons].
  pose proof (frame_deployOne cfg evolves app (tc_local cfg) g o w s) as Hev1.
  destruct (deployOneWorkload cfg app (tc_local cfg) g o w s) as [[[]|e] s1] eqn:E1.
  2: { by erewrite run_try_err by exact E1. }
  erewrite run_try_ok by exact E1. fold (deployOrderedWorkloads cfg app ws g o). intros E2.
  destruct (deployOne_settles app w g o app_name Hwn s s1 Hw Hi E1) as [Ht1 Hs1].
  pose proof (to_writable _ _ _ _ Ht1 Hw) as Hw1. cbn [snd] in *.
  destruct (IH s1 Hw1) as [Ht2 Hs2]; [eapply extends_inv; [apply Hev1|done]|by split|done|].
  assert (Hev2 : evolves s1 s').
  { pose proof (frame_each_err evolves _ ws (frame_deployOne cfg evolves app (tc_local cfg) g o) s1) as Hev2.
    unfold deployOrderedWorkloads in E2. by rewrite E2 in Hev2. }
  assert (Hkey : ∀ w', w' ∈ ws → keyof w' ≠ keyof w).
  { intros w' Hw' E. rewrite Forall_forall in Hall. apply AssignmentKey_workload in E; [|done|by apply Hall|done].
    apply Hfresh. apply list_elem_of_fmap. by exists w'. }
  split.
  - cbn [fmap list_fmap list_to_set]. etrans; [eapply touches_mono; [..|exact Ht1]|eapply touches_mono; [..|exact Ht2]];
      set_solver.
  - intros Hr. constructor; [|by apply Hs2].
    eapply settled_touches; [exact Ht2|done|done|done| | |by eapply Hs1, touches_writes_representable].
    + rewrite elem_of_list_to_set. intros (w' & E & Hw')%list_elem_of_fmap. by apply (Hkey w').
    + rewrite elem_of_list_to_set. intros (w' & E%restartAttemptKey_inj & Hw')%list_elem_of_fmap. by apply (Hkey w').
Qed.
End application.

Lemma deployApp_settles `{!GraphLaws} app o s s' :
  writable s → fsm_inv (state (fsm_of s)) →
  deployAppWorkloadsWithOptions cfg app o s = (Ok tt, s') → writes_representable s' →
  ∀ w, w ∈ app_Workloads app → settled o s' (app_Metadata app) (AppGeneration app) w.
Proof.
  intros Hw Hi. unfold deployAppWorkloadsWithOptions, prepareDeploy.
  destruct (Validate app) as [[]|e] eqn:Hv; [|done].
  pose proof (frame_RefreshLocal cfg (touches ∅ ∅) s) as Ht. pose proof (frame_RefreshLocal cfg evolves s) as Hev.
  destruct (RefreshLocal cfg s) as [r s1] eqn:Er. cbn [snd] in *.
  pose proof (to_writable _ _ _ _ Ht Hw) as Hw1.
  destruct (WorkloadsInDependencyOrder app) as [ws|e] eqn:Ho.
  2: { unfold try, wrapM, mbind, M_bind. cbn. by rewrite Er. }
  rewrite (run_try_ok _ _ s (ws, AppGeneration app) s1)
    by (unfold try, wrapM, mbind, M_bind; cbn; by rewrite Er).
  destruct (order_ok_spec _ _ Ho) as (Hp & _ & [Hne Hu] & _).
  intros [_ Hs]%deployOrdered_settles; [| |done| |].
  - intros Hr w Hin. rewrite <-Hp in Hin. specialize (Hs Hr). rewrite Forall_forall in Hs. by apply Hs.
  - apply nameRe_nonblank. by apply va_name, Validate_sound.
  - eapply extends_inv; [apply Hev|done].
  - split; by rewrite Hp.
Qed.
End converge.
