(* ===== verification/TaskSubmitSpec.v ===== *)
(** * What the handlers write

    Submitting and rolling back a document, the clean-up of a failed start, the guards against
    stale failures, and the plan of a migration. *)
From stdpp Require Import base strings numbers gmap list.
From Stdlib Require Import Ascii.
From S2P Require Import Prelude GoStrings GoTime GoNet GoList Deploy Dependency Validate Meta Placement Fsm FsmSpec RaftService RaftSpec TaskBase TaskRun TaskDeploy TaskOps TaskViews TaskFrame TaskPorts TaskOrder.

(** ** Submitting *)
Section submit.
Context `{Digest, CodecLaws} `{!World, !WorldLaws} `{ListSort, GraphLib}.

Lemma raft_ApplyDeployApp_run app s :
  let p := ApplyDeployApp (w_nodeHost (ts_trace s)) app (ts_raft s) in
  (raft_ApplyDeployApp app s).1 = p.1 ∧ ts_raft (raft_ApplyDeployApp app s).2 = p.2.
Proof.
  cbn zeta. unfold raft_ApplyDeployApp.
  destruct (ApplyDeployApp (w_nodeHost (ts_trace s)) app (ts_raft s)) as [r rs] eqn:E.
  by erewrite run_raft_call by exact E.
Qed.

Lemma Validate_name app : Validate app = Ok tt → TrimSpace (md_Name (app_Metadata app)) ≠ "".
Proof.
  intros Ev. unfold Validate, validateMetadata in Ev. res_ok Ev. destruct Ev as [[Hb _] _].
  unfold blank in Hb. by apply String.eqb_neq in Hb.
Qed.

(** The three stages of a submission. *)
Lemma SubmitDeploy_cases app s :
  (∃ e, Validate app = Err e ∧ SubmitDeploy app s = (Err (Wrapf e "validate app" []), s)) ∨
  (∃ e s', Validate app = Ok tt ∧ preflightDeploy app s = (Err e, s') ∧ ts_raft s' = ts_raft s ∧
     SubmitDeploy app s = (Err (Wrapf e "preflight deploy" []), s')) ∨
  (∃ s1, Validate app = Ok tt ∧ preflightDeploy app s = (Ok tt, s1) ∧ ts_raft s1 = ts_raft s ∧
     SubmitDeploy app s =
       (wrap "replicate deploy" [] (raft_ApplyDeployApp app s1).1, (raft_ApplyDeployApp app s1).2)).
Proof.
  unfold SubmitDeploy. destruct (Validate app) as [[]|e] eqn:Ev.
  2: { left. exists e. split; [done|].
       by erewrite run_try_err by (apply run_wrapM_err; reflexivity). }
  right. erewrite run_try_ok by (apply run_wrapM_ok; reflexivity).
  pose proof (preflight_raft app s) as Hraft.
  destruct (preflightDeploy app s) as [[[]|e] s1] eqn:Ep; cbn in Hraft.
  - right. exists s1. split_and!; [done..|]. erewrite run_try_ok by (apply run_wrapM_ok; exact Ep).
    destruct (raft_ApplyDeployApp app s1) as [r s2] eqn:Ea. by erewrite run_wrapM by exact Ea.
  - left. exists e, s1. split_and!; [done..|].
    by erewrite run_try_err by (apply run_wrapM_err; exact Ep).
Qed.

Lemma SubmitDeploy_stores app s :
  representable (CUpsertApp app) → (SubmitDeploy app s).1 = Ok tt →
  Validate app = Ok tt ∧ getDeployApp (app_Metadata app) (fsm_of (SubmitDeploy app s).2) = Some app.
Proof.
  intros Hr.
  destruct (SubmitDeploy_cases app s) as [(e & _ & ->)|[(e & s' & _ & _ & _ & ->)|(s1 & Hv & _ & _ & ->)]];
    [done..|]. cbn [fst snd]. rewrite wrap_ok. intros Hok. split; [done|].
  destruct (raft_ApplyDeployApp_run app s1) as [Hres Hraft]. unfold fsm_of. rewrite Hraft.
  apply deploy_visible; [apply w_propose_ok|done|by apply Validate_name|by rewrite <-Hres].
Qed.

(** A rollback that succeeds makes the previous revision the desired document. *)
Lemma SubmitRollback_restores meta s :
  (∀ rev, previousDeployApp (normalizeOperationMetadata meta) (fsm_of s) = Some rev →
     representable (CUpsertApp (rev_App rev))) →
  fsm_inv (state (fsm_of s)) →
  (SubmitRollback meta s).1 = Ok tt →
  ∃ rev, previousDeployApp (normalizeOperationMetadata meta) (fsm_of s) = Some rev ∧
    getDeployApp (normalizeOperationMetadata meta) (fsm_of (SubmitRollback meta s).2) = Some (rev_App rev).
Proof.
  intros Hrep Hinv. unfold SubmitRollback. set (m := normalizeOperationMetadata meta).
  destruct (_ =? _)%string; [done|].
  rewrite (run_bind _ _ s (previousDeployApp m (fsm_of s)) s) by done.
  destruct (previousDeployApp m (fsm_of s)) as [rev|] eqn:Ep; [|done].
  destruct (suppressAutoRollback m (rev_Generation rev) s) as [[] s1] eqn:Es.
  assert (Hs1 : fsm_of s1 = fsm_of s).
  { revert Es. unfold suppressAutoRollback. destruct (_ =? _)%string; by intros [= <-]. }
  rewrite (run_bind _ _ _ _ _ Es).
  destruct (SubmitDeploy (rev_App rev) s1) as [r s2] eqn:Ed.
  erewrite run_wrapM by exact Ed. cbn [fst snd]. rewrite wrap_ok. intros ->.
  pose proof (SubmitDeploy_stores (rev_App rev) s1 (Hrep _ Ep)) as Hst. rewrite Ed in Hst.
  destruct (Hst eq_refl) as [_ Hget]. exists rev. split; [done|].
  unfold getDeployApp in *. cbn [snd] in Hget. rewrite <-Hget. f_equal.
  destruct (revisions_of_ok (state (fsm_of s)) (deployAppMapKey m) Hinv) as [E|(_ & Hok & _)].
  - unfold previousDeployApp in Ep. by rewrite E in Ep.
  - apply last_Some_elem_of in Ep. rewrite Forall_forall in Hok. by apply Hok in Ep as (_ & _ & ->).
Qed.
End submit.

(** ** Starting locally *)

(** The calls to the local runtime. *)
Inductive run_step := RunStart (succeeded : bool) | RunStop (name : string).
Definition obs_run (e : event) : option run_step :=
  match e with
  | EvDeploy _ _ r => Some (RunStart (is_ok r))
  | EvStop _ _ name _ => Some (RunStop name)
  | _ => None
  end.

Section run_local.
Context `{Digest, World} `{ListSort}.

#[local] Instance run_unseen_call k :
  TCOr (TCEq k KProbe) (TCEq k KSleep) → RCall k (unseen obs_run).
Proof. unseen_kinds. Qed.

(** Start once; when the workload does not become ready, stop it. *)
Lemma runLocal_steps m w n :
  observes obs_run (runLocalWorkload m w n) (λ r l,
    match r with
    | Ok _ => l = [RunStart true]
    | Err _ => l = [RunStart false] ∨ l = [RunStart true; RunStop (w_Name w)]
    end).
Proof.
  unfold runLocalWorkload, deployLocalWorkload.
  eapply observes_bind.
  { eapply observes_bind; [apply wrap_observes, (call_observes obs_run)|].
    intros r l (r' & -> & ->). instantiate (1 := λ r l, l = [RunStart (is_ok r)]).
    destruct r' as [[]|e]; cbn.
    - apply observes_after; [apply frame_registry_upsert; apply _|]. intros _. by apply observes_ret.
    - by apply observes_ret. }
  intros [[]|e] l ->; cbn; [|by apply observes_ret; left].
  apply observes_after; [apply frame_get_bind; intros; reflexivity|]. intros addr.
  apply observes_after; [apply (frame_readiness _)|]. intros [[]|e]; [by apply observes_ret|].
  eapply observes_bind with (P := λ _ l, l = [RunStop (w_Name w)]).
  - unfold stopLocalWorkload. apply observes_after; [apply frame_stopMonitor; apply _|]. intros _.
    eapply observes_bind; [apply wrap_observes, (call_observes obs_run)|].
    intros r l (r' & -> & ->). destruct r' as [[]|e']; cbn; [|by apply observes_ret].
    apply observes_after; [apply frame_registry_delete; apply _|]. intros _. by apply observes_ret.
  - intros _ l ->. apply observes_ret. by right.
Qed.
End run_local.

(** ** Late failures *)
Section stale.
Context `{Digest, World} `{ListSort, GraphLib} (cfg : TaskConfig).

Lemma stopMonitor_raft m n s :
  ts_raft (stopWorkloadHealthMonitor m n s).2 = ts_raft s ∧
  ts_trace (stopWorkloadHealthMonitor m n s).2 = ts_trace s.
Proof. unfold stopWorkloadHealthMonitor. by destruct (_ =? _)%string. Qed.

(** A failure on one node says nothing about a workload that has meanwhile converged on
    another one. *)
Lemma recordFailure_stale app w node g e a s :
  getAssignment (AssignmentKey (app_Metadata app) (w_Name w)) (fsm_of s) = Some a →
  assignmentConvergedOnDifferentNode a node g = true →
  let s' := (recordDeployFailure app w node g e s).2 in
  ts_raft s' = ts_raft s ∧ ts_trace s' = ts_trace s.
Proof.
  intros Ha Hc. cbn zeta. unfold recordDeployFailure.
  destruct (stopMonitor_raft (app_Metadata app) (w_Name w) s) as [Hr Ht].
  destruct (stopWorkloadHealthMonitor (app_Metadata app) (w_Name w) s) as [[] s1] eqn:E.
  cbn in Hr, Ht. rewrite (run_bind _ _ _ _ _ E).
  rewrite (run_bind _ _ s1 true s1); [done|].
  unfold skipStaleDeployFailure, workloadAssignment, raft_GetWorkloadAssignment, mbind, M_bind, get.
  cbn [mret M_ret]. unfold fsm_of in *. rewrite Hr, Ha. by rewrite Hc.
Qed.

(** The assignment a health target watches is still the one it was started for. *)
Definition watched (t : workloadHealthTarget) (a : Assignment) : Prop :=
  TrimSpace (as_Node a) = ht_nodeID t ∧
  (ht_generation t = "" ∨ TrimSpace (as_Generation a) = ht_generation t) ∧
  TrimSpace (as_Status a) = AssignmentStatusRunning.

Lemma stillCurrent_spec t s :
  ∃ b, healthAssignmentStillCurrent t s = (b, s) ∧
    (b = true ↔ ∀ a, getAssignment (ht_key t) (fsm_of s) = Some a → watched t a).
Proof.
  unfold healthAssignmentStillCurrent, raft_GetWorkloadAssignment, mbind, M_bind, get. cbn.
  eexists. split; [done|]. destruct (getAssignment (ht_key t) (fsm_of s)) as [a|]; [|naive_solver].
  unfold watched.
  destruct (String.eqb_spec (TrimSpace (as_Node a)) (ht_nodeID t)); cbn; [|naive_solver].
  destruct (String.eqb_spec (ht_generation t) ""); cbn;
    [rewrite String.eqb_eq; naive_solver|].
  destruct (String.eqb_spec (TrimSpace (as_Generation a)) (ht_generation t)); cbn;
    [rewrite String.eqb_eq; naive_solver|naive_solver].
Qed.

(** A failed health check of a superseded run writes nothing to the replicated state. *)
Lemma healthFailure_stale t phase e a s :
  getAssignment (ht_key t) (fsm_of s) = Some a → ¬ watched t a →
  ts_raft (failLocalWorkloadHealth t phase e s).2 = ts_raft s.
Proof.
  intros Ha Hw. unfold failLocalWorkloadHealth. cbn zeta.
  set (m := app_Metadata (ht_app t)). set (w := ht_workload t).
  destruct (runtime_Stop (w_Runtime w) m (w_Name w) s) as [r s1] eqn:E1.
  assert (ts_raft s1 = ts_raft s) as Hr1 by (by injection E1 as _ <-).
  rewrite (run_bind _ _ _ _ _ E1).
  destruct (registry_Delete (w_Name w) s1) as [[] s2] eqn:E2.
  assert (ts_raft s2 = ts_raft s) as Hr2.
  { rewrite <-Hr1. revert E2. unfold registry_Delete. by destruct (_ =? _)%string; intros [= <-]. }
  rewrite (run_bind _ _ _ _ _ E2). destruct (stillCurrent_spec t s2) as (b & Hb & Hiff).
  rewrite (run_bind _ _ _ _ _ Hb). destruct b; [|done].
  destruct Hw. apply Hiff; [done|]. unfold fsm_of in *. by rewrite Hr2.
Qed.
End stale.

(** ** The plan of a migration *)
Section plan.
Context `{Digest, World} `{ListSort, GraphLib} (cfg : TaskConfig).

(** The workload is assigned, and to this node already. *)
Definition placed_on (s : TaskState) (meta : Metadata) (target : string) (w : Workload) : bool :=
  match getAssignment (AssignmentKey meta (w_Name w)) (fsm_of s) with
  | Some a => ((if (TrimSpace (as_Node a) =? "")%string then tc_local cfg else TrimSpace (as_Node a))
               =? target)%string
  | None => false
  end.

Lemma plan_to meta target acc ws s :
  trimmed target → target ≠ "" →
  ∃ plans first,
    planWorkloadMoves cfg meta (λ _, mret (Ok target)) acc ws s = ((acc.1 ++ plans, first, Ok tt), s) ∧
    mv_workload <$> plans = filter (λ w, placed_on s meta target w = false) ws ∧
    Forall (λ p, mv_target p = target) plans.
Proof.
  intros Ht Hne. revert acc. induction ws as [|w ws IH]; intros [l f].
  { exists [], f. cbn. by rewrite app_nil_r. }
  cbn [planWorkloadMoves].
  assert (Hstep : plan_step cfg meta (λ _, mret (Ok target)) (l, f) w s =
    (Ok (if placed_on s meta target w then (l, f)
         else (l ++ [mkMove w
           (match getAssignment (AssignmentKey meta (w_Name w)) (fsm_of s) with
            | Some a => if (TrimSpace (as_Node a) =? "")%string then tc_local cfg else TrimSpace (as_Node a)
            | None => tc_local cfg end) target
           (if getAssignment (AssignmentKey meta (w_Name w)) (fsm_of s) is Some _ then true else false)],
           if (f =? "")%string then target else f)), s)).
  { unfold plan_step, normalizeMoveTarget, try, mbind, M_bind. cbn [mret M_ret].
    rewrite Ht, (proj2 (String.eqb_neq _ _) Hne). cbn [mret M_ret].
    unfold currentWorkloadAssignmentNode, workloadAssignment, raft_GetWorkloadAssignment, mbind, M_bind, get.
    cbn [mret M_ret]. unfold placed_on. destruct (getAssignment _ _) as [a|]; [|done].
    destruct (TrimSpace (as_Node a) =? "")%string; cbn [andb]; by destruct (_ =? target)%string. }
  rewrite (run_bind _ _ _ _ _ Hstep). rewrite filter_cons.
  destruct (placed_on s meta target w) eqn:Ep.
  - destruct (decide (true = false)); [done|]. apply IH.
  - destruct (decide (false = false)); [|done].
    edestruct IH as (plans & first & -> & Hw & Hf). eexists (_ :: plans), first.
    split; [cbn [fst]; by rewrite <-app_assoc|]. split; [by rewrite fmap_cons, Hw|by constructor].
Qed.
End plan.
