(* ===== verification/Dns.v ===== *)
(** * The DNS service
    (internal/dnssvc: workload_dns.go, forwarding_handler.go, orchvpn_routes.go,
     workload_resolver.go, service.go; internal/config/dns.go)

    Names of workloads, the table of their A records, the lookup that falls back to replicated
    assignments, the handler of one query, and the resolver settings given to workloads.  The
    record store, the resolver and the DNS client (packages dnsx and miekg/dns) answer as
    parameters. *)
From stdpp Require Import base strings numbers gmap list.
From Stdlib Require Import Ascii.
From S2P Require Import Prelude GoStrings GoTime GoNet GoList Deploy Meta GoText.

(** [strings.Trim(s, "[]")] *)
Fixpoint trim_set (cut : list ascii) (l : list ascii) : list ascii :=
  match l with
  | a :: r => if existsb (Ascii.eqb a) cut then trim_set cut r else l
  | [] => []
  end.
Definition TrimSet (s : string) (cut : list ascii) : string :=
  of_bytes (reverse (trim_set cut (reverse (trim_set cut (bytes_of s))))).

(** [list.FilterMapList] with a set of the values already kept *)
Fixpoint filter_unique (f : string → option string) (seen : gset string) (l : list string) : list string :=
  match l with
  | [] => []
  | x :: r =>
      match f x with
      | Some y => if bool_decide (y ∈ seen) then filter_unique f seen r
                  else y :: filter_unique f ({[y]} ∪ seen) r
      | None => filter_unique f seen r
      end
  end.

Record DNSConfig := mkDNSConfig {
  dns_Enabled : bool; dns_Listen : string; dns_Zone : string; dns_Nameserver : string;
  dns_Search : list string; dns_Upstream : list string; dns_AdvertiseAddress : string }.

(** ** config/dns.go *)
Section config.
Context `{UnicodeLower}.

(** [strings.Trim(strings.ToLower(strings.TrimSpace(s)), ".")] *)
Definition domain_of (s : string) : string := TrimByte (ToLower (TrimSpace s)) ".".

Definition ZoneName (c : DNSConfig) : string :=
  let z := domain_of (dns_Zone c) in if (z =? "")%string then "orch.local" else z.

Definition normalizeDNSNameserver (raw : string) (allowLoopback : bool) : option string :=
  let s := TrimSpace raw in
  if (s =? "")%string then None
  else
    host ← match SplitHostPort s with
           | Ok (host, port) => if negb (port =? "")%string && negb (port =? "53")%string
                                then None else Some host
           | Err _ => Some s
           end;
    ip ← ParseIP (TrimSet (TrimSpace host) (bytes_of "[]"));
    if negb allowLoopback && (IsLoopback ip || IsUnspecified ip) then None
    else Some (IPString ip).

Definition workloadNameserverFromListen (listen : string) : option string :=
  match SplitHostPort (TrimSpace listen) with
  | Ok (host, port) => if negb (port =? "53")%string then None else normalizeDNSNameserver host false
  | Err _ => None
  end.

Definition config_WorkloadNameserver (c : DNSConfig) : option string :=
  match normalizeDNSNameserver (dns_Nameserver c) true with
  | Some ns => Some ns
  | None => workloadNameserverFromListen (dns_Listen c)
  end.

Definition normalizeDNSDomains (domains : list string) : list string :=
  filter_unique (λ d, let d := domain_of d in if (d =? "")%string then None else Some d) ∅ domains.

Definition WorkloadSearchDomainList (c : DNSConfig) (namespace : string) : list string :=
  if (0 <? length (dns_Search c))%nat then normalizeDNSDomains (dns_Search c)
  else
    let ns := domain_of namespace in
    let ns := if (ns =? "")%string then "default" else ns in
    let zone := ZoneName c in
    normalizeDNSDomains [ns +:+ ".svc." +:+ zone; "svc." +:+ zone; zone].

(** [lookupPort] is [net.DefaultResolver.LookupPort(ctx, "udp", port)]. *)
Definition normalizeDNSUpstream (lookupPort : string → option Z) (raw : string) : option string :=
  let s := TrimSpace raw in
  if (s =? "")%string then None
  else
    let '(host, port) := match SplitHostPort s with Ok hp => hp | Err _ => (s, "53") end in
    let host := TrimSet (TrimSpace host) (bytes_of "[]") in
    if (host =? "")%string then None
    else
      ip ← ParseIP host;
      p ← lookupPort (if (port =? "")%string then "53" else port);
      if (p <=? 0)%Z || (65535 <? p)%Z then None
      else Some (JoinHostPort (IPString ip) (Itoa p)).

Definition WorkloadUpstreamList (lookupPort : string → option Z) (c : DNSConfig) : list string :=
  filter_unique (normalizeDNSUpstream lookupPort) ∅ (dns_Upstream c).

(** ** workload_resolver.go *)
Definition WorkloadNameserver (c : DNSConfig) : option string :=
  if negb (dns_Enabled c) then None else config_WorkloadNameserver c.
Definition WorkloadSearchDomains (c : DNSConfig) (namespace : string) : list string :=
  if negb (dns_Enabled c) then [] else WorkloadSearchDomainList c namespace.
Definition WorkloadAdvertiseAddress (c : DNSConfig) (fallback : string) : string :=
  if negb (dns_Enabled c) then TrimSpace fallback
  else let addr := TrimSpace (dns_AdvertiseAddress c) in
       if negb (addr =? "")%string then addr else TrimSpace fallback.

(** ** workload_dns.go: names *)
Definition dns_namespace (namespace : string) : string :=
  let ns := TrimSpace namespace in if (ns =? "")%string then "default" else ns.

Definition workloadRecordKey (namespace workloadName : string) : string :=
  ToLower (dns_namespace namespace) +:+ "/" +:+ ToLower (TrimSpace workloadName).

Definition workloadServiceFQDN (namespace workloadName zone : string) : string :=
  ToLower (TrimSpace workloadName) +:+ "." +:+ ToLower (dns_namespace namespace) +:+ ".svc."
  +:+ TrimByte (ToLower zone) ".".

Definition parseWorkloadServiceFQDN (name zone : string) : option (string * string) :=
  let queryName := domain_of name in
  let base := domain_of zone in
  if (queryName =? "")%string || (base =? "")%string then None
  else
    let suffix := ".svc." +:+ base in
    if negb (HasSuffix queryName suffix) then None
    else
      let left := TrimByte (TrimSuffix queryName suffix) "." in
      match Split left "." with
      | [workload; namespace] =>
          if (workload =? "")%string || (namespace =? "")%string then None else Some (namespace, workload)
      | _ => None
      end.
End config.

(** ** workload_dns.go: the table of records *)
Definition TypeA : Z := 1.
Definition TypeANY : Z := 255.

Record DnsRecord := mkDnsRecord {
  rec_Zone : string; rec_Name : string; rec_TTL : Z; rec_Type : Z; rec_Data : string }.

(** Package dnsx: the normal form of a record and its key in the store. *)
Class DnsLib := {
  NormalizeRecord : DnsRecord → res DnsRecord;
  RecordKey : DnsRecord → string;
}.
(** Documented: normalising an A record keeps its type and the address. *)
Class DnsLibLaws `{DnsLib} := {
  normalize_data r r' : rec_Type r = TypeA → NormalizeRecord r = Ok r' →
    rec_Data r' = rec_Data r ∧ rec_Type r' = TypeA;
}.

(** Calls to the record store that succeeded. *)
Inductive store_op := SaveRecord (r : DnsRecord) | DeleteRecord (r : DnsRecord).

(** [ds_store]: the store is open; [ds_serving]: the server runs; [ds_started]: the flag. *)
Record DnsService := mkDns {
  ds_store : bool; ds_serving : bool; ds_started : bool;
  ds_records : gmap string DnsRecord; ds_log : list store_op }.

Definition NewDns : DnsService := mkDns false false false ∅ [].

Definition set_records rs (s : DnsService) : DnsService :=
  mkDns (ds_store s) (ds_serving s) (ds_started s) rs (ds_log s).
Definition log_store op (s : DnsService) : DnsService :=
  mkDns (ds_store s) (ds_serving s) (ds_started s) (ds_records s) (ds_log s ++ [op]).

Section service.
Context `{UnicodeLower, DnsLib} (cfg : DNSConfig).
(** The store's answers. *)
Variable save : DnsRecord → res unit.
Variable delete_record : DnsRecord → res unit.

Definition UpsertWorkloadA (namespace workloadName ipv4 : string) (s : DnsService) : res unit * DnsService :=
  if negb (dns_Enabled cfg) || negb (ds_store s) then (Ok tt, s)
  else if (TrimSpace ipv4 =? "")%string
    then (Err (Errorf "workload %q: empty ipv4" [AStr workloadName]), s)
  else
    let zone := ZoneName cfg in
    let rec := mkDnsRecord zone (workloadServiceFQDN namespace workloadName zone) 60 TypeA (TrimSpace ipv4) in
    match NormalizeRecord rec with
    | Err e => (Err (Wrapf e "dns workload record" []), s)
    | Ok norm =>
        let key := workloadRecordKey namespace workloadName in
        match save norm with
        | Err e => (Err (Wrapf e "save workload record" []), s)
        | Ok _ =>
            let s1 := log_store (SaveRecord norm) s in
            let s2 := match ds_records s !! key with
                      | Some prev =>
                          if negb (RecordKey prev =? RecordKey norm)%string && is_ok (delete_record prev)
                          then log_store (DeleteRecord prev) s1 else s1
                      | None => s1
                      end in
            (Ok tt, set_records (<[key := norm]> (ds_records s2)) s2)
        end
    end.

Definition RemoveWorkloadA (namespace workloadName : string) (s : DnsService) : res unit * DnsService :=
  if negb (dns_Enabled cfg) || negb (ds_store s) then (Ok tt, s)
  else
    let key := workloadRecordKey namespace workloadName in
    match ds_records s !! key with
    | None => (Ok tt, s)
    | Some prev =>
        match delete_record prev with
        | Err e => (Err (Wrapf e "delete workload record" []), s)
        | Ok _ => (Ok tt, set_records (delete key (ds_records s)) (log_store (DeleteRecord prev) s))
        end
    end.

(** *** Lookups *)
Definition lookupLocalWorkloadIPv4 (namespace workloadName : string) (s : DnsService) : option string :=
  rec ← ds_records s !! workloadRecordKey namespace workloadName;
  let ip := TrimSpace (rec_Data rec) in
  if is_IPv4 ip then Some ip else None.

Definition assignmentMatchesWorkloadDNS (a : Assignment) (namespace workload : string) : bool :=
  (NamespaceOrDefault (md_Namespace (as_Metadata a)) =? namespace)%string
  && (TrimSpace (as_Workload a) =? workload)%string
  && (TrimSpace (as_Status a) =? AssignmentStatusRunning)%string.

Definition assignmentWorkloadIPv4 (namespace workload : string) (a : Assignment) : option string :=
  if negb (assignmentMatchesWorkloadDNS a namespace workload) then None
  else let address := TrimSpace (as_Address a) in if is_IPv4 address then Some address else None.

(** [assignments] is the replicated list; [None] when the service was built without it. *)
Definition lookupAssignmentWorkloadIPv4 (assignments : option (list Assignment)) (namespace workloadName : string)
    : option string :=
  l ← assignments;
  let target := TrimSpace workloadName in
  if (target =? "")%string then None
  else
    out ← head (omap (assignmentWorkloadIPv4 (NamespaceOrDefault namespace) target) l);
    if (out =? "")%string then None else Some out.

Definition LookupWorkloadIPv4 (assignments : option (list Assignment)) (namespace workloadName : string)
    (s : DnsService) : option string :=
  match lookupLocalWorkloadIPv4 namespace workloadName s with
  | Some ip => Some ip
  | None => lookupAssignmentWorkloadIPv4 assignments namespace workloadName
  end.

(** ** orchvpn_routes.go: [order] is what the iteration of the set produced *)
Definition host_route (r : DnsRecord) : option string :=
  if negb (rec_Type r =? TypeA)%Z then None
  else
    let raw := TrimSpace (rec_Data r) in
    if (raw =? "")%string then None
    else ip ← To4 raw; Some (IPString ip +:+ "/32").

Definition host_route_set (s : DnsService) : gset string :=
  list_to_set (omap host_route (map_to_list (ds_records s)).*2).

Definition WorkloadIPv4HostRouteList `{ListSort} (order : gset string → list string) (s : DnsService)
    : list string :=
  list_sort Compare (order (host_route_set s)).

(** ** service.go: starting and stopping *)
Record start_answers := mkStart {
  st_mkdir : res unit; st_open : res unit; st_server : res unit; st_seed : res unit }.

Definition set_running store serving started (s : DnsService) : DnsService :=
  mkDns store serving started (ds_records s) (ds_log s).

Definition dns_Start (a : start_answers) (s : DnsService) : res unit * DnsService :=
  if negb (dns_Enabled cfg) then (Ok tt, s)
  else if ds_started s then (Ok tt, s)
  else
    match st_mkdir a with
    | Err e => (Err (Wrapf e "mkdir dns data dir" []), s)
    | Ok _ =>
        match st_open a with
        | Err e => (Err (Wrapf e "open dns store" []), s)
        | Ok _ =>
            match st_server a with
            | Err e => (Err (Wrapf e "start dns server" []), s)
            | Ok _ =>
                let s' := set_running true true true s in
                (wrap "seed zone record" [] (st_seed a), s')
            end
        end
    end.

(** The fields keep the closed server and store. *)
Definition dns_Stop (stopServer closeStore : res unit) (s : DnsService) : res unit * DnsService :=
  if negb (ds_started s) then (Ok tt, s)
  else
    match (if ds_serving s then wrap "stop dns server" [] stopServer else Ok tt) with
    | Err e => (Err e, s)
    | Ok _ =>
        match (if ds_store s then wrap "close dns store" [] closeStore else Ok tt) with
        | Err e => (Err e, s)
        | Ok _ => (Ok tt, set_running (ds_store s) (ds_serving s) false s)
        end
    end.
End service.

(** ** forwarding_handler.go *)
Definition OpcodeQuery : Z := 0.
Definition RcodeSuccess : Z := 0.
Definition RcodeFormatError : Z := 1.
Definition RcodeServerFailure : Z := 2.
Definition RcodeNameError : Z := 3.
Definition RcodeNotImplemented : Z := 4.
Definition RcodeRefused : Z := 5.

Record Question := mkQuestion { q_Name : string; q_Type : Z }.

Section handler.
(** Resource records of the resolver, and messages of upstream servers. *)
Context {RR Msg : Type} `{UnicodeLower, DnsLib}.

Record Resolution := mkResolution {
  rz_RCode : Z; rz_Authoritative : bool; rz_Answer : list RR; rz_Authority : list RR; rz_Extra : list RR }.

(** An answer record: the handler's own A record, or one of the resolver's. *)
Inductive answer := AnswerA (name : string) (ttl : Z) (ip : list Z) | AnswerRR (r : RR).

(** What the client gets: a message of this server, or an upstream's with recursion marked. *)
Inductive reply :=
| Reply (rcode : Z) (authoritative recursionAvailable : bool) (answers : list answer) (ns extra : list RR)
| Relay (m : Msg).

(** [resolver] is [None] when there is none; [exchange] asks an upstream over a network and gives
    the message, if any, and the error, if any; [Fqdn] is [dns.Fqdn]. *)
Record handler := mkHandler {
  fh_resolver : option (Question → res Resolution);
  fh_upstreams : list string;
  fh_zone : string;
  fh_workloads : option (string → string → option string) }.

Variable truncated : Msg → bool.
Variable exchange : string → string → option Msg * option error.
Variable Fqdn : string → string.

Definition newForwardingHandler resolver upstreams (zone : string) workloads : handler :=
  let zone := domain_of zone in
  mkHandler resolver upstreams (if (zone =? "")%string then "orch.local" else zone) workloads.

Definition exchangeUpstreamDNSNet (network upstream : string) : option Msg * option error :=
  let '(m, e) := exchange network upstream in
  (m, (λ e, Wrapf e "exchange upstream dns over %s: %w" [AStr network]) <$> e).

Definition exchangeUpstreamDNS (upstream : string) : option Msg * option error :=
  match exchangeUpstreamDNSNet "udp" upstream with
  | (Some m, None) => if truncated m then exchangeUpstreamDNSNet "tcp" upstream else (Some m, None)
  | r => r
  end.

Fixpoint firstUpstreamResponse (upstreams : list string) (lastErr : option error)
    : option Msg * option error :=
  match upstreams with
  | [] => (None, lastErr)
  | u :: r =>
      match exchangeUpstreamDNS u with
      | (Some m, None) => (Some m, lastErr)
      | (_, e) => firstUpstreamResponse r e
      end
  end.

Definition forward (h : handler) : reply :=
  match (firstUpstreamResponse (fh_upstreams h) None).1 with
  | Some m => Relay m
  | None => Reply RcodeServerFailure false true [] [] []
  end.

Definition writeDynamicWorkloadA (h : handler) (q : Question) (recursionAvailable : bool) (rcode : Z)
    : option reply :=
  workloads ← fh_workloads h;
  if negb (rcode =? RcodeNameError)%Z && negb (rcode =? RcodeRefused)%Z then None
  else if negb (q_Type q =? TypeA)%Z && negb (q_Type q =? TypeANY)%Z then None
  else
    '(namespace, workload) ← parseWorkloadServiceFQDN (q_Name q) (fh_zone h);
    address ← workloads namespace workload;
    ip ← To4 address;
    Some (Reply RcodeSuccess true recursionAvailable [AnswerA (Fqdn (q_Name q)) 60 ip] [] []).

Definition ServeDNS (h : handler) (opcode : Z) (questions : list Question) : reply :=
  let ra := (0 <? length (fh_upstreams h))%nat in
  if negb (opcode =? OpcodeQuery)%Z then Reply RcodeNotImplemented false ra [] [] []
  else match questions with
  | [] => Reply RcodeFormatError false ra [] [] []
  | q :: _ =>
      match fh_resolver h with
      | None => Reply RcodeRefused false ra [] [] []
      | Some resolve =>
          match resolve q with
          | Err _ => Reply RcodeServerFailure false ra [] [] []
          | Ok rz =>
              match writeDynamicWorkloadA h q ra (rz_RCode rz) with
              | Some r => r
              | None =>
                  if (rz_RCode rz =? RcodeRefused)%Z && ra then forward h
                  else Reply (rz_RCode rz) (rz_Authoritative rz) ra (AnswerRR <$> rz_Answer rz)
                         (rz_Authority rz) (rz_Extra rz)
              end
          end
      end
  end.
End handler.
