(* ===== verification/DnsSpec.v ===== *)
(** * What the DNS service guarantees

    The name a workload is published under is read back to the same namespace and workload, a
    registration answers queries until it is removed, failures leave the table alone, and the
    host routes handed to VPN clients are exactly the registered IPv4 addresses. *)
From stdpp Require Import base strings numbers gmap list sorting.
From Stdlib Require Import Ascii.
From S2P Require Import Prelude GoStrings GoTime GoNet GoList Deploy Validate ValidateSpec Meta GoText Dns.

(** ** Names *)

(** A printable name without dots: one DNS label. *)
Definition label (s : string) : Prop := s ≠ "" ∧ graphic_text s ∧ "."%char ∉ bytes_of s.

Lemma label_trimmed s : label s → TrimSpace s = s.
Proof. intros (_ & Hg & _). by apply graphic_trimmed. Qed.

Lemma label_name s : nameRe s = true → "."%char ∉ bytes_of s → label s.
Proof.
  intros Hn Hd. pose proof (nameRe_chars _ Hn) as [Hc Hne]. split_and!; [done| |done].
  eapply Forall_impl; [exact Hc|]. intros c. apply name_char_graphic.
Qed.

Section names.
Context `{UnicodeLower}.

Lemma label_lower s : label s → label (ToLower s).
Proof.
  intros (Hne & Hg & Hd). split_and!.
  - intros E. apply (f_equal bytes_of) in E. rewrite ToLower_graphic in E by done.
    apply fmap_nil_inv in E. by apply bytes_of_nil in E.
  - by apply graphic_lower.
  - rewrite ToLower_graphic by done. intros (c & Hc & Hin)%list_elem_of_fmap.
    symmetry in Hc. apply (proj1 (lower_dot c)) in Hc. subst c. by apply Hd.
Qed.

(** A zone as configuration and handlers hold it: lower case, no dots at the ends. *)
Definition zone_text (z : string) : Prop := z ≠ "" ∧ graphic_text z ∧ domain_of z = z.

Lemma domain_of_graphic s : graphic_text s → domain_of s = TrimByte (ToLower s) ".".
Proof. intros Hg. unfold domain_of. by rewrite (graphic_trimmed s). Qed.

Lemma domain_ends s :
  hd_error (bytes_of (domain_of s)) ≠ Some "."%char ∧ hd_error (reverse (bytes_of (domain_of s))) ≠ Some "."%char.
Proof. apply TrimByte_ends. Qed.

Lemma domain_lower s : graphic_text s → ToLower s = s →
  hd_error (bytes_of s) ≠ Some "."%char → hd_error (reverse (bytes_of s)) ≠ Some "."%char → domain_of s = s.
Proof. intros Hg Hl Hh Ht. rewrite domain_of_graphic, Hl by done. by apply TrimByte_none. Qed.

Lemma lower_app s t : graphic_text s → graphic_text t → ToLower (s +:+ t) = ToLower s +:+ ToLower t.
Proof.
  intros Hs Ht. apply bytes_of_inj. rewrite ToLower_graphic by (by apply graphic_app).
  by rewrite !bytes_of_app, !ToLower_graphic, fmap_app.
Qed.

Lemma lower_fixed s : graphic_text s → Forall (λ c, lower_ascii c = c) (bytes_of s) → ToLower s = s.
Proof.
  intros Hg Hf. apply bytes_of_inj. rewrite ToLower_graphic by done.
  rewrite <-(list_fmap_id (bytes_of s)) at 2. apply list_fmap_ext. intros i c Hc.
  rewrite Forall_lookup in Hf. by apply (Hf i).
Qed.

Lemma zone_lower z : zone_text z → ToLower z = z ∧ TrimByte z "." = z.
Proof.
  intros (Hne & Hg & Hd). rewrite domain_of_graphic in Hd by done.
  assert (ToLower z = z) as Hl.
  { apply lower_fixed; [done|]. rewrite <-Hd. apply TrimByte_Forall. rewrite ToLower_graphic by done.
    apply Forall_fmap, Forall_true. intros c. apply lower_idemp. }
  split; [done|]. by rewrite Hl in Hd.
Qed.

Lemma zone_ends z : zone_text z → hd_error (reverse (bytes_of z)) ≠ Some "."%char.
Proof. intros (_ & _ & <-). apply domain_ends. Qed.

Lemma hd_error_app {A} (l l' : list A) : l ≠ [] → hd_error (l ++ l') = hd_error l.
Proof. by destruct l. Qed.

(** The published name, for one-label names. *)
Lemma fqdn_graphic ns w z :
  label ns → label w → zone_text z →
  workloadServiceFQDN ns w z = ToLower w +:+ "." +:+ ToLower ns +:+ ".svc." +:+ z ∧
  domain_of (workloadServiceFQDN ns w z) = workloadServiceFQDN ns w z.
Proof.
  intros Hns Hw Hz. destruct (zone_lower z Hz) as [Hzl Hzt]. destruct Hz as (Hzne & Hzg & Hzd) eqn:E; clear E.
  assert (workloadServiceFQDN ns w z = ToLower w +:+ "." +:+ ToLower ns +:+ ".svc." +:+ z) as HE.
  { unfold workloadServiceFQDN, dns_namespace. rewrite !label_trimmed by done.
    destruct (String.eqb_spec ns "") as [->|_]; [by destruct Hns|]. by rewrite Hzl, Hzt. }
  split; [done|]. rewrite HE. destruct (label_lower w Hw) as (Hwne & Hwg & Hwd).
  destruct (label_lower ns Hns) as (_ & Hng & _).
  assert (graphic_text "." ∧ graphic_text ".svc.") as [Hdot Hsvc] by (split; repeat constructor).
  assert (graphic_text (ToLower ns +:+ ".svc." +:+ z)) by (by rewrite !graphic_app).
  assert (graphic_text ("." +:+ ToLower ns +:+ ".svc." +:+ z)) by (rewrite graphic_app; done).
  apply domain_lower.
  - by rewrite graphic_app.
  - rewrite lower_app, lower_app, lower_app, lower_app by (rewrite ?graphic_app; done).
    rewrite (ToLower_idemp w), (ToLower_idemp ns) by (apply Hw || apply Hns).
    rewrite (lower_fixed "."), (lower_fixed ".svc.") by (done || (repeat constructor)). by rewrite Hzl.
  - rewrite bytes_of_app, hd_error_app.
    + intros Hh. apply Hwd. destruct (bytes_of (ToLower w)); [done|]. injection Hh as ->. set_solver.
    + by rewrite bytes_of_nil.
  - rewrite !bytes_of_app, !reverse_app, <-!app_assoc, hd_error_app.
    + by apply zone_ends.
    + intros E. apply (f_equal reverse) in E. rewrite reverse_involutive in E. by apply bytes_of_nil in E.
Qed.

Lemma fqdn_roundtrip ns w z :
  label ns → label w → zone_text z →
  parseWorkloadServiceFQDN (workloadServiceFQDN ns w z) z = Some (ToLower ns, ToLower w).
Proof.
  intros Hns Hw Hz. destruct (fqdn_graphic ns w z Hns Hw Hz) as [HE HD].
  unfold parseWorkloadServiceFQDN. rewrite HD. assert (domain_of z = z) as -> by apply Hz.
  rewrite HE. set (left := ToLower w +:+ "." +:+ ToLower ns).
  assert (ToLower w +:+ "." +:+ ToLower ns +:+ ".svc." +:+ z = left +:+ (".svc." +:+ z)) as ->
    by (unfold left; by rewrite !string_app_assoc).
  destruct (label_lower w Hw) as (Hwne & Hwg & Hwd). destruct (label_lower ns Hns) as (Hnne & Hng & Hnd).
  assert (bytes_of left = bytes_of (ToLower w) ++ "."%char :: bytes_of (ToLower ns)) as HL
    by (unfold left; by rewrite !bytes_of_app).
  assert (left +:+ (".svc." +:+ z) ≠ "") as Hne.
  { intros E%(f_equal bytes_of). rewrite bytes_of_app, HL in E. by destruct (bytes_of (ToLower w)). }
  rewrite (proj2 (String.eqb_neq _ _) Hne), (proj2 (String.eqb_neq _ _) (proj1 Hz)). cbn [orb].
  rewrite HasSuffix_app, TrimSuffix_app. cbn [negb]. rewrite TrimByte_none.
  - unfold Split. rewrite HL, split_bytes_app, split_bytes_none by done. cbn [fmap list_fmap].
    rewrite !of_bytes_bytes_of. by rewrite (proj2 (String.eqb_neq _ _) Hwne), (proj2 (String.eqb_neq _ _) Hnne).
  - rewrite HL, hd_error_app by (by rewrite bytes_of_nil). intros Hh. apply Hwd.
    destruct (bytes_of (ToLower w)); [done|]. injection Hh as ->. set_solver.
  - rewrite HL, reverse_app, reverse_cons, <-app_assoc, hd_error_app.
    + intros Hh. apply Hnd. rewrite <-(reverse_involutive (bytes_of (ToLower ns))).
      destruct (reverse (bytes_of (ToLower ns))) as [|c l]; [done|]. injection Hh as ->.
      rewrite reverse_cons. set_solver.
    + intros E%(f_equal reverse). rewrite reverse_involutive in E. by apply bytes_of_nil in E.
Qed.
End names.

(** ** The table *)
Section table.
Context `{UnicodeLower, DnsLibLaws} (cfg : DNSConfig).
Hypothesis enabled : dns_Enabled cfg = true.

Lemma upsert_cases save del ns w ip s r s' :
  ds_store s = true → UpsertWorkloadA cfg save del ns w ip s = (r, s') →
  (r = Ok tt ∧ ds_store s' = true ∧ TrimSpace ip ≠ "" ∧
     ∃ rec, ds_records s' = <[workloadRecordKey ns w := rec]> (ds_records s) ∧
       rec_Data rec = TrimSpace ip ∧ rec_Type rec = TypeA) ∨
  ((∃ e, r = Err e) ∧ s' = s).
Proof.
  intros Hs. unfold UpsertWorkloadA. rewrite enabled, Hs. cbn [negb orb].
  destruct (String.eqb_spec (TrimSpace ip) "") as [|Hip]; [intros [= <- <-]; eauto|].
  destruct (NormalizeRecord _) as [norm|e] eqn:Hn; [|intros [= <- <-]; eauto].
  apply normalize_data in Hn as [Hd Ht]; [|done]. destruct (save norm) as [[]|e]; [|intros [= <- <-]; eauto].
  set (s2 := match ds_records s !! _ with Some _ => _ | None => _ end).
  assert (ds_records s2 = ds_records s ∧ ds_store s2 = true) as [Hr Hst].
  { unfold s2. destruct (ds_records s !! _); [|done]. by destruct (negb _ && _). }
  intros [= <- <-]. left. split_and!; [done|done|done|]. exists norm. cbn. by rewrite Hr.
Qed.

Lemma remove_cases del ns w s r s' :
  ds_store s = true → RemoveWorkloadA cfg del ns w s = (r, s') →
  (r = Ok tt ∧ ds_store s' = true ∧ ds_records s' = delete (workloadRecordKey ns w) (ds_records s)) ∨
  ((∃ e, r = Err e) ∧ s' = s).
Proof.
  intros Hs. unfold RemoveWorkloadA. rewrite enabled, Hs. cbn [negb orb].
  destruct (ds_records s !! workloadRecordKey ns w) as [prev|] eqn:Hk.
  - destruct (del prev) as [[]|e]; intros [= <- <-]; [by left|eauto].
  - intros [= <- <-]. left. split_and!; [done|done|]. by rewrite delete_id.
Qed.

(** Without DNS, or while the store is not open, the calls report success and do nothing. *)
Lemma closed_calls cfg0 save del ns w ip s :
  dns_Enabled cfg0 && ds_store s = false →
  UpsertWorkloadA cfg0 save del ns w ip s = (Ok tt, s) ∧ RemoveWorkloadA cfg0 del ns w s = (Ok tt, s).
Proof.
  unfold UpsertWorkloadA, RemoveWorkloadA. intros E. apply andb_false_iff in E as [->| ->]; [done|].
  by rewrite orb_true_r.
Qed.

(** The abstract table: the address last registered under each key. *)
Inductive dns_call := CallUpsert (ns w ip : string) | CallRemove (ns w : string).

Definition run_call (save del : DnsRecord → res unit) (c : dns_call) (s : DnsService) : res unit * DnsService :=
  match c with
  | CallUpsert ns w ip => UpsertWorkloadA cfg save del ns w ip s
  | CallRemove ns w => RemoveWorkloadA cfg del ns w s
  end.
Definition abstract_call (c : dns_call) (t : gmap string string) : gmap string string :=
  match c with
  | CallUpsert ns w ip => <[workloadRecordKey ns w := TrimSpace ip]> t
  | CallRemove ns w => delete (workloadRecordKey ns w) t
  end.

(** A run: each call meets its own answers of the store; the abstract table follows the calls
    that succeeded. *)
Fixpoint run_calls (cs : list (dns_call * (DnsRecord → res unit) * (DnsRecord → res unit)))
    (s : DnsService) (t : gmap string string) : DnsService * gmap string string :=
  match cs with
  | [] => (s, t)
  | (c, save, del) :: r =>
      let '(res, s') := run_call save del c s in
      run_calls r s' (if is_ok res then abstract_call c t else t)
  end.

Definition addresses (s : DnsService) : gmap string string := rec_Data <$> ds_records s.

Lemma run_call_refines save del c s :
  ds_store s = true →
  let '(res, s') := run_call save del c s in
  ds_store s' = true ∧ addresses s' = if is_ok res then abstract_call c (addresses s) else addresses s.
Proof.
  intros Hs. destruct (run_call save del c s) as [r s'] eqn:E. unfold addresses.
  destruct c as [ns w ip|ns w]; cbn [run_call] in E.
  - apply upsert_cases in E as [(-> & Hs' & _ & rec & Hr & Hd & _)|((e & ->) & ->)]; [|done|done].
    split; [done|]. cbn. by rewrite Hr, fmap_insert, Hd.
  - apply remove_cases in E as [(-> & Hs' & Hr)|((e & ->) & ->)]; [|done|done].
    split; [done|]. cbn. by rewrite Hr, fmap_delete.
Qed.

Lemma run_calls_refines cs s t :
  ds_store s = true → addresses s = t →
  let '(s', t') := run_calls cs s t in ds_store s' = true ∧ addresses s' = t'.
Proof.
  revert s t. induction cs as [|[[c save] del] cs IH]; intros s t Hs Ht; [done|]. cbn.
  pose proof (run_call_refines save del c s Hs) as Hc. destruct (run_call save del c s) as [r s'].
  destruct Hc as [Hs' Ha]. apply IH; [done|]. rewrite Ha, Ht. done.
Qed.

Lemma lookup_local_addresses ns w s :
  lookupLocalWorkloadIPv4 ns w s =
    (ip ← addresses s !! workloadRecordKey ns w;
     if is_IPv4 (TrimSpace ip) then Some (TrimSpace ip) else None).
Proof.
  unfold lookupLocalWorkloadIPv4, addresses. rewrite lookup_fmap.
  by destruct (ds_records s !! workloadRecordKey ns w).
Qed.

(** Keys are case-insensitive and do not see the application. *)
Lemma record_key_lower ns w :
  label ns → label w → workloadRecordKey (ToLower ns) (ToLower w) = workloadRecordKey ns w.
Proof.
  intros Hn Hw. pose proof (label_lower _ Hn) as Hn'. pose proof (label_lower _ Hw) as Hw'.
  unfold workloadRecordKey, dns_namespace. rewrite !label_trimmed by done.
  rewrite (proj2 (String.eqb_neq (ToLower ns) "") (proj1 Hn')), (proj2 (String.eqb_neq ns "") (proj1 Hn)).
  by rewrite !ToLower_idemp by (apply Hn || apply Hw).
Qed.

(** *** Assignments *)
Lemma lookup_assignment_some l ns w ip :
  lookupAssignmentWorkloadIPv4 (Some l) ns w = Some ip →
  ∃ a, a ∈ l ∧ NamespaceOrDefault (md_Namespace (as_Metadata a)) = NamespaceOrDefault ns ∧
    TrimSpace (as_Workload a) = TrimSpace w ∧ TrimSpace (as_Status a) = AssignmentStatusRunning ∧
    ip = TrimSpace (as_Address a) ∧ is_IPv4 ip = true.
Proof.
  unfold lookupAssignmentWorkloadIPv4. cbn [mbind option_bind]. case_match; [done|].
  destruct (head _) as [out|] eqn:Hh; [|done]. cbn. case_match; [done|]. intros [= ->].
  assert (ip ∈ omap (assignmentWorkloadIPv4 (NamespaceOrDefault ns) (TrimSpace w)) l) as Hin.
  { destruct (omap _ l); [done|]. injection Hh as ->. set_solver. }
  apply list_elem_of_omap in Hin as (a & Ha & Hf). exists a. split; [done|].
  unfold assignmentWorkloadIPv4, assignmentMatchesWorkloadDNS in Hf.
  destruct (_ && _) eqn:E in Hf; [|done]. cbn [negb] in Hf.
  apply andb_true_iff in E as [[E1%String.eqb_eq E2%String.eqb_eq]%andb_true_iff E3%String.eqb_eq].
  destruct (is_IPv4 (TrimSpace (as_Address a))) eqn:E4; [|done]. by injection Hf as <-.
Qed.

(** What is read from a query name is in lower case. *)
Lemma parse_lower name z ns w :
  graphic_text name → parseWorkloadServiceFQDN name z = Some (ns, w) → ToLower w = w.
Proof.
  intros Hg. unfold parseWorkloadServiceFQDN. case_match; [done|]. case_match; [done|].
  destruct (Split _ _) as [|w' [|ns' [|]]] eqn:Hsp; try done. case_match; [done|]. intros [= -> ->].
  set (P := λ c, graphic c = true ∧ lower_ascii c = c).
  assert (Forall P (bytes_of (domain_of name))) as HD.
  { rewrite domain_of_graphic by done. apply TrimByte_Forall. rewrite ToLower_graphic by done.
    apply Forall_fmap. eapply Forall_impl; [exact Hg|]. intros c Hc. split; [by apply lower_graphic|apply lower_idemp]. }
  assert (Forall P (bytes_of w)) as HP.
  { eapply Split_Forall; [|by rewrite Hsp; left]. by apply TrimByte_Forall, TrimSuffix_Forall. }
  apply lower_fixed; (eapply Forall_impl; [exact HP|]); by intros c [? ?].
Qed.

(** An assignment whose workload has an upper-case letter is never found by a query. *)
Lemma uppercase_unresolved name z ns w l a ip :
  graphic_text name → parseWorkloadServiceFQDN name z = Some (ns, w) →
  lookupAssignmentWorkloadIPv4 (Some l) ns w = Some ip →
  (∀ b, b ∈ l → TrimSpace (as_Workload b) = TrimSpace (as_Workload a)) →
  TrimSpace w = w → ToLower (TrimSpace (as_Workload a)) = TrimSpace (as_Workload a).
Proof.
  intros Hg Hp (b & Hb & _ & Hw & _)%lookup_assignment_some Hall Ht.
  rewrite <-(Hall b Hb), Hw, Ht. by eapply parse_lower.
Qed.
End table.

(** ** Queries *)
Section queries.
Context `{UnicodeLower, DnsLibLaws} {RR Msg : Type}.
Context (truncated : Msg → bool) (exchange : string → string → option Msg * option error) (Fqdn : string → string).

(** The handler of a service: its resolver's answers, upstreams, zone and table. *)
Definition serving (resolve : Question → res (@Resolution RR)) upstreams (cfg : DNSConfig)
    (assignments : option (list Assignment)) (s : DnsService) : @handler RR :=
  newForwardingHandler (Some resolve) upstreams (ZoneName cfg)
    (Some (λ ns w, LookupWorkloadIPv4 assignments ns w s)).

Lemma serve_dynamic resolve upstreams cfg assignments s q rz ns w ip ip4 :
  resolve q = Ok rz → rz_RCode rz = RcodeNameError ∨ rz_RCode rz = RcodeRefused →
  q_Type q = TypeA ∨ q_Type q = TypeANY → zone_text (ZoneName cfg) →
  parseWorkloadServiceFQDN (q_Name q) (ZoneName cfg) = Some (ns, w) →
  LookupWorkloadIPv4 assignments ns w s = Some ip → To4 ip = Some ip4 →
  ServeDNS truncated exchange Fqdn (serving resolve upstreams cfg assignments s) OpcodeQuery [q] =
    Reply RcodeSuccess true (0 <? length upstreams)%nat [AnswerA (Fqdn (q_Name q)) 60 ip4] [] [].
Proof.
  intros Hrz Hc Ht Hz Hp Hl H4. unfold serving, newForwardingHandler, ServeDNS, writeDynamicWorkloadA.
  cbn [fh_resolver fh_upstreams fh_workloads fh_zone Z.eqb negb OpcodeQuery]. rewrite Hrz.
  cbn [mbind option_bind]. assert (domain_of (ZoneName cfg) = ZoneName cfg) as -> by apply Hz.
  rewrite (proj2 (String.eqb_neq _ _) (proj1 Hz)), Hp. cbn [mbind option_bind]. rewrite Hl. cbn.
  rewrite H4. cbn. destruct Hc as [-> | ->], Ht as [-> | ->]; done.
Qed.
End queries.

(** ** Host routes *)
Section routes.
Context `{ListSortLaws}.

Lemma host_route_spec r route :
  host_route r = Some route ↔
  rec_Type r = TypeA ∧ ∃ ip, To4 (TrimSpace (rec_Data r)) = Some ip ∧ route = IPString ip +:+ "/32".
Proof.
  unfold host_route. destruct (Z.eqb_spec (rec_Type r) TypeA) as [|Hne]; cbn [negb]; [|naive_solver].
  destruct (String.eqb_spec (TrimSpace (rec_Data r)) "") as [E|_].
  - rewrite E. split; [done|]. intros (_ & ip & Hip & _). by vm_compute in Hip.
  - destruct (To4 _) as [ip|]; cbn; [|naive_solver]. naive_solver.
Qed.

Lemma host_routes_spec order s :
  (∀ X : gset string, order X ≡ₚ elements X) →
  NoDup (WorkloadIPv4HostRouteList order s) ∧
  StronglySorted (cmp_le Compare) (WorkloadIPv4HostRouteList order s) ∧
  ∀ route, route ∈ WorkloadIPv4HostRouteList order s ↔
    ∃ k r, ds_records s !! k = Some r ∧ host_route r = Some route.
Proof.
  intros Ho. unfold WorkloadIPv4HostRouteList. split_and!.
  - rewrite list_sort_perm, Ho. apply NoDup_elements.
  - apply Sorted_StronglySorted; [apply _|]. apply list_sort_sorted; apply _.
  - intros route. rewrite elem_of_list_sort, Ho, elem_of_elements. unfold host_route_set.
    rewrite elem_of_list_to_set, list_elem_of_omap. split.
    + intros (r & Hr & Hf). apply list_elem_of_fmap in Hr as ([k r'] & -> & Hin).
      apply elem_of_map_to_list in Hin. eauto.
    + intros (k & r & Hr & Hf). exists r. split; [|done]. apply list_elem_of_fmap.
      exists (k, r). split; [done|]. by apply elem_of_map_to_list.
Qed.
End routes.
