(* ===== verification/Ingress.v ===== *)
(** * Ingress: from deploy documents to forwarded requests
    (internal/ingress: routing.go, deploy_compile.go, deploy_compile_target.go, vale_app.go,
     vale_factory.go, service.go, tls_autocert.go; internal/config/ingress.go)

    Desired applications are compiled to a list of routes, the routes to a snapshot of the
    proxy (package vale, whose own matching is not modelled), and each endpoint of a route
    rewrites the request path before it forwards.  [url.Parse] and the proxy's constructors
    answer as parameters. *)
From stdpp Require Import base strings numbers gmap list.
From Stdlib Require Import Ascii.
From S2P Require Import Prelude GoStrings GoTime GoNet GoList Deploy Meta Placement Fsm RaftService GoText TaskBase.

(** ** config/ingress.go *)
Record IngressTLSAuto := mkTLS {
  tls_Enabled : bool; tls_Listen : list string; tls_Domains : list string; tls_Email : string;
  tls_CacheDir : string; tls_Staging : bool }.
Record IngressConfig := mkIngressConfig {
  ic_Enabled : bool; ic_Addr : string; ic_Listen : list string; ic_TLS : IngressTLSAuto }.

Record RouteConfig := mkRoute {
  rt_PathPrefix : string; rt_Upstream : string; rt_Upstreams : list string;
  rt_StripPrefix : string; rt_LB : string }.

(** Keeps what is left of each string after trimming. *)
Definition non_blank (l : list string) : list string :=
  omap (λ s, let s := TrimSpace s in if (s =? "")%string then None else Some s) l.

Definition UpstreamEndpoints (r : RouteConfig) : list string :=
  let out := non_blank (rt_Upstreams r) in
  if (0 <? length out)%nat then out
  else let u := TrimSpace (rt_Upstream r) in if negb (u =? "")%string then [u] else [].

Definition LBPolicy `{UnicodeLower} (r : RouteConfig) : string :=
  let p := TrimSpace (rt_LB r) in if (p =? "")%string then "round_robin" else ToLower p.

Definition ListenAddrList (c : IngressConfig) : list string :=
  if (0 <? length (ic_Listen c))%nat then ic_Listen c
  else if negb (TrimSpace (ic_Addr c) =? "")%string then [ic_Addr c]
  else [":80"; ":443"].

Definition TLSListenAddrList (c : IngressConfig) : list string :=
  if negb (tls_Enabled (ic_TLS c)) then []
  else
    let out := non_blank (tls_Listen (ic_TLS c)) in
    if (0 <? length (tls_Listen (ic_TLS c)))%nat && (0 <? length out)%nat then out else [":443"].

Definition PlainListenAddrList (c : IngressConfig) : list string :=
  let plain := ListenAddrList c in
  if negb (tls_Enabled (ic_TLS c)) then plain
  else
    let skip : gset string := list_to_set (non_blank (TLSListenAddrList c)) in
    filter (λ a, a ∉ skip) (non_blank plain).

Definition TLSAutocertDomainList (c : IngressConfig) : list string := non_blank (tls_Domains (ic_TLS c)).

(** ** routing.go *)
Record routeMeta := mkRouteMeta { prefixNorm : string; stripPath : string }.

Definition normalizePathPrefix (raw : string) : string :=
  let p := TrimSpace raw in
  if (p =? "")%string || (p =? "/")%string then "/"
  else
    let p := if HasPrefix p "/" then p else "/" +:+ p in
    if negb (p =? "/")%string then TrimSuffix p "/" else p.

Definition newRouteMeta (raw : RouteConfig) : res routeMeta :=
  if (length (UpstreamEndpoints raw) =? 0)%nat then Err (Errorf "no upstream endpoints" [])
  else
    let pp := normalizePathPrefix (rt_PathPrefix raw) in
    if (pp =? "/")%string then Ok (mkRouteMeta "" "/")
    else
      let norm := TrimByte (TrimPrefix pp "/") "/" in
      let strip := TrimSpace (rt_StripPrefix raw) in
      let strip := if (strip =? "")%string then pp else strip in
      let cleaned := path_Clean strip in
      Ok (mkRouteMeta norm
            (if negb (cleaned =? "/")%string && negb (HasPrefix cleaned "/")
             then "/" +:+ cleaned else cleaned)).

Definition normalizedPath (p : string) : string :=
  let p := path_Clean p in if HasPrefix p "/" then p else "/" +:+ p.

Definition matches (m : routeMeta) (reqPath : string) : bool :=
  if (prefixNorm m =? "")%string then true
  else
    let base := "/" +:+ prefixNorm m in
    (reqPath =? base)%string || HasPrefix reqPath (base +:+ "/").

Definition pathRel (m : routeMeta) (reqPath : string) : option string :=
  if (prefixNorm m =? "")%string then Some reqPath
  else if negb (HasPrefix reqPath (stripPath m)) then None
  else
    let rel := TrimPrefix reqPath (stripPath m) in
    Some (if (rel =? "")%string then "/"
          else if HasPrefix rel "/" then rel else "/" +:+ rel).

(** ** vale_app.go *)

(** [valeRewriteHandler]: the path sent to the upstream, or a 404. *)
Definition rewrite_path (m : routeMeta) (urlPath : string) : option string :=
  let p := normalizedPath urlPath in
  if negb (matches m p) then None else pathRel m p.

Definition normalizeProxyServers (eps : list string) : list string :=
  (λ s, if negb (HasPrefix s "http://") && negb (HasPrefix s "https://") then "http://" +:+ s else s)
    <$> non_blank eps.

Definition routeName (index : nat) : string := "orch-ingress-route-" +:+ Itoa (Z.of_nat index).
Definition routeServiceName (index : nat) : string := "orch-ingress-service-" +:+ Itoa (Z.of_nat index).

(** A route of the proxy's snapshot, with the endpoints of its service. *)
Record compiledRoute := mkCompiled {
  cr_Name : string; cr_Service : string; cr_PathPrefix : string; cr_Endpoints : list string;
  cr_Meta : routeMeta }.

Section vale.
Context `{UnicodeLower}.
(** [url.Parse] and [valeruntime.NewEndpoint], their success. *)
Variable url_parse new_endpoint : string → res unit.

Definition validateValeLBPolicy (index : nat) (route : RouteConfig) : res unit :=
  guard_err (negb ((length (UpstreamEndpoints route) <=? 1)%nat || (LBPolicy route =? "round_robin")%string))
    (Errorf "route %d: unsupported ingress.lb %q (supported: round_robin)" [ANat index; AStr (rt_LB route)]).

Definition build_endpoint (raw : string) : res unit :=
  _ ← wrap "parse upstream %q" [AStr raw] (url_parse raw);
  wrap "upstream %q" [AStr raw] (new_endpoint raw).

Definition buildValeEndpoints (eps : list string) : res (list string) :=
  let servers := normalizeProxyServers eps in
  if (length servers =? 0)%nat then Err (Errorf "no valid upstream URLs" [])
  else
    _ ← range_err (λ _, build_endpoint) servers;
    Ok servers.

Definition addValeRoute (index : nat) (raw : RouteConfig) : res compiledRoute :=
  meta ← wrap "route %d (prefix %q)" [ANat index; AStr (rt_PathPrefix raw)] (newRouteMeta raw);
  _ ← validateValeLBPolicy index raw;
  endpoints ← wrap "route %d" [ANat index] (buildValeEndpoints (UpstreamEndpoints raw));
  Ok (mkCompiled (routeName index) (routeServiceName index) (normalizePathPrefix (rt_PathPrefix raw))
        endpoints meta).

(** The snapshot and the number of its routes. *)
Definition buildValeSnapshot (routes : list RouteConfig) : res (list compiledRoute * nat) :=
  snapshot ← range_fold (λ i acc r, c ← addValeRoute i r; Ok (acc ++ [c])) [] routes;
  Ok (snapshot, length routes).
End vale.

(** ** deploy_compile_target.go *)
Definition endpointHTTPPort (w : Workload) (endpointName : string) : option Z :=
  ep ← find (λ e, (TrimSpace (ep_Name e) =? endpointName)%string) (w_Endpoints w);
  if negb (ep_Protocol ep =? "")%string && negb (ep_Protocol ep =? ProtoHTTP)%string then None
  else if (ep_Port ep <=? 0)%Z then None
  else Some (ep_Port ep).

Definition listenPort (raw : string) : option string :=
  let addr := TrimSpace raw in
  if (addr =? "")%string then None
  else
    let cut := port ← CutPrefix addr ":"; if (port =? "")%string then None else Some port in
    match SplitHostPort addr with
    | Ok (_, port) => if negb (port =? "")%string then Some port else cut
    | Err _ => cut
    end.

Definition firstListenPort (addrs : list string) : option string := head (omap listenPort addrs).

Definition ingressForwardEndpoint (c : IngressConfig) : option (string * string) :=
  match firstListenPort (PlainListenAddrList c) with
  | Some port => Some ("http", port)
  | None =>
      match firstListenPort (TLSListenAddrList c) with
      | Some port => Some ("https", port)
      | None => None
      end
  end.

(** A parsed URL, as far as it is used: its host name, and its text once scheme and host were
    replaced and path, query and fragment dropped. *)
Record URLRef := mkURLRef { url_Hostname : string; url_String : string → string → string }.

Section compile.
Variable parse_url : string → option URLRef.

Definition ingressURLFromNodeAPI (apiURL scheme port : string) : option string :=
  let raw := TrimSpace apiURL in
  if (raw =? "")%string then None
  else
    u ← parse_url (if Contains raw "://" then raw else "http://" +:+ raw);
    if (TrimSpace (url_Hostname u) =? "")%string then None
    else Some (TrimRightByte (url_String u scheme (JoinHostPort (url_Hostname u) port)) "/").

(** [config.ClusterConfig.NodeURL], over [cluster.nodes] in iteration order *)
Definition cluster_NodeURL (nodes : list (string * string)) (nodeID : string) : option string :=
  let id := TrimSpace nodeID in if (id =? "")%string then None else NodeURL_in id nodes.

Definition remoteIngressBaseURL (nodes : list (string * string)) (ic : IngressConfig) (nodeID : string)
    : option string :=
  '(scheme, port) ← ingressForwardEndpoint ic;
  apiURL ← cluster_NodeURL nodes nodeID;
  ingressURLFromNodeAPI apiURL scheme port.

(** ** deploy_compile.go *)
Record CompileOptions := mkCompileOptions {
  co_DNS : option (string → string → option string);
  co_Assignments : option (string → option Assignment);
  co_Cluster : list (string * string);
  co_Ingress : IngressConfig;
  co_LocalNodeID : string }.

Definition deployAppSortKey (m : Metadata) : string :=
  TrimSpace (md_Namespace m) +:+ "/" +:+ TrimSpace (md_Name m).

(** The keys in order of appearance, and the last application of each. *)
Definition addDeployAppSortKey (acc : list string * gmap string App) (app : App) : list string * gmap string App :=
  let key := deployAppSortKey (app_Metadata app) in
  (if acc.2 !! key is Some _ then acc.1 else acc.1 ++ [key], <[key := app]> acc.2).
Definition deployAppsBySortKey `{ListSort} (apps : list App) : list string * gmap string App :=
  let '(keys, byKey) :=
    foldl (λ acc app, if negb (TrimSpace (md_Name (app_Metadata app)) =? "")%string
                      then addDeployAppSortKey acc app else acc) ([], ∅) apps in
  (list_sort Compare keys, byKey).
Definition orderedApps `{ListSort} (apps : list App) : list App :=
  let '(keys, byKey) := deployAppsBySortKey apps in omap (λ k, byKey !! k) keys.

Definition workloadMap (app : App) : gmap string Workload :=
  foldl (λ m w, <[TrimSpace (w_Name w) := w]> m) ∅ (app_Workloads app).

Definition ingressPath (raw : string) : option string :=
  let path := TrimSpace raw in
  if (path =? "")%string then None
  else Some (if HasPrefix path "/" then path else "/" +:+ path).

Section app.
Variable opts : CompileOptions.
Variable app : App.

Definition runningAssignment (workloadName : string) : option Assignment :=
  lookup ← co_Assignments opts;
  a ← lookup (AssignmentKey (app_Metadata app) workloadName);
  if negb (as_Status a =? AssignmentStatusRunning)%string || (TrimSpace (as_Node a) =? "")%string
  then None else Some a.

Definition remoteIngressUpstream (workloadName : string) : option string :=
  a ← runningAssignment workloadName;
  let node := TrimSpace (as_Node a) in
  if (node =? TrimSpace (co_LocalNodeID opts))%string then None
  else remoteIngressBaseURL (co_Cluster opts) (co_Ingress opts) node.

Definition localWorkloadUpstream (workloadName : string) (port : Z) : option string :=
  dns ← co_DNS opts;
  ip ← dns (TrimSpace (md_Namespace (app_Metadata app))) workloadName;
  Some ("http://" +:+ ip +:+ ":" +:+ Itoa port).

(** The upstream and the prefix to strip. *)
Definition workloadTarget (workloadName : string) (port : Z) : option (string * string) :=
  match remoteIngressUpstream workloadName with
  | Some upstream => Some (upstream, "/")
  | None => upstream ← localWorkloadUpstream workloadName port; Some (upstream, "")
  end.

Definition compileRoute (route : IngressRoute) : option RouteConfig :=
  path ← ingressPath (ir_Path route);
  let workloadName := TrimSpace (er_Workload (ir_Backend route)) in
  let endpointName := TrimSpace (er_Endpoint (ir_Backend route)) in
  w ← workloadMap app !! workloadName;
  port ← endpointHTTPPort w endpointName;
  '(upstream, strip) ← workloadTarget workloadName port;
  Some (mkRoute path upstream [] strip "").

Definition compileAppIngressRoutes : list RouteConfig :=
  app_Ingresses app ≫= λ ing, omap compileRoute (ing_Routes ing).
End app.

Definition CompileIngressRoutesFromDeployWithOptions `{ListSort} (apps : list App) (opts : CompileOptions)
    : list RouteConfig :=
  orderedApps apps ≫= compileAppIngressRoutes opts.
End compile.

(** ** service.go, tls_autocert.go *)
Record IngressService := mkIngressService {
  is_started : bool;
  is_gateway : option (list compiledRoute);  (** the snapshot the gateway serves *)
  is_servers : nat;
  is_routeCount : Z;
  is_listeners : list string;  (** the addresses that are open *)
  is_refreshing : bool  (** the refresh loop runs *) }.

Definition NewIngress : IngressService := mkIngressService false None 0 0 [] false.

Section service.
Context `{UnicodeLower} (ic : IngressConfig).
Variable url_parse new_endpoint : string → res unit.

(** Commits routes compiled before under the lock. *)
Definition refreshRoutes (routes : list RouteConfig) (s : IngressService) : IngressService :=
  if negb (ic_Enabled ic) then s
  else match buildValeSnapshot url_parse new_endpoint routes with
       | Err _ => s
       | Ok (snapshot, routeCount) =>
           match is_gateway s with
           | Some _ => mkIngressService (is_started s) (Some snapshot) (is_servers s)
                         (Z.of_nat routeCount) (is_listeners s) (is_refreshing s)
           | None => s
           end
       end.

Definition newAutocertManager (domains : list string) : res unit :=
  guard_err (length domains =? 0)%nat (Errorf "ingress.tls.domains is required when ingress.tls.enabled" []).

Definition startTLSConfig : res bool :=
  if negb (tls_Enabled (ic_TLS ic)) then Ok false
  else _ ← newAutocertManager (TLSAutocertDomainList ic); Ok true.

(** Opens the addresses in order; [opened] are closed when one fails. *)
Fixpoint listen_all (fmt : string) (listen : string → res unit) (addrs opened : list string)
    : res (list string) * list string :=
  match addrs with
  | [] => (Ok opened, opened)
  | a :: r =>
      match listen a with
      | Err e => (Err (Wrapf e fmt [AStr a]), [])
      | Ok _ => listen_all fmt listen r (opened ++ [a])
      end
  end.

(** The result, and the listeners that are still open. *)
Definition openListeners (listen : string → res unit) (tlsConf : bool) : res (list string) * list string :=
  match listen_all "listen %s" listen (PlainListenAddrList ic) [] with
  | (Err e, rest_open) => (Err e, rest_open)
  | (Ok opened, _) =>
      match (if tlsConf then listen_all "listen tls %s" listen (TLSListenAddrList ic) opened
             else (Ok opened, opened)) with
      | (Err e, rest_open) => (Err e, rest_open)
      | (Ok all, _) =>
          if (length all =? 0)%nat
          then (Err (Errorf "no ingress listeners (configure ingress.listen and/or ingress.tls)" []), [])
          else (Ok all, all)
      end
  end.

(** [routes] is what the first refresh compiles. *)
Definition ingress_Start (listen : string → res unit) (routes : list RouteConfig) (s : IngressService)
    : res unit * IngressService :=
  if negb (ic_Enabled ic) then (Ok tt, s)
  else if is_started s then (Ok tt, s)
  else
    match startTLSConfig with
    | Err e => (Err e, s)
    | Ok tlsConf =>
        let with_open l := mkIngressService (is_started s) (is_gateway s) (is_servers s) (is_routeCount s)
                             (is_listeners s ++ l) (is_refreshing s) in
        match openListeners listen tlsConf with
        | (Err e, rest_open) => (Err e, with_open rest_open)
        | (Ok all, _) =>
            match buildValeSnapshot url_parse new_endpoint [] with
            | Err e => (Err e, with_open [])
            | Ok (snapshot, _) =>
                (Ok tt, refreshRoutes routes
                          (mkIngressService true (Some snapshot) (length all) (is_routeCount s)
                             (is_listeners s ++ all) true))
            end
        end
    end.

(** Shutting a server down closes its listener; the refresh loop is cancelled and waited for. *)
Definition ingress_Stop (s : IngressService) : IngressService :=
  if negb (is_started s) then s else NewIngress.
End service.
