(* ===== verification/IngressSpec.v ===== *)
(** * What ingress guarantees

    A request matches a route on whole path elements and is forwarded with a clean path; a
    request that goes through another node's ingress reaches the workload with the same path
    as a direct one; routes come out in the order of applications and documents; plain and TLS
    listeners never share an address, and a failed start leaves none open. *)
From stdpp Require Import base strings numbers gmap list relations sorting.
From Stdlib Require Import Ascii.
From S2P Require Import Prelude GoStrings GoTime GoNet GoList Deploy Meta Placement Fsm RaftService GoText TaskBase Ingress.

(** ** Normal paths *)
Lemma normalizedPath_clean p : HasPrefix p "/" = true → clean_path (normalizedPath p).
Proof.
  intros Hp. unfold normalizedPath. pose proof (path_Clean_rooted p Hp) as Hc.
  destruct Hc as (segs & Hs & Hb) eqn:E. assert (HasPrefix (path_Clean p) "/" = true) as ->; [|done].
  apply HasPrefix_strip. exists (of_bytes (join_segments segs)). apply bytes_of_inj.
  by rewrite Hb, bytes_of_app, bytes_of_of_bytes.
Qed.

Lemma normalizedPath_fix segs : Forall plain_segment segs → normalizedPath (path_text segs) = path_text segs.
Proof. intros Hs. unfold normalizedPath. rewrite path_Clean_fix by (by apply path_text_clean).
  by rewrite path_text_rooted. Qed.

(** ** Prefixes of routes *)
Lemma TrimSuffix_cases s p : TrimSuffix s p = s ∨ s = TrimSuffix s p +:+ p.
Proof.
  unfold TrimSuffix, TrimPrefix. destruct (strip_prefix (rev_string s) (rev_string p)) as [t|] eqn:E; cbn.
  - right. apply strip_prefix_some in E. rewrite <-(rev_string_involutive s), E, rev_string_app.
    by rewrite rev_string_involutive.
  - left. apply rev_string_involutive.
Qed.

Lemma normalizePathPrefix_rooted raw : HasPrefix (normalizePathPrefix raw) "/" = true.
Proof.
  unfold normalizePathPrefix. destruct (_ || _) eqn:E0; [done|].
  set (p := if HasPrefix _ _ then _ else _).
  assert (HasPrefix p "/" = true) as Hp.
  { unfold p. destruct (HasPrefix (TrimSpace raw) "/") eqn:E; [done|]. apply HasPrefix_app. }
  clearbody p. destruct (String.eqb_spec p "/") as [->|Hne]; [done|]. cbn [negb].
  destruct (TrimSuffix_cases p "/") as [->|E]; [done|].
  destruct (TrimSuffix p "/") as [|c q]; [done|].
  apply HasPrefix_strip in Hp as [t Ht]. rewrite Ht in E. injection E as <- _.
  by destruct q.
Qed.

(** The prefix of a route that strips itself: the text that is stripped is the text that
    matched. *)
Lemma strip_matches raw m psegs :
  newRouteMeta raw = Ok m → TrimSpace (rt_StripPrefix raw) = "" →
  Forall plain_segment psegs → psegs ≠ [] → prefixNorm m = of_bytes (join_segments psegs) →
  stripPath m = path_text psegs.
Proof.
  intros Hm Hb Hs Hne Hp. unfold newRouteMeta in Hm. destruct (_ =? 0)%nat; [done|].
  pose proof (normalizePathPrefix_rooted (rt_PathPrefix raw)) as [t Ht]%HasPrefix_strip.
  destruct (String.eqb_spec (normalizePathPrefix (rt_PathPrefix raw)) "/") as [E|Hr].
  { injection Hm as <-. cbn in Hp. apply (f_equal bytes_of) in Hp. rewrite bytes_of_of_bytes in Hp.
    cbn in Hp. symmetry in Hp. by apply join_segments_ne in Hp. }
  injection Hm as <-. cbn [prefixNorm stripPath] in *. rewrite Hb. cbn [String.eqb].
  rewrite Ht in *. rewrite TrimPrefix_app in Hp.
  assert (path_Clean ("/" +:+ t) = path_text psegs) as ->; [|by rewrite path_text_rooted, andb_false_r].
  destruct (TrimByte_repeat t "/"%char) as (n & k & Hb2). rewrite Hp, bytes_of_of_bytes in Hb2.
  unfold path_Clean, path_text. f_equal. rewrite bytes_of_app, Hb2.
  apply (clean_slashes n k psegs Hs).
Qed.

(** *** Which requests a route takes, and the path it forwards *)
Lemma base_text norm : "/" +:+ norm = of_bytes ("/"%char :: bytes_of norm).
Proof. by rewrite <-(of_bytes_bytes_of norm) at 1. Qed.

Lemma matches_spec m segs :
  Forall plain_segment segs → prefixNorm m ≠ "" →
  matches m (path_text segs) = true ↔
    ∃ psegs tail, segs = psegs ++ tail ∧ psegs ≠ [] ∧ prefixNorm m = of_bytes (join_segments psegs).
Proof.
  intros Hs Hne. unfold matches. destruct (String.eqb_spec (prefixNorm m) "") as [|_]; [done|].
  rewrite orb_true_iff, String.eqb_eq, HasPrefix_strip. split.
  - intros [E|[t E]].
    + exists segs, []. rewrite app_nil_r. rewrite base_text in E. apply of_bytes_inj in E; injection E as E.
      split_and!; [done| |].
      * intros ->. cbn in E. symmetry in E. by apply bytes_of_nil in E.
      * by rewrite E, of_bytes_bytes_of.
    + apply (f_equal bytes_of) in E. rewrite !bytes_of_app in E. unfold path_text in E. rewrite bytes_of_of_bytes in E.
      cbn [bytes_of app] in E. injection E as E.
      assert (join_segments segs = bytes_of (prefixNorm m) ++ "/"%char :: bytes_of t) as E'.
      { rewrite E, <-app_assoc. done. }
      apply join_segments_cut in E' as (ps & tail & -> & Hp & _ & Hn & _); [|done].
      exists ps, tail. split_and!; [done..|]. by rewrite <-Hn, of_bytes_bytes_of.
  - intros (psegs & tail & -> & Hp & ->). rewrite path_text_eq. destruct tail as [|x tail].
    + left. by rewrite app_nil_r.
    + right. exists (of_bytes (join_segments (x :: tail))). apply bytes_of_inj.
      rewrite !bytes_of_app, !bytes_of_of_bytes, join_segments_app by done. by rewrite <-!app_assoc.
Qed.

Lemma pathRel_strip m psegs tail :
  prefixNorm m ≠ "" → stripPath m = path_text psegs → psegs ≠ [] →
  pathRel m (path_text (psegs ++ tail)) = Some (path_text tail).
Proof.
  intros Hne Hst Hp. unfold pathRel. destruct (String.eqb_spec (prefixNorm m) "") as [|_]; [done|].
  assert (∃ t, path_text (psegs ++ tail) = path_text psegs +:+ t ∧
               ((t = "" ∧ tail = []) ∨ t = path_text tail)) as (t & Ht & Hc).
  { destruct tail as [|x tail].
    - exists "". rewrite app_nil_r. split; [|by left]. apply bytes_of_inj. by rewrite bytes_of_app, app_nil_r.
    - exists (path_text (x :: tail)). split; [|by right]. apply bytes_of_inj. rewrite bytes_of_app.
      unfold path_text. rewrite !bytes_of_of_bytes, join_segments_app by done. done. }
  rewrite Hst, Ht, HasPrefix_app, TrimPrefix_app. cbn [negb].
  destruct Hc as [[-> ->]| ->]; [done|]. rewrite path_text_rooted.
  destruct (String.eqb_spec (path_text tail) "") as [E|]; [by destruct tail|done].
Qed.

Lemma pathRel_slash m segs :
  Forall plain_segment segs → stripPath m = "/" → pathRel m (path_text segs) = Some (path_text segs).
Proof.
  intros Hs Hst. unfold pathRel. destruct (_ =? _)%string; [done|].
  rewrite Hst, path_text_rooted, path_text_eq, TrimPrefix_app. cbn [negb].
  destruct (String.eqb_spec (of_bytes (join_segments segs)) "") as [E|Hne]; [by rewrite E|].
  destruct (HasPrefix (of_bytes (join_segments segs)) "/") eqn:E; [|done].
  apply HasPrefix_strip in E as [t E]. apply (f_equal bytes_of) in E.
  rewrite bytes_of_of_bytes, bytes_of_app in E. apply join_segments_head in Hs. by rewrite E in Hs.
Qed.

(** A route without a strip prefix of its own forwards exactly the requests below its prefix,
    with the elements that follow it. *)
Lemma rewrite_spec raw m url q :
  newRouteMeta raw = Ok m → TrimSpace (rt_StripPrefix raw) = "" → HasPrefix url "/" = true →
  rewrite_path m url = Some q ↔
    ∃ psegs tail, Forall plain_segment (psegs ++ tail) ∧ normalizedPath url = path_text (psegs ++ tail) ∧
      prefixNorm m = of_bytes (join_segments psegs) ∧ q = path_text tail.
Proof.
  intros Hm Hb Hu. unfold rewrite_path.
  pose proof (normalizedPath_clean url Hu) as (segs & Hs & Hp)%clean_path_text. rewrite Hp.
  destruct (decide (prefixNorm m = "")) as [He|He].
  - unfold matches, pathRel. rewrite He. cbn. split.
    + intros [= <-]. by exists [], segs.
    + intros (psegs & tail & Hpl & E & Hj & ->). f_equal. apply path_text_inj in E as ->; [|done..].
      apply (f_equal bytes_of) in Hj. rewrite bytes_of_of_bytes in Hj. cbn in Hj.
      apply Forall_app in Hpl as [Hpl _]. symmetry in Hj. by apply join_segments_ne in Hj as ->.
  - assert (∀ psegs, Forall plain_segment psegs → prefixNorm m = of_bytes (join_segments psegs) →
                     psegs ≠ [] ∧ stripPath m = path_text psegs) as Hstrip.
    { intros psegs Hpl Hn. assert (psegs ≠ []) by (intros ->; by cbn in Hn). split; [done|].
      by eapply strip_matches. }
    destruct (matches m (path_text segs)) eqn:E; cbn [negb].
    + apply matches_spec in E as (psegs & tail & -> & Hpn & Hn); [|done..].
      apply Forall_app in Hs as Hs2. destruct Hs2 as [Hs1 Hs2]. destruct (Hstrip psegs Hs1 Hn) as [_ Hst].
      rewrite (pathRel_strip m psegs tail) by done. split.
      * intros [= <-]. by exists psegs, tail.
      * intros (psegs' & tail' & Hpl & E & Hn' & ->). apply path_text_inj in E; [|done..].
        apply Forall_app in Hpl as [Hpl1 _]. destruct (Hstrip psegs' Hpl1 Hn') as [_ Hst'].
        rewrite Hst in Hst'. apply path_text_inj in Hst' as <-; [|done..]. by apply app_inv_head in E as ->.
    + split; [done|]. intros (psegs & tail & Hpl & E' & Hn & ->). apply path_text_inj in E' as ->; [|done..].
      apply Forall_app in Hpl as Hpl'. destruct Hpl' as [Hpl1 _]. destruct (Hstrip psegs Hpl1 Hn) as [Hne _].
      assert (matches m (path_text (psegs ++ tail)) = true) as HT by (apply matches_spec; eauto). congruence.
Qed.

(** *** A request that crosses another node *)
Lemma meta_prefix rawA rawB mA mB :
  newRouteMeta rawA = Ok mA → newRouteMeta rawB = Ok mB → rt_PathPrefix rawA = rt_PathPrefix rawB →
  prefixNorm mA = prefixNorm mB.
Proof.
  unfold newRouteMeta. intros HA HB Hp. rewrite <-Hp in HB. destruct (_ =? 0)%nat; [done|]. destruct (_ =? 0)%nat; [done|].
  destruct (_ =? "/")%string; by simplify_eq.
Qed.

Lemma strip_slash raw m : newRouteMeta raw = Ok m → rt_StripPrefix raw = "/" → stripPath m = "/".
Proof.
  unfold newRouteMeta. intros Hm Hst. rewrite Hst in Hm. destruct (_ =? 0)%nat; [done|].
  destruct (_ =? "/")%string; by simplify_eq.
Qed.

Lemma rewrite_slash raw m url :
  newRouteMeta raw = Ok m → rt_StripPrefix raw = "/" → HasPrefix url "/" = true →
  rewrite_path m url = if matches m (normalizedPath url) then Some (normalizedPath url) else None.
Proof.
  intros Hm Hst Hu. unfold rewrite_path.
  pose proof (normalizedPath_clean url Hu) as (segs & Hs & ->)%clean_path_text.
  destruct (matches _ _); [|done]. cbn [negb]. apply pathRel_slash; [done|]. by eapply strip_slash.
Qed.

(** A route that strips "/" takes the same requests and forwards the whole path. *)
Lemma rewrite_slash_spec raw m url q :
  newRouteMeta raw = Ok m → rt_StripPrefix raw = "/" → HasPrefix url "/" = true →
  rewrite_path m url = Some q ↔
    ∃ psegs tail, Forall plain_segment (psegs ++ tail) ∧ normalizedPath url = path_text (psegs ++ tail) ∧
      prefixNorm m = of_bytes (join_segments psegs) ∧ q = path_text (psegs ++ tail).
Proof.
  intros Hm Hst Hu. rewrite (rewrite_slash raw m url) by done.
  pose proof (normalizedPath_clean url Hu) as (segs & Hs & Hp)%clean_path_text. rewrite Hp.
  destruct (decide (prefixNorm m = "")) as [He|He].
  - unfold matches. rewrite He. cbn. split.
    + intros [= <-]. by exists [], segs.
    + intros (psegs & tail & _ & -> & _ & ->). done.
  - destruct (matches m (path_text segs)) eqn:E.
    + split; [|by intros (psegs & tail & _ & -> & _ & ->)]. intros [= <-].
      apply matches_spec in E as (psegs & tail & -> & _ & Hn); [|done..]. by exists psegs, tail.
    + split; [done|]. intros (psegs & tail & Hpl & E' & Hn & ->). apply path_text_inj in E' as ->; [|done..].
      assert (psegs ≠ []) by (intros ->; by cbn in Hn).
      assert (matches m (path_text (psegs ++ tail)) = true) as HT by (apply matches_spec; eauto). congruence.
Qed.

(** Forwarding through a route that strips "/" and then through the route with the same
    prefix gives the path that the second route alone gives. *)
Lemma two_hops rawA rawB mA mB url :
  newRouteMeta rawA = Ok mA → newRouteMeta rawB = Ok mB →
  rt_PathPrefix rawA = rt_PathPrefix rawB → rt_StripPrefix rawA = "/" → HasPrefix url "/" = true →
  (rewrite_path mA url ≫= rewrite_path mB) = rewrite_path mB url.
Proof.
  intros HA HB Hp Hst Hu. rewrite (rewrite_slash rawA mA url) by done.
  pose proof (meta_prefix rawA rawB mA mB HA HB Hp) as Hn.
  assert (matches mA (normalizedPath url) = matches mB (normalizedPath url)) as -> by (unfold matches; by rewrite Hn).
  unfold rewrite_path at 2. destruct (matches mB (normalizedPath url)) eqn:E; [|done]. cbn.
  pose proof (normalizedPath_clean url Hu) as (segs & Hs & Hsp)%clean_path_text. rewrite Hsp in *.
  unfold rewrite_path. rewrite normalizedPath_fix by done. by rewrite E.
Qed.

(** ** Compiling documents *)
Section compiled.
Variable parse_url : string → option URLRef.

Lemma compileRoute_some opts app route r :
  compileRoute parse_url opts app route = Some r →
  ingressPath (ir_Path route) = Some (rt_PathPrefix r) ∧ rt_Upstreams r = [] ∧
  let name := TrimSpace (er_Workload (ir_Backend route)) in
  match remoteIngressUpstream parse_url opts app name with
  | Some up => rt_Upstream r = up ∧ rt_StripPrefix r = "/"
  | None => rt_StripPrefix r = "" ∧
      ∃ w port dns ip, workloadMap app !! name = Some w ∧
        endpointHTTPPort w (TrimSpace (er_Endpoint (ir_Backend route))) = Some port ∧
        co_DNS opts = Some dns ∧ dns (TrimSpace (md_Namespace (app_Metadata app))) name = Some ip ∧
        rt_Upstream r = "http://" +:+ ip +:+ ":" +:+ Itoa port
  end.
Proof.
  unfold compileRoute. intros Hc.
  destruct (ingressPath (ir_Path route)) as [path|] eqn:Ep; [|done]. cbn in Hc.
  destruct (workloadMap app !! _) as [w|] eqn:Ew; [|done]. cbn in Hc.
  destruct (endpointHTTPPort w _) as [port|] eqn:Epo; [|done]. cbn in Hc.
  unfold workloadTarget, localWorkloadUpstream in Hc.
  destruct (remoteIngressUpstream parse_url opts app _) as [up|] eqn:Er; cbn in Hc.
  { simplify_eq/=. done. }
  destruct (co_DNS opts) as [dns|] eqn:Ed; [|done]. cbn in Hc.
  destruct (dns _ _) as [ip|] eqn:Ei; [|done]. cbn in Hc. simplify_eq/=. split_and!; [done..|].
  by exists w, port, dns, ip.
Qed.

(** Compiled routes never forward anything but a clean path. *)
Lemma compiled_forward_clean opts app route r m url q :
  compileRoute parse_url opts app route = Some r → newRouteMeta r = Ok m →
  HasPrefix url "/" = true → rewrite_path m url = Some q → clean_path q.
Proof.
  intros Hc Hm Hu Hq. apply compileRoute_some in Hc as (_ & _ & Hc). cbn in Hc.
  destruct (remoteIngressUpstream _ _ _ _) as [up|].
  - rewrite (rewrite_slash r m url) in Hq by (done || apply Hc). destruct (matches _ _); [|done].
    simplify_eq. by apply normalizedPath_clean.
  - destruct Hc as [Hst _]. apply (rewrite_spec r m) in Hq as (psegs & tail & Hpl & _ & _ & ->); [|done|by rewrite Hst|done].
    apply Forall_app in Hpl as [_ ?]. by apply path_text_clean.
Qed.
End compiled.

(** *** The order of applications *)
Definition app_named (app : App) : Prop := TrimSpace (md_Name (app_Metadata app)) ≠ "".
#[export] Instance app_named_dec app : Decision (app_named app) := _.

Definition app_key (app : App) : string := deployAppSortKey (app_Metadata app).

Lemma deployApps_fold apps :
  let acc := foldl (λ acc app, if negb (TrimSpace (md_Name (app_Metadata app)) =? "")%string
                               then addDeployAppSortKey acc app else acc) ([], ∅) apps in
  NoDup acc.1 ∧ (∀ k, k ∈ acc.1 ↔ is_Some (acc.2 !! k)) ∧
  (∀ k, acc.2 !! k = list.last (filter (λ a, app_named a ∧ app_key a = k) apps)).
Proof.
  induction apps as [|a apps IH] using rev_ind.
  { cbn. split_and!; [constructor|intros k; rewrite lookup_empty; split; [set_solver|by intros []]|done]. }
  cbn. rewrite foldl_app. cbn. destruct (foldl _ _ apps) as [keys m]. destruct IH as (Hnd & Hk & Hm).
  cbn [fst snd] in *.
  assert (∀ k, list.last (filter (λ a, app_named a ∧ app_key a = k) (apps ++ [a])) =
               if decide (app_named a ∧ app_key a = k) then Some a else m !! k) as Hlast.
  { intros k. rewrite filter_app, filter_cons, filter_nil. destruct (decide _); [by rewrite last_snoc|].
    by rewrite app_nil_r, Hm. }
  setoid_rewrite Hlast. unfold app_named, app_key.
  destruct (String.eqb_spec (TrimSpace (md_Name (app_Metadata a))) "") as [E|Hn]; cbn.
  { split_and!; [done..|]. intros k. destruct (decide _) as [[? _]|]; done. }
  set (key := deployAppSortKey (app_Metadata a)).
  split_and!.
  - destruct (m !! key) eqn:E; [done|]. apply NoDup_app. split_and!; [done| |apply NoDup_singleton].
    intros k Hin ->%list_elem_of_singleton. apply Hk in Hin. rewrite E in Hin. by destruct Hin.
  - intros k. destruct (decide (key = k)) as [<-|Hne].
    + rewrite lookup_insert_eq. split; [done|intros _].
      destruct (m !! key) eqn:E; [apply Hk; eauto|set_solver].
    + rewrite lookup_insert_ne by done. rewrite <-Hk. destruct (m !! key); [done|]. set_solver.
  - intros k. destruct (decide (key = k)) as [<-|Hne].
    + rewrite lookup_insert_eq. destruct (decide _) as [|Hx]; [done|]. exfalso. by apply Hx.
    + rewrite lookup_insert_ne by done. destruct (decide _) as [[_ ?]|]; done.
Qed.

Section ordered.
Context `{ListSortLaws}.

Lemma orderedApps_eq apps :
  ∃ keys (m : gmap string App), orderedApps apps = omap (λ k, m !! k) (list_sort Compare keys) ∧ NoDup keys ∧
    (∀ k, k ∈ keys ↔ is_Some (m !! k)) ∧
    (∀ k, m !! k = list.last (filter (λ a, app_named a ∧ app_key a = k) apps)).
Proof.
  pose proof (deployApps_fold apps) as Hf. unfold orderedApps, deployAppsBySortKey.
  destruct (foldl _ _ apps) as [keys m]. exists keys, m. by split.
Qed.

(** The applications that count are the last ones of each key. *)
Lemma elem_of_orderedApps apps a :
  a ∈ orderedApps apps ↔
    app_named a ∧ list.last (filter (λ b, app_named b ∧ app_key b = app_key a) apps) = Some a.
Proof.
  destruct (orderedApps_eq apps) as (keys & m & -> & _ & Hk & Hm). rewrite list_elem_of_omap. split.
  - intros (k & _ & Ha). rewrite Hm in Ha. pose proof Ha as Ha'.
    apply last_Some_elem_of, list_elem_of_filter in Ha' as [[Hn Hka] _]. subst k. done.
  - intros [Hn Ha]. exists (app_key a). rewrite elem_of_list_sort, Hk, Hm. by split; [eexists|].
Qed.

Lemma orderedApps_keys apps : ∃ keys, app_key <$> orderedApps apps = list_sort Compare keys ∧ NoDup keys.
Proof.
  destruct (orderedApps_eq apps) as (keys & m & -> & Hnd & Hk & Hm). exists keys. split; [|done].
  assert (∀ l : list string, (∀ k, k ∈ l → ∃ a, m !! k = Some a ∧ app_key a = k) → app_key <$> omap (λ k, m !! k) l = l) as K.
  { clear. induction l as [|k l IH]; intros Hl; [done|]. destruct (Hl k) as (a & Ha & Hka); [set_solver|].
    cbn. rewrite Ha. cbn. f_equal; [done|]. apply IH. set_solver. }
  apply K. intros k Hin. rewrite elem_of_list_sort in Hin. apply Hk in Hin as [a Ha]. exists a. split; [done|].
  rewrite Hm in Ha. by apply last_Some_elem_of, list_elem_of_filter in Ha as [[_ ?] _].
Qed.

Lemma Sorted_fmap_key {A} (key : A → string) l :
  Sorted (cmp_le Compare) (key <$> l) → Sorted (cmp_le (by_key key)) l.
Proof.
  induction l as [|a l IH]; cbn; intros Hs; [constructor|].
  apply Sorted_inv in Hs as [Hs Hh]. constructor; [by apply IH|].
  destruct l as [|b l]; constructor. by apply HdRel_inv in Hh.
Qed.

Lemma orderedApps_sorted apps :
  Sorted (cmp_le Compare) (app_key <$> orderedApps apps) ∧ NoDup (app_key <$> orderedApps apps).
Proof.
  destruct (orderedApps_keys apps) as (keys & -> & Hnd). split.
  - apply list_sort_sorted; apply _.
  - by rewrite list_sort_perm.
Qed.

(** With distinct keys the order in which the applications are listed does not matter. *)
Lemma orderedApps_perm apps apps' :
  apps ≡ₚ apps' → NoDup (app_key <$> filter app_named apps) → orderedApps apps = orderedApps apps'.
Proof.
  intros Hp Hnd.
  assert (∀ l a, NoDup (app_key <$> filter app_named l) → a ∈ orderedApps l ↔ a ∈ l ∧ app_named a) as K.
  { clear Hp Hnd. intros l a Hnd. rewrite elem_of_orderedApps. split.
    - intros [Hn E%last_Some_elem_of]. by apply list_elem_of_filter in E as [_ ?].
    - intros [Ha Hn]. split; [done|]. destruct (list.last _) as [b|] eqn:E.
      + apply last_Some_elem_of, list_elem_of_filter in E as [[Hbn Hbk] Hb]. f_equal.
        eapply (NoDup_key_inj app_key); [exact Hnd|..]; by rewrite ?list_elem_of_filter.
      + apply last_None in E. exfalso. eapply (not_elem_of_nil a). rewrite <-E. by apply list_elem_of_filter. }
  assert (NoDup (app_key <$> filter app_named apps')) as Hnd' by (by rewrite <-Hp).
  destruct (orderedApps_sorted apps) as [Hs Hd], (orderedApps_sorted apps') as [Hs' Hd'].
  assert (orderedApps apps ≡ₚ orderedApps apps') as HP.
  { apply NoDup_Permutation; [by eapply NoDup_fmap_1..|]. intros a. by rewrite !K, Hp by done. }
  eapply (Sorted_unique_strong (cmp_le (by_key app_key))); [| | |done].
  - intros x y Hx Hy Hxy Hyx. rewrite <-HP in Hy. eapply NoDup_key_inj; [exact Hd|done..|].
    by apply (anti_symm (cmp_le Compare)).
  - by apply Sorted_fmap_key.
  - by apply Sorted_fmap_key.
Qed.
End ordered.

(** ** Listeners *)
Lemma elem_of_non_blank l s : s ∈ non_blank l ↔ s ≠ "" ∧ ∃ raw, raw ∈ l ∧ TrimSpace raw = s.
Proof.
  unfold non_blank. rewrite list_elem_of_omap. split.
  - intros (raw & Hin & E). cbn in E. destruct (String.eqb_spec (TrimSpace raw) ""); [done|]. simplify_eq. eauto.
  - intros (Hne & raw & Hin & <-). exists raw. split; [done|]. cbn.
    destruct (String.eqb_spec (TrimSpace raw) ""); done.
Qed.

Lemma tls_addresses_trimmed c a : a ∈ TLSListenAddrList c → a ≠ "" ∧ TrimSpace a = a.
Proof.
  unfold TLSListenAddrList. destruct (tls_Enabled _); cbn [negb]; [|set_solver].
  destruct (_ && _).
  - rewrite elem_of_non_blank. intros (Hne & raw & _ & <-). split; [done|]. apply TrimSpace_idemp.
  - by intros ->%list_elem_of_singleton.
Qed.

(** An address is served either in plain text or with TLS. *)
Lemma listeners_disjoint c a : a ∈ PlainListenAddrList c → a ∉ TLSListenAddrList c.
Proof.
  unfold PlainListenAddrList. destruct (tls_Enabled (ic_TLS c)) eqn:E; cbn [negb].
  - rewrite list_elem_of_filter, elem_of_list_to_set, elem_of_non_blank. intros [Hn _] Hin. apply Hn.
    pose proof (tls_addresses_trimmed c a Hin) as [Hne Ht]. split; [done|]. by exists a.
  - unfold TLSListenAddrList. rewrite E. cbn. set_solver.
Qed.

Lemma listen_all_result fmt listen addrs opened :
  match listen_all fmt listen addrs opened with
  | (Ok all, rest_open) => all = opened ++ addrs ∧ rest_open = all ∧ Forall (λ a, listen a = Ok tt) addrs
  | (Err _, rest_open) => rest_open = [] ∧ ∃ a e, a ∈ addrs ∧ listen a = Err e
  end.
Proof.
  revert opened. induction addrs as [|a r IH]; intros opened; cbn; [by rewrite app_nil_r|].
  destruct (listen a) as [[]|e] eqn:E; [|split; [done|]; exists a, e; split; [set_solver|done]].
  specialize (IH (opened ++ [a])). destruct (listen_all fmt listen r (opened ++ [a])) as [[all|e] rest_open].
  - destruct IH as (-> & -> & Hf). rewrite <-app_assoc. split_and!; [done..|]. by constructor.
  - destruct IH as (-> & a' & e' & Hin & Ha'). split; [done|]. exists a', e'. split; [set_solver|done].
Qed.

(** Either every configured address is open, or none stays open. *)
Lemma openListeners_result ic listen tls :
  match openListeners ic listen tls with
  | (Ok all, rest_open) =>
      all = PlainListenAddrList ic ++ (if tls then TLSListenAddrList ic else []) ∧ rest_open = all ∧ all ≠ [] ∧
      Forall (λ a, listen a = Ok tt) all
  | (Err _, rest_open) => rest_open = []
  end.
Proof.
  unfold openListeners. pose proof (listen_all_result "listen %s" listen (PlainListenAddrList ic) []) as HP.
  destruct (listen_all _ _ _ []) as [[opened|e] ro]; [|by destruct HP]. destruct HP as (-> & _ & Hf).
  cbn [app] in *. set (plain := PlainListenAddrList ic) in *.
  assert (match (if tls then listen_all "listen tls %s" listen (TLSListenAddrList ic) plain else (Ok plain, plain)) with
          | (Ok all, rest_open) => all = plain ++ (if tls then TLSListenAddrList ic else []) ∧ rest_open = all ∧
                                   Forall (λ a, listen a = Ok tt) all
          | (Err _, rest_open) => rest_open = [] end) as HT.
  { destruct tls; [|by rewrite app_nil_r].
    pose proof (listen_all_result "listen tls %s" listen (TLSListenAddrList ic) plain) as HT.
    destruct (listen_all _ _ _ _) as [[all|e] ro']; [|by destruct HT].
    destruct HT as (-> & -> & HF). split_and!; [done..|]. by apply Forall_app. }
  destruct (if tls then _ else _) as [[all|e] ro']; [|by subst]. destruct HT as (-> & -> & HF).
  destruct (Nat.eqb_spec (length (plain ++ if tls then TLSListenAddrList ic else [])) 0) as [E|Hne]; [done|].
  split_and!; [done..| |done]. intros E. by rewrite E in Hne.
Qed.

(** ** The service *)
Section lifecycle.
Context `{UnicodeLower} (ic : IngressConfig).
Variable url_parse new_endpoint : string → res unit.

Lemma buildValeSnapshot_ok routes snapshot n :
  buildValeSnapshot url_parse new_endpoint routes = Ok (snapshot, n) →
  n = length routes ∧ length snapshot = n ∧
  ∀ i c, snapshot !! i = Some c → ∃ r, routes !! i = Some r ∧ addValeRoute url_parse new_endpoint i r = Ok c.
Proof.
  unfold buildValeSnapshot. intros Hb. apply res_bind_ok in Hb as (s & Hf & E). simplify_eq. split; [done|].
  assert (length snapshot = length routes ∧
    ∀ i c, snapshot !! i = Some c → ∃ r, routes !! i = Some r ∧ addValeRoute url_parse new_endpoint i r = Ok c) as [? ?];
    [|done].
  revert Hf. apply (range_fold_inv_at (λ l s, length s = length l ∧
    ∀ i c, s !! i = Some c → ∃ r, l !! i = Some r ∧ addValeRoute url_parse new_endpoint i r = Ok c)); [done|].
  intros before x st st' [Hl Hi] _ Ha. apply res_bind_ok in Ha as (c & Hc & E). injection E as <-.
  rewrite !length_app, Hl. split; [done|]. intros i c' Hlk.
  apply lookup_app_Some in Hlk as [Hlk|[Hge Hlk]].
  - apply Hi in Hlk as (r & Hr & Hadd). exists r. split; [by apply lookup_app_l_Some|done].
  - apply list_lookup_singleton_Some in Hlk as [Hz <-]. assert (i = length before) as -> by lia.
    exists x. by rewrite lookup_app_r, Nat.sub_diag by lia.
Qed.

(** The addresses of a running service. *)
Definition ingress_addresses : list string := PlainListenAddrList ic ++ TLSListenAddrList ic.

Definition serving_ingress (routes : list RouteConfig) (snapshot : list compiledRoute) : IngressService :=
  mkIngressService true (Some snapshot) (length ingress_addresses) (Z.of_nat (length routes)) ingress_addresses true.

(** Stopped, or serving one whole compiled table on every configured address. *)
Definition ingress_inv (s : IngressService) : Prop :=
  s = NewIngress ∨
  ic_Enabled ic = true ∧ ingress_addresses ≠ [] ∧
  ∃ routes snapshot, buildValeSnapshot url_parse new_endpoint routes = Ok (snapshot, length routes) ∧
    s = serving_ingress routes snapshot.

Inductive ingress_call :=
  | IngressStart (listen : string → res unit) (routes : list RouteConfig)
  | IngressRefresh (routes : list RouteConfig)
  | IngressStop.

Definition ingress_run (c : ingress_call) (s : IngressService) : IngressService :=
  match c with
  | IngressStart listen routes => (ingress_Start ic url_parse new_endpoint listen routes s).2
  | IngressRefresh routes => refreshRoutes ic url_parse new_endpoint routes s
  | IngressStop => ingress_Stop s
  end.

(** A refresh replaces the whole table, or keeps it when the new routes do not compile. *)
Lemma refresh_serving routes routes' snapshot :
  ic_Enabled ic = true →
  refreshRoutes ic url_parse new_endpoint routes' (serving_ingress routes snapshot) =
    match buildValeSnapshot url_parse new_endpoint routes' with
    | Ok (snapshot', _) => serving_ingress routes' snapshot'
    | Err _ => serving_ingress routes snapshot
    end.
Proof.
  intros He. unfold refreshRoutes. rewrite He. cbn.
  destruct (buildValeSnapshot _ _ routes') as [[snapshot' n]|e] eqn:E; [|done].
  by apply buildValeSnapshot_ok in E as (-> & _).
Qed.

Lemma refresh_inv routes' s : ingress_inv s → ingress_inv (refreshRoutes ic url_parse new_endpoint routes' s).
Proof.
  intros [->|(He & Ha & routes & snapshot & Hb & ->)].
  - left. unfold refreshRoutes. destruct (negb _); [done|].
    by destruct (buildValeSnapshot _ _ routes') as [[]|].
  - right. rewrite refresh_serving by done. split_and!; [done..|].
    destruct (buildValeSnapshot _ _ routes') as [[snapshot' n]|e] eqn:E; [|by eauto].
    exists routes', snapshot'. split; [|done]. pose proof E as E'. by apply buildValeSnapshot_ok in E' as (-> & _).
Qed.

Lemma startTLSConfig_addresses tls :
  startTLSConfig ic = Ok tls →
  PlainListenAddrList ic ++ (if tls then TLSListenAddrList ic else []) = ingress_addresses.
Proof.
  unfold startTLSConfig, ingress_addresses, TLSListenAddrList. destruct (tls_Enabled (ic_TLS ic)); cbn [negb].
  - destruct (newAutocertManager _) as [[]|]; [|done]. by intros [= <-].
  - by intros [= <-].
Qed.

(** What [Start] does from the stopped state. *)
Lemma start_result listen routes r s :
  ingress_Start ic url_parse new_endpoint listen routes NewIngress = (r, s) →
  match r with
  | Err _ => s = NewIngress
  | Ok _ => s = NewIngress ∧ ic_Enabled ic = false ∨
            ic_Enabled ic = true ∧ ingress_addresses ≠ [] ∧ Forall (λ a, listen a = Ok tt) ingress_addresses ∧
            s = refreshRoutes ic url_parse new_endpoint routes (serving_ingress [] [])
  end.
Proof.
  unfold ingress_Start. destruct (ic_Enabled ic) eqn:He; cbn [negb]; [|intros [= <- <-]; by left].
  cbn [is_started NewIngress]. destruct (startTLSConfig ic) as [tls|e] eqn:Et; [|by intros [= <- <-]].
  pose proof (openListeners_result ic listen tls) as Ho.
  destruct (openListeners ic listen tls) as [[all|e] ro]; [|subst; by intros [= <- <-]].
  rewrite (startTLSConfig_addresses tls Et) in Ho. destruct Ho as (-> & _ & Hne & HF).
  cbn. intros [= <- <-]. right. split_and!; done.
Qed.

Lemma ingress_run_inv c s : ingress_inv s → ingress_inv (ingress_run c s).
Proof.
  intros Hs. destruct c as [listen routes|routes|]; cbn.
  - destruct Hs as [->|(He & Ha & routes' & snapshot & Hb & ->)].
    + destruct (ingress_Start _ _ _ listen routes NewIngress) as [r s] eqn:E. apply start_result in E. cbn.
      destruct r as [[]|e]; [|by left]. destruct E as [[-> _]|(He & Ha & _ & ->)]; [by left|].
      apply refresh_inv. right. split_and!; [done..|]. by exists [], [].
    + unfold ingress_Start. rewrite He. cbn. right. split_and!; [done..|]. eauto.
  - by apply refresh_inv.
  - destruct Hs as [->|(_ & _ & ? & ? & _ & ->)]; by left.
Qed.

Lemma ingress_reachable_inv calls : ingress_inv (foldl (λ s c, ingress_run c s) NewIngress calls).
Proof.
  induction calls as [|c calls IH] using rev_ind; [by left|]. rewrite foldl_app. by apply ingress_run_inv.
Qed.
End lifecycle.
