(* ===== verification/Gossip.v ===== *)
(** * Gossip discovery (internal/gossipsvc: types.go, metadata.go, events.go, raft_join.go,
    service.go; internal/config/accessible_urls.go FixLoopbackHost)

    Nodes advertise their Raft address in memberlist metadata; the leader adds the live nodes
    it discovers to the Raft group.  Package memberlist answers as parameters (its member
    list, the results of creating and joining); the JSON codec of the metadata is an
    interface. *)
From stdpp Require Import base strings numbers gmap list.
From Stdlib Require Import Ascii.
From S2P Require Import Prelude GoStrings GoTime GoNet GoList Deploy Meta Placement Fsm RaftService RaftMembers.
From S2P Require Import GoText TaskBase TaskRun Ingress.

(** ** types.go *)
Record GossipNode := mkGossipNode {
  gn_ID : string; gn_GossipAddress : string; gn_RaftAddress : string; gn_APIURL : string;
  gn_Version : string; gn_State : string; gn_UpdatedAt : Z }.

Record nodeMetadata := mkNodeMetadata {
  nm_NodeID : string; nm_RaftAddress : string; nm_APIURL : string; nm_Version : string }.

(** [json.Marshal] and [json.Unmarshal] at [nodeMetadata]. *)
Class MetadataCodec := {
  marshal_metadata : nodeMetadata → res (list ascii);
  unmarshal_metadata : list ascii → res nodeMetadata;
}.

(** Documented: what was marshalled is read back, and is a JSON object, so not empty. *)
Class MetadataCodecLaws `{MetadataCodec} := {
  metadata_roundtrip m b : marshal_metadata m = Ok b → unmarshal_metadata b = Ok m;
  metadata_nonempty m b : marshal_metadata m = Ok b → b ≠ [];
}.

(** ** metadata.go *)
Definition normal_metadata (m : nodeMetadata) : nodeMetadata :=
  mkNodeMetadata (TrimSpace (nm_NodeID m)) (TrimSpace (nm_RaftAddress m))
    (TrimRightByte (TrimSpace (nm_APIURL m)) "/") (TrimSpace (nm_Version m)).

Definition without_url (m : nodeMetadata) : nodeMetadata :=
  mkNodeMetadata (nm_NodeID m) (nm_RaftAddress m) "" (nm_Version m).

(** [[]] stands for the nil slice. *)
Definition encodeNodeMetadata `{MetadataCodec} (meta : nodeMetadata) (limit : Z) : list ascii :=
  let meta := normal_metadata meta in
  match marshal_metadata meta with
  | Err _ => []
  | Ok b =>
      if (limit <=? 0)%Z || (Z.of_nat (length b) <=? limit)%Z then b
      else match marshal_metadata (without_url meta) with
           | Err _ => []
           | Ok b' => if (limit <? Z.of_nat (length b'))%Z then [] else b'
           end
  end.

Definition decodeNodeMetadata `{MetadataCodec} (raw : list ascii) : option nodeMetadata :=
  if (length raw =? 0)%nat then None
  else match unmarshal_metadata raw with
       | Err _ => None
       | Ok m =>
           let m := normal_metadata m in
           if negb (nm_NodeID m =? "")%string then Some m else None
       end.

Inductive NodeStateType := StateAlive | StateSuspect | StateDead | StateLeft | StateOther.

Definition nodeStateName (s : NodeStateType) : string :=
  match s with
  | StateAlive => "alive"
  | StateSuspect => "suspect"
  | StateDead => "dead"
  | StateLeft => "left"
  | StateOther => "unknown"
  end.

(** config.FixLoopbackHost *)
Definition FixLoopbackHost (raw : string) : string :=
  let addr := TrimSpace raw in
  if (addr =? "")%string then ""
  else
    let addr := if HasPrefix addr ":" then "127.0.0.1" +:+ addr else addr in
    match SplitHostPort addr with
    | Err _ => addr
    | Ok (host, port) =>
        let host := if (host =? "")%string || (host =? "0.0.0.0")%string || (host =? "::")%string ||
                       (host =? "[::]")%string then "127.0.0.1" else host in
        JoinHostPort host port
    end.

Record GossipConfig := mkGossipConfig {
  gc_Enabled : bool; gc_Bind : string; gc_Advertise : string; gc_Seeds : list string; gc_SecretKey : string;
  gc_APIURL : string; gc_AutoJoinRaft : bool; gc_ReconcileInterval : string;
  gc_HTTPAddr : string;  (** cfg.HTTP.Addr *)
  gc_Nodes : list (string * string)  (** cfg.Cluster.Nodes, in iteration order *) }.

Definition gossip_apiURL (cfg : GossipConfig) (local : string) : string :=
  let url := TrimRightByte (TrimSpace (gc_APIURL cfg)) "/" in
  if negb (url =? "")%string then url
  else match cluster_NodeURL (gc_Nodes cfg) local with
       | Some url => url
       | None =>
           let addr := FixLoopbackHost (gc_HTTPAddr cfg) in
           if negb (addr =? "")%string then "http://" +:+ addr else ""
       end.

(** [version] is [buildmeta.Version()]. *)
Definition nodeMeta `{MetadataCodec} (cfg : GossipConfig) (local version : string) (raft : Service) (limit : Z)
    : list ascii :=
  encodeNodeMetadata
    (mkNodeMetadata (TrimSpace local) (TrimSpace (sv_localAddress raft)) (gossip_apiURL cfg local) version) limit.

(** ** events.go *)

(** memberlist.Node, as far as it is read. *)
Record MLNode := mkMLNode { ml_Meta : list ascii; ml_Address : string; ml_State : NodeStateType }.
Inductive NodeEventType := NodeJoin | NodeLeave | NodeUpdate.

Section events.
Context `{MetadataCodec}.

Definition nodeFromMemberlist (now : Z) (member : MLNode) : option GossipNode :=
  meta ← decodeNodeMetadata (ml_Meta member);
  Some (mkGossipNode (nm_NodeID meta) (TrimSpace (ml_Address member)) (nm_RaftAddress meta) (nm_APIURL meta)
          (nm_Version meta) (nodeStateName (ml_State member)) now).

Definition set_left (now : Z) (n : GossipNode) : GossipNode :=
  mkGossipNode (gn_ID n) (gn_GossipAddress n) (gn_RaftAddress n) (gn_APIURL n) (gn_Version n) "left" now.

Definition members_t := gmap string GossipNode.

Definition applyNodeEvent (now : Z) (event : NodeEventType) (member : option MLNode) (members : members_t)
    : members_t :=
  match m ← member; nodeFromMemberlist now m with
  | None => members
  | Some node =>
      match event with
      | NodeJoin | NodeUpdate => <[gn_ID node := node]> members
      | NodeLeave => let node := set_left now node in <[gn_ID node := node]> members
      end
  end.

(** [None]: memberlist is not running. *)
Definition refreshMembers (now : Z) (live : option (list MLNode)) (members : members_t) : members_t :=
  match live with
  | None => members
  | Some l =>
      foldl (λ ms m, match nodeFromMemberlist now m with
                     | Some node => <[gn_ID node := node]> ms
                     | None => ms
                     end) members l
  end.
End events.

(** ** raft_join.go *)
Definition isRaftJoinCandidate (node : GossipNode) (existing : gset string) (localID : string) : bool :=
  let id := TrimSpace (gn_ID node) in
  if (id =? "")%string || (id =? localID)%string || (TrimSpace (gn_RaftAddress node) =? "")%string then false
  else if negb (EqualFold (TrimSpace (gn_State node)) "alive") then false
  else negb (bool_decide (id ∈ existing)).

Definition raft_member_ids (members : list Member) : gset string :=
  list_to_set (non_blank (mb_ID <$> members)).

Section join.
Context `{Digest, Codec, ReplicaOrder, ListSort}.

Definition raftMemberIDs (ctxErr : res unit) (membership : res Membership) (raft : Service) : res (gset string) :=
  members ← wrap "list raft members" [] (ListMembers ctxErr membership raft);
  Ok (raft_member_ids members).

(** [order] is the iteration order of the concurrent map. *)
Definition raftJoinCandidates (order : members_t → list GossipNode) (local : string) (members : members_t)
    (existing : gset string) : list GossipNode :=
  list_sort (by_key gn_ID)
    (filter (λ n, Is_true (isRaftJoinCandidate n existing (TrimSpace local))) (order members)).

(** The loop over the candidates: the calls to [AddVoter] that were made, the result and the
    service.  [ctx] and [host] are what context (asked here and by [AddVoter]) and NodeHost
    answer at each candidate. *)
Fixpoint join_all (ctx : GossipNode → res unit * res unit) (host : GossipNode → NodeHost) (candidates : list GossipNode)
    (raft : Service) : list GossipNode * res unit * Service :=
  match candidates with
  | [] => ([], Ok tt, raft)
  | node :: rest =>
      match (ctx node).1 with
      | Err e => ([], Err (Wrapf e "auto join context" []), raft)
      | Ok _ =>
          match AddVoter (host node) (ctx node).2 (gn_ID node) (gn_RaftAddress node) raft with
          | (Err e, raft) => ([node], Err (Wrapf e "add discovered voter %s" [AStr (gn_ID node)]), raft)
          | (Ok _, raft) =>
              let '(calls, r, raft) := join_all ctx host rest raft in (node :: calls, r, raft)
          end
      end
  end.

Record reconcile_answers := mkReconcile {
  ra_status : res Status;
  ra_ctx : res unit;
  ra_membership : res Membership;
  ra_node_ctx : GossipNode → res unit * res unit;
  ra_host : GossipNode → NodeHost }.

Definition reconcileRaftMembership (order : members_t → list GossipNode) (local : string) (a : reconcile_answers)
    (members : members_t) (raft : Service) : list GossipNode * res unit * Service :=
  match wrap "read raft status" [] (ra_status a) with
  | Err e => ([], Err e, raft)
  | Ok st =>
      if negb (st_Ready st) || negb (st_IsLeader st) then ([], Ok tt, raft)
      else
        match raftMemberIDs (ra_ctx a) (ra_membership a) raft with
        | Err e => ([], Err e, raft)
        | Ok existing =>
            join_all (ra_node_ctx a) (ra_host a) (raftJoinCandidates order local members existing) raft
        end
  end.
End join.

Definition reconcileInterval (cfg : GossipConfig) : Z :=
  match ParseDuration (TrimSpace (gc_ReconcileInterval cfg)) with
  | Ok d => if (d <=? 0)%Z then 5000000000 else d
  | Err _ => 5000000000
  end.

(** ** service.go *)
Definition splitGossipAddress (label raw : string) : res (string * Z) :=
  let addr := TrimSpace raw in
  if (addr =? "")%string then Err (Errorf "%s is required" [AStr label])
  else
    '(host, portText) ← wrap "parse %s" [AStr label] (SplitHostPort addr);
    match Atoi portText with
    | Some port =>
        if (port <? 0)%Z || (65535 <? port)%Z
        then Err (Errorf "%s port must be between 0 and 65535" [AStr label])
        else Ok (if (TrimSpace host =? "")%string then "0.0.0.0" else host, port)
    | None => Err (Errorf "%s port must be between 0 and 65535" [AStr label])
    end.

(** [Ok []] is the nil key: no encryption. *)
Definition gossipSecretKey (raw : string) : res (list ascii) :=
  let key := bytes_of (TrimSpace raw) in
  if (length key =? 0)%nat then Ok []
  else if (length key =? 16)%nat || (length key =? 24)%nat || (length key =? 32)%nat then Ok key
  else Err (Errorf "gossip.secret_key must be 16, 24, or 32 bytes" []).

Definition normalizeSeeds `{ListSort} (seeds : list string) : list string := list_sort Compare (non_blank seeds).

Record MLConfig := mkMLConfig {
  mc_Name : string; mc_BindAddr : string; mc_BindPort : Z; mc_Advertise : option (string * Z);
  mc_SecretKey : list ascii }.

Definition memberlistConfig (cfg : GossipConfig) (local : string) : res MLConfig :=
  if (TrimSpace local =? "")%string then Err (Errorf "local node id is required" [])
  else
    '(bindHost, bindPort) ← splitGossipAddress "gossip.bind" (gc_Bind cfg);
    let advertise := TrimSpace (gc_Advertise cfg) in
    adv ← (if negb (advertise =? "")%string
           then a ← splitGossipAddress "gossip.advertise" advertise; Ok (Some a)
           else Ok None);
    secret ← gossipSecretKey (gc_SecretKey cfg);
    Ok (mkMLConfig local bindHost bindPort adv secret).

Record GossipService := mkGossip {
  gs_members : members_t;
  gs_ml : bool;  (** memberlist is running *)
  gs_started : bool;
  gs_loops : nat  (** goroutines of this service that run *) }.

Definition NewGossip : GossipService := mkGossip ∅ false false 0.

Section service.
Context `{MetadataCodec}.
Variables (cfg : GossipConfig) (local : string).

(** [live] is what memberlist lists right after it was created. *)
Definition gossip_Start (ctxErr : res unit) (create : MLConfig → res (list MLNode)) (now : Z) (s : GossipService)
    : res unit * GossipService :=
  if negb (gc_Enabled cfg) then (Ok tt, s)
  else if gs_started s then (Ok tt, s)
  else match wrap "start context" [] ctxErr with
  | Err e => (Err e, s)
  | Ok _ =>
      (* the event loop runs; it is cancelled and waited for when a later step fails *)
      match mc ← memberlistConfig cfg local; wrap "create memberlist" [] (create mc) with
      | Err e => (Err e, s)
      | Ok live =>
          (Ok tt, mkGossip (refreshMembers now (Some live) (gs_members s)) true true (gs_loops s + 2))
      end
  end.

(** Leave and shutdown errors are only logged. *)
Definition gossip_Stop (s : GossipService) : GossipService :=
  if negb (gs_started s) then s else mkGossip (gs_members s) false false 0.

(** [Members]: refreshed, then sorted by id. *)
Definition gossip_Members `{ListSort} (order : members_t → list GossipNode) (now : Z) (live : list MLNode)
    (s : GossipService) : list GossipNode * GossipService :=
  let ms := refreshMembers now (if gs_ml s then Some live else None) (gs_members s) in
  (list_sort (by_key gn_ID) (order ms), mkGossip ms (gs_ml s) (gs_started s) (gs_loops s)).

Definition gossip_event (now : Z) (event : NodeEventType) (member : option MLNode) (s : GossipService)
    : GossipService :=
  mkGossip (applyNodeEvent now event member (gs_members s)) (gs_ml s) (gs_started s) (gs_loops s).
End service.

(** One turn of the reconcile loop: seeds, members, then the Raft group.  [canceled] is whether
    the context had ended, [live] what memberlist lists after joining the seeds. *)
Definition reconcileOnce `{MetadataCodec, Digest, Codec, ReplicaOrder, ListSort} (cfg : GossipConfig) (local : string)
    (order : members_t → list GossipNode) (canceled : bool) (live : list MLNode) (now : Z) (a : reconcile_answers)
    (s : GossipService) (raft : Service) : GossipService * Service * list GossipNode :=
  if canceled then (s, raft, [])
  else
    let ms := refreshMembers now (if gs_ml s then Some live else None) (gs_members s) in
    let s := mkGossip ms (gs_ml s) (gs_started s) (gs_loops s) in
    if negb (gc_AutoJoinRaft cfg) then (s, raft, [])
    else let '(calls, _, raft) := reconcileRaftMembership order local a ms raft in (s, raft, calls).
