(* ===== verification/GossipSpec.v ===== *)
(** * What discovery guarantees

    Metadata that fits is read back as it was advertised; the member table keeps every node
    under its own trimmed id; the leader asks only for live, addressed nodes that are not in
    the Raft group, each once and in order, and a round that succeeds leaves nothing to do. *)
From stdpp Require Import base strings numbers gmap list sorting.
From Stdlib Require Import Ascii.
From S2P Require Import Prelude GoStrings GoTime GoNet GoList Deploy Meta Placement Fsm RaftService RaftSpec.
From S2P Require Import GoText RaftMembers TaskBase TaskRun Ingress IngressSpec Gossip.

(** ** Metadata *)
Section metadata.
Context `{MetadataCodecLaws}.

Lemma encode_fits meta limit b :
  encodeNodeMetadata meta limit = b → b ≠ [] → (0 < limit)%Z → (Z.of_nat (length b) ≤ limit)%Z.
Proof.
  unfold encodeNodeMetadata. intros <- Hne Hl. case_match; [|done].
  case_match eqn:E; [apply orb_true_iff in E as [?%Z.leb_le|?%Z.leb_le]; lia|].
  case_match; [|done]. case_match eqn:E2; [done|]. apply Z.ltb_ge in E2. lia.
Qed.

(** What is advertised comes back: the id, Raft address and version exactly, the URL exactly
    or, when it did not fit, not at all. *)
Lemma metadata_advertised meta limit b :
  encodeNodeMetadata meta limit = b → b ≠ [] → TrimSpace (nm_NodeID meta) ≠ "" →
  ∃ m, decodeNodeMetadata b = Some m ∧ nm_NodeID m = TrimSpace (nm_NodeID meta) ∧
    nm_RaftAddress m = TrimSpace (nm_RaftAddress meta) ∧ nm_Version m = TrimSpace (nm_Version meta) ∧
    (nm_APIURL m = "" ∨ nm_APIURL m = TrimRightByte (TrimSpace (TrimRightByte (TrimSpace (nm_APIURL meta)) "/")) "/").
Proof.
  intros E Hne Hid.
  assert (∃ m, (m = normal_metadata meta ∨ m = without_url (normal_metadata meta)) ∧ marshal_metadata m = Ok b)
    as (m & Hm & Hb).
  { unfold encodeNodeMetadata in E. destruct (marshal_metadata (normal_metadata meta)) as [b0|] eqn:E0; [|by subst].
    destruct (_ || _); [subst; eauto|].
    destruct (marshal_metadata (without_url (normal_metadata meta))) as [b1|] eqn:E1; [|by subst].
    destruct (limit <? _)%Z; [by subst|subst; eauto]. }
  exists (normal_metadata m). unfold decodeNodeMetadata. rewrite (metadata_roundtrip m b Hb).
  apply metadata_nonempty in Hb. destruct b as [|c b]; [done|]. cbn.
  destruct Hm as [->| ->]; cbn; rewrite !TrimSpace_idemp, (proj2 (String.eqb_neq _ _) Hid); eauto 10.
Qed.

(** ** The member table *)
Definition members_ok (ms : members_t) : Prop :=
  map_Forall (λ id n, gn_ID n = id ∧ trimmed id ∧ id ≠ "") ms.

Lemma nodeFromMemberlist_id now m n : nodeFromMemberlist now m = Some n → trimmed (gn_ID n) ∧ gn_ID n ≠ "".
Proof.
  unfold nodeFromMemberlist, decodeNodeMetadata. intros E. apply bind_Some in E as (meta & Hd & [= <-]).
  destruct (_ =? 0)%nat; [done|]. destruct (unmarshal_metadata _) as [m0|]; [|done].
  destruct (String.eqb_spec (nm_NodeID (normal_metadata m0)) ""); [done|]. simplify_eq/=.
  split; [apply TrimSpace_trimmed|done].
Qed.

Lemma applyNodeEvent_ok now event m ms : members_ok ms → members_ok (applyNodeEvent now event m ms).
Proof.
  intros Hms. unfold applyNodeEvent. destruct (m ≫= _) as [n|] eqn:E; [|done].
  apply bind_Some in E as (ml & -> & E). apply nodeFromMemberlist_id in E as [? ?].
  destruct event; by apply map_Forall_insert_2.
Qed.

Lemma refreshMembers_ok now live ms : members_ok ms → members_ok (refreshMembers now live ms).
Proof.
  intros Hms. destruct live as [l|]; [|done]. cbn. revert ms Hms.
  induction l as [|m l IH]; intros ms Hms; [done|]. cbn. apply IH.
  destruct (nodeFromMemberlist now m) as [n|] eqn:E; [|done].
  apply nodeFromMemberlist_id in E as [? ?]. by apply map_Forall_insert_2.
Qed.

(** After a leave the node is not a candidate any more. *)
Lemma leave_state now m ms n :
  nodeFromMemberlist now m = Some n → ∃ n', applyNodeEvent now NodeLeave (Some m) ms !! gn_ID n = Some n' ∧ gn_State n' = "left".
Proof. intros E. unfold applyNodeEvent. cbn. rewrite E. exists (set_left now n). split; [apply lookup_insert_eq|done]. Qed.

(** *** The service's states *)
Definition gossip_inv (s : GossipService) : Prop :=
  members_ok (gs_members s) ∧ gs_ml s = gs_started s ∧ gs_loops s = (if gs_started s then 2%nat else 0%nat).

Inductive gossip_call :=
  | GStart (ctxErr : res unit) (create : MLConfig → res (list MLNode)) (now : Z)
  | GEvent (now : Z) (event : NodeEventType) (member : option MLNode)
  | GRefresh (now : Z) (live : list MLNode)
  | GStop.

Definition gossip_run (cfg : GossipConfig) (local : string) (s : GossipService) (c : gossip_call) : GossipService :=
  match c with
  | GStart ctxErr create now => (gossip_Start cfg local ctxErr create now s).2
  | GEvent now event member => gossip_event now event member s
  | GRefresh now live => mkGossip (refreshMembers now (if gs_ml s then Some live else None) (gs_members s))
                           (gs_ml s) (gs_started s) (gs_loops s)
  | GStop => gossip_Stop s
  end.

Lemma gossip_run_inv cfg local c s : gossip_inv s → gossip_inv (gossip_run cfg local s c).
Proof.
  intros Hs. pose proof Hs as (Hms & Hml & Hl). destruct c as [ctxErr create now|now event member|now live|]; cbn.
  - unfold gossip_Start. destruct (negb _); [done|]. destruct (gs_started s) eqn:E; [done|].
    destruct (wrap _ _ ctxErr) as [u|]; [|done]. destruct (memberlistConfig cfg local) as [mc|]; [|done]. cbn.
    destruct (wrap _ _ (create mc)) as [live|]; [|done]. cbn. split_and!; cbn; [|done|by rewrite Hl].
    by apply (refreshMembers_ok now (Some live)).
  - split_and!; cbn; [by apply applyNodeEvent_ok|done..].
  - split_and!; cbn; [by apply refreshMembers_ok|done..].
  - unfold gossip_Stop. destruct (negb _); [done|]. by split_and!.
Qed.

Lemma gossip_reachable_inv cfg local calls : gossip_inv (foldl (gossip_run cfg local) NewGossip calls).
Proof.
  induction calls as [|c calls IH] using rev_ind; [by split_and!|]. rewrite foldl_app. by apply gossip_run_inv.
Qed.
End metadata.

(** ** Candidates *)
Lemma candidate_spec n existing local :
  isRaftJoinCandidate n existing local = true ↔
    TrimSpace (gn_ID n) ≠ "" ∧ TrimSpace (gn_ID n) ≠ local ∧ TrimSpace (gn_RaftAddress n) ≠ "" ∧
    EqualFold (TrimSpace (gn_State n)) "alive" = true ∧ TrimSpace (gn_ID n) ∉ existing.
Proof.
  unfold isRaftJoinCandidate.
  destruct (String.eqb_spec (TrimSpace (gn_ID n)) ""), (String.eqb_spec (TrimSpace (gn_ID n)) local),
    (String.eqb_spec (TrimSpace (gn_RaftAddress n)) ""); cbn [orb]; try (split; [done|naive_solver]).
  destruct (EqualFold _ _); cbn [negb]; [|split; [done|naive_solver]].
  rewrite negb_true_iff, bool_decide_eq_false. naive_solver.
Qed.

Section candidates.
Context `{ListSortLaws} (order : members_t → list GossipNode) (local : string).
Hypothesis order_all : ∀ ms, order ms ≡ₚ (map_to_list ms).*2.

Lemma elem_of_order ms n : n ∈ order ms ↔ ∃ id, ms !! id = Some n.
Proof.
  rewrite order_all, list_elem_of_fmap. split.
  - intros ([id n'] & -> & Hin). apply elem_of_map_to_list in Hin. eauto.
  - intros [id Hid]. exists (id, n). split; [done|]. by apply elem_of_map_to_list.
Qed.

Lemma elem_of_candidates ms existing n :
  n ∈ raftJoinCandidates order local ms existing ↔
    (∃ id, ms !! id = Some n) ∧ isRaftJoinCandidate n existing (TrimSpace local) = true.
Proof.
  unfold raftJoinCandidates. rewrite elem_of_list_sort, list_elem_of_filter, elem_of_order, Is_true_true. tauto.
Qed.

Lemma order_ids ms : members_ok ms → NoDup (gn_ID <$> order ms).
Proof.
  intros Hms. rewrite order_all.
  assert (gn_ID <$> (map_to_list ms).*2 = (map_to_list ms).*1) as ->; [|apply NoDup_fst_map_to_list].
  rewrite <-list_fmap_compose. apply list_fmap_ext. intros i [id n] Hi. cbn.
  apply list_elem_of_lookup_2, elem_of_map_to_list in Hi. by destruct (Hms id n Hi).
Qed.

(** Candidates come in strictly increasing order of their ids. *)
Lemma candidates_sorted ms existing :
  members_ok ms →
  Sorted (cmp_le (by_key gn_ID)) (raftJoinCandidates order local ms existing) ∧
  NoDup (gn_ID <$> raftJoinCandidates order local ms existing).
Proof.
  intros Hms. split; [apply list_sort_sorted; apply _|].
  unfold raftJoinCandidates. rewrite list_sort_perm.
  eapply sublist_NoDup; [by apply order_ids|]. apply fmap_sublist, sublist_filter.
Qed.
End candidates.

(** ** Joining *)
Section joining.
Context `{Digest, Codec}.

(** The replica a node would get. *)
Definition joined_as (raft : Service) (n : GossipNode) : Prop :=
  ∃ r, replicaIDForNodeID (gn_ID n) = Ok r ∧ sv_replicaToNode raft !! r = Some (TrimSpace (gn_ID n)).

Lemma join_all_calls ctx host cands raft calls r raft' :
  join_all ctx host cands raft = (calls, r, raft') →
  calls `prefix_of` cands ∧ (r = Ok tt → calls = cands) ∧ same_core raft raft' ∧
  (table_ok raft → table_ok raft').
Proof.
  revert raft calls r raft'. induction cands as [|n cands IH]; intros raft calls r raft' E; cbn in E.
  { simplify_eq. by split_and!. }
  destruct ((ctx n).1) as [u|e]; [|simplify_eq; split_and!; [apply prefix_nil|done..]].
  pose proof (addVoter_table (host n) (ctx n).2 (gn_ID n) (gn_RaftAddress n) raft) as Ht.
  destruct (AddVoter (host n) (ctx n).2 (gn_ID n) (gn_RaftAddress n) raft) as [[[]|e] raft1] eqn:Ea.
  - destruct (join_all ctx host cands raft1) as [[calls1 r1] raft2] eqn:Ej. simplify_eq.
    destruct (IH _ _ _ _ Ej) as (Hp & Hr & Hc & Ht1). split_and!.
    + by apply prefix_cons.
    + intros Hok. by rewrite Hr.
    + apply addVoter_ok in Ea as (? & ? & _ & _ & _ & ->). eapply same_core_trans; [apply remember_core|done].
    + auto.
  - simplify_eq. apply addVoter_err in Ea as ->. split_and!; [|done..]. apply prefix_cons, prefix_nil.
Qed.

(** No name in the table, and no other candidate, has the replica of a candidate. *)
Definition collision_free (raft : Service) (cands : list GossipNode) : Prop :=
  (∀ n r id, n ∈ cands → replicaIDForNodeID (gn_ID n) = Ok r → sv_replicaToNode raft !! r = Some id →
             id = TrimSpace (gn_ID n)) ∧
  (∀ n n', n ∈ cands → n' ∈ cands → replicaIDForNodeID (gn_ID n) = replicaIDForNodeID (gn_ID n') →
           TrimSpace (gn_ID n) = TrimSpace (gn_ID n')).

Lemma join_all_names ctx host cands raft calls raft' :
  join_all ctx host cands raft = (calls, Ok tt, raft') → collision_free raft cands →
  sv_replicaToNode raft ⊆ sv_replicaToNode raft' ∧ Forall (joined_as raft') cands.
Proof.
  revert raft calls raft'. induction cands as [|n cands IH]; intros raft calls raft' E [Hc1 Hc2]; cbn in E.
  { simplify_eq. done. }
  destruct ((ctx n).1) as [u|e]; [|done].
  destruct (AddVoter _ _ _ _ raft) as [[[]|e] raft1] eqn:Ea; [|done].
  destruct (join_all ctx host cands raft1) as [[calls1 r1] raft2] eqn:Ej. simplify_eq.
  apply addVoter_ok in Ea as (r & a & Hr & _ & _ & ->). rewrite replicaID_trim in Hr.
  destruct (replicaID_nonblank _ _ Hr) as [Hnb Hr0].
  assert (sv_replicaToNode (rememberMember (TrimSpace (gn_ID n)) r a raft) =
          <[r := TrimSpace (gn_ID n)]> (sv_replicaToNode raft)) as Hm.
  { unfold rememberMember. rewrite TrimSpace_idemp, (proj2 (String.eqb_neq _ _) Hnb), (proj2 (Z.eqb_neq _ _) Hr0). done. }
  apply IH in Ej as [Hsub Hj].
  - rewrite Hm in Hsub. split.
    + etrans; [|exact Hsub]. destruct (sv_replicaToNode raft !! r) as [id|] eqn:El.
      * rewrite (Hc1 n r id) in El by (done || left). by rewrite insert_id.
      * by apply insert_subseteq.
    + constructor; [|done]. exists r. split; [done|].
      eapply lookup_weaken; [|exact Hsub]. apply lookup_insert_eq.
  - split.
    + intros n' r' id Hin Hr' Hl. rewrite Hm in Hl. destruct (decide (r = r')) as [<-|Hne].
      * rewrite lookup_insert_eq in Hl. simplify_eq. apply Hc2; [left|by right|congruence].
      * rewrite lookup_insert_ne in Hl by done. eapply Hc1; [by right|done|done].
    + intros n1 n2 H1 H2. apply Hc2; by right.
Qed.
End joining.

(** ** A whole round *)
Section round.
Context `{Digest, Codec, ReplicaOrderLaws, ListSortLaws} (order : members_t → list GossipNode) (local : string).
Hypothesis order_all : ∀ ms, order ms ≡ₚ (map_to_list ms).*2.

Lemma elem_of_member_ids m s ex id :
  sv_nh s = true → raftMemberIDs (Ok tt) (Ok m) s = Ok ex →
  id ∈ ex ↔ id ≠ "" ∧ ∃ r, r ∈ replicas m ∧ TrimSpace (mb_ID (memberFromReplicaID m s r)) = id.
Proof.
  intros Hn. unfold raftMemberIDs. rewrite ListMembers_ok by done. cbn. intros [= <-].
  unfold raft_member_ids. rewrite elem_of_list_to_set, elem_of_non_blank. f_equiv. split.
  - intros (raw & Hin & Ht). apply list_elem_of_fmap in Hin as (mb & -> & Hin).
    apply list_elem_of_fmap in Hin as (r & -> & Hin). exists r. split; [|done].
    by rewrite <-(sortedMembership_perm m s).
  - intros (r & Hin & Ht). exists (mb_ID (memberFromReplicaID m s r)). split; [|done].
    apply list_elem_of_fmap. eexists. split; [done|]. apply list_elem_of_fmap. exists r. split; [done|].
    by rewrite sortedMembership_perm.
Qed.

Lemma known_listed m s ex r id :
  sv_nh s = true → table_ok s → raftMemberIDs (Ok tt) (Ok m) s = Ok ex →
  r ∈ replicas m → sv_replicaToNode s !! r = Some id → id ∈ ex.
Proof.
  intros Hn Ht He Hr Hl. destruct (Ht r id Hl) as [Htr Hid]. apply replicaID_nonblank in Hid as [Hnb _].
  rewrite Htr in Hnb. rewrite (elem_of_member_ids m s ex id Hn He). split; [done|]. exists r. split; [done|].
  rewrite memberFromReplicaID_eq. cbn. by rewrite (nodeIDForMember_known r id) by (done || by rewrite Htr).
Qed.

(** Only the leader changes the group, and asks for nothing but discovered live nodes that
    are not members. *)
Lemma reconcile_calls a ms raft calls r raft' :
  reconcileRaftMembership order local a ms raft = (calls, r, raft') →
  same_core raft raft' ∧ (table_ok raft → table_ok raft') ∧
  (calls ≠ [] → ∃ st ex, ra_status a = Ok st ∧ st_Ready st = true ∧ st_IsLeader st = true ∧
     raftMemberIDs (ra_ctx a) (ra_membership a) raft = Ok ex ∧
     calls `prefix_of` raftJoinCandidates order local ms ex).
Proof.
  assert (∀ P : Prop, same_core raft raft ∧ (table_ok raft → table_ok raft) ∧ (@nil GossipNode ≠ [] → P)) as idle
    by (intros P; by split_and!).
  unfold reconcileRaftMembership. destruct (wrap _ _ (ra_status a)) as [st|e] eqn:Es; [|cbn; intros E; simplify_eq; apply idle].
  rewrite wrap_ok in Es. destruct (st_Ready st) eqn:E1; [|cbn; intros E; simplify_eq; apply idle].
  destruct (st_IsLeader st) eqn:E2; cbn; [|cbn; intros E; simplify_eq; apply idle].
  destruct (raftMemberIDs (ra_ctx a) (ra_membership a) raft) as [ex|e] eqn:Ex; [|cbn; intros E; simplify_eq; apply idle].
  intros Ej. apply join_all_calls in Ej as (Hp & _ & Hc & Ht). split_and!; [done..|]. intros _. by exists st, ex.
Qed.

(** Once a round has succeeded and the group contains what was added, the next one finds no
    candidate. *)
Lemma reconcile_converges a st m ms raft calls raft' ex m' ex' :
  ra_status a = Ok st → st_Ready st = true → st_IsLeader st = true →
  ra_ctx a = Ok tt → ra_membership a = Ok m →
  raftMemberIDs (Ok tt) (Ok m) raft = Ok ex →
  sv_nh raft = true → table_ok raft → known_members m raft →
  collision_free raft (raftJoinCandidates order local ms ex) →
  reconcileRaftMembership order local a ms raft = (calls, Ok tt, raft') →
  (∀ r, r ∈ replicas m → r ∈ replicas m') →
  Forall (λ n, ∀ r, replicaIDForNodeID (gn_ID n) = Ok r → r ∈ replicas m') calls →
  raftMemberIDs (Ok tt) (Ok m') raft' = Ok ex' →
  raftJoinCandidates order local ms ex' = [].
Proof.
  intros Hst Hready Hlead Hctx Hm Hex Hnh Ht Hk Hcf Hrec Hsub Hadd Hex'.
  unfold reconcileRaftMembership in Hrec. rewrite Hst, Hctx, Hm in Hrec. cbn [wrap] in Hrec.
  rewrite Hready, Hlead, Hex in Hrec. cbn [negb orb] in Hrec.
  pose proof (join_all_calls _ _ _ _ _ _ _ Hrec) as (_ & Hcalls & (_ & Hnh' & _) & Ht').
  specialize (Hcalls eq_refl). subst calls. specialize (Ht' Ht). rewrite Hnh in Hnh'.
  pose proof (join_all_names _ _ _ _ _ _ Hrec Hcf) as [Hinc Hj].
  apply elem_of_nil_inv. intros n Hn. apply (elem_of_candidates order local order_all) in Hn as [Hin Hc].
  apply candidate_spec in Hc as (Hnb & Hloc & Hra & Hal & Hnot).
  destruct (decide (TrimSpace (gn_ID n) ∈ ex)) as [Hold|Hnew].
  - apply (elem_of_member_ids m raft ex _ Hnh Hex) in Hold as (_ & r & Hr & Hname).
    apply Hnot. destruct (Hk r Hr) as [id Hid]. destruct (Ht r id Hid) as [Htr Hrid].
    apply replicaID_nonblank in Hrid as [Hidnb _].
    rewrite memberFromReplicaID_eq in Hname. cbn in Hname.
    rewrite (nodeIDForMember_known r id) in Hname by done. rewrite Htr in Hname. subst id.
    eapply (known_listed m' raft'); [done|exact Ht'|exact Hex'|by apply Hsub|]. by eapply lookup_weaken.
  - assert (n ∈ raftJoinCandidates order local ms ex) as Hcand.
    { apply (elem_of_candidates order local order_all). split; [done|]. by apply candidate_spec. }
    rewrite Forall_forall in Hj, Hadd. destruct (Hj n Hcand) as (r & Hr & Hl). apply Hnot.
    eapply (known_listed m' raft'); [done|exact Ht'|exact Hex'|by apply (Hadd n Hcand)|done].
Qed.
End round.

(** A leader that restarts does not know the names of members that joined by discovery, and
    asks for them again. *)
Lemma restarted_leader_readds :
  let n := (raft_Start (H := merge_list_sort) restart_config "" restart_answers (NewNode "node-b")).2 in
  let node := mkGossipNode "node-c" "10.0.0.3:7946" "10.0.0.3:7000" "" "" "alive" 0 in
  match replicaIDForNodeID "node-b", replicaIDForNodeID "node-c" with
  | Ok rb, Ok rc =>
      match raftMemberIDs (H1 := keys_order) (H2 := merge_list_sort) (Ok tt)
              (Ok (mkMembership {[rb := "10.0.0.2:7000"; rc := "10.0.0.3:7000"]} ∅ ∅)) (rn_service n) with
      | Ok ex => gn_ID <$> raftJoinCandidates (H2 := merge_list_sort) (λ ms, (map_to_list ms).*2) "node-b"
                             {["node-c" := node]} ex
      | Err _ => []
      end
  | _, _ => []
  end = ["node-c"].
Proof. vm_compute. reflexivity. Qed.
