(* ===== verification/Compose.v ===== *)
(** * Importing Compose projects (internal/deploy/composeimport: mapper.go, mapper_docker.go,
    mapper_mounts.go, mapper_resources.go, report.go)

    A parsed Compose project (package compose-go) is mapped to a canonical document with a
    report of what could not be mapped.  The project is the input; what its methods
    [ServiceNames], [GetScale] and [ToMapping] return are fields of it. *)
From stdpp Require Import base strings numbers gmap list.
From Stdlib Require Import Ascii SpecFloat.
From S2P Require Import Prelude GoStrings GoTime GoNet GoList Deploy Meta GoText TaskBase TaskRun.

(** ** The project *)
Record ComposePort := mkPort {
  cp_Target : Z;  (** uint32 *) cp_Published : string; cp_Protocol : string; cp_HostIP : string }.
Record ComposeVolume := mkComposeVolume {
  cv_Type : string; cv_Source : string; cv_Target : string; cv_ReadOnly : bool }.
(** [NanoCPUs] is a float32, [UnitBytes] an int64. *)
Record ComposeResource := mkComposeResource { cr_NanoCPUs : spec_float; cr_MemoryBytes : Z }.
Record ComposeDeploy := mkComposeDeploy {
  cd_Labels : gmap string string; cd_Limits : option ComposeResource; cd_Reservations : option ComposeResource }.
Record ComposeService := mkComposeService {
  sc_Image : string; sc_Entrypoint : list string; sc_Command : list string;
  sc_Environment : gmap string string;  (** Environment.ToMapping() *)
  sc_WorkingDir : string;
  sc_Scale : Z;  (** GetScale() *)
  sc_Ports : list ComposePort; sc_DependsOn : gmap string string;  (** the conditions *)
  sc_Deploy : option ComposeDeploy; sc_HealthCheck : option bool;  (** its Disable flag *)
  sc_Volumes : list ComposeVolume; sc_NetworkMode : string; sc_Privileged : bool;
  sc_Labels : gmap string string; sc_Networks : gset string }.

Definition no_service : ComposeService :=
  mkComposeService "" [] [] ∅ "" 0 [] ∅ None None [] "" false ∅ ∅.

Record ComposeProject := mkProject {
  pj_Name : string; pj_Networks : nat; pj_Volumes : gset string;
  pj_ServiceNames : list string; pj_Services : gmap string ComposeService }.

(** [Report]: the warnings, each a format with its arguments. *)
Definition Report := list error.
Record ImportResult := mkImport { im_App : App; im_Report : Report }.

(** ** mapper.go *)
Definition sanitizeProjectRune (r : Z) : ascii :=
  if in_range 97 122 r || in_range 65 90 r || in_range 48 57 r || (r =? 95)%Z || (r =? 45)%Z || (r =? 46)%Z
  then ascii_of_N (Z.to_N r) else "-"%char.

Definition sanitizeProjectName (name : string) : string :=
  let n := TrimSpace name in
  if (n =? "")%string then "compose-import"
  else
    let out := sanitizeProjectRune <$> runes n in
    match out with
    | [] => "compose-"
    | c :: _ =>
        if (byte_val c <? 65)%N || ((90 <? byte_val c) && (byte_val c <? 97))%N
        then "compose-" +:+ of_bytes out else of_bytes out
    end.

Section mapper.
Context `{UnicodeLower, ListSort}.

(** The keys of a map, in order. *)
Definition sortedMapKeys {V} (m : gmap string V) : list string := list_sort Compare (map_to_list m).*1.
Definition sortedSetKeys (m : gset string) : list string := list_sort Compare (elements m).

Definition mapComposeVolumes (proj : ComposeProject) : list Volume :=
  (λ name, mkVolume name true 0) <$> sortedSetKeys (pj_Volumes proj).

Definition mergeVolumesDedup (existing add : list Volume) : list Volume :=
  (foldl (λ '(seen, out) v, if decide (vol_Name v ∈ seen) then (seen, out)
                            else ({[vol_Name v]} ∪ seen, out ++ [v]))
     (list_to_set (vol_Name <$> existing) : gset string, existing) add).2.

Definition envFromCompose (m : gmap string string) : list EnvVar :=
  (λ k, mkEnvVar k (default "" (m !! k))) <$> sortedMapKeys m.

Definition composeReplicas (s : ComposeService) : Z := if (sc_Scale s <=? 0)%Z then 1 else sc_Scale s.

Definition endpointProtoFromCompose (service : string) (port : ComposePort) (rep : Report) : string * Report :=
  let p := ToLower (cp_Protocol port) in
  if (p =? "udp")%string then (ProtoUDP, rep)
  else if (p =? "tcp")%string || (p =? "")%string then (ProtoTCP, rep)
  else (ProtoTCP, rep ++ [Errorf "service %q: port %d protocol %q mapped as tcp"
                            [AStr service; AInt (cp_Target port); AStr (cp_Protocol port)]]).

Definition endpointNameFromComposePort (proto : string) (target : Z) : string :=
  let protoStr := ToLower proto in
  (if (protoStr =? "")%string then "tcp" else protoStr) +:+ "-" +:+ Itoa target.

Definition applyEndpointPublishedPort (service : string) (e : Endpoint) (port : ComposePort) (rep : Report)
    : Endpoint * Report :=
  let published := TrimSpace (cp_Published port) in
  if (published =? "")%string then (e, rep)
  else match Atoi published with
       | None => (e, rep ++ [Errorf "service %q: port %d published value %q is not a single host port"
                               [AStr service; AInt (cp_Target port); AStr published]])
       | Some hostPort => (mkEndpoint (ep_Name e) (ep_Port e) (ep_Protocol e) hostPort (ep_HostIP e), rep)
       end.

Definition endpointFromComposePort (service : string) (index : nat) (port : ComposePort) (rep : Report)
    : option Endpoint * Report :=
  if (cp_Target port =? 0)%Z
  then (None, rep ++ [Errorf "service %q: ports[%d] has no container target port, skipped"
                        [AStr service; ANat index]])
  else
    let '(proto, rep) := endpointProtoFromCompose service port rep in
    let e := mkEndpoint (endpointNameFromComposePort proto (cp_Target port)) (cp_Target port) proto 0
               (TrimSpace (cp_HostIP port)) in
    let '(e, rep) := applyEndpointPublishedPort service e port rep in (Some e, rep).

Fixpoint endpoints_from (service : string) (i : nat) (ports : list ComposePort) (rep : Report)
    : list Endpoint * Report :=
  match ports with
  | [] => ([], rep)
  | port :: r =>
      let '(e, rep) := endpointFromComposePort service i port rep in
      let '(es, rep) := endpoints_from service (S i) r rep in
      (option_list e ++ es, rep)
  end.
Definition endpointsFromCompose (service : string) (ports : list ComposePort) (rep : Report)
    : list Endpoint * Report := endpoints_from service 0 ports rep.

Definition ServiceConditionCompletedSuccessfully := "service_completed_successfully".
Definition ServiceConditionHealthy := "service_healthy".
Definition ServiceConditionStarted := "service_started".

(** The warning about a condition, if any. *)
Definition condition_warning (name condition : string) : Report :=
  let c := TrimSpace condition in
  if (c =? "")%string || (c =? ServiceConditionStarted)%string || (c =? ServiceConditionHealthy)%string then []
  else if (c =? ServiceConditionCompletedSuccessfully)%string
  then [Errorf "depends_on service %q uses condition %q (not modeled); treating as dependency edge only"
          [AStr name; AStr condition]]
  else [Errorf "depends_on service %q uses condition %q; treating as ordered dependency" [AStr name; AStr condition]].

Definition dependsFromCompose (d : gmap string string) (rep : Report) : list WorkloadRef * Report :=
  let names := sortedMapKeys d in
  ((λ name, mkWorkloadRef name "") <$> names,
   rep ++ (names ≫= λ name, condition_warning name (default "" (d !! name)))).

(** ** mapper_docker.go *)
Definition baseDockerOptions (s : ComposeService) : DockerOptions :=
  mkDocker (TrimSpace (sc_NetworkMode s)) (sc_Privileged s) (sc_Labels s).

Definition mergeDeployLabels (labels : gmap string string) (s : ComposeService) : gmap string string :=
  match sc_Deploy s with
  | None => labels
  | Some d => map_fold (λ k v acc, if (default "" (acc !! k) =? "")%string then <[k := v]> acc else acc)
                labels (cd_Labels d)
  end.

(** The network mode, and the warning about further networks. *)
Definition fillNetworkModeFromCompose (svcName mode : string) (s : ComposeService) (rep : Report) : string * Report :=
  let names := sortedSetKeys (sc_Networks s) in
  if negb (mode =? "")%string || (size (sc_Networks s) =? 0)%nat then (mode, rep)
  else (default mode (head names),
        if (1 <? length names)%nat
        then rep ++ [Errorf "service %q: multiple compose networks; using first only: %v"
                       (AStr svcName :: (AStr <$> names))]
        else rep).

Definition dockerOptionsEmpty (o : DockerOptions) : bool :=
  (docker_NetworkMode o =? "")%string && (size (docker_Labels o) =? 0)%nat && negb (docker_Privileged o).

Definition dockerOptionsFromCompose (svcName : string) (s : ComposeService) (rep : Report)
    : option DockerOptions * Report :=
  let opts := baseDockerOptions s in
  let labels := mergeDeployLabels (docker_Labels opts) s in
  let '(mode, rep) := fillNetworkModeFromCompose svcName (docker_NetworkMode opts) s rep in
  let opts := mkDocker mode (docker_Privileged opts) labels in
  (if dockerOptionsEmpty opts then None else Some opts, rep).

(** ** mapper_mounts.go *)
Definition bindVolumeFromCompose (service : string) (idx : nat) : Volume :=
  mkVolume ("bind-" +:+ service +:+ "-" +:+ Itoa (Z.of_nat idx)) false 0.

Definition volumeMountFromCompose (service : string) (idx : nat) (target : string) (v : ComposeVolume) (rep : Report)
    : option (Mount * option Volume) * Report :=
  let source := TrimSpace (cv_Source v) in
  if (source =? "")%string
  then (None, rep ++ [Errorf "service %q: volumes[%d] anonymous volume not mapped" [AStr service; ANat idx]])
  else (Some (mkMount (mkVolumeRef source) target (cv_ReadOnly v), None), rep).

Definition bindMountFromCompose (service : string) (idx : nat) (target : string) (v : ComposeVolume) (rep : Report)
    : Mount * Report :=
  let volume := bindVolumeFromCompose service idx in
  (mkMount (mkVolumeRef (vol_Name volume)) target (cv_ReadOnly v),
   rep ++ [Errorf "service %q: bind mount %q -> %q mapped as named volume %q (host path not in canonical volume model yet)"
             [AStr service; AStr (TrimSpace (cv_Source v)); AStr target; AStr (vol_Name volume)]]).

Definition mountFromCompose (service : string) (idx : nat) (v : ComposeVolume) (rep : Report)
    : option (Mount * option Volume) * Report :=
  let target := TrimSpace (cv_Target v) in
  if (target =? "")%string then (None, rep)
  else
    let t := ToLower (TrimSpace (cv_Type v)) in
    if (t =? "")%string || (t =? "volume")%string then volumeMountFromCompose service idx target v rep
    else if (t =? "bind")%string then
      let '(m, rep) := bindMountFromCompose service idx target v rep in
      (Some (m, Some (bindVolumeFromCompose service idx)), rep)
    else if (t =? "tmpfs")%string
    then (None, rep ++ [Errorf "service %q: tmpfs mount %q skipped" [AStr service; AStr target]])
    else (None, rep ++ [Errorf "service %q: volume type %q not mapped" [AStr service; AStr (TrimSpace (cv_Type v))]]).

Fixpoint mounts_from (service : string) (i : nat) (vols : list ComposeVolume) (rep : Report)
    : list Mount * list Volume * Report :=
  match vols with
  | [] => ([], [], rep)
  | v :: r =>
      let '(m, rep) := mountFromCompose service i v rep in
      let '(ms, vs, rep) := mounts_from service (S i) r rep in
      match m with
      | None => (ms, vs, rep)
      | Some (mount, extra) => (mount :: ms, option_list extra ++ vs, rep)
      end
  end.
Definition mountsFromCompose (service : string) (vols : list ComposeVolume) (rep : Report)
    : list Mount * list Volume * Report := mounts_from service 0 vols rep.

(** ** mapper_resources.go *)

(** float32: [NanoCPUs * 1000] truncated to int64.  What the conversion gives outside the range
    of int64 depends on the platform. *)
Variable convert_outside : spec_float → Z.

Definition f32_mul : spec_float → spec_float → spec_float := SFmul 24 128.
Definition f32_1000 : spec_float := binary_normalize 24 128 1000 0 false.
Definition int64_of_f32 (f : spec_float) : Z :=
  match f with
  | S754_infinity _ | S754_nan => convert_outside f
  | _ => let z := f64_trunc f in if (min_int64 <=? z)%Z && (z <=? max_int64)%Z then z else convert_outside f
  end.

Definition composeCPUMillis (src : ComposeResource) : Z :=
  if SFleb (cr_NanoCPUs src) (S754_zero false) then 0
  else int64_of_f32 (f32_mul (cr_NanoCPUs src) f32_1000).

Definition composeMemoryBytes (src : ComposeResource) : Z :=
  if (cr_MemoryBytes src <=? 0)%Z then 0 else cr_MemoryBytes src.

Definition resourcesFromComposeResource (src : option ComposeResource) : option Resources :=
  src ← src;
  let r := mkResources (composeCPUMillis src) (composeMemoryBytes src) in
  if negb (res_CPUMillis r =? 0)%Z || negb (res_MemoryBytes r =? 0)%Z then Some r else None.

Definition resourcesFromCompose (d : option ComposeDeploy) : option Resources :=
  d ← d;
  match resourcesFromComposeResource (cd_Limits d) with
  | Some r => Some r
  | None => resourcesFromComposeResource (cd_Reservations d)
  end.

(** ** One service, and the project *)
Definition mapService (name : string) (s : ComposeService) (rep : Report)
    : option (Workload * list Volume) * Report :=
  let image := TrimSpace (sc_Image s) in
  if (image =? "")%string
  then (None, rep ++ [Errorf "service %q: skipped (no image; compose build-only services are not mapped yet)" [AStr name]])
  else
    let '(docker, rep) := dockerOptionsFromCompose name s rep in
    let '(endpoints, rep) := endpointsFromCompose name (sc_Ports s) rep in
    let '(deps, rep) := dependsFromCompose (sc_DependsOn s) rep in
    let rep := match sc_HealthCheck s with
               | Some false => rep ++ [Errorf "service %q: healthcheck is not mapped to canonical HTTP/TCP probes yet" [AStr name]]
               | _ => rep
               end in
    let '(mounts, extraVol, rep) := mountsFromCompose name (sc_Volumes s) rep in
    (Some (mkWorkload name WorkloadKindService
             (mkRun (mkArtifact image "" "") (mkExec (sc_Entrypoint s) (sc_Command s))
                (envFromCompose (sc_Environment s)) (TrimSpace (sc_WorkingDir s)) ""
                (mkRunOptions docker None None None None None))
             RuntimeDocker (composeReplicas s) deps endpoints mounts
             (resourcesFromCompose (sc_Deploy s)) None None None None, extraVol), rep).

(** The loop over the services: workloads, volumes, report. *)
Definition map_one (proj : ComposeProject) (acc : list Workload * list Volume * Report) (svcName : string)
    : list Workload * list Volume * Report :=
  let '(ws, vols, rep) := acc in
  match mapService svcName (default no_service (pj_Services proj !! svcName)) rep with
  | (None, rep) => (ws, vols, rep)
  | (Some (wl, extraVol), rep) => (ws ++ [wl], mergeVolumesDedup vols extraVol, rep)
  end.

Definition MapProject (proj : option ComposeProject) : res ImportResult :=
  match proj with
  | None => Err (Errorf "compose project is nil" [])
  | Some proj =>
      let rep := if (0 <? pj_Networks proj)%nat
                 then [Errorf "compose networks are not mapped into the canonical model yet (%d defined)"
                         [ANat (pj_Networks proj)]] else [] in
      let '(ws, vols, rep) := foldl (map_one proj) ([], mapComposeVolumes proj, rep) (pj_ServiceNames proj) in
      if (length ws =? 0)%nat
      then Err (Errorf "compose import produced no workloads (need image per service)" [])
      else
        Ok (mkImport
              (mkApp "warden.arcgolabs.io/v1alpha1" "App"
                 (mkMetadata (sanitizeProjectName (pj_Name proj)) "default" ∅
                    {["compose.arcgolabs.io/import" := "true"]}) ws [] [] vols []) rep)
  end.
End mapper.
