(* ===== verification/ComposeSpec.v ===== *)
(** * What an import guarantees

    A project that meets the document model's own limits is imported to a document that
    validation accepts, with one workload per service that has an image, in order; everything
    that is skipped is reported. *)
From stdpp Require Import base strings numbers gmap list relations pretty.
From Stdlib Require Import Ascii SpecFloat.
From S2P Require Import Prelude GoStrings GoTime GoNet GoList Deploy Dependency Validate ValidateSpec Meta GoText.
From S2P Require Import TaskBase TaskRun Compose.

(** ** Names *)
Lemma sanitizeProjectRune_char r : is_name_char (sanitizeProjectRune r) = true.
Proof.
  unfold sanitizeProjectRune. destruct (_ || _) eqn:E; [|done].
  rewrite !orb_true_iff in E. unfold in_range in E. rewrite !andb_true_iff, !Z.leb_le, !Z.eqb_eq in E.
  unfold is_name_char, is_letter, is_digit, byte_val. rewrite N_ascii_embedding by lia.
  rewrite !orb_true_iff, !andb_true_iff, !N.leb_le, !Ascii.eqb_eq.
  destruct E as [[[[[?|?]|?]| ->]| ->]| ->]; [left; left; left; left; right; lia|left; left; left; left; left; lia|
    left; left; left; right; lia|left; right; done|right; done|left; left; right; done].
Qed.

(** A project name that is not too long gives a valid application name. *)
Lemma project_name_valid name :
  (length (runes (TrimSpace name)) ≤ 120)%nat → nameRe (sanitizeProjectName name) = true.
Proof.
  intros Hl. unfold sanitizeProjectName. destruct (_ =? _)%string; [done|].
  assert (forallb is_name_char (sanitizeProjectRune <$> runes (TrimSpace name)) = true) as Hf.
  { apply forallb_forall. intros c Hc. apply list_elem_of_In, list_elem_of_fmap in Hc as (r & -> & _).
    apply sanitizeProjectRune_char. }
  rewrite <-(length_fmap sanitizeProjectRune) in Hl.
  destruct (sanitizeProjectRune <$> runes (TrimSpace name)) as [|c r]; [done|].
  cbn [forallb] in Hf. apply andb_true_iff in Hf as [Hc Hr]. cbn [length] in Hl.
  assert (forallb is_name_char (c :: r) = true) as Hcr by (cbn; by rewrite Hc, Hr).
  destruct (_ || _) eqn:E.
  - unfold nameRe. rewrite bytes_of_app, bytes_of_of_bytes. cbn [bytes_of app String.list_ascii_of_string].
    change (is_letter "c"%char) with true. cbn [andb]. rewrite andb_true_iff. split.
    + apply Nat.leb_le. cbn. lia.
    + change (forallb is_name_char (c :: r) = true) in Hcr. cbn. cbn in Hcr. done.
  - unfold nameRe. rewrite bytes_of_of_bytes. rewrite !andb_true_iff. split_and!; [|apply Nat.leb_le; lia|done].
    apply orb_false_iff in E as [E1 E2]. apply N.ltb_ge in E1. apply andb_false_iff in E2.
    rewrite N.ltb_ge, N.ltb_ge in E2. unfold is_name_char, is_letter, is_digit in *.
    rewrite !orb_true_iff, !andb_true_iff, !N.leb_le, !Ascii.eqb_eq in *.
    destruct Hc as [[[[Hc|Hc]| ->]| ->]| ->]; [done|lia|..]; vm_compute in E1, E2; destruct E2; try done; lia.
Qed.

(** *** Decimal numbers *)
Lemma pretty_char_digit x : is_digit (pretty_N_char x) = true.
Proof. destruct x as [|[[[[]|[]|]|[[]|[]|]|]|[[[]|[]|]|[[]|[]|]|]|]]; done. Qed.

Lemma pretty_N_go_digits n : ∀ x s, (x < 10 ^ N.of_nat n)%N →
  ∃ ds, bytes_of (pretty_N_go x s) = ds ++ bytes_of s ∧ forallb is_digit ds = true ∧ (length ds ≤ n)%nat.
Proof.
  induction n as [|n IH]; intros x s Hx.
  { assert (x = 0)%N as -> by (cbn in Hx; lia). exists []. by rewrite pretty_N_go_0. }
  destruct (decide (x = 0)%N) as [->|Hne]; [exists []; rewrite pretty_N_go_0; split_and!; [done|done|cbn; lia]|].
  rewrite pretty_N_go_step by lia.
  destruct (IH (x `div` 10)%N (String (pretty_N_char (x `mod` 10)) s)) as (ds & Hd & Hf & Hl).
  { apply N.Div0.div_lt_upper_bound. replace (N.of_nat (S n)) with (N.succ (N.of_nat n)) in Hx by lia.
    by rewrite N.pow_succ_r' in Hx. }
  exists (ds ++ [pretty_N_char (x `mod` 10)]). rewrite Hd, <-app_assoc, forallb_app, Hf, length_app. cbn.
  rewrite pretty_char_digit. split_and!; [done|done|lia].
Qed.

Lemma Itoa_digits n z :
  (0 ≤ z < 10 ^ Z.of_nat n)%Z → (0 < n)%nat →
  forallb is_digit (bytes_of (Itoa z)) = true ∧ (length (bytes_of (Itoa z)) ≤ n)%nat.
Proof.
  intros [Hz Hb] Hn. destruct z as [|p|p]; [by split; [|cbn; lia]| |lia].
  change (Itoa (Z.pos p)) with (pretty (N.pos p)). unfold pretty, pretty_N. rewrite decide_False by done.
  destruct (pretty_N_go_digits n (N.pos p) "") as (ds & -> & Hf & Hl).
  { apply N2Z.inj_lt. rewrite N2Z.inj_pow. by rewrite nat_N_Z. }
  by rewrite app_nil_r.
Qed.

(** ** Reports only grow *)
Section mapping.
Context `{UnicodeLower, ListSortLaws} (convert_outside : spec_float → Z).
#[local] Abbreviation mapService := (mapService convert_outside).
#[local] Abbreviation map_one := (map_one convert_outside).
#[local] Abbreviation MapProject := (MapProject convert_outside).

Lemma endpoint_report service i port rep : rep `prefix_of` (endpointFromComposePort service i port rep).2.
Proof.
  unfold endpointFromComposePort, endpointProtoFromCompose, applyEndpointPublishedPort.
  repeat case_match; simplify_eq/=; try done; repeat (apply prefix_app_r); done.
Qed.

Lemma endpoints_report service i ports rep : rep `prefix_of` (endpoints_from service i ports rep).2.
Proof.
  revert i rep. induction ports as [|p r IH]; intros i rep; [done|]. cbn.
  pose proof (endpoint_report service i p rep) as He. destruct (endpointFromComposePort service i p rep) as [e rep1].
  specialize (IH (S i) rep1). destruct (endpoints_from service (S i) r rep1) as [es rep2]. cbn in *. by etrans.
Qed.

Lemma mount_report service i v rep : rep `prefix_of` (mountFromCompose service i v rep).2.
Proof.
  unfold mountFromCompose, volumeMountFromCompose, bindMountFromCompose.
  repeat case_match; simplify_eq/=; try done; by apply prefix_app_r.
Qed.

Lemma mounts_report service i vols rep : rep `prefix_of` (mounts_from service i vols rep).2.
Proof.
  revert i rep. induction vols as [|v r IH]; intros i rep; [done|]. cbn.
  pose proof (mount_report service i v rep) as Hm. destruct (mountFromCompose service i v rep) as [m rep1].
  specialize (IH (S i) rep1). destruct (mounts_from service (S i) r rep1) as [[ms vs] rep2].
  destruct m as [[mt ex]|]; cbn in *; by etrans.
Qed.

(** ** What a service becomes *)
Definition mapped (s : ComposeService) : Prop := TrimSpace (sc_Image s) ≠ "".
#[export] Instance mapped_dec s : Decision (mapped s) := _.

Definition skipped_warning (name : string) : error :=
  Errorf "service %q: skipped (no image; compose build-only services are not mapped yet)" [AStr name].

Lemma mapService_none name s rep :
  ¬ mapped s → mapService name s rep = (None, rep ++ [skipped_warning name]).
Proof. intros Hm. unfold Compose.mapService. destruct (String.eqb_spec (TrimSpace (sc_Image s)) ""); [done|]. by destruct Hm. Qed.

(** The parts of the workload of a service with an image. *)
Record imported (name : string) (s : ComposeService) (w : Workload) : Prop := {
  im_name : w_Name w = name;
  im_kind : w_Kind w = WorkloadKindService ∧ w_Runtime w = RuntimeDocker;
  im_image : art_Image (run_Artifact (w_Run w)) = TrimSpace (sc_Image s);
  im_env : run_Env (w_Run w) = envFromCompose (sc_Environment s);
  im_replicas : w_Replicas w = composeReplicas s;
  im_deps : w_DependsOn w = (λ d, mkWorkloadRef d "") <$> sortedMapKeys (sc_DependsOn s);
  im_resources : w_Resources w = resourcesFromCompose convert_outside (sc_Deploy s);
  im_endpoints : ∃ rep, w_Endpoints w = (endpoints_from name 0 (sc_Ports s) rep).1;
  im_mounts : ∃ rep, w_Mounts w = (mounts_from name 0 (sc_Volumes s) rep).1.1;
  im_rest : w_Health w = None ∧ w_Lifecycle w = None ∧ w_Scheduling w = None ∧ w_Rollout w = None;
}.

Lemma mapService_some name s rep :
  mapped s → ∃ w ev rep', mapService name s rep = (Some (w, ev), rep') ∧ imported name s w ∧ rep `prefix_of` rep'.
Proof.
  intros Hm. unfold Compose.mapService. destruct (String.eqb_spec (TrimSpace (sc_Image s)) ""); [done|].
  destruct (dockerOptionsFromCompose name s rep) as [docker rep1] eqn:E1.
  assert (rep `prefix_of` rep1) as P1.
  { unfold dockerOptionsFromCompose, fillNetworkModeFromCompose in E1.
    repeat case_match; simplify_eq/=; try done; by apply prefix_app_r. }
  unfold endpointsFromCompose. pose proof (endpoints_report name 0 (sc_Ports s) rep1) as P2.
  destruct (endpoints_from name 0 (sc_Ports s) rep1) as [eps rep2] eqn:E2. cbn [snd] in P2.
  unfold dependsFromCompose. set (rep3 := rep2 ++ _).
  assert (rep2 `prefix_of` rep3) as P3 by (by apply prefix_app_r).
  set (rep4 := match sc_HealthCheck s with Some false => _ | _ => _ end).
  assert (rep3 `prefix_of` rep4) as P4 by (unfold rep4; repeat case_match; try done; by apply prefix_app_r).
  unfold mountsFromCompose. pose proof (mounts_report name 0 (sc_Volumes s) rep4) as P5.
  destruct (mounts_from name 0 (sc_Volumes s) rep4) as [[ms vs] rep5] eqn:E5. cbn [snd] in P5.
  do 3 eexists. split; [reflexivity|]. split; [|by repeat (etrans; [eassumption|])].
  split; try done; [exists rep1; by rewrite E2|exists rep4; by rewrite E5].
Qed.

(** ** The whole project *)
Definition service_of (proj : ComposeProject) (name : string) : ComposeService :=
  default no_service (pj_Services proj !! name).

Lemma map_fold_spec proj names vols0 rep0 :
  let '(ws, vols, rep) := foldl (map_one proj) ([], vols0, rep0) names in
  w_Name <$> ws = filter (λ n, mapped (service_of proj n)) names ∧
  Forall (λ w, imported (w_Name w) (service_of proj (w_Name w)) w) ws ∧
  (∀ n, n ∈ names → ¬ mapped (service_of proj n) → skipped_warning n ∈ rep).
Proof.
  induction names as [|n names IH] using rev_ind; [cbn; split_and!; [done|done|set_solver]|].
  rewrite foldl_app. cbn. destruct (foldl (map_one proj) ([], vols0, rep0) names) as [[ws vols] rep].
  destruct IH as (Hn & Hi & Hw). unfold Compose.map_one. fold (service_of proj n).
  destruct (decide (mapped (service_of proj n))) as [Hm|Hm].
  - destruct (mapService_some n (service_of proj n) rep Hm) as (w & ev & rep' & -> & Him & Hp).
    rewrite fmap_app, filter_app, filter_cons_True, filter_nil, Hn by done. cbn. rewrite (im_name _ _ _ Him).
    split_and!; [done| |].
    + apply Forall_app. split; [done|]. apply Forall_singleton. by rewrite (im_name _ _ _ Him).
    + intros n' [Hin| ->%list_elem_of_singleton]%elem_of_app Hnm; [|done].
      eapply elem_of_prefix; [by apply Hw|done].
  - rewrite mapService_none by done. rewrite filter_app, filter_cons_False, filter_nil, app_nil_r by done.
    split_and!; [done..|]. intros n' [Hin| ->%list_elem_of_singleton]%elem_of_app Hnm; [|set_solver].
    apply elem_of_app. left. by apply Hw.
Qed.

(** *** Endpoints *)
Definition valid_compose_port (p : ComposePort) : Prop :=
  (0 ≤ cp_Target p ≤ 65535)%Z ∧
  (∀ hp, Atoi (TrimSpace (cp_Published p)) = Some hp → hp = 0%Z ∨ valid_port hp) ∧
  (nonblank (cp_HostIP p) → is_Some (ParseIP (TrimSpace (cp_HostIP p)))).

Lemma endpoint_name_valid proto target :
  proto = ProtoTCP ∨ proto = ProtoUDP → (0 ≤ target ≤ 65535)%Z →
  nameRe (endpointNameFromComposePort proto target) = true.
Proof.
  intros Hp Ht. destruct (Itoa_digits 5 target) as [Hd Hl]; [lia..|].
  assert (forallb is_name_char (bytes_of (Itoa target)) = true) as Hc.
  { apply forallb_forall. intros c Hin. rewrite forallb_forall in Hd. unfold is_name_char. by rewrite (Hd c Hin), orb_true_r. }
  assert (endpointNameFromComposePort proto target = proto +:+ "-" +:+ Itoa target) as ->.
  { destruct Hp as [-> | ->]; reflexivity. }
  unfold nameRe. rewrite !bytes_of_app. destruct Hp as [-> | ->].
  - cbn -[forallb]. rewrite andb_true_iff. split; [apply Nat.leb_le; cbn; lia|]. cbn. done.
  - cbn -[forallb]. rewrite andb_true_iff. split; [apply Nat.leb_le; cbn; lia|]. cbn. done.
Qed.

Lemma endpoint_valid service i port rep e :
  valid_compose_port port → (endpointFromComposePort service i port rep).1 = Some e → valid_endpoint e.
Proof.
  intros (Ht & Hhp & Hip). unfold endpointFromComposePort.
  destruct (Z.eqb_spec (cp_Target port) 0); [done|].
  assert ((endpointProtoFromCompose service port rep).1 = ProtoTCP ∨
          (endpointProtoFromCompose service port rep).1 = ProtoUDP) as Hp.
  { unfold endpointProtoFromCompose. repeat case_match; auto. }
  destruct (endpointProtoFromCompose service port rep) as [proto rep1]. cbn [fst] in Hp.
  pose proof (endpoint_name_valid proto (cp_Target port) Hp Ht) as Hname.
  assert (proto ∈ [ProtoTCP; ProtoUDP; ProtoHTTP]) as Hpr by (destruct Hp as [-> | ->]; set_solver).
  unfold applyEndpointPublishedPort.
  assert (∀ hp, hp = 0%Z ∨ valid_port hp → valid_endpoint (mkEndpoint
    (endpointNameFromComposePort proto (cp_Target port)) (cp_Target port) proto hp (TrimSpace (cp_HostIP port)))) as K.
  { intros hp Hv. split; cbn; [done|unfold valid_port; lia|by intros ?; destruct Hv| |done].
    unfold nonblank. rewrite !TrimSpace_idemp. exact Hip. }
  destruct (_ =? "")%string; [intros [= <-]; by apply K; left|].
  destruct (Atoi _) as [hp|] eqn:Ea; intros [= <-]; [apply K; by apply Hhp|by apply K; left].
Qed.

Lemma endpoints_valid service i ports rep :
  Forall valid_compose_port ports → Forall valid_endpoint (endpoints_from service i ports rep).1.
Proof.
  intros Hp. revert i rep. induction Hp as [|p r Hp _ IH]; intros i rep; [constructor|]. cbn.
  pose proof (endpoint_valid service i p rep) as He.
  destruct (endpointFromComposePort service i p rep) as [e rep1]. specialize (IH (S i) rep1).
  destruct (endpoints_from service (S i) r rep1) as [es rep2]. cbn in *. apply Forall_app. split; [|done].
  destruct e as [e|]; cbn; [|constructor]. apply Forall_singleton. by apply He.
Qed.

(** *** Mounts *)
Definition valid_mount (m : Mount) : Prop := nonblank (vr_Name (mnt_Volume m)) ∧ nonblank (mnt_Target m).

Lemma digits_graphic l : forallb is_digit l = true → Forall (λ a, graphic a = true) l.
Proof.
  rewrite forallb_forall. intros Hd. apply Forall_forall. intros c Hc%list_elem_of_In. apply name_char_graphic.
  unfold is_name_char. by rewrite (Hd c Hc), orb_true_r.
Qed.

Lemma Itoa_nat_digits i : forallb is_digit (bytes_of (Itoa (Z.of_nat i))) = true.
Proof.
  destruct (Itoa_digits (S i) (Z.of_nat i)) as [Hd _]; [|lia|done]. split; [lia|].
  apply Z.lt_trans with (2 ^ Z.of_nat (S i))%Z.
  - pose proof (Z.pow_gt_lin_r 2 (Z.of_nat (S i))). lia.
  - apply Z.pow_lt_mono_l; lia.
Qed.

Lemma bind_name_nonblank service i :
  nameRe service = true → nonblank (vol_Name (bindVolumeFromCompose service i)).
Proof.
  intros Hs. unfold nonblank. cbn. rewrite graphic_trimmed; [done|].
  apply nameRe_chars in Hs as [Hs _].
  rewrite !bytes_of_app, !Forall_app. split_and!; [by repeat constructor| |by repeat constructor|].
  - eapply Forall_impl; [exact Hs|]. apply name_char_graphic.
  - apply digits_graphic, Itoa_nat_digits.
Qed.

Lemma mounts_valid service i vols rep :
  nameRe service = true → Forall valid_mount (mounts_from service i vols rep).1.1.
Proof.
  intros Hs. revert i rep. induction vols as [|v r IH]; intros i rep; [constructor|]. cbn.
  assert (∀ m ex rep', mountFromCompose service i v rep = (Some (m, ex), rep') → valid_mount m) as Hm.
  { intros m ex rep'. unfold mountFromCompose, volumeMountFromCompose, bindMountFromCompose.
    destruct (String.eqb_spec (TrimSpace (cv_Target v)) "") as [|Ht]; [done|].
    destruct (_ || _); [|destruct (_ =? "bind")%string; [|by destruct (_ =? "tmpfs")%string]].
    - destruct (String.eqb_spec (TrimSpace (cv_Source v)) ""); [done|]. intros [= <- _ _].
      split; unfold nonblank; cbn; by rewrite TrimSpace_idemp.
    - intros [= <- _ _]. split; [by apply (bind_name_nonblank service i)|]. unfold nonblank. cbn. by rewrite TrimSpace_idemp. }
  destruct (mountFromCompose service i v rep) as [m rep1]. specialize (IH (S i) rep1).
  destruct (mounts_from service (S i) r rep1) as [[ms vs] rep2]. destruct m as [[mt ex]|]; cbn in *; [|done].
  constructor; [by eapply Hm|done].
Qed.

(** *** The document *)
Definition nonneg_resources (r : Resources) : Prop := (0 ≤ res_CPUMillis r)%Z ∧ (0 ≤ res_MemoryBytes r)%Z.

Definition imports (proj : ComposeProject) (n : string) : Prop :=
  n ∈ pj_ServiceNames proj ∧ mapped (service_of proj n).

(** The limits of the document model. *)
Record importable (proj : ComposeProject) : Prop := {
  ip_name : (length (runes (TrimSpace (pj_Name proj))) ≤ 120)%nat;
  ip_unique : NoDup (pj_ServiceNames proj);
  ip_some : ∃ n, imports proj n;
  ip_service : ∀ n, imports proj n → nameRe n = true ∧
    Forall valid_compose_port (sc_Ports (service_of proj n)) ∧
    (∀ k, is_Some (sc_Environment (service_of proj n) !! k) → nonblank k) ∧
    opt_all nonneg_resources (resourcesFromCompose convert_outside (sc_Deploy (service_of proj n)));
  ip_depends : ∀ n d, imports proj n → is_Some (sc_DependsOn (service_of proj n) !! d) → imports proj d;
  ip_acyclic : acyclic (λ d n, imports proj n ∧ is_Some (sc_DependsOn (service_of proj n) !! d));
}.

Lemma elem_of_sortedMapKeys {V} (m : gmap string V) k : k ∈ sortedMapKeys m ↔ is_Some (m !! k).
Proof.
  unfold sortedMapKeys. rewrite elem_of_list_sort, list_elem_of_fmap. split.
  - intros ([k' v] & -> & Hin). apply elem_of_map_to_list in Hin. eauto.
  - intros [v Hv]. exists (k, v). split; [done|]. by apply elem_of_map_to_list.
Qed.

Lemma imported_valid name s w :
  imported name s w → mapped s → nameRe name = true →
  (∀ k, is_Some (sc_Environment s !! k) → nonblank k) →
  opt_all nonneg_resources (resourcesFromCompose convert_outside (sc_Deploy s)) → valid_workload w.
Proof.
  intros Hi Hm Hn He Hr. destruct (im_kind _ _ _ Hi) as [Hk Hrt]. destruct (im_rest _ _ _ Hi) as (R1 & R2 & R3 & R4).
  split.
  - by rewrite (im_name _ _ _ Hi).
  - rewrite Hk. unfold workloadKinds. set_solver.
  - rewrite Hrt. unfold runtimeKinds. set_solver.
  - split.
    + intros _. rewrite (im_image _ _ _ Hi). unfold nonblank. by rewrite TrimSpace_idemp.
    + by rewrite Hrt.
    + rewrite Hrt. intros Hin. exfalso. unfold RuntimeDocker, RuntimeProcess, RuntimeSystemd, RuntimeWindowsService in Hin.
      set_solver.
  - rewrite (im_env _ _ _ Hi). unfold envFromCompose. apply Forall_fmap, Forall_forall. intros k Hk'. cbn.
    by apply He, elem_of_sortedMapKeys.
  - rewrite (im_replicas _ _ _ Hi). unfold composeReplicas. case_match eqn:E; [lia|]. apply Z.leb_gt in E. lia.
  - by rewrite (im_resources _ _ _ Hi).
  - by rewrite R1.
  - by rewrite R2.
  - by rewrite R4.
Qed.

Lemma import_result proj :
  (∃ n, imports proj n) →
  ∃ r, MapProject (Some proj) = Ok r ∧
    w_Name <$> app_Workloads (im_App r) = filter (λ n, mapped (service_of proj n)) (pj_ServiceNames proj) ∧
    Forall (λ w, imported (w_Name w) (service_of proj (w_Name w)) w) (app_Workloads (im_App r)) ∧
    (∀ n, n ∈ pj_ServiceNames proj → ¬ mapped (service_of proj n) → skipped_warning n ∈ im_Report r) ∧
    app_Metadata (im_App r) = mkMetadata (sanitizeProjectName (pj_Name proj)) "default" ∅
      {["compose.arcgolabs.io/import" := "true"]} ∧ app_Ingresses (im_App r) = [].
Proof.
  intros (n & Hn & Hm). unfold Compose.MapProject.
  set (rep0 := if (0 <? pj_Networks proj)%nat then _ else _).
  pose proof (map_fold_spec proj (pj_ServiceNames proj) (mapComposeVolumes proj) rep0) as Hf.
  destruct (foldl _ _ (pj_ServiceNames proj)) as [[ws vols] rep]. destruct Hf as (Hnames & Hi & Hw).
  destruct ws as [|w ws].
  - exfalso. apply (not_elem_of_nil n). change (@nil string) with (w_Name <$> []). rewrite Hnames.
    by apply list_elem_of_filter.
  - cbn [length Nat.eqb]. eexists. split; [reflexivity|]. cbn. by split_and!.
Qed.

Lemma dep_names w name s : imported name s w → dname <$> w_DependsOn w = TrimSpace <$> sortedMapKeys (sc_DependsOn s).
Proof. intros Hi. rewrite (im_deps _ _ _ Hi), <-list_fmap_compose. done. Qed.

Section validity.
Context `{GraphLaws}.

Lemma import_valid proj :
  importable proj →
  ∃ r, MapProject (Some proj) = Ok r ∧ Validate (im_App r) = Ok tt ∧
    w_Name <$> app_Workloads (im_App r) = filter (λ n, mapped (service_of proj n)) (pj_ServiceNames proj) ∧
    (∀ n, n ∈ pj_ServiceNames proj → ¬ mapped (service_of proj n) → skipped_warning n ∈ im_Report r).
Proof.
  intros Hp. destruct (import_result proj (ip_some _ Hp)) as (r & Hr & Hnames & Hi & Hw & Hmeta & Hing).
  exists r. split; [done|]. split; [|done].
  set (ws := app_Workloads (im_App r)) in *. rewrite Forall_forall in Hi.
  assert (∀ w, w ∈ ws → imports proj (w_Name w)) as Himp.
  { intros w Hw'. assert (w_Name w ∈ w_Name <$> ws) as Hin by (by apply list_elem_of_fmap_2).
    rewrite Hnames in Hin. by apply list_elem_of_filter in Hin as [? ?]. }
  assert (∀ n, imports proj n → n ∈ w_Name <$> ws) as Hall.
  { intros n [? ?]. rewrite Hnames. by apply list_elem_of_filter. }
  assert (∀ n, imports proj n → TrimSpace n = n) as Htrim.
  { intros n Hn. apply nameRe_trimmed. by apply (ip_service _ Hp). }
  assert (∀ w d, w ∈ ws → d ∈ w_DependsOn w →
    is_Some (sc_DependsOn (service_of proj (w_Name w)) !! dname d) ∧ imports proj (dname d)) as Hdeps.
  { intros w d Hw' Hd. rewrite (im_deps _ _ _ (Hi w Hw')) in Hd. apply list_elem_of_fmap in Hd as (k & -> & Hk).
    apply elem_of_sortedMapKeys in Hk. pose proof (ip_depends _ Hp _ _ (Himp w Hw') Hk) as Hk'.
    unfold dname. cbn. by rewrite (Htrim k Hk'). }
  assert (wname <$> ws = w_Name <$> ws) as Hwn.
  { apply list_fmap_ext. intros i w Hl%list_elem_of_lookup_2. by apply Htrim, Himp. }
  apply Validate_complete.
  - intros w Hw'. rewrite (dep_names w _ _ (Hi w Hw')).
    assert (TrimSpace <$> sortedMapKeys (sc_DependsOn (service_of proj (w_Name w))) =
            sortedMapKeys (sc_DependsOn (service_of proj (w_Name w)))) as ->.
    { etrans; [|apply list_fmap_id]. apply list_fmap_ext. intros i k Hl%list_elem_of_lookup_2. cbn.
      apply elem_of_sortedMapKeys in Hl. by eapply Htrim, (ip_depends _ Hp), Hl; apply Himp. }
    unfold sortedMapKeys. rewrite list_sort_perm. apply NoDup_fst_map_to_list.
  - split; fold ws.
    + rewrite Hmeta. apply project_name_valid, (ip_name _ Hp).
    + rewrite Hmeta. done.
    + apply Forall_forall. intros w Hw'. destruct (ip_service _ Hp _ (Himp w Hw')) as (? & ? & ? & ?).
      eapply imported_valid; [by apply Hi|by apply Himp|done..].
    + rewrite Hnames. apply NoDup_filter, (ip_unique _ Hp).
    + intros w d Hw' Hd. rewrite Hwn. apply Hall. by apply (Hdeps w d).
    + intros x Hx. apply (ip_acyclic _ Hp x). eapply (tc_congruence id); [|exact Hx].
      intros d n (w & ref & Hw' & Hd & -> & ->). unfold wname. rewrite (Htrim _ (Himp w Hw')).
      split; [by apply Himp|by apply Hdeps].
    + intros w Hw'. apply Forall_forall. intros ref Hd. rewrite (im_deps _ _ _ (Hi w Hw')) in Hd.
      apply list_elem_of_fmap in Hd as (k & -> & _). split; [done|]. by vm_compute.
    + intros w Hw'. destruct (im_mounts _ _ _ (Hi w Hw')) as [rep ->]. apply mounts_valid. by apply (ip_service _ Hp), Himp.
    + intros w Hw'. destruct (im_endpoints _ _ _ (Hi w Hw')) as [rep ->]. apply endpoints_valid. by apply (ip_service _ Hp), Himp.
    + rewrite Hing. constructor.
Qed.
End validity.
End mapping.
