(* ===== verification/Runtime.v ===== *)
(** * The runtime manager (internal/runtime: environment.go, module.go, runtime.go;
    internal/runtime/runconfig mounts; internal/runtime/runtimeinfo; internal/config/runtime.go
    RuntimeConfig)

    Which runtime providers a node registers, how calls are dispatched to them, where local
    volumes live on the host, and what a log request returns.  A provider is a record of its
    methods; probes of the host answer as parameters. *)
From stdpp Require Import base strings numbers gmap list.
From Stdlib Require Import Ascii.
From S2P Require Import Prelude GoStrings GoTime GoNet GoList Deploy Meta GoText TaskBase.

(** ** environment.go *)
Record Environment := mkEnv {
  env_OS : string; env_Docker : bool; env_Podman : bool; env_Containerd : bool; env_Firecracker : bool;
  env_Process : bool; env_Systemd : bool; env_WindowsService : bool }.

Definition KnownProviderKinds : list string :=
  [RuntimeContainerd; RuntimeDocker; RuntimeFirecracker; RuntimePodman; RuntimeProcess; RuntimeSystemd;
   RuntimeWindowsService].

Definition ProviderAvailable (e : Environment) (kind : string) : bool :=
  if (kind =? RuntimeDocker)%string then env_Docker e
  else if (kind =? RuntimePodman)%string then env_Podman e
  else if (kind =? RuntimeContainerd)%string then env_Containerd e
  else if (kind =? RuntimeFirecracker)%string then env_Firecracker e
  else if (kind =? RuntimeProcess)%string then env_Process e
  else if (kind =? RuntimeSystemd)%string then env_Systemd e
  else if (kind =? RuntimeWindowsService)%string then env_WindowsService e
  else false.

Definition ProviderUnavailableReason (e : Environment) (kind : string) : string :=
  if ProviderAvailable e kind then ""
  else if (kind =? RuntimeDocker)%string then "docker CLI, DOCKER_HOST, or Docker socket was not detected"
  else if (kind =? RuntimePodman)%string then "podman CLI, PODMAN_HOST, or Podman socket was not detected"
  else if (kind =? RuntimeContainerd)%string then "containerd socket was not detected"
  else if (kind =? RuntimeFirecracker)%string then "firecracker binary was not detected"
  else if (kind =? RuntimeProcess)%string then "process runtime is not available"
  else if (kind =? RuntimeSystemd)%string then "systemd runtime or systemctl was not detected"
  else if (kind =? RuntimeWindowsService)%string then "windows service runtime is only available on Windows"
  else "unknown runtime provider".

Record environmentProbe := mkProbeOS {
  probe_goos : string; probe_env : string → string; probe_exists : string → bool; probe_lookPath : string → bool }.

Definition containerdSocket := "/run/containerd/containerd.sock".
Definition dockerSocket := "/var/run/docker.sock".
Definition podmanRootSocket := "/run/podman/podman.sock".
Definition systemdRuntimeDir := "/run/systemd/system".

Definition userPodmanSocket (runtimeDir : string) : string :=
  let d := TrimSpace runtimeDir in if (d =? "")%string then "" else d +:+ "/podman/podman.sock".

Definition dockerAvailable (p : environmentProbe) (goos : string) : bool :=
  if negb (TrimSpace (probe_env p "DOCKER_HOST") =? "")%string then true
  else if probe_lookPath p "docker" then true
  else (goos =? "linux")%string && probe_exists p dockerSocket.

Definition podmanAvailable `{UnicodeLower} (p : environmentProbe) (goos : string) : bool :=
  if negb (TrimSpace (probe_env p "PODMAN_HOST") =? "")%string then true
  else if Contains (ToLower (probe_env p "DOCKER_HOST")) "podman" then true
  else if probe_lookPath p "podman" then true
  else if negb (goos =? "linux")%string then false
  else probe_exists p podmanRootSocket || probe_exists p (userPodmanSocket (probe_env p "XDG_RUNTIME_DIR")).

(** [GOOS] is [runtime.GOOS]. *)
Definition detectEnvironment `{UnicodeLower} (GOOS : string) (p : environmentProbe) : Environment :=
  let goos := CoalesceOrEmpty [TrimSpace (probe_goos p); GOOS] in
  let linux := (goos =? "linux")%string in
  mkEnv goos (dockerAvailable p goos) (podmanAvailable p goos) (linux && probe_exists p containerdSocket)
    (linux && probe_lookPath p "firecracker") true
    (linux && (probe_exists p systemdRuntimeDir || probe_lookPath p "systemctl")) (goos =? "windows")%string.

(** ** config/runtime.go: provider policies *)
Definition RuntimeProviderPolicyAuto := "auto".
Definition RuntimeProviderPolicyRequired := "required".
Definition RuntimeProviderPolicyDisabled := "disabled".

Definition ProviderPolicy `{UnicodeLower} (providers : gmap string string) (rawName : string) : string :=
  let name := TrimSpace rawName in
  if (name =? "")%string || (size providers =? 0)%nat then RuntimeProviderPolicyAuto
  else
    let policy := ToLower (TrimSpace (default "" (providers !! name))) in
    if (policy =? RuntimeProviderPolicyRequired)%string || (policy =? RuntimeProviderPolicyDisabled)%string
    then policy else RuntimeProviderPolicyAuto.

(** ** runtime.go *)
Record LogResult := mkLogResult { lr_Name : string; lr_Runtime : string; lr_Source : string; lr_Content : string }.

(** A provider; [Status] and [Logs] are optional interfaces. *)
Record Provider := mkProvider {
  pv_Kind : string;
  pv_Deploy : Metadata → Workload → res unit;
  pv_Stop : Metadata → string → res unit;
  pv_Status : option (Metadata → string → res RuntimeStatus);
  pv_Logs : option (Metadata → string → Z → res LogResult) }.

Record ProviderStatus := mkProviderStatus {
  ps_Kind : string; ps_Policy : string; ps_Available : bool; ps_Registered : bool; ps_Status : string;
  ps_Reason : string }.

Definition ProviderStatusRegistered := "registered".
Definition ProviderStatusDisabled := "disabled".
Definition ProviderStatusMissing := "missing".

Record Manager := mkManager { mg_providers : gmap string Provider; mg_statuses : list ProviderStatus }.

Definition NewManagerWithStatus (statuses : list ProviderStatus) (providers : list Provider) : Manager :=
  mkManager (foldl (λ idx p, <[pv_Kind p := p]> idx) ∅ providers) statuses.

Definition HasProvider (m : Manager) (kind : string) : bool :=
  if mg_providers m !! kind is Some _ then true else false.

Section manager.
Context `{ListSort}.

Definition RegisteredKinds (m : Manager) : list string := list_sort Compare (map_to_list (mg_providers m)).*1.

Definition sortProviderStatuses (l : list ProviderStatus) : list ProviderStatus := list_sort (by_key ps_Kind) l.

Definition ProviderStatuses (m : Manager) : list ProviderStatus :=
  if negb (length (mg_statuses m) =? 0)%nat then sortProviderStatuses (mg_statuses m)
  else (λ kind, mkProviderStatus kind RuntimeProviderPolicyAuto true true ProviderStatusRegistered "")
         <$> RegisteredKinds m.
End manager.

Definition provider_for {A} (m : Manager) (kind : string) (k : Provider → res A) : res A :=
  match mg_providers m !! kind with
  | None => Err (Errorf "runtime provider not registered: %s" [AStr kind])
  | Some p => k p
  end.

Definition manager_Deploy (m : Manager) (meta : Metadata) (w : Workload) : res unit :=
  provider_for m (w_Runtime w) (λ p, wrap "deploy workload %s" [AStr (w_Name w)] (pv_Deploy p meta w)).

Definition manager_Stop (m : Manager) (runtime : string) (meta : Metadata) (workloadName : string) : res unit :=
  provider_for m runtime (λ p, wrap "stop workload %s" [AStr workloadName] (pv_Stop p meta workloadName)).

Definition or_default (s d : string) : string := if (s =? "")%string then d else s.

Definition manager_Status (m : Manager) (runtime : string) (meta : Metadata) (workloadName : string)
    : res RuntimeStatus :=
  provider_for m runtime (λ p,
    match pv_Status p with
    | None => Ok (mkStatus (TrimSpace workloadName) runtime "unknown" "" 0 0
                    ("runtime status is not implemented for provider " +:+ runtime))
    | Some status =>
        st ← wrap "status workload %s" [AStr workloadName] (status meta workloadName);
        Ok (mkStatus (or_default (rs_Name st) (TrimSpace workloadName)) (or_default (rs_Runtime st) runtime)
              (or_default (rs_Status st) "unknown") (rs_NativeID st) (rs_StartedAt st) (rs_UpdatedAt st) (rs_Message st))
    end).

Definition manager_Logs (m : Manager) (runtime : string) (meta : Metadata) (workloadName : string) (tail : Z)
    : res LogResult :=
  provider_for m runtime (λ p,
    match pv_Logs p with
    | None => Err (Errorf "runtime logs are not implemented for provider %s" [AStr runtime])
    | Some logs =>
        out ← wrap "logs workload %s" [AStr workloadName] (logs meta workloadName tail);
        Ok (mkLogResult (or_default (lr_Name out) (TrimSpace workloadName)) (or_default (lr_Runtime out) runtime)
              (lr_Source out) (lr_Content out))
    end).

(** ** module.go *)
Section module.
Context `{UnicodeLower, ListSort} (policies : gmap string string) (env : Environment).
Variable make : string → Provider.  (** the constructors of the providers *)

Definition runtimeProviderPolicy (kind : string) : string := ProviderPolicy policies kind.

Definition shouldRegisterProvider (kind : string) : res bool :=
  let policy := runtimeProviderPolicy kind in
  if (policy =? RuntimeProviderPolicyDisabled)%string then Ok false
  else if ProviderAvailable env kind then Ok true
  else if (policy =? RuntimeProviderPolicyRequired)%string
  then Err (Errorf "required runtime provider %s is unavailable: %s"
              [AStr kind; AStr (ProviderUnavailableReason env kind)])
  else Ok false.

(** [optionalDockerProvider] and its siblings. *)
Definition optionalProvider (kind : string) : res (option Provider) :=
  match shouldRegisterProvider kind with
  | Err e => Err e
  | Ok false => Ok None
  | Ok true => Ok (Some (make kind))
  end.

(** The order of [providerListFromConditionals]. *)
Definition provider_order : list string :=
  [RuntimeDocker; RuntimePodman; RuntimeContainerd; RuntimeFirecracker; RuntimeProcess; RuntimeSystemd;
   RuntimeWindowsService].

Definition providerListFromConditionals (group : list (option Provider)) : list Provider := omap id group.

Definition newProviderStatuses (providers : list Provider) : list ProviderStatus :=
  let registered : gset string := list_to_set (pv_Kind <$> providers) in
  sortProviderStatuses ((λ kind,
    let isRegistered := bool_decide (kind ∈ registered) in
    let policy := runtimeProviderPolicy kind in
    let '(status, reason) :=
      if (policy =? RuntimeProviderPolicyDisabled)%string
      then (ProviderStatusDisabled, "disabled by runtime provider policy")
      else if isRegistered then (ProviderStatusRegistered, "")
      else (ProviderStatusMissing, ProviderUnavailableReason env kind) in
    mkProviderStatus kind policy (ProviderAvailable env kind) isRegistered status reason) <$> KnownProviderKinds).

(** [moduleWithEnvironmentProvider]: the constructors run eagerly, and one error stops the
    start. *)
Definition runtime_module : res Manager :=
  group ← range_fold (λ _ (acc : list (option Provider)) kind, p ← optionalProvider kind; Ok (acc ++ [p]))
             [] provider_order;
  let providers := providerListFromConditionals group in
  Ok (NewManagerWithStatus (newProviderStatuses providers) providers).
End module.

(** ** runconfig.go: mounts *)

(** [filepath.Join], where the separator is "/" *)
Fixpoint join_slash (l : list string) : string :=
  match l with
  | [] => ""
  | [s] => s
  | s :: r => s +:+ "/" +:+ join_slash r
  end.
Definition filepath_Join (l : list string) : string :=
  match filter (λ s, s ≠ "") l with
  | [] => ""
  | l => path_Clean (join_slash l)
  end.

Record RunMount := mkRunMount {
  rm_Volume : string; rm_VolumeName : string; rm_SourcePath : string; rm_Target : string; rm_ReadOnly : bool }.

(** On systems where absolute paths are those that start with "/". *)
Definition cleanMountTarget (raw : string) : res string :=
  let target := TrimSpace raw in
  if (target =? "")%string then Err (Errorf "target is required" [])
  else if HasPrefix target "/" then Ok (path_Clean target)
  else Err (Errorf "target must be absolute: %q" [AStr target]).

Definition LocalVolumePath (root : string) (meta : Metadata) (volumeName : string) : string :=
  filepath_Join [path_Clean root; "volumes"; SanitizeName (NamespaceOrDefault (md_Namespace meta));
                 SanitizeName (md_Name meta); SanitizeName volumeName].

Definition LocalMount (root : string) (meta : Metadata) (mount : Mount) : res RunMount :=
  let volume := TrimSpace (vr_Name (mnt_Volume mount)) in
  if (volume =? "")%string then Err (Errorf "volume name is required" [])
  else
    target ← cleanMountTarget (mnt_Target mount);
    Ok (mkRunMount volume (VolumeName meta volume)
          (if negb (TrimSpace root =? "")%string then LocalVolumePath root meta volume else "")
          target (mnt_ReadOnly mount)).

Definition LocalMounts (root : string) (meta : Metadata) (w : Workload) : res (list RunMount) :=
  range_fold (λ i (acc : list RunMount) mount,
    c ← wrap "workload %s mounts[%d]" [AStr (w_Name w); ANat i] (LocalMount root meta mount);
    Ok (acc ++ [c])) [] (w_Mounts w).

(** [mkdirAll] is [os.MkdirAll] with mode 0o750; directories made before an error stay. *)
Definition EnsureLocalMountSources (mkdirAll : string → res unit) (mounts : list RunMount) : res unit :=
  range_fold (λ _ _ mount,
    if (TrimSpace (rm_SourcePath mount) =? "")%string then Ok tt
    else wrap "create volume source %s" [AStr (rm_SourcePath mount)] (mkdirAll (rm_SourcePath mount))) tt mounts.

Definition RejectUnsupportedMounts (runtime : string) (w : Workload) : res unit :=
  guard_err (negb (length (w_Mounts w) =? 0)%nat)
    (Errorf "runtime %s does not support workload mounts yet" [AStr runtime]).

(** ** runtimeinfo: log tails *)
Definition newline : ascii := ascii_of_N 10.
Definition carriage : ascii := ascii_of_N 13.

Definition NormalizeTailLines (tail : Z) : Z :=
  if (tail <=? 0)%Z then 100 else if (5000 <? tail)%Z then 5000 else tail.

(** [strings.ReplaceAll(s, "\r\n", "\n")] *)
Fixpoint crlf_to_lf (l : list ascii) : list ascii :=
  match l with
  | [] => []
  | c :: r =>
      match r with
      | n :: _ => if Ascii.eqb c carriage && Ascii.eqb n newline then crlf_to_lf r else c :: crlf_to_lf r
      | [] => [c]
      end
  end.

(** [strings.Join(lines, "\n")] *)
Fixpoint join_lines (lines : list (list ascii)) : list ascii :=
  match lines with
  | [] => []
  | [l] => l
  | l :: r => l ++ newline :: join_lines r
  end.

Definition tailLogContent (content : list ascii) (tail : Z) : list ascii :=
  let lines := split_bytes newline content in
  let lines := match list.last lines with Some [] => take (length lines - 1) lines | _ => lines end in
  let lines := lastn (Z.to_nat (NormalizeTailLines tail)) lines in
  if (length lines =? 0)%nat then [] else join_lines lines ++ [newline].

(** [file] is what reading the file gives: its bytes, [None] when it does not exist. *)
Definition ReadTailFile (file : res (option (list ascii))) (tail : Z) : res (list ascii) :=
  content ← file;
  match content with
  | None => Ok []
  | Some b =>
      let content := crlf_to_lf b in
      if (length content =? 0)%nat then Ok [] else Ok (tailLogContent content tail)
  end.
