(* ===== verification/RuntimeSpec.v ===== *)
(** * What the runtime manager guarantees

    A node starts exactly when every required provider is present, registers exactly the
    enabled and detected providers and reports each known kind once; local volumes of different
    applications never share a directory as long as no name cleans away; a log request returns
    the last lines of the file. *)
From stdpp Require Import base strings numbers gmap list relations sorting.
From Stdlib Require Import Ascii.
From S2P Require Import Prelude GoStrings GoTime GoNet GoList Deploy Meta GoText TaskBase Runtime.

(** ** Start-up *)
Section startup.
Context `{UnicodeLower, ListSortLaws} (policies : gmap string string) (env : Environment).
Variable make : string → Provider.
Hypothesis make_kind : ∀ kind, pv_Kind (make kind) = kind.

Local Notation policy := (runtimeProviderPolicy policies).
Local Notation start := (runtime_module policies env make).

(** Enabled and detected. *)
Definition active (kind : string) : bool :=
  negb (policy kind =? RuntimeProviderPolicyDisabled)%string && ProviderAvailable env kind.

(** Required but absent. *)
Definition blocking (kind : string) : bool :=
  (policy kind =? RuntimeProviderPolicyRequired)%string && negb (ProviderAvailable env kind).

Definition status_of (kind : string) : ProviderStatus :=
  mkProviderStatus kind (policy kind) (ProviderAvailable env kind) (active kind)
    (if (policy kind =? RuntimeProviderPolicyDisabled)%string then ProviderStatusDisabled
     else if ProviderAvailable env kind then ProviderStatusRegistered else ProviderStatusMissing)
    (if (policy kind =? RuntimeProviderPolicyDisabled)%string then "disabled by runtime provider policy"
     else ProviderUnavailableReason env kind).

Lemma optionalProvider_spec kind :
  optionalProvider policies env make kind =
  if blocking kind
  then Err (Errorf "required runtime provider %s is unavailable: %s"
              [AStr kind; AStr (ProviderUnavailableReason env kind)])
  else Ok (if active kind then Some (make kind) else None).
Proof.
  unfold optionalProvider, shouldRegisterProvider, blocking, active.
  destruct (String.eqb_spec (policy kind) RuntimeProviderPolicyDisabled) as [->|_]; [done|].
  destruct (ProviderAvailable env kind), (_ =? _)%string; done.
Qed.

Lemma group_from i acc kinds :
  range_fold_from (λ _ (acc : list (option Provider)) kind,
    p ← optionalProvider policies env make kind; Ok (acc ++ [p])) i acc kinds =
  match list_find (λ kind, blocking kind = true) kinds with
  | None => Ok (acc ++ ((λ kind, if active kind then Some (make kind) else None) <$> kinds))
  | Some (_, kind) => Err (Errorf "required runtime provider %s is unavailable: %s"
                             [AStr kind; AStr (ProviderUnavailableReason env kind)])
  end.
Proof.
  revert i acc. induction kinds as [|k kinds IH]; intros i acc; cbn [range_fold_from list_find].
  { by rewrite app_nil_r. }
  rewrite optionalProvider_spec. destruct (blocking k) eqn:Eb.
  - by rewrite decide_True.
  - rewrite decide_False by congruence. cbn [mbind res_bind]. rewrite IH.
    destruct (list_find _ kinds) as [[]|]; cbn [prod_map fmap option_fmap option_map]; [done|].
    by rewrite <-app_assoc.
Qed.

Lemma active_providers kinds :
  providerListFromConditionals ((λ kind, if active kind then Some (make kind) else None) <$> kinds)
  = make <$> filter (λ kind, active kind = true) kinds.
Proof.
  induction kinds as [|k kinds IH]; [done|]. cbn [fmap list_fmap]. unfold providerListFromConditionals in *.
  rewrite filter_cons. destruct (active k).
  - rewrite decide_True by done. cbn. f_equal. apply IH.
  - rewrite decide_False by done. apply IH.
Qed.

Lemma index_lookup kinds (idx : gmap string Provider) k :
  foldl (λ idx p, <[pv_Kind p := p]> idx) idx (make <$> kinds) !! k =
  if bool_decide (k ∈ kinds) then Some (make k) else idx !! k.
Proof.
  revert idx. induction kinds as [|k' kinds IH]; intros idx; cbn [fmap list_fmap foldl]; [done|].
  rewrite IH, make_kind. case_bool_decide as E1.
  - by rewrite bool_decide_eq_true_2 by set_solver.
  - destruct (decide (k' = k)) as [->|Hne].
    + by rewrite lookup_insert_eq, bool_decide_eq_true_2 by set_solver.
    + by rewrite lookup_insert_ne, bool_decide_eq_false_2 by set_solver.
Qed.

Lemma known_order : KnownProviderKinds ≡ₚ provider_order.
Proof. apply (bool_decide_unpack _). by vm_compute. Qed.

Lemma known_nodup : NoDup KnownProviderKinds.
Proof. apply (bool_decide_unpack _). by vm_compute. Qed.

Lemma active_known kind : ProviderAvailable env kind = true → kind ∈ KnownProviderKinds.
Proof.
  unfold ProviderAvailable.
  repeat match goal with
  | |- (if (kind =? ?k)%string then _ else _) = true → _ =>
      destruct (String.eqb_spec kind k) as [->|_]; [intros _; apply (bool_decide_unpack _); by vm_compute|]
  end.
  done.
Qed.

(** A list of statuses in the order of the known kinds is already sorted. *)
Lemma statuses_sorted (f : string → ProviderStatus) :
  (∀ kind, ps_Kind (f kind) = kind) → sortProviderStatuses (f <$> KnownProviderKinds) = f <$> KnownProviderKinds.
Proof.
  intros Hf. unfold sortProviderStatuses.
  eapply (Sorted_unique_strong (cmp_le (by_key ps_Kind))).
  - intros x y Hx Hy Hxy Hyx. rewrite list_sort_perm in Hx.
    eapply (NoDup_key_inj ps_Kind (f <$> KnownProviderKinds)); [|done..|by apply (anti_symm (cmp_le Compare))].
    rewrite <-list_fmap_compose. rewrite (list_fmap_ext _ id); [rewrite list_fmap_id; apply known_nodup|].
    intros. apply Hf.
  - apply list_sort_sorted; apply _.
  - repeat constructor; unfold cmp_le, by_key; rewrite !Hf; by vm_compute.
  - apply list_sort_perm.
Qed.

Lemma newProviderStatuses_spec :
  newProviderStatuses policies env (make <$> filter (λ kind, active kind = true) provider_order)
  = status_of <$> KnownProviderKinds.
Proof.
  rewrite <-(statuses_sorted status_of) by done. unfold newProviderStatuses. f_equal.
  apply list_fmap_ext. intros i kind Hk%list_elem_of_lookup_2. unfold status_of.
  assert (bool_decide (kind ∈ (list_to_set (pv_Kind <$> (make <$> filter (λ kind, active kind = true) provider_order))
    : gset string)) = active kind) as ->.
  { rewrite <-list_fmap_compose, (list_fmap_ext _ id), list_fmap_id by (intros; apply make_kind).
    destruct (active kind) eqn:Ea; [apply bool_decide_eq_true_2|apply bool_decide_eq_false_2];
      rewrite elem_of_list_to_set, list_elem_of_filter; [|naive_solver congruence].
    by rewrite <-known_order. }
  unfold active. destruct (_ =? _)%string; [done|]. cbn [negb andb].
  unfold ProviderUnavailableReason. by destruct (ProviderAvailable env kind).
Qed.

(** The start fails exactly on the first required provider that is absent. *)
Theorem runtime_module_ok :
  is_ok start = true ↔ ∀ kind, kind ∈ KnownProviderKinds → policy kind = RuntimeProviderPolicyRequired →
    ProviderAvailable env kind = true.
Proof.
  unfold runtime_module, range_fold. rewrite group_from.
  destruct (list_find _ provider_order) as [[i kind]|] eqn:E; cbn [mbind res_bind is_ok].
  - split; [done|]. intros Hall. apply list_find_Some in E as (Hi & Hb & _).
    apply list_elem_of_lookup_2 in Hi. rewrite <-known_order in Hi. unfold blocking in Hb.
    apply andb_true_iff in Hb as [Hp Ha]. apply String.eqb_eq in Hp.
    by rewrite (Hall kind Hi Hp) in Ha.
  - split; [|done]. intros _ kind Hk Hp. apply list_find_None in E. rewrite Forall_forall in E.
    rewrite known_order in Hk. specialize (E kind Hk). unfold blocking in E. rewrite Hp in E.
    cbn [andb String.eqb] in E. by destruct (ProviderAvailable env kind).
Qed.

Theorem runtime_module_manager m :
  start = Ok m →
  (∀ kind, mg_providers m !! kind = if active kind then Some (make kind) else None) ∧
  mg_statuses m = status_of <$> KnownProviderKinds.
Proof.
  unfold runtime_module, range_fold. rewrite group_from.
  destruct (list_find _ provider_order) as [[]|]; [done|]. cbn [mbind res_bind app]. rewrite active_providers.
  intros [= <-]. split; [|apply newProviderStatuses_spec].
  intros kind. unfold NewManagerWithStatus. cbn [mg_providers]. rewrite index_lookup, lookup_empty.
  destruct (active kind) eqn:Ea.
  - rewrite bool_decide_eq_true_2; [done|]. rewrite list_elem_of_filter, <-known_order. split; [done|].
    apply active_known. unfold active in Ea. by apply andb_true_iff in Ea as [_ ?].
  - rewrite bool_decide_eq_false_2; [done|]. rewrite list_elem_of_filter. naive_solver congruence.
Qed.

(** Asking for the statuses of a started manager returns every known kind once, in order,
    and calls reach a provider exactly when its kind is reported as registered. *)
Theorem started_manager m :
  start = Ok m →
  ProviderStatuses m = status_of <$> KnownProviderKinds ∧
  (∀ kind, HasProvider m kind = true ↔ ∃ st, st ∈ ProviderStatuses m ∧ ps_Kind st = kind ∧ ps_Registered st = true) ∧
  (∀ meta w, manager_Deploy m meta w =
     if active (w_Runtime w)
     then wrap "deploy workload %s" [AStr (w_Name w)] (pv_Deploy (make (w_Runtime w)) meta w)
     else Err (Errorf "runtime provider not registered: %s" [AStr (w_Runtime w)])).
Proof.
  intros [Hp Hs]%runtime_module_manager.
  assert (ProviderStatuses m = status_of <$> KnownProviderKinds) as E.
  { unfold ProviderStatuses. rewrite Hs. cbn [length fmap list_fmap Nat.eqb negb KnownProviderKinds].
    by apply statuses_sorted. }
  split_and!; [done| |].
  - intros kind. rewrite E. unfold HasProvider. rewrite Hp. split.
    + destruct (active kind) eqn:Ea; [|done]. intros _. exists (status_of kind). split_and!; [|done..].
      apply list_elem_of_fmap_2, active_known. unfold active in Ea. by apply andb_true_iff in Ea as [_ ?].
    + intros (st & (k & -> & _)%list_elem_of_fmap & <- & Hr). cbn in *. by rewrite Hr.
  - intros meta w. unfold manager_Deploy, provider_for. rewrite Hp. by destruct (active _).
Qed.
End startup.

(** ** Local volumes *)
Definition plain_name (s : string) : Prop := plain_segment (bytes_of s).

Lemma join_slash_bytes l : bytes_of (join_slash l) = join_segments (bytes_of <$> l).
Proof.
  induction l as [|s [|s2 r] IH]; [done..|]. cbn [join_slash fmap list_fmap join_segments] in *.
  by rewrite !bytes_of_app, IH.
Qed.

Lemma clean_fold_join segs :
  Forall plain_segment segs → foldl (clean_step true) [] (split_bytes "/" ("/"%char :: join_segments segs)) = reverse segs.
Proof.
  intros Hs. change ("/"%char :: join_segments segs) with ([] ++ "/"%char :: join_segments segs).
  rewrite split_bytes_app_sep. cbn [split_bytes app].
  destruct segs as [|s r]; [done|]. rewrite split_join_segments by (by apply plain_no_slash).
  cbn [foldl]. change (clean_step true [] []) with (@nil (list ascii)).
  change (foldl (clean_step true) [] (s :: r) = reverse (s :: r)). by rewrite clean_fold_plain, app_nil_r.
Qed.

Lemma join_rooted segs s' r' :
  Forall plain_segment segs → Forall (λ seg, "/"%char ∉ seg) (s' :: r') →
  clean_bytes (join_segments (("/"%char :: join_segments segs) :: s' :: r')) =
  "/"%char :: join_segments (reverse (foldl (clean_step true) (reverse segs) (s' :: r'))).
Proof.
  intros Hs Hs'.
  change (join_segments (("/"%char :: join_segments segs) :: s' :: r'))
    with (("/"%char :: join_segments segs) ++ "/"%char :: join_segments (s' :: r')).
  unfold clean_bytes. cbn [app]. rewrite Ascii.eqb_refl. f_equal. f_equal. f_equal.
  change ("/"%char :: join_segments segs ++ "/"%char :: join_segments (s' :: r'))
    with (("/"%char :: join_segments segs) ++ "/"%char :: join_segments (s' :: r')).
  by rewrite split_bytes_app_sep, foldl_app, clean_fold_join, split_join_segments.
Qed.

(** Joining a clean absolute path with non-empty elements. *)
Lemma filepath_Join_rooted segs n names :
  Forall plain_segment segs → Forall (λ s, s ≠ "" ∧ "/"%char ∉ bytes_of s) (n :: names) →
  filepath_Join (path_text segs :: n :: names) =
  path_text (reverse (foldl (clean_step true) (reverse segs) (bytes_of <$> n :: names))).
Proof.
  intros Hs Hn. unfold filepath_Join.
  assert (filter (λ s, s ≠ "") (path_text segs :: n :: names) = path_text segs :: n :: names) as ->.
  { rewrite filter_cons_True by (by intros ?%(f_equal bytes_of)). f_equal. clear Hs.
    induction Hn as [|m l [Hp _] _ IH]; [done|]. by rewrite filter_cons_True, IH. }
  unfold path_Clean. rewrite join_slash_bytes. cbn [fmap list_fmap]. unfold path_text at 1.
  rewrite bytes_of_of_bytes, join_rooted; [done..|].
  change (Forall (λ seg, "/"%char ∉ seg) (bytes_of <$> n :: names)).
  apply Forall_fmap. eapply Forall_impl; [exact Hn|]. by intros s [_ ?].
Qed.

Lemma plain_name_slash l : Forall plain_name l → Forall (λ s, s ≠ "" ∧ "/"%char ∉ bytes_of s) l.
Proof. intros Hl. eapply Forall_impl; [exact Hl|]. intros s (Hne & _ & _ & Hx). split; [by intros ->|done]. Qed.

Lemma filepath_Join_text segs n names :
  Forall plain_segment segs → Forall plain_name (n :: names) →
  filepath_Join (path_text segs :: n :: names) = path_text (segs ++ (bytes_of <$> n :: names)).
Proof.
  intros Hs Hn. rewrite filepath_Join_rooted by (done || by apply plain_name_slash).
  rewrite clean_fold_plain by (by apply Forall_fmap). by rewrite reverse_app, !reverse_involutive.
Qed.

Lemma sanitized_plain s : SanitizeName s ≠ "." → SanitizeName s ≠ ".." → plain_name (SanitizeName s).
Proof.
  intros H1 H2. pose proof (SanitizeName_bytes s) as [Hne Hb]. repeat split.
  - intros E. apply Hne, bytes_of_inj. by rewrite E.
  - intros E. apply H1, bytes_of_inj. by rewrite E.
  - intros E. apply H2, bytes_of_inj. by rewrite E.
  - intros Hx. rewrite Forall_forall in Hb. by apply Hb in Hx.
Qed.

Lemma clean_step_up b seg stack : plain_segment seg → clean_step b (seg :: stack) dotdot = stack.
Proof. intros (_ & _ & Hd & _). unfold clean_step.
  rewrite (bool_decide_eq_false_2 (seg = dotdot)) by done. done. Qed.

(** None of the parts of a volume's path is "." or "..". *)
Definition plain_volume (meta : Metadata) (volume : string) : Prop :=
  Forall (λ s, SanitizeName s ≠ "." ∧ SanitizeName s ≠ "..") [NamespaceOrDefault (md_Namespace meta); md_Name meta; volume].

Definition volume_segments (meta : Metadata) (volume : string) : list (list ascii) :=
  bytes_of <$> ["volumes"; SanitizeName (NamespaceOrDefault (md_Namespace meta)); SanitizeName (md_Name meta);
                SanitizeName volume].

Lemma volume_names_plain meta volume :
  plain_volume meta volume →
  Forall plain_name ["volumes"; SanitizeName (NamespaceOrDefault (md_Namespace meta)); SanitizeName (md_Name meta);
                     SanitizeName volume].
Proof.
  intros Hp. constructor; [apply (bool_decide_unpack _); by vm_compute|].
  unfold plain_volume in Hp. rewrite !Forall_cons in *. naive_solver eauto using sanitized_plain.
Qed.

(** A volume lives four levels below the runtime's root, under its namespace and application. *)
Theorem LocalVolumePath_spec root meta volume :
  HasPrefix root "/" = true → plain_volume meta volume →
  ∃ segs, Forall plain_segment segs ∧ path_Clean root = path_text segs ∧
    LocalVolumePath root meta volume = path_text (segs ++ volume_segments meta volume).
Proof.
  intros Hr Hp. apply path_Clean_rooted, clean_path_text in Hr as (segs & Hs & E).
  exists segs. split_and!; [done..|]. unfold LocalVolumePath. rewrite E.
  by apply filepath_Join_text, volume_names_plain.
Qed.

(** Volumes of different names, applications or namespaces never share a directory. *)
Theorem LocalVolumePath_inj root meta volume meta' volume' :
  HasPrefix root "/" = true → plain_volume meta volume → plain_volume meta' volume' →
  LocalVolumePath root meta volume = LocalVolumePath root meta' volume' ↔
  SanitizeName (NamespaceOrDefault (md_Namespace meta)) = SanitizeName (NamespaceOrDefault (md_Namespace meta')) ∧
  SanitizeName (md_Name meta) = SanitizeName (md_Name meta') ∧ SanitizeName volume = SanitizeName volume'.
Proof.
  intros Hr Hp Hp'. destruct (LocalVolumePath_spec root meta volume Hr Hp) as (segs & Hs & E1 & ->).
  destruct (LocalVolumePath_spec root meta' volume' Hr Hp') as (segs' & Hs' & E1' & ->).
  assert (segs' = segs) as -> by (apply path_text_inj; congruence). split.
  - intros E. apply path_text_inj in E;
      [|rewrite Forall_app; split; [done|]; by apply Forall_fmap, volume_names_plain..].
    apply app_inv_head in E. unfold volume_segments in E. cbn [fmap list_fmap] in E.
    injection E as E2 E3 E4. by apply bytes_of_inj in E2, E3, E4.
  - unfold volume_segments. by intros (-> & -> & ->).
Qed.

(** A volume called ".." is the directory of its whole namespace: it contains the volumes of
    every application there. *)
Theorem dotdot_volume root meta :
  HasPrefix root "/" = true → plain_volume meta "x" →
  ∃ segs, Forall plain_segment segs ∧ path_Clean root = path_text segs ∧
    LocalVolumePath root meta ".." =
    path_text (segs ++ (bytes_of <$> ["volumes"; SanitizeName (NamespaceOrDefault (md_Namespace meta))])).
Proof.
  intros Hr Hp. apply path_Clean_rooted, clean_path_text in Hr as (segs & Hs & E).
  exists segs. split_and!; [done..|]. unfold LocalVolumePath. rewrite E.
  apply volume_names_plain in Hp. rewrite !Forall_cons in Hp. destruct Hp as (Hv & Hns & Happ & _).
  change (SanitizeName "..") with "..".
  rewrite filepath_Join_rooted; [|done|].
  2: { rewrite <-(app_nil_r [_; _; _; ".."]). change (Forall (λ s, s ≠ "" ∧ "/"%char ∉ bytes_of s)
         (["volumes"; SanitizeName (NamespaceOrDefault (md_Namespace meta)); SanitizeName (md_Name meta)] ++ [".."])).
       rewrite Forall_app. split; [apply plain_name_slash; by rewrite !Forall_cons|].
       repeat constructor; [done|]. apply (bool_decide_unpack _). by vm_compute. }
  f_equal. cbn [fmap list_fmap foldl].
  rewrite (clean_step_plain _ _ (bytes_of "volumes")), (clean_step_plain _ _ (bytes_of (SanitizeName (NamespaceOrDefault _)))),
    (clean_step_plain _ _ (bytes_of (SanitizeName (md_Name meta)))) by done.
  change (bytes_of "..") with dotdot. rewrite clean_step_up by done.
  by rewrite !reverse_cons, reverse_involutive, <-app_assoc.
Qed.

(** ** Log tails *)

(** A line and whether it ends in CR LF. *)
Definition line_text (l : list ascii * bool) : list ascii := l.1 ++ (if l.2 then [carriage; newline] else [newline]).
Definition line_ok (l : list ascii * bool) : Prop :=
  (newline ∉ l.1) ∧ (l.2 = false → list.last l.1 ≠ Some carriage).
Definition unlines (lines : list (list ascii)) : list ascii := concat ((λ l, l ++ [newline]) <$> lines).

Lemma crlf_line l rest : line_ok l → crlf_to_lf (line_text l ++ rest) = l.1 ++ newline :: crlf_to_lf rest.
Proof.
  destruct l as [l cr]. unfold line_ok, line_text. cbn [fst snd]. intros [Hn Hc].
  rewrite <-app_assoc. induction l as [|a l IH].
  - by destruct cr, rest.
  - apply not_elem_of_cons in Hn as [Ha Hn]. cbn [app].
    assert (crlf_to_lf (l ++ (if cr then [carriage; newline] else [newline]) ++ rest) = l ++ newline :: crlf_to_lf rest) as IH'.
    { apply IH; [done|]. intros Hcr E. apply (Hc Hcr). by destruct l. }
    rewrite <-IH'. destruct (l ++ _ ++ rest) as [|n r] eqn:E.
    { by destruct l, cr. }
    cbn [crlf_to_lf]. destruct (Ascii.eqb_spec a carriage) as [->|_]; [|done].
    destruct (Ascii.eqb_spec n newline) as [->|_]; [|done]. exfalso.
    destruct l as [|b l]; [|injection E as -> _; set_solver].
    destruct cr; [done|]. by apply (Hc eq_refl).
Qed.

Lemma crlf_tail p : newline ∉ p → crlf_to_lf p = p.
Proof.
  induction p as [|a p IH]; [done|]. intros [Ha Hp]%not_elem_of_cons. cbn [crlf_to_lf].
  rewrite IH by done. destruct p as [|n p]; [done|].
  destruct (Ascii.eqb_spec n newline) as [->|_]; [set_solver|]. by rewrite andb_false_r.
Qed.

Lemma crlf_file ls p :
  Forall line_ok ls → newline ∉ p → crlf_to_lf (concat (line_text <$> ls) ++ p) = unlines ls.*1 ++ p.
Proof.
  intros Hl Hp. induction Hl as [|l ls Hl _ IH]; [by apply crlf_tail|].
  cbn [fmap list_fmap concat]. rewrite <-app_assoc, crlf_line by done. fold (line_text <$> ls). rewrite IH.
  unfold unlines. cbn [fmap list_fmap concat]. by rewrite <-!app_assoc.
Qed.

Lemma split_unlines lines p :
  Forall (λ l, newline ∉ l) lines → newline ∉ p → split_bytes newline (unlines lines ++ p) = lines ++ [p].
Proof.
  intros Hl Hp. induction Hl as [|l ls Hl _ IH]; [by apply split_bytes_none|].
  unfold unlines in *. cbn [fmap list_fmap concat]. rewrite <-!app_assoc. cbn [app].
  rewrite split_bytes_app by done. f_equal. apply IH.
Qed.

Lemma join_unlines lines : lines ≠ [] → join_lines lines ++ [newline] = unlines lines.
Proof.
  intros Hne. unfold unlines. induction lines as [|l [|l2 r] IH]; [done| |].
  - cbn. by rewrite app_nil_r.
  - cbn [fmap list_fmap concat join_lines] in *. rewrite <-!app_assoc. cbn [app].
    f_equal. f_equal.
    rewrite IH by done. by rewrite <-app_assoc.
Qed.

Lemma NormalizeTailLines_bounds tail : (1 ≤ NormalizeTailLines tail ≤ 5000)%Z.
Proof. unfold NormalizeTailLines. repeat case_match; lia. Qed.

Lemma lastn_ne {A} n (l : list A) : (0 < n)%nat → l ≠ [] → lastn n l ≠ [].
Proof. intros Hn Hl E%(f_equal length). rewrite length_lastn in E. destruct l; [done|]. cbn in E. lia. Qed.

(** A log request returns the last lines of the file, at least one and at most 5000, each
    terminated, with CR LF turned into LF and an unterminated last line counted. *)
Theorem ReadTailFile_spec ls p tail :
  Forall line_ok ls → newline ∉ p →
  ReadTailFile (Ok (Some (concat (line_text <$> ls) ++ p))) tail =
  Ok (unlines (lastn (Z.to_nat (NormalizeTailLines tail)) (ls.*1 ++ (if bool_decide (p = []) then [] else [p])))).
Proof.
  intros Hl Hp. unfold ReadTailFile. cbn [mbind res_bind]. rewrite crlf_file by done.
  set (n := Z.to_nat _). assert (0 < n)%nat as Hn by (pose proof (NormalizeTailLines_bounds tail); lia).
  assert (Forall (λ l, newline ∉ l) ls.*1) as Hl'.
  { apply Forall_fmap. eapply Forall_impl; [exact Hl|]. by intros ? [? _]. }
  set (all := ls.*1 ++ _).
  assert (tailLogContent (unlines ls.*1 ++ p) tail = unlines (lastn n all)) as Ht.
  { unfold tailLogContent. rewrite split_unlines, last_snoc by done. fold n.
    assert (match p with [] => take (length (ls.*1 ++ [p]) - 1) (ls.*1 ++ [p]) | _ => ls.*1 ++ [p] end = all) as E.
    { unfold all. destruct p; [|done]. rewrite length_app, Nat.add_sub, take_app_length. by rewrite app_nil_r. }
    rewrite E. destruct (Nat.eqb_spec (length (lastn n all)) 0) as [E0|E0].
    - apply length_zero_iff_nil in E0. by rewrite E0.
    - apply join_unlines. by intros ?%(f_equal length). }
  rewrite <-Ht. destruct (Nat.eqb_spec (length (unlines ls.*1 ++ p)) 0) as [E|_]; [|done].
  apply length_zero_iff_nil in E. by rewrite E.
Qed.
