(* ===== verification/ProcessRuntime.v ===== *)
(** * The process runtime (internal/runtime/process: provider.go, provider_state.go,
    provider_logs.go, liveness_unix.go)

    Workloads run as child processes of the agent.  [Deploy] starts a process, records it in a
    state file and a DNS record, and leaves a goroutine that waits for it; [Stop] reads the file
    and signals the process.  Calls and waiting goroutines are threads of one agent that share
    the process table, the state files and the DNS service; one step of a thread is one system
    call or one call of the DNS service, so that every interleaving of the code is a run of the
    model.  The failures of the system calls are chosen by the step's [answers]. *)
From stdpp Require Import base strings numbers gmap list.
From Stdlib Require Import Ascii.
From S2P Require Import Prelude GoStrings GoTime GoNet GoList Deploy Meta GoText Placement Fsm RaftService TaskBase Dns Runtime.

(** ** Files of a workload *)
Section paths.
Variable DefaultDataRoot : string.  (** [config.DefaultDataRoot()] *)
Variable root : string.             (** [Provider.root] *)

Definition rootOrDefault : string :=
  if negb (TrimSpace root =? "")%string then path_Clean root
  else filepath_Join [DefaultDataRoot; "runtime"; "process"].

Definition nameBase (meta : Metadata) (workloadName : string) : string :=
  SanitizeName (NamespaceOrDefault (md_Namespace meta)) +:+ "-" +:+ SanitizeName (md_Name meta) +:+ "-"
  +:+ SanitizeName workloadName.

Definition statePath (meta : Metadata) (workloadName : string) : string :=
  filepath_Join [rootOrDefault; "state"; nameBase meta workloadName +:+ ".json"].

Definition logPathsForWorkload (meta : Metadata) (workloadName : string) : string * string :=
  let base := nameBase meta workloadName in
  (filepath_Join [rootOrDefault; "logs"; base +:+ ".stdout.log"],
   filepath_Join [rootOrDefault; "logs"; base +:+ ".stderr.log"]).

Definition overrideProcessLogPath (defaultPath configured : string) : string :=
  let path := TrimSpace configured in if negb (path =? "")%string then path else defaultPath.

Definition logPaths (meta : Metadata) (w : Workload) : string * string :=
  let '(stdoutPath, stderrPath) := logPathsForWorkload meta (w_Name w) in
  match opt_Process (run_Options (w_Run w)) with
  | Some o => (overrideProcessLogPath stdoutPath (proc_StdoutPath o), overrideProcessLogPath stderrPath (proc_StderrPath o))
  | None => (stdoutPath, stderrPath)
  end.
End paths.

Definition processStopTimeout (run : RunSpec) : string :=
  match opt_Process (run_Options run) with None => "" | Some o => TrimSpace (proc_GracefulStopTimeout o) end.

(** The state file; its JSON text is read back as it was written. *)
Record procState := mkProcState {
  st_PID : Z; st_Metadata : Metadata; st_Workload : string; st_Runtime : string; st_Artifact : string;
  st_StdoutPath : string; st_StderrPath : string; st_StopAfter : string; st_StartedAt : Z }.

Definition defaultStopTimeout : Z := 5000000000.

Definition stopTimeout (st : procState) : Z :=
  if negb (st_StopAfter st =? "")%string then
    match ParseDuration (st_StopAfter st) with
    | Ok d => if (0 <? d)%Z then d else defaultStopTimeout
    | Err _ => defaultStopTimeout
    end
  else defaultStopTimeout.

Definition stateLogPaths (st : procState) (defaultStdout defaultStderr : string) : string * string :=
  (overrideProcessLogPath defaultStdout (st_StdoutPath st), overrideProcessLogPath defaultStderr (st_StderrPath st)).

(** ** The host *)

(** [Doomed]: killed, not yet gone.  [Zombie]: gone, not yet waited for; it still answers
    signal 0. *)
Inductive run_state := Running | Doomed | Zombie.
#[export] Instance run_state_eq_dec : EqDecision run_state.
Proof. solve_decision. Defined.

(** [pr_owner] is the state path of the workload the process runs. *)
Record proc := mkProc { pr_owner : string; pr_run : run_state }.

(** Where a goroutine of the provider is. *)
Inductive thread :=
| TCheck (meta : Metadata) (w : Workload)                     (* Deploy: ensureNoLiveState reads the state *)
| TClear (meta : Metadata) (w : Workload)                     (* it removes a state without a process *)
| TStart (meta : Metadata) (w : Workload)                     (* logs are opened and the process is started *)
| TWrite (meta : Metadata) (w : Workload) (pid : Z) (now : Z)  (* writeState *)
| TDNS (meta : Metadata) (w : Workload) (pid : Z)             (* UpsertWorkloadA *)
| TUndo (meta : Metadata) (w : Workload) (e : error)          (* cleanupRemoveState, then the error *)
| TStopRead (meta : Metadata) (name : string)                 (* Stop: readState *)
| TStopMissing (meta : Metadata) (name : string)              (* handleMissingStopState *)
| TStopSignal (meta : Metadata) (name : string) (st : procState)
| TStopWait (meta : Metadata) (name : string) (st : procState)
| TStopDNS (meta : Metadata) (name : string)
| TStopFile (meta : Metadata) (name : string)
| TWait (meta : Metadata) (name : string) (pid : Z)           (* waitProcess: cmd.Wait *)
| TWaitRead (meta : Metadata) (name : string) (pid : Z)       (* removeStateIfPID reads *)
| TWaitRemove (meta : Metadata) (name : string) (pid : Z)     (* and removes *)
| TWaitDNS (meta : Metadata) (name : string).                 (* cleanupRemoveDNS *)

Record Host := mkHost {
  h_procs : gmap Z proc; h_files : gmap string procState; h_dns : DnsService;
  h_threads : gmap nat thread; h_results : list (string * res unit) }.

(** What the system answers during a step; [an_timeout]: the stop timeout has passed;
    [an_denied]: signals to the pid are refused (EPERM); [an_kill]: the answer to a kill. *)
Record answers := mkAnswers {
  an_read : res unit; an_remove : res unit; an_write : res unit; an_logs : res unit; an_start : res Z;
  an_save : DnsRecord → res unit; an_delete : DnsRecord → res unit; an_timeout : bool; an_now : Z;
  an_denied : Z → bool; an_kill : res unit }.

Definition with_procs ps (h : Host) : Host := mkHost ps (h_files h) (h_dns h) (h_threads h) (h_results h).
Definition with_files fs (h : Host) : Host := mkHost (h_procs h) fs (h_dns h) (h_threads h) (h_results h).
Definition with_dns d (h : Host) : Host := mkHost (h_procs h) (h_files h) d (h_threads h) (h_results h).

(** A signal arrives when the process is in the table and the agent may signal it; any error of
    signal 0 counts as not alive. *)
Definition processAlive (a : answers) (h : Host) (pid : Z) : bool :=
  if (pid <=? 0)%Z then false
  else if h_procs h !! pid is Some _ then negb (an_denied a pid) else false.

Definition kill_proc (p : proc) : proc :=
  mkProc (pr_owner p) (match pr_run p with Running => Doomed | r => r end).

Definition killed (pid : Z) (h : Host) : Host := with_procs (alter kill_proc pid (h_procs h)) h.

(** An error of the kill is only logged: the process lives on. *)
Definition killProcess (a : answers) (pid : Z) (h : Host) : Host :=
  match an_kill a with Err _ => h | Ok _ => killed pid h end.

Section provider.
Context `{UnicodeLower, DnsLib} (cfg : DNSConfig) (DefaultDataRoot root : string).
Variable has_dns : bool.  (** [p.dns != nil] *)

Notation path := (statePath DefaultDataRoot root).

(** [Ok None]: the file does not exist; the error is that of reading or of decoding. *)
Definition readState (a : answers) (h : Host) (p : string) : res (option procState) :=
  match an_read a with
  | Err e => Err e
  | Ok _ => Ok (h_files h !! p)
  end.

Definition removeState (a : answers) (p : string) (h : Host) : res unit * Host :=
  match h_files h !! p with
  | None => (Ok tt, h)
  | Some _ =>
      match an_remove a with
      | Err e => (Err (Wrapf e "remove process state" []), h)
      | Ok _ => (Ok tt, with_files (delete p (h_files h)) h)
      end
  end.

(** The error is that of creating the directory, of encoding or of writing. *)
Definition writeState (a : answers) (p : string) (st : procState) (h : Host) : res unit * Host :=
  match an_write a with
  | Err e => (Err e, h)
  | Ok _ => (Ok tt, with_files (<[p := st]> (h_files h)) h)
  end.

Definition upsertDNS (a : answers) (meta : Metadata) (name : string) (h : Host) : res unit * Host :=
  if has_dns then
    let '(r, d) := UpsertWorkloadA cfg (an_save a) (an_delete a) (md_Namespace meta) name
                     (WorkloadAdvertiseAddress cfg "127.0.0.1") (h_dns h) in
    (wrap "upsert workload DNS" [] r, with_dns d h)
  else (Ok tt, h).

Definition removeWorkloadDNS (a : answers) (meta : Metadata) (name : string) (h : Host) : res unit * Host :=
  if has_dns then
    let '(r, d) := RemoveWorkloadA cfg (an_delete a) (md_Namespace meta) name (h_dns h) in
    (wrap "remove workload DNS" [] r, with_dns d h)
  else (Ok tt, h).

(** [cleanupRemoveDNS]: an error is only logged. *)
Definition cleanupRemoveDNS (a : answers) (meta : Metadata) (name : string) (h : Host) : Host :=
  (removeWorkloadDNS a meta name h).2.

(** The check of a state that exists; it is removed when the check passes. *)
Definition ensureNoLiveState (a : answers) (h : Host) (name : string) (st : procState) : res unit :=
  guard_err ((0 <? st_PID st)%Z && processAlive a h (st_PID st))
    (Errorf "process workload %q already has live pid %d" [AStr name; AInt (st_PID st)]).

(** [waitExit]: [Some true] once the process is gone, [Some false] when it outlives the
    timeout, [None] while it goes on polling. *)
Definition waitExit (a : answers) (h : Host) (pid : Z) : option bool :=
  if negb (processAlive a h pid) then Some true else if an_timeout a then Some false else None.

(** [removeStateIfPID] up to the removal: whether the state is that of [pid]. *)
Definition removeStateIfPID (a : answers) (h : Host) (p : string) (pid : Z) : bool :=
  match readState a h p with Ok (Some st) => (st_PID st =? pid)%Z | _ => false end.

(** What a step leaves of its thread. *)
Inductive outcome := Go (t : thread) | Return (r : res unit) | ReturnGo (r : res unit) (t : thread) | Exit.

(** [Deploy] and [Stop], up to their first system call. *)
Definition Deploy_call (meta : Metadata) (w : Workload) : outcome :=
  match ProcessCommand (w_Run w) with
  | None => Return (Err (Errorf "workload %q: run.exec.command or run.artifact.path is required" [AStr (w_Name w)]))
  | Some _ =>
      match wrap "validate workload mounts" [] (RejectUnsupportedMounts RuntimeProcess w) with
      | Err e => Return (Err e)
      | Ok _ => Go (TCheck meta w)
      end
  end.
Definition Stop_call (meta : Metadata) (name : string) : outcome := Go (TStopRead meta name).

Definition Deploy_step (a : answers) (t : thread) (h : Host) : option (outcome * Host) :=
  match t with
  | TCheck meta w =>
      Some (match readState a h (path meta (w_Name w)) with
            | Err e => Return (Err e)
            | Ok None => Go (TStart meta w)
            | Ok (Some st) =>
                match ensureNoLiveState a h (w_Name w) st with Err e => Return (Err e) | Ok _ => Go (TClear meta w) end
            end, h)
  | TClear meta w =>
      let '(r, h) := removeState a (path meta (w_Name w)) h in
      Some (match r with Err e => Return (Err e) | Ok _ => Go (TStart meta w) end, h)
  | TStart meta w =>
      match an_logs a, an_start a with
      | Err e, _ => Some (Return (Err e), h)
      | Ok _, Err e =>
          let exe := match ProcessCommand (w_Run w) with Some (exe, _) => exe | None => "" end in
          Some (Return (Err (Wrapf e "process start %q" [AStr exe])), h)
      | Ok _, Ok pid =>
          if (pid <=? 0)%Z then None
          else match h_procs h !! pid with
          | Some _ => None
          | None => Some (Go (TWrite meta w pid (an_now a)),
                          with_procs (<[pid := mkProc (path meta (w_Name w)) Running]> (h_procs h)) h)
          end
      end
  | TWrite meta w pid now =>
      let '(stdoutPath, stderrPath) := logPaths DefaultDataRoot root meta w in
      let st := mkProcState pid meta (w_Name w) (w_Runtime w) (ArtifactSummary (w_Run w)) stdoutPath stderrPath
                  (processStopTimeout (w_Run w)) now in
      let '(r, h) := writeState a (path meta (w_Name w)) st h in
      Some (match r with
            | Err e => (Return (Err e), killProcess a pid h)
            | Ok _ => (Go (TDNS meta w pid), h)
            end)
  | TDNS meta w pid =>
      let '(r, h) := upsertDNS a meta (w_Name w) h in
      Some (match r with
            | Err e => (Go (TUndo meta w e), killProcess a pid h)
            | Ok _ => (ReturnGo (Ok tt) (TWait meta (w_Name w) pid), h)
            end)
  | TUndo meta w e =>
      let '(_, h) := removeState a (path meta (w_Name w)) h in Some (Return (Err e), h)
  | _ => None
  end.

Definition Stop_step (a : answers) (t : thread) (h : Host) : option (outcome * Host) :=
  match t with
  | TStopRead meta name =>
      Some (match readState a h (path meta name) with
            | Err e => Return (Err e)
            | Ok None => Go (TStopMissing meta name)
            | Ok (Some st) => Go (TStopSignal meta name st)
            end, h)
  | TStopMissing meta name => Some (Return (Ok tt), cleanupRemoveDNS a meta name h)
  | TStopSignal meta name st =>
      (* the interrupt fails when there is no such process or signals to it are refused *)
      if processAlive a h (st_PID st) then Some (Go (TStopWait meta name st), h)
      else Some (Go (TStopDNS meta name), killProcess a (st_PID st) h)
  | TStopWait meta name st =>
      match waitExit a h (st_PID st) with
      | Some true => Some (Go (TStopDNS meta name), h)
      | Some false => Some (Go (TStopDNS meta name), killProcess a (st_PID st) h)
      | None => None
      end
  | TStopDNS meta name =>
      let '(r, h) := removeWorkloadDNS a meta name h in
      Some (match r with Err e => Return (Err e) | Ok _ => Go (TStopFile meta name) end, h)
  | TStopFile meta name =>
      let '(r, h) := removeState a (path meta name) h in Some (Return r, h)
  | _ => None
  end.

Definition waitProcess_step (a : answers) (t : thread) (h : Host) : option (outcome * Host) :=
  match t with
  | TWait meta name pid =>
      match h_procs h !! pid with
      | Some (mkProc _ Zombie) => Some (Go (TWaitRead meta name pid), with_procs (delete pid (h_procs h)) h)
      | _ => None
      end
  | TWaitRead meta name pid =>
      Some (if removeStateIfPID a h (path meta name) pid then Go (TWaitRemove meta name pid)
            else Go (TWaitDNS meta name), h)
  | TWaitRemove meta name pid =>
      let '(_, h) := removeState a (path meta name) h in Some (Go (TWaitDNS meta name), h)
  | TWaitDNS meta name => Some (Exit, cleanupRemoveDNS a meta name h)
  | _ => None
  end.

Definition thread_path (t : thread) : string :=
  match t with
  | TCheck meta w | TClear meta w | TStart meta w | TWrite meta w _ _ | TDNS meta w _ | TUndo meta w _ =>
      path meta (w_Name w)
  | TStopRead meta name | TStopMissing meta name | TStopSignal meta name _ | TStopWait meta name _
  | TStopDNS meta name | TStopFile meta name | TWait meta name _ | TWaitRead meta name _
  | TWaitRemove meta name _ | TWaitDNS meta name => path meta name
  end.

Definition thread_step (a : answers) (t : thread) (h : Host) : option (outcome * Host) :=
  match t with
  | TCheck _ _ | TClear _ _ | TStart _ _ | TWrite _ _ _ _ | TDNS _ _ _ | TUndo _ _ _ => Deploy_step a t h
  | TWait _ _ _ | TWaitRead _ _ _ | TWaitRemove _ _ _ | TWaitDNS _ _ => waitProcess_step a t h
  | _ => Stop_step a t h
  end.

(** The thread [tid] of a call on [p] continues with [o]. *)
Definition settle (tid : nat) (p : string) (o : outcome) (h : Host) : Host :=
  match o with
  | Go t => mkHost (h_procs h) (h_files h) (h_dns h) (<[tid := t]> (h_threads h)) (h_results h)
  | Return r => mkHost (h_procs h) (h_files h) (h_dns h) (delete tid (h_threads h)) (h_results h ++ [(p, r)])
  | ReturnGo r t => mkHost (h_procs h) (h_files h) (h_dns h) (<[tid := t]> (h_threads h)) (h_results h ++ [(p, r)])
  | Exit => mkHost (h_procs h) (h_files h) (h_dns h) (delete tid (h_threads h)) (h_results h)
  end.

Inductive label :=
| LDeploy (tid : nat) (meta : Metadata) (w : Workload)
| LStop (tid : nat) (meta : Metadata) (name : string)
| LThread (tid : nat) (a : answers)
| LExit (pid : Z).

Definition host_step (l : label) (h : Host) : option Host :=
  match l with
  | LDeploy tid meta w =>
      match h_threads h !! tid with
      | Some _ => None
      | None => Some (settle tid (path meta (w_Name w)) (Deploy_call meta w) h)
      end
  | LStop tid meta name =>
      match h_threads h !! tid with
      | Some _ => None
      | None => Some (settle tid (path meta name) (Stop_call meta name) h)
      end
  | LThread tid a =>
      t ← h_threads h !! tid; '(o, h') ← thread_step a t h; Some (settle tid (thread_path t) o h')
  | LExit pid =>
      p ← h_procs h !! pid;
      match pr_run p with
      | Zombie => None
      | _ => Some (with_procs (<[pid := mkProc (pr_owner p) Zombie]> (h_procs h)) h)
      end
  end.

Definition host_run (ls : list label) (h : Host) : option Host := foldl (λ oh l, h ← oh; host_step l h) (Some h) ls.

(** ** Views *)
Definition process_Status (a : answers) (h : Host) (meta : Metadata) (name : string) : res RuntimeStatus :=
  match readState a h (path meta name) with
  | Err e => Err e
  | Ok None => Ok (mkStatus (TrimSpace name) RuntimeProcess "stopped" "" 0 0 "")
  | Ok (Some st) =>
      let '(status, message) :=
        if (0 <? st_PID st)%Z && processAlive a h (st_PID st) then ("running", "")
        else ("stopped", "process state exists but pid is not running") in
      Ok (mkStatus (TrimSpace name) RuntimeProcess status (Itoa (st_PID st)) (st_StartedAt st) (an_now a) message)
  end.

Definition combineProcessLogs (stdout stderr : list ascii) : list ascii :=
  match stderr with
  | [] => stdout
  | _ =>
      match list.last stdout with
      | Some c => if Ascii.eqb c newline then stdout ++ stderr else stdout ++ [newline] ++ stderr
      | None => stderr
      end
  end.

Definition processLogSource (stdoutPath stderrPath : string) : string :=
  let stdoutDir := filepath_Dir stdoutPath in
  if (stdoutDir =? filepath_Dir stderrPath)%string then stdoutDir
  else "stdout=" +:+ stdoutPath +:+ " stderr=" +:+ stderrPath.

(** [logs] is what reading a log file gives. *)
Definition process_Logs (a : answers) (logs : string → res (option (list ascii))) (h : Host) (meta : Metadata)
    (name : string) (tail : Z) : res LogResult :=
  let '(stdoutPath, stderrPath) := logPathsForWorkload DefaultDataRoot root meta name in
  let '(stdoutPath, stderrPath) :=
    match readState a h (path meta name) with
    | Ok (Some st) => stateLogPaths st stdoutPath stderrPath
    | _ => (stdoutPath, stderrPath)
    end in
  stdout ← wrap "read stdout log" [] (ReadTailFile (logs stdoutPath) tail);
  stderr ← wrap "read stderr log" [] (ReadTailFile (logs stderrPath) tail);
  Ok (mkLogResult (TrimSpace name) RuntimeProcess (processLogSource stdoutPath stderrPath)
        (of_bytes (combineProcessLogs stdout stderr))).
End provider.
