(* ===== verification/ProcessRuntimeSpec.v ===== *)
(** * What the process runtime guarantees

    As long as the calls on one workload do not overlap, a waiting goroutine that is about to
    remove a state file is not overtaken by such a call, and the signals and kills of the agent
    reach its processes, every running process is recorded
    in the state file of its workload or is just being recorded; so a workload runs at most
    once, its status is right, and a stop that succeeds leaves nothing running.  Without these
    conditions the runs at the end lose a process, a state file or a DNS record. *)
From stdpp Require Import base strings numbers gmap list relations.
From Stdlib Require Import Ascii.
From S2P Require Import Prelude GoStrings GoTime GoNet GoList Deploy Meta Placement Fsm RaftService GoText TaskBase Dns Runtime.
From S2P Require Import ProcessRuntime.

Section tracking.
Context `{UnicodeLower, DnsLib} (cfg : DNSConfig) (DefaultDataRoot root : string) (has_dns : bool).

Local Notation path := (statePath DefaultDataRoot root).
Local Notation thread_path := (thread_path DefaultDataRoot root).
Local Notation thread_step := (thread_step cfg DefaultDataRoot root has_dns).
Local Notation step := (host_step cfg DefaultDataRoot root has_dns).

(** The pid of a running process of the workload at [p]. *)
Definition runs (h : Host) (p : string) (pid : Z) : Prop := h_procs h !! pid = Some (mkProc p Running).

Definition recorded (h : Host) (p : string) (pid : Z) : Prop := ∃ st, h_files h !! p = Some st ∧ st_PID st = pid.

(** Threads that may change the file of their workload; the others are waiting goroutines
    that have not yet seen their pid in it, or are done with it. *)
Definition busy (t : thread) : bool :=
  match t with TWait _ _ _ | TWaitRead _ _ _ | TWaitDNS _ _ => false | _ => true end.

(** No two busy threads on one workload, and no pid reused by a workload while a waiting
    goroutine still cleans up after the process that had it. *)
Definition exclusive (h : Host) : Prop :=
  (∀ i j t u, h_threads h !! i = Some t → h_threads h !! j = Some u → busy t = true → busy u = true →
     thread_path t = thread_path u → i = j) ∧
  (∀ i meta name pid, h_threads h !! i = Some (TWaitRead meta name pid) ∨ h_threads h !! i = Some (TWaitRemove meta name pid) →
     ¬ runs h (path meta name) pid).

(** What a thread relies on. *)
Definition thread_inv (h : Host) (t : thread) : Prop :=
  match t with
  | TCheck _ _ | TStopRead _ _ | TWait _ _ _ | TWaitRead _ _ _ | TWaitDNS _ _ => True
  | TClear _ _ | TStart _ _ | TUndo _ _ _ | TStopMissing _ _ | TStopDNS _ _ | TStopFile _ _ =>
      ∀ q, ¬ runs h (thread_path t) q
  | TWrite _ _ pid _ | TDNS _ _ pid => ∀ q, runs h (thread_path t) q → q = pid
  | TStopSignal _ _ st | TStopWait _ _ st => ∀ q, runs h (thread_path t) q → q = st_PID st
  | TWaitRemove _ _ pid => ∀ st, h_files h !! thread_path t = Some st → st_PID st = pid
  end.

(** The system lets the agent signal and kill its processes. *)
Definition obedient (a : answers) : Prop := an_kill a = Ok tt ∧ ∀ pid, an_denied a pid = false.

Definition recording (h : Host) (p : string) (pid : Z) : Prop :=
  ∃ i meta w now, h_threads h !! i = Some (TWrite meta w pid now) ∧ path meta (w_Name w) = p.

Record tracked (h : Host) : Prop := {
  tr_pids pid p : h_procs h !! pid = Some p → (0 < pid)%Z;
  tr_procs p pid : runs h p pid → recorded h p pid ∨ recording h p pid;
  tr_threads i t : h_threads h !! i = Some t → thread_inv h t;
}.

(** ** Views of a step *)
Lemma busy_write_unique h i t p pid :
  exclusive h → h_threads h !! i = Some t → busy t = true → (∀ meta w now, t ≠ TWrite meta w pid now) →
  p = thread_path t → ¬ recording h p pid.
Proof.
  intros [Hx _] Ht Hb Hn -> (j & meta & w & now & Hj & Hp).
  assert (i = j) as <- by (by eapply Hx). rewrite Ht in Hj. injection Hj as ->. by eapply Hn.
Qed.

(** A running process of the workload of a busy thread that is not recording one is in the
    state file. *)
Lemma runs_recorded h i t q :
  tracked h → exclusive h → h_threads h !! i = Some t → busy t = true → (∀ meta w pid now, t ≠ TWrite meta w pid now) →
  runs h (thread_path t) q → recorded h (thread_path t) q.
Proof.
  intros Ht Hx Hi Hb Hn Hr. destruct (tr_procs h Ht _ _ Hr) as [?|Hrec]; [done|].
  by eapply busy_write_unique in Hrec.
Qed.

Lemma processAlive_runs a h p q :
  an_denied a q = false → tracked h → runs h p q → processAlive a h q = true.
Proof.
  intros Ha Ht Hr. unfold processAlive. pose proof (tr_pids h Ht _ _ Hr).
  rewrite (proj2 (Z.leb_gt q 0)) by lia. by rewrite Hr, Ha.
Qed.

Lemma obedient_kill a pid h : obedient a → killProcess a pid h = killed pid h.
Proof. intros [E _]. unfold killProcess. by rewrite E. Qed.

Lemma runs_kill h pid p q : runs (killed pid h) p q ↔ runs h p q ∧ q ≠ pid.
Proof.
  unfold runs, killed. cbn [h_procs with_procs]. destruct (decide (q = pid)) as [->|Hne].
  - rewrite lookup_alter_eq. split; [|naive_solver]. destruct (h_procs h !! pid) as [[o []]|]; naive_solver.
  - rewrite lookup_alter_ne by done. naive_solver.
Qed.

Lemma thread_inv_mono h h' t :
  (∀ q, runs h' (thread_path t) q → runs h (thread_path t) q) →
  h_files h' !! thread_path t = h_files h !! thread_path t → thread_inv h t → thread_inv h' t.
Proof. intros Hr Hf. destruct t; cbn [thread_inv] in *; rewrite ?Hf; naive_solver. Qed.

(** A step that starts no process and changes no file. *)
Lemma tracked_quiet h h' i ot :
  tracked h → (∀ pid p, h_procs h' !! pid = Some p → (0 < pid)%Z) →
  (∀ Q q, runs h' Q q → runs h Q q) → h_files h' = h_files h →
  h_threads h' = partial_alter (λ _, ot) i (h_threads h) →
  (∀ meta w pid now, h_threads h !! i ≠ Some (TWrite meta w pid now)) →
  (∀ t', ot = Some t' → thread_inv h' t') → tracked h'.
Proof.
  intros [_ Hprocs Hthreads] Hpids Hr Hf Ht Hn Hnew. split; [done| |].
  - intros Q q Hq. destruct (Hprocs Q q (Hr _ _ Hq)) as [(st & Hs)|(j & meta & w & now & Hj & Hp)].
    + left. exists st. by rewrite Hf.
    + right. exists j, meta, w, now. split; [|done]. rewrite Ht, lookup_partial_alter_ne; [done|].
      intros <-. by eapply Hn.
  - intros j u. rewrite Ht. destruct (decide (i = j)) as [<-|Hne].
    + rewrite lookup_partial_alter_eq. apply Hnew.
    + rewrite lookup_partial_alter_ne by done. intros Hj.
      eapply thread_inv_mono; [| |by apply (Hthreads j)]; [auto|by rewrite Hf].
Qed.

(** A step of a busy thread, which owns the file and the processes of its workload. *)
Lemma tracked_busy h h' i t ot :
  tracked h → exclusive h → h_threads h !! i = Some t → busy t = true →
  (∀ pid p, h_procs h' !! pid = Some p → (0 < pid)%Z) →
  (∀ Q q, Q ≠ thread_path t → runs h' Q q → runs h Q q) →
  (∀ Q, Q ≠ thread_path t → h_files h' !! Q = h_files h !! Q) →
  h_threads h' = partial_alter (λ _, ot) i (h_threads h) →
  (∀ q, runs h' (thread_path t) q → recorded h' (thread_path t) q ∨
     ∃ meta w now, ot = Some (TWrite meta w q now) ∧ path meta (w_Name w) = thread_path t) →
  (∀ t', ot = Some t' → thread_inv h' t') → tracked h'.
Proof.
  intros [_ Hprocs Hthreads] [Hx _] Hi Hb Hpids Hr Hf Ht Hown Hnew. split; [done| |].
  - intros Q q Hq. destruct (decide (Q = thread_path t)) as [->|HQ].
    + destruct (Hown q Hq) as [?|(meta & w & now & -> & Hp)]; [by left|]. right.
      exists i, meta, w, now. by rewrite Ht, lookup_partial_alter_eq.
    + destruct (Hprocs Q q (Hr _ _ HQ Hq)) as [(st & Hs)|(j & meta & w & now & Hj & Hp)].
      * left. exists st. by rewrite Hf.
      * right. exists j, meta, w, now. split; [|done]. rewrite Ht, lookup_partial_alter_ne; [done|].
        intros <-. rewrite Hi in Hj. injection Hj as ->. by apply HQ.
  - intros j u. rewrite Ht. destruct (decide (i = j)) as [<-|Hne].
    + rewrite lookup_partial_alter_eq. apply Hnew.
    + rewrite lookup_partial_alter_ne by done. intros Hj. specialize (Hthreads j u Hj).
      destruct (busy u) eqn:Eb; [|by destruct u].
      assert (thread_path u ≠ thread_path t) as HQ by (intros E; by apply Hne; eapply Hx).
      eapply thread_inv_mono; [| |done]; auto.
Qed.
Lemma recorded_same h h' p q : h_files h' !! p = h_files h !! p → recorded h p q → recorded h' p q.
Proof. unfold recorded. by intros ->. Qed.

Lemma tr_pids_sub h h' :
  tracked h → (∀ pid, is_Some (h_procs h' !! pid) → is_Some (h_procs h !! pid)) →
  ∀ pid p, h_procs h' !! pid = Some p → (0 < pid)%Z.
Proof. intros Ht Hs pid p Hp. destruct (Hs pid) as [p' Hp']; [by eexists|]. by eapply tr_pids. Qed.

Lemma kill_procs h pid q : is_Some (h_procs (killed pid h) !! q) → is_Some (h_procs h !! q).
Proof.
  unfold killed. cbn [h_procs with_procs]. destruct (decide (pid = q)) as [<-|Hne].
  - rewrite lookup_alter_eq. by rewrite fmap_is_Some.
  - by rewrite lookup_alter_ne.
Qed.

Lemma removeState_spec a p h r h' :
  removeState a p h = (r, h') →
  h_procs h' = h_procs h ∧ h_threads h' = h_threads h ∧ h_dns h' = h_dns h ∧
  (∀ Q, Q ≠ p → h_files h' !! Q = h_files h !! Q) ∧ (h_files h' !! p = h_files h !! p ∨ h_files h' !! p = None) ∧
  (r = Ok tt → h_files h' !! p = None).
Proof.
  unfold removeState. destruct (h_files h !! p) eqn:E; [destruct (an_remove a)|]; intros [= <- <-];
    cbn [with_files h_procs h_threads h_dns h_files]; split_and!; try done; try (by left); eauto.
  all: first [intros Q HQ; by rewrite lookup_delete_ne | rewrite lookup_delete_eq; eauto].
Qed.

Lemma upsertDNS_spec a meta name h r h' :
  upsertDNS cfg has_dns a meta name h = (r, h') →
  h_procs h' = h_procs h ∧ h_files h' = h_files h ∧ h_threads h' = h_threads h.
Proof. unfold upsertDNS. destruct has_dns; [destruct (UpsertWorkloadA _ _ _ _ _ _ _)|]; by intros [= <- <-]. Qed.

Lemma removeDNS_spec a meta name h r h' :
  removeWorkloadDNS cfg has_dns a meta name h = (r, h') →
  h_procs h' = h_procs h ∧ h_files h' = h_files h ∧ h_threads h' = h_threads h.
Proof. unfold removeWorkloadDNS. destruct has_dns; [destruct (RemoveWorkloadA _ _ _ _ _)|]; by intros [= <- <-]. Qed.

Lemma settle_threads i p o h :
  h_threads (settle i p o h) =
  partial_alter (λ _, match o with Go t | ReturnGo _ t => Some t | _ => None end) i (h_threads h).
Proof. by destruct o. Qed.

Lemma settle_same i p o h : h_procs (settle i p o h) = h_procs h ∧ h_files (settle i p o h) = h_files h.
Proof. by destruct o. Qed.

(** The thread an outcome leaves. *)
Definition left_thread (o : outcome) : option thread := match o with Go t | ReturnGo _ t => Some t | _ => None end.

Lemma thread_inv_settle i p o h t : thread_inv (settle i p o h) t ↔ thread_inv h t.
Proof. by destruct o, t. Qed.

(** One step of a busy thread, from what it does to its own workload. *)
Lemma settle_busy h i t o h' :
  tracked h → exclusive h → h_threads h !! i = Some t → busy t = true → h_threads h' = h_threads h →
  (∀ pid p, h_procs h' !! pid = Some p → (0 < pid)%Z) →
  (∀ Q q, Q ≠ thread_path t → runs h' Q q → runs h Q q) →
  (∀ Q, Q ≠ thread_path t → h_files h' !! Q = h_files h !! Q) →
  (∀ q, runs h' (thread_path t) q → recorded h' (thread_path t) q ∨
     ∃ meta w now, left_thread o = Some (TWrite meta w q now) ∧ path meta (w_Name w) = thread_path t) →
  (∀ t', left_thread o = Some t' → thread_inv h' t') → tracked (settle i (thread_path t) o h').
Proof.
  intros Ht Hx Hi Hb Hth Hpids Hr Hf Hown Hnew. destruct (settle_same i (thread_path t) o h') as [Ep Ef].
  eapply (tracked_busy h _ i t (left_thread o)); try done.
  - by rewrite Ep.
  - unfold runs in *. by rewrite Ep.
  - intros Q HQ. rewrite Ef. by apply Hf.
  - by rewrite settle_threads, Hth.
  - unfold runs, recorded in *. by rewrite Ep, Ef.
  - intros t' E. by apply thread_inv_settle, Hnew.
Qed.
(** A busy thread that starts nothing and at most removes the file of a workload that does
    not run. *)
Lemma settle_shrink h i t o h' :
  tracked h → exclusive h → h_threads h !! i = Some t → busy t = true → (∀ meta w pid now, t ≠ TWrite meta w pid now) →
  h_threads h' = h_threads h → (∀ q, is_Some (h_procs h' !! q) → is_Some (h_procs h !! q)) →
  (∀ Q q, runs h' Q q → runs h Q q) →
  (∀ Q, Q ≠ thread_path t → h_files h' !! Q = h_files h !! Q) →
  h_files h' !! thread_path t = h_files h !! thread_path t ∨ (∀ q, ¬ runs h (thread_path t) q) →
  (∀ t', left_thread o = Some t' → thread_inv h' t') → tracked (settle i (thread_path t) o h').
Proof.
  intros Ht Hx Hi Hb Hn Hth Hp Hr Hf Hown Hnew. eapply settle_busy; try done.
  - by apply (tr_pids_sub h).
  - auto.
  - intros q Hq%Hr. left. destruct Hown as [E|Hno]; [|by apply Hno in Hq].
    eapply recorded_same; [done|]. by eapply runs_recorded.
Qed.

Lemma settle_unchanged h i t o :
  tracked h → exclusive h → h_threads h !! i = Some t → busy t = true → (∀ meta w pid now, t ≠ TWrite meta w pid now) →
  (∀ t', left_thread o = Some t' → thread_inv h t') → tracked (settle i (thread_path t) o h).
Proof. intros. eapply settle_shrink; eauto. Qed.

Lemma check_keeps h i a meta w o h' :
  obedient a → tracked h → exclusive h → h_threads h !! i = Some (TCheck meta w) →
  Deploy_step cfg DefaultDataRoot root has_dns a (TCheck meta w) h = Some (o, h') →
  tracked (settle i (path meta (w_Name w)) o h').
Proof.
  intros Ho Ht Hx Hi [= <- <-]. apply (settle_unchanged h i (TCheck meta w)); try done.
  assert (∀ q, runs h (path meta (w_Name w)) q → recorded h (path meta (w_Name w)) q) as Hrec.
  { intros q. by apply (runs_recorded h i (TCheck meta w)). }
  unfold readState. destruct (an_read a); [|done].
  destruct (h_files h !! path meta (w_Name w)) as [st|] eqn:Ef.
  - unfold ensureNoLiveState, guard_err. destruct (_ && _) eqn:Ea; [done|]. intros t' [= <-] q Hq. cbn [ProcessRuntime.thread_path] in Hq.
    pose proof (processAlive_runs a _ _ _ (proj2 Ho q) Ht Hq) as Hal. pose proof (tr_pids _ Ht _ _ Hq).
    apply Hrec in Hq as (st' & E & <-). rewrite Ef in E. injection E as <-.
    rewrite Hal, andb_true_r in Ea. apply Z.ltb_ge in Ea. lia.
  - intros t' [= <-] q Hq. apply Hrec in Hq as (st' & E & _). by rewrite Ef in E.
Qed.

Lemma removal_keeps h i t a o h' r :
  tracked h → exclusive h → h_threads h !! i = Some t → busy t = true → (∀ meta w pid now, t ≠ TWrite meta w pid now) →
  (∀ q, ¬ runs h (thread_path t) q) → removeState a (thread_path t) h = (r, h') →
  (∀ t', left_thread o = Some t' → (∀ q, ¬ runs h' (thread_path t) q) → thread_inv h' t') →
  tracked (settle i (thread_path t) o h').
Proof.
  intros Ht Hx Hi Hb Hn Hno (Ep & Et & _ & Ef & _ & _)%removeState_spec Hnew.
  eapply settle_shrink; try done; [by rewrite Ep| |by right|].
  - unfold runs. by rewrite Ep.
  - intros t' E. apply Hnew; [done|]. unfold runs. by rewrite Ep.
Qed.

Lemma start_keeps h i a meta w o h' :
  tracked h → exclusive h → h_threads h !! i = Some (TStart meta w) →
  Deploy_step cfg DefaultDataRoot root has_dns a (TStart meta w) h = Some (o, h') →
  tracked (settle i (path meta (w_Name w)) o h').
Proof.
  intros Ht Hx Hi Hs. pose proof (tr_threads _ Ht _ _ Hi) as Hno. cbn [thread_inv ProcessRuntime.thread_path] in Hno.
  cbn [Deploy_step] in Hs. destruct (an_logs a) as [|e]; [destruct (an_start a) as [pid|e]|].
  2,3: injection Hs as <- <-; by apply (settle_unchanged h i (TStart meta w)).
  destruct (Z.leb_spec pid 0); [done|]. destruct (h_procs h !! pid) eqn:Ep; [done|]. injection Hs as <- <-.
  assert (∀ Q q, runs (with_procs (<[pid:=mkProc (path meta (w_Name w)) Running]> (h_procs h)) h) Q q →
    (q = pid ∧ Q = path meta (w_Name w)) ∨ runs h Q q) as Hr.
  { intros Q q. unfold runs. cbn [h_procs with_procs]. destruct (decide (q = pid)) as [->|Hne].
    - rewrite lookup_insert_eq. intros [= ->]. by left.
    - rewrite lookup_insert_ne by done. by right. }
  apply (settle_busy h i (TStart meta w)); try done.
  - intros q p. cbn [h_procs with_procs]. destruct (decide (q = pid)) as [->|Hne]; [done|].
    rewrite lookup_insert_ne by done. by apply tr_pids.
  - intros Q q HQ Hq. by apply Hr in Hq as [[_ ->]|?].
  - intros q Hq. right. apply Hr in Hq as [[-> _]|Hq]; [|by apply Hno in Hq].
    by eexists _, _, _.
  - intros t' [= <-] q Hq. apply Hr in Hq as [[-> _]|Hq]; [done|]. by apply Hno in Hq.
Qed.

Lemma write_keeps h i a meta w pid now o h' :
  obedient a → tracked h → exclusive h → h_threads h !! i = Some (TWrite meta w pid now) →
  Deploy_step cfg DefaultDataRoot root has_dns a (TWrite meta w pid now) h = Some (o, h') →
  tracked (settle i (path meta (w_Name w)) o h').
Proof.
  intros Ho Ht Hx Hi Hs. pose proof (tr_threads _ Ht _ _ Hi) as Hown. cbn [thread_inv ProcessRuntime.thread_path] in Hown.
  cbn [Deploy_step] in Hs. destruct (logPaths _ _ _ _) as [out err]. unfold writeState in Hs.
  destruct (an_write a) as [[]|e]; [|rewrite (obedient_kill a) in Hs by done]; injection Hs as <- <-.
  - apply (settle_busy h i (TWrite meta w pid now)); try done.
    + by apply (tr_pids_sub h).
    + intros Q HQ. cbn [with_files h_files]. by rewrite lookup_insert_ne.
    + intros q Hq%Hown. left. eexists. cbn [with_files h_files ProcessRuntime.thread_path].
      by rewrite lookup_insert_eq.
    + intros t' [= <-]. exact Hown.
  - apply (settle_busy h i (TWrite meta w pid now)); try done.
    + apply (tr_pids_sub h); [done|]. apply kill_procs.
    + intros Q q HQ. rewrite runs_kill. by intros [? _].
    + intros q. rewrite runs_kill. by intros [?%Hown ?].
Qed.

Lemma dns_keeps h i a meta w pid o h' :
  obedient a → tracked h → exclusive h → h_threads h !! i = Some (TDNS meta w pid) →
  Deploy_step cfg DefaultDataRoot root has_dns a (TDNS meta w pid) h = Some (o, h') →
  tracked (settle i (path meta (w_Name w)) o h').
Proof.
  intros Ho Ht Hx Hi Hs. pose proof (tr_threads _ Ht _ _ Hi) as Hown. cbn [thread_inv ProcessRuntime.thread_path] in Hown.
  cbn [Deploy_step] in Hs. destruct (upsertDNS _ _ _ _ _ _) as [r h1] eqn:Eu.
  rewrite (obedient_kill a) in Hs by done. apply upsertDNS_spec in Eu as (Ep & Ef & Et). destruct r as [[]|e]; injection Hs as <- <-.
  - apply (settle_shrink h i (TDNS meta w pid)); try done; [by rewrite Ep|unfold runs; by rewrite Ep|by rewrite Ef|by left; rewrite Ef|].
    by intros t' [= <-].
  - assert (∀ Q q, runs h1 Q q ↔ runs h Q q) as Er by (unfold runs; by rewrite Ep).
    apply (settle_shrink h i (TDNS meta w pid)); try done.
    + intros q Hq%kill_procs. by rewrite <-Ep.
    + intros Q q. rewrite runs_kill, Er. by intros [? _].
    + intros Q _. cbn [killed with_procs h_files]. by rewrite Ef.
    + left. cbn [killed with_procs h_files]. by rewrite Ef.
    + intros t' [= <-] q. rewrite runs_kill, Er. by intros [?%Hown ?].
Qed.

Lemma deploy_keeps h i a t o h' :
  obedient a → tracked h → exclusive h → h_threads h !! i = Some t →
  Deploy_step cfg DefaultDataRoot root has_dns a t h = Some (o, h') → tracked (settle i (thread_path t) o h').
Proof.
  intros Ho Ht Hx Hi Hs. pose proof (tr_threads _ Ht _ _ Hi) as Hown.
  destruct t as [meta w|meta w|meta w|meta w pid now|meta w pid|meta w e| | | | | | | | | |]; try done;
    cbn [ProcessRuntime.thread_path] in *.
  - by eapply check_keeps.
  - cbn [Deploy_step] in Hs. destruct (removeState _ _ _) as [r h1] eqn:Er. injection Hs as <- <-.
    eapply (removal_keeps h i (TClear meta w)); try done. by destruct r; intros ? [= <-].
  - by eapply start_keeps.
  - by eapply write_keeps.
  - by eapply dns_keeps.
  - cbn [Deploy_step] in Hs. destruct (removeState _ _ _) as [r h1] eqn:Er. injection Hs as <- <-.
    by eapply (removal_keeps h i (TUndo meta w e)).
Qed.
Lemma cleared_kill h pid p : (∀ q, runs h p q → q = pid) → ∀ q, ¬ runs (killed pid h) p q.
Proof. intros Hq q. rewrite runs_kill. by intros [?%Hq ?]. Qed.

Lemma kill_shrinks h i t pid o :
  tracked h → exclusive h → h_threads h !! i = Some t → busy t = true → (∀ meta w pid now, t ≠ TWrite meta w pid now) →
  (∀ t', left_thread o = Some t' → thread_inv (killed pid h) t') →
  tracked (settle i (thread_path t) o (killed pid h)).
Proof.
  intros Ht Hx Hi Hb Hn Hnew. eapply settle_shrink; try done; [apply kill_procs| |by left].
  intros Q q. rewrite runs_kill. by intros [? _].
Qed.

Lemma dns_shrinks h h' i t a meta name r o :
  tracked h → exclusive h → h_threads h !! i = Some t → busy t = true → (∀ meta w pid now, t ≠ TWrite meta w pid now) →
  removeWorkloadDNS cfg has_dns a meta name h = (r, h') →
  (∀ t', left_thread o = Some t' → thread_inv h t') → tracked (settle i (thread_path t) o h').
Proof.
  intros Ht Hx Hi Hb Hn (Ep & Ef & Et)%removeDNS_spec Hnew.
  eapply settle_shrink; try done; [by rewrite Ep|unfold runs; by rewrite Ep|by rewrite Ef|by left; rewrite Ef|].
  intros t' E. eapply thread_inv_mono; [| |by apply Hnew]; [unfold runs; by rewrite Ep|by rewrite Ef].
Qed.

Lemma stop_keeps h i a t o h' :
  obedient a → tracked h → exclusive h → h_threads h !! i = Some t →
  Stop_step cfg DefaultDataRoot root has_dns a t h = Some (o, h') → tracked (settle i (thread_path t) o h').
Proof.
  intros Ho Ht Hx Hi Hs. pose proof (tr_threads _ Ht _ _ Hi) as Hown.
  destruct t as [| | | | | |meta name|meta name|meta name st|meta name st|meta name|meta name| | | |]; try done;
    cbn [Stop_step thread_inv ProcessRuntime.thread_path] in *.
  - injection Hs as <- <-. apply (settle_unchanged h i (TStopRead meta name)); try done.
    assert (∀ q, runs h (path meta name) q → recorded h (path meta name) q) as Hrec.
    { intros q. by apply (runs_recorded h i (TStopRead meta name)). }
    unfold readState. destruct (an_read a); [|done].
    destruct (h_files h !! path meta name) as [st|] eqn:Ef; intros t' [= <-] q Hq;
      apply Hrec in Hq as (st' & E & Hp); rewrite Ef in E; [|done]. by injection E as <-.
  - injection Hs as <- <-. unfold cleanupRemoveDNS. destruct (removeWorkloadDNS _ _ _ _ _ _) as [r h1] eqn:E.
    by eapply (dns_shrinks h _ i (TStopMissing meta name)).
  - rewrite (obedient_kill a) in Hs by done. destruct (processAlive a h (st_PID st)) eqn:Ea; injection Hs as <- <-.
    + apply (settle_unchanged h i (TStopSignal meta name st)); try done. by intros t' [= <-].
    + apply (kill_shrinks h i (TStopSignal meta name st)); try done. intros t' [= <-]. exact (cleared_kill _ _ _ Hown).
  - rewrite (obedient_kill a) in Hs by done. unfold waitExit in Hs. destruct (processAlive a h (st_PID st)) eqn:Ea; cbn [negb] in Hs; [destruct (an_timeout a); [|done]|];
      injection Hs as <- <-.
    + apply (kill_shrinks h i (TStopWait meta name st)); try done. intros t' [= <-]. exact (cleared_kill _ _ _ Hown).
    + apply (settle_unchanged h i (TStopWait meta name st)); try done. intros t' [= <-] q Hq.
      pose proof (processAlive_runs a _ _ _ (proj2 Ho q) Ht Hq) as Hal. apply Hown in Hq as ->. by rewrite Ea in Hal.
  - destruct (removeWorkloadDNS _ _ _ _ _ _) as [r h1] eqn:E. injection Hs as <- <-.
    eapply (dns_shrinks h _ i (TStopDNS meta name)); try done. destruct r; [by intros t' [= <-]|done].
  - destruct (removeState _ _ _) as [r h1] eqn:Er. injection Hs as <- <-.
    by eapply (removal_keeps h i (TStopFile meta name)).
Qed.

(** A thread that is not busy starts nothing and changes no file. *)
Lemma settle_quiet h i t o h' :
  tracked h → h_threads h !! i = Some t → busy t = false → h_threads h' = h_threads h → h_files h' = h_files h →
  (∀ q, is_Some (h_procs h' !! q) → is_Some (h_procs h !! q)) → (∀ Q q, runs h' Q q → runs h Q q) →
  (∀ t', left_thread o = Some t' → thread_inv h' t') → tracked (settle i (thread_path t) o h').
Proof.
  intros Ht Hi Hb Hth Hf Hp Hr Hnew. destruct (settle_same i (thread_path t) o h') as [Ep Ef].
  apply (tracked_quiet h _ i (left_thread o)); try done.
  - rewrite Ep. by apply (tr_pids_sub h).
  - unfold runs in *. by rewrite Ep.
  - by rewrite Ef.
  - by rewrite settle_threads, Hth.
  - intros meta w pid now E. rewrite Hi in E. by injection E as ->.
  - intros t' E. by apply thread_inv_settle, Hnew.
Qed.

Lemma wait_keeps h i a t o h' :
  tracked h → exclusive h → h_threads h !! i = Some t →
  waitProcess_step cfg DefaultDataRoot root has_dns a t h = Some (o, h') → tracked (settle i (thread_path t) o h').
Proof.
  intros Ht Hx Hi Hs. pose proof (tr_threads _ Ht _ _ Hi) as Hown.
  destruct t as [| | | | | | | | | | | |meta name pid|meta name pid|meta name pid|meta name]; try done;
    cbn [waitProcess_step thread_inv ProcessRuntime.thread_path] in *.
  - destruct (h_procs h !! pid) as [[ow []]|] eqn:Ep; try done. injection Hs as <- <-.
    apply (settle_quiet h i (TWait meta name pid)); try done.
    + intros q [p Hq]. cbn [with_procs h_procs] in Hq. apply lookup_delete_Some in Hq as [_ ?]. by eexists.
    + intros Q q. unfold runs. cbn [with_procs h_procs]. by intros [_ ?]%lookup_delete_Some.
    + by intros t' [= <-].
  - injection Hs as <- <-. apply (settle_quiet h i (TWaitRead meta name pid)); try done.
    unfold removeStateIfPID, readState. destruct (an_read a); [|by intros t' [= <-]].
    destruct (h_files h !! path meta name) as [st|] eqn:Ef; [|by intros t' [= <-]].
    destruct (Z.eqb_spec (st_PID st) pid) as [<-|_]; intros t' [= <-]; [|done].
    cbn [thread_inv ProcessRuntime.thread_path]. rewrite Ef. by intros ? [= <-].
  - destruct (removeState _ _ _) as [r h1] eqn:Er. injection Hs as <- <-.
    eapply (removal_keeps h i (TWaitRemove meta name pid)); try done; [|by intros t' [= <-]].
    intros q Hq. pose proof Hq as Hq'. apply (runs_recorded h i (TWaitRemove meta name pid)) in Hq as (st & Ef & <-); try done.
    apply Hown in Ef. subst pid. eapply (proj2 Hx); [by right|exact Hq'].
  - injection Hs as <- <-. unfold cleanupRemoveDNS. destruct (removeWorkloadDNS _ _ _ _ _ _) as [r h1] eqn:E.
    apply removeDNS_spec in E as (Ep & Ef & Et).
    apply (settle_quiet h i (TWaitDNS meta name)); try done; [by cbn; rewrite Ep|by unfold runs; cbn; rewrite Ep].
Qed.

(** The agent's signals and kills arrive during the step. *)
Definition obeyed (l : label) : Prop := match l with LThread _ a => obedient a | _ => True end.

(** Every step keeps the invariant, from a host without overlapping threads. *)
Lemma step_keeps l h h' : obeyed l → tracked h → exclusive h → step l h = Some h' → tracked h'.
Proof.
  intros Ho Ht Hx Hs. destruct l as [tid meta w|tid meta name|tid a|pid]; cbn [host_step] in Hs.
  - destruct (h_threads h !! tid) eqn:Ei; [done|]. injection Hs as <-.
    destruct (settle_same tid (path meta (w_Name w)) (Deploy_call meta w) h) as [Ep Ef].
    apply (tracked_quiet h _ tid (left_thread (Deploy_call meta w))); try done.
    + rewrite Ep. apply (tr_pids h Ht).
    + unfold runs. by rewrite Ep.
    + by rewrite settle_threads.
    + by rewrite Ei.
    + unfold Deploy_call. destruct (ProcessCommand _); [destruct (wrap _ _ _)|]; try done. by intros t' [= <-].
  - destruct (h_threads h !! tid) eqn:Ei; [done|]. injection Hs as <-.
    apply (tracked_quiet h _ tid (Some (TStopRead meta name))); try done; [apply (tr_pids h Ht)|by rewrite Ei|].
    by intros t' [= <-].
  - destruct (h_threads h !! tid) as [t|] eqn:Ei; [|done]. cbn [mbind option_bind] in Hs.
    destruct (thread_step a t h) as [[o h1]|] eqn:Es; [|done]. injection Hs as <-. cbn [fst snd].
    unfold thread_step in Es. destruct t; first [by eapply deploy_keeps | by eapply stop_keeps | by eapply wait_keeps].
  - destruct (h_procs h !! pid) as [p|] eqn:Ep; [|done]. cbn [mbind option_bind] in Hs.
    assert (h' = with_procs (<[pid := mkProc (pr_owner p) Zombie]> (h_procs h)) h) as -> by (destruct (pr_run p); congruence).
    apply (tracked_quiet h _ (fresh (dom (h_threads h))) None); try done.
    + apply (tr_pids_sub h); [done|]. intros q. cbn [h_procs with_procs].
      destruct (decide (q = pid)) as [->|]; [by rewrite Ep|by rewrite lookup_insert_ne].
    + intros Q q. unfold runs. cbn [h_procs with_procs].
      destruct (decide (q = pid)) as [->|]; [by rewrite lookup_insert_eq|by rewrite lookup_insert_ne].
    + cbn [with_procs h_threads]. symmetry. change (delete (fresh (dom (h_threads h))) (h_threads h) = h_threads h).
      apply delete_id, not_elem_of_dom, is_fresh.
    + intros meta w q now E. eapply (is_fresh (dom (h_threads h))), elem_of_dom_2, E.
Qed.

(** Runs in which no two threads overlap on one workload and signals arrive. *)
Definition exclusive_step (h h' : Host) : Prop := (∃ l, obeyed l ∧ step l h = Some h') ∧ exclusive h'.

(** A host between two lives of the agent: no threads, and every running process is in the
    state file of its workload. *)
Definition settled (h : Host) : Prop :=
  h_threads h = ∅ ∧ (∀ pid p, h_procs h !! pid = Some p → (0 < pid)%Z) ∧ ∀ p pid, runs h p pid → recorded h p pid.

Lemma settled_tracked h : settled h → tracked h ∧ exclusive h.
Proof.
  intros (Et & Hp & Hr). split; split.
  - done.
  - intros p pid Hq. left. by apply Hr.
  - intros i t. by rewrite Et, lookup_empty.
  - intros i j t u. by rewrite Et, lookup_empty.
  - intros i meta name pid. rewrite Et, lookup_empty. by intros [?|?].
Qed.

Theorem reachable_tracked h0 h : settled h0 → rtc exclusive_step h0 h → tracked h ∧ exclusive h.
Proof.
  intros Hs%settled_tracked Hr. revert Hs. induction Hr as [|h1 h2 h3 [(l & Ho & Hl) Hx] _ IH]; [done|].
  intros [Ht Hx1]. apply IH. split; [by eapply step_keeps|done].
Qed.

(** No call is in progress on the workload at [p]. *)
Definition idle (h : Host) (p : string) : Prop :=
  ∀ i t, h_threads h !! i = Some t → busy t = true → thread_path t ≠ p.

Lemma idle_recorded h p pid : tracked h → idle h p → runs h p pid → recorded h p pid.
Proof.
  intros Ht Hi Hr. destruct (tr_procs h Ht _ _ Hr) as [?|(i & meta & w & now & E & Hp)]; [done|].
  exfalso. by eapply (Hi i).
Qed.

(** Between calls a workload runs at most once. *)
Theorem runs_once h p pid pid' : tracked h → idle h p → runs h p pid → runs h p pid' → pid = pid'.
Proof.
  intros Ht Hi (st & Ef & <-)%idle_recorded (st' & Ef' & <-)%idle_recorded; [|done..].
  rewrite Ef in Ef'. by injection Ef' as <-.
Qed.

(** And its status says so. *)
Theorem status_running h meta name pid a :
  tracked h → idle h (path meta name) → runs h (path meta name) pid → an_read a = Ok tt →
  an_denied a pid = false →
  ∃ started, process_Status DefaultDataRoot root a h meta name =
    Ok (mkStatus (TrimSpace name) RuntimeProcess "running" (Itoa pid) started (an_now a) "").
Proof.
  intros Ht Hi Hr Ha Hd. pose proof (processAlive_runs a _ _ _ Hd Ht Hr) as Hal. pose proof (tr_pids _ Ht _ _ Hr) as Hpos.
  destruct (idle_recorded _ _ _ Ht Hi Hr) as (st & Ef & <-). exists (st_StartedAt st).
  unfold process_Status, readState. rewrite Ha, Ef, Hal. by rewrite (proj2 (Z.ltb_lt 0 _)).
Qed.

(** A stop that succeeds leaves neither a process nor a state file. *)
Theorem stop_leaves_nothing h i meta name a h' :
  tracked h → exclusive h → h_threads h !! i = Some (TStopFile meta name) →
  step (LThread i a) h = Some h' → h_results h' = h_results h ++ [(path meta name, Ok tt)] →
  (∀ q, ¬ runs h' (path meta name) q) ∧ h_files h' !! path meta name = None.
Proof.
  intros Ht Hx Hi Hs Hres. pose proof (tr_threads _ Ht _ _ Hi) as Hno.
  cbn [host_step] in Hs. rewrite Hi in Hs. cbn in Hs.
  destruct (removeState _ _ _) as [r h1] eqn:Er. injection Hs as <-. cbn in Hres.
  pose proof Er as (Ep & _ & _ & _ & _ & Hf)%removeState_spec.
  assert (h_results h1 = h_results h) as Eh.
  { unfold removeState in Er. destruct (h_files h !! _); [destruct (an_remove a)|]; by injection Er as _ <-. }
  rewrite Eh in Hres. apply app_inj_tail in Hres as [_ [= ->]].
  split; [|by apply Hf]. intros q Hq. apply (Hno q). unfold runs in *. cbn [h_procs settle] in Hq. by rewrite Ep in Hq.
Qed.
End tracking.
