(* ===== verification/GoFloat.v ===== *)
(** * strconv.ParseFloat

    The syntax follows [readFloat] and [special] of package strconv: an optional sign, decimal
    or hexadecimal digits with at most one point and underscores between digits, an exponent,
    or one of the words inf, infinity and nan.  The value is the exact number rounded to the
    nearest double; an overflow is the range error. *)
From stdpp Require Import base strings numbers list.
From Stdlib Require Import Ascii SpecFloat.
From S2P Require Import Prelude GoStrings GoTime.

Definition ascii_is (c d : ascii) : bool := Ascii.eqb c d.
Definition fold_byte (c : ascii) : ascii :=
  let n := byte_val c in if ((65 <=? n) && (n <=? 90))%N then ascii_of_N (n + 32) else c.

Definition hex_digit_val (c : ascii) : option Z :=
  let d := fold_byte c in
  if is_digit c then Some (digit_val c)
  else let n := byte_val d in if ((97 <=? n) && (n <=? 102))%N then Some (Z.of_N n - 87)%Z else None.

(** The digits of the mantissa: the number they spell, how many of them follow the point, and
    the rest of the text; [sawdot] and [sawdigits] as in the loop. *)
Record mantissa := mkMantissa { mt_value : Z; mt_scale : Z; mt_digits : bool; mt_dot : bool; mt_under : bool }.

Fixpoint read_mantissa (hex : bool) (m : mantissa) (l : list ascii) : mantissa * list ascii :=
  match l with
  | [] => (m, [])
  | c :: r =>
      if Ascii.eqb c "_" then read_mantissa hex (mkMantissa (mt_value m) (mt_scale m) (mt_digits m) (mt_dot m) true) r
      else if Ascii.eqb c "." then
        if mt_dot m then (m, l)
        else read_mantissa hex (mkMantissa (mt_value m) (mt_scale m) (mt_digits m) true (mt_under m)) r
      else
        match (if hex then hex_digit_val c else if is_digit c then Some (digit_val c) else None) with
        | Some d =>
            read_mantissa hex (mkMantissa (mt_value m * (if hex then 16 else 10) + d)
              (if mt_dot m then mt_scale m + 1 else mt_scale m) true (mt_dot m) (mt_under m)) r
        | None => (m, l)
        end
  end.

(** The digits of the exponent, which stops growing at 10000. *)
Fixpoint read_exponent (e : Z) (under : bool) (l : list ascii) : Z * bool * list ascii :=
  match l with
  | [] => (e, under, [])
  | c :: r =>
      if Ascii.eqb c "_" then read_exponent e true r
      else if is_digit c then read_exponent (if (e <? 10000)%Z then e * 10 + digit_val c else e)%Z under r
      else (e, under, l)
  end.

(** [underscoreOK]: [prev] is what came before: the start, a digit (or base prefix), an
    underscore, or anything else. *)
Inductive before := AtStart | AfterDigit | AfterUnderscore | AfterOther.
Fixpoint underscores_ok (hex : bool) (prev : before) (l : list ascii) : bool :=
  match l with
  | [] => match prev with AfterUnderscore => false | _ => true end
  | c :: r =>
      if is_digit c || (hex && (if hex_digit_val c is Some _ then true else false))
      then underscores_ok hex AfterDigit r
      else if Ascii.eqb c "_" then
        match prev with AfterDigit => underscores_ok hex AfterUnderscore r | _ => false end
      else match prev with AfterUnderscore => false | _ => underscores_ok hex AfterOther r end
  end.

Definition strip_sign (l : list ascii) : bool * list ascii :=
  match l with
  | c :: r => if Ascii.eqb c "-" then (true, r) else if Ascii.eqb c "+" then (false, r) else (false, l)
  | [] => (false, [])
  end.

(** [mantissa * base ^ exponent] to the nearest double; the mantissa is not negative. *)
Definition round_decimal (neg : bool) (m e : Z) : float64 :=
  match m with
  | Zpos p =>
      if (0 <=? e)%Z then binary_normalize 53 1024 (if neg then - (m * 10 ^ e) else m * 10 ^ e)%Z 0 neg
      else SFdiv 53 1024 (S754_finite neg p 0) (S754_finite false (Z.to_pos (10 ^ (- e))) 0)
  | _ => S754_zero neg
  end.
Definition round_binary (neg : bool) (m e : Z) : float64 :=
  match m with
  | Zpos p => binary_normalize 53 1024 (if neg then Zneg p else Zpos p) e neg
  | _ => S754_zero neg
  end.

Definition is_inf (f : float64) : bool := match f with S754_infinity _ => true | _ => false end.

(** Numbers; [None] is a syntax error, [Some None] the range error. *)
Definition read_float (l : list ascii) : option (option float64) :=
  let '(neg, l) := strip_sign l in
  let '(hex, body) :=
    match l with
    | z :: x :: r => if Ascii.eqb z "0" && Ascii.eqb (fold_byte x) "x" then (true, r) else (false, l)
    | _ => (false, l)
    end in
  let '(m, rest) := read_mantissa hex (mkMantissa 0 0 false false false) body in
  if negb (mt_digits m) then None else
  let exponent :=
    match rest with
    | [] => if hex then None else Some (0%Z, mt_under m)
    | c :: r =>
        if Ascii.eqb (fold_byte c) (if hex then "p" else "e") then
          let '(eneg, r) := strip_sign r in
          match r with
          | d :: _ =>
              if is_digit d then
                let '(e, under, rest) := read_exponent 0 (mt_under m) r in
                match rest with [] => Some ((if eneg then - e else e)%Z, under) | _ => None end
              else None
          | [] => None
          end
        else None
    end in
  match exponent with
  | None => None
  | Some (e, under) =>
      if under && negb (underscores_ok hex (if hex then AfterDigit else AtStart) body) then None else
      let f := if hex then round_binary neg (mt_value m) (e - 4 * mt_scale m)
               else round_decimal neg (mt_value m) (e - mt_scale m) in
      Some (if is_inf f then None else Some f)
  end.

Definition special (l : list ascii) : option float64 :=
  let word := of_bytes (fold_byte <$> l) in
  let '(neg, unsigned) := strip_sign (fold_byte <$> l) in
  if (of_bytes unsigned =? "inf")%string || (of_bytes unsigned =? "infinity")%string then Some (S754_infinity neg)
  else if (word =? "nan")%string then Some S754_nan
  else None.

Definition ParseFloat (s : string) : res float64 :=
  match special (bytes_of s) with
  | Some f => Ok f
  | None =>
      match read_float (bytes_of s) with
      | None => Err (Errorf "strconv.ParseFloat: parsing %q: invalid syntax" [AStr s])
      | Some None => Err (Errorf "strconv.ParseFloat: parsing %q: value out of range" [AStr s])
      | Some (Some f) => Ok f
      end
  end.

(** Values of package strconv's tests. *)
Example parse_float_examples :
  ParseFloat "1" = Ok (f64_of_Z 1) ∧ ParseFloat "-.5e1" = Ok (f64_of_Z (-5)) ∧
  ParseFloat "0x1p-2" = Ok (f64_div (f64_of_Z 1) (f64_of_Z 4)) ∧ ParseFloat "1_23.50_0_0e+1_2" = Ok (f64_of_Z 123500000000000) ∧
  ParseFloat "100000000000000016777215" = Ok (f64_of_Z 100000000000000008388608) ∧
  ParseFloat "0.1" = Ok (f64_div (f64_of_Z 1) (f64_of_Z 10)) ∧ ParseFloat "-Infinity" = Ok (S754_infinity true) ∧
  is_ok (ParseFloat "1e309") = false ∧ is_ok (ParseFloat "1x") = false ∧ is_ok (ParseFloat "1.e") = false ∧
  is_ok (ParseFloat "_1") = false ∧ is_ok (ParseFloat ".") = false ∧ is_ok (ParseFloat "0x1") = false.
Proof. vm_compute. repeat split. Qed.
