(* ===== verification/OrchDsl.v ===== *)
(** * The .orch language (internal/deploy/orch: lower*.go, service.go)

    The third-party compiler turns a source text into a tree of forms (HIR); this package
    lowers the tree into a deploy document.  The tree is data of the compiler's; the mapper that
    fills option structs from the fields of a form is a parameter, as is the parser of memory
    sizes. *)
From stdpp Require Import base strings numbers gmap list.
From Stdlib Require Import Ascii SpecFloat.
From S2P Require Import Prelude GoStrings GoTime GoFloat GoNet GoList Deploy Meta GoText Placement Fsm TaskBase TaskRun.

(** ** The tree *)

(** What a field or an argument holds ([any]). *)
Inductive value :=
| VString (s : string) | VBool (b : bool) | VInt (z : Z) | VInt64 (z : Z) | VInt32 (z : Z) | VFloat (f : float64)
| VRef (kind name : string)            (* schema.Ref *)
| VList (l : list value)               (* []any *)
| VOrderedMap (l : list (string * value)) | VMap (l : list (string * value))   (* map[string]any *)
| VStringMap (m : gmap string string)
| VNil | VOther.

Inductive LabelKind := LabelNone | LabelSymbol | LabelString.
Record HIRCall := mkCall { call_Name : string; call_Args : list value }.

(** [Fields] keeps the order of the source. *)
Inductive HIRForm :=
| mkForm (Kind : string) (Label : option (LabelKind * string)) (Fields : list (string * value))
    (Forms : list HIRForm) (Calls : list HIRCall).

Definition f_Kind (f : HIRForm) : string := let 'mkForm k _ _ _ _ := f in k.
Definition f_Label (f : HIRForm) : option (LabelKind * string) := let 'mkForm _ l _ _ _ := f in l.
Definition f_Fields (f : HIRForm) : list (string * value) := let 'mkForm _ _ fs _ _ := f in fs.
Definition f_Forms (f : HIRForm) : list HIRForm := let 'mkForm _ _ _ fs _ := f in fs.
Definition f_Calls (f : HIRForm) : list HIRCall := let 'mkForm _ _ _ _ cs := f in cs.

Fixpoint get_field (name : string) (l : list (string * value)) : option value :=
  match l with
  | [] => None
  | (k, v) :: r => if (k =? name)%string then Some v else get_field name r
  end.

(** ** lower_fields.go *)

(** [fmt.Sprint] of a value that is not a string, and the conversion of a float outside the
    range of int64, which Go leaves to the platform. *)
Class DslLib := {
  Sprint : value → string;
  convert_outside : float64 → Z;
  ParseSize : string → res Z;  (** schema.ParseSize: bytes *)
}.

(** The struct mapper, on the fields of a form. *)
Class HIRMapper := {
  map_docker : list (string * value) → DockerOptions;
  map_containerd : list (string * value) → ContainerdOptions;
  map_firecracker : list (string * value) → FirecrackerOptions;
  map_process : list (string * value) → ProcessOptions;
  map_systemd : list (string * value) → SystemdOptions;
  map_windows : list (string * value) → WindowsServiceOptions;
  map_resources : list (string * value) → Resources;
  map_scheduling : list (string * value) → Scheduling;
}.

Definition rawField (f : HIRForm) (name : string) : option value := get_field name (f_Fields f).

Definition stringField (f : HIRForm) (name : string) : option string :=
  match rawField f name with Some (VString s) => Some s | _ => None end.

Definition boolField (f : HIRForm) (name : string) : option bool :=
  match rawField f name with Some (VBool b) => Some b | _ => None end.

(** [if s == "" { s = d }] *)
Definition or_empty (s d : string) : string := if (s =? "")%string then d else s.

Section lower.
Context `{UnicodeLower, ListSort, DslLib, HIRMapper}.

Definition int64_of_float (f : float64) : Z :=
  match f with
  | S754_infinity _ | S754_nan => convert_outside f
  | _ => let z := f64_trunc f in if (min_int64 <=? z)%Z && (z <=? max_int64)%Z then z else convert_outside f
  end.

(** [int] and [int64] have the same width. *)
Definition intFromAny (v : value) : option Z :=
  match v with
  | VInt z | VInt64 z | VInt32 z => Some z
  | VFloat f => Some (int64_of_float f)
  | _ => None
  end.

Definition intField (f : HIRForm) (name : string) : option Z := v ← rawField f name; intFromAny v.
Definition int64Field (f : HIRForm) (name : string) : option Z := v ← rawField f name; intFromAny v.

(** A string with text in it, trimmed. *)
Definition non_blank (s : option string) : option string :=
  s ← s; if (TrimSpace s =? "")%string then None else Some (TrimSpace s).

Definition workloadRefField (f : HIRForm) (name : string) : option string :=
  match rawField f name with
  | Some (VRef kind n) => if (kind =? "workload")%string then non_blank (Some n) else None
  | Some (VString s) => non_blank (Some s)
  | _ => None
  end.

Definition stringFromMapValue (v : value) : string := match v with VString s => s | _ => Sprint v end.

Definition entriesToStringMap (l : list (string * value)) : gmap string string :=
  foldl (λ m kv, <[kv.1 := stringFromMapValue kv.2]> m) ∅ l.

Definition mapStringString (v : value) : option (gmap string string) :=
  match v with
  | VStringMap m => Some m
  | VOrderedMap l | VMap l => Some (entriesToStringMap l)
  | _ => None
  end.

Definition stringMapField (f : HIRForm) (name : string) : option (gmap string string) :=
  v ← rawField f name; mapStringString v.

Definition envVarsFromMap (m : gmap string string) : list EnvVar :=
  (λ k, mkEnvVar k (default "" (m !! k))) <$> list_sort Compare (map_to_list m).*1.

Definition stringList (v : value) : list string :=
  match v with VList l => omap (λ it, match it with VString s => Some s | _ => None end) l | _ => [] end.

Definition callIntArg (c : HIRCall) (idx : nat) : option Z := v ← call_Args c !! idx; intFromAny v.
Definition callStringArg (c : HIRCall) (idx : nat) : option string :=
  match call_Args c !! idx with Some (VString s) => Some s | _ => None end.

Definition workloadRefList (v : value) : list WorkloadRef :=
  match v with
  | VList l => omap (λ it, match it with
                           | VRef kind name => if (kind =? "workload")%string then Some (mkWorkloadRef name "") else None
                           | _ => None
                           end) l
  | _ => []
  end.

(** ** lower.go: forms and labels *)
Definition childFormsByKind (f : HIRForm) (kind : string) : list HIRForm := filter (λ g, f_Kind g = kind) (f_Forms f).
Definition childFormsByKinds (f : HIRForm) (kinds : list string) : list HIRForm :=
  filter (λ g, f_Kind g ∈ kinds) (f_Forms f).

Definition symbolLabelName (f : HIRForm) : res string :=
  let missing := Err (Errorf "form %q requires a symbol label (name)" [AStr (f_Kind f)]) in
  match f_Label f with
  | Some (LabelSymbol, s) => if negb (TrimSpace s =? "")%string then Ok (TrimSpace s) else missing
  | _ => missing
  end.

Definition stringLabelName (f : HIRForm) : res string :=
  let missing := Err (Errorf "form %q requires a string label" [AStr (f_Kind f)]) in
  match f_Label f with
  | Some (LabelString, s) => if negb (TrimSpace s =? "")%string then Ok (TrimSpace s) else missing
  | _ => missing
  end.

(** [for i := range forms { x, err := lower(&forms[i]); ...; out = append(out, x) }] *)
Definition lower_each {A} (lower : HIRForm → res A) (forms : list HIRForm) : res (list A) :=
  range_fold (λ _ (acc : list A) f, x ← lower f; Ok (acc ++ [x])) [] forms.

(** ** lower_options.go *)
Definition nonEmptyDockerOptions (d : DockerOptions) : option DockerOptions :=
  if (docker_NetworkMode d =? "")%string && negb (docker_Privileged d) && (size (docker_Labels d) =? 0)%nat
  then None else Some d.

Definition lowerDockerOptions (f : HIRForm) : option DockerOptions :=
  let d := map_docker (f_Fields f) in
  let mode := if (docker_NetworkMode d =? "")%string then default "" (stringField f "network") else docker_NetworkMode d in
  nonEmptyDockerOptions (mkDocker mode (docker_Privileged d) (docker_Labels d)).

Definition lowerContainerdOptions (f : HIRForm) : option ContainerdOptions :=
  let c := map_containerd (f_Fields f) in if (containerd_Namespace c =? "")%string then None else Some c.

Definition stringFieldsEmpty (l : list string) : bool := forallb (λ s, s =? "")%string l.

Definition firecrackerOptionsEmpty (c : FirecrackerOptions) : bool :=
  if negb (stringFieldsEmpty [fc_KernelImagePath c; fc_RootfsPath c; fc_BootArgs c; fc_BinaryPath c; fc_SocketPath c;
                              fc_NetworkInterfaceID c; fc_TapDeviceName c; fc_GuestMAC c]) then false
  else if fc_RootfsReadOnly c || fc_AllowMMDSRequests c then false
  else (fc_VCPUCount c =? 0)%Z && (fc_MemSizeMiB c =? 0)%Z.

Definition lowerFirecrackerOptions (f : HIRForm) : option FirecrackerOptions :=
  let c := map_firecracker (f_Fields f) in if firecrackerOptionsEmpty c then None else Some c.

Definition lowerProcessOptions (f : HIRForm) : option ProcessOptions :=
  let p := map_process (f_Fields f) in
  if (proc_GracefulStopTimeout p =? "")%string && (proc_StdoutPath p =? "")%string && (proc_StderrPath p =? "")%string
  then None else Some p.

Definition lowerSystemdOptions (f : HIRForm) : option SystemdOptions :=
  let s := map_systemd (f_Fields f) in
  if stringFieldsEmpty [sd_UnitName s; sd_User s; sd_Group s; sd_Restart s; sd_RestartSec s; sd_WantedBy s]
  then None else Some s.

Definition lowerWindowsServiceOptions (f : HIRForm) : option WindowsServiceOptions :=
  let w := map_windows (f_Fields f) in
  if stringFieldsEmpty [win_ServiceName w; win_DisplayName w; win_StartType w] then None else Some w.

Definition applyDockerOverride (out : DockerOptions) (override : option DockerOptions) : DockerOptions :=
  match override with
  | None => out
  | Some o =>
      mkDocker (if negb (docker_NetworkMode o =? "")%string then docker_NetworkMode o else docker_NetworkMode out)
        (docker_Privileged o || docker_Privileged out) (docker_Labels o ∪ docker_Labels out)
  end.

Definition cloneDockerOptions (base : option DockerOptions) : DockerOptions := default (mkDocker "" false ∅) base.

Definition mergeDockerOptions (base override : option DockerOptions) : option DockerOptions :=
  match base, override with
  | None, None => None
  | _, _ => nonEmptyDockerOptions (applyDockerOverride (cloneDockerOptions base) override)
  end.

Definition mergeDockerOptionsForRuntime (runtime : string) (base override : option DockerOptions) : option DockerOptions :=
  if negb (runtime =? RuntimeDocker)%string && negb (runtime =? RuntimePodman)%string then override
  else mergeDockerOptions base override.

(** ** lower_run.go *)
Definition fillArtifactFromFields (a : ArtifactSpec) (f : HIRForm) : ArtifactSpec :=
  mkArtifact (default (art_Image a) (non_blank (stringField f "image")))
    (default (art_Path a) (non_blank (stringField f "path"))) (default (art_URL a) (non_blank (stringField f "url"))).

Definition fillExecFromFields (e : ExecSpec) (f : HIRForm) : ExecSpec :=
  mkExec (match rawField f "command" with Some v => stringList v | None => exec_Command e end)
    (match rawField f "args" with Some v => stringList v | None => exec_Args e end).

Definition set_artifact (a : ArtifactSpec) (r : RunSpec) : RunSpec :=
  mkRun a (run_Exec r) (run_Env r) (run_Cwd r) (run_User r) (run_Options r).
Definition set_exec (e : ExecSpec) (r : RunSpec) : RunSpec :=
  mkRun (run_Artifact r) e (run_Env r) (run_Cwd r) (run_User r) (run_Options r).
Definition set_env (env : list EnvVar) (r : RunSpec) : RunSpec :=
  mkRun (run_Artifact r) (run_Exec r) env (run_Cwd r) (run_User r) (run_Options r).
Definition set_options (o : RunOptions) (r : RunSpec) : RunSpec :=
  mkRun (run_Artifact r) (run_Exec r) (run_Env r) (run_Cwd r) (run_User r) o.

Definition fillProcessIdentityFromFields (r : RunSpec) (f : HIRForm) : RunSpec :=
  mkRun (run_Artifact r) (run_Exec r) (run_Env r) (default (run_Cwd r) (stringField f "cwd"))
    (match stringField f "user" with Some u => TrimSpace u | None => run_User r end) (run_Options r).

Definition fillRun (r : RunSpec) (f : HIRForm) : RunSpec :=
  let r := set_artifact (fillArtifactFromFields (run_Artifact r) f) r in
  let r := set_exec (fillExecFromFields (run_Exec r) f) r in
  fillProcessIdentityFromFields r f.

Definition validateArtifactOverride (before after : ArtifactSpec) : res unit :=
  guard_err (negb (art_Image before =? "")%string && negb (art_Image after =? art_Image before)%string)
    (Errorf "image is set both in run block and workload field" []) ;;
  guard_err (negb (art_Path before =? "")%string && negb (art_Path after =? art_Path before)%string)
    (Errorf "path is set both in run block and workload field" []) ;;
  guard_err (negb (art_URL before =? "")%string && negb (art_URL after =? art_URL before)%string)
    (Errorf "url is set both in run block and workload field" []).

Definition fillRunFromFields (r : RunSpec) (f : HIRForm) : res RunSpec :=
  let after := fillArtifactFromFields (run_Artifact r) f in
  validateArtifactOverride (run_Artifact r) after ;;
  let r := set_artifact after r in
  let r := set_exec (fillExecFromFields (run_Exec r) f) r in
  Ok (fillProcessIdentityFromFields r f).

Definition fillOneOption {A} (forms : list HIRForm) (scope name : string) (fill : HIRForm → A → A) (a : A) : res A :=
  match forms with
  | [] => Ok a
  | [f] => Ok (fill f a)
  | _ => Err (Errorf "%s: at most one %s block" [AStr scope; AStr name])
  end.

Definition fillRuntimeOptionForms (f : HIRForm) (scope : string) (o : RunOptions) : res RunOptions :=
  let one name fill o := fillOneOption (childFormsByKind f name) scope name fill o in
  let docker form o := mkRunOptions (mergeDockerOptions (opt_Docker o) (lowerDockerOptions form)) (opt_Containerd o)
                         (opt_Firecracker o) (opt_Process o) (opt_Systemd o) (opt_WindowsService o) in
  o ← one "docker" docker o;
  o ← one "podman" docker o;
  o ← one "containerd" (λ form o, mkRunOptions (opt_Docker o) (lowerContainerdOptions form) (opt_Firecracker o)
         (opt_Process o) (opt_Systemd o) (opt_WindowsService o)) o;
  o ← one "firecracker" (λ form o, mkRunOptions (opt_Docker o) (opt_Containerd o) (lowerFirecrackerOptions form)
         (opt_Process o) (opt_Systemd o) (opt_WindowsService o)) o;
  o ← one "process" (λ form o, mkRunOptions (opt_Docker o) (opt_Containerd o) (opt_Firecracker o)
         (lowerProcessOptions form) (opt_Systemd o) (opt_WindowsService o)) o;
  o ← one "systemd" (λ form o, mkRunOptions (opt_Docker o) (opt_Containerd o) (opt_Firecracker o) (opt_Process o)
         (lowerSystemdOptions form) (opt_WindowsService o)) o;
  one "windows_service" (λ form o, mkRunOptions (opt_Docker o) (opt_Containerd o) (opt_Firecracker o) (opt_Process o)
         (opt_Systemd o) (lowerWindowsServiceOptions form)) o.

Definition fillRuntimeOptions (o : RunOptions) (f : HIRForm) : res RunOptions :=
  match childFormsByKind f "runtime_options" with
  | [] => Ok o
  | [b] => fillRuntimeOptionForms b "runtime_options" o
  | _ => Err (Errorf "at most one runtime_options block" [])
  end.

Definition set_docker (d : option DockerOptions) (o : RunOptions) : RunOptions :=
  mkRunOptions d (opt_Containerd o) (opt_Firecracker o) (opt_Process o) (opt_Systemd o) (opt_WindowsService o).

Definition fillDockerOptionsFromFields (o : RunOptions) (f : HIRForm) : res RunOptions :=
  let o := match lowerDockerOptions f with
           | Some d => set_docker (mergeDockerOptions (opt_Docker o) (Some d)) o
           | None => o
           end in
  fillRuntimeOptionForms f "workload" o.

(** ** lower_endpoint.go *)
Definition lowerEndpoint (f : HIRForm) : res Endpoint :=
  name ← wrap "endpoint" [] (symbolLabelName f);
  match intField f "port" with
  | None => Err (Errorf "endpoint %q: port is required" [AStr name])
  | Some port =>
      match stringField f "protocol" with
      | None => Err (Errorf "endpoint %q: protocol is required" [AStr name])
      | Some proto =>
          Ok (mkEndpoint name port (ToLower (TrimSpace proto)) (default 0%Z (intField f "host_port"))
                (match stringField f "host_ip" with Some ip => TrimSpace ip | None => "" end))
      end
  end.

Definition endpointPublishFromCall (e : Endpoint) (c : HIRCall) (hostPortArg hostIPArg : nat) : Endpoint :=
  mkEndpoint (ep_Name e) (ep_Port e) (ep_Protocol e) (default (ep_HostPort e) (callIntArg c hostPortArg))
    (match callStringArg c hostIPArg with Some ip => TrimSpace ip | None => ep_HostIP e end).

Definition endpointFromProtocolCall (c : HIRCall) (proto defaultName : string) : option Endpoint :=
  port ← callIntArg c 0;
  let name := TrimSpace defaultName in
  let name := if (name =? "")%string then proto +:+ "-" +:+ Itoa port else name in
  let name := default name (non_blank (callStringArg c 1)) in
  Some (endpointPublishFromCall (mkEndpoint name port proto 0 "") c 2 3).

Definition endpointFromPortCall (c : HIRCall) : option Endpoint :=
  port ← callIntArg c 0;
  protoStr ← non_blank (callStringArg c 1);
  let proto := ToLower protoStr in
  let name := default (proto +:+ "-" +:+ Itoa port) (non_blank (callStringArg c 2)) in
  Some (endpointPublishFromCall (mkEndpoint name port proto 0 "") c 3 4).

Definition endpointFromCall (c : HIRCall) : option Endpoint :=
  if (call_Name c =? "http")%string then endpointFromProtocolCall c ProtoHTTP "http"
  else if (call_Name c =? "tcp")%string then endpointFromProtocolCall c ProtoTCP ""
  else if (call_Name c =? "udp")%string then endpointFromProtocolCall c ProtoUDP ""
  else if (call_Name c =? "port")%string then endpointFromPortCall c
  else None.

Definition lowerEndpointCalls (f : HIRForm) : list Endpoint := omap endpointFromCall (f_Calls f).

Definition lowerMount (f : HIRForm) : res Mount :=
  match stringField f "volume" with
  | None => Err (Errorf "mount.volume is required" [])
  | Some vol =>
      match stringField f "target" with
      | None => Err (Errorf "mount.target is required" [])
      | Some target => Ok (mkMount (mkVolumeRef vol) target (default false (boolField f "read_only")))
      end
  end.

Definition lowerEnv (f : HIRForm) : res EnvVar :=
  match stringField f "name" with
  | None => Err (Errorf "env.name is required" [])
  | Some name =>
      match stringField f "value" with
      | None => Err (Errorf "env.value is required" [])
      | Some v => Ok (mkEnvVar name v)
      end
  end.

(** ** lower_resources.go *)
Definition parseCPUMillis (raw : string) : res Z :=
  let s := TrimSpace raw in
  if (s =? "")%string then Err (Errorf "cpu resource is empty" [])
  else if HasSuffix s "m" then
    match Atoi (TrimSuffix s "m") with
    | None => Err (Wrapf (Errorf "strconv.ParseInt: parsing %q" [AStr (TrimSuffix s "m")]) "parse cpu resource %q" [AStr raw])
    | Some n => Ok n
    end
  else
    f ← wrap "parse cpu resource %q" [AStr raw] (ParseFloat s);
    Ok (int64_of_float (f64_mul f (f64_of_Z 1000))).

Definition parseResourceSpec (raw : string) : res Resources :=
  match Split (TrimSpace raw) "/" with
  | [cpuText; memText] =>
      cpu ← parseCPUMillis cpuText;
      mem ← wrap "parse memory resource" [] (ParseSize (TrimSpace memText));
      Ok (mkResources cpu mem)
  | _ => Err (Errorf "resources must be cpu/memory, got %q" [AStr raw])
  end.

Definition ensureResources (r : option Resources) : Resources := default (mkResources 0 0) r.

Definition lowerResourceFields (f : HIRForm) : res (option Resources) :=
  out ← match stringField f "resources" with
        | Some spec => if negb (TrimSpace spec =? "")%string then r ← parseResourceSpec spec; Ok (Some r) else Ok None
        | None => Ok None
        end;
  let out := match int64Field f "cpu_millis" with
             | Some cpu => Some (mkResources cpu (res_MemoryBytes (ensureResources out)))
             | None => out
             end in
  Ok (match int64Field f "memory_bytes" with
      | Some mem => Some (mkResources (res_CPUMillis (ensureResources out)) mem)
      | None => out
      end).

Definition lowerResources (f : HIRForm) : option Resources :=
  let r := map_resources (f_Fields f) in
  if (res_CPUMillis r =? 0)%Z && (res_MemoryBytes r =? 0)%Z then None else Some r.

Definition mergeResourceBlock (out : option Resources) (blocks : list HIRForm) : res (option Resources) :=
  match blocks with
  | [] => Ok out
  | [b] => if out is Some _ then Err (Errorf "resources are set both as fields and resources block" [])
           else Ok (lowerResources b)
  | _ => Err (Errorf "at most one resources block" [])
  end.

Definition lowerWorkloadResources (f : HIRForm) : res (option Resources) :=
  out ← lowerResourceFields f; mergeResourceBlock out (childFormsByKind f "resources").

Definition nonEmptyScheduling (s : Scheduling) : option Scheduling :=
  if negb (sch_Stateful s) && negb (sch_AllowLeader s) && (length (sch_PreferredNodes s) =? 0)%nat then None else Some s.

Definition lowerScheduling (f : HIRForm) : option Scheduling := nonEmptyScheduling (map_scheduling (f_Fields f)).

Definition lowerSchedulingFromFields (f : HIRForm) (statefulDefault : bool) : option Scheduling :=
  let s := map_scheduling (f_Fields f) in
  nonEmptyScheduling (mkScheduling statefulDefault (sch_AllowLeader s) (sch_PreferredNodes s)).

Definition mergeScheduling (base override : option Scheduling) : option Scheduling :=
  match base, override with
  | None, _ => override
  | _, None => base
  | Some b, Some o =>
      nonEmptyScheduling (mkScheduling (sch_Stateful o || sch_Stateful b) (sch_AllowLeader o || sch_AllowLeader b)
        (if (0 <? length (sch_PreferredNodes o))%nat then sch_PreferredNodes o else sch_PreferredNodes b))
  end.

(** ** lower_health.go *)
Definition probeTCPEnabled (f : HIRForm) : bool := default false (boolField f "tcp").

Definition hasProbeStringField (f : HIRForm) : bool :=
  existsb (λ name, if non_blank (stringField f name) is Some _ then true else false)
    ["http"; "path"; "endpoint"; "interval"; "timeout"; "start_period"].

Definition hasProbeFields (f : HIRForm) : bool :=
  hasProbeStringField f || probeTCPEnabled f || negb (default 0 (intField f "port") =? 0)%Z
  || negb (default 0 (intField f "retries") =? 0)%Z.

(** The path is kept as it is written. *)
Definition probeHTTPPath (f : HIRForm) : option string :=
  match non_blank (stringField f "http") with
  | Some _ => stringField f "http"
  | None => match non_blank (stringField f "path") with Some _ => stringField f "path" | None => None end
  end.

Definition probeEndpointRef (f : HIRForm) : EndpointRef :=
  mkEndpointRef "" (default "" (non_blank (stringField f "endpoint"))).

Definition lowerProbeTiming (f : HIRForm) : Probe :=
  mkProbe None None (default "" (stringField f "interval")) (default "" (stringField f "timeout"))
    (default 0%Z (intField f "retries")) (default "" (stringField f "start_period")).

Definition shouldAttachHTTPProbe (f : HIRForm) (endpoint : EndpointRef) (hasHTTP hasPort : bool) : bool :=
  hasHTTP || (negb (probeTCPEnabled f) && (negb (er_Endpoint endpoint =? "")%string || hasPort)).

Definition attachProbeTransport (p : Probe) (f : HIRForm) : Probe :=
  let endpoint := probeEndpointRef f in
  let port := intField f "port" in
  let hasPort := if port is Some _ then true else false in
  let hasHTTP := if probeHTTPPath f is Some _ then true else false in
  mkProbe
    (if shouldAttachHTTPProbe f endpoint hasHTTP hasPort
     then Some (mkHTTPProbe (default "" (probeHTTPPath f)) endpoint (default 0%Z port)) else pr_HTTP p)
    (if probeTCPEnabled f then Some (mkTCPProbe endpoint (default 0%Z port)) else pr_TCP p)
    (pr_Interval p) (pr_Timeout p) (pr_Retries p) (pr_StartPeriod p).

Definition lowerProbeFromFields (f : HIRForm) : option Probe :=
  if negb (hasProbeFields f) then None else Some (attachProbeTransport (lowerProbeTiming f) f).

(** [None]: no such block; a block without fields gives a nil probe. *)
Definition lowerNamedProbe (f : HIRForm) (name : string) : res (option (option Probe)) :=
  match childFormsByKind f name with
  | [] => Ok None
  | [b] => Ok (Some (lowerProbeFromFields b))
  | _ => Err (Errorf ("at most one " +:+ name +:+ " block") [])
  end.

Definition lowerHealthNamedProbes (f : HIRForm) (h : Health) : res Health :=
  r ← lowerNamedProbe f "readiness";
  l ← lowerNamedProbe f "liveness";
  s ← lowerNamedProbe f "startup";
  Ok (mkHealth (default (h_Readiness h) r) (default (h_Liveness h) l) (default (h_Startup h) s)).

Definition lowerHealth (f : HIRForm) : res Health :=
  lowerHealthNamedProbes f (mkHealth (lowerProbeFromFields f) None None).

(** ** lower_lifecycle.go, lower_rollout.go *)
Definition lowerLifecycleFromFields (f : HIRForm) : Lifecycle :=
  mkLifecycle (match stringField f "restart_policy" with Some s => TrimSpace s | None => "" end)
    (default 0%Z (intField f "max_restarts"))
    (match stringField f "restart_delay" with Some s => TrimSpace s | None => "" end).

Definition mergeLifecycle (base override : Lifecycle) : Lifecycle :=
  mkLifecycle (if negb (lc_RestartPolicy override =? "")%string then lc_RestartPolicy override else lc_RestartPolicy base)
    (if negb (lc_MaxRestarts override =? 0)%Z then lc_MaxRestarts override else lc_MaxRestarts base)
    (if negb (lc_RestartDelay override =? "")%string then lc_RestartDelay override else lc_RestartDelay base).

Definition lifecycleEmpty (l : Lifecycle) : bool :=
  (lc_RestartPolicy l =? "")%string && (lc_MaxRestarts l =? 0)%Z && (lc_RestartDelay l =? "")%string.

Definition lowerRolloutFromFields (f : HIRForm) : Rollout :=
  mkRollout (match stringField f "strategy" with Some s => TrimSpace s | None => "" end)
    (default 0%Z (intField f "max_unavailable")) (default 0%Z (intField f "max_surge"))
    (default false (boolField f "rollback_on_failure"))
    (match stringField f "progress_deadline" with Some s => TrimSpace s | None => "" end).

Definition mergeRollout (base override : Rollout) : Rollout :=
  mkRollout (if negb (ro_Strategy override =? "")%string then ro_Strategy override else ro_Strategy base)
    (if negb (ro_MaxUnavailable override =? 0)%Z then ro_MaxUnavailable override else ro_MaxUnavailable base)
    (if negb (ro_MaxSurge override =? 0)%Z then ro_MaxSurge override else ro_MaxSurge base)
    (ro_RollbackOnFailure override || ro_RollbackOnFailure base)
    (if negb (ro_ProgressDeadline override =? "")%string then ro_ProgressDeadline override else ro_ProgressDeadline base).

Definition rolloutEmpty (r : Rollout) : bool :=
  (ro_Strategy r =? "")%string && (ro_MaxUnavailable r =? 0)%Z && (ro_MaxSurge r =? 0)%Z
  && negb (ro_RollbackOnFailure r) && (ro_ProgressDeadline r =? "")%string.

(** ** lower_workload.go *)
Record appDefaults := mkDefaults { df_Runtime : string; df_Docker : option DockerOptions }.

Definition workloadKind (f : HIRForm) : res string :=
  if (f_Kind f =? "service")%string then Ok WorkloadKindService
  else if (f_Kind f =? "stateful")%string then Ok WorkloadKindStateful
  else if (f_Kind f =? "worker")%string then Ok WorkloadKindWorker
  else match non_blank (stringField f "kind") with
  | None => Err (Errorf "kind is required" [])
  | Some k => Ok (ToLower k)
  end.

Definition workloadRuntime (f : HIRForm) (d : appDefaults) : string :=
  match non_blank (stringField f "runtime") with
  | Some rt => ToLower rt
  | None => if negb (df_Runtime d =? "")%string then df_Runtime d else RuntimeDocker
  end.

Definition empty_run : RunSpec :=
  mkRun (mkArtifact "" "" "") (mkExec [] []) [] "" "" (mkRunOptions None None None None None None).

Definition lowerWorkloadBase (f : HIRForm) (d : appDefaults) : res Workload :=
  name ← wrap "workload" [] (symbolLabelName f);
  kind ← wrap "workload %q" [AStr name] (workloadKind f);
  Ok (mkWorkload name kind empty_run (workloadRuntime f d) 0 [] [] [] None None None None None).

Definition set_core (replicas : Z) (deps : list WorkloadRef) (w : Workload) : Workload :=
  mkWorkload (w_Name w) (w_Kind w) (w_Run w) (w_Runtime w) replicas deps (w_Endpoints w) (w_Mounts w) (w_Resources w)
    (w_Health w) (w_Lifecycle w) (w_Scheduling w) (w_Rollout w).
Definition set_run (r : RunSpec) (w : Workload) : Workload :=
  mkWorkload (w_Name w) (w_Kind w) r (w_Runtime w) (w_Replicas w) (w_DependsOn w) (w_Endpoints w) (w_Mounts w)
    (w_Resources w) (w_Health w) (w_Lifecycle w) (w_Scheduling w) (w_Rollout w).
Definition set_endpoints (es : list Endpoint) (w : Workload) : Workload :=
  mkWorkload (w_Name w) (w_Kind w) (w_Run w) (w_Runtime w) (w_Replicas w) (w_DependsOn w) es (w_Mounts w)
    (w_Resources w) (w_Health w) (w_Lifecycle w) (w_Scheduling w) (w_Rollout w).
Definition set_mounts (ms : list Mount) (w : Workload) : Workload :=
  mkWorkload (w_Name w) (w_Kind w) (w_Run w) (w_Runtime w) (w_Replicas w) (w_DependsOn w) (w_Endpoints w) ms
    (w_Resources w) (w_Health w) (w_Lifecycle w) (w_Scheduling w) (w_Rollout w).
Definition set_resources (r : option Resources) (w : Workload) : Workload :=
  mkWorkload (w_Name w) (w_Kind w) (w_Run w) (w_Runtime w) (w_Replicas w) (w_DependsOn w) (w_Endpoints w) (w_Mounts w)
    r (w_Health w) (w_Lifecycle w) (w_Scheduling w) (w_Rollout w).
Definition set_health (h : option Health) (w : Workload) : Workload :=
  mkWorkload (w_Name w) (w_Kind w) (w_Run w) (w_Runtime w) (w_Replicas w) (w_DependsOn w) (w_Endpoints w) (w_Mounts w)
    (w_Resources w) h (w_Lifecycle w) (w_Scheduling w) (w_Rollout w).
Definition set_lifecycle (l : option Lifecycle) (w : Workload) : Workload :=
  mkWorkload (w_Name w) (w_Kind w) (w_Run w) (w_Runtime w) (w_Replicas w) (w_DependsOn w) (w_Endpoints w) (w_Mounts w)
    (w_Resources w) (w_Health w) l (w_Scheduling w) (w_Rollout w).
Definition set_rollout (r : option Rollout) (w : Workload) : Workload :=
  mkWorkload (w_Name w) (w_Kind w) (w_Run w) (w_Runtime w) (w_Replicas w) (w_DependsOn w) (w_Endpoints w) (w_Mounts w)
    (w_Resources w) (w_Health w) (w_Lifecycle w) (w_Scheduling w) r.

Definition fillWorkloadCore (w : Workload) (f : HIRForm) : res Workload :=
  Ok (set_core (default (w_Replicas w) (intField f "replicas"))
        (match rawField f "depends_on" with Some v => workloadRefList v | None => w_DependsOn w end) w).

Definition fillWorkloadRun (d : appDefaults) (w : Workload) (f : HIRForm) : res Workload :=
  r ← match childFormsByKind f "run" with
      | [] => Ok (w_Run w)
      | [b] => Ok (fillRun (w_Run w) b)
      | _ => Err (Errorf "at most one run block" [])
      end;
  r ← fillRunFromFields r f;
  o ← fillRuntimeOptions (run_Options r) f;
  o ← fillDockerOptionsFromFields o f;
  Ok (set_run (set_options (set_docker (mergeDockerOptionsForRuntime (w_Runtime w) (df_Docker d) (opt_Docker o)) o) r) w).

Definition fillWorkloadEndpoints (w : Workload) (f : HIRForm) : res Workload :=
  es ← lower_each lowerEndpoint (childFormsByKind f "endpoint");
  Ok (set_endpoints (w_Endpoints w ++ es ++ lowerEndpointCalls f) w).

Definition fillWorkloadMounts (w : Workload) (f : HIRForm) : res Workload :=
  ms ← lower_each lowerMount (childFormsByKind f "mount");
  Ok (set_mounts (w_Mounts w ++ ms) w).

Definition fillWorkloadEnv (w : Workload) (f : HIRForm) : res Workload :=
  let env := run_Env (w_Run w) ++ match stringMapField f "env" with Some m => envVarsFromMap m | None => [] end in
  es ← lower_each lowerEnv (childFormsByKind f "env");
  Ok (set_run (set_env (env ++ es) (w_Run w)) w).

Definition fillWorkloadResources (w : Workload) (f : HIRForm) : res Workload :=
  r ← lowerWorkloadResources f; Ok (set_resources r w).

Definition fillWorkloadHealth (w : Workload) (f : HIRForm) : res Workload :=
  match childFormsByKind f "health" with
  | [] => Ok w
  | [b] => h ← lowerHealth b; Ok (set_health (Some h) w)
  | _ => Err (Errorf "at most one health block" [])
  end.

Definition fillWorkloadLifecycle (w : Workload) (f : HIRForm) : res Workload :=
  match childFormsByKind f "lifecycle" with
  | [] => let l := lowerLifecycleFromFields f in Ok (if lifecycleEmpty l then w else set_lifecycle (Some l) w)
  | [b] =>
      let l := mergeLifecycle (lowerLifecycleFromFields f) (lowerLifecycleFromFields b) in
      Ok (if lifecycleEmpty l then w else set_lifecycle (Some l) w)
  | _ => Err (Errorf "at most one lifecycle block" [])
  end.

Definition fillWorkloadRollout (w : Workload) (f : HIRForm) : res Workload :=
  match childFormsByKind f "rollout" with
  | [] => let r := lowerRolloutFromFields f in Ok (if rolloutEmpty r then w else set_rollout (Some r) w)
  | [b] =>
      let r := mergeRollout (lowerRolloutFromFields f) (lowerRolloutFromFields b) in
      Ok (if rolloutEmpty r then w else set_rollout (Some r) w)
  | _ => Err (Errorf "at most one rollout block" [])
  end.

Definition fillWorkloadScheduling (w : Workload) (f : HIRForm) : res Workload :=
  let base := lowerSchedulingFromFields f (w_Kind w =? WorkloadKindStateful)%string in
  match childFormsByKind f "scheduling" with
  | [] => Ok (set_scheduling base w)
  | [b] => Ok (set_scheduling (mergeScheduling base (lowerScheduling b)) w)
  | _ => Err (Errorf "at most one scheduling block" [])
  end.

Definition workloadLoweringSteps (d : appDefaults) : list (Workload → HIRForm → res Workload) :=
  [fillWorkloadCore; fillWorkloadRun d; fillWorkloadEndpoints; fillWorkloadMounts; fillWorkloadEnv;
   fillWorkloadResources; fillWorkloadHealth; fillWorkloadLifecycle; fillWorkloadRollout; fillWorkloadScheduling].

Definition lowerWorkload (f : HIRForm) (d : appDefaults) : res Workload :=
  w ← lowerWorkloadBase f d;
  range_fold (λ _ w step, wrap "workload %q" [AStr (w_Name w)] (step w f)) w (workloadLoweringSteps d).

(** ** lower_objects.go *)
Definition lower_data (what : string) (f : HIRForm) : res (string * gmap string string) :=
  name ← wrap what [] (symbolLabelName f);
  match stringMapField f "data" with
  | Some data =>
      if (size data =? 0)%nat then Err (Errorf (what +:+ " %q: data map is required") [AStr name]) else Ok (name, data)
  | None => Err (Errorf (what +:+ " %q: data map is required") [AStr name])
  end.

Definition lowerConfig (f : HIRForm) : res Config := '(name, data) ← lower_data "config" f; Ok (mkConfig name data).
Definition lowerSecret (f : HIRForm) : res Secret := '(name, data) ← lower_data "secret" f; Ok (mkSecret name data).

Definition lowerVolume (f : HIRForm) : res Volume :=
  name ← wrap "volume" [] (symbolLabelName f);
  Ok (mkVolume name (default false (boolField f "persistent")) (default 0%Z (int64Field f "size_bytes"))).

Definition lowerRoute (f : HIRForm) : res IngressRoute :=
  match stringField f "path" with
  | None => Err (Errorf "route.path is required" [])
  | Some path =>
      match stringField f "backend_workload" with
      | None => Err (Errorf "route.backend_workload is required" [])
      | Some workload =>
          match stringField f "backend_endpoint" with
          | None => Err (Errorf "route.backend_endpoint is required" [])
          | Some endpoint => Ok (mkIngressRoute path (mkEndpointRef workload endpoint))
          end
      end
  end.

Definition inferIngressEndpoint (workload : string) (endpoints : list Endpoint) : res string :=
  match filter (λ e, ep_Protocol e = ProtoHTTP) endpoints with
  | [e] => Ok (ep_Name e)
  | [] => Err (Errorf "workload %q has no HTTP endpoint; set endpoint explicitly" [AStr workload])
  | _ => Err (Errorf "workload %q has multiple HTTP endpoints; set endpoint explicitly" [AStr workload])
  end.

Definition lowerPathRoute (workloadEndpoints : gmap string (list Endpoint)) (f : HIRForm) : res IngressRoute :=
  path ← wrap "path route" [] (stringLabelName f);
  match workloadRefField f "workload" with
  | None => Err (Errorf "path %q: workload is required" [AStr path])
  | Some workload =>
      endpoint ← match non_blank (stringField f "endpoint") with
                 | Some e => Ok e
                 | None => wrap "path %q" [AStr path]
                             (inferIngressEndpoint workload (default [] (workloadEndpoints !! workload)))
                 end;
      Ok (mkIngressRoute path (mkEndpointRef workload (TrimSpace endpoint)))
  end.

Definition lowerIngress (workloadEndpoints : gmap string (list Endpoint)) (f : HIRForm) : res Ingress :=
  name ← wrap "ingress" [] (symbolLabelName f);
  routes ← lower_each lowerRoute (childFormsByKind f "route");
  paths ← lower_each (lowerPathRoute workloadEndpoints) (childFormsByKind f "path");
  Ok (mkIngress name (default "" (stringField f "host")) (routes ++ paths)).

(** ** lower.go: the document *)
Definition lowerMetadata (f : HIRForm) : res Metadata :=
  match non_blank (stringField f "name") with
  | None => Err (Errorf "metadata.name is required" [])
  | Some name =>
      Ok (mkMetadata name (match stringField f "namespace" with Some ns => TrimSpace ns | None => "" end)
            (default ∅ (stringMapField f "labels")) (default ∅ (stringMapField f "annotations")))
  end.

Definition lowerAppMetadata (root : HIRForm) : res Metadata :=
  match childFormsByKind root "metadata" with
  | [] => lowerMetadata root
  | [m] => lowerMetadata m
  | metas => Err (Errorf "app requires at most one metadata block, got %d" [ANat (length metas)])
  end.

Definition lowerAppDefaults (root : HIRForm) : res appDefaults :=
  let runtime := match non_blank (stringField root "runtime") with Some rt => ToLower rt | None => RuntimeDocker end in
  match childFormsByKind root "docker" with
  | [] => Ok (mkDefaults runtime None)
  | [b] => Ok (mkDefaults runtime (lowerDockerOptions b))
  | _ => Err (Errorf "app: at most one docker block" [])
  end.

Definition workload_kinds : list string := ["workload"; "service"; "stateful"; "worker"].

(** The endpoints of a workload by its name; a later workload of the same name wins. *)
Definition endpoint_index (ws : list Workload) : gmap string (list Endpoint) :=
  foldl (λ m w, <[w_Name w := w_Endpoints w]> m) ∅ ws.

Definition lowerAppWorkloads (root : HIRForm) (d : appDefaults) : res (list Workload) :=
  lower_each (λ f, lowerWorkload f d) (childFormsByKinds root workload_kinds).

Definition lowerApp (root : HIRForm) : res App :=
  metadata ← lowerAppMetadata root;
  defaults ← lowerAppDefaults root;
  workloads ← lowerAppWorkloads root defaults;
  configs ← lower_each lowerConfig (childFormsByKind root "config");
  secrets ← lower_each lowerSecret (childFormsByKind root "secret");
  volumes ← lower_each lowerVolume (childFormsByKind root "volume");
  ingresses ← lower_each (lowerIngress (endpoint_index workloads)) (childFormsByKind root "ingress");
  Ok (mkApp "" "" metadata workloads configs secrets volumes ingresses).

(** [hir.Forms] *)
Definition lowerHIRWithMapper (forms : list HIRForm) : res App :=
  match filter (λ f, f_Kind f = "app") forms with
  | [root] => lowerApp root
  | roots => Err (Errorf "expected exactly one top-level app form, got %d" [ANat (length roots)])
  end.

(** ** service.go *)

(** [compile] is the answer of the compiler: its diagnostics or the tree. *)
Definition appFromCompileResult (virtualName : string) (compile : res (option (list HIRForm))) : res App :=
  hir ← wrap "compile %s" [AStr virtualName] compile;
  match hir with
  | None => Err (Errorf "compile %s: missing HIR" [AStr virtualName])
  | Some forms =>
      app ← wrap "lower %s" [AStr virtualName] (lowerHIRWithMapper forms);
      Ok (mkApp (or_empty (app_APIVersion app) "warden.arcgolabs.io/v1alpha1") (or_empty (app_Kind app) "App")
            (app_Metadata app) (app_Workloads app) (app_Configs app) (app_Secrets app) (app_Volumes app)
            (app_Ingresses app))
  end.
End lower.
