(* ===== verification/OrchDslSpec.v ===== *)
(** * What lowering guarantees

    Every document that the language can express is what lowering returns for the forms that
    spell it out; the short workload forms mean what the long form with the kind means. *)
From stdpp Require Import base strings numbers gmap list.
From Stdlib Require Import Ascii SpecFloat.
From S2P Require Import Prelude GoStrings GoTime GoFloat GoNet GoList Deploy Meta GoText Placement Fsm TaskBase TaskRun OrchDsl.

(** ** The struct mapper *)
Definition text_at (k : string) (l : list (string * value)) : string :=
  match get_field k l with Some (VString s) => TrimSpace s | _ => "" end.
Definition flag_at (k : string) (l : list (string * value)) : bool :=
  match get_field k l with Some (VBool b) => b | _ => false end.
Definition int_at (k : string) (l : list (string * value)) : Z :=
  match get_field k l with Some (VInt z) => z | _ => 0 end.
Definition strings_at (k : string) (l : list (string * value)) : list string :=
  match get_field k l with Some v => stringList v | None => [] end.
Definition texts_at (k : string) (l : list (string * value)) : gmap string string :=
  match get_field k l with Some (VStringMap m) => m | _ => ∅ end.

(** A field is absent or has the type of the struct's field. *)
Definition has_text k l : Prop := match get_field k l with Some (VString _) | None => True | _ => False end.
Definition has_flag k l : Prop := match get_field k l with Some (VBool _) | None => True | _ => False end.
Definition has_int k l : Prop := match get_field k l with Some (VInt _) | None => True | _ => False end.
Definition has_strings k l : Prop := match get_field k l with Some (VList _) | None => True | _ => False end.
Definition has_texts k l : Prop := match get_field k l with Some (VStringMap _) | None => True | _ => False end.

(** The mapper fills each field of the struct from the field of the form with its snake-case
    name, trims strings and leaves the others zero. *)
Class HIRMapperLaws `{HIRMapper} := {
  map_docker_spec l : has_text "network_mode" l → has_flag "privileged" l → has_texts "labels" l →
    map_docker l = mkDocker (text_at "network_mode" l) (flag_at "privileged" l) (texts_at "labels" l);
  map_containerd_spec l : has_text "namespace" l → map_containerd l = mkContainerd (text_at "namespace" l);
  map_firecracker_spec l :
    Forall (λ k, has_text k l) ["kernel_image_path"; "rootfs_path"; "boot_args"; "binary_path"; "socket_path";
                                "network_interface_id"; "tap_device_name"; "guest_mac"] →
    has_flag "rootfs_read_only" l → has_flag "allow_mmds_requests" l → has_int "vcpu_count" l → has_int "mem_size_mib" l →
    map_firecracker l = mkFirecracker (text_at "kernel_image_path" l) (text_at "rootfs_path" l) (text_at "boot_args" l)
      (text_at "binary_path" l) (text_at "socket_path" l) (flag_at "rootfs_read_only" l)
      (text_at "network_interface_id" l) (text_at "tap_device_name" l) (text_at "guest_mac" l)
      (flag_at "allow_mmds_requests" l) (int_at "vcpu_count" l) (int_at "mem_size_mib" l);
  map_process_spec l : Forall (λ k, has_text k l) ["graceful_stop_timeout"; "stdout_path"; "stderr_path"] →
    map_process l = mkProcess (text_at "graceful_stop_timeout" l) (text_at "stdout_path" l) (text_at "stderr_path" l);
  map_systemd_spec l :
    Forall (λ k, has_text k l) ["unit_name"; "user"; "group"; "restart"; "restart_sec"; "wanted_by"] →
    map_systemd l = mkSystemd (text_at "unit_name" l) (text_at "user" l) (text_at "group" l) (text_at "restart" l)
      (text_at "restart_sec" l) (text_at "wanted_by" l);
  map_windows_spec l : Forall (λ k, has_text k l) ["service_name"; "display_name"; "start_type"] →
    map_windows l = mkWindows (text_at "service_name" l) (text_at "display_name" l) (text_at "start_type" l);
  map_resources_spec l : has_int "cpu_millis" l → has_int "memory_bytes" l →
    map_resources l = mkResources (int_at "cpu_millis" l) (int_at "memory_bytes" l);
  map_scheduling_spec l : has_flag "stateful" l → has_flag "allow_leader" l → has_strings "preferred_nodes" l →
    map_scheduling l = mkScheduling (flag_at "stateful" l) (flag_at "allow_leader" l) (strings_at "preferred_nodes" l);
}.

(** ** Spelling a document out *)
Definition block (kind : string) (fields : list (string * value)) : HIRForm := mkForm kind None fields [] [].
Definition named (kind name : string) (fields : list (string * value)) : HIRForm :=
  mkForm kind (Some (LabelSymbol, name)) fields [] [].
Definition opt_block {A} (f : A → HIRForm) (o : option A) : list HIRForm := match o with Some a => [f a] | None => [] end.
Definition text_list (l : list string) : value := VList (VString <$> l).

Definition form_of_endpoint (e : Endpoint) : HIRForm :=
  named "endpoint" (ep_Name e) [("port", VInt (ep_Port e)); ("protocol", VString (ep_Protocol e));
    ("host_port", VInt (ep_HostPort e)); ("host_ip", VString (ep_HostIP e))].
Definition form_of_mount (m : Mount) : HIRForm :=
  block "mount" [("volume", VString (vr_Name (mnt_Volume m))); ("target", VString (mnt_Target m));
    ("read_only", VBool (mnt_ReadOnly m))].
Definition form_of_env (e : EnvVar) : HIRForm :=
  block "env" [("name", VString (env_Name e)); ("value", VString (env_Value e))].
Definition form_of_run (r : RunSpec) : HIRForm :=
  block "run" [("image", VString (art_Image (run_Artifact r))); ("path", VString (art_Path (run_Artifact r)));
    ("url", VString (art_URL (run_Artifact r))); ("command", text_list (exec_Command (run_Exec r)));
    ("args", text_list (exec_Args (run_Exec r))); ("cwd", VString (run_Cwd r)); ("user", VString (run_User r))].
Definition form_of_docker (d : DockerOptions) : HIRForm :=
  block "docker" [("network_mode", VString (docker_NetworkMode d)); ("privileged", VBool (docker_Privileged d));
    ("labels", VStringMap (docker_Labels d))].
Definition form_of_containerd (c : ContainerdOptions) : HIRForm :=
  block "containerd" [("namespace", VString (containerd_Namespace c))].
Definition form_of_firecracker (c : FirecrackerOptions) : HIRForm :=
  block "firecracker" [("kernel_image_path", VString (fc_KernelImagePath c)); ("rootfs_path", VString (fc_RootfsPath c));
    ("boot_args", VString (fc_BootArgs c)); ("binary_path", VString (fc_BinaryPath c));
    ("socket_path", VString (fc_SocketPath c)); ("rootfs_read_only", VBool (fc_RootfsReadOnly c));
    ("network_interface_id", VString (fc_NetworkInterfaceID c)); ("tap_device_name", VString (fc_TapDeviceName c));
    ("guest_mac", VString (fc_GuestMAC c)); ("allow_mmds_requests", VBool (fc_AllowMMDSRequests c));
    ("vcpu_count", VInt (fc_VCPUCount c)); ("mem_size_mib", VInt (fc_MemSizeMiB c))].
Definition form_of_process (p : ProcessOptions) : HIRForm :=
  block "process" [("graceful_stop_timeout", VString (proc_GracefulStopTimeout p));
    ("stdout_path", VString (proc_StdoutPath p)); ("stderr_path", VString (proc_StderrPath p))].
Definition form_of_systemd (s : SystemdOptions) : HIRForm :=
  block "systemd" [("unit_name", VString (sd_UnitName s)); ("user", VString (sd_User s)); ("group", VString (sd_Group s));
    ("restart", VString (sd_Restart s)); ("restart_sec", VString (sd_RestartSec s)); ("wanted_by", VString (sd_WantedBy s))].
Definition form_of_windows (w : WindowsServiceOptions) : HIRForm :=
  block "windows_service" [("service_name", VString (win_ServiceName w)); ("display_name", VString (win_DisplayName w));
    ("start_type", VString (win_StartType w))].
Definition form_of_options (o : RunOptions) : HIRForm :=
  mkForm "runtime_options" None []
    (opt_block form_of_docker (opt_Docker o) ++ opt_block form_of_containerd (opt_Containerd o)
     ++ opt_block form_of_firecracker (opt_Firecracker o) ++ opt_block form_of_process (opt_Process o)
     ++ opt_block form_of_systemd (opt_Systemd o) ++ opt_block form_of_windows (opt_WindowsService o)) [].
Definition form_of_resources (r : Resources) : HIRForm :=
  block "resources" [("cpu_millis", VInt (res_CPUMillis r)); ("memory_bytes", VInt (res_MemoryBytes r))].

(** The parts of a probe's text. *)
Definition probe_path (p : Probe) : string := match pr_HTTP p with Some h => hp_Path h | None => "" end.
Definition probe_endpoint (p : Probe) : string :=
  match pr_HTTP p, pr_TCP p with
  | Some h, _ => er_Endpoint (hp_Endpoint h)
  | None, Some t => er_Endpoint (tp_Endpoint t)
  | None, None => ""
  end.
Definition probe_port (p : Probe) : Z :=
  match pr_HTTP p, pr_TCP p with Some h, _ => hp_Port h | None, Some t => tp_Port t | None, None => 0 end.
Definition probe_tcp (p : Probe) : bool := if pr_TCP p is Some _ then true else false.

Definition form_of_probe (kind : string) (p : Probe) : HIRForm :=
  block kind ([("interval", VString (pr_Interval p)); ("timeout", VString (pr_Timeout p)); ("retries", VInt (pr_Retries p));
    ("start_period", VString (pr_StartPeriod p)); ("http", VString (probe_path p));
    ("endpoint", VString (probe_endpoint p)); ("tcp", VBool (probe_tcp p))]
    ++ if (probe_port p =? 0)%Z then [] else [("port", VInt (probe_port p))]).
Definition form_of_health (h : Health) : HIRForm :=
  mkForm "health" None [] (opt_block (form_of_probe "readiness") (h_Readiness h)
    ++ opt_block (form_of_probe "liveness") (h_Liveness h) ++ opt_block (form_of_probe "startup") (h_Startup h)) [].
Definition form_of_lifecycle (l : Lifecycle) : HIRForm :=
  block "lifecycle" [("restart_policy", VString (lc_RestartPolicy l)); ("max_restarts", VInt (lc_MaxRestarts l));
    ("restart_delay", VString (lc_RestartDelay l))].
Definition form_of_rollout (r : Rollout) : HIRForm :=
  block "rollout" [("strategy", VString (ro_Strategy r)); ("max_unavailable", VInt (ro_MaxUnavailable r));
    ("max_surge", VInt (ro_MaxSurge r)); ("rollback_on_failure", VBool (ro_RollbackOnFailure r));
    ("progress_deadline", VString (ro_ProgressDeadline r))].
Definition form_of_scheduling (s : Scheduling) : HIRForm :=
  block "scheduling" [("stateful", VBool (sch_Stateful s)); ("allow_leader", VBool (sch_AllowLeader s));
    ("preferred_nodes", text_list (sch_PreferredNodes s))].

Definition workload_blocks (w : Workload) : list HIRForm :=
  [form_of_run (w_Run w); form_of_options (run_Options (w_Run w))] ++ (form_of_endpoint <$> w_Endpoints w)
  ++ (form_of_mount <$> w_Mounts w) ++ (form_of_env <$> run_Env (w_Run w)) ++ opt_block form_of_resources (w_Resources w)
  ++ opt_block form_of_health (w_Health w) ++ opt_block form_of_lifecycle (w_Lifecycle w)
  ++ opt_block form_of_rollout (w_Rollout w) ++ opt_block form_of_scheduling (w_Scheduling w).
Definition form_of_workload (w : Workload) : HIRForm :=
  mkForm "workload" (Some (LabelSymbol, w_Name w))
    [("kind", VString (w_Kind w)); ("runtime", VString (w_Runtime w)); ("replicas", VInt (w_Replicas w));
     ("depends_on", VList ((λ r, VRef "workload" (wr_Name r)) <$> w_DependsOn w))] (workload_blocks w) [].

Definition form_of_config (c : Config) : HIRForm := named "config" (cfg_Name c) [("data", VStringMap (cfg_Data c))].
Definition form_of_secret (s : Secret) : HIRForm := named "secret" (sec_Name s) [("data", VStringMap (sec_Data s))].
Definition form_of_volume (v : Volume) : HIRForm :=
  named "volume" (vol_Name v) [("persistent", VBool (vol_Persistent v)); ("size_bytes", VInt (vol_SizeBytes v))].
Definition form_of_route (r : IngressRoute) : HIRForm :=
  block "route" [("path", VString (ir_Path r)); ("backend_workload", VString (er_Workload (ir_Backend r)));
    ("backend_endpoint", VString (er_Endpoint (ir_Backend r)))].
Definition form_of_ingress (i : Ingress) : HIRForm :=
  mkForm "ingress" (Some (LabelSymbol, ing_Name i)) [("host", VString (ing_Host i))] (form_of_route <$> ing_Routes i) [].

Definition app_blocks (a : App) : list HIRForm :=
  (form_of_workload <$> app_Workloads a) ++ (form_of_config <$> app_Configs a) ++ (form_of_secret <$> app_Secrets a)
  ++ (form_of_volume <$> app_Volumes a) ++ (form_of_ingress <$> app_Ingresses a).
Definition form_of_app (a : App) : HIRForm :=
  mkForm "app" None
    [("name", VString (md_Name (app_Metadata a))); ("namespace", VString (md_Namespace (app_Metadata a)));
     ("labels", VStringMap (md_Labels (app_Metadata a))); ("annotations", VStringMap (md_Annotations (app_Metadata a)))]
    (app_blocks a) [].

(** ** Documents the language can express *)
Definition trimmed_text (s : string) : Prop := TrimSpace s = s.
Definition name_text (s : string) : Prop := trimmed_text s ∧ s ≠ "".
Definition lower_name `{UnicodeLower} (s : string) : Prop := name_text s ∧ ToLower s = s.
Definition opt_prop {A} (P : A → Prop) (o : option A) : Prop := match o with Some a => P a | None => True end.

(** Every probe has the transport its texts give, and some text. *)
Record probe_text (p : Probe) : Prop := {
  pt_endpoint : trimmed_text (probe_endpoint p);
  pt_path : probe_path p = "" ∨ TrimSpace (probe_path p) ≠ "";
  pt_http : pr_HTTP p =
    if negb (probe_path p =? "")%string || (negb (probe_tcp p) && (negb (probe_endpoint p =? "")%string || negb (probe_port p =? 0)%Z))
    then Some (mkHTTPProbe (probe_path p) (mkEndpointRef "" (probe_endpoint p)) (probe_port p)) else None;
  pt_tcp : pr_TCP p =
    if probe_tcp p then Some (mkTCPProbe (mkEndpointRef "" (probe_endpoint p)) (probe_port p)) else None;
  pt_some : TrimSpace (pr_Interval p) ≠ "" ∨ TrimSpace (pr_Timeout p) ≠ "" ∨ TrimSpace (pr_StartPeriod p) ≠ "" ∨
    pr_Retries p ≠ 0%Z ∨ is_Some (pr_HTTP p) ∨ is_Some (pr_TCP p);
}.

Section roundtrip.
Context `{UnicodeLower, ListSort, DslLib, HIRMapperLaws}.

Record run_text (r : RunSpec) : Prop := {
  rt_artifact : Forall trimmed_text [art_Image (run_Artifact r); art_Path (run_Artifact r); art_URL (run_Artifact r); run_User r];
  rt_docker : opt_prop (λ d, trimmed_text (docker_NetworkMode d) ∧ nonEmptyDockerOptions d = Some d) (opt_Docker (run_Options r));
  rt_containerd : opt_prop (λ c, name_text (containerd_Namespace c)) (opt_Containerd (run_Options r));
  rt_firecracker : opt_prop (λ c, Forall trimmed_text [fc_KernelImagePath c; fc_RootfsPath c; fc_BootArgs c; fc_BinaryPath c;
      fc_SocketPath c; fc_NetworkInterfaceID c; fc_TapDeviceName c; fc_GuestMAC c] ∧ firecrackerOptionsEmpty c = false)
    (opt_Firecracker (run_Options r));
  rt_process : opt_prop (λ p, let l := [proc_GracefulStopTimeout p; proc_StdoutPath p; proc_StderrPath p] in
      Forall trimmed_text l ∧ stringFieldsEmpty l = false) (opt_Process (run_Options r));
  rt_systemd : opt_prop (λ s, let l := [sd_UnitName s; sd_User s; sd_Group s; sd_Restart s; sd_RestartSec s; sd_WantedBy s] in
      Forall trimmed_text l ∧ stringFieldsEmpty l = false) (opt_Systemd (run_Options r));
  rt_windows : opt_prop (λ w, let l := [win_ServiceName w; win_DisplayName w; win_StartType w] in
      Forall trimmed_text l ∧ stringFieldsEmpty l = false) (opt_WindowsService (run_Options r));
}.

Record workload_text (w : Workload) : Prop := {
  wt_name : name_text (w_Name w);
  wt_kind : lower_name (w_Kind w);
  wt_runtime : lower_name (w_Runtime w);
  wt_deps : Forall (λ r, wr_Condition r = "") (w_DependsOn w);
  wt_run : run_text (w_Run w);
  wt_endpoints : Forall (λ e, name_text (ep_Name e) ∧ lower_name (ep_Protocol e) ∧ trimmed_text (ep_HostIP e)) (w_Endpoints w);
  wt_resources : opt_prop (λ r, res_CPUMillis r ≠ 0%Z ∨ res_MemoryBytes r ≠ 0%Z) (w_Resources w);
  wt_health : opt_prop (λ h, opt_prop probe_text (h_Readiness h) ∧ opt_prop probe_text (h_Liveness h)
                              ∧ opt_prop probe_text (h_Startup h)) (w_Health w);
  wt_lifecycle : opt_prop (λ l, trimmed_text (lc_RestartPolicy l) ∧ trimmed_text (lc_RestartDelay l) ∧ lifecycleEmpty l = false)
    (w_Lifecycle w);
  wt_rollout : opt_prop (λ r, trimmed_text (ro_Strategy r) ∧ trimmed_text (ro_ProgressDeadline r) ∧ rolloutEmpty r = false)
    (w_Rollout w);
  wt_scheduling : opt_prop (λ s, nonEmptyScheduling s = Some s) (w_Scheduling w);
  wt_stateful : w_Kind w = WorkloadKindStateful → ∃ s, w_Scheduling w = Some s ∧ sch_Stateful s = true;
}.

Record app_text (a : App) : Prop := {
  at_version : app_APIVersion a = "warden.arcgolabs.io/v1alpha1" ∧ app_Kind a = "App";
  at_meta : name_text (md_Name (app_Metadata a)) ∧ trimmed_text (md_Namespace (app_Metadata a));
  at_workloads : Forall workload_text (app_Workloads a);
  at_configs : Forall (λ c, name_text (cfg_Name c) ∧ cfg_Data c ≠ ∅) (app_Configs a);
  at_secrets : Forall (λ s, name_text (sec_Name s) ∧ sec_Data s ≠ ∅) (app_Secrets a);
  at_volumes : Forall (λ v, name_text (vol_Name v)) (app_Volumes a);
  at_ingresses : Forall (λ i, name_text (ing_Name i)) (app_Ingresses a);
}.

(** *** Picking forms *)
Lemma pick_cons kind g l :
  filter (λ g, f_Kind g = kind) (g :: l) =
  if (f_Kind g =? kind)%string then g :: filter (λ g, f_Kind g = kind) l else filter (λ g, f_Kind g = kind) l.
Proof. rewrite filter_cons. by destruct (String.eqb_spec (f_Kind g) kind); case_decide. Qed.

Lemma pick_fmap {A} (f : A → HIRForm) k kind l :
  (∀ a, f_Kind (f a) = k) → filter (λ g, f_Kind g = kind) (f <$> l) = if (k =? kind)%string then f <$> l else [].
Proof.
  intros Hk. induction l as [|a l IH]; [by destruct (k =? kind)%string|]. cbn [fmap list_fmap].
  rewrite pick_cons, Hk. fold (f <$> l). rewrite IH. by destruct (k =? kind)%string.
Qed.

Lemma pick_opt {A} (f : A → HIRForm) k kind o :
  (∀ a, f_Kind (f a) = k) → filter (λ g, f_Kind g = kind) (opt_block f o) = if (k =? kind)%string then opt_block f o else [].
Proof.
  intros Hk. destruct o as [a|]; cbn [opt_block]; [|by destruct (k =? kind)%string].
  rewrite pick_cons, Hk. by destruct (k =? kind)%string.
Qed.

Lemma lower_each_from {A B} (lower : HIRForm → res B) (f : A → HIRForm) (g : A → B) l i acc :
  Forall (λ a, lower (f a) = Ok (g a)) l →
  range_fold_from (λ _ (acc : list B) f, x ← lower f; Ok (acc ++ [x])) i acc (f <$> l) = Ok (acc ++ (g <$> l)).
Proof.
  intros Hl. revert i acc. induction Hl as [|a l Ha _ IH]; intros i acc; cbn [fmap list_fmap range_fold_from].
  - by rewrite app_nil_r.
  - rewrite Ha. cbn [mbind res_bind]. fold (f <$> l). rewrite IH. by rewrite <-app_assoc.
Qed.

(** Forms that each lower to what they came from. *)
Lemma lower_each_ok {A} (lower : HIRForm → res A) (f : A → HIRForm) l :
  Forall (λ a, lower (f a) = Ok a) l → lower_each lower (f <$> l) = Ok l.
Proof. intros Hl. unfold lower_each, range_fold. rewrite (lower_each_from lower f id) by done. by rewrite list_fmap_id. Qed.

Lemma stringList_text l : stringList (text_list l) = l.
Proof. unfold stringList, text_list. induction l as [|s l IH]; [done|]. cbn. by f_equal. Qed.

Lemma non_blank_name s : name_text s → non_blank (Some s) = Some s.
Proof. intros [Ht Hn]. unfold non_blank. cbn. rewrite Ht. by destruct (String.eqb_spec s ""). Qed.

Lemma non_blank_default s : trimmed_text s → default "" (non_blank (Some s)) = s.
Proof. intros Ht. unfold non_blank. cbn. rewrite Ht. by destruct (String.eqb_spec s "") as [->|]. Qed.

Lemma symbolLabel_named kind s fs gs cs :
  name_text s → symbolLabelName (mkForm kind (Some (LabelSymbol, s)) fs gs cs) = Ok s.
Proof. intros [Ht Hn]. unfold symbolLabelName. cbn [f_Label]. rewrite Ht. by destruct (String.eqb_spec s ""). Qed.
(** *** Leaves *)
Lemma endpoint_back e :
  name_text (ep_Name e) → lower_name (ep_Protocol e) → trimmed_text (ep_HostIP e) → lowerEndpoint (form_of_endpoint e) = Ok e.
Proof.
  intros Hn [[Ht _] Hl] Hip. unfold lowerEndpoint, form_of_endpoint, named. rewrite symbolLabel_named by done. cbn.
  rewrite Ht, Hl, Hip. by destruct e.
Qed.

Lemma mount_back m : lowerMount (form_of_mount m) = Ok m.
Proof. by destruct m as [[v] t r]. Qed.

Lemma env_back e : lowerEnv (form_of_env e) = Ok e.
Proof. by destruct e. Qed.

Lemma resources_back r : res_CPUMillis r ≠ 0%Z ∨ res_MemoryBytes r ≠ 0%Z → lowerResources (form_of_resources r) = Some r.
Proof.
  intros Hr. unfold lowerResources. rewrite map_resources_spec by done. cbn.
  destruct r as [c m]. cbn in *. destruct (Z.eqb_spec c 0), (Z.eqb_spec m 0); [naive_solver|done..].
Qed.

Lemma scheduling_back s : nonEmptyScheduling s = Some s → lowerScheduling (form_of_scheduling s) = Some s.
Proof.
  intros Hs. unfold lowerScheduling. rewrite map_scheduling_spec by done.
  change (strings_at "preferred_nodes" (f_Fields (form_of_scheduling s))) with (stringList (text_list (sch_PreferredNodes s))).
  rewrite stringList_text. cbn. by destruct s.
Qed.

Lemma docker_back d :
  trimmed_text (docker_NetworkMode d) → nonEmptyDockerOptions d = Some d → lowerDockerOptions (form_of_docker d) = Some d.
Proof.
  intros Ht Hd. unfold lowerDockerOptions. rewrite map_docker_spec by done. cbn [text_at flag_at texts_at].
  change (text_at "network_mode" (f_Fields (form_of_docker d))) with (TrimSpace (docker_NetworkMode d)).
  rewrite Ht. cbn. destruct d as [mode p l]; cbn in *. by destruct (String.eqb_spec mode "") as [->|].
Qed.

Lemma containerd_back c : name_text (containerd_Namespace c) → lowerContainerdOptions (form_of_containerd c) = Some c.
Proof.
  intros [Ht Hn]. unfold lowerContainerdOptions. rewrite map_containerd_spec by done. cbn. rewrite Ht.
  destruct c as [n]; cbn in *. by destruct (String.eqb_spec n "").
Qed.

Lemma firecracker_back c :
  Forall trimmed_text [fc_KernelImagePath c; fc_RootfsPath c; fc_BootArgs c; fc_BinaryPath c; fc_SocketPath c;
    fc_NetworkInterfaceID c; fc_TapDeviceName c; fc_GuestMAC c] → firecrackerOptionsEmpty c = false →
  lowerFirecrackerOptions (form_of_firecracker c) = Some c.
Proof.
  intros Ht He. unfold lowerFirecrackerOptions. rewrite map_firecracker_spec by (done || by repeat constructor).
  rewrite !Forall_cons in Ht. unfold trimmed_text in Ht. destruct Ht as (E1 & E2 & E3 & E4 & E5 & E6 & E7 & E8 & _).
  cbn [text_at flag_at int_at get_field f_Fields form_of_firecracker block String.eqb Ascii.eqb Bool.eqb].
  rewrite E1, E2, E3, E4, E5, E6, E7, E8. destruct c; cbn in He |- *. by rewrite He.
Qed.

Lemma process_back p :
  Forall trimmed_text [proc_GracefulStopTimeout p; proc_StdoutPath p; proc_StderrPath p] →
  stringFieldsEmpty [proc_GracefulStopTimeout p; proc_StdoutPath p; proc_StderrPath p] = false →
  lowerProcessOptions (form_of_process p) = Some p.
Proof.
  intros Ht He. unfold lowerProcessOptions. rewrite map_process_spec by (by repeat constructor).
  rewrite !Forall_cons in Ht. unfold trimmed_text in Ht. destruct Ht as (E1 & E2 & E3 & _).
  cbn [text_at get_field f_Fields form_of_process block String.eqb Ascii.eqb Bool.eqb]. rewrite E1, E2, E3.
  destruct p; cbn in He |- *. rewrite andb_true_r, andb_assoc in He. by rewrite He.
Qed.

Lemma systemd_back s :
  let l := [sd_UnitName s; sd_User s; sd_Group s; sd_Restart s; sd_RestartSec s; sd_WantedBy s] in
  Forall trimmed_text l → stringFieldsEmpty l = false → lowerSystemdOptions (form_of_systemd s) = Some s.
Proof.
  intros l Ht He. unfold lowerSystemdOptions. rewrite map_systemd_spec by (by repeat constructor).
  unfold l in Ht. rewrite !Forall_cons in Ht. unfold trimmed_text in Ht. destruct Ht as (E1 & E2 & E3 & E4 & E5 & E6 & _).
  cbn [text_at get_field f_Fields form_of_systemd block String.eqb Ascii.eqb Bool.eqb]. rewrite E1, E2, E3, E4, E5, E6.
  destruct s. unfold l in He. cbn in He |- *. by rewrite He.
Qed.

Lemma windows_back w :
  let l := [win_ServiceName w; win_DisplayName w; win_StartType w] in
  Forall trimmed_text l → stringFieldsEmpty l = false → lowerWindowsServiceOptions (form_of_windows w) = Some w.
Proof.
  intros l Ht He. unfold lowerWindowsServiceOptions. rewrite map_windows_spec by (by repeat constructor).
  unfold l in Ht. rewrite !Forall_cons in Ht. unfold trimmed_text in Ht. destruct Ht as (E1 & E2 & E3 & _).
  cbn [text_at get_field f_Fields form_of_windows block String.eqb Ascii.eqb Bool.eqb]. rewrite E1, E2, E3.
  destruct w. unfold l in He. cbn in He |- *. by rewrite He.
Qed.

Lemma lifecycle_back l :
  trimmed_text (lc_RestartPolicy l) → trimmed_text (lc_RestartDelay l) → lowerLifecycleFromFields (form_of_lifecycle l) = l.
Proof. intros E1 E2. unfold lowerLifecycleFromFields. cbn. rewrite E1, E2. by destruct l. Qed.

Lemma rollout_back r :
  trimmed_text (ro_Strategy r) → trimmed_text (ro_ProgressDeadline r) → lowerRolloutFromFields (form_of_rollout r) = r.
Proof. intros E1 E2. unfold lowerRolloutFromFields. cbn. rewrite E1, E2. by destruct r. Qed.

Lemma merge_empty_lifecycle l : mergeLifecycle (mkLifecycle "" 0 "") l = l.
Proof.
  destruct l as [p m d]. unfold mergeLifecycle. cbn.
  destruct (String.eqb_spec p "") as [->|], (Z.eqb_spec m 0) as [->|], (String.eqb_spec d "") as [->|]; done.
Qed.

Lemma merge_empty_rollout r : mergeRollout (mkRollout "" 0 0 false "") r = r.
Proof.
  destruct r as [s mu ms rb pd]. unfold mergeRollout. cbn. rewrite orb_false_r.
  destruct (String.eqb_spec s "") as [->|], (Z.eqb_spec mu 0) as [->|], (Z.eqb_spec ms 0) as [->|],
    (String.eqb_spec pd "") as [->|]; done.
Qed.
(** *** Probes *)
Lemma probe_fields kind p :
  let f := form_of_probe kind p in
  stringField f "interval" = Some (pr_Interval p) ∧ stringField f "timeout" = Some (pr_Timeout p) ∧
  intField f "retries" = Some (pr_Retries p) ∧ stringField f "start_period" = Some (pr_StartPeriod p) ∧
  stringField f "http" = Some (probe_path p) ∧ stringField f "path" = None ∧
  stringField f "endpoint" = Some (probe_endpoint p) ∧ boolField f "tcp" = Some (probe_tcp p) ∧
  intField f "port" = if (probe_port p =? 0)%Z then None else Some (probe_port p).
Proof.
  unfold stringField, intField, boolField, rawField. cbn. by destruct (probe_port p =? 0)%Z.
Qed.

Lemma probe_back kind p : probe_text p → lowerProbeFromFields (form_of_probe kind p) = Some p.
Proof.
  intros [He Hp Hh Ht Hs]. destruct (probe_fields kind p) as (F1 & F2 & F3 & F4 & F5 & F6 & F7 & F8 & F9).
  set (f := form_of_probe kind p) in *.
  assert (non_blank (Some (probe_path p)) = (if (probe_path p =? "")%string then None else Some (TrimSpace (probe_path p)))) as Epath.
  { unfold non_blank. cbn. destruct (String.eqb_spec (probe_path p) "") as [->|Hn]; [done|].
    destruct Hp as [?|Hp]; [done|]. by destruct (String.eqb_spec (TrimSpace (probe_path p)) ""). }
  assert (probeHTTPPath f = if (probe_path p =? "")%string then None else Some (probe_path p)) as Ehttp.
  { unfold probeHTTPPath. rewrite F5, F6, Epath. by destruct (probe_path p =? "")%string. }
  assert (probeEndpointRef f = mkEndpointRef "" (probe_endpoint p)) as Eep.
  { unfold probeEndpointRef. by rewrite F7, non_blank_default. }
  assert (probeTCPEnabled f = probe_tcp p) as Etcp by (unfold probeTCPEnabled; by rewrite F8).
  assert (attachProbeTransport (lowerProbeTiming f) f = p) as Ea.
  { unfold attachProbeTransport, lowerProbeTiming, shouldAttachHTTPProbe.
    rewrite Ehttp, Eep, Etcp, F1, F2, F3, F4, F9. cbn.
    destruct p as [h t i tm r sp]. cbn [pr_HTTP pr_TCP pr_Interval pr_Timeout pr_Retries pr_StartPeriod] in *.
    set (p := mkProbe h t i tm r sp) in *. f_equal.
    - rewrite Hh. destruct (String.eqb_spec (probe_path p) "") as [->|], (Z.eqb_spec (probe_port p) 0) as [->|]; done.
    - rewrite Ht. by destruct (Z.eqb_spec (probe_port p) 0) as [->|]. }
  unfold lowerProbeFromFields. rewrite Ea. assert (hasProbeFields f = true) as ->; [|done].
  unfold hasProbeFields, hasProbeStringField. cbn [existsb]. rewrite F1, F2, F3, F4, F5, F6, F7, F9, Etcp, Epath.
  assert (∀ s, TrimSpace s ≠ "" → non_blank (Some s) = Some (TrimSpace s)) as Hnb.
  { intros s Hn. unfold non_blank. cbn. by destruct (String.eqb_spec (TrimSpace s) ""). }
  destruct Hs as [Hs|[Hs|[Hs|[Hs|[Hs|Hs]]]]].
  - rewrite (Hnb _ Hs). by rewrite !orb_true_r.
  - rewrite (Hnb _ Hs). by rewrite !orb_true_r.
  - rewrite (Hnb _ Hs). by rewrite !orb_true_r.
  - assert ((default 0 (Some (pr_Retries p)) =? 0)%Z = false) as -> by (by apply Z.eqb_neq).
    by rewrite !orb_true_r.
  - rewrite Hh in Hs. unfold non_blank at 1. cbn. rewrite He.
    destruct (probe_path p =? "")%string; [|by rewrite ?orb_true_r].
    destruct (probe_endpoint p =? "")%string; [|by rewrite !orb_true_r].
    destruct (probe_port p =? 0)%Z eqn:E0; [|cbn; rewrite E0; by rewrite !orb_true_r].
    cbn in Hs. rewrite andb_false_r in Hs. by destruct Hs.
  - rewrite Ht in Hs. destruct (probe_tcp p); [by rewrite !orb_true_r|by destruct Hs].
Qed.

Lemma named_probe_back (h : Health) name o :
  filter (λ g, f_Kind g = name) (f_Forms (form_of_health h)) = opt_block (form_of_probe name) o →
  opt_prop probe_text o → lowerNamedProbe (form_of_health h) name = Ok (Some <$> o).
Proof.
  intros Hp Ho. unfold lowerNamedProbe, childFormsByKind. rewrite Hp.
  destruct o as [p|]; cbn [opt_block]; [|done]. by rewrite probe_back.
Qed.

Lemma health_back h :
  opt_prop probe_text (h_Readiness h) → opt_prop probe_text (h_Liveness h) → opt_prop probe_text (h_Startup h) →
  lowerHealth (form_of_health h) = Ok h.
Proof.
  intros Hr Hl Hs.
  assert (∀ k, filter (λ g, f_Kind g = k) (f_Forms (form_of_health h)) =
        (if ("readiness" =? k)%string then opt_block (form_of_probe "readiness") (h_Readiness h) else [])
        ++ (if ("liveness" =? k)%string then opt_block (form_of_probe "liveness") (h_Liveness h) else [])
        ++ (if ("startup" =? k)%string then opt_block (form_of_probe "startup") (h_Startup h) else [])) as Hf.
  { intros k. unfold form_of_health. cbn [f_Forms]. rewrite !filter_app.
    rewrite (pick_opt _ "readiness"), (pick_opt _ "liveness"), (pick_opt _ "startup") by done. done. }
  unfold lowerHealth, lowerHealthNamedProbes.
  rewrite (named_probe_back h "readiness" (h_Readiness h)), (named_probe_back h "liveness" (h_Liveness h)),
    (named_probe_back h "startup" (h_Startup h)) by (done || (rewrite Hf; cbn; by rewrite ?app_nil_r)).
  cbn [mbind res_bind]. destruct h as [[] [] []]; done.
Qed.

(** *** Options *)
Lemma options_pick o k :
  childFormsByKind (form_of_options o) k =
  (if ("docker" =? k)%string then opt_block form_of_docker (opt_Docker o) else [])
  ++ (if ("containerd" =? k)%string then opt_block form_of_containerd (opt_Containerd o) else [])
  ++ (if ("firecracker" =? k)%string then opt_block form_of_firecracker (opt_Firecracker o) else [])
  ++ (if ("process" =? k)%string then opt_block form_of_process (opt_Process o) else [])
  ++ (if ("systemd" =? k)%string then opt_block form_of_systemd (opt_Systemd o) else [])
  ++ (if ("windows_service" =? k)%string then opt_block form_of_windows (opt_WindowsService o) else []).
Proof.
  unfold childFormsByKind, form_of_options. cbn [f_Forms]. rewrite !filter_app.
  rewrite (pick_opt _ "docker"), (pick_opt _ "containerd"), (pick_opt _ "firecracker"), (pick_opt _ "process"),
    (pick_opt _ "systemd"), (pick_opt _ "windows_service") by done.
  done.
Qed.

Lemma one_option_back {A B} (form : A → HIRForm) (o : option A) scope name (fill : HIRForm → B → B) (b b' : B) :
  match o with Some a => fill (form a) b = b' | None => b = b' end →
  fillOneOption (opt_block form o) scope name fill b = Ok b'.
Proof. destruct o; cbn; by intros ->. Qed.

Lemma merge_docker_none d : nonEmptyDockerOptions d = Some d → mergeDockerOptions None (Some d) = Some d.
Proof.
  intros Hd. unfold mergeDockerOptions, applyDockerOverride. cbn. rewrite orb_false_r, (right_id_L ∅ (∪)).
  assert ((if negb (docker_NetworkMode d =? "")%string then docker_NetworkMode d else "") = docker_NetworkMode d) as ->.
  { by destruct (String.eqb_spec (docker_NetworkMode d) "") as [->|]. }
  by destruct d.
Qed.

Lemma options_back r scope :
  run_text r → fillRuntimeOptionForms (form_of_options (run_Options r)) scope (mkRunOptions None None None None None None)
    = Ok (run_Options r).
Proof.
  intros [_ Hd Hc Hf Hp Hs Hw]. destruct (run_Options r) as [d c fc p s w]. cbn in Hd, Hc, Hf, Hp, Hs, Hw.
  unfold fillRuntimeOptionForms. rewrite !options_pick. cbn [String.eqb Ascii.eqb Bool.eqb app].
  rewrite !app_nil_r. cbn [opt_Docker opt_Containerd opt_Firecracker opt_Process opt_Systemd opt_WindowsService].
  erewrite (one_option_back form_of_docker d).
  2: { instantiate (1 := mkRunOptions d None None None None None). destruct d as [d|]; [|done]. destruct Hd as [Hd1 Hd2].
       rewrite docker_back by done. cbn [opt_Docker opt_Containerd opt_Firecracker opt_Process opt_Systemd opt_WindowsService].
       by rewrite merge_docker_none. }
  cbn [mbind res_bind fillOneOption].
  erewrite (one_option_back form_of_containerd c).
  2: { instantiate (1 := mkRunOptions d c None None None None). destruct c as [c|]; [|done]. cbn. by rewrite containerd_back. }
  cbn [mbind res_bind fillOneOption].
  erewrite (one_option_back form_of_firecracker fc).
  2: { instantiate (1 := mkRunOptions d c fc None None None). destruct fc as [fc|]; [|done]. cbn. destruct Hf. by rewrite firecracker_back. }
  cbn [mbind res_bind fillOneOption].
  erewrite (one_option_back form_of_process p).
  2: { instantiate (1 := mkRunOptions d c fc p None None). destruct p as [p|]; [|done]. cbn. destruct Hp. by rewrite process_back. }
  cbn [mbind res_bind fillOneOption].
  erewrite (one_option_back form_of_systemd s).
  2: { instantiate (1 := mkRunOptions d c fc p s None). destruct s as [s|]; [|done]. cbn. destruct Hs. by rewrite systemd_back. }
  cbn [mbind res_bind fillOneOption].
  apply one_option_back. destruct w as [w|]; [|done]. cbn. destruct Hw. by rewrite windows_back.
Qed.
(** *** Workloads *)
Lemma blocks_pick w k :
  childFormsByKind (form_of_workload w) k =
  (if ("run" =? k)%string then [form_of_run (w_Run w)] else [])
  ++ (if ("runtime_options" =? k)%string then [form_of_options (run_Options (w_Run w))] else [])
  ++ (if ("endpoint" =? k)%string then form_of_endpoint <$> w_Endpoints w else [])
  ++ (if ("mount" =? k)%string then form_of_mount <$> w_Mounts w else [])
  ++ (if ("env" =? k)%string then form_of_env <$> run_Env (w_Run w) else [])
  ++ (if ("resources" =? k)%string then opt_block form_of_resources (w_Resources w) else [])
  ++ (if ("health" =? k)%string then opt_block form_of_health (w_Health w) else [])
  ++ (if ("lifecycle" =? k)%string then opt_block form_of_lifecycle (w_Lifecycle w) else [])
  ++ (if ("rollout" =? k)%string then opt_block form_of_rollout (w_Rollout w) else [])
  ++ (if ("scheduling" =? k)%string then opt_block form_of_scheduling (w_Scheduling w) else []).
Proof.
  unfold childFormsByKind, form_of_workload, workload_blocks. cbn [f_Forms]. rewrite !filter_app.
  rewrite (pick_fmap _ "endpoint"), (pick_fmap _ "mount"), (pick_fmap _ "env"), (pick_opt _ "resources"),
    (pick_opt _ "health"), (pick_opt _ "lifecycle"), (pick_opt _ "rollout"), (pick_opt _ "scheduling") by done.
  rewrite !pick_cons, filter_nil. change (f_Kind (form_of_run (w_Run w))) with "run".
  change (f_Kind (form_of_options (run_Options (w_Run w)))) with "runtime_options".
  by destruct ("run" =? k)%string, ("runtime_options" =? k)%string.
Qed.

(** The blocks of one kind. *)
Ltac pick_block := rewrite blocks_pick; cbn [String.eqb Ascii.eqb Bool.eqb app]; rewrite ?app_nil_r.

Lemma form_docker_none w : lowerDockerOptions (form_of_workload w) = None.
Proof. unfold lowerDockerOptions. by rewrite map_docker_spec. Qed.

Lemma run_back w d :
  run_text (w_Run w) → df_Docker d = None →
  ∀ w0, w_Run w0 = empty_run →
  fillWorkloadRun d w0 (form_of_workload w) = Ok (set_run (set_env [] (w_Run w)) w0).
Proof.
  intros Hr Hd w0 Hw0. pose proof Hr as [Ha _ _ _ _ _ _]. unfold fillWorkloadRun.
  assert (childFormsByKind (form_of_workload w) "run" = [form_of_run (w_Run w)]) as -> by (by pick_block).
  rewrite Hw0. cbn [mbind res_bind].
  assert (fillRun empty_run (form_of_run (w_Run w)) =
    set_options (mkRunOptions None None None None None None) (set_env [] (w_Run w))) as ->.
  { rewrite !Forall_cons in Ha. unfold trimmed_text in Ha. destruct Ha as (E1 & E2 & E3 & E4 & _).
    unfold fillRun, fillArtifactFromFields, fillExecFromFields, fillProcessIdentityFromFields, set_artifact, set_exec.
    cbn [run_Artifact run_Exec run_Env run_Cwd run_User run_Options stringField rawField get_field f_Fields form_of_run block
      String.eqb Ascii.eqb Bool.eqb empty_run art_Image art_Path art_URL].
    rewrite !stringList_text, E4, !non_blank_default by done. unfold set_options, set_env. cbn.
    by destruct (w_Run w) as [[] [] ? ? ? ?]. }
  set (r1 := set_options _ _).
  assert (fillRunFromFields r1 (form_of_workload w) = Ok r1) as ->.
  { unfold fillRunFromFields, validateArtifactOverride, fillArtifactFromFields, fillExecFromFields,
      fillProcessIdentityFromFields, set_artifact, set_exec.
    cbn [stringField rawField get_field f_Fields form_of_workload String.eqb Ascii.eqb Bool.eqb non_blank mbind option_bind default].
    destruct r1 as [[im pa ur] [cm ar] env cwd us op]. cbn. rewrite !String.eqb_refl, !andb_false_r. done. }
  cbn [mbind res_bind]. unfold fillRuntimeOptions.
  assert (childFormsByKind (form_of_workload w) "runtime_options" = [form_of_options (run_Options (w_Run w))]) as -> by (by pick_block).
  change (run_Options r1) with (mkRunOptions None None None None None None). rewrite options_back by done.
  cbn [mbind res_bind]. unfold fillDockerOptionsFromFields. rewrite form_docker_none. unfold fillRuntimeOptionForms.
  rewrite !blocks_pick. cbn [String.eqb Ascii.eqb Bool.eqb app fillOneOption mbind res_bind].
  rewrite Hd. do 2 f_equal. unfold r1, set_options, set_env, set_docker. cbn.
  assert (mergeDockerOptionsForRuntime (w_Runtime w0) None (opt_Docker (run_Options (w_Run w))) = opt_Docker (run_Options (w_Run w))) as ->.
  { unfold mergeDockerOptionsForRuntime. destruct (_ && _); [done|]. destruct Hr as [_ Hdk _ _ _ _ _].
    destruct (opt_Docker (run_Options (w_Run w))) as [dk|]; [|done]. destruct Hdk. by apply merge_docker_none. }
  by destruct (w_Run w) as [? ? ? ? ? []].
Qed.

Lemma wrap_Ok {A} fmt args (a : A) : wrap fmt args (Ok a) = Ok a.
Proof. done. Qed.

Lemma deps_back l :
  Forall (λ r, wr_Condition r = "") l → workloadRefList (VList ((λ r, VRef "workload" (wr_Name r)) <$> l)) = l.
Proof. intros Hl. unfold workloadRefList. induction Hl as [|[n c] l Hc _ IH]; [done|]. cbn in *. subst c. by f_equal. Qed.

Lemma scheduling_merge_back w :
  workload_text w → ∀ w0, w_Kind w0 = w_Kind w →
  fillWorkloadScheduling w0 (form_of_workload w) = Ok (set_scheduling (w_Scheduling w) w0).
Proof.
  intros Hw w0 Hk. pose proof (wt_scheduling _ Hw) as Hs. pose proof (wt_stateful _ Hw) as Hst.
  unfold fillWorkloadScheduling. rewrite Hk.
  assert (lowerSchedulingFromFields (form_of_workload w) (w_Kind w =? WorkloadKindStateful)%string =
    if (w_Kind w =? WorkloadKindStateful)%string then Some (mkScheduling true false []) else None) as ->.
  { unfold lowerSchedulingFromFields. rewrite map_scheduling_spec by done. cbn.
    by destruct (w_Kind w =? WorkloadKindStateful)%string. }
  assert (childFormsByKind (form_of_workload w) "scheduling" = opt_block form_of_scheduling (w_Scheduling w)) as -> by (by pick_block).
  destruct (String.eqb_spec (w_Kind w) WorkloadKindStateful) as [E|_].
  - destruct (Hst E) as (s & Es & Htrue). rewrite Es in *. cbn [opt_block]. rewrite scheduling_back by done.
    do 2 f_equal. destruct s as [st al pn]. cbn in Htrue. subst st. cbn. unfold nonEmptyScheduling. cbn.
    rewrite orb_false_r. by destruct pn.
  - destruct (w_Scheduling w) as [s|]; cbn [opt_block]; [|done]. by rewrite scheduling_back.
Qed.

(** Each step of the lowering sets its part of the workload. *)
Section steps.
Variable w : Workload.
Hypothesis Hw : workload_text w.

Lemma base_back d :
  lowerWorkloadBase (form_of_workload w) d =
  Ok (mkWorkload (w_Name w) (w_Kind w) empty_run (w_Runtime w) 0 [] [] [] None None None None None).
Proof.
  pose proof (wt_kind _ Hw) as [Hk1 Hk2]. pose proof (wt_runtime _ Hw) as [Hr1 Hr2]. unfold lowerWorkloadBase.
  assert (symbolLabelName (form_of_workload w) = Ok (w_Name w)) as -> by (by apply symbolLabel_named, Hw).
  rewrite wrap_Ok. cbn [mbind res_bind].
  assert (workloadKind (form_of_workload w) = Ok (w_Kind w)) as ->.
  { unfold workloadKind. cbn [f_Kind form_of_workload String.eqb Ascii.eqb Bool.eqb].
    change (stringField (form_of_workload w) "kind") with (Some (w_Kind w)). rewrite non_blank_name by done. by rewrite Hk2. }
  assert (workloadRuntime (form_of_workload w) d = w_Runtime w) as ->; [|done].
  unfold workloadRuntime. change (stringField (form_of_workload w) "runtime") with (Some (w_Runtime w)).
  by rewrite non_blank_name.
Qed.

Lemma core_back w0 : fillWorkloadCore w0 (form_of_workload w) = Ok (set_core (w_Replicas w) (w_DependsOn w) w0).
Proof.
  change (Ok (set_core (w_Replicas w) (workloadRefList (VList ((λ r, VRef "workload" (wr_Name r)) <$> w_DependsOn w))) w0)
    = Ok (set_core (w_Replicas w) (w_DependsOn w) w0)).
  by rewrite deps_back by (by apply Hw).
Qed.

Lemma endpoints_back w0 :
  w_Endpoints w0 = [] → fillWorkloadEndpoints w0 (form_of_workload w) = Ok (set_endpoints (w_Endpoints w) w0).
Proof.
  intros E0. unfold fillWorkloadEndpoints.
  assert (lower_each lowerEndpoint (childFormsByKind (form_of_workload w) "endpoint") = Ok (w_Endpoints w)) as ->.
  { pick_block. apply lower_each_ok. eapply Forall_impl; [apply (wt_endpoints _ Hw)|].
    intros e (? & ? & ?). by apply endpoint_back. }
  rewrite E0. cbn. by rewrite app_nil_r.
Qed.

Lemma mounts_back w0 : w_Mounts w0 = [] → fillWorkloadMounts w0 (form_of_workload w) = Ok (set_mounts (w_Mounts w) w0).
Proof.
  intros E0. unfold fillWorkloadMounts.
  assert (lower_each lowerMount (childFormsByKind (form_of_workload w) "mount") = Ok (w_Mounts w)) as ->.
  { pick_block. apply lower_each_ok, Forall_forall. intros m _. apply mount_back. }
  by rewrite E0.
Qed.

Lemma envs_back w0 :
  run_Env (w_Run w0) = [] →
  fillWorkloadEnv w0 (form_of_workload w) = Ok (set_run (set_env (run_Env (w_Run w)) (w_Run w0)) w0).
Proof.
  intros E0. unfold fillWorkloadEnv.
  assert (lower_each lowerEnv (childFormsByKind (form_of_workload w) "env") = Ok (run_Env (w_Run w))) as ->.
  { pick_block. apply lower_each_ok, Forall_forall. intros e _. apply env_back. }
  by rewrite E0.
Qed.

Lemma resource_step_back w0 : fillWorkloadResources w0 (form_of_workload w) = Ok (set_resources (w_Resources w) w0).
Proof.
  unfold fillWorkloadResources, lowerWorkloadResources.
  change (lowerResourceFields (form_of_workload w)) with (Ok (@None Resources)). cbn [mbind res_bind]. pick_block.
  pose proof (wt_resources _ Hw) as Hres.
  destruct (w_Resources w) as [r|]; cbn [opt_block mergeResourceBlock]; [|done]. by rewrite resources_back.
Qed.

Lemma health_step_back w0 :
  w_Health w0 = None → fillWorkloadHealth w0 (form_of_workload w) = Ok (set_health (w_Health w) w0).
Proof.
  intros E0. unfold fillWorkloadHealth. pick_block. pose proof (wt_health _ Hw) as Hh.
  destruct (w_Health w) as [h|]; cbn [opt_block]; [|by destruct w0; cbn in E0; subst].
  destruct Hh as (? & ? & ?). by rewrite health_back.
Qed.

Lemma lifecycle_step_back w0 :
  w_Lifecycle w0 = None → fillWorkloadLifecycle w0 (form_of_workload w) = Ok (set_lifecycle (w_Lifecycle w) w0).
Proof.
  intros E0. unfold fillWorkloadLifecycle. pick_block. pose proof (wt_lifecycle _ Hw) as Hl.
  change (lowerLifecycleFromFields (form_of_workload w)) with (mkLifecycle "" 0 "").
  destruct (w_Lifecycle w) as [l|]; cbn [opt_block]; [|by destruct w0; cbn in E0; subst].
  destruct Hl as (? & ? & He). rewrite lifecycle_back, merge_empty_lifecycle by done. by rewrite He.
Qed.

Lemma rollout_step_back w0 :
  w_Rollout w0 = None → fillWorkloadRollout w0 (form_of_workload w) = Ok (set_rollout (w_Rollout w) w0).
Proof.
  intros E0. unfold fillWorkloadRollout. pick_block. pose proof (wt_rollout _ Hw) as Hro.
  change (lowerRolloutFromFields (form_of_workload w)) with (mkRollout "" 0 0 false "").
  destruct (w_Rollout w) as [r|]; cbn [opt_block]; [|by destruct w0; cbn in E0; subst].
  destruct Hro as (? & ? & He). rewrite rollout_back, merge_empty_rollout by done. by rewrite He.
Qed.

Lemma workload_back d : df_Docker d = None → lowerWorkload (form_of_workload w) d = Ok w.
Proof.
  intros Hd. unfold lowerWorkload. rewrite base_back. cbn [mbind res_bind].
  unfold workloadLoweringSteps, range_fold. cbn [range_fold_from].
  rewrite core_back, wrap_Ok. cbn [mbind res_bind].
  rewrite (run_back w d) by (done || by apply Hw). rewrite wrap_Ok. cbn [mbind res_bind].
  rewrite endpoints_back, wrap_Ok by done. cbn [mbind res_bind].
  rewrite mounts_back, wrap_Ok by done. cbn [mbind res_bind].
  rewrite envs_back, wrap_Ok by done. cbn [mbind res_bind].
  rewrite resource_step_back, wrap_Ok. cbn [mbind res_bind].
  rewrite health_step_back, wrap_Ok by done. cbn [mbind res_bind].
  rewrite lifecycle_step_back, wrap_Ok by done. cbn [mbind res_bind].
  rewrite rollout_step_back, wrap_Ok by done. cbn [mbind res_bind].
  rewrite (scheduling_merge_back w Hw), wrap_Ok by done. cbn [mbind res_bind].
  by destruct w as [? ? [] ? ? ? ? ? ? ? ? ? ?].
Qed.
End steps.
(** *** Documents *)
Lemma app_pick a k :
  childFormsByKind (form_of_app a) k =
  (if ("workload" =? k)%string then form_of_workload <$> app_Workloads a else [])
  ++ (if ("config" =? k)%string then form_of_config <$> app_Configs a else [])
  ++ (if ("secret" =? k)%string then form_of_secret <$> app_Secrets a else [])
  ++ (if ("volume" =? k)%string then form_of_volume <$> app_Volumes a else [])
  ++ (if ("ingress" =? k)%string then form_of_ingress <$> app_Ingresses a else []).
Proof.
  unfold childFormsByKind, form_of_app, app_blocks. cbn [f_Forms]. rewrite !filter_app.
  rewrite (pick_fmap _ "workload"), (pick_fmap _ "config"), (pick_fmap _ "secret"), (pick_fmap _ "volume"),
    (pick_fmap _ "ingress") by done.
  done.
Qed.

Lemma pick_kinds_all {A} (f : A → HIRForm) k l :
  (∀ a, f_Kind (f a) = k) →
  filter (λ g, f_Kind g ∈ workload_kinds) (f <$> l) = if bool_decide (k ∈ workload_kinds) then f <$> l else [].
Proof.
  intros Hk. induction l as [|a l IH]; [by case_bool_decide|]. cbn [fmap list_fmap]. rewrite filter_cons, Hk.
  fold (f <$> l). rewrite IH. by case_bool_decide; case_decide.
Qed.

Lemma workloads_pick a : childFormsByKinds (form_of_app a) workload_kinds = form_of_workload <$> app_Workloads a.
Proof.
  unfold childFormsByKinds, form_of_app, app_blocks. cbn [f_Forms]. rewrite !filter_app.
  rewrite (pick_kinds_all _ "workload"), (pick_kinds_all _ "config"), (pick_kinds_all _ "secret"),
    (pick_kinds_all _ "volume"), (pick_kinds_all _ "ingress") by done.
  change (bool_decide ("workload" ∈ workload_kinds)) with true. change (bool_decide ("config" ∈ workload_kinds)) with false.
  change (bool_decide ("secret" ∈ workload_kinds)) with false. change (bool_decide ("volume" ∈ workload_kinds)) with false.
  change (bool_decide ("ingress" ∈ workload_kinds)) with false. by rewrite !app_nil_r.
Qed.

Lemma data_back what kind name (m : gmap string string) :
  name_text name → m ≠ ∅ → lower_data what (named kind name [("data", VStringMap m)]) = Ok (name, m).
Proof.
  intros Hn Hm. unfold lower_data, named. rewrite symbolLabel_named by done. cbn.
  destruct (Nat.eqb_spec (size m) 0) as [E|]; [|done]. by apply map_size_empty_inv in E.
Qed.

Lemma ingress_back eps i : name_text (ing_Name i) → lowerIngress eps (form_of_ingress i) = Ok i.
Proof.
  intros Hn. unfold lowerIngress.
  assert (symbolLabelName (form_of_ingress i) = Ok (ing_Name i)) as -> by (by apply symbolLabel_named).
  rewrite wrap_Ok. cbn [mbind res_bind].
  assert (lower_each lowerRoute (childFormsByKind (form_of_ingress i) "route") = Ok (ing_Routes i)) as ->.
  { unfold childFormsByKind, form_of_ingress. cbn [f_Forms]. rewrite (pick_fmap _ "route") by done. cbn [String.eqb Ascii.eqb Bool.eqb].
    apply lower_each_ok, Forall_forall. by intros [p [w e]] _. }
  assert (lower_each (lowerPathRoute eps) (childFormsByKind (form_of_ingress i) "path") = Ok []) as ->.
  { unfold childFormsByKind, form_of_ingress. cbn [f_Forms]. by rewrite (pick_fmap _ "route"). }
  cbn. rewrite app_nil_r. by destruct i.
Qed.

Theorem lower_back a name : app_text a → appFromCompileResult name (Ok (Some [form_of_app a])) = Ok a.
Proof.
  intros Ha. unfold appFromCompileResult. rewrite wrap_Ok. cbn [mbind res_bind]. unfold lowerHIRWithMapper.
  rewrite pick_cons. change (f_Kind (form_of_app a) =? "app")%string with true. cbn [filter list_filter].
  unfold lowerApp, lowerAppMetadata, lowerAppDefaults, lowerAppWorkloads.
  rewrite workloads_pick, !app_pick. cbn [String.eqb Ascii.eqb Bool.eqb app]. rewrite !app_nil_r.
  destruct (at_meta _ Ha) as [Hn Hns].
  assert (lowerMetadata (form_of_app a) = Ok (app_Metadata a)) as ->.
  { unfold lowerMetadata. change (stringField (form_of_app a) "name") with (Some (md_Name (app_Metadata a))).
    rewrite non_blank_name by done. cbn. rewrite Hns. by destruct (app_Metadata a). }
  change (stringField (form_of_app a) "runtime") with (@None string). cbn [mbind res_bind non_blank option_bind].
  rewrite (lower_each_ok (λ f, lowerWorkload f (mkDefaults RuntimeDocker None)) form_of_workload).
  2: { eapply Forall_impl; [apply (at_workloads _ Ha)|]. intros w Hw. by apply workload_back. }
  cbn [mbind res_bind]. rewrite (lower_each_ok lowerConfig form_of_config).
  2: { eapply Forall_impl; [apply (at_configs _ Ha)|]. intros c [? ?]. unfold lowerConfig, form_of_config.
       rewrite data_back by done. by destruct c. }
  cbn [mbind res_bind]. rewrite (lower_each_ok lowerSecret form_of_secret).
  2: { eapply Forall_impl; [apply (at_secrets _ Ha)|]. intros c [? ?]. unfold lowerSecret, form_of_secret.
       rewrite data_back by done. by destruct c. }
  cbn [mbind res_bind]. rewrite (lower_each_ok lowerVolume form_of_volume).
  2: { eapply Forall_impl; [apply (at_volumes _ Ha)|]. intros v Hv. unfold lowerVolume, form_of_volume, named.
       rewrite symbolLabel_named by done. by destruct v. }
  cbn [mbind res_bind]. rewrite (lower_each_ok (lowerIngress _) form_of_ingress).
  2: { eapply Forall_impl; [apply (at_ingresses _ Ha)|]. intros i Hi. by apply ingress_back. }
  cbn. destruct (at_version _ Ha). destruct a. by cbn in *; subst.
Qed.
(** ** Short forms *)
Definition mapper_typed (fs : list (string * value)) : Prop :=
  has_text "network_mode" fs ∧ has_flag "privileged" fs ∧ has_texts "labels" fs ∧
  has_flag "stateful" fs ∧ has_flag "allow_leader" fs ∧ has_strings "preferred_nodes" fs.

Section short.
Variables (kind name : string) (fs : list (string * value)) (forms : list HIRForm) (calls : list HIRCall).
Hypothesis Hkind : kind ∈ [WorkloadKindService; WorkloadKindStateful; WorkloadKindWorker].
Hypothesis Hname : name_text name.
Hypothesis Htyped : mapper_typed fs.

Definition short_form : HIRForm := mkForm kind (Some (LabelSymbol, name)) fs forms calls.
Definition long_form : HIRForm := mkForm "workload" (Some (LabelSymbol, name)) (("kind", VString kind) :: fs) forms calls.

Lemma short_docker : lowerDockerOptions short_form = lowerDockerOptions long_form.
Proof.
  destruct Htyped as (T1 & T2 & T3 & _). unfold lowerDockerOptions, short_form, long_form. cbn [f_Fields].
  rewrite (map_docker_spec fs), (map_docker_spec (("kind", VString kind) :: fs)) by done. reflexivity.
Qed.

Lemma short_scheduling w : fillWorkloadScheduling w short_form = fillWorkloadScheduling w long_form.
Proof.
  destruct Htyped as (_ & _ & _ & T4 & T5 & T6).
  unfold fillWorkloadScheduling, lowerSchedulingFromFields, short_form, long_form. cbn [f_Fields].
  rewrite (map_scheduling_spec fs), (map_scheduling_spec (("kind", VString kind) :: fs)) by done. reflexivity.
Qed.

Lemma short_run d w : fillWorkloadRun d w short_form = fillWorkloadRun d w long_form.
Proof.
  unfold fillWorkloadRun.
  change (childFormsByKind short_form) with (childFormsByKind long_form).
  assert (∀ r, fillRunFromFields r short_form = fillRunFromFields r long_form) as Hr by reflexivity.
  assert (∀ o, fillRuntimeOptions o short_form = fillRuntimeOptions o long_form) as Ho by reflexivity.
  assert (∀ o, fillDockerOptionsFromFields o short_form = fillDockerOptionsFromFields o long_form) as Hd.
  { intros o. unfold fillDockerOptionsFromFields. by rewrite short_docker. }
  destruct (match childFormsByKind long_form "run" with [] => _ | _ => _ end) as [r|e]; [|done].
  cbn [mbind res_bind]. rewrite Hr. destruct (fillRunFromFields r long_form) as [r1|e]; [|done].
  cbn [mbind res_bind]. rewrite Ho. destruct (fillRuntimeOptions (run_Options r1) long_form) as [o1|e]; [|done].
  cbn [mbind res_bind]. by rewrite Hd.
Qed.

Lemma short_base d : lowerWorkloadBase short_form d = lowerWorkloadBase long_form d.
Proof.
  unfold lowerWorkloadBase, short_form, long_form. rewrite !symbolLabel_named by done. rewrite !wrap_Ok. cbn [mbind res_bind].
  rewrite !elem_of_cons, elem_of_nil in Hkind. destruct Hkind as [->|[->|[->|[]]]]; reflexivity.
Qed.

(** A short workload form is the long form with the kind as a field. *)
Theorem short_form_long d : lowerWorkload short_form d = lowerWorkload long_form d.
Proof.
  unfold lowerWorkload. rewrite short_base. destruct (lowerWorkloadBase long_form d) as [w|e]; [|done].
  cbn [mbind res_bind]. unfold workloadLoweringSteps, range_fold. cbn [range_fold_from].
  assert (∀ step w, step ∈ [fillWorkloadCore; fillWorkloadEndpoints; fillWorkloadMounts; fillWorkloadEnv;
     fillWorkloadResources; fillWorkloadHealth; fillWorkloadLifecycle; fillWorkloadRollout] →
    step w short_form = step w long_form) as Hs.
  { intros step v. rewrite !elem_of_cons, elem_of_nil.
    intros [->|[->|[->|[->|[->|[->|[->|[->|[]]]]]]]]]; reflexivity. }
  repeat match goal with
  | |- (mbind _ (wrap _ _ (fillWorkloadRun d ?v short_form))) = _ => rewrite (short_run d v)
  | |- (mbind _ (wrap _ _ (fillWorkloadScheduling ?v short_form))) = _ => rewrite (short_scheduling v)
  | |- (mbind _ (wrap _ _ (?step ?v short_form))) = _ => rewrite (Hs step v) by set_solver
  | |- mbind _ ?m = mbind _ ?m => destruct m as [?|?]; [cbn [mbind res_bind]|done]
  end.
  done.
Qed.
End short.
End roundtrip.

(** Values that resource texts do not keep: a decimal CPU count is truncated after it was
    rounded to a double. *)
Example cpu_loses_a_milli `{DslLib} : parseCPUMillis "1.001" = Ok 1000%Z ∧ parseCPUMillis "1001m" = Ok 1001%Z.
Proof. vm_compute. done. Qed.

(** An empty readiness block discards the probe that the fields of the health block give. *)
Example empty_block_discards_probe `{DslLib} :
  lowerHealth (mkForm "health" None [("http", VString "/ready")] [] []) =
    Ok (mkHealth (Some (mkProbe (Some (mkHTTPProbe "/ready" (mkEndpointRef "" "") 0)) None "" "" 0 "")) None None) ∧
  lowerHealth (mkForm "health" None [("http", VString "/ready")] [block "readiness" []] []) = Ok (mkHealth None None None).
Proof. vm_compute. done. Qed.
