(* ===== verification/OrchSchema.v ===== *)
(** * The forms of the .orch language and the manifest loader (internal/deploy/orch: register*.go,
      internal/deploy/loader)

    The forms and actions that are registered with the compiler, what it means for a tree of
    forms to be within them, and the loading of a manifest of either format. *)
From stdpp Require Import base strings numbers gmap list.
From Stdlib Require Import Ascii SpecFloat.
From S2P Require Import Prelude GoStrings GoTime GoNet GoList Deploy Meta GoText Placement Fsm TaskBase TaskRun GoFloat OrchDsl OrchDslSpec.

(** ** The schema's data (documentation texts left out) *)
Inductive FieldType :=
| TypeString | TypeInt | TypeBool
| MapType (Elem : FieldType) | ListType (Elem : FieldType) | RefType (Kind : string).

(** [fs_Default] is present when [HasDefault] is set. *)
Record FieldSpec := mkField { fs_Name : string; fs_Type : FieldType; fs_Required : bool; fs_Default : option value }.
Inductive BodyMode := BodyFieldOnly | BodyFormOnly | BodyMixed | BodyScript.
Record FormSpec := mkSpec {
  sp_Name : string; sp_LabelKind : LabelKind; sp_LabelRefKind : string; sp_Declares : string; sp_BodyMode : BodyMode;
  sp_Fields : list FieldSpec; sp_NestedForms : list string }.
Record ActionSpec := mkAction { as_Name : string; as_MinArgs : nat; as_MaxArgs : nat; as_ArgTypes : list FieldType }.

Definition field (name : string) (t : FieldType) : FieldSpec := mkField name t false None.
Definition required (name : string) (t : FieldType) : FieldSpec := mkField name t true None.
Definition defaulted (name : string) (t : FieldType) (v : value) : FieldSpec := mkField name t false (Some v).
(** A form without a label, and one whose label declares a symbol of a kind. *)
Definition plain_spec (name : string) (mode : BodyMode) (fields : list FieldSpec) (nested : list string) : FormSpec :=
  mkSpec name LabelNone "" "" mode fields nested.
Definition symbol_spec (name kind : string) (mode : BodyMode) (fields : list FieldSpec) (nested : list string) : FormSpec :=
  mkSpec name LabelSymbol kind kind mode fields nested.

(** ** register_app_forms.go *)
Definition appFormSpecs : list FormSpec :=
  [plain_spec "app" BodyMixed
     [field "name" TypeString; field "namespace" TypeString; field "labels" (MapType TypeString);
      field "annotations" (MapType TypeString); defaulted "runtime" TypeString (VString "docker")]
     ["metadata"; "docker"; "workload"; "service"; "stateful"; "worker"; "config"; "secret"; "volume"; "ingress"];
   plain_spec "metadata" BodyFieldOnly
     [required "name" TypeString; field "namespace" TypeString; field "labels" (MapType TypeString);
      field "annotations" (MapType TypeString)] []].

(** ** register_workload_forms.go *)
Definition dependsOnFieldSpec : FieldSpec := defaulted "depends_on" (ListType (RefType "workload")) (VList []).
Definition workloadNestedForms : list string :=
  ["run"; "runtime_options"; "docker"; "containerd"; "podman"; "firecracker"; "process"; "systemd"; "windows_service";
   "endpoint"; "mount"; "env"; "resources"; "health"; "lifecycle"; "rollout"; "scheduling"].
Definition shorthandWorkloadFields : list FieldSpec :=
  [field "runtime" TypeString; field "image" TypeString; field "path" TypeString; field "url" TypeString;
   defaulted "command" (ListType TypeString) (VList []); defaulted "args" (ListType TypeString) (VList []);
   field "cwd" TypeString; field "user" TypeString; field "env" (MapType TypeString); field "resources" TypeString;
   field "cpu_millis" TypeInt; field "memory_bytes" TypeInt; defaulted "replicas" TypeInt (VInt 0); dependsOnFieldSpec;
   field "restart_policy" TypeString; field "max_restarts" TypeInt; field "restart_delay" TypeString;
   field "network" TypeString; field "network_mode" TypeString; defaulted "privileged" TypeBool (VBool false);
   field "labels" (MapType TypeString); defaulted "allow_leader" TypeBool (VBool false);
   defaulted "preferred_nodes" (ListType TypeString) (VList [])].
Definition workloadFormSpec : FormSpec :=
  symbol_spec "workload" "workload" BodyScript
    [required "kind" TypeString; required "runtime" TypeString; defaulted "replicas" TypeInt (VInt 0); dependsOnFieldSpec;
     field "restart_policy" TypeString; field "max_restarts" TypeInt; field "restart_delay" TypeString] workloadNestedForms.
Definition shorthandWorkloadForm (name : string) : FormSpec :=
  symbol_spec name "workload" BodyScript shorthandWorkloadFields workloadNestedForms.
Definition runFormSpec : FormSpec :=
  plain_spec "run" BodyFieldOnly
    [field "image" TypeString; field "path" TypeString; field "url" TypeString;
     defaulted "command" (ListType TypeString) (VList []); defaulted "args" (ListType TypeString) (VList []);
     field "cwd" TypeString; field "user" TypeString] [].
Definition endpointFormSpec : FormSpec :=
  symbol_spec "endpoint" "endpoint" BodyFieldOnly
    [required "port" TypeInt; required "protocol" TypeString; field "host_port" TypeInt; field "host_ip" TypeString] [].
Definition mountFormSpec : FormSpec :=
  plain_spec "mount" BodyFieldOnly
    [required "volume" TypeString; required "target" TypeString; defaulted "read_only" TypeBool (VBool false)] [].
Definition envFormSpec : FormSpec :=
  plain_spec "env" BodyFieldOnly [required "name" TypeString; required "value" TypeString] [].
Definition resourcesFormSpec : FormSpec :=
  plain_spec "resources" BodyFieldOnly [field "cpu_millis" TypeInt; field "memory_bytes" TypeInt] [].
Definition probeFieldSpecs : list FieldSpec :=
  [field "http" TypeString; field "path" TypeString; defaulted "tcp" TypeBool (VBool false); field "endpoint" TypeString;
   field "port" TypeInt; field "interval" TypeString; field "timeout" TypeString; field "retries" TypeInt;
   field "start_period" TypeString].
Definition probeFormSpec (name : string) : FormSpec := plain_spec name BodyFieldOnly probeFieldSpecs [].
Definition readinessFormSpec : FormSpec := probeFormSpec "readiness".
Definition livenessFormSpec : FormSpec := probeFormSpec "liveness".
Definition startupFormSpec : FormSpec := probeFormSpec "startup".
Definition healthFormSpec : FormSpec :=
  plain_spec "health" BodyMixed probeFieldSpecs ["readiness"; "liveness"; "startup"].
Definition lifecycleFormSpec : FormSpec :=
  plain_spec "lifecycle" BodyFieldOnly
    [field "restart_policy" TypeString; field "max_restarts" TypeInt; field "restart_delay" TypeString] [].
Definition rolloutFormSpec : FormSpec :=
  plain_spec "rollout" BodyFieldOnly
    [field "strategy" TypeString; field "max_unavailable" TypeInt; field "max_surge" TypeInt;
     defaulted "rollback_on_failure" TypeBool (VBool false); field "progress_deadline" TypeString] [].
Definition schedulingFormSpec : FormSpec :=
  plain_spec "scheduling" BodyFieldOnly
    [defaulted "stateful" TypeBool (VBool false); defaulted "allow_leader" TypeBool (VBool false);
     defaulted "preferred_nodes" (ListType TypeString) (VList [])] [].
Definition workloadFormSpecs : list FormSpec :=
  [workloadFormSpec; shorthandWorkloadForm "service"; shorthandWorkloadForm "stateful"; shorthandWorkloadForm "worker";
   runFormSpec; endpointFormSpec; mountFormSpec; envFormSpec; resourcesFormSpec; healthFormSpec; lifecycleFormSpec;
   rolloutFormSpec; readinessFormSpec; livenessFormSpec; startupFormSpec;
   plain_spec "runtime_options" BodyFormOnly []
     ["docker"; "containerd"; "podman"; "firecracker"; "process"; "systemd"; "windows_service"];
   schedulingFormSpec].

(** ** register_runtime_forms.go *)
Definition dockerFormSpec : FormSpec :=
  plain_spec "docker" BodyFieldOnly
    [field "network" TypeString; field "network_mode" TypeString; defaulted "privileged" TypeBool (VBool false);
     field "labels" (MapType TypeString)] [].
Definition podmanFormSpec : FormSpec :=
  plain_spec "podman" BodyFieldOnly
    [field "network" TypeString; field "network_mode" TypeString; defaulted "privileged" TypeBool (VBool false);
     field "labels" (MapType TypeString)] [].
Definition containerdFormSpec : FormSpec := plain_spec "containerd" BodyFieldOnly [field "namespace" TypeString] [].
Definition firecrackerFormSpec : FormSpec :=
  plain_spec "firecracker" BodyFieldOnly
    [field "kernel_image_path" TypeString; field "rootfs_path" TypeString; field "boot_args" TypeString;
     field "binary_path" TypeString; field "socket_path" TypeString; field "rootfs_read_only" TypeBool;
     field "network_interface_id" TypeString; field "tap_device_name" TypeString; field "guest_mac" TypeString;
     field "allow_mmds_requests" TypeBool; field "vcpu_count" TypeInt; field "mem_size_mib" TypeInt] [].
Definition processFormSpec : FormSpec :=
  plain_spec "process" BodyFieldOnly
    [field "graceful_stop_timeout" TypeString; field "stdout_path" TypeString; field "stderr_path" TypeString] [].
Definition systemdFormSpec : FormSpec :=
  plain_spec "systemd" BodyFieldOnly
    [field "unit_name" TypeString; field "user" TypeString; field "group" TypeString; field "restart" TypeString;
     field "restart_sec" TypeString; field "wanted_by" TypeString] [].
Definition windowsServiceFormSpec : FormSpec :=
  plain_spec "windows_service" BodyFieldOnly
    [field "service_name" TypeString; field "display_name" TypeString; field "start_type" TypeString] [].
Definition runtimeOptionFormSpecs : list FormSpec :=
  [dockerFormSpec; containerdFormSpec; podmanFormSpec; firecrackerFormSpec; processFormSpec; systemdFormSpec;
   windowsServiceFormSpec].

(** ** register_object_forms.go *)
Definition configFormSpec : FormSpec :=
  symbol_spec "config" "config" BodyFieldOnly [required "data" (MapType TypeString)] [].
Definition secretFormSpec : FormSpec :=
  symbol_spec "secret" "secret" BodyFieldOnly [required "data" (MapType TypeString)] [].
Definition volumeFormSpec : FormSpec :=
  symbol_spec "volume" "volume" BodyFieldOnly
    [defaulted "persistent" TypeBool (VBool false); field "size_bytes" TypeInt] [].
Definition ingressFormSpec : FormSpec :=
  symbol_spec "ingress" "ingress" BodyMixed [field "host" TypeString] ["route"; "path"].
Definition routeFormSpec : FormSpec :=
  plain_spec "route" BodyFieldOnly
    [required "path" TypeString; required "backend_workload" TypeString; required "backend_endpoint" TypeString] [].
Definition pathFormSpec : FormSpec :=
  mkSpec "path" LabelString "" "" BodyFieldOnly
    [required "workload" (RefType "workload"); field "endpoint" TypeString] [].
Definition objectFormSpecs : list FormSpec :=
  [configFormSpec; secretFormSpec; volumeFormSpec; ingressFormSpec; routeFormSpec; pathFormSpec].

(** ** register.go, register_actions.go *)
Definition orchFormSpecs : list FormSpec :=
  appFormSpecs ++ workloadFormSpecs ++ runtimeOptionFormSpecs ++ objectFormSpecs.
Definition orchActionSpecs : list ActionSpec :=
  [mkAction "http" 1 4 [TypeInt; TypeString; TypeInt; TypeString];
   mkAction "tcp" 1 4 [TypeInt; TypeString; TypeInt; TypeString];
   mkAction "udp" 1 4 [TypeInt; TypeString; TypeInt; TypeString];
   mkAction "port" 2 5 [TypeInt; TypeString; TypeString; TypeInt; TypeString]].

(** ** Within the schema *)
Fixpoint fits (t : FieldType) (v : value) {struct t} : bool :=
  match t, v with
  | TypeString, VString _ | TypeInt, VInt _ | TypeInt, VInt64 _ | TypeBool, VBool _ => true
  | MapType TypeString, VStringMap _ => true
  | MapType t, VOrderedMap l => forallb (λ kv, fits t kv.2) l
  | ListType t, VList l => forallb (fits t) l
  | RefType k, VRef k' _ => (k =? k')%string
  | _, _ => false
  end.
Definition spec_of (kind : string) : option FormSpec := List.find (λ s, sp_Name s =? kind)%string orchFormSpecs.
Definition field_of (s : FormSpec) (name : string) : option FieldSpec :=
  List.find (λ f, fs_Name f =? name)%string (sp_Fields s).
Definition label_fits (k : LabelKind) (l : option (LabelKind * string)) : bool :=
  match k, l with
  | LabelNone, None | LabelSymbol, Some (LabelSymbol, _) | LabelString, Some (LabelString, _) => true
  | _, _ => false
  end.
Definition fields_fit (s : FormSpec) (fs : list (string * value)) : bool :=
  forallb (λ kv, match field_of s kv.1 with Some f => fits (fs_Type f) kv.2 | None => false end) fs
  && forallb (λ f, negb (fs_Required f) || bool_decide (is_Some (get_field (fs_Name f) fs))) (sp_Fields s).
Definition call_fits (c : HIRCall) : bool :=
  match List.find (λ a, as_Name a =? call_Name c)%string orchActionSpecs with
  | Some a => (as_MinArgs a <=? length (call_Args c))%nat && (length (call_Args c) <=? as_MaxArgs a)%nat
              && forallb (λ tv, fits tv.1 tv.2) (zip (as_ArgTypes a) (call_Args c))
  | None => false
  end.
Definition empty_list {A} (l : list A) : bool := match l with [] => true | _ => false end.
Definition body_fits (s : FormSpec) (fs : list (string * value)) (kinds : list string) (cs : list HIRCall) : bool :=
  match sp_BodyMode s with
  | BodyFieldOnly => empty_list kinds && empty_list cs
  | BodyFormOnly => empty_list fs && empty_list cs
  | BodyMixed => empty_list cs
  | BodyScript => forallb call_fits cs
  end && forallb (λ k, bool_decide (k ∈ sp_NestedForms s)) kinds && fields_fit s fs.
Fixpoint conforms (f : HIRForm) : bool :=
  match f with
  | mkForm kind label fs forms cs =>
      match spec_of kind with
      | None => false
      | Some s => label_fits (sp_LabelKind s) label && body_fits s fs (f_Kind <$> forms) cs && forallb conforms forms
      end
  end.

(** Every form is registered once, and so is every form that may be nested in one. *)
Lemma registered_once : NoDup (sp_Name <$> orchFormSpecs) ∧
  Forall (λ s, Forall (λ k, is_Some (spec_of k)) (sp_NestedForms s)) orchFormSpecs.
Proof. split; [vm_compute; repeat constructor; set_solver|]. vm_compute. repeat (constructor; eauto). Qed.

(** ** Printed trees *)
Lemma forallb_fmap_all {A B} (f : A → B) (P : B → bool) l : (∀ a, P (f a) = true) → forallb P (f <$> l) = true.
Proof. intros Hp. induction l as [|a l IH]; [done|]. cbn. by rewrite Hp. Qed.

Lemma kinds_app (l1 l2 : list HIRForm) : f_Kind <$> (l1 ++ l2) = (f_Kind <$> l1) ++ (f_Kind <$> l2).
Proof. apply fmap_app. Qed.

Lemma nested_fmap {A} (f : A → HIRForm) k (ok : list string) l :
  (∀ a, f_Kind (f a) = k) → k ∈ ok → forallb (λ k, bool_decide (k ∈ ok)) (f_Kind <$> (f <$> l)) = true.
Proof.
  intros Hk Hin. induction l as [|a l IH]; [done|]. cbn [fmap list_fmap forallb]. rewrite Hk.
  rewrite bool_decide_true by done. apply IH.
Qed.

Lemma nested_opt {A} (f : A → HIRForm) k (ok : list string) o :
  (∀ a, f_Kind (f a) = k) → k ∈ ok → forallb (λ k, bool_decide (k ∈ ok)) (f_Kind <$> opt_block f o) = true.
Proof. intros Hk Hin. destruct o as [a|]; [|done]. cbn. rewrite Hk. by rewrite bool_decide_true. Qed.

Lemma all_opt {A} (f : A → HIRForm) o : (∀ a, conforms (f a) = true) → forallb conforms (opt_block f o) = true.
Proof. intros Hf. destruct o as [a|]; [|done]. cbn. by rewrite Hf. Qed.

Lemma fits_text_list l : fits (ListType TypeString) (text_list l) = true.
Proof. by apply (forallb_fmap_all VString). Qed.

(** A form without nested forms: only its fields matter, whatever values they hold. *)
Ltac leaf := first [ reflexivity
  | cbn; unfold fields_fit; cbn -[fits]; rewrite ?fits_text_list; reflexivity ].

Lemma fits_refs (l : list WorkloadRef) :
  fits (ListType (RefType "workload")) (VList ((λ r, VRef "workload" (wr_Name r)) <$> l)) = true.
Proof. by apply (forallb_fmap_all (λ r, VRef "workload" (wr_Name r))). Qed.

Lemma conforms_endpoint e : conforms (form_of_endpoint e) = true.
Proof. leaf. Qed.
Lemma conforms_mount m : conforms (form_of_mount m) = true.
Proof. leaf. Qed.
Lemma conforms_env e : conforms (form_of_env e) = true.
Proof. leaf. Qed.
Lemma conforms_run r : conforms (form_of_run r) = true.
Proof. leaf. Qed.
Lemma conforms_docker d : conforms (form_of_docker d) = true.
Proof. leaf. Qed.
Lemma conforms_containerd c : conforms (form_of_containerd c) = true.
Proof. leaf. Qed.
Lemma conforms_firecracker c : conforms (form_of_firecracker c) = true.
Proof. leaf. Qed.
Lemma conforms_process p : conforms (form_of_process p) = true.
Proof. leaf. Qed.
Lemma conforms_systemd s : conforms (form_of_systemd s) = true.
Proof. leaf. Qed.
Lemma conforms_windows w : conforms (form_of_windows w) = true.
Proof. leaf. Qed.
Lemma conforms_resources r : conforms (form_of_resources r) = true.
Proof. leaf. Qed.
Lemma conforms_lifecycle l : conforms (form_of_lifecycle l) = true.
Proof. leaf. Qed.
Lemma conforms_rollout r : conforms (form_of_rollout r) = true.
Proof. leaf. Qed.
Lemma conforms_scheduling s : conforms (form_of_scheduling s) = true.
Proof. leaf. Qed.
Lemma conforms_config c : conforms (form_of_config c) = true.
Proof. leaf. Qed.
Lemma conforms_secret s : conforms (form_of_secret s) = true.
Proof. leaf. Qed.
Lemma conforms_volume v : conforms (form_of_volume v) = true.
Proof. leaf. Qed.
Lemma conforms_route r : conforms (form_of_route r) = true.
Proof. leaf. Qed.
Lemma conforms_probe kind p : kind ∈ ["readiness"; "liveness"; "startup"] → conforms (form_of_probe kind p) = true.
Proof.
  unfold form_of_probe. rewrite !elem_of_cons, elem_of_nil. generalize (probe_port p =? 0)%Z.
  intros [|] [->|[->|[->|[]]]]; leaf.
Qed.

Create HintDb conform.
#[export] Hint Resolve conforms_endpoint conforms_mount conforms_env conforms_run conforms_docker conforms_containerd
  conforms_firecracker conforms_process conforms_systemd conforms_windows conforms_resources conforms_lifecycle
  conforms_rollout conforms_scheduling conforms_config conforms_secret conforms_volume conforms_route : conform.

(** The body of a form with nested forms, part by part. *)
Ltac kind_in := apply (bool_decide_eq_true_1 _); vm_compute; reflexivity.
Ltac nested := rewrite ?kinds_app, ?forallb_app, ?andb_true_iff; repeat split;
  first [ eapply nested_opt; [intros; cbn; reflexivity|kind_in] | eapply nested_fmap; [intros; cbn; reflexivity|kind_in]
        | apply all_opt; solve [auto with conform] | apply forallb_fmap_all; solve [auto with conform] | done ].
Ltac body := cbn [conforms]; lazymatch goal with |- context [spec_of ?k] => let s := eval vm_compute in (spec_of k) in
    change (spec_of k) with s end; cbn [sp_LabelKind label_fits andb]; rewrite andb_true_iff; split;
  [unfold body_fits; cbn [sp_BodyMode sp_NestedForms empty_list forallb andb]; rewrite andb_true_iff; split|].

Lemma conforms_options o : conforms (form_of_options o) = true.
Proof. unfold form_of_options. body; [nested|done|nested]. Qed.

Lemma conforms_health h : conforms (form_of_health h) = true.
Proof.
  unfold form_of_health. body; [nested|done|].
  rewrite !forallb_app, !andb_true_iff. repeat split; apply all_opt; intros p; apply conforms_probe; set_solver.
Qed.
#[export] Hint Resolve conforms_options conforms_health : conform.

Lemma conforms_workload w : conforms (form_of_workload w) = true.
Proof.
  unfold form_of_workload, workload_blocks. body; [| |rewrite forallb_app; cbn [forallb]; rewrite conforms_run, conforms_options; nested].
  - cbn [app fmap list_fmap forallb f_Kind form_of_run form_of_options block]. rewrite !andb_true_iff.
    split; [reflexivity|]. split; [reflexivity|]. nested.
  - unfold fields_fit. cbn -[fits]. by rewrite fits_refs.
Qed.

Lemma conforms_ingress i : conforms (form_of_ingress i) = true.
Proof. unfold form_of_ingress. body; [nested|done|nested]. Qed.
#[export] Hint Resolve conforms_workload conforms_ingress : conform.

(** The text of every document is within the registered forms. *)
Lemma conforms_app a : conforms (form_of_app a) = true.
Proof. unfold form_of_app, app_blocks. body; [nested|done|nested]. Qed.

(** * The manifest loader (internal/deploy/loader/service.go, v1alpha1/load.go, orch/service.go)

    A document is read by the suffix of its path: the language for [.orch], YAML otherwise.
    The compiler of the language's front end and the YAML decoder are parameters. *)
(** What the API asks of a loader: the document of a path and a source. *)
Class ManifestLoader := load_app : string → string → res App.

Class Manifests := {
  (** [CompileSourceDetailed(name, src)]: the diagnostics as an error, or the tree *)
  compileSource : string → string → res (option (list HIRForm));
  (** [yaml.Unmarshal] into an [App] *)
  yamlApp : string → res App }.

(** ** v1alpha1/load.go *)
Definition defaultAppMeta (app : App) : App :=
  mkApp (if (app_APIVersion app =? "")%string then "warden.arcgolabs.io/v1alpha1" else app_APIVersion app)
    (if (app_Kind app =? "")%string then "App" else app_Kind app)
    (app_Metadata app) (app_Workloads app) (app_Configs app) (app_Secrets app) (app_Volumes app) (app_Ingresses app).

Section loader.
Context `{UnicodeLower, ListSort, DslLib, HIRMapper, Manifests}.

Definition ParseAppYAML (data : string) : res App :=
  app ← wrap "parse app yaml" [] (yamlApp data); Ok (defaultAppMeta app).

(** ** orch/service.go *)
Definition orch_LoadAppBytes (virtualName src : string) : res App :=
  appFromCompileResult virtualName (compileSource virtualName src).

(** ** loader/service.go *)
Definition LoadAppBytes (virtualPath src : string) : res App :=
  if EqualFold (Ext virtualPath) ".orch"
  then wrap "load orch source" [] (orch_LoadAppBytes virtualPath src)
  else wrap "parse app yaml" [] (ParseAppYAML src).
Definition LoadAppString (virtualPath src : string) : res App := LoadAppBytes virtualPath src.
#[export] Instance source_loader : ManifestLoader := LoadAppString.
End loader.
