(* ===== verification/Effects.v ===== *)
(** * Code that changes state and fails

    The monad of code that threads a state through calls that may fail, a relational program
    logic for it, bounded retries and polling (github.com/cenkalti/backoff, a parameter with its
    documented behaviour), and the state files that the host runtimes keep. *)
From stdpp Require Import base strings numbers gmap list.
From S2P Require Import Prelude.

(** ** The monad: the state survives an error *)
Definition SE (S A : Type) : Type := S → res A * S.
#[export] Instance SE_ret {S} : MRet (SE S) := λ A a s, (Ok a, s).
#[export] Instance SE_bind {S} : MBind (SE S) := λ A B f m s,
  match m s with (Ok a, s') => f a s' | (Err e, s') => (Err e, s') end.

Definition raise {S A} (e : error) : SE S A := λ s, (Err e, s).
Definition of_res {S A} (r : res A) : SE S A := λ s, (r, s).
(** The error as a value: the code goes on. *)
Definition attempt {S A} (m : SE S A) : SE S (res A) := λ s, let '(r, s') := m s in (Ok r, s').
Definition annotate {S A} (fmt : string) (args : list arg) (m : SE S A) : SE S A := λ s,
  match m s with (Ok a, s') => (Ok a, s') | (Err e, s') => (Err (Wrapf e fmt args), s') end.

(** [if err := m; err != nil { undo; return err }] *)
Definition or_undo {S A} (m : SE S A) (undo : SE S unit) : SE S A :=
  r ← attempt m;
  match r with Ok a => mret a | Err e => _ ← attempt undo; raise e end.
(** [defer f()]: whatever the body returns. *)
Definition deferring {S A} (f : S → S) (m : SE S A) : SE S A := λ s, let '(r, s') := m s in (r, f s').

(** ** What a run relates *)
Definition keeps {S A} (R : relation S) (m : SE S A) : Prop := ∀ s, R s (m s).2.
Definition post {S A} (P : S → Prop) (m : SE S A) (Q : res A → S → Prop) : Prop := ∀ s, P s → Q (m s).1 (m s).2.

Section logic.
Context {S : Type} (R : relation S) `{!PreOrder R}.

Lemma keeps_ret {A} (a : A) : keeps R (mret a : SE S A).
Proof. intros s. reflexivity. Qed.
Lemma keeps_raise {A} e : keeps R (raise e : SE S A).
Proof. intros s. reflexivity. Qed.
Lemma keeps_of_res {A} (r : res A) : keeps R (of_res r : SE S A).
Proof. intros s. reflexivity. Qed.

Lemma keeps_bind {A B} (m : SE S A) (f : A → SE S B) :
  keeps R m → (∀ a, keeps R (f a)) → keeps R (m ≫= f).
Proof.
  intros Hm Hf s. specialize (Hm s). unfold mbind, SE_bind. destruct (m s) as [[a|e] s']; [|exact Hm].
  etrans; [exact Hm|apply Hf].
Qed.

(** A continuation may rely on what the first part established. *)
Lemma keeps_bind_post {A B} (m : SE S A) (f : A → SE S B) (Q : A → S → Prop) :
  keeps R m → (∀ s a s', m s = (Ok a, s') → Q a s') → (∀ a s, Q a s → R s (f a s).2) → keeps R (m ≫= f).
Proof.
  intros Hm HQ Hf s. pose proof (Hm s) as Hs. unfold mbind, SE_bind.
  destruct (m s) as [[a|e] s'] eqn:E; [|exact Hs]. etrans; [exact Hs|]. by eapply Hf, HQ.
Qed.

Lemma keeps_attempt {A} (m : SE S A) : keeps R m → keeps R (attempt m).
Proof. intros Hm s. specialize (Hm s). unfold attempt. by destruct (m s). Qed.
Lemma keeps_annotate {A} fmt args (m : SE S A) : keeps R m → keeps R (annotate fmt args m).
Proof. intros Hm s. specialize (Hm s). unfold annotate. by destruct (m s) as [[]]. Qed.
Lemma or_undo_keeps {A} (m : SE S A) undo : keeps R m → keeps R undo → keeps R (or_undo m undo).
Proof.
  intros Hm Hu. apply keeps_bind; [by apply keeps_attempt|]. intros [a|e]; [apply keeps_ret|].
  apply keeps_bind; [by apply keeps_attempt|]. intros _. apply keeps_raise.
Qed.
Lemma keeps_deferring {A} f (m : SE S A) : keeps R m → (∀ s, R s (f s)) → keeps R (deferring f m).
Proof. intros Hm Hf s. specialize (Hm s). unfold deferring. destruct (m s) as [r s']. etrans; [exact Hm|apply Hf]. Qed.
Lemma keeps_run {A} (m : SE S A) s r s' : keeps R m → m s = (r, s') → R s s'.
Proof. intros Hm E. specialize (Hm s). by rewrite E in Hm. Qed.
End logic.

Lemma bind_Ok {S A B} (m : SE S A) (f : A → SE S B) s b s' :
  (m ≫= f) s = (Ok b, s') ↔ ∃ a s1, m s = (Ok a, s1) ∧ f a s1 = (Ok b, s').
Proof.
  unfold mbind, SE_bind. destruct (m s) as [[a|e] s1]; split; [eauto| |done|].
  - by intros (a' & s2 & [= <- <-] & H).
  - by intros (a' & s2 & [=] & H).
Qed.
Lemma annotate_Ok {S A} fmt args (m : SE S A) s a s' : annotate fmt args m s = (Ok a, s') ↔ m s = (Ok a, s').
Proof. unfold annotate. destruct (m s) as [[b|e] s1]; split; congruence. Qed.
Lemma bind_Err {S A B} (m : SE S A) (f : A → SE S B) s e s' : (m ≫= f) s = (Err e, s') →
  m s = (Err e, s') ∨ ∃ a s1, m s = (Ok a, s1) ∧ f a s1 = (Err e, s').
Proof. unfold mbind, SE_bind. destruct (m s) as [[a|e'] s1]; [eauto|]. intros [= -> ->]. by left. Qed.
Lemma attempt_Ok {S A} (m : SE S A) s r s' : attempt m s = (Ok r, s') → m s = (r, s').
Proof. unfold attempt. destruct (m s). congruence. Qed.
Lemma or_undo_Ok {S A} (m : SE S A) undo s a s' : or_undo m undo s = (Ok a, s') → m s = (Ok a, s').
Proof.
  unfold or_undo, mbind, SE_bind, attempt. destruct (m s) as [[b|e] s1]; [by intros [= -> ->]|]. by destruct (undo s1).
Qed.
Lemma or_undo_Err {S A} (m : SE S A) undo s e s' : or_undo m undo s = (Err e, s') →
  ∃ s1, m s = (Err e, s1) ∧ s' = (undo s1).2.
Proof.
  unfold or_undo, mbind, SE_bind, attempt. destruct (m s) as [[b|e'] s1]; [done|]. destruct (undo s1) as [r s2] eqn:E.
  intros [= <- <-]. exists s1. by rewrite E.
Qed.
Lemma deferring_run {S A} f (m : SE S A) s r s' : deferring f m s = (r, s') → ∃ s1, m s = (r, s1) ∧ s' = f s1.
Proof. unfold deferring. destruct (m s) as [r1 s1]. intros [= <- <-]. eauto. Qed.
Lemma attempt_eq {S A} (m : SE S A) s : attempt m s = (Ok (m s).1, (m s).2).
Proof. unfold attempt. by destruct (m s). Qed.

(** ** Retries *)

(** What an attempt of a retried operation returns: a plain error is tried again, a permanent
    one is not. *)
Inductive outcome (A : Type) := Done (a : A) | Again (e : error) | Permanent (e : error).
Arguments Done {A}. Arguments Again {A}. Arguments Permanent {A}.

(** [n] attempts at most. *)
Fixpoint tries {S A} (n : nat) (op : S → outcome A * S) (s : S) : outcome A * S :=
  match n, op s with
  | Datatypes.S (Datatypes.S _ as m), (Again _, s') => tries m op s'
  | _, r => r
  end.

(** [backoff.Retry(ctx, op, WithMaxTries(n))]. *)
Class Backoff := Retry : ∀ {S A : Type}, nat → (S → outcome A * S) → S → res A * S.

(** Documented: the operation is attempted at least once, until it succeeds or returns a
    permanent error, at most [n] times; the wait between two attempts may end the call (the
    context is done or the time is over). *)
Class BackoffLaws `{Backoff} := retry_tries : ∀ {S A : Type} n (op : S → outcome A * S) s, 0 < n →
  ∃ k, 0 < k ≤ n ∧ (Retry n op s).2 = (tries k op s).2 ∧
    match (tries k op s).1 with
    | Done a => (Retry n op s).1 = Ok a
    | Permanent e => (Retry n op s).1 = Err e
    | Again _ => ∃ e, (Retry n op s).1 = Err e
    end.

(** Whatever the result, it is that of a last attempt, from a state to which failed attempts
    led. *)
Lemma tries_last {S A} (R : relation S) `{!PreOrder R} n (op : S → outcome A * S) s :
  (∀ s e s', op s = (Again e, s') → R s s') → ∃ s0, R s s0 ∧ tries n op s = op s0.
Proof.
  intros Hop. revert s. induction n as [|n IH]; intros s; cbn; [by exists s|].
  destruct n; [by exists s|]. destruct (op s) as [[a|e|e] s'] eqn:E; try (by exists s).
  destruct (IH s') as (s0 & Hs & Ht). exists s0. split; [|done]. etrans; [|exact Hs]. by eapply Hop.
Qed.

Lemma retry_last `{BackoffLaws} {S A} (R : relation S) `{!PreOrder R} n (op : S → outcome A * S) s r s' :
  0 < n → (∀ s e s', op s = (Again e, s') → R s s') → (Retry n op : SE S A) s = (r, s') →
  ∃ s0 o, R s s0 ∧ op s0 = (o, s') ∧
    match o with Done a => r = Ok a | Permanent e => r = Err e | Again _ => ∃ e, r = Err e end.
Proof.
  intros Hn Hop E. destruct (retry_tries n op s Hn) as (k & Hk & E2 & E1). rewrite E in E1, E2. cbn in *.
  destruct (tries_last R k op s Hop) as (s0 & Hs & Ht). rewrite Ht in E1, E2. exists s0, (op s0).1.
  split; [done|]. split; [by rewrite E2; destruct (op s0)|]. by destruct (op s0) as [[] ].
Qed.

(** How [backoff.Retry] ends without a limit of attempts: the operation succeeded, it returned a
    permanent error, the time [Retry] itself allows is over (with the last error), or the context
    is done (with its cause). *)
Inductive retried (A : Type) := RetryDone (a : A) | RetryFailed (e : error).
Arguments RetryDone {A}. Arguments RetryFailed {A}.
Class Polling := {
  Retry_for : ∀ {S A : Type}, Z → (S → outcome A * S) → S → retried A * S;
  DeadlineExceeded : error }.

(** Documented: at least one attempt; the loop ends with the first success or permanent error, or
    after some attempt that failed. *)
Class PollingLaws `{Polling} := retry_for_tries : ∀ {S A : Type} timeout (op : S → outcome A * S) s,
  ∃ k, 0 < k ∧ (Retry_for timeout op s).2 = (tries k op s).2 ∧
    match (tries k op s).1 with
    | Done a => (Retry_for timeout op s).1 = RetryDone a
    | Permanent e => (Retry_for timeout op s).1 = RetryFailed e
    | Again e => ∃ e', (Retry_for timeout op s).1 = RetryFailed e' ∧ (e' = e ∨ e' = DeadlineExceeded)
    end.

(** ** Files *)

(** The error of a missing file; [os.IsNotExist] does not look into wrapped errors,
    [errors.Is] does. *)
Definition ErrNotExist : error := Errorf "file does not exist" [].
Definition IsNotExist (e : error) : bool := bool_decide (e = ErrNotExist).
Fixpoint Is_NotExist (e : error) : bool :=
  match e with Errorf _ _ => IsNotExist e | Wrapf cause _ _ => Is_NotExist cause end.

(** State files, one JSON document each: a store of what decoding a file answers.  Reading,
    writing and removing may fail; a write that fails leaves [residue]. *)
Section state_files.
Context {S St : Type} (files : S → gmap string (res St)) (put : gmap string (res St) → S → S).
Context (readFile writeFile removeFile : S → string → res unit) (missing : S → string → error).
Context (residue : S → string → option (res St)) (what : string).

Definition read_state (path : string) : SE S St := λ s,
  match files s !! path with
  | None => (Err (Wrapf (missing s path) ("read " +:+ what) []), s)
  | Some st => (_ ← wrap ("read " +:+ what) [] (readFile s path); wrap ("decode " +:+ what) [] st, s)
  end.
Definition write_state (path : string) (st : St) : SE S unit := annotate ("write " +:+ what) [] (λ s,
  match writeFile s path with
  | Ok _ => (Ok tt, put (<[path := Ok st]> (files s)) s)
  | Err e => (Err e, put (partial_alter (λ _, residue s path) path (files s)) s)
  end).
Definition remove_state (is_missing : error → bool) (path : string) : SE S unit := λ s,
  match files s !! path with
  | None => (Ok tt, s)
  | Some _ =>
      match removeFile s path with
      | Ok _ => (Ok tt, put (delete path (files s)) s)
      | Err e => if is_missing e then (Ok tt, s) else (Err (Wrapf e ("remove " +:+ what) []), s)
      end
  end.

Context (put_files : ∀ m s, files (put m s) = m).

Lemma read_state_same path s : (read_state path s).2 = s.
Proof. unfold read_state. by case_match. Qed.
Lemma write_state_Ok path st s s' : write_state path st s = (Ok tt, s') → s' = put (<[path := Ok st]> (files s)) s.
Proof. unfold write_state. intros E%annotate_Ok. case_match; congruence. Qed.
Lemma write_state_Err path st s e s' : write_state path st s = (Err e, s') →
  s' = put (partial_alter (λ _, residue s path) path (files s)) s.
Proof. unfold write_state, annotate. destruct (writeFile s path); [done|]. by intros [= _ <-]. Qed.
Lemma remove_state_Ok is_missing path s s' : (∀ s e, removeFile s path = Err e → is_missing e = false) →
  remove_state is_missing path s = (Ok tt, s') → files s' = delete path (files s) ∧ (s' = s ∨ s' = put (delete path (files s)) s).
Proof.
  intros Hh. unfold remove_state. destruct (files s !! path) eqn:E; [|intros [= <-]; rewrite delete_id by done; auto].
  destruct (removeFile s path) as [[]|e] eqn:Er; [intros [= <-]; rewrite put_files; auto|]. by rewrite (Hh _ _ Er).
Qed.
Lemma remove_state_other is_missing path s : (remove_state is_missing path s).2 = s ∨
  (remove_state is_missing path s).2 = put (delete path (files s)) s.
Proof. unfold remove_state. destruct (files s !! path); [|auto]. destruct (removeFile s path); [auto|]. case_match; auto. Qed.
End state_files.
