(* ===== verification/Docker.v ===== *)
(** * The Docker and Podman runtimes (internal/runtime/docker, internal/runtime/podman)

    The provider drives an engine by its API.  The engine is a parameter: a state and the calls
    the provider makes, each of which may fail; what the engine documents about them is in
    [EngineLaws].  The Podman runtime is the same provider with another kind and client. *)
From stdpp Require Import base strings numbers gmap list.
From Stdlib Require Import Ascii.
From S2P Require Import Prelude GoStrings GoTime GoNet GoList Deploy Meta GoText Placement Fsm TaskBase Dns Runtime Effects.

(** ** The engine's data *)
Record PortBinding := mkPortBinding { pb_HostIP : string; pb_HostPort : string }.
Record EngineMount := mkEngineMount { em_Type : string; em_Source : string; em_Target : string; em_ReadOnly : bool }.

(** [container.Config] and [container.HostConfig], the fields the provider sets; nil maps are
    empty. *)
Record ContainerConfig := mkContainerConfig {
  cc_Image : string; cc_Entrypoint : list string; cc_Cmd : list string; cc_Env : list string; cc_WorkingDir : string;
  cc_Labels : gmap string string; cc_ExposedPorts : gset string }.
Record HostConfig := mkHostConfig {
  hc_Memory : Z; hc_NanoCPUs : Z; hc_NetworkMode : string; hc_Privileged : bool;
  hc_PortBindings : gmap string (list PortBinding); hc_DNS : list string; hc_DNSSearch : list string;
  hc_Mounts : list EngineMount }.

Record ContainerState := mkState { cs_Running : bool; cs_Status : string; cs_Error : string; cs_StartedAt : string }.
(** [in_Networks]: the addresses in the order in which the map of networks is ranged over; a
    network may be nil. *)
Record InspectResponse := mkInspect {
  in_ID : string; in_Labels : option (gmap string string); in_State : option ContainerState;
  in_Networks : option (list (option string)) }.

(** The answer of a call: errdefs classifies errors. *)
Inductive answer (A : Type) := Fine (a : A) | NotFound (e : error) | Conflict (e : error) | Failed (e : error).
Arguments Fine {A}. Arguments NotFound {A}. Arguments Conflict {A}. Arguments Failed {A}.

Class DockerEngine := {
  engine : Type;
  ContainerCreate : ContainerConfig → HostConfig → string → engine → answer string * engine;
  ContainerStart : string → engine → res unit * engine;
  ContainerInspect : string → engine → answer InspectResponse * engine;  (** by id or name *)
  ContainerRemove : string → engine → res unit * engine;                 (** forced *)
  ContainerList : list (string * string) → engine → res (list string) * engine;  (** all states; the ids *)
  (** the stream of the last lines; then what StdCopy makes of it *)
  ContainerLogs : string → string → engine → res (res (string * string)) * engine;
  ImagePull : string → engine → res (res unit) * engine;                 (** the stream; then draining it *)
  ImageInspect : string → engine → res unit * engine;
  Error_text : error → string;   (** [err.Error()] *)
  ParseRFC3339Nano : string → option Z;
}.

(** ** provider_labels.go *)
Definition WorkloadLabelsMatch (labels : gmap string string) (meta : Metadata) (w : Workload) : bool :=
  forallb (λ kv, (default "" (labels !! kv.1) =? kv.2)%string) (map_to_list (LabelMap meta w)).

(** The order in which a Go map is ranged over. *)
Class MapRange := map_range : gmap string string → list (string * string).
Class MapRangeLaws `{MapRange} := map_range_all m : map_range m ≡ₚ map_to_list m.

(** The labels of the options are set in turn, then those of the workload's identity. *)
Definition ContainerLabels `{MapRange} (meta : Metadata) (w : Workload) : gmap string string :=
  let user := match opt_Docker (run_Options (w_Run w)) with
    | Some d => foldl (λ m kv, let key := TrimSpace kv.1 in if (key =? "")%string then m else <[key := kv.2]> m)
                  ∅ (map_range (docker_Labels d))
    | None => ∅ end in
  LabelMap meta w ∪ user.

(** ** provider_container.go: what a workload asks the engine for *)
Definition dockerEndpointPort (e : Endpoint) : string :=
  Itoa (ep_Port e) +:+ "/" +:+ (if (ep_Protocol e =? "udp")%string then "udp" else "tcp").

Definition ApplyEndpointExposes (w : Workload) : gset string := list_to_set (dockerEndpointPort <$> w_Endpoints w).

Definition ApplyEndpointPortBindings (w : Workload) : gmap string (list PortBinding) :=
  foldl (λ m e,
    if (ep_HostPort e <=? 0)%Z then m
    else let port := dockerEndpointPort e in
         <[port := default [] (m !! port) ++ [mkPortBinding (TrimSpace (ep_HostIP e)) (Itoa (ep_HostPort e))]]> m)
    ∅ (w_Endpoints w).

Definition dockerContainerConfig `{MapRange} (meta : Metadata) (w : Workload) (ref : string) : ContainerConfig :=
  mkContainerConfig ref (exec_Command (run_Exec (w_Run w))) (exec_Args (run_Exec (w_Run w))) (Env (run_Env (w_Run w)))
    (TrimSpace (run_Cwd (w_Run w))) (ContainerLabels meta w) (ApplyEndpointExposes w).

Definition applyDockerResources (w : Workload) : Z * Z :=
  match w_Resources w with
  | None => (0, 0)%Z
  | Some r => (res_MemoryBytes r, NanoCPUs (res_CPUMillis r))
  end.

Definition applyDockerOptions (w : Workload) : string * bool :=
  match opt_Docker (run_Options (w_Run w)) with
  | None => ("", false)
  | Some d => (TrimSpace (docker_NetworkMode d), docker_Privileged d)
  end.

(** ** provider_dns.go *)
Definition ApplyWorkloadDNS `{UnicodeLower} (cfg : DNSConfig) (namespace : string) : list string * list string :=
  match WorkloadNameserver cfg with
  | None => ([], [])
  | Some ns => ([ns], WorkloadSearchDomains cfg namespace)
  end.

Definition primaryIPv4 (networks : option (list (option string))) : string :=
  default "" (head (filter (λ ip, ip ≠ "") (omap id (default [] networks)))).

Definition ApplyLocalMounts (mounts : list RunMount) : list EngineMount :=
  (λ m, mkEngineMount "volume" (rm_VolumeName m) (rm_Target m) (rm_ReadOnly m)) <$> mounts.

Definition dockerHostConfig `{UnicodeLower} (cfg : DNSConfig) (meta : Metadata) (w : Workload) : res HostConfig :=
  let '(memory, cpus) := applyDockerResources w in
  let '(mode, privileged) := applyDockerOptions w in
  let '(dns, search) := ApplyWorkloadDNS cfg (md_Namespace meta) in
  mounts ← wrap "resolve local mounts" [] (LocalMounts "" meta w);
  Ok (mkHostConfig memory cpus mode privileged (ApplyEndpointPortBindings w) dns search (ApplyLocalMounts mounts)).

(** ** provider.go *)
Definition provider_Kind (kind : string) : string := if (kind =? "")%string then RuntimeDocker else kind.

(** The labels of the list filter. *)
Definition workloadContainerFilters (meta : Metadata) (workloadName : string) : list (string * string) :=
  [("orch.io/app", TrimSpace (md_Name meta)); ("orch.io/namespace", NamespaceOrDefault (md_Namespace meta));
   ("orch.io/workload", TrimSpace workloadName)].

(** [strings.Contains] *)
Fixpoint Contains (s sub : string) : bool :=
  HasPrefix s sub || match s with EmptyString => false | String _ r => Contains r sub end.

Record DockerHost `{DockerEngine} := mkDockerHost { dh_engine : engine; dh_dns : DnsService }.
Arguments mkDockerHost {_}.

Section provider.
Context `{UnicodeLower, DnsLib, DockerEngine, Backoff, MapRange}.
Variables (cfg : DNSConfig) (save delete_record : DnsRecord → res unit).   (* of the DNS store *)
(** The provider's kind; the client factory, if there is one, and what it returns. *)
Variables (kind : string) (newClient : option (res unit)).

Definition isDockerMarkedForRemoval (e : error) : bool := Contains (ToLower (Error_text e)) "marked for removal".

(** A call to the engine, and one to the DNS service. *)
Definition api {A} (f : engine → A * engine) : SE DockerHost A := λ h,
  let '(r, e) := f (dh_engine h) in (Ok r, mkDockerHost e (dh_dns h)).
Definition call {A} (f : engine → res A * engine) : SE DockerHost A := r ← api f; of_res r.
Definition dns (f : DnsService → res unit * DnsService) : SE DockerHost unit := λ h,
  let '(r, d) := f (dh_dns h) in (r, mkDockerHost (dh_engine h) d).

Definition newDockerClient : SE DockerHost unit :=
  match newClient with
  | None => raise (Errorf "docker runtime client factory is not configured" [])
  | Some r => annotate "docker client" [] (of_res r)
  end.

Definition drainDockerImagePull (ref : string) : SE DockerHost unit :=
  pull ← annotate "docker pull %q" [AStr ref] (call (ImagePull ref));
  annotate "docker pull drain %q" [AStr ref] (of_res pull).

Definition ensureDockerImage (ref : string) : SE DockerHost unit :=
  r ← attempt (drainDockerImagePull ref);
  match r with
  | Ok _ => mret tt
  | Err e => i ← attempt (call (ImageInspect ref)); if is_ok i then mret tt else raise e
  end.

Definition recordDockerWorkloadDNS (meta : Metadata) (w : Workload) (name : string) (inspect : InspectResponse)
    : SE DockerHost unit :=
  let ip := primaryIPv4 (in_Networks inspect) in
  if (ip =? "")%string
  then raise (Errorf "docker: no ipv4 address for container %s (ensure default bridge / or set networkMode)" [AStr name])
  else annotate "upsert workload DNS" [] (dns (UpsertWorkloadA cfg save delete_record (md_Namespace meta) (w_Name w) ip)).

(** Whether the workload already runs. *)
Definition prepareExistingDockerContainer (meta : Metadata) (w : Workload) (name : string) : SE DockerHost bool :=
  found ← api (ContainerInspect name);
  match found with
  | NotFound _ => mret false
  | Conflict e | Failed e => raise (Wrapf e "docker inspect existing container %q" [AStr name])
  | Fine inspect =>
      if negb (WorkloadLabelsMatch (default ∅ (in_Labels inspect)) meta w)
      then raise (Errorf "docker: container %q already exists and is not managed by app %s/%s workload %s"
             [AStr name; AStr (NamespaceOrDefault (md_Namespace meta)); AStr (md_Name meta); AStr (w_Name w)])
      else if match in_State inspect with Some st => cs_Running st | None => false end
      then _ ← recordDockerWorkloadDNS meta w name inspect; mret true
      else _ ← annotate "docker remove stale container %q" [AStr name] (call (ContainerRemove (in_ID inspect)));
           mret false
  end.

(** ** provider_container.go: creating and starting *)

(** One attempt after a conflict; the empty id stands for a workload that already runs. *)
Definition createAfterConflictOnce (meta : Metadata) (w : Workload) (name : string) (ctrCfg : ContainerConfig)
    (hostCfg : HostConfig) (h : DockerHost) : outcome string * DockerHost :=
  match prepareExistingDockerContainer meta w name h with
  | (Err e, h1) => (Permanent e, h1)
  | (Ok true, h1) => (Done "", h1)
  | (Ok false, h1) =>
      match ContainerCreate ctrCfg hostCfg name (dh_engine h1) with
      | (r, e2) =>
          (match r with
           | Fine id => Done id
           | Conflict e => Again (Wrapf e "docker create conflict %q" [AStr name])
           | NotFound e | Failed e => Permanent (Wrapf e "docker create %q" [AStr name])
           end, mkDockerHost e2 (dh_dns h1))
      end
  end.

Definition createDockerContainerAfterConflict (meta : Metadata) (w : Workload) (name : string) (ctrCfg : ContainerConfig)
    (hostCfg : HostConfig) : SE DockerHost string :=
  annotate "docker create %q" [AStr name] (Retry 10 (createAfterConflictOnce meta w name ctrCfg hostCfg)).

Definition createDockerContainer (meta : Metadata) (w : Workload) (name : string) (ctrCfg : ContainerConfig)
    (hostCfg : HostConfig) : SE DockerHost string :=
  created ← api (ContainerCreate ctrCfg hostCfg name);
  match created with
  | Fine id => mret id
  | Conflict _ => createDockerContainerAfterConflict meta w name ctrCfg hostCfg
  | NotFound e | Failed e => raise (Wrapf e "docker create %q" [AStr name])
  end.

(** [removeFailed], then the error: a failure to remove is only logged. *)
Definition removeFailed {A} (containerID : string) (e : error) : SE DockerHost A :=
  _ ← attempt (call (ContainerRemove containerID)); raise e.

Definition dockerRunAfterCreate (meta : Metadata) (w : Workload) (name containerID : string) : SE DockerHost unit :=
  started ← attempt (call (ContainerStart containerID));
  match started with
  | Err e => removeFailed containerID (Wrapf e "docker start %q" [AStr containerID])
  | Ok _ =>
      inspected ← api (ContainerInspect containerID);
      match inspected with
      | NotFound e | Conflict e | Failed e => removeFailed containerID (Wrapf e "docker inspect after start" [])
      | Fine inspect =>
          recorded ← attempt (recordDockerWorkloadDNS meta w name inspect);
          match recorded with Err e => removeFailed containerID e | Ok _ => mret tt end
      end
  end.

Definition permanentDockerDeployError (e : error) : outcome unit := Permanent e.

Definition deployWorkloadContainerOnce (meta : Metadata) (w : Workload) (name : string) (ctrCfg : ContainerConfig)
    (hostCfg : HostConfig) (h : DockerHost) : outcome unit * DockerHost :=
  match createDockerContainer meta w name ctrCfg hostCfg h with
  | (Err e, h1) => (permanentDockerDeployError e, h1)
  | (Ok containerID, h1) =>
      if (containerID =? "")%string then (Done tt, h1)
      else match dockerRunAfterCreate meta w name containerID h1 with
           | (Ok _, h2) => (Done tt, h2)
           | (Err e, h2) => (if isDockerMarkedForRemoval e then Again e else permanentDockerDeployError e, h2)
           end
  end.

Definition deployWorkloadContainer (meta : Metadata) (w : Workload) (ref : string) : SE DockerHost unit :=
  let name := OrchContainerName meta (w_Name w) in
  let ctrCfg := dockerContainerConfig meta w ref in
  hostCfg ← of_res (dockerHostConfig cfg meta w);
  annotate "docker deploy workload %q" [AStr (w_Name w)]
    (Retry 10 (deployWorkloadContainerOnce meta w name ctrCfg hostCfg)).

(** ** provider.go: Deploy, Stop *)
Definition docker_Deploy (meta : Metadata) (w : Workload) : SE DockerHost unit :=
  _ ← newDockerClient;
  let ref := NormalizeImageRef (art_Image (run_Artifact (w_Run w))) in
  if (ref =? "")%string then raise (Errorf "docker: workload %q: run.artifact.image is required" [AStr (w_Name w)])
  else _ ← ensureDockerImage ref; deployWorkloadContainer meta w ref.

Definition docker_Stop (meta : Metadata) (workloadName : string) : SE DockerHost unit :=
  _ ← newDockerClient;
  containers ← annotate "docker list containers" [] (call (ContainerList (workloadContainerFilters meta workloadName)));
  match containers with
  | [] => _ ← attempt (dns (RemoveWorkloadA cfg delete_record (md_Namespace meta) workloadName)); mret tt
  | id :: _ =>
      _ ← annotate "docker remove container" [] (call (ContainerRemove id));
      annotate "remove workload DNS" [] (dns (RemoveWorkloadA cfg delete_record (md_Namespace meta) workloadName))
  end.

(** ** provider_status.go *)
Definition stoppedDockerStatus (workloadName runtime : string) : RuntimeStatus :=
  mkStatus (TrimSpace workloadName) (if (runtime =? "")%string then RuntimeDocker else runtime) "stopped" "" 0 0 "".

Definition dockerContainerStateStatus (st : ContainerState) : string :=
  if cs_Running st then "running" else TrimSpace (cs_Status st).

Definition parseDockerStartedAt (value : string) : option Z :=
  if (TrimSpace value =? "")%string then None else ParseRFC3339Nano (TrimSpace value).

(** [now]: [time.Now().UTC()]. *)
Definition applyDockerInspectStatus (now : Z) (out : RuntimeStatus) (inspect : InspectResponse) : RuntimeStatus :=
  match in_State inspect with
  | None => mkStatus (rs_Name out) (rs_Runtime out) (rs_Status out) (in_ID inspect) (rs_StartedAt out) now (rs_Message out)
  | Some st =>
      mkStatus (rs_Name out) (rs_Runtime out) (dockerContainerStateStatus st) (in_ID inspect)
        (default (rs_StartedAt out) (parseDockerStartedAt (cs_StartedAt st))) now (TrimSpace (cs_Error st))
  end.

Definition docker_Status (now : Z) (meta : Metadata) (workloadName : string) : SE DockerHost RuntimeStatus :=
  _ ← newDockerClient;
  containers ← annotate "docker list containers" [] (call (ContainerList (workloadContainerFilters meta workloadName)));
  let out := stoppedDockerStatus workloadName (provider_Kind kind) in
  match containers with
  | [] => mret out
  | id :: _ =>
      inspected ← api (ContainerInspect id);
      match inspected with
      | NotFound e | Conflict e | Failed e => raise (Wrapf e "docker inspect container" [])
      | Fine inspect => mret (applyDockerInspectStatus now out inspect)
      end
  end.

Definition combineDockerLogs (stdout stderr : string) : string :=
  if (stderr =? "")%string then stdout
  else (if negb (stdout =? "")%string && negb (HasSuffix stdout (String "010" "")) then stdout +:+ String "010" "" else stdout)
       +:+ stderr.

Definition readDockerLogs (containerID : string) (tail : Z) : SE DockerHost string :=
  stream ← annotate "docker logs" [] (call (ContainerLogs containerID (Itoa (NormalizeTailLines tail))));
  '(stdout, stderr) ← annotate "docker logs decode" [] (of_res stream);
  mret (combineDockerLogs stdout stderr).

Definition docker_Logs (meta : Metadata) (workloadName : string) (tail : Z) : SE DockerHost LogResult :=
  _ ← newDockerClient;
  containers ← annotate "docker list containers" [] (call (ContainerList (workloadContainerFilters meta workloadName)));
  match containers with
  | [] => raise (Errorf "docker container for workload %q not found" [AStr workloadName])
  | id :: _ => content ← readDockerLogs id tail; mret (mkLogResult (TrimSpace workloadName) (provider_Kind kind) id content)
  end.
End provider.
