(* ===== verification/DockerSpec.v ===== *)
(** * What the Docker runtime guarantees

    The containers of other workloads are left alone, a workload has at most one container, a
    deploy that succeeds leaves it started and registered, one that fails leaves nothing new
    unless a removal fails or a reply of the engine is lost, and a stop that succeeds leaves
    nothing. *)
From stdpp Require Import base strings numbers gmap list.
From Stdlib Require Import Ascii.
From S2P Require Import Prelude GoStrings GoTime GoNet GoList Deploy Meta GoText Placement Fsm TaskBase Dns DnsSpec Runtime Effects Docker.

(** ** The engine's documented behaviour *)

(** [ct_Labels] has the labels of the image too; [ct_Started]: it was started at some time. *)
Record Container := mkContainer {
  ct_Name : string; ct_Labels : gmap string string; ct_Config : ContainerConfig; ct_Host : HostConfig; ct_Started : bool }.
Definition start (c : Container) : Container := mkContainer (ct_Name c) (ct_Labels c) (ct_Config c) (ct_Host c) true.

(** A container of an unused name was created; the labels of a request win over those of the image. *)
Definition creates (c : ContainerConfig) (hc : HostConfig) (name id : string) (m m' : gmap string Container) : Prop :=
  id ≠ "" ∧ m !! id = None ∧ (∀ i c', m !! i = Some c' → ct_Name c' ≠ name) ∧
  ∃ labels, cc_Labels c ⊆ labels ∧ m' = <[id := mkContainer name labels c hc false]> m.
Definition starts (id : string) (m m' : gmap string Container) : Prop :=
  ∃ c, m !! id = Some c ∧ m' = <[id := start c]> m.

(** Names are unique, and a create that conflicts or names something unknown creates nothing.  A call
    that fails otherwise did what it was asked to or nothing: its reply may have been lost.  Nothing
    else changes containers meanwhile. *)
Class EngineLaws `{DockerEngine} := {
  containers : engine → gmap string Container;
  create_spec c hc name e :
    match ContainerCreate c hc name e with
    | (Fine id, e') => creates c hc name id (containers e) (containers e')
    | (Failed _, e') => containers e' = containers e ∨ ∃ id, creates c hc name id (containers e) (containers e')
    | (_, e') => containers e' = containers e
    end;
  start_spec id e :
    match ContainerStart id e with
    | (Ok _, e') => starts id (containers e) (containers e')
    | (Err _, e') => containers e' = containers e ∨ starts id (containers e) (containers e')
    end;
  inspect_spec ref e :
    match ContainerInspect ref e with
    | (Fine r, e') => containers e' = containers e ∧
        (is_Some (containers e !! ref) → in_ID r = ref) ∧
        ∃ c, containers e !! in_ID r = Some c ∧ default ∅ (in_Labels r) = ct_Labels c ∧
          (∀ st, in_State r = Some st → cs_Running st = true → ct_Started c = true)
    | (_, e') => containers e' = containers e
    end;
  remove_spec id e :
    match ContainerRemove id e with
    | (Ok _, e') => containers e' = delete id (containers e)
    | (Err _, e') => containers e' = containers e ∨ containers e' = delete id (containers e)
    end;
  list_spec labels e :
    match ContainerList labels e with
    | (Ok ids, e') => containers e' = containers e ∧
        ∀ i, i ∈ ids ↔ ∃ c, containers e !! i = Some c ∧ Forall (λ kv, ct_Labels c !! kv.1 = Some kv.2) labels
    | (Err _, e') => containers e' = containers e
    end;
  logs_spec id tail e : containers (ContainerLogs id tail e).2 = containers e;
  pull_spec ref e : containers (ImagePull ref e).2 = containers e;
  image_spec ref e : containers (ImageInspect ref e).2 = containers e;
}.

(** ** Labels *)
Definition named_text (s : string) : Prop := TrimSpace s = s ∧ s ≠ "".
(** The names a validated document has. *)
Definition identified (meta : Metadata) (name : string) : Prop := named_text (md_Name meta) ∧ named_text name.
Definition has_identity (labels : gmap string string) (meta : Metadata) (name : string) : Prop :=
  Forall (λ kv, labels !! kv.1 = Some kv.2) (workloadContainerFilters meta name).

Lemma LabelMap_identity meta w labels :
  identified meta (w_Name w) → LabelMap meta w ⊆ labels → has_identity labels meta (w_Name w).
Proof.
  intros [[Hm _] [Hn _]] Hsub. unfold has_identity, workloadContainerFilters. rewrite Hm, Hn.
  repeat constructor; cbn; eapply lookup_weaken; try done; by simplify_map_eq.
Qed.

Lemma ContainerLabels_identity `{MapRange} meta w : LabelMap meta w ⊆ ContainerLabels meta w.
Proof. apply map_union_subseteq_l. Qed.

(** Labels of the options that do not clash are kept. *)
Lemma WorkloadLabelsMatch_own `{MapRange} meta w : WorkloadLabelsMatch (ContainerLabels meta w) meta w = true.
Proof.
  unfold WorkloadLabelsMatch. apply forallb_forall. intros [k v] Hin. apply list_elem_of_In, elem_of_map_to_list in Hin.
  apply String.eqb_eq. cbn. pose proof (ContainerLabels_identity meta w) as Hs. by rewrite (lookup_weaken _ _ _ _ Hin Hs).
Qed.

Lemma WorkloadLabelsMatch_identity labels meta w :
  identified meta (w_Name w) → WorkloadLabelsMatch labels meta w = true → has_identity labels meta (w_Name w).
Proof.
  intros [[Hm Hm'] [Hn Hn']] Hf. unfold WorkloadLabelsMatch in Hf. rewrite forallb_forall in Hf.
  assert (∀ k v, LabelMap meta w !! k = Some v → v ≠ "" → labels !! k = Some v) as Hl.
  { intros k v Hk Hv. specialize (Hf (k, v)). cbn in Hf. rewrite String.eqb_eq in Hf.
    rewrite <-list_elem_of_In, elem_of_map_to_list in Hf. specialize (Hf Hk). by destruct (labels !! k); simplify_eq/=. }
  unfold has_identity, workloadContainerFilters. rewrite Hm, Hn.
  pose proof (NamespaceOrDefault_nonempty (md_Namespace meta)).
  repeat constructor; cbn; apply Hl; try done; unfold LabelMap; by simplify_map_eq.
Qed.

(** ** Runs *)
Section runs.
Context `{UnicodeLower, DnsLibLaws, EngineLaws, BackoffLaws, MapRange}.
Variables (cfg : DNSConfig) (save delete_record : DnsRecord → res unit) (newClient : option (res unit)).

Definition held (h : DockerHost) : gmap string Container := containers (dh_engine h).
Definition owned (meta : Metadata) (name : string) (c : Container) : Prop := has_identity (ct_Labels c) meta name.

(** Names are unique, and a container with a workload's labels has the workload's name. *)
Record tidy (h : DockerHost) : Prop := {
  td_unique i j ci cj : held h !! i = Some ci → held h !! j = Some cj → ct_Name ci = ct_Name cj → i = j;
  td_named i c meta name : held h !! i = Some c → owned meta name c → ct_Name c = OrchContainerName meta name;
}.

(** A run on behalf of a workload: the containers of others stay, new ones satisfy [made]. *)
Record evolves (meta : Metadata) (name : string) (made : Container → Prop) (h h' : DockerHost) : Prop := {
  ev_keep i c : ¬ owned meta name c → held h !! i = Some c → held h' !! i = Some c;
  ev_source i c : held h' !! i = Some c → held h !! i = Some c ∨ made c;
  ev_tidy : tidy h → tidy h';
}.

#[export] Instance evolves_pre meta name made : PreOrder (evolves meta name made).
Proof.
  split; [by split; eauto|]. intros a b c [K1 S1 T1] [K2 S2 T2]. split; [naive_solver| |naive_solver].
  intros i x Hx. destruct (S2 i x Hx) as [Hb|]; [|by right]. by apply S1.
Qed.

Section one.
Variables (meta : Metadata) (name : string) (made : Container → Prop).
Abbreviation ev := (evolves meta name made).

Lemma ev_same h h' : held h' = held h → ev h h'.
Proof. intros E. split; rewrite ?E; eauto. intros [U N]. split; rewrite ?E; eauto. Qed.

Lemma ev_delete h h' i : held h' = delete i (held h) → (∀ c, held h !! i = Some c → owned meta name c) → ev h h'.
Proof.
  intros E Hi. split; rewrite ?E.
  - intros j c Hc Hj. rewrite lookup_delete_ne; [done|]. intros ->. by apply Hc, Hi.
  - intros j c Hj%lookup_delete_Some. naive_solver.
  - intros [U N]. split; rewrite ?E; intros *; rewrite ?lookup_delete_Some; naive_solver.
Qed.

Lemma ev_start h h' i c : held h !! i = Some c → owned meta name c → made (start c) →
  held h' = <[i := start c]> (held h) → ev h h'.
Proof.
  intros Hi Ho Hm E. split; rewrite ?E.
  - intros j cj Hc Hj. destruct (decide (i = j)) as [->|]; [congruence|by rewrite lookup_insert_ne].
  - intros j cj. rewrite lookup_insert_Some. naive_solver.
  - intros [U N]. split; rewrite ?E; intros *; rewrite ?lookup_insert_Some.
    + intros [[<- <-]|[? Hi']] [[<- <-]|[? Hj']] Hn; try done; [by eapply (U i j)|by eapply (U i0 i)|by eapply (U i0 j)].
    + intros [[<- <-]|[? Hi']] Hc; [by eapply (N i c)|by eapply (N i0)].
Qed.
End one.

(** *** Calls *)
Lemma call_eq {A} (f : engine → res A * engine) h :
  call f h = ((f (dh_engine h)).1, mkDockerHost (f (dh_engine h)).2 (dh_dns h)).
Proof. unfold call, api, mbind, SE_bind, of_res. by destruct (f (dh_engine h)). Qed.

Section deploying.
Variables (meta : Metadata) (w : Workload) (ref : string) (hostCfg : HostConfig).
Hypothesis Hid : identified meta (w_Name w).
Abbreviation name := (OrchContainerName meta (w_Name w)).
Abbreviation ctrCfg := (dockerContainerConfig meta w ref).

(** A container that a deploy of the workload made. *)
Definition made (c : Container) : Prop :=
  ct_Name c = name ∧ ct_Config c = ctrCfg ∧ ct_Host c = hostCfg ∧ cc_Labels ctrCfg ⊆ ct_Labels c.
Abbreviation mine := (owned meta (w_Name w)).
Abbreviation ev := (evolves meta (w_Name w) made).

Lemma made_owned c : made c → mine c.
Proof.
  intros (_ & _ & _ & Hl). apply LabelMap_identity; [done|]. etrans; [|exact Hl]. apply ContainerLabels_identity.
Qed.
Lemma made_start c : made c → made (start c).
Proof. done. Qed.

Lemma owned_name c m' n' : made c → owned m' n' c → OrchContainerName m' n' = name.
Proof.
  intros Hm Ho. pose proof (made_owned c Hm) as Hc. unfold owned, has_identity, workloadContainerFilters in *.
  rewrite !Forall_cons in Ho, Hc. cbn in *. unfold OrchContainerName.
  destruct Ho as (A1 & A2 & A3 & _), Hc as (B1 & B2 & B3 & _).
  rewrite A1 in B1. rewrite A2 in B2. rewrite A3 in B3. congruence.
Qed.

(** The container that a creation adds. *)
Definition adds (id : string) (h h' : DockerHost) : Prop :=
  id ≠ "" ∧ held h !! id = None ∧ ∃ c, made c ∧ held h' = <[id := c]> (held h).

Lemma creates_adds h h' id : creates ctrCfg hostCfg name id (held h) (held h') → ev h h' ∧ adds id h h'.
Proof.
  intros (Hid' & Hn & Hu & labels & Hl & Hc).
  assert (made (mkContainer name labels ctrCfg hostCfg false)) as Hm by done.
  split; [|split_and!; eauto]. split; rewrite ?Hc.
  - intros i c _ Hi. rewrite lookup_insert_ne; [done|]. congruence.
  - intros i c. rewrite lookup_insert_Some. naive_solver.
  - intros [U N]. split; rewrite Hc; intros *; rewrite !lookup_insert_Some.
    + intros [[<- <-]|[? Hi]] [[<- <-]|[? Hj]] Hn'; cbn in *; try done; [by destruct (Hu _ _ Hj)|by destruct (Hu _ _ Hi)|].
      by eapply (U i j).
    + intros [[<- <-]|[? Hi]] Hc'; [symmetry; by eapply owned_name|by eapply (N i)].
Qed.

(** Removals succeed, and a creation that fails creates nothing. *)
Definition replies_arrive : Prop :=
  (∀ id e, is_ok (ContainerRemove id e).1 = true) ∧
  ∀ c hc n e err e', ContainerCreate c hc n e = (Failed err, e') → containers e' = containers e.

(** Creating a container. *)
Lemma create_cases h r e : ContainerCreate ctrCfg hostCfg name (dh_engine h) = (r, e) →
  let h' := mkDockerHost e (dh_dns h) in
  ev h h' ∧ match r with
  | Fine id => adds id h h'
  | Failed _ => replies_arrive → held h' = held h
  | _ => held h' = held h
  end.
Proof.
  intros E h'. pose proof (create_spec ctrCfg hostCfg name (dh_engine h)) as Hs. rewrite E in Hs.
  destruct r as [id|?|?|?]; [by apply creates_adds|by split; [apply ev_same|]..|].
  split; [|intros [_ Hf]; by eapply Hf]. destruct Hs as [Hs|[id Hs]]; [by apply ev_same|].
  by apply (creates_adds h h') in Hs as [? _].
Qed.

Lemma container_remove_cases id h r h' : call (ContainerRemove id) h = (r, h') →
  match r with Ok _ => held h' = delete id (held h) | Err _ => held h' = held h ∨ held h' = delete id (held h) end.
Proof.
  rewrite call_eq. pose proof (remove_spec id (dh_engine h)) as Hs.
  destruct (ContainerRemove id (dh_engine h)) as [[]]; intros [= <- <-]; done.
Qed.

Lemma record_held inspect h : held (recordDockerWorkloadDNS cfg save delete_record meta w name inspect h).2 = held h.
Proof.
  unfold recordDockerWorkloadDNS. destruct (_ =? "")%string; [done|]. unfold annotate, dns.
  by destruct (UpsertWorkloadA _ _ _ _ _ _ _) as [[] ].
Qed.

Definition answered (d : DnsService) : Prop :=
  dns_Enabled cfg = true → ds_store d = true →
  ∃ rec, ds_records d !! workloadRecordKey (md_Namespace meta) (w_Name w) = Some rec ∧ rec_Type rec = TypeA ∧ rec_Data rec ≠ "".
Definition running (h : DockerHost) : Prop :=
  (∃ i c, held h !! i = Some c ∧ mine c ∧ ct_Started c = true) ∧ answered (dh_dns h).

Lemma record_answered inspect h r h' :
  recordDockerWorkloadDNS cfg save delete_record meta w name inspect h = (Ok r, h') → answered (dh_dns h').
Proof.
  unfold recordDockerWorkloadDNS. destruct (String.eqb_spec (primaryIPv4 (in_Networks inspect)) "") as [|Hip]; [done|].
  rewrite annotate_Ok. unfold dns. destruct (UpsertWorkloadA _ _ _ _ _ _ _) as [x d] eqn:E. intros [= -> <-] Hen Hst. cbn in *.
  assert (ds_store (dh_dns h) = true) as Hst'.
  { unfold UpsertWorkloadA in E. destruct (negb _ || negb _) eqn:Eb; [by injection E as <- <-|].
    apply orb_false_iff in Eb as [_ Hb]. by destruct (ds_store (dh_dns h)). }
  destruct (upsert_cases cfg Hen _ _ _ _ _ _ _ _ Hst' E) as [(_ & _ & Hn & rec & Hr & Hd & Ht)|[[e [=]] _]].
  exists rec. rewrite Hr, lookup_insert_eq. split_and!; congruence.
Qed.

Lemma prepare_cases h r h' : prepareExistingDockerContainer cfg save delete_record meta w name h = (r, h') →
  ev h h' ∧ held h' ⊆ held h ∧ (r = Ok true → running h').
Proof.
  unfold prepareExistingDockerContainer. unfold mbind at 1, SE_bind at 1. unfold api.
  pose proof (inspect_spec name (dh_engine h)) as Hi.
  destruct (ContainerInspect name (dh_engine h)) as [[ins|e1|e1|e1] e']; cbn [fst snd].
  2-4: intros [= <- <-]; unfold held; cbn; rewrite Hi; split_and!; [by apply ev_same|done|done].
  destruct Hi as (Hh & _ & c & Hc & Hl & Hrun). set (h1 := mkDockerHost e' (dh_dns h)).
  assert (held h1 = held h) as Hh1 by done. rewrite <-Hh in Hc. change (held h1 !! in_ID ins = Some c) in Hc.
  destruct (negb (WorkloadLabelsMatch _ meta w)) eqn:Em.
  { intros [= <- <-]. rewrite Hh1. split_and!; [by apply ev_same|done|done]. }
  apply negb_false_iff in Em. rewrite Hl in Em. apply WorkloadLabelsMatch_identity in Em; [|done].
  destruct (match in_State ins with Some st => _ | None => _ end) eqn:Er.
  - unfold mbind, SE_bind. pose proof (record_held ins h1) as Hrec.
    destruct (recordDockerWorkloadDNS _ _ _ _ _ _ _ h1) as [x h2] eqn:E. cbn in Hrec.
    assert (held h2 = held h) as Hh2 by congruence.
    destruct x; intros [= <- <-]; rewrite Hh2; (split_and!; [by apply ev_same|done|]); [intros _|done].
    split; [|by eapply record_answered]. exists (in_ID ins), c. rewrite Hrec. split_and!; [done|done|].
    destruct (in_State ins) as [st|]; [|done]. by eapply Hrun.
  - unfold mbind, SE_bind, annotate. destruct (call (ContainerRemove (in_ID ins)) h1) as [x h2] eqn:E.
    apply container_remove_cases in E. rewrite Hh1 in E.
    assert (held h2 = held h ∨ held h2 = delete (in_ID ins) (held h)) as Hh2 by (destruct x; auto).
    assert (ev h h2 ∧ held h2 ⊆ held h) as [He Hsub].
    { destruct Hh2 as [Hh2|Hh2]; rewrite Hh2; [split; [by apply ev_same|done]|].
      split; [|apply delete_subseteq]. eapply ev_delete; [exact Hh2|].
      intros c' Hc'. rewrite Hh1 in Hc. by assert (c' = c) as -> by congruence. }
    by destruct x; intros [= <- <-].
Qed.

(** What creating leaves: a running container of the workload, or a new one. *)
Definition created (h : DockerHost) (id : string) (h' : DockerHost) : Prop :=
  if decide (id = "") then running h' ∧ held h' ⊆ held h
  else ∃ c, made c ∧ held h' !! id = Some c ∧ delete id (held h') ⊆ held h.

Lemma create_created h id e : ContainerCreate ctrCfg hostCfg name (dh_engine h) = (Fine id, e) →
  created h id (mkDockerHost e (dh_dns h)).
Proof.
  intros (_ & Hid' & Hn & c & Hm & Hc)%create_cases. unfold created. rewrite decide_False by done.
  exists c. rewrite Hc, lookup_insert_eq, delete_insert_eq. split_and!; [done|done|apply delete_subseteq].
Qed.

Lemma created_mono h0 h id h' : held h ⊆ held h0 → created h id h' → created h0 id h'.
Proof.
  intros Hs. unfold created. case_decide.
  - intros [? ?]. split; [done|by etrans].
  - intros (c & ? & ? & ?). exists c. split_and!; [done|done|by etrans].
Qed.

Lemma after_conflict_cases h o h' :
  createAfterConflictOnce cfg save delete_record meta w name ctrCfg hostCfg h = (o, h') →
  ev h h' ∧ match o with
  | Done id => created h id h'
  | Again _ => held h' ⊆ held h
  | Permanent _ => replies_arrive → held h' ⊆ held h
  end.
Proof.
  unfold createAfterConflictOnce. destruct (prepareExistingDockerContainer _ _ _ _ _ _ h) as [x h1] eqn:E.
  apply prepare_cases in E as (He & Hs & Hr). destruct x as [[]|e]; [|destruct (ContainerCreate _ _ _ _) as [r e2] eqn:Ec|].
  - intros [= <- <-]. split; [done|]. split; [by apply Hr|done].
  - intros [= <- <-]. pose proof (create_cases h1 r e2 Ec) as [He2 Hc]. split; [by etrans|].
    destruct r; [eapply created_mono; [exact Hs|by apply create_created]|by rewrite Hc..|].
    intros Ha. by rewrite (Hc Ha).
  - by intros [= <- <-].
Qed.

(** The relation of failed attempts. *)
Definition backs_off (h h' : DockerHost) : Prop := ev h h' ∧ held h' ⊆ held h.
#[local] Instance backs_off_pre : PreOrder backs_off.
Proof. split; [by split|]. intros a b c [? ?] [? ?]. split; by etrans. Qed.

Lemma create_container_cases h r h' :
  createDockerContainer cfg save delete_record meta w name ctrCfg hostCfg h = (r, h') →
  ev h h' ∧ match r with Ok id => created h id h' | Err _ => replies_arrive → held h' ⊆ held h end.
Proof.
  unfold createDockerContainer. unfold mbind, SE_bind, api.
  destruct (ContainerCreate ctrCfg hostCfg name (dh_engine h)) as [x e1] eqn:E.
  pose proof (create_cases h x e1 E) as [He Hc]. set (h1 := mkDockerHost e1 (dh_dns h)) in *.
  destruct x as [id|e|e|e]; try (intros [= <- <-]; split; [done|]; intros Ha; by rewrite Hc).
  { intros [= <- <-]. split; [done|]. by apply create_created. }
  unfold createDockerContainerAfterConflict, annotate.
  destruct (Retry 10 _ h1) as [r2 h2] eqn:Er. apply (retry_last backs_off) in Er; [|lia|].
  2: { intros s e2 s' Hs. by apply after_conflict_cases in Hs. }
  destruct Er as (s0 & o & [Hb1 Hb2] & Ho & Hres). apply after_conflict_cases in Ho as [Ho1 Ho2].
  assert (ev h h2) as Hev by (etrans; [exact He|]; by etrans). rewrite Hc in Hb2.
  destruct o as [id|e2|e2]; [subst r2|destruct Hres as [e3 ->]|subst r2]; intros [= <- <-]; (split; [done|]).
  - by eapply created_mono.
  - intros _. by etrans.
  - intros Ha. etrans; [by apply Ho2|done].
Qed.

(** A failure after creating: the container is removed, unless the engine refuses. *)
Lemma removeFailed_cases {A} h id c e r h' : held h !! id = Some c → made c →
  removeFailed id e h = (r : res A, h') →
  ev h h' ∧ r = Err e ∧ delete id (held h') ⊆ delete id (held h) ∧ (replies_arrive → held h' ⊆ delete id (held h)).
Proof.
  intros Hc Hm. unfold removeFailed, mbind, SE_bind. rewrite attempt_eq.
  destruct (call (ContainerRemove id) h) as [x h1] eqn:E. cbn. intros [= <- <-].
  assert (replies_arrive → is_ok x = true) as Hrs.
  { intros [Hs _]. specialize (Hs id (dh_engine h)). rewrite call_eq in E. by injection E as <- _. }
  apply container_remove_cases in E.
  assert (held h1 = held h ∨ held h1 = delete id (held h)) as Hh by (destruct x; auto). split_and!; [|done| |].
  - destruct Hh as [Hh|Hh]; [by apply ev_same|]. eapply ev_delete; [exact Hh|]. intros c' Hc'.
    apply made_owned. congruence.
  - destruct Hh as [-> | ->]; [done|by rewrite delete_delete_eq].
  - intros Hs. specialize (Hrs Hs). destruct x as [[]|e1]; [by rewrite E|done].
Qed.

Lemma run_after_create_cases h id c r h' : held h !! id = Some c → made c →
  dockerRunAfterCreate cfg save delete_record meta w name id h = (r, h') →
  ev h h' ∧ delete id (held h') ⊆ delete id (held h) ∧
  match r with Ok _ => running h' ∧ is_Some (held h' !! id) | Err _ => replies_arrive → held h' ⊆ delete id (held h) end.
Proof.
  intros Hc Hm. unfold dockerRunAfterCreate. unfold mbind at 1, SE_bind at 1. rewrite attempt_eq.
  rewrite call_eq. pose proof (start_spec id (dh_engine h)) as Hs.
  destruct (ContainerStart id (dh_engine h)) as [[[]|e] e1]; cbn [fst snd].
  2: { set (h1 := mkDockerHost e1 (dh_dns h)). intros Hr.
       assert (∃ c1, held h1 !! id = Some c1 ∧ made c1 ∧ ev h h1 ∧ delete id (held h1) = delete id (held h))
         as (c1 & Hc1 & Hm1 & He1 & Hd1).
       { destruct Hs as [Hh|(c0 & Hc0 & Hh)]; [exists c; change (held h1 = held h) in Hh;
           rewrite Hh; split_and!; [done|done|by apply ev_same|done]|].
         change (held h1 = <[id := start c0]> (held h)) in Hh. change (held h !! id = Some c0) in Hc0.
         assert (c0 = c) as -> by congruence. exists (start c). rewrite Hh, lookup_insert_eq, delete_insert_eq.
         split_and!; [done|done| |done]. eapply ev_start; [done|by apply made_owned|by apply made_start|done]. }
       apply (removeFailed_cases h1 id c1) in Hr as (He & -> & Hd & Hf); [|done|done].
       rewrite Hd1 in Hd, Hf. split_and!; [by etrans|done|done]. }
  destruct Hs as (c0 & Hc0 & Hh). set (h1 := mkDockerHost e1 (dh_dns h)).
  change (held h !! id = Some c0) in Hc0. assert (c0 = c) as -> by congruence.
  change (held h1 = <[id := start c]> (held h)) in Hh.
  assert (ev h h1) as He1 by (eapply ev_start; [done|by apply made_owned|by apply made_start|done]).
  assert (delete id (held h1) = delete id (held h)) as Hd1 by by rewrite Hh, delete_insert_eq.
  assert (held h1 !! id = Some (start c)) as Hc1 by by rewrite Hh, lookup_insert_eq.
  unfold mbind at 1, SE_bind at 1, api at 1. pose proof (inspect_spec id (dh_engine h1)) as Hi.
  destruct (ContainerInspect id (dh_engine h1)) as [x e2]. set (h2 := mkDockerHost e2 (dh_dns h1)).
  assert (held h2 = held h1) as Hh2 by by destruct x; [destruct Hi|..].
  assert (ev h h2) as He2 by (etrans; [exact He1|by apply ev_same]).
  assert (∀ h3 e, held h3 = held h1 → removeFailed id e h3 = (r, h') → ev h h' ∧ delete id (held h') ⊆ delete id (held h) ∧
    match r with Ok _ => running h' ∧ is_Some (held h' !! id) | Err _ => replies_arrive → held h' ⊆ delete id (held h) end) as Hfail.
  { intros h3 e Hh3 Hr. apply (removeFailed_cases h3 id (start c)) in Hr as (He & -> & Hd & Hf); [|by rewrite Hh3|done].
    rewrite Hh3, Hd1 in Hd, Hf. split_and!; [|done|done]. etrans; [exact He1|]. etrans; [by apply (ev_same _ _ _ h1 h3)|done]. }
  destruct x as [ins|e|e|e]; [|by apply Hfail..].
  unfold mbind, SE_bind. rewrite attempt_eq. pose proof (record_held ins h2) as Hrec.
  destruct (recordDockerWorkloadDNS _ _ _ _ _ _ _ h2) as [[y|e] h3] eqn:E; cbn [fst snd] in *.
  - intros [= <- <-]. rewrite Hrec, Hh2, Hd1. split_and!; [etrans; [exact He2|by apply ev_same]|done| |by rewrite Hc1].
    split; [|by eapply record_answered]. exists id, (start c). rewrite Hrec, Hh2.
    split_and!; [done|by apply made_owned|done].
  - apply Hfail. congruence.
Qed.

(** The relation of failed attempts of a deploy. *)
Definition gives_up (h h' : DockerHost) : Prop := ev h h' ∧ (replies_arrive → held h' ⊆ held h).
#[export] Instance gives_up_pre : PreOrder gives_up.
Proof. split; [by split|]. intros a b c [? Ha] [? Hb]. split; [by etrans|]. intros Hr. etrans; [exact (Hb Hr)|exact (Ha Hr)]. Qed.

(** One attempt of a deploy. *)
Lemma once_cases h o h' : deployWorkloadContainerOnce cfg save delete_record meta w name ctrCfg hostCfg h = (o, h') →
  ev h h' ∧ match o with Done _ => running h' | _ => replies_arrive → held h' ⊆ held h end.
Proof.
  unfold deployWorkloadContainerOnce, permanentDockerDeployError. destruct (createDockerContainer _ _ _ _ _ _ _ _ h) as [x h1] eqn:E.
  apply create_container_cases in E as [He Hc]. destruct x as [id|e]; [|by intros [= <- <-]].
  unfold created in Hc. destruct (String.eqb_spec id "") as [->|Hid'].
  { intros [= <- <-]. split; [done|]. by destruct Hc. }
  rewrite decide_False in Hc by done. destruct Hc as (c & Hm & Hl & Hd).
  destruct (dockerRunAfterCreate _ _ _ _ _ _ _ h1) as [y h2] eqn:Er.
  apply (run_after_create_cases h1 id c) in Er as (He2 & Hd2 & Hy); [|done|done].
  assert (ev h h2) as Hev by by etrans. destruct y as [[]|e].
  - intros [= <- <-]. split; [done|]. by destruct Hy.
  - intros Eo. assert (o = Again e ∨ o = Permanent e) as Ho by (destruct (isDockerMarkedForRemoval e); injection Eo; auto).
    injection Eo as _ <-. split; [done|]. destruct Ho as [-> | ->]; intros Hs; (etrans; [by apply Hy|done]).
Qed.
End deploying.

Lemma client_held h : held (newDockerClient newClient h).2 = held h ∧ dh_dns (newDockerClient newClient h).2 = dh_dns h.
Proof. by destruct newClient as [[]|]. Qed.

Lemma image_held ref h : held (ensureDockerImage ref h).2 = held h.
Proof.
  unfold ensureDockerImage, drainDockerImagePull, mbind, SE_bind. rewrite attempt_eq. unfold annotate. rewrite call_eq. cbn.
  pose proof (pull_spec ref (dh_engine h)) as Hp. destruct (ImagePull ref (dh_engine h)) as [[[[]|e]|e] e1]; cbn in *; [done| |].
  all: rewrite attempt_eq, call_eq; cbn; pose proof (image_spec ref e1) as Hi;
    destruct (ImageInspect ref e1) as [[]]; cbn in *; unfold held; cbn; congruence.
Qed.

(** A deploy acts for its workload only; success leaves it running, failure nothing new. *)
Theorem deploy_cases meta w h r h' : identified meta (w_Name w) →
  docker_Deploy cfg save delete_record newClient meta w h = (r, h') →
  evolves meta (w_Name w) (λ c, ∃ hostCfg, dockerHostConfig cfg meta w = Ok hostCfg ∧
    made meta w (NormalizeImageRef (art_Image (run_Artifact (w_Run w)))) hostCfg c) h h' ∧
  match r with Ok _ => running meta w h' | Err _ => replies_arrive → held h' ⊆ held h end.
Proof.
  intros Hid. unfold docker_Deploy. unfold mbind at 1, SE_bind at 1. pose proof (client_held h) as [Hcl _].
  destruct (newDockerClient newClient h) as [[[]|e] h1]; cbn in Hcl.
  2: { intros [= <- <-]. split; [by apply ev_same|by rewrite Hcl]. }
  cbn beta zeta. set (ref := NormalizeImageRef _). destruct (String.eqb_spec ref "").
  { intros [= <- <-]. split; [by apply ev_same|by rewrite Hcl]. }
  unfold mbind at 1, SE_bind at 1. pose proof (image_held ref h1) as Him.
  destruct (ensureDockerImage ref h1) as [[[]|e] h2]; cbn in Him; rewrite Hcl in Him.
  2: { intros [= <- <-]. split; [by apply ev_same|by rewrite Him]. }
  unfold deployWorkloadContainer, of_res. cbn beta zeta. unfold mbind, SE_bind.
  destruct (dockerHostConfig cfg meta w) as [hostCfg|e] eqn:Eh.
  2: { intros [= <- <-]. split; [by apply ev_same|by rewrite Him]. }
  unfold annotate. destruct (Retry 10 _ h2) as [x h3] eqn:Er. intros Hx.
  apply (retry_last (gives_up meta w ref hostCfg)) in Er; [|lia|].
  2: { intros s e s' Hs. by apply once_cases in Hs. }
  destruct Er as (s0 & o & [Hb1 Hb2] & Ho & Hres). apply once_cases in Ho as [Ho1 Ho2]; [|done].
  assert (h3 = h') as -> by (destruct x; congruence).
  assert (evolves meta (w_Name w) (made meta w ref hostCfg) h2 h') as Hev by by etrans.
  split.
  - destruct Hev as [K S T]. split; rewrite <-?Him; [done| |].
    + intros i c Hi. destruct (S i c Hi); [by left|right; eauto].
    + intros Ht. apply T. destruct Ht as [U N]. split; rewrite ?Him; eauto.
  - destruct o as [[]|e|e]; [subst x|destruct Hres as [e' ->]|subst x]; injection Hx as <-; [done|..].
    all: intros Hs; rewrite <-Him; etrans; [exact (Ho2 Hs)|exact (Hb2 Hs)].
Qed.

Lemma dns_removed meta name d x d' : dns_Enabled cfg = true → ds_store d = true → (∀ rec, is_ok (delete_record rec) = true) →
  RemoveWorkloadA cfg delete_record (md_Namespace meta) name d = (x, d') →
  ds_records d' !! workloadRecordKey (md_Namespace meta) name = None.
Proof.
  intros Hen Hst Hdel Er. destruct (remove_cases cfg Hen _ _ _ _ _ _ Hst Er) as [(_ & _ & ->)|[[e ->] ->]];
    [apply lookup_delete_eq|]. revert Er. unfold RemoveWorkloadA. rewrite Hen, Hst. cbn [negb orb].
  destruct (ds_records d !! _) as [prev|] eqn:E; [|done]. specialize (Hdel prev). by destruct (delete_record prev).
Qed.

(** A stop acts for its workload only; success leaves no container of it and no record. *)
Theorem stop_cases meta name h r h' : identified meta name →
  docker_Stop cfg delete_record newClient meta name h = (r, h') →
  evolves meta name (λ _, False) h h' ∧
  (r = Ok tt → tidy h → (∀ i c, held h' !! i = Some c → ¬ owned meta name c)) ∧
  (r = Ok tt → dns_Enabled cfg = true → ds_store (dh_dns h) = true → (∀ rec, is_ok (delete_record rec) = true) →
     ds_records (dh_dns h') !! workloadRecordKey (md_Namespace meta) name = None).
Proof.
  intros Hid. unfold docker_Stop. unfold mbind at 1, SE_bind at 1. pose proof (client_held h) as [Hcl Hd].
  destruct (newDockerClient newClient h) as [[[]|e] h1]; cbn in Hcl, Hd.
  2: { intros [= <- <-]. split; [by apply ev_same|done]. }
  unfold mbind at 1, SE_bind at 1, annotate at 1. rewrite call_eq.
  pose proof (list_spec (workloadContainerFilters meta name) (dh_engine h1)) as Hl.
  destruct (ContainerList _ (dh_engine h1)) as [[ids|e] e2]; cbn [fst snd].
  2: { intros [= <- <-]. split; [apply ev_same; etrans; [exact Hl|exact Hcl]|done]. }
  destruct Hl as [Hh Hl]. set (h2 := mkDockerHost e2 (dh_dns h1)).
  assert (held h2 = held h) as Hh2 by (etrans; [exact Hh|exact Hcl]).
  assert (∀ i, i ∈ ids ↔ ∃ c, held h !! i = Some c ∧ owned meta name c) as Hids.
  { intros i. rewrite Hl. unfold owned, has_identity. change (containers (dh_engine h1)) with (held h1). by rewrite Hcl. }
  destruct ids as [|id ids].
  - unfold mbind, SE_bind. rewrite attempt_eq. unfold dns.
    destruct (RemoveWorkloadA _ _ _ _ _) as [x d] eqn:Er. intros [= <- <-]. cbn [fst snd]. split; [by apply ev_same|].
    split.
    + intros _ _ i c Hi Ho. assert (i ∈ []) as []%not_elem_of_nil. rewrite Hids. exists c. split; [|done].
      rewrite <-Hh2. exact Hi.
    + intros _ Hen Hst Hdel. cbn in Er. rewrite Hd in Er. by apply dns_removed in Er.
  - unfold mbind, SE_bind, annotate. destruct (call (ContainerRemove id) h2) as [x h3] eqn:Ec.
    pose proof (container_remove_cases _ _ _ _ Ec) as Hr. rewrite call_eq in Ec. injection Ec as Ex Eh.
    assert (∃ c, held h !! id = Some c ∧ owned meta name c) as (c & Hc & Ho) by (apply Hids; left).
    destruct x as [[]|e]; cbn [fst snd] in Hr.
    2: { intros [= <- <-]. split; [|done]. rewrite Hh2 in Hr.
         destruct Hr as [Hr|Hr]; [by apply ev_same|]. eapply ev_delete; [exact Hr|].
         intros c' Hc'. by assert (c' = c) as -> by congruence. }
    rewrite Hh2 in Hr. unfold dns. destruct (RemoveWorkloadA _ _ _ _ _) as [y d] eqn:Er. intros E.
    assert (held h' = delete id (held h)) as Hh' by (destruct y; injection E as <- <-; exact Hr).
    split_and!.
    + eapply ev_delete; [exact Hh'|]. intros c' Hc'. by assert (c' = c) as -> by congruence.
    + intros _ Ht i c' Hi Ho'. rewrite Hh', lookup_delete_Some in Hi. destruct Hi as [Hne Hi]. apply Hne.
      eapply (td_unique _ Ht); [exact Hc|exact Hi|].
      by rewrite (td_named _ Ht _ _ _ _ Hc Ho), (td_named _ Ht _ _ _ _ Hi Ho').
    + intros _ Hen Hst Hdel. replace (dh_dns h') with d by (destruct y; by injection E as <- <-).
      subst h3. cbn in Er. rewrite Hd in Er. by apply dns_removed in Er.
Qed.

End runs.

(** ** Sequences of calls *)
Record docker_answers := mkAnswers { da_save : DnsRecord → res unit; da_delete : DnsRecord → res unit; da_client : option (res unit) }.
Inductive docker_call := CallDeploy (meta : Metadata) (w : Workload) | CallStop (meta : Metadata) (name : string).
Definition called_for (c : docker_call) : Metadata * string :=
  match c with CallDeploy meta w => (meta, w_Name w) | CallStop meta name => (meta, name) end.

Section sequences.
Context `{UnicodeLower, DnsLibLaws, EngineLaws, BackoffLaws, MapRange} (cfg : DNSConfig).

Definition run_call (h : DockerHost) (c : docker_answers * docker_call) : DockerHost :=
  match c with
  | (a, CallDeploy meta w) => (docker_Deploy cfg (da_save a) (da_delete a) (da_client a) meta w h).2
  | (a, CallStop meta name) => (docker_Stop cfg (da_delete a) (da_client a) meta name h).2
  end.
Definition run_calls (cs : list (docker_answers * docker_call)) (h : DockerHost) : DockerHost := foldl run_call h cs.

Definition valid_call (c : docker_answers * docker_call) : Prop := let '(meta, name) := called_for c.2 in identified meta name.

Lemma run_call_evolves c h : valid_call c →
  ∃ P, evolves (called_for c.2).1 (called_for c.2).2 P h (run_call h c).
Proof.
  intros Hv. destruct c as [a [meta w|meta name]]; cbn in *.
  - destruct (docker_Deploy _ _ _ _ _ _ h) as [r h'] eqn:E. apply deploy_cases in E as [He _]; [|done]. eauto.
  - destruct (docker_Stop _ _ _ _ _ h) as [r h'] eqn:E. apply stop_cases in E as [He _]; [|done]. eauto.
Qed.

Theorem run_calls_tidy cs h : Forall valid_call cs → tidy h → tidy (run_calls cs h).
Proof.
  intros Hv. revert h. induction Hv as [|c cs Hc _ IH]; intros h Ht; [done|]. cbn. apply IH.
  destruct (run_call_evolves c h Hc) as [P He]. by apply (ev_tidy _ _ _ _ _ He).
Qed.

(** The containers of workloads no call is about. *)
Theorem run_calls_foreign cs h i c : Forall valid_call cs →
  Forall (λ x, ¬ owned (called_for x.2).1 (called_for x.2).2 c) cs →
  held h !! i = Some c → held (run_calls cs h) !! i = Some c.
Proof.
  intros Hv. revert h. induction Hv as [|x cs Hx _ IH]; intros h Hf Hi; [done|].
  apply Forall_cons in Hf as [Hfx Hf]. cbn. apply IH; [done|].
  destruct (run_call_evolves x h Hx) as [P He]. by apply (ev_keep _ _ _ _ _ He).
Qed.

Theorem tidy_once h meta name i j ci cj : tidy h → held h !! i = Some ci → held h !! j = Some cj →
  owned meta name ci → owned meta name cj → i = j.
Proof.
  intros Ht Hi Hj Hoi Hoj. eapply (td_unique _ Ht); [exact Hi|exact Hj|].
  by rewrite (td_named _ Ht _ _ _ _ Hi Hoi), (td_named _ Ht _ _ _ _ Hj Hoj).
Qed.
End sequences.
