(* ===== verification/Containerd.v ===== *)
(** * The containerd runtime (internal/runtime/containerd)

    The provider drives containerd by the CRI.  As for Docker the runtime service is a
    parameter, a state with the calls the provider makes; what CRI documents about them is in
    [CriLaws]. *)
From stdpp Require Import base strings numbers gmap list.
From Stdlib Require Import Ascii.
From S2P Require Import Prelude GoStrings GoTime GoNet GoList Deploy Meta GoText Placement Fsm TaskBase Dns Runtime Effects.

(** ** The service's data *)
Record CriDNS := mkCriDNS { cd_Servers : list string; cd_Searches : list string }.
Record SandboxConfig := mkSandboxConfig {
  sb_Name : string; sb_Uid : string; sb_Namespace : string; sb_Hostname : string; sb_LogDirectory : string;
  sb_DNS : option CriDNS; sb_Labels : gmap string string; sb_Annotations : gmap string string }.
Record CriMount := mkCriMount { cm_ContainerPath : string; cm_HostPath : string; cm_Readonly : bool }.
Record CriResources := mkCriResources { cr_MemoryLimit : Z; cr_CpuQuota : Z; cr_CpuPeriod : Z }.
Record CtrConfig := mkCtrConfig {
  cf_Name : string; cf_Image : string; cf_Command : list string; cf_Args : list string; cf_WorkingDir : string;
  cf_Envs : list (string * string); cf_Labels : gmap string string; cf_LogPath : string; cf_Mounts : list CriMount;
  cf_Resources : option CriResources }.

Inductive CtrState := CtrCreated | CtrRunning | CtrExited | CtrUnknown | CtrOther (s : string).
#[export] Instance CtrState_eq_dec : EqDecision CtrState.
Proof. solve_decision. Defined.
(** A container in a listing: its id and its sandbox. *)
Record CtrInfo := mkCtrInfo { ci_Id : string; ci_PodSandboxId : string }.
Record CtrStatus := mkCtrStatus {
  cst_Id : string; cst_State : CtrState; cst_StartedAt : Z; cst_Reason : string; cst_Message : string;
  cst_ExitCode : Z; cst_LogPath : string }.

(** Elements of listings and statuses may be nil. *)
Class CRI := {
  cri : Type;
  ListContainers : gmap string string → cri → res (list (option CtrInfo)) * cri;
  ContainerStatus : string → cri → res (option CtrStatus) * cri;
  StopContainer : string → cri → res unit * cri;
  RemoveContainer : string → cri → res unit * cri;
  ListPodSandbox : gmap string string → cri → res (list (option string)) * cri;
  StopPodSandbox : string → cri → res unit * cri;
  RemovePodSandbox : string → cri → res unit * cri;
  PodSandboxStatus : string → cri → res string * cri;      (** the address; empty when there is none *)
  PullImage : string → SandboxConfig → cri → res unit * cri;
  RunPodSandbox : SandboxConfig → cri → res string * cri;
  CreateContainer : string → CtrConfig → SandboxConfig → cri → res string * cri;
  StartContainer : string → cri → res unit * cri;
}.
(** The order in which a set of ids is ranged over. *)
Class SetRange := set_range : gset string → list string.
Class SetRangeLaws `{SetRange} := set_range_all s x : x ∈ set_range s ↔ x ∈ s.

Record CriHost `{CRI} := mkCriHost { ch_cri : cri; ch_dns : DnsService }.
Arguments mkCriHost {_}.

(** ** deploy_linux.go: what a workload asks for *)
Definition criSandboxID (meta : Metadata) (workloadName : string) : string := OrchContainerName meta workloadName.

Definition containerdSandboxNamespace (meta : Metadata) (w : Workload) : string :=
  let ns := match opt_Containerd (run_Options (w_Run w)) with Some c => TrimSpace (containerd_Namespace c) | None => "" end in
  if negb (ns =? "")%string then ns else NamespaceOrDefault (md_Namespace meta).

Definition criWorkloadLabels (meta : Metadata) (w : Workload) : gmap string string := LabelMap meta w.
Definition criWorkloadLabelSelector (meta : Metadata) (workloadName : string) : gmap string string :=
  {["orch.io/namespace" := NamespaceOrDefault (md_Namespace meta); "orch.io/workload" := TrimSpace workloadName]}.

Definition criEnv (vars : list EnvVar) : list (string * string) :=
  omap (λ v, let name := TrimSpace (env_Name v) in if (name =? "")%string then None else Some (name, env_Value v)) vars.

Definition criLinuxResources (w : Workload) : option CriResources :=
  r ← w_Resources w;
  let memory := if (0 <? res_MemoryBytes r)%Z then res_MemoryBytes r else 0%Z in
  let '(quota, period) := if (0 <? res_CPUMillis r)%Z then CFSQuota (res_CPUMillis r) else (0, 0)%Z in
  if (memory =? 0)%Z && (quota =? 0)%Z && (period =? 0)%Z then None else Some (mkCriResources memory quota period).

(** ** status_linux.go *)
Definition stoppedContainerdStatus (workloadName : string) : RuntimeStatus :=
  mkStatus (TrimSpace workloadName) RuntimeContainerd "stopped" "" 0 0 "".

Definition criContainerStateStatus `{UnicodeLower} (st : CtrState) : string :=
  match st with
  | CtrCreated => "created" | CtrRunning => "running" | CtrExited => "exited" | CtrUnknown => "unknown"
  | CtrOther s => ToLower (TrimPrefix s "CONTAINER_")
  end.

Definition criContainerMessage (status : option CtrStatus) : string :=
  match status with
  | None => ""
  | Some st =>
      let reason := TrimSpace (cst_Reason st) in
      let parts := if (reason =? "")%string then [] else [reason] in
      let message := TrimSpace (cst_Message st) in
      let parts := if (message =? "")%string || bool_decide (message ∈ parts) then parts else parts ++ [message] in
      let parts := if bool_decide (cst_State st = CtrExited) then parts ++ ["exit code " +:+ Itoa (cst_ExitCode st)] else parts in
      String.concat ": " parts
  end.

(** [now] is [time.Now().UTC()]; times are nanoseconds, [unix] converts from the Unix epoch. *)
Definition applyCRIContainerStatus `{UnicodeLower} (now : Z) (unix : Z → Z) (out : RuntimeStatus) (status : option CtrStatus)
    : RuntimeStatus :=
  match status with
  | None => out
  | Some st =>
      mkStatus (rs_Name out) (rs_Runtime out) (criContainerStateStatus (cst_State st)) (TrimSpace (cst_Id st))
        (if (0 <? cst_StartedAt st)%Z then unix (cst_StartedAt st) else rs_StartedAt out) now (criContainerMessage status)
  end.

Section provider.
Context `{UnicodeLower, DnsLib, CRI, Backoff, SetRange}.
Variables (cfg : DNSConfig) (save delete_record : DnsRecord → res unit) (has_dns : bool).   (* DNS; [p.dns != nil] *)
Variables (DefaultDataRoot root : string).
(** [dialCRI], [os.MkdirAll] of the log directory and of a volume, and reading a log file. *)
Variables (dial : res unit) (mkdirAll : string → res unit) (readFile : string → res (option (list ascii))).

Definition rootOrDefault : string :=
  if negb (TrimSpace root =? "")%string then path_Clean root else filepath_Join [DefaultDataRoot; "runtime"; "containerd"].
Definition logDir (meta : Metadata) (workloadName : string) : string :=
  filepath_Join [rootOrDefault; "logs"; criSandboxID meta workloadName].

(** The provider has a DNS service or the interface value holds nil, which answers no. *)
Definition criDNSConfig (namespace : string) : option CriDNS :=
  if has_dns then ns ← WorkloadNameserver cfg; Some (mkCriDNS [ns] (WorkloadSearchDomains cfg namespace)) else None.

Definition criSandboxConfig (meta : Metadata) (w : Workload) : SandboxConfig :=
  let appNS := NamespaceOrDefault (md_Namespace meta) in
  let name := criSandboxID meta (w_Name w) in
  mkSandboxConfig name name (containerdSandboxNamespace meta w) (SanitizeName (w_Name w)) (logDir meta (w_Name w))
    (criDNSConfig appNS) (criWorkloadLabels meta w)
    {["orch.io/app" := md_Name meta; "orch.io/namespace" := appNS; "orch.io/workload" := w_Name w]}.

Definition criContainerMounts (meta : Metadata) (w : Workload) : res (list CriMount) :=
  mounts ← LocalMounts rootOrDefault meta w;
  _ ← EnsureLocalMountSources mkdirAll mounts;
  Ok ((λ m, mkCriMount (rm_Target m) (rm_SourcePath m) (rm_ReadOnly m)) <$> mounts).

Definition criContainerConfig (ref : string) (meta : Metadata) (w : Workload) : res CtrConfig :=
  mounts ← criContainerMounts meta w;
  Ok (mkCtrConfig (SanitizeName (w_Name w)) ref (exec_Command (run_Exec (w_Run w))) (exec_Args (run_Exec (w_Run w)))
        (TrimSpace (run_Cwd (w_Run w))) (criEnv (run_Env (w_Run w))) (criWorkloadLabels meta w)
        (SanitizeName (w_Name w) +:+ ".log") mounts (criLinuxResources w)).

(** A call to the runtime service, and one to the DNS service. *)
Definition cri_call {A} (f : cri → res A * cri) : SE CriHost A := λ h,
  let '(r, e) := f (ch_cri h) in (r, mkCriHost e (ch_dns h)).
Definition cri_dns (f : DnsService → res unit * DnsService) : SE CriHost unit := λ h,
  let '(r, d) := f (ch_dns h) in (r, mkCriHost (ch_cri h) d).
(** A call whose error is dropped. *)
Definition ignoring {A} (m : SE CriHost A) : SE CriHost unit := _ ← attempt m; mret tt.

(** ** deploy_recovery_linux.go *)
Definition criContainerStatus (containerID : string) : SE CriHost (option CtrStatus) :=
  annotate "containerd CRI container status" [] (cri_call (ContainerStatus containerID)).

Definition removeCRIContainer (containerID : string) : SE CriHost unit :=
  if (TrimSpace containerID =? "")%string then mret tt
  else _ ← ignoring (cri_call (StopContainer containerID));
       annotate "containerd CRI remove container" [] (cri_call (RemoveContainer containerID)).

(** One attempt to read the address. *)
Definition sandboxIPOnce (sandboxID : string) (h : CriHost) : outcome string * CriHost :=
  match cri_call (PodSandboxStatus sandboxID) h with
  | (Err e, h') => (Again e, h')
  | (Ok raw, h') => (let ip := TrimSpace raw in if negb (ip =? "")%string then Done ip else Again (Errorf "sandbox ip pending" []), h')
  end.

(** Whether the address is still pending decides which error it is. *)
Definition waitSandboxIP (sandboxID : string) : SE CriHost string :=
  r ← attempt (Retry 40 (sandboxIPOnce sandboxID));
  match r with
  | Ok ip => mret ip
  | Err e => if decide (e = Errorf "sandbox ip pending" []) then raise (Errorf "timeout waiting for sandbox ip" [])
             else raise (Wrapf e "containerd CRI sandbox status" [])
  end.

Definition recordCRIWorkloadDNS (meta : Metadata) (w : Workload) (sandboxID : string) : SE CriHost unit :=
  if negb has_dns then mret tt
  else ip ← waitSandboxIP sandboxID;
       cri_dns (UpsertWorkloadA cfg save delete_record (md_Namespace meta) (w_Name w) ip).

(** The loop over the containers found: the sandbox of the first that runs; the others are
    removed. *)
Fixpoint sortOutContainers (running : option string) (l : list CtrInfo) : SE CriHost (option string) :=
  match l with
  | [] => mret running
  | c :: l =>
      let sandboxID := TrimSpace (ci_PodSandboxId c) in
      let id := TrimSpace (ci_Id c) in
      if (id =? "")%string then sortOutContainers running l
      else
        status ← criContainerStatus id;
        if match status with Some st => bool_decide (cst_State st = CtrRunning) | None => false end
        then sortOutContainers
               (match running with None | Some EmptyString => Some sandboxID | _ => running end) l
        else _ ← removeCRIContainer id; sortOutContainers running l
  end.

Definition prepareExistingCRIContainers (meta : Metadata) (w : Workload) (containers : list (option CtrInfo))
    : SE CriHost bool :=
  running ← sortOutContainers None (omap id containers);
  match running with
  | Some sandboxID => _ ← recordCRIWorkloadDNS meta w sandboxID; mret true
  | None => mret false
  end.

Definition sandboxIDsFromList (items : list (option string)) : gset string :=
  list_to_set (filter (λ id, TrimSpace id ≠ "") (omap id items)).

(** Every sandbox is removed; the first error is kept. *)
Fixpoint removeSandboxList (l : list string) (err : option error) : SE CriHost unit :=
  match l with
  | [] => match err with Some e => raise e | None => mret tt end
  | id :: l =>
      if (TrimSpace id =? "")%string then removeSandboxList l err
      else
        _ ← ignoring (cri_call (StopPodSandbox id));
        r ← attempt (cri_call (RemovePodSandbox id));
        removeSandboxList l (match r, err with
                             | Err e, None => Some (Wrapf e "containerd CRI remove sandbox" [])
                             | _, _ => err
                             end)
  end.
Definition removeCRISandboxes (sandboxIDs : gset string) : SE CriHost unit := removeSandboxList (set_range sandboxIDs) None.

Definition prepareExistingCRIWorkload (meta : Metadata) (w : Workload) : SE CriHost bool :=
  let labels := criWorkloadLabelSelector meta (w_Name w) in
  containers ← annotate "containerd CRI list containers" [] (cri_call (ListContainers labels));
  ready ← prepareExistingCRIContainers meta w containers;
  if (ready : bool) then mret true
  else
    sandboxes ← annotate "containerd CRI list sandboxes" [] (cri_call (ListPodSandbox labels));
    _ ← removeCRISandboxes (sandboxIDsFromList sandboxes);
    mret false.

Definition cleanupCRIWorkload (containerID sandboxID : string) : SE CriHost unit :=
  _ ← (if (TrimSpace containerID =? "")%string then mret tt
       else _ ← ignoring (cri_call (StopContainer containerID)); ignoring (cri_call (RemoveContainer containerID)));
  if (TrimSpace sandboxID =? "")%string then mret tt
  else _ ← ignoring (cri_call (StopPodSandbox sandboxID)); ignoring (cri_call (RemovePodSandbox sandboxID)).

(** Clean up and fail. *)
Definition undo {A} (containerID sandboxID : string) (e : error) : SE CriHost A :=
  _ ← cleanupCRIWorkload containerID sandboxID; raise e.

(** ** Deploy: after the image was pulled *)
Definition startInSandbox (meta : Metadata) (w : Workload) (ref : string) (sandboxCfg : SandboxConfig) (sandboxID : string)
    : SE CriHost unit :=
  match criContainerConfig ref meta w with
  | Err e => undo "" sandboxID (Wrapf e "containerd CRI container config" [])
  | Ok containerCfg =>
      created ← attempt (cri_call (CreateContainer sandboxID containerCfg sandboxCfg));
      match created with
      | Err e => undo "" sandboxID (Wrapf e "containerd CRI create container" [])
      | Ok containerID =>
          started ← attempt (cri_call (StartContainer containerID));
          match started with
          | Err e => undo containerID sandboxID (Wrapf e "containerd CRI start container" [])
          | Ok _ =>
              address ← attempt (waitSandboxIP sandboxID);
              match address with
              | Err e => undo containerID sandboxID e
              | Ok ip =>
                  if negb has_dns then mret tt
                  else
                    recorded ← attempt (cri_dns (UpsertWorkloadA cfg save delete_record (md_Namespace meta) (w_Name w) ip));
                    match recorded with Err e => undo containerID sandboxID e | Ok _ => mret tt end
              end
          end
      end
  end.

Definition containerd_Deploy (meta : Metadata) (w : Workload) : SE CriHost unit :=
  _ ← of_res dial;
  let ref := NormalizeImageRef (art_Image (run_Artifact (w_Run w))) in
  if (ref =? "")%string then raise (Errorf "workload %q: run.artifact.image is required" [AStr (w_Name w)])
  else
    ready ← prepareExistingCRIWorkload meta w;
    if (ready : bool) then mret tt
    else
      let sandboxCfg := criSandboxConfig meta w in
      _ ← annotate "create containerd CRI log dir" [] (of_res (mkdirAll (sb_LogDirectory sandboxCfg)));
      _ ← annotate "containerd CRI pull %q" [AStr ref] (cri_call (PullImage ref sandboxCfg));
      sandboxID ← annotate "containerd CRI run sandbox" [] (cri_call (RunPodSandbox sandboxCfg));
      startInSandbox meta w ref sandboxCfg sandboxID.

(** ** stop_linux.go *)

(** The first error of a run of calls. *)
Definition first_error (err : option error) (r : res unit) (what : string) : option error :=
  match err, r with None, Err e => Some (Wrapf e what []) | _, _ => err end.

Fixpoint stopContainers (l : list CtrInfo) (err : option error) (sandboxIDs : gset string)
    : SE CriHost (option error * gset string) :=
  match l with
  | [] => mret (err, sandboxIDs)
  | c :: l =>
      let sandboxID := TrimSpace (ci_PodSandboxId c) in
      let sandboxIDs := if (sandboxID =? "")%string then sandboxIDs else {[sandboxID]} ∪ sandboxIDs in
      let id := TrimSpace (ci_Id c) in
      if (id =? "")%string then stopContainers l err sandboxIDs
      else
        stopped ← attempt (cri_call (StopContainer id));
        removed ← attempt (cri_call (RemoveContainer id));
        stopContainers l (first_error (first_error err stopped "containerd CRI stop container") removed
          "containerd CRI remove container") sandboxIDs
  end.

Fixpoint stopSandboxes (l : list string) (err : option error) : SE CriHost (option error) :=
  match l with
  | [] => mret err
  | id :: l =>
      stopped ← attempt (cri_call (StopPodSandbox id));
      removed ← attempt (cri_call (RemovePodSandbox id));
      stopSandboxes l (first_error (first_error err stopped "containerd CRI stop sandbox") removed "containerd CRI remove sandbox")
  end.

Definition containerd_Stop (meta : Metadata) (workloadName : string) : SE CriHost unit :=
  _ ← of_res dial;
  let labels := criWorkloadLabelSelector meta workloadName in
  containers ← annotate "containerd CRI list containers" [] (cri_call (ListContainers labels));
  '(err, sandboxIDs) ← stopContainers (omap id containers) None ∅;
  match err with
  | Some e => raise e
  | None =>
      sandboxes ← annotate "containerd CRI list sandboxes" [] (cri_call (ListPodSandbox labels));
      err ← stopSandboxes (set_range (sandboxIDs ∪ sandboxIDsFromList sandboxes)) None;
      match err with
      | Some e => raise e
      | None => if has_dns then cri_dns (RemoveWorkloadA cfg delete_record (md_Namespace meta) workloadName) else mret tt
      end
  end.

(** ** status_linux.go *)
Definition firstCRIContainerID (meta : Metadata) (workloadName : string) : SE CriHost string :=
  containers ← annotate "containerd CRI list containers" []
    (cri_call (ListContainers (criWorkloadLabelSelector meta workloadName)));
  (* a nil element has the empty id *)
  mret (default "" (head (filter (λ i, i ≠ "") ((λ c, TrimSpace (default "" (ci_Id <$> c))) <$> containers)))).

Definition containerd_Status (now : Z) (unix : Z → Z) (meta : Metadata) (workloadName : string) : SE CriHost RuntimeStatus :=
  _ ← of_res dial;
  containerID ← firstCRIContainerID meta workloadName;
  if (containerID =? "")%string then mret (stoppedContainerdStatus workloadName)
  else status ← criContainerStatus containerID;
       mret (applyCRIContainerStatus now unix (stoppedContainerdStatus workloadName) status).

Definition criContainerLogPath (meta : Metadata) (workloadName : string) (status : option CtrStatus) : string :=
  let logPath := TrimSpace (match status with Some st => cst_LogPath st | None => "" end) in
  let logPath := if (logPath =? "")%string then SanitizeName workloadName +:+ ".log" else logPath in
  if HasPrefix logPath "/" then path_Clean logPath else filepath_Join [logDir meta workloadName; logPath].

Definition containerd_Logs (meta : Metadata) (workloadName : string) (tail : Z) : SE CriHost LogResult :=
  _ ← of_res dial;
  containerID ← firstCRIContainerID meta workloadName;
  if (containerID =? "")%string then raise (Errorf "containerd container for workload %q not found" [AStr workloadName])
  else
    status ← criContainerStatus containerID;
    let source := criContainerLogPath meta workloadName status in
    content ← annotate "containerd CRI read logs" [] (of_res (ReadTailFile (readFile source) tail));
    mret (mkLogResult (TrimSpace workloadName) RuntimeContainerd source (of_bytes content)).
End provider.
