(* ===== verification/ContainerdSpec.v ===== *)
(** * What the containerd runtime guarantees

    Whatever does not carry the namespace and the workload name of a call is left alone, a deploy
    that succeeds leaves a started container with them and a stop that succeeds leaves none.  The
    application is not part of what the provider looks for. *)
From stdpp Require Import base strings numbers gmap list.
From Stdlib Require Import Ascii.
From S2P Require Import Prelude GoStrings GoTime GoNet GoList Deploy Meta GoText Placement Fsm TaskBase Dns Runtime Effects Containerd.

(** ** The documented behaviour of the runtime service *)
Record Ctr := mkCtr { cx_pod : string; cx_labels : gmap string string; cx_config : CtrConfig; cx_started : bool }.
Record Pod := mkPod { pd_labels : gmap string string; pd_config : SandboxConfig }.
Definition started (c : Ctr) : Ctr := mkCtr (cx_pod c) (cx_labels c) (cx_config c) true.

(** What a call that succeeds does.  Removing a sandbox removes the containers in it. *)
Definition runs_pod (sc : SandboxConfig) (id : string) (p p' : gmap string Pod) : Prop :=
  p !! id = None ∧ p' = <[id := mkPod (sb_Labels sc) sc]> p.
Definition creates_ctr (pod : string) (cc : CtrConfig) (id : string) (p : gmap string Pod) (c c' : gmap string Ctr) : Prop :=
  is_Some (p !! pod) ∧ c !! id = None ∧ c' = <[id := mkCtr pod (cf_Labels cc) cc false]> c.
Definition starts_ctr (id : string) (c c' : gmap string Ctr) : Prop :=
  ∃ x, c !! id = Some x ∧ c' = <[id := started x]> c.
(** A removal of a sandbox that may have stopped half-way: some of its containers are gone, and it is
    only gone itself when all of them are. *)
Definition partly_removes (id : string) (p p' : gmap string Pod) (c c' : gmap string Ctr) : Prop :=
  (p' = p ∨ p' = delete id p ∧ ∀ i x, c' !! i = Some x → cx_pod x ≠ id) ∧
  c' ⊆ c ∧ ∀ i x, c !! i = Some x → cx_pod x ≠ id → c' !! i = Some x.

(** A call that fails did what it was asked to, in part, or nothing: its reply may have been lost. *)
Class CriLaws `{CRI} := {
  ctrs : cri → gmap string Ctr;
  pods : cri → gmap string Pod;
  ctr_id e i : is_Some (ctrs e !! i) → TrimSpace i = i ∧ i ≠ "";
  pod_id e i : is_Some (pods e !! i) → TrimSpace i = i ∧ i ≠ "";
  list_ctrs_spec sel e :
    let '(r, e') := ListContainers sel e in ctrs e' = ctrs e ∧ pods e' = pods e ∧
    ∀ l, r = Ok l → NoDup (ci_Id <$> omap id l) ∧
      (∀ i, Some i ∈ l → ∃ c, ctrs e !! ci_Id i = Some c ∧ sel ⊆ cx_labels c ∧ ci_PodSandboxId i = cx_pod c) ∧
      (∀ i c, ctrs e !! i = Some c → sel ⊆ cx_labels c → ∃ x, Some x ∈ l ∧ ci_Id x = i);
  status_spec id e :
    let '(r, e') := ContainerStatus id e in ctrs e' = ctrs e ∧ pods e' = pods e ∧
    ∀ st, r = Ok (Some st) → cst_State st = CtrRunning → ∃ c, ctrs e !! id = Some c ∧ cx_started c = true;
  stop_ctr_spec id e : let '(_, e') := StopContainer id e in ctrs e' = ctrs e ∧ pods e' = pods e;
  remove_ctr_spec id e :
    let '(r, e') := RemoveContainer id e in
    pods e' = pods e ∧ match r with
      | Ok _ => ctrs e' = delete id (ctrs e)
      | Err _ => ctrs e' = ctrs e ∨ ctrs e' = delete id (ctrs e)
      end;
  list_pods_spec sel e :
    let '(r, e') := ListPodSandbox sel e in ctrs e' = ctrs e ∧ pods e' = pods e ∧
    ∀ l, r = Ok l → (∀ i, Some i ∈ l → ∃ p, pods e !! i = Some p ∧ sel ⊆ pd_labels p) ∧
      (∀ i p, pods e !! i = Some p → sel ⊆ pd_labels p → Some i ∈ l);
  stop_pod_spec id e : let '(_, e') := StopPodSandbox id e in ctrs e' = ctrs e ∧ pods e' = pods e;
  remove_pod_spec id e :
    let '(r, e') := RemovePodSandbox id e in
    match r with
    | Ok _ => pods e' = delete id (pods e) ∧ ctrs e' = filter (λ ic, cx_pod ic.2 ≠ id) (ctrs e)
    | Err _ => partly_removes id (pods e) (pods e') (ctrs e) (ctrs e')
    end;
  pod_status_spec id e : let '(_, e') := PodSandboxStatus id e in ctrs e' = ctrs e ∧ pods e' = pods e;
  pull_spec ref sc e : let '(_, e') := PullImage ref sc e in ctrs e' = ctrs e ∧ pods e' = pods e;
  run_pod_spec sc e :
    let '(r, e') := RunPodSandbox sc e in ctrs e' = ctrs e ∧
    match r with
    | Ok id => runs_pod sc id (pods e) (pods e')
    | Err _ => pods e' = pods e ∨ ∃ id, runs_pod sc id (pods e) (pods e')
    end;
  create_spec pod cc sc e :
    let '(r, e') := CreateContainer pod cc sc e in pods e' = pods e ∧
    match r with
    | Ok id => creates_ctr pod cc id (pods e) (ctrs e) (ctrs e')
    | Err _ => ctrs e' = ctrs e ∨ ∃ id, creates_ctr pod cc id (pods e) (ctrs e) (ctrs e')
    end;
  start_spec id e :
    let '(r, e') := StartContainer id e in pods e' = pods e ∧
    match r with
    | Ok _ => starts_ctr id (ctrs e) (ctrs e')
    | Err _ => ctrs e' = ctrs e ∨ starts_ctr id (ctrs e) (ctrs e')
    end;
}.

Section runs.
Context `{UnicodeLower, DnsLib, CriLaws, BackoffLaws, SetRangeLaws}.
Variables (cfg : DNSConfig) (save delete_record : DnsRecord → res unit) (has_dns : bool).
Variables (DefaultDataRoot root : string) (dial : res unit) (mkdirAll : string → res unit).

Definition C (h : CriHost) : gmap string Ctr := ctrs (ch_cri h).
Definition P (h : CriHost) : gmap string Pod := pods (ch_cri h).

Section one.
Variables (meta : Metadata) (name : string).
Definition selected (labels : gmap string string) : Prop := criWorkloadLabelSelector meta name ⊆ labels.

(** Every container is in a sandbox, and it is selected if the sandbox is. *)
Definition housed (h : CriHost) : Prop :=
  ∀ i c, C h !! i = Some c → ∃ p, P h !! cx_pod c = Some p ∧ (selected (cx_labels c) ↔ selected (pd_labels p)).

(** Only what is selected changes. *)
Record spares (h h' : CriHost) : Prop := {
  sp_ctr i c : ¬ selected (cx_labels c) → C h !! i = Some c → C h' !! i = Some c;
  sp_pod i p : ¬ selected (pd_labels p) → P h !! i = Some p → P h' !! i = Some p;
  sp_housed : housed h';
}.
Definition acts (h h' : CriHost) : Prop := housed h → spares h h'.
#[export] Instance acts_pre : PreOrder acts.
Proof.
  split; [by split|]. intros a b c Hab Hbc Ha. destruct (Hab Ha) as [A1 A2 A3]. destruct (Hbc A3) as [B1 B2 B3].
  split; eauto.
Qed.

(** Only removals. *)
Definition shrinks (h h' : CriHost) : Prop := acts h h' ∧ C h' ⊆ C h ∧ P h' ⊆ P h.
#[export] Instance shrinks_pre : PreOrder shrinks.
Proof. split; [by split|]. intros a b c (A1 & A2 & A3) (B1 & B2 & B3).
  split_and!; [exact (transitivity A1 B1)|exact (transitivity B2 A2)|exact (transitivity B3 A3)]. Qed.

Lemma acts_same h h' : C h' = C h → P h' = P h → acts h h'.
Proof. intros E1 E2 Hh. split; rewrite ?E1, ?E2; eauto. unfold housed. by rewrite E1, E2. Qed.
Lemma shrinks_same h h' : C h' = C h → P h' = P h → shrinks h h'.
Proof. intros E1 E2. split; [by apply acts_same|]. by rewrite E1, E2. Qed.

Lemma shrinks_ctr h h' i : C h' = delete i (C h) → P h' = P h → (∀ c, C h !! i = Some c → selected (cx_labels c)) → shrinks h h'.
Proof.
  intros E1 E2 Hi. split; [|rewrite E1, E2; split; [apply delete_subseteq|done]]. intros Hh. split; rewrite ?E1, ?E2; [|by eauto|].
  - intros j c Hc Hj. rewrite lookup_delete_ne; [done|]. intros ->. by apply Hc, Hi.
  - intros j c. rewrite E1, E2. intros [_ Hj]%lookup_delete_Some. by apply (Hh j).
Qed.

Lemma shrinks_pod h h' i : partly_removes i (P h) (P h') (C h) (C h') →
  (∀ p, P h !! i = Some p → selected (pd_labels p)) → shrinks h h'.
Proof.
  intros (E1 & E2 & E3) Hi.
  split; [|split; [done|destruct E1 as [->|[-> _]]; [done|apply delete_subseteq]]]. intros Hh. split.
  - intros j c Hc Hj. apply E3; [done|]. intros Hp. apply Hc.
    destruct (Hh j c Hj) as (p & Hp' & ->). subst i. by apply Hi.
  - intros j p Hp Hj. destruct E1 as [->|[-> _]]; [done|]. rewrite lookup_delete_ne; [done|]. intros ->. by apply Hp, Hi.
  - intros j c Hj. destruct (Hh j c) as (p & Hp & Hs); [by eapply lookup_weaken|]. exists p. split; [|done].
    destruct E1 as [->|[-> Hn]]; [done|]. rewrite lookup_delete_ne; [done|]. intros ->. by apply (Hn j c).
Qed.

Lemma removes_partly id (p : gmap string Pod) (c : gmap string Ctr) :
  partly_removes id p (delete id p) c (filter (λ ic, cx_pod ic.2 ≠ id) c).
Proof.
  split_and!.
  - right. split; [done|]. by intros i x [_ ?]%map_lookup_filter_Some.
  - apply map_filter_subseteq.
  - intros i x Hi Hx. by apply map_lookup_filter_Some.
Qed.

(** *** Calls *)
Lemma cri_same {A} (f : cri → res A * cri) h :
  (let '(_, e') := f (ch_cri h) in ctrs e' = ctrs (ch_cri h) ∧ pods e' = pods (ch_cri h)) →
  C (cri_call f h).2 = C h ∧ P (cri_call f h).2 = P h.
Proof. unfold cri_call. by destruct (f (ch_cri h)). Qed.

Lemma ignoring_eq {A} (m : SE CriHost A) h : ignoring m h = (Ok tt, (m h).2).
Proof. unfold ignoring, mbind, SE_bind. by rewrite attempt_eq. Qed.

Lemma stop_ctr_same id h : C (cri_call (StopContainer id) h).2 = C h ∧ P (cri_call (StopContainer id) h).2 = P h.
Proof. apply cri_same, stop_ctr_spec. Qed.
Lemma stop_pod_same id h : C (cri_call (StopPodSandbox id) h).2 = C h ∧ P (cri_call (StopPodSandbox id) h).2 = P h.
Proof. apply cri_same, stop_pod_spec. Qed.

Lemma status_same id h : C (criContainerStatus id h).2 = C h ∧ P (criContainerStatus id h).2 = P h.
Proof.
  unfold criContainerStatus, annotate. pose proof (status_spec id (ch_cri h)) as Hs. unfold cri_call.
  destruct (ContainerStatus id (ch_cri h)) as [[]]; destruct Hs as (? & ? & _); done.
Qed.

Definition our_ctr (h : CriHost) (i : string) : Prop := ∀ c, C h !! i = Some c → selected (cx_labels c).
Lemma our_ctr_shrinks h h' i : shrinks h h' → our_ctr h i → our_ctr h' i.
Proof. intros (_ & Hs & _) Ho c Hc. apply Ho. by eapply lookup_weaken. Qed.

Lemma remove_ctr_cases id h r h' : our_ctr h id → cri_call (RemoveContainer id) h = (r, h') →
  shrinks h h' ∧ P h' = P h ∧
  match r with Ok _ => C h' = delete id (C h) | Err _ => C h' = C h ∨ C h' = delete id (C h) end.
Proof.
  intros Ho. unfold cri_call. pose proof (remove_ctr_spec id (ch_cri h)) as Hs.
  destruct (RemoveContainer id (ch_cri h)) as [x e']. destruct Hs as [Hp Hc]. intros [= <- <-].
  destruct x as [[]|e]; split_and!; try done; [by eapply shrinks_ctr|].
  destruct Hc as [Hc|Hc]; [by apply shrinks_same|by eapply shrinks_ctr].
Qed.

Lemma removeCRIContainer_cases id h r h' : our_ctr h id → removeCRIContainer id h = (r, h') →
  shrinks h h' ∧ (∀ j c, j ≠ id → C h !! j = Some c → C h' !! j = Some c).
Proof.
  intros Ho. unfold removeCRIContainer. destruct (TrimSpace id =? "")%string; [by intros [= <- <-]|].
  unfold mbind, SE_bind. rewrite ignoring_eq. destruct (stop_ctr_same id h) as [E1 E2].
  set (h1 := (cri_call (StopContainer id) h).2) in *. unfold annotate.
  destruct (cri_call (RemoveContainer id) h1) as [x h2] eqn:E.
  assert (shrinks h h1) as Hs1 by by apply shrinks_same.
  apply remove_ctr_cases in E as (Hs & HP & HC); [|by eapply our_ctr_shrinks].
  intros Eq. assert (h2 = h') as -> by (destruct x; congruence). split; [by etrans|].
  intros j c Hj Hjc. assert (C h' = C h1 ∨ C h' = delete id (C h1)) as [-> | ->] by (destruct x; auto);
    rewrite E1; [done|by rewrite lookup_delete_ne].
Qed.

(** A container of the workload that was started, apart from some ids. *)
Definition live (h : CriHost) (but : list string) : Prop :=
  ∃ j c, C h !! j = Some c ∧ selected (cx_labels c) ∧ cx_started c = true ∧ j ∉ but.

Lemma sortOut_cases l running h r h' :
  Forall (λ i, TrimSpace (ci_Id i) = ci_Id i ∧ our_ctr h (ci_Id i)) l → NoDup (ci_Id <$> l) →
  (is_Some running → live h (ci_Id <$> l)) → sortOutContainers running l h = (r, h') →
  shrinks h h' ∧ (∀ s, r = Ok (Some s) → live h' []).
Proof.
  revert running h. induction l as [|x l IH]; intros running h Hl Hnd Hrun; cbn [sortOutContainers].
  { intros [= <- <-]. split; [done|]. intros s [= ->]. destruct Hrun as (j & c & ? & ? & ? & ?); [eauto|].
    exists j, c. set_solver. }
  apply Forall_cons in Hl as [[Ht Ho] Hl]. cbn in Hnd. apply NoDup_cons in Hnd as [Hx Hnd]. rewrite Ht.
  assert (∀ h1, shrinks h h1 → Forall (λ i, TrimSpace (ci_Id i) = ci_Id i ∧ our_ctr h1 (ci_Id i)) l) as Hl1.
  { intros h1 Hs. eapply Forall_impl; [exact Hl|]. intros i [? ?]. split; [done|by eapply our_ctr_shrinks]. }
  destruct (String.eqb_spec (ci_Id x) "") as [Hid|Hid].
  { apply IH; [done|done|]. intros Hr. destruct (Hrun Hr) as (j & c & ? & ? & ? & ?). exists j, c. set_solver. }
  unfold mbind, SE_bind. destruct (status_same (ci_Id x) h) as [E1 E2].
  destruct (criContainerStatus (ci_Id x) h) as [[status|e] h1] eqn:Es; cbn [snd] in *.
  2: { intros [= <- <-]. split; [by apply shrinks_same|done]. }
  assert (shrinks h h1) as Hs1 by by apply shrinks_same.
  destruct (match status with Some st => _ | None => _ end) eqn:Er.
  - intros Hgo. apply IH in Hgo as [Hs Hok]; [split; [by etrans|done]|by apply Hl1|done|].
    intros _. destruct status as [st|]; [|done]. apply bool_decide_eq_true in Er.
    assert (∃ c, C h !! ci_Id x = Some c ∧ cx_started c = true) as (c & Hc & Hst).
    { pose proof (status_spec (ci_Id x) (ch_cri h)) as Hsp. revert Es. unfold criContainerStatus, annotate, cri_call.
      destruct (ContainerStatus (ci_Id x) (ch_cri h)) as [y e1]. destruct y as [y|]; [|done]. intros [= -> <-].
      destruct Hsp as (_ & _ & Hsp). by apply (Hsp st). }
    exists (ci_Id x), c. rewrite E1. split_and!; [done|by apply Ho|done|done].
  - destruct (removeCRIContainer (ci_Id x) h1) as [y h2] eqn:Ermv.
    apply removeCRIContainer_cases in Ermv as [Hs2 Hk]; [|by eapply our_ctr_shrinks].
    assert (shrinks h h2) as Hs12 by by etrans.
    destruct y as [[]|e]; [|by intros [= <- <-]]. intros Hgo. apply IH in Hgo as [Hs Hok]; [split; [by etrans|done]|by apply Hl1|done|].
    intros Hr. destruct (Hrun Hr) as (j & c & Hj & Hsel & Hst & Hn). exists j, c.
    rewrite fmap_cons, not_elem_of_cons in Hn. destruct Hn. split_and!; [|done|done|done]. apply Hk; [done|by rewrite E1].
Qed.

(** Reading addresses and records changes neither containers nor sandboxes. *)
Definition still (h h' : CriHost) : Prop := C h' = C h ∧ P h' = P h.
#[export] Instance still_pre : PreOrder still.
Proof. split; [by split|]. intros a b c [? ?] [? ?]. split; congruence. Qed.

Lemma ip_once_still sandbox h : still h (sandboxIPOnce sandbox h).2.
Proof.
  unfold sandboxIPOnce. pose proof (cri_same (PodSandboxStatus sandbox) h (pod_status_spec sandbox (ch_cri h))) as Hs.
  by destruct (cri_call (PodSandboxStatus sandbox) h) as [[] h1].
Qed.

Lemma wait_still sandbox h : still h (waitSandboxIP sandbox h).2.
Proof.
  unfold waitSandboxIP, mbind, SE_bind. rewrite attempt_eq.
  destruct (Retry 40 (sandboxIPOnce sandbox) h) as [x h1] eqn:E.
  apply (retry_last still) in E as (s0 & o & Hr0 & Ho & _); [|lia|].
  2: { intros s e s' Hs. pose proof (ip_once_still sandbox s) as Hst. by rewrite Hs in Hst. }
  pose proof (ip_once_still sandbox s0) as Hst. rewrite Ho in Hst. cbn in *.
  assert (still h h1) by by etrans. destruct x as [ip|e]; [done|]. by destruct (decide _).
Qed.

Lemma dns_still f h : still h (cri_dns f h).2.
Proof. unfold cri_dns. by destruct (f (ch_dns h)). Qed.

Lemma record_still w sandbox h : still h (recordCRIWorkloadDNS cfg save delete_record has_dns meta w sandbox h).2.
Proof.
  unfold recordCRIWorkloadDNS. destruct has_dns; cbn [negb]; [|done]. unfold mbind, SE_bind.
  pose proof (wait_still sandbox h) as Hw. destruct (waitSandboxIP sandbox h) as [[ip|e] h1]; [|done].
  etrans; [exact Hw|apply dns_still].
Qed.

(** *** Sandboxes *)
Definition our_pod (h : CriHost) (i : string) : Prop := ∀ p, P h !! i = Some p → selected (pd_labels p).
Lemma our_pod_shrinks h h' i : shrinks h h' → our_pod h i → our_pod h' i.
Proof. intros (_ & _ & Hs) Ho p Hp. apply Ho. by eapply lookup_weaken. Qed.

Lemma remove_pod_cases id h r h' : our_pod h id → cri_call (RemovePodSandbox id) h = (r, h') →
  shrinks h h' ∧ (is_ok r = true → P h' !! id = None).
Proof.
  intros Ho. unfold cri_call. pose proof (remove_pod_spec id (ch_cri h)) as Hs.
  destruct (RemovePodSandbox id (ch_cri h)) as [x e']. intros [= <- <-].
  destruct x as [[]|e]; [destruct Hs as [Hp Hc]|split; [by eapply shrinks_pod|done]]. split.
  - eapply shrinks_pod; [|exact Ho]. unfold P, C. cbn. rewrite Hp, Hc. apply removes_partly.
  - intros _. unfold P. cbn. rewrite Hp. apply lookup_delete_eq.
Qed.

Lemma removeSandbox_cases l err h r h' : Forall (our_pod h) l → removeSandboxList l err h = (r, h') → shrinks h h'.
Proof.
  revert err h. induction l as [|i l IH]; intros err h Hl; cbn [removeSandboxList].
  { by destruct err; intros [= <- <-]. }
  apply Forall_cons in Hl as [Hi Hl]. destruct (TrimSpace i =? "")%string; [by apply IH|].
  unfold mbind, SE_bind. rewrite ignoring_eq. destruct (stop_pod_same i h) as [E1 E2].
  set (h1 := (cri_call (StopPodSandbox i) h).2) in *. assert (shrinks h h1) as Hs1 by by apply shrinks_same.
  rewrite attempt_eq. destruct (cri_call (RemovePodSandbox i) h1) as [x h2] eqn:E. cbn [fst snd].
  apply remove_pod_cases in E as [Hs2 _]; [|by eapply our_pod_shrinks].
  assert (shrinks h h2) as Hs12 by by etrans. intros Hgo. etrans; [exact Hs12|]. eapply IH; [|exact Hgo].
  eapply Forall_impl; [exact Hl|]. intros j. by apply our_pod_shrinks.
Qed.

(** Listing. *)
Lemma list_ctrs_cases h r h' : annotate "containerd CRI list containers" []
    (cri_call (ListContainers (criWorkloadLabelSelector meta name))) h = (r, h') →
  still h h' ∧ ∀ l, r = Ok l →
    Forall (λ i, TrimSpace (ci_Id i) = ci_Id i ∧ our_ctr h (ci_Id i)) (omap id l) ∧ NoDup (ci_Id <$> omap id l) ∧
    Forall (λ i, is_Some (C h !! ci_Id i) ∧ ci_Id i ≠ "" ∧
      ∃ c, C h !! ci_Id i = Some c ∧ selected (cx_labels c) ∧ ci_PodSandboxId i = cx_pod c) (omap id l) ∧
    (∀ i c, C h !! i = Some c → selected (cx_labels c) → i ∈ ci_Id <$> omap id l).
Proof.
  unfold annotate, cri_call. pose proof (list_ctrs_spec (criWorkloadLabelSelector meta name) (ch_cri h)) as Hs.
  destruct (ListContainers _ (ch_cri h)) as [x e']. destruct Hs as (E1 & E2 & Hs).
  destruct x as [l|e]; intros [= <- <-]; (split; [done|]); [|done]. intros l' [= <-].
  destruct (Hs l eq_refl) as (Hnd & Hin & Hall).
  assert (∀ i, i ∈ omap id l → Some i ∈ l) as Hom.
  { intros i (o & Ho & E)%list_elem_of_omap. cbn in E. by subst o. }
  split_and!; [| done| |].
  - apply Forall_forall. intros i Hi. destruct (Hin i (Hom i Hi)) as (c & Hc & Hsel & _).
    split; [apply (ctr_id (ch_cri h)); eauto|]. intros c' Hc'. unfold C in Hc'. by assert (c' = c) as -> by congruence.
  - apply Forall_forall. intros i Hi. destruct (Hin i (Hom i Hi)) as (c & Hc & Hsel & Hp).
    split_and!; [by eexists|apply (ctr_id (ch_cri h)); eauto|by exists c].
  - intros i c Hi Hsel. destruct (Hall i c Hi Hsel) as (y & Hy & <-). apply list_elem_of_fmap. exists y. split; [done|].
    apply list_elem_of_omap. by exists (Some y).
Qed.

Lemma list_pods_cases h r h' : annotate "containerd CRI list sandboxes" []
    (cri_call (ListPodSandbox (criWorkloadLabelSelector meta name))) h = (r, h') →
  still h h' ∧ ∀ l, r = Ok l → (∀ i, i ∈ sandboxIDsFromList l → our_pod h i) ∧
    (∀ i p, P h !! i = Some p → selected (pd_labels p) → i ∈ sandboxIDsFromList l).
Proof.
  unfold annotate, cri_call. pose proof (list_pods_spec (criWorkloadLabelSelector meta name) (ch_cri h)) as Hs.
  destruct (ListPodSandbox _ (ch_cri h)) as [x e']. destruct Hs as (E1 & E2 & Hs).
  destruct x as [l|e]; intros [= <- <-]; (split; [done|]); [|done]. intros l' [= <-].
  destruct (Hs l eq_refl) as (Hin & Hall). unfold sandboxIDsFromList. split.
  - intros i [_ Hi]%elem_of_list_to_set%list_elem_of_filter. apply list_elem_of_omap in Hi as (o & Ho & E). cbn in E. subst o.
    destruct (Hin i Ho) as (p & Hp & Hsel). intros p' Hp'. unfold P in Hp'. by assert (p' = p) as -> by congruence.
  - intros i p Hp Hsel. apply elem_of_list_to_set, list_elem_of_filter.
    destruct (pod_id (ch_cri h) i) as [Ht Hne]; [by eexists|]. rewrite Ht. split; [done|].
    apply list_elem_of_omap. exists (Some i). split; [by eapply Hall|done].
Qed.

Lemma still_shrinks h h' : still h h' → shrinks h h'.
Proof. intros [? ?]. by apply shrinks_same. Qed.
Lemma live_still h h' l : still h h' → live h l → live h' l.
Proof. intros [E _]. unfold live. by rewrite E. Qed.

(** *** Deploying *)
Section deploying.
Variable w : Workload.
Hypothesis Hname : name = w_Name w.
Hypothesis Htrim : TrimSpace name = name.

Lemma labels_selected : selected (criWorkloadLabels meta w).
Proof.
  unfold selected, criWorkloadLabelSelector, criWorkloadLabels, LabelMap. rewrite Htrim, Hname.
  apply map_subseteq_spec. intros k v. rewrite lookup_insert_Some. intros [[<- <-]|[_ [<- <-]%lookup_singleton_Some]]; by simplify_map_eq.
Qed.

Lemma cri_prepare_cases h r h' : prepareExistingCRIWorkload cfg save delete_record has_dns meta w h = (r, h') →
  shrinks h h' ∧ (r = Ok true → live h' []).
Proof.
  unfold prepareExistingCRIWorkload. rewrite <-Hname. unfold mbind at 1, SE_bind at 1.
  destruct (annotate "containerd CRI list containers" _ _ h) as [x h1] eqn:E.
  apply list_ctrs_cases in E as [Hst Hl]. pose proof (still_shrinks _ _ Hst) as Hs1.
  destruct x as [l|e]; [|by intros [= <- <-]]. destruct (Hl l eq_refl) as (Hf & Hnd & _ & _). clear Hl.
  unfold mbind at 1, SE_bind at 1. unfold prepareExistingCRIContainers, mbind at 1, SE_bind at 1.
  destruct (sortOutContainers None (omap id l) h1) as [y h2] eqn:E.
  apply sortOut_cases in E as [Hs2 Hlive]; [| |done|by intros [? ?]].
  2: { eapply Forall_impl; [exact Hf|]. intros i [? ?]. split; [done|by eapply our_ctr_shrinks]. }
  assert (shrinks h h2) as Hs12 by by etrans.
  destruct y as [[sandbox|]|e]; [| |by intros [= <- <-]].
  { pose proof (record_still w sandbox h2) as Hst3. unfold mbind, SE_bind.
    destruct (recordCRIWorkloadDNS _ _ _ _ _ w sandbox h2) as [[[]|e] h3]; cbn [snd] in Hst3; intros [= <- <-].
    - split; [etrans; [exact Hs12|by apply still_shrinks]|]. intros _. eapply live_still; [exact Hst3|by eapply Hlive].
    - split; [etrans; [exact Hs12|by apply still_shrinks]|done]. }
  cbn [mret SE_ret]. unfold mbind at 1, SE_bind at 1. destruct (annotate "containerd CRI list sandboxes" _ _ h2) as [x3 h3] eqn:E.
  apply list_pods_cases in E as [Hst3 Hl3]. assert (shrinks h h3) as Hs3 by (etrans; [exact Hs12|by apply still_shrinks]).
  destruct x3 as [items|e]; [|by intros [= <- <-]]. destruct (Hl3 items eq_refl) as [Hp _].
  unfold mbind, SE_bind, removeCRISandboxes. destruct (removeSandboxList _ None h3) as [x4 h4] eqn:E.
  apply removeSandbox_cases in E.
  - assert (shrinks h h4) by by etrans. by destruct x4; intros [= <- <-].
  - apply Forall_forall. intros i Hi%set_range_all. eapply our_pod_shrinks; [by apply still_shrinks|by apply Hp].
Qed.

Lemma cleanup_cases ctr pod h r h' : our_ctr h ctr → our_pod h pod → cleanupCRIWorkload ctr pod h = (r, h') → shrinks h h'.
Proof.
  intros Hc Hp. unfold cleanupCRIWorkload. unfold mbind at 1, SE_bind at 1.
  set (m := if (TrimSpace ctr =? "")%string then _ else _).
  assert (∃ h1, m h = (Ok tt, h1) ∧ shrinks h h1) as (h1 & -> & Hs1).
  { unfold m. destruct (TrimSpace ctr =? "")%string; [by exists h|]. unfold mbind, SE_bind. rewrite !ignoring_eq.
    destruct (stop_ctr_same ctr h) as [E1 E2]. set (h0 := (cri_call (StopContainer ctr) h).2) in *.
    assert (shrinks h h0) as Hs0 by by apply shrinks_same.
    destruct (cri_call (RemoveContainer ctr) h0) as [x h1] eqn:E. cbn [snd].
    apply remove_ctr_cases in E as [Hs _]; [|by eapply our_ctr_shrinks]. exists h1. split; [done|by etrans]. }
  destruct (TrimSpace pod =? "")%string; [by intros [= <- <-]|]. unfold mbind, SE_bind. rewrite !ignoring_eq.
  destruct (stop_pod_same pod h1) as [E1 E2]. set (h2 := (cri_call (StopPodSandbox pod) h1).2) in *.
  assert (shrinks h h2) as Hs2 by (etrans; [exact Hs1|by apply shrinks_same]).
  destruct (cri_call (RemovePodSandbox pod) h2) as [x h3] eqn:E. cbn [snd]. intros [= <- <-].
  apply remove_pod_cases in E as [Hs _]; [by etrans|by eapply our_pod_shrinks].
Qed.

Lemma undo_cases {A} ctr pod e h r h' : our_ctr h ctr → our_pod h pod → (undo ctr pod e h = (r : res A, h')) →
  acts h h' ∧ is_ok r = false.
Proof.
  intros Hc Hp. unfold undo, mbind, SE_bind. destruct (cleanupCRIWorkload ctr pod h) as [x h1] eqn:E.
  apply cleanup_cases in E as [Ha _]; [|done|done]. by destruct x; intros [= <- <-].
Qed.

Lemma our_ctr_empty h : our_ctr h "".
Proof. intros c Hc. destruct (ctr_id (ch_cri h) "") as [_ []]; [by eexists|done]. Qed.

(** A new container in a sandbox of the workload, and its start. *)
Lemma created_acts pod cc id h h' : cf_Labels cc = criWorkloadLabels meta w → our_pod h pod → P h' = P h →
  creates_ctr pod cc id (P h) (C h) (C h') → acts h h' ∧ ∃ c, C h' !! id = Some c ∧ selected (cx_labels c).
Proof.
  intros Hl Hp HP ([p Hpod] & Hn & HC). set (c := mkCtr pod (cf_Labels cc) cc false) in *.
  assert (selected (cx_labels c)) as Hsel by (cbn; rewrite Hl; apply labels_selected).
  split; [|exists c; by rewrite HC, lookup_insert_eq].
  intros Hh. split; rewrite ?HP, ?HC; [|by eauto|].
  - intros j cj Hc Hj. rewrite lookup_insert_ne; [done|congruence].
  - intros j cj. rewrite HC, HP, lookup_insert_Some. intros [[<- <-]|[_ Hj]]; [|by apply (Hh j)].
    exists p. split; [done|]. split; intros _; [by apply Hp|done].
Qed.

Lemma cri_create_cases pod cc sc h r h' : cf_Labels cc = criWorkloadLabels meta w → our_pod h pod →
  cri_call (CreateContainer pod cc sc) h = (r, h') →
  acts h h' ∧ P h' = P h ∧ ∀ id, r = Ok id → ∃ c, C h' !! id = Some c ∧ selected (cx_labels c).
Proof.
  intros Hl Hp. unfold cri_call. pose proof (create_spec pod cc sc (ch_cri h)) as Hs.
  destruct (CreateContainer pod cc sc (ch_cri h)) as [x e']. destruct Hs as [HP Hs]. intros [= <- <-].
  set (h1 := mkCriHost e' (ch_dns h)). change (P h1 = P h) in HP.
  destruct x as [id|e]; [|destruct Hs as [Hs|[id Hs]]].
  - apply (created_acts pod cc id h h1 Hl Hp HP) in Hs as [Ha Hc]. split_and!; [done|done|]. by intros ? [= <-].
  - split_and!; [by apply acts_same|done|done].
  - apply (created_acts pod cc id h h1 Hl Hp HP) in Hs as [Ha Hc]. by split_and!.
Qed.

Lemma start_cases id h r h' c : C h !! id = Some c → selected (cx_labels c) → cri_call (StartContainer id) h = (r, h') →
  acts h h' ∧ P h' = P h ∧ (∃ c', C h' !! id = Some c' ∧ selected (cx_labels c') ∧ (is_ok r = true → cx_started c' = true)).
Proof.
  intros Hc Hsel. unfold cri_call. pose proof (start_spec id (ch_cri h)) as Hs.
  destruct (StartContainer id (ch_cri h)) as [x e']. destruct Hs as [HP Hs]. intros [= <- <-]. set (h1 := mkCriHost e' (ch_dns h)).
  change (P h1 = P h) in HP.
  assert (starts_ctr id (C h) (C h1) → acts h h1 ∧ P h1 = P h ∧
    ∃ c', C h1 !! id = Some c' ∧ selected (cx_labels c') ∧ cx_started c' = true) as Hstarted.
  { intros (c0 & Hc0 & HC). assert (c0 = c) as -> by congruence.
    split_and!; [|done|exists (started c); by rewrite HC, lookup_insert_eq]. intros Hh. split; rewrite ?HP, ?HC; [|by eauto|].
    - intros j cj Hn Hj. rewrite lookup_insert_ne; [done|]. intros ->. congruence.
    - intros j cj. rewrite HC, HP, lookup_insert_Some. intros [[<- <-]|[_ Hj]]; [|by apply (Hh j)]. by apply (Hh id c). }
  destruct x as [[]|e]; [|destruct Hs as [Hs|Hs]].
  2: { split_and!; [by apply acts_same|done|]. exists c. by rewrite (Hs : C h1 = C h). }
  all: destruct (Hstarted Hs) as (? & ? & c' & ? & ? & ?); eauto 10.
Qed.

Lemma startInSandbox_cases ref sc pod h r h' : our_pod h pod →
  startInSandbox cfg save delete_record has_dns DefaultDataRoot root mkdirAll meta w ref sc pod h = (r, h') →
  acts h h' ∧ (is_ok r = true → live h' []).
Proof.
  intros Hp. unfold startInSandbox. destruct (criContainerConfig _ _ _ ref meta w) as [cc|e] eqn:Ecc.
  2: { intros Hu. apply undo_cases in Hu as [Ha Hr]; [|apply our_ctr_empty|done]. rewrite Hr. done. }
  assert (cf_Labels cc = criWorkloadLabels meta w) as Hl.
  { revert Ecc. unfold criContainerConfig. destruct (criContainerMounts _ _ _ meta w); [|done]. by intros [= <-]. }
  unfold mbind at 1, SE_bind at 1. rewrite attempt_eq. destruct (cri_call (CreateContainer pod cc sc) h) as [x h1] eqn:Ec.
  apply cri_create_cases in Ec as (Ha1 & HP1 & Hc1); [|done|done]. cbn [fst snd].
  assert (our_pod h1 pod) as Hp1 by by (unfold our_pod; rewrite HP1).
  destruct x as [id|e].
  2: { intros Hu. apply undo_cases in Hu as [Ha Hr]; [|apply our_ctr_empty|done]. rewrite Hr. split; [by etrans|done]. }
  destruct (Hc1 id eq_refl) as (c & Hc & Hsel).
  unfold mbind at 1, SE_bind at 1. rewrite attempt_eq. destruct (cri_call (StartContainer id) h1) as [x h2] eqn:Es. cbn [fst snd].
  apply (start_cases _ _ _ _ c) in Es as (Ha2 & HP2 & c' & Hc' & Hsel' & Hst); [|done|done].
  assert (acts h h2) as Ha12 by by etrans.
  assert (∀ h3 e, still h2 h3 → undo id pod e h3 = (r, h') → acts h h' ∧ (is_ok r = true → live h' [])) as Hundo.
  { intros h3 e [E1 E2] Hu. apply undo_cases in Hu as [Ha Hr].
    - rewrite Hr. split; [|done]. etrans; [exact Ha12|]. etrans; [by apply (acts_same h2 h3)|done].
    - intros c0 Hc0. rewrite E1 in Hc0. by assert (c0 = c') as -> by congruence.
    - unfold our_pod. by rewrite E2, HP2. }
  destruct x as [[]|e]; [|by apply Hundo].
  unfold mbind at 1, SE_bind at 1. rewrite attempt_eq. pose proof (wait_still pod h2) as Hw.
  destruct (waitSandboxIP pod h2) as [[ip|e] h3]; cbn [fst snd] in *; [|by apply Hundo].
  assert (∀ h4, still h2 h4 → acts h h4 ∧ live h4 []) as Hdone.
  { intros h4 [E1 E2]. split; [etrans; [exact Ha12|by apply acts_same]|].
    exists id, c'. rewrite E1. split_and!; [done|done|by apply Hst|set_solver]. }
  destruct has_dns; cbn [negb]; [|intros [= <- <-]; by destruct (Hdone h3 Hw)].
  unfold mbind, SE_bind. rewrite attempt_eq. pose proof (dns_still (UpsertWorkloadA cfg save delete_record (md_Namespace meta) (w_Name w) ip) h3) as Hd.
  destruct (cri_dns _ h3) as [[[]|e] h4]; cbn [fst snd] in *; assert (still h2 h4) as Hst4 by by etrans.
  - intros [= <- <-]. by destruct (Hdone h4 Hst4).
  - by apply Hundo.
Qed.

Lemma run_pod_cases h r h' : cri_call (RunPodSandbox (criSandboxConfig cfg has_dns DefaultDataRoot root meta w)) h = (r, h') →
  acts h h' ∧ (∀ id, r = Ok id → our_pod h' id).
Proof.
  unfold cri_call. set (sc := criSandboxConfig _ _ _ _ _ _). pose proof (run_pod_spec sc (ch_cri h)) as Hs.
  destruct (RunPodSandbox sc (ch_cri h)) as [x e']. destruct Hs as [HC Hs]. intros [= <- <-].
  set (h1 := mkCriHost e' (ch_dns h)). change (C h1 = C h) in HC.
  assert (∀ id, runs_pod sc id (P h) (P h1) → acts h h1 ∧ our_pod h1 id) as Hrun.
  { intros id [Hn HP]. split.
    - intros Hh. split; rewrite ?HP, ?HC; [by eauto| |].
      + intros j p Hp Hj. rewrite lookup_insert_ne; [done|congruence].
      + intros j c. rewrite HC, HP. intros Hj. destruct (Hh j c Hj) as (p & Hp & Hs'). exists p.
        rewrite lookup_insert_ne; [done|]. congruence.
    - intros p. rewrite HP, lookup_insert_eq. intros [= <-]. cbn. apply labels_selected. }
  destruct x as [id|e]; [|destruct Hs as [Hs|[id Hs]]].
  - destruct (Hrun id Hs) as [Ha Ho]. split; [done|]. by intros ? [= <-].
  - split; [by apply acts_same|done].
  - destruct (Hrun id Hs) as [Ha _]. by split.
Qed.

(** A deploy spares what it does not select; success leaves a started container. *)
Theorem cri_deploy_cases h r h' :
  containerd_Deploy cfg save delete_record has_dns DefaultDataRoot root dial mkdirAll meta w h = (r, h') →
  acts h h' ∧ (is_ok r = true → live h' []).
Proof.
  unfold containerd_Deploy. unfold mbind at 1, SE_bind at 1. unfold of_res at 1. destruct dial as [[]|e]; [|by intros [= <- <-]].
  cbn beta zeta. set (ref := NormalizeImageRef _). destruct (ref =? "")%string; [by intros [= <- <-]|].
  unfold mbind at 1, SE_bind at 1. destruct (prepareExistingCRIWorkload _ _ _ _ meta w h) as [x h1] eqn:E.
  apply cri_prepare_cases in E as [[Ha _] Hr]. destruct x as [[]|e]; [| |by intros [= <- <-]].
  { intros [= <- <-]. split; [done|]. intros _. by apply Hr. }
  set (sc := criSandboxConfig _ _ _ _ meta w).
  unfold mbind at 1, SE_bind at 1, annotate at 1, of_res. destruct (mkdirAll (sb_LogDirectory sc)) as [[]|e]; [|by intros [= <- <-]].
  unfold mbind at 1, SE_bind at 1, annotate at 1.
  pose proof (cri_same (PullImage ref sc) h1 (pull_spec ref sc (ch_cri h1))) as Hpull.
  destruct (cri_call (PullImage ref sc) h1) as [x h2]. cbn [snd] in Hpull.
  destruct Hpull as [E1 E2].
  assert (acts h h2) as Ha2 by (etrans; [exact Ha|by apply acts_same]). destruct x as [[]|e]; [|by intros [= <- <-]].
  unfold mbind at 1, SE_bind at 1, annotate at 1. destruct (cri_call (RunPodSandbox sc) h2) as [x h3] eqn:E.
  apply run_pod_cases in E as [Ha3 Hp]. assert (acts h h3) as Ha03 by by etrans.
  destruct x as [pod|e]; [|by intros [= <- <-]]. intros Hs. apply startInSandbox_cases in Hs as [Hs Hok]; [|by apply Hp].
  split; [by etrans|done].
Qed.
End deploying.

(** *** Stopping *)

(** A run of calls without an error, started without one. *)
Lemma first_error_none err r what : first_error err r what = None → err = None ∧ is_ok r = true.
Proof. by destruct err, r. Qed.

Lemma stopContainers_cases l err pods0 h r h' :
  Forall (λ i, TrimSpace (ci_Id i) = ci_Id i ∧ our_ctr h (ci_Id i)) l →
  Forall (λ i, ci_Id i ≠ "" ∧ our_pod h (TrimSpace (ci_PodSandboxId i))) l → (∀ i, i ∈ pods0 → our_pod h i) →
  stopContainers l err pods0 h = (r, h') →
  shrinks h h' ∧ ∃ err' pods', r = Ok (err', pods') ∧ (∀ i, i ∈ pods' → our_pod h' i) ∧
    (err' = None → err = None ∧ ∀ i, i ∈ ci_Id <$> l → C h' !! i = None).
Proof.
  revert err pods0 h. induction l as [|x l IH]; intros err pods0 h Hl Hp Hps; cbn [stopContainers].
  { intros [= <- <-]. split; [done|]. eexists _, _. split_and!; [done|done|]. intros ->. set_solver. }
  apply Forall_cons in Hl as [[Ht Ho] Hl]. apply Forall_cons in Hp as [[Hne Hpx] Hp]. rewrite Ht.
  set (pods1 := if (TrimSpace (ci_PodSandboxId x) =? "")%string then pods0 else _).
  assert (∀ i, i ∈ pods1 → our_pod h i) as Hps1.
  { intros i. unfold pods1. destruct (TrimSpace (ci_PodSandboxId x) =? "")%string; [apply Hps|].
    rewrite elem_of_union, elem_of_singleton. intros [->|Hi]; [done|by apply Hps]. }
  destruct (String.eqb_spec (ci_Id x) ""); [done|]. unfold mbind at 1, SE_bind at 1. rewrite attempt_eq.
  destruct (stop_ctr_same (ci_Id x) h) as [E1 E2]. destruct (cri_call (StopContainer (ci_Id x)) h) as [y h1]. cbn [fst snd] in *.
  assert (shrinks h h1) as Hs1 by by apply shrinks_same.
  unfold mbind at 1, SE_bind at 1. rewrite attempt_eq. destruct (cri_call (RemoveContainer (ci_Id x)) h1) as [z h2] eqn:E.
  apply remove_ctr_cases in E as (Hs2 & HP & HC); [|by eapply our_ctr_shrinks]. cbn [fst snd].
  assert (shrinks h h2) as Hs12 by by etrans. intros Hgo. apply IH in Hgo as (Hs3 & err' & pods' & -> & Hps' & Herr).
  - split; [by etrans|]. eexists _, _. split_and!; [done|done|]. intros He. destruct (Herr He) as [Hz Hd].
    apply first_error_none in Hz as [Hy Hz]. apply first_error_none in Hy as [-> _]. split; [done|].
    intros i. cbn. rewrite elem_of_cons. intros [->|Hi]; [|by apply Hd]. destruct z as [[]|]; [|done].
    destruct Hs3 as (_ & HsC & _). apply lookup_weaken_None with (C h2); [|done]. rewrite HC. apply lookup_delete_eq.
  - eapply Forall_impl; [exact Hl|]. intros i [? ?]. split; [done|by eapply our_ctr_shrinks].
  - eapply Forall_impl; [exact Hp|]. intros i [? ?]. split; [done|by eapply our_pod_shrinks].
  - intros i Hi. eapply our_pod_shrinks; [exact Hs12|by apply Hps1].
Qed.

Lemma stopSandboxes_cases l err h r h' : Forall (our_pod h) l → stopSandboxes l err h = (r, h') →
  shrinks h h' ∧ ∃ err', r = Ok err' ∧ (err' = None → err = None ∧ ∀ i, i ∈ l → P h' !! i = None).
Proof.
  revert err h. induction l as [|i l IH]; intros err h Hl; cbn [stopSandboxes].
  { intros [= <- <-]. split; [done|]. exists err. split; [done|]. intros ->. set_solver. }
  apply Forall_cons in Hl as [Hi Hl]. unfold mbind at 1, SE_bind at 1. rewrite attempt_eq.
  destruct (stop_pod_same i h) as [E1 E2]. destruct (cri_call (StopPodSandbox i) h) as [y h1]. cbn [fst snd] in *.
  assert (shrinks h h1) as Hs1 by by apply shrinks_same.
  unfold mbind at 1, SE_bind at 1. rewrite attempt_eq. destruct (cri_call (RemovePodSandbox i) h1) as [z h2] eqn:E.
  apply remove_pod_cases in E as [Hs2 HP]; [|by eapply our_pod_shrinks]. cbn [fst snd].
  assert (shrinks h h2) as Hs12 by by etrans. intros Hgo. apply IH in Hgo as (Hs3 & err' & -> & Herr).
  - split; [by etrans|]. exists err'. split; [done|]. intros He. destruct (Herr He) as [Hz Hd].
    apply first_error_none in Hz as [Hy Hz]. apply first_error_none in Hy as [-> _]. split; [done|].
    intros j. rewrite elem_of_cons. intros [->|Hj]; [|by apply Hd]. destruct Hs3 as (_ & _ & HsP).
    apply lookup_weaken_None with (P h2); [by apply HP|done].
  - eapply Forall_impl; [exact Hl|]. intros j. by apply our_pod_shrinks.
Qed.

(** A stop spares what it does not select; success leaves nothing selected. *)
Theorem cri_stop_cases h r h' : housed h →
  containerd_Stop cfg delete_record has_dns dial meta name h = (r, h') →
  shrinks h h' ∧ (is_ok r = true → (∀ i c, C h' !! i = Some c → ¬ selected (cx_labels c)) ∧
                                   (∀ i p, P h' !! i = Some p → ¬ selected (pd_labels p))).
Proof.
  intros Hh. unfold containerd_Stop. unfold mbind at 1, SE_bind at 1. unfold of_res at 1. destruct dial as [[]|e]; [|by intros [= <- <-]].
  unfold mbind at 1, SE_bind at 1. destruct (annotate "containerd CRI list containers" _ _ h) as [x h1] eqn:E.
  apply list_ctrs_cases in E as [Hst Hl]. pose proof (still_shrinks _ _ Hst) as Hs1.
  destruct x as [l|e]; [|by intros [= <- <-]]. destruct (Hl l eq_refl) as (Hf & _ & Hg & Hall). clear Hl.
  unfold mbind at 1, SE_bind at 1. destruct (stopContainers (omap id l) None ∅ h1) as [y h2] eqn:E.
  apply stopContainers_cases in E as (Hs2 & err & ps & -> & Hps & Herr); [| | |set_solver].
  2: { eapply Forall_impl; [exact Hf|]. intros i [? ?]. split; [done|by eapply our_ctr_shrinks]. }
  2: { eapply Forall_impl; [exact Hg|]. intros i (_ & Hne & c & Hc & Hsel & Hpod). split; [done|].
       destruct (Hh _ _ Hc) as (p & Hp & Hps). destruct (pod_id (ch_cri h) (cx_pod c)) as [Ht _]; [by eexists|].
       rewrite Hpod, Ht. eapply our_pod_shrinks; [exact Hs1|]. intros p' Hp'. assert (p' = p) as -> by congruence. by apply Hps. }
  assert (shrinks h h2) as Hs12 by by etrans. destruct err as [e|]; [by intros [= <- <-]|].
  destruct (Herr eq_refl) as [_ Hgone]. unfold mbind at 1, SE_bind at 1.
  destruct (annotate "containerd CRI list sandboxes" _ _ h2) as [x h3] eqn:E. apply list_pods_cases in E as [Hst3 Hl3].
  assert (shrinks h h3) as Hs3 by (etrans; [exact Hs12|by apply still_shrinks]).
  destruct x as [items|e]; [|by intros [= <- <-]]. destruct (Hl3 items eq_refl) as [Hp Hpall].
  unfold mbind at 1, SE_bind at 1. destruct (stopSandboxes _ None h3) as [y h4] eqn:E.
  apply stopSandboxes_cases in E as (Hs4 & err & -> & Herr4).
  2: { apply Forall_forall. intros i Hi%set_range_all. eapply our_pod_shrinks; [by apply still_shrinks|].
       rewrite elem_of_union in Hi. destruct Hi; [by apply Hps|by apply Hp]. }
  assert (shrinks h h4) as Hs04 by by etrans. destruct err as [e|]; [by intros [= <- <-]|].
  destruct (Herr4 eq_refl) as [_ Hpgone].
  intros Hend. assert (still h4 h') as Hst'.
  { destruct has_dns; [|by injection Hend as _ <-]. pose proof (dns_still (RemoveWorkloadA cfg delete_record (md_Namespace meta) name) h4) as Hd.
    by rewrite Hend in Hd. }
  split; [etrans; [exact Hs04|by apply still_shrinks]|]. intros _. destruct Hst' as [-> ->], Hst3 as [E3 E4], Hs4 as (_ & HC4 & HP4).
  rewrite E3 in HC4. rewrite E4 in HP4. destruct Hs12 as (_ & HC2 & _). split.
  - intros i c Hi Hsel. assert (C h2 !! i = Some c) as Hi2 by by eapply lookup_weaken.
    rewrite Hgone in Hi2; [done|]. eapply Hall; [by eapply lookup_weaken|done].
  - intros i p Hi Hsel. assert (P h2 !! i = Some p) as Hi2 by by eapply lookup_weaken.
    rewrite Hpgone in Hi; [done|]. apply set_range_all, elem_of_union. right. by eapply Hpall.
Qed.
End one.
End runs.
