(* ===== verification/Systemd.v ===== *)
(** * The systemd runtime (internal/runtime/systemd)

    A workload is a unit of the system manager: [Deploy] renders a unit file, loads, enables and
    starts it, and keeps a state file; [Stop] undoes it.  The system manager (D-Bus), the text
    format of unit files (go-systemd) and the file system's failures are parameters. *)
From stdpp Require Import base strings numbers gmap list.
From Stdlib Require Import Ascii.
From S2P Require Import Prelude GoStrings GoTime GoNet GoList Deploy Meta Placement Fsm RaftService GoText TaskBase Dns Runtime Effects.

(** ** strconv and strings *)

(** [unicode.IsPrint] on runes outside ASCII. *)
Class UnicodePrint := unicode_print : Z → bool.

Definition lowerhex (n : Z) : ascii := if (n <? 10)%Z then byteZ (48 + n) else byteZ (87 + n).
(** The last [k] hexadecimal digits. *)
Fixpoint hex_digits (k : nat) (n : Z) : list ascii :=
  match k with O => [] | S k' => hex_digits k' (n / 16) ++ [lowerhex (n mod 16)] end.

Definition quote_byte : ascii := byteZ 34.
Definition backslash : ascii := byteZ 92.

Section quote.
Context `{UnicodePrint}.

Definition quoted_rune (r : Z) : list ascii :=
  if (r =? 34)%Z || (r =? 92)%Z then [backslash; byteZ r]
  else if in_range 32 126 r then [byteZ r]
  else if (128 <=? r)%Z && unicode_print r then EncodeRune r
  else if (r =? 7)%Z then [backslash; "a"%char] else if (r =? 8)%Z then [backslash; "b"%char]
  else if (r =? 12)%Z then [backslash; "f"%char] else if (r =? 10)%Z then [backslash; "n"%char]
  else if (r =? 13)%Z then [backslash; "r"%char] else if (r =? 9)%Z then [backslash; "t"%char]
  else if (r =? 11)%Z then [backslash; "v"%char]
  else if (r <? 32)%Z || (r =? 127)%Z then backslash :: "x"%char :: hex_digits 2 r
  else if (r <? 65536)%Z then backslash :: "u"%char :: hex_digits 4 r
  else backslash :: "U"%char :: hex_digits 8 r.

(** [strconv.Quote]: an invalid byte is written as such. *)
Fixpoint quote_fuel (fuel : nat) (l : list ascii) : list ascii :=
  match fuel, l with
  | S f, c :: _ =>
      let '(r, n) := DecodeRune l in
      (if (r =? 0xFFFD)%Z && (n =? 1)%nat then backslash :: "x"%char :: hex_digits 2 (Z.of_N (byte_val c))
       else quoted_rune r) ++ quote_fuel f (drop n l)
  | _, _ => []
  end.
Definition Quote (s : string) : string :=
  of_bytes (quote_byte :: quote_fuel (length (bytes_of s)) (bytes_of s) ++ [quote_byte]).
End quote.

(** [strings.ReplaceAll] of one byte. *)
Definition ReplaceByte (s : string) (x : ascii) (y : list ascii) : string :=
  of_bytes (bytes_of s ≫= λ c, if Ascii.eqb c x then y else [c]).

(** [strings.Fields]: the maximal runs without white space. *)
Fixpoint fields_of (word : list ascii) (skip : nat) (l : list ascii) : list (list ascii) :=
  match l with
  | [] => match word with [] => [] | _ => [word] end
  | c :: r =>
      match skip with
      | S k => fields_of word k r
      | O =>
          let width :=
            if ws1 c then 1 else match r with
            | [] => 0
            | b :: r' => if ws2 c b then 2 else match r' with [] => 0 | d :: _ => if ws3 c b d then 3 else 0 end
            end in
          match width with
          | O => fields_of (word ++ [c]) 0 r
          | S k => match word with [] => fields_of [] k r | _ => word :: fields_of [] k r end
          end
      end
  end.
Definition Fields (s : string) : list string := of_bytes <$> fields_of [] 0 (bytes_of s).

(** ** provider.go *)
Definition defaultWantedBy := "multi-user.target".
Definition systemdSystemUnitDir := "/etc/systemd/system".

Definition NormalizeUnitName (raw : string) : string :=
  let name := TrimSpace raw in
  if (name =? "")%string then ""
  else
    let name := ReplaceByte name backslash ["-"%char] in
    let name := ReplaceByte name "/" ["-"%char] in
    let name := String.concat "-" (Fields name) in
    if negb (HasSuffix name ".service") then name +:+ ".service" else name.

Definition DefaultUnitName (meta : Metadata) (workloadName : string) : string :=
  NormalizeUnitName ("orch-" +:+ SanitizeName (NamespaceOrDefault (md_Namespace meta)) +:+ "-" +:+
    SanitizeName (md_Name meta) +:+ "-" +:+ SanitizeName workloadName).

Definition systemdQuote `{UnicodePrint} (s : string) : string := Quote (ReplaceByte s "%" ["%"%char; "%"%char]).
Definition systemdCommandLine `{UnicodePrint} (exe : string) (args : list string) : string :=
  String.concat " " (systemdQuote exe :: (systemdQuote <$> args)).

Definition systemd_option (w : Workload) (f : SystemdOptions → string) : string :=
  match opt_Systemd (run_Options (w_Run w)) with Some o => TrimSpace (f o) | None => "" end.
Definition systemdUser (w : Workload) : string :=
  let user := systemd_option w sd_User in if negb (user =? "")%string then user else TrimSpace (run_User (w_Run w)).
Definition systemdGroup (w : Workload) : string := systemd_option w sd_Group.
Definition systemdRestart (w : Workload) : string :=
  let restart := systemd_option w sd_Restart in
  if negb (restart =? "")%string then restart
  else if (w_Kind w =? WorkloadKindService)%string || (w_Kind w =? WorkloadKindStateful)%string
          || (w_Kind w =? WorkloadKindWorker)%string
  then "on-failure" else "".
Definition systemdRestartSec (w : Workload) : string := systemd_option w sd_RestartSec.
Definition systemdWantedBy (w : Workload) : string :=
  let wantedBy := systemd_option w sd_WantedBy in if negb (wantedBy =? "")%string then wantedBy else defaultWantedBy.

(** [unit.UnitOption] *)
Record UnitOption := mkOption { uo_Section : string; uo_Name : string; uo_Value : string }.
Definition service_option (name value : string) : UnitOption := mkOption "Service" name value.
(** An option that is left out when it is empty. *)
Definition optional (name value : string) : list UnitOption :=
  if negb (value =? "")%string then [service_option name value] else [].

Section unit_file.
Context `{UnicodePrint}.

Definition mount_option (m : RunMount) : UnitOption :=
  service_option (if rm_ReadOnly m then "BindReadOnlyPaths" else "BindPaths")
    (systemdQuote (rm_SourcePath m +:+ ":" +:+ rm_Target m)).
Definition appendSystemdMounts (root : string) (meta : Metadata) (w : Workload) : res (list UnitOption) :=
  mounts ← wrap "resolve local mounts" [] (LocalMounts root meta w); Ok (map mount_option mounts).

(** The options of [RenderUnitWithRoot], in order. *)
Definition unit_options (meta : Metadata) (w : Workload) (unitName root : string) : res (list UnitOption) :=
  match ProcessCommand (w_Run w) with
  | None => Err (Errorf "workload %q: run.exec.command or run.artifact.path is required" [AStr (w_Name w)])
  | Some (exe, args) =>
      let cwd := TrimSpace (run_Cwd (w_Run w)) in
      mounts ← appendSystemdMounts root meta w;
      Ok ([mkOption "Unit" "Description" ("orch workload " +:+ NamespaceOrDefault (md_Namespace meta) +:+ "/" +:+
             md_Name meta +:+ "/" +:+ w_Name w);
           mkOption "Unit" "After" "network-online.target"; mkOption "Unit" "Wants" "network-online.target";
           service_option "Type" "simple"] ++
          optional "SyslogIdentifier" (TrimSuffix (TrimSpace unitName) ".service") ++
          (if negb (cwd =? "")%string then [service_option "WorkingDirectory" (systemdQuote cwd)] else []) ++
          optional "User" (systemdUser w) ++ optional "Group" (systemdGroup w) ++ mounts ++
          ((λ env, service_option "Environment" (systemdQuote env)) <$> Env (run_Env (w_Run w))) ++
          [service_option "ExecStart" (systemdCommandLine exe args)] ++
          optional "Restart" (systemdRestart w) ++ optional "RestartSec" (systemdRestartSec w) ++
          [mkOption "Install" "WantedBy" (systemdWantedBy w)])
  end.

(** [unit.Serialize] is [serialize]; reading its output back never fails. *)
Definition RenderUnitWithRoot (serialize : list UnitOption → string) (meta : Metadata) (w : Workload)
    (unitName root : string) : res string :=
  opts ← unit_options meta w unitName root; Ok (serialize opts).
End unit_file.

(** ** provider_status.go *)
Definition RuntimeStatusFromActiveState (activeState : string) : string :=
  let s := TrimSpace activeState in
  if (s =? "active")%string then "running"
  else if (s =? "activating")%string || (s =? "reloading")%string || (s =? "refreshing")%string then "starting"
  else if (s =? "deactivating")%string then "stopping"
  else if (s =? "inactive")%string then "stopped"
  else if (s =? "failed")%string then "failed"
  else if (activeState =? "")%string then "unknown" else s.
Definition systemdStatusMessage (loadState activeState subState : string) : string :=
  let part k s := let s := TrimSpace s in if negb (s =? "")%string then [k +:+ s] else [] in
  String.concat " " (part "load=" loadState ++ part "active=" activeState ++ part "sub=" subState).

(** ** The system manager *)

(** A job of the manager: the call failed, the job ended with a result, or the context ended
    while waiting for it. *)
Inductive job := JobError (e : error) | JobResult (result : string) | JobCancelled (e : error).

(** [dbus.UnitStatus], as far as it is read. *)
Record UnitStatus := mkUnitStatus { us_Name : string; us_LoadState : string; us_ActiveState : string; us_SubState : string }.

Class SystemManager := {
  manager : Type;
  sm_Connect : manager → res unit * manager;
  sm_Reload : manager → res unit * manager;
  sm_StartUnit : string → manager → job * manager;
  sm_StopUnit : string → manager → job * manager;
  sm_EnableUnitFiles : string → manager → res unit * manager;
  sm_DisableUnitFiles : string → manager → res unit * manager;
  sm_ListUnitsByNames : string → manager → res (list UnitStatus) * manager;
  (** [journalctl]: the output, and the error if it failed *)
  sm_Journal : list string → manager → string * option error;
  (** whether a unit runs *)
  unit_running : manager → string → bool }.

(** ** provider_state_linux.go *)
Record sdState := mkSdState {
  ss_UnitName : string; ss_UnitPath : string; ss_Metadata : Metadata; ss_Workload : string; ss_Runtime : string;
  ss_Artifact : string; ss_StartedAt : Z }.

Definition workloadUnitName (meta : Metadata) (w : Workload) : string :=
  let name := match opt_Systemd (run_Options (w_Run w)) with Some o => NormalizeUnitName (sd_UnitName o) | None => "" end in
  if negb (name =? "")%string then name else DefaultUnitName meta (w_Name w).

Definition systemdUnitPath (unitName : string) : string := filepath_Join [systemdSystemUnitDir; unitName].

(** The host of a provider: the manager, unit files and state files by path, the DNS service.  A
    state file is what decoding it answers. *)
Record SdHost `{SystemManager} := mkSdHost {
  sh_manager : manager; sh_files : gmap string string; sh_states : gmap string (res sdState); sh_dns : DnsService }.
Arguments mkSdHost {_}.

Section systemd.
Context `{UnicodeLower, DnsLib, SystemManager, UnicodePrint}.
Variables (cfg : DNSConfig) (save delete_record : DnsRecord → res unit).
Variable has_dns : bool.  (** [p.dns != nil] *)
Variable serialize : list UnitOption → string.
(** [config.DefaultDataRoot()] and [Provider.root]. *)
Variables (DefaultDataRoot root : string).
(** What the file system answers: creating a directory, writing a file, reading and removing one
    that exists. *)
Variables (mkdirAll writeFile readFile removeFile : SdHost → string → res unit).
(** What a write that failed leaves of a file: the old one, a part, or nothing. *)
Variable unit_residue : SdHost → string → option string.
Variable state_residue : SdHost → string → option (res sdState).
Variable now : SdHost → Z.

Definition sd_rootOrDefault : string :=
  if negb (TrimSpace root =? "")%string then path_Clean root
  else filepath_Join [DefaultDataRoot; "runtime"; "systemd"].
Definition sd_nameBase (meta : Metadata) (workloadName : string) : string :=
  SanitizeName (NamespaceOrDefault (md_Namespace meta)) +:+ "-" +:+ SanitizeName (md_Name meta) +:+ "-" +:+
  SanitizeName workloadName.
Definition sd_statePath (meta : Metadata) (workloadName : string) : string :=
  filepath_Join [sd_rootOrDefault; "state"; sd_nameBase meta workloadName +:+ ".json"].

(** Calls. *)
Definition sd_manage {A} (f : manager → A * manager) : SE SdHost A := λ h,
  let '(a, m) := f (sh_manager h) in (Ok a, mkSdHost m (sh_files h) (sh_states h) (sh_dns h)).
Definition sd_call {A} (f : manager → res A * manager) : SE SdHost A := r ← sd_manage f; of_res r.
(** Calls of the DNS service are guarded by [p.dns != nil]. *)
Definition sd_dns (f : DnsService → res unit * DnsService) : SE SdHost unit := λ h,
  if has_dns then
    let '(r, d) := f (sh_dns h) in (r, mkSdHost (sh_manager h) (sh_files h) (sh_states h) d)
  else (Ok tt, h).
Definition sd_answer (f : SdHost → res unit) : SE SdHost unit := λ h, (f h, h).
Definition sd_read {A} (f : SdHost → A) : SE SdHost A := λ h, (Ok (f h), h).
Definition set_files (g : gmap string string → gmap string string) : SE SdHost unit := λ h,
  (Ok tt, mkSdHost (sh_manager h) (g (sh_files h)) (sh_states h) (sh_dns h)).
Definition set_states (g : gmap string (res sdState) → gmap string (res sdState)) : SE SdHost unit := λ h,
  (Ok tt, mkSdHost (sh_manager h) (sh_files h) (g (sh_states h)) (sh_dns h)).

(** [os.WriteFile] and [os.Remove] of a unit file. *)
Definition write_unit (path content : string) : SE SdHost unit := λ h,
  match writeFile h path with
  | Ok _ => set_files <[path := content]> h
  | Err e => (_ ← set_files (partial_alter (λ _, unit_residue h path) path); raise e) h
  end.
Definition remove_unit (path : string) : SE SdHost unit := λ h,
  match sh_files h !! path with
  | None => (Err ErrNotExist, h)
  | Some _ => (_ ← sd_answer (λ h, removeFile h path); set_files (delete path)) h
  end.

Definition readState (meta : Metadata) (workloadName : string) : SE SdHost sdState := λ h,
  let path := sd_statePath meta workloadName in
  match sh_states h !! path with
  | None => (Err (Wrapf ErrNotExist "read systemd state" []), h)
  | Some st => (_ ← wrap "read systemd state" [] (readFile h path); wrap "decode systemd state" [] st, h)
  end.
Definition writeState (meta : Metadata) (workloadName : string) (st : sdState) : SE SdHost unit :=
  let path := sd_statePath meta workloadName in
  _ ← annotate "create state dir" [] (sd_answer (λ h, mkdirAll h (filepath_Join [sd_rootOrDefault; "state"])));
  annotate "write systemd state" [] (λ h,
    match writeFile h path with
    | Ok _ => set_states <[path := Ok st]> h
    | Err e => (_ ← set_states (partial_alter (λ _, state_residue h path) path); raise e) h
    end).
Definition removeState (meta : Metadata) (workloadName : string) : SE SdHost unit := λ h,
  let path := sd_statePath meta workloadName in
  match sh_states h !! path with
  | None => (Ok tt, h)
  | Some _ =>
      (r ← attempt (sd_answer (λ h, removeFile h path));
       match r with
       | Ok _ => set_states (delete path)
       | Err e => if Is_NotExist e then mret tt else raise (Wrapf e "remove systemd state" [])
       end) h
  end.

(** ** provider_linux.go *)
Definition waitSystemdJob (action unitName : string) (j : job) : SE SdHost unit :=
  match j with
  | JobError e => raise (Wrapf e (action +:+ " unit %s") [AStr unitName])
  | JobCancelled e => raise e
  | JobResult result =>
      if negb (result =? "done")%string then raise (Errorf "%s unit %s: %s" [AStr action; AStr unitName; AStr result])
      else mret tt
  end.
Definition systemdStart (unitName : string) : SE SdHost unit :=
  j ← sd_manage (sm_StartUnit unitName); waitSystemdJob "start" unitName j.
Definition systemdStop (unitName : string) : SE SdHost unit :=
  j ← sd_manage (sm_StopUnit unitName); waitSystemdJob "stop" unitName j.
Definition systemdEnable (unitName unitPath : string) : SE SdHost unit :=
  annotate "enable unit %s" [AStr unitName] (sd_call (sm_EnableUnitFiles unitPath)).
Definition systemdDisable (unitName : string) : SE SdHost unit :=
  annotate "disable unit %s" [AStr unitName] (sd_call (sm_DisableUnitFiles unitName)).
Definition systemdReload : SE SdHost unit := annotate "daemon reload" [] (sd_call sm_Reload).
Definition sd_connect : SE SdHost unit := sd_call sm_Connect.
Definition reloadSystemdWithNewConnection : SE SdHost unit :=
  _ ← annotate "connect systemd dbus" [] sd_connect; systemdReload.

Definition ensureMountSources (meta : Metadata) (w : Workload) : SE SdHost unit :=
  mounts ← of_res (LocalMounts sd_rootOrDefault meta w);
  sd_answer (λ h, EnsureLocalMountSources (mkdirAll h) mounts).

(** [if conn != nil { stop; disable }], whose errors are only logged. *)
Definition stop_and_disable (connected : bool) (unitName : string) : SE SdHost unit :=
  if connected then _ ← attempt (systemdStop unitName); _ ← attempt (systemdDisable unitName); mret tt else mret tt.
Definition reload_after (connected : bool) : SE SdHost unit :=
  _ ← attempt (if connected then systemdReload else reloadSystemdWithNewConnection); mret tt.

Definition cleanupUnit (unitName unitPath : string) : SE SdHost unit :=
  conn ← attempt sd_connect;
  _ ← stop_and_disable (is_ok conn) unitName;
  _ ← attempt (remove_unit unitPath);
  reload_after (is_ok conn).

Definition systemd_Deploy (meta : Metadata) (w : Workload) : SE SdHost unit :=
  let unitName := workloadUnitName meta w in
  let unitPath := systemdUnitPath unitName in
  content ← of_res (RenderUnitWithRoot serialize meta w unitName sd_rootOrDefault);
  _ ← ensureMountSources meta w;
  _ ← annotate "create systemd unit dir" [] (sd_answer (λ h, mkdirAll h systemdSystemUnitDir));
  _ ← annotate "write unit %s" [AStr unitName] (write_unit unitPath content);
  _ ← or_undo (annotate "connect systemd dbus" [] sd_connect) (remove_unit unitPath);
  _ ← or_undo systemdReload (remove_unit unitPath);
  _ ← or_undo (systemdEnable unitName unitPath) (cleanupUnit unitName unitPath);
  _ ← or_undo (systemdStart unitName) (cleanupUnit unitName unitPath);
  startedAt ← sd_read now;
  _ ← or_undo (writeState meta (w_Name w) (mkSdState unitName unitPath meta (w_Name w) (w_Runtime w)
                 (ArtifactSummary (w_Run w)) startedAt)) (cleanupUnit unitName unitPath);
  or_undo (annotate "upsert workload DNS" []
             (sd_dns (UpsertWorkloadA cfg save delete_record (md_Namespace meta) (w_Name w)
                        (WorkloadAdvertiseAddress cfg "127.0.0.1"))))
    (_ ← cleanupUnit unitName unitPath; removeState meta (w_Name w)).

(** The unit a workload's state names, or the default one. *)
Definition stop_unit (meta : Metadata) (workloadName : string) (st : res sdState) : res (string * string) :=
  let unitName := DefaultUnitName meta workloadName in
  let unitPath := systemdUnitPath unitName in
  match st with
  | Ok st => Ok (if negb (TrimSpace (ss_UnitName st) =? "")%string then ss_UnitName st else unitName,
                 if negb (TrimSpace (ss_UnitPath st) =? "")%string then ss_UnitPath st else unitPath)
  | Err e => if negb (IsNotExist e) then Err e else Ok (unitName, unitPath)
  end.

Definition systemd_Stop (meta : Metadata) (workloadName : string) : SE SdHost unit :=
  st ← attempt (readState meta workloadName);
  target ← of_res (stop_unit meta workloadName st);
  conn ← attempt sd_connect;
  _ ← stop_and_disable (is_ok conn) target.1;
  removed ← attempt (remove_unit target.2);
  _ ← match removed with
      | Ok _ => mret tt
      | Err e => if IsNotExist e then mret tt else raise (Wrapf e "remove unit %s" [AStr target.1])
      end;
  _ ← reload_after (is_ok conn);
  _ ← annotate "remove workload DNS" []
        (sd_dns (RemoveWorkloadA cfg delete_record (md_Namespace meta) workloadName));
  removeState meta workloadName.

(** ** provider_status_linux.go *)
Definition statusUnitName (meta : Metadata) (workloadName : string) : SE SdHost (string * Z) :=
  st ← attempt (readState meta workloadName);
  match st with
  | Ok st =>
      let unitName := TrimSpace (ss_UnitName st) in
      if negb (unitName =? "")%string then mret (unitName, ss_StartedAt st)
      else mret (DefaultUnitName meta workloadName, 0%Z)
  | Err e => if negb (Is_NotExist e) then raise e else mret (DefaultUnitName meta workloadName, 0%Z)
  end.

Definition systemdUnitMissing (u : UnitStatus) : bool :=
  (TrimSpace (us_Name u) =? "")%string || (TrimSpace (us_LoadState u) =? "not-found")%string.

Definition systemd_Status (meta : Metadata) (workloadName : string) : SE SdHost RuntimeStatus :=
  target ← statusUnitName meta workloadName;
  updatedAt ← sd_read now;
  let out status message :=
    TaskBase.mkStatus (TrimSpace workloadName) RuntimeSystemd status target.1 target.2 updatedAt message in
  _ ← annotate "connect systemd dbus" [] sd_connect;
  units ← annotate "list unit %s" [AStr target.1] (sd_call (sm_ListUnitsByNames target.1));
  match units with
  | [] => mret (out "stopped" "")
  | u :: _ =>
      if systemdUnitMissing u then mret (out "stopped" "")
      else mret (out (RuntimeStatusFromActiveState (us_ActiveState u))
                     (systemdStatusMessage (us_LoadState u) (us_ActiveState u) (us_SubState u)))
  end.

Definition systemd_Logs (meta : Metadata) (workloadName : string) (tail : Z) : SE SdHost LogResult :=
  target ← statusUnitName meta workloadName;
  out ← sd_read (λ h, sm_Journal ["--unit"; target.1; "--lines"; Itoa (NormalizeTailLines tail); "--no-pager"; "--output"; "cat"]
                          (sh_manager h));
  match out.2 with
  | Some e => raise (Wrapf e "journalctl unit %s: %s" [AStr target.1; AStr (TrimSpace out.1)])
  | None => mret (mkLogResult (TrimSpace workloadName) RuntimeSystemd ("journalctl:" +:+ target.1)
                    (of_bytes (crlf_to_lf (bytes_of out.1))))
  end.
End systemd.
