(* ===== verification/SystemdSpec.v ===== *)
(** * The systemd runtime: lemmas

    Unit names are file names; the arguments of a command come back from its line; what
    deploying and stopping leave on the host. *)
From stdpp Require Import base strings numbers gmap list.
From Stdlib Require Import Ascii.
From S2P Require Import Prelude GoStrings GoTime GoNet GoList Deploy Meta Placement Fsm RaftService GoText TaskBase Dns Runtime Effects Systemd.

(** ** Unit names *)
Lemma fields_Forall (P : ascii → Prop) l : ∀ word skip, Forall P word → Forall P l → Forall (Forall P) (fields_of word skip l).
Proof.
  induction l as [|c r IH]; intros word skip Hw Hl; cbn.
  - destruct word; [by apply Forall_nil_2|by apply Forall_singleton].
  - apply Forall_cons in Hl as [Hc Hr]. destruct skip as [|k]; [|by apply IH].
    destruct (if ws1 c then 1 else _) as [|k].
    + apply IH; [|done]. apply Forall_app. split; [done|by constructor].
    + destruct word; [by apply IH|]. constructor; [done|by apply IH].
Qed.

Lemma concat_Forall (P : ascii → Prop) sep words : Forall P (bytes_of sep) → Forall (λ w, Forall P (bytes_of w)) words →
  Forall P (bytes_of (String.concat sep words)).
Proof.
  intros Hs. induction 1 as [|w ws Hw Hws IH]; [constructor|]. destruct ws as [|v vs]; [exact Hw|].
  change (String.concat sep (w :: v :: vs)) with (w +:+ sep +:+ String.concat sep (v :: vs)).
  rewrite !bytes_of_app, !Forall_app. done.
Qed.

Lemma replace_none s x y : x ∉ y → x ∉ bytes_of (ReplaceByte s x y).
Proof.
  intros Hy. unfold ReplaceByte. rewrite bytes_of_of_bytes. intros (c & Hin & _)%list_elem_of_bind.
  destruct (Ascii.eqb_spec c x) as [Heq|Hne]; [done|]. by apply list_elem_of_singleton in Hin.
Qed.

(** A unit name is one element of a path and has the suffix of a service. *)
Definition service_name (s : string) : Prop := ("/"%char ∉ bytes_of s) ∧ ∃ p, s = p +:+ ".service".

Lemma normalize_service raw : NormalizeUnitName raw = "" ∨ service_name (NormalizeUnitName raw).
Proof.
  unfold NormalizeUnitName. destruct (String.eqb_spec (TrimSpace raw) ""); [by left|]. right.
  set (name := ReplaceByte _ "/" _).
  assert ("/"%char ∉ bytes_of name) as Hn.
  { apply replace_none. intros Hin%list_elem_of_singleton. done. }
  assert (Forall (λ c, c ≠ "/"%char) (bytes_of (String.concat "-" (Fields name)))) as Hf.
  { apply concat_Forall; [by repeat constructor|]. unfold Fields. apply Forall_fmap.
    eapply Forall_impl; [apply (fields_Forall (λ c, c ≠ "/"%char)); [constructor|]|].
    - apply Forall_forall. by intros c Hc ->.
    - intros w Hw. cbn. by rewrite bytes_of_of_bytes. }
  assert (∀ s, Forall (λ c, c ≠ "/"%char) (bytes_of s) → "/"%char ∉ bytes_of s) as Hno.
  { intros s Hs Hin. rewrite Forall_forall in Hs. by apply (Hs _ Hin). }
  destruct (HasSuffix _ ".service") eqn:E; cbn [negb].
  - split; [by apply Hno|]. unfold HasSuffix in E. apply HasPrefix_strip in E as [t Ht].
    exists (rev_string t). rewrite <-(rev_string_involutive (String.concat "-" (Fields name))), Ht.
    by rewrite rev_string_app, rev_string_involutive.
  - split; [|by eexists]. apply Hno. rewrite bytes_of_app. apply Forall_app. split; [done|by repeat constructor].
Qed.

Lemma service_plain s : service_name s → plain_segment (bytes_of s).
Proof.
  intros [Hs [p ->]]. unfold plain_segment. split_and!; [..|done]; rewrite bytes_of_app; intros He;
    apply (f_equal length) in He; rewrite length_app in He; cbn in He; lia.
Qed.

(** The file of a unit is directly in the directory of the system's units. *)
Lemma unit_path_text name : service_name name →
  systemdUnitPath name = "/etc/systemd/system/" +:+ name.
Proof.
  intros Hs. unfold systemdUnitPath, filepath_Join. assert (name ≠ "") as Hne.
  { destruct Hs as [_ [p ->]]. intros He%(f_equal bytes_of). rewrite bytes_of_app in He. by destruct (bytes_of p). }
  rewrite !filter_cons_True, filter_nil by done. cbn [join_slash].
  rewrite path_Clean_fix; [done|]. exists [bytes_of "etc"; bytes_of "systemd"; bytes_of "system"; bytes_of name].
  split; [|by rewrite !bytes_of_app]. repeat constructor; try (by apply service_plain); try done.
  all: intros Hin; repeat (apply elem_of_cons in Hin as [Hin|Hin]; [done|]); by apply not_elem_of_nil in Hin.
Qed.

Lemma unit_path_trimmed name : service_name name → trimmed (systemdUnitPath name).
Proof.
  intros Hs. rewrite unit_path_text by done. apply trimmed_iff. split; [done|].
  destruct Hs as [_ [p ->]]. rewrite !bytes_of_app, !reverse_app. reflexivity.
Qed.

Lemma name_byte_graphic a : name_byte a = true → graphic a = true.
Proof.
  unfold name_byte, graphic, in_range. rewrite !orb_true_iff, !andb_true_iff, !Z.leb_le, !Z.eqb_eq, !N.leb_le. lia.
Qed.
Lemma sanitized_graphic s : graphic_text (SanitizeName s).
Proof. eapply Forall_impl; [apply SanitizeName_bytes|apply name_byte_graphic]. Qed.

Lemma default_unit_service meta name : service_name (DefaultUnitName meta name).
Proof.
  unfold DefaultUnitName. set (raw := "orch-" +:+ _).
  destruct (normalize_service raw) as [He|Hs]; [|done]. exfalso.
  assert (trimmed raw) as Ht.
  { apply graphic_trimmed. unfold raw. rewrite !bytes_of_app, !Forall_app.
    split_and!; (apply sanitized_graphic || by repeat constructor). }
  unfold NormalizeUnitName in He. rewrite Ht in He.
  destruct (String.eqb_spec raw "") as [|_]; [done|]. destruct (HasSuffix _ _) eqn:E in He; cbn [negb] in He; [by rewrite He in E|].
  apply (f_equal bytes_of) in He. rewrite bytes_of_app in He. by apply app_eq_nil in He as [_ [=]].
Qed.

Lemma unit_name_service meta w : service_name (workloadUnitName meta w).
Proof.
  unfold workloadUnitName. destruct (opt_Systemd _) as [o|]; cbn; [|apply default_unit_service].
  destruct (String.eqb_spec (NormalizeUnitName (sd_UnitName o)) "") as [|Hne]; cbn; [apply default_unit_service|].
  by destruct (normalize_service (sd_UnitName o)).
Qed.

(** ** Command lines *)

(** How the manager reads the value of [ExecStart=] (systemd.syntax(7), systemd.service(5)): words
    in double quotes with C escapes, then specifiers, then variables.  [None]: the line is not a
    list of quoted words, or has a specifier other than [%%]. *)
Definition hex_value (c : ascii) : option Z :=
  let n := Z.of_N (byte_val c) in
  if in_range 48 57 n then Some (n - 48)%Z else if in_range 97 102 n then Some (n - 87)%Z
  else if in_range 65 70 n then Some (n - 55)%Z else None.
Definition escape_value (c : ascii) : option ascii :=
  let n := byte_val c in
  if (n =? 97)%N then Some (byteZ 7) else if (n =? 98)%N then Some (byteZ 8) else if (n =? 102)%N then Some (byteZ 12)
  else if (n =? 110)%N then Some (byteZ 10) else if (n =? 114)%N then Some (byteZ 13) else if (n =? 116)%N then Some (byteZ 9)
  else if (n =? 118)%N then Some (byteZ 11) else if (n =? 115)%N then Some (byteZ 32)
  else if (n =? 92)%N || (n =? 34)%N || (n =? 39)%N then Some c else None.

(** The rest of a word after its opening quote, and the line after the closing one. *)
Definition and_byte (c : ascii) (r : option (list ascii * list ascii)) : option (list ascii * list ascii) :=
  '(w, rest) ← r; Some (c :: w, rest).
Fixpoint unquote (l : list ascii) : option (list ascii * list ascii) :=
  match l with
  | [] => None
  | c :: r =>
      if Ascii.eqb c quote_byte then Some ([], r)
      else if Ascii.eqb c backslash then
        match r with
        | [] => None
        | e :: r1 =>
            if Ascii.eqb e "x" then
              match r1 with
              | a :: b :: r2 =>
                  match hex_value a, hex_value b with
                  | Some x, Some y => if (16 * x + y =? 0)%Z then None else and_byte (byteZ (16 * x + y)) (unquote r2)
                  | _, _ => None
                  end
              | _ => None
              end
            else match escape_value e with Some c' => and_byte c' (unquote r1) | None => None end
        end
      else and_byte c (unquote r)
  end.

(** Every word is at least two bytes of the line. *)
Fixpoint line_words (fuel : nat) (l : list ascii) : option (list (list ascii)) :=
  match fuel, l with
  | _, [] => Some []
  | O, _ => None
  | S f, c :: r =>
      if Ascii.eqb c " " then line_words f r
      else if Ascii.eqb c quote_byte then '(w, rest) ← unquote r; ws ← line_words f rest; Some (w :: ws)
      else None
  end.

Fixpoint specifiers (l : list ascii) : option (list ascii) :=
  match l with
  | [] => Some []
  | c :: r =>
      if Ascii.eqb c "%" then
        match r with
        | d :: r' => if Ascii.eqb d "%" then cons "%"%char <$> specifiers r' else None
        | [] => None
        end
      else cons c <$> specifiers r
  end.

(** [$$] is a dollar, [${NAME}] the value of a variable; [name]: what was read of a name. *)
Fixpoint expand (env : list ascii → list ascii) (name : option (list ascii)) (l : list ascii) : list ascii :=
  match l, name with
  | [], _ => []
  | c :: r, Some acc => if Ascii.eqb c "}" then env acc ++ expand env None r else expand env (Some (acc ++ [c])) r
  | c :: r, None =>
      if Ascii.eqb c "$" then
        match r with
        | d :: r' =>
            if Ascii.eqb d "$" then c :: expand env None r'
            else if Ascii.eqb d "{" then expand env (Some []) r' else c :: expand env None r
        | [] => [c]
        end
      else c :: expand env None r
  end.

Definition argv (env : list ascii → list ascii) (line : string) : option (list string) :=
  words ← line_words (String.length line) (bytes_of line);
  words ← mapM specifiers words;
  Some ((λ w, of_bytes (expand env None w)) <$> words).

(** Bytes of ASCII but the zero byte, which no argument can hold. *)
Definition arg_byte (c : ascii) : bool := let n := byte_val c in ((0 <? n) && (n <? 128))%N.
Definition arg_text (s : string) : Prop := Forall (λ c, arg_byte c = true) (bytes_of s).

Section quoting.
Context `{UnicodePrint}.

Lemma arg_byte_bound c : arg_byte c = true → (0 < Z.of_N (byte_val c) < 128)%Z.
Proof. unfold arg_byte. rewrite andb_true_iff, !N.ltb_lt. lia. Qed.

Lemma decode_arg c r : arg_byte c = true → DecodeRune (c :: r) = (Z.of_N (byte_val c), 1).
Proof. intros Hc%arg_byte_bound. unfold DecodeRune. destruct (Z.ltb_spec (Z.of_N (byte_val c)) 128); [done|lia]. Qed.

(** The three forms of a quoted byte. *)
Definition quoted_form (q : list ascii) (c : ascii) : bool :=
  match q with
  | [a] => Ascii.eqb a c && negb (Ascii.eqb a quote_byte) && negb (Ascii.eqb a backslash)
  | [a; e] => Ascii.eqb a backslash && negb (Ascii.eqb e "x") && bool_decide (escape_value e = Some c)
  | [a; e; x; y] =>
      Ascii.eqb a backslash && Ascii.eqb e "x" &&
      match hex_value x, hex_value y with
      | Some x, Some y => negb (16 * x + y =? 0)%Z && Ascii.eqb (byteZ (16 * x + y)) c
      | _, _ => false
      end
  | _ => false
  end.

Lemma quoted_rune_form c : arg_byte c = true → quoted_form (quoted_rune (Z.of_N (byte_val c))) c = true.
Proof.
  intros Hc. assert ((if arg_byte c then quoted_form (quoted_rune (Z.of_N (byte_val c))) c else true) = true) as Hq;
    [clear Hc; each_byte c|by rewrite Hc in Hq].
Qed.

Lemma unquote_form q c r : quoted_form q c = true → unquote (q ++ r) = and_byte c (unquote r).
Proof.
  destruct q as [|a [|e [|x [|y []]]]]; try done; cbn; rewrite ?andb_true_iff, ?negb_true_iff.
  - by intros [[->%Ascii.eqb_eq ->] ->].
  - intros [[->%Ascii.eqb_eq ->] He%bool_decide_eq_true]. cbn. by rewrite He.
  - intros [[->%Ascii.eqb_eq ->%Ascii.eqb_eq] Hx]. cbn. destruct (hex_value x), (hex_value y); try done.
    apply andb_true_iff in Hx as [->%negb_true_iff ->%Ascii.eqb_eq]. done.
Qed.

Lemma unquote_text l r : Forall (λ c, arg_byte c = true) l →
  unquote (quote_fuel (length l) l ++ quote_byte :: r) = Some (l, r).
Proof.
  induction 1 as [|c l Hc Hl IH]; [done|]. cbn [length quote_fuel]. rewrite decode_arg by done.
  rewrite (proj2 (Z.eqb_neq _ _)); [|apply arg_byte_bound in Hc; lia]. cbn [andb drop].
  rewrite <-app_assoc, (unquote_form _ c) by (by apply quoted_rune_form). rewrite skipn_O. by rewrite IH.
Qed.

Lemma specifiers_doubled l : specifiers (l ≫= λ c, if Ascii.eqb c "%" then ["%"%char; "%"%char] else [c]) = Some l.
Proof.
  induction l as [|c l IH]; [done|]. cbn. destruct (Ascii.eqb c "%") eqn:E; cbn.
  - apply Ascii.eqb_eq in E as ->. by rewrite IH.
  - by rewrite E, IH.
Qed.

Lemma expand_plain env l : "$"%char ∉ l → expand env None l = l.
Proof.
  induction l as [|c l IH]; [done|]. intros [Hc Hl]%not_elem_of_cons. cbn.
  destruct (Ascii.eqb_spec c "$"); [done|]. by rewrite IH.
Qed.

Definition doubled (s : string) : list ascii := bytes_of (ReplaceByte s "%" ["%"%char; "%"%char]).

Lemma doubled_arg s : arg_text s → Forall (λ c, arg_byte c = true) (doubled s).
Proof.
  intros Hs. unfold doubled, ReplaceByte. rewrite bytes_of_of_bytes. apply Forall_bind. eapply Forall_impl; [exact Hs|].
  intros c Hc. cbn. destruct (Ascii.eqb c "%"); by repeat constructor.
Qed.

Lemma quote_bytes s : bytes_of (systemdQuote s) = quote_byte :: quote_fuel (length (doubled s)) (doubled s) ++ [quote_byte].
Proof. unfold systemdQuote, Quote. by rewrite bytes_of_of_bytes. Qed.
Lemma line_words_quoted ws : ∀ fuel, Forall arg_text ws → 2 * length ws ≤ fuel →
  line_words fuel (bytes_of (String.concat " " (systemdQuote <$> ws))) = Some (doubled <$> ws).
Proof.
  induction ws as [|w ws IH]; intros fuel Hws Hf; [by destruct fuel|]. apply Forall_cons in Hws as [Hw Hws].
  cbn [length] in Hf. destruct fuel as [|[|fuel]]; [lia..|].
  assert (∀ rest r, line_words (S fuel) rest = Some r →
    line_words (S (S fuel)) (bytes_of (systemdQuote w) ++ rest) = Some (doubled w :: r)) as Hstep.
  { intros rest r Hr. rewrite quote_bytes. cbn [app line_words]. rewrite <-app_assoc. cbn [app].
    rewrite unquote_text by (by apply doubled_arg). cbn. cbn in Hr. by rewrite Hr. }
  destruct ws as [|v vs].
  - change (String.concat " " (systemdQuote <$> [w])) with (systemdQuote w).
    rewrite <-(app_nil_r (bytes_of (systemdQuote w))). by apply Hstep.
  - change (String.concat " " (systemdQuote <$> w :: v :: vs))
      with (systemdQuote w +:+ " " +:+ String.concat " " (systemdQuote <$> v :: vs)).
    rewrite !bytes_of_app. apply Hstep. cbn [bytes_of app line_words]. apply IH; [done|]. cbn in *; lia.
Qed.

Lemma quoted_length ws : 2 * length ws ≤ length (bytes_of (String.concat " " (systemdQuote <$> ws))).
Proof.
  induction ws as [|w [|v vs] IH]; [cbn; lia| |].
  { change (String.concat " " (systemdQuote <$> [w])) with (systemdQuote w).
    rewrite quote_bytes. cbn. rewrite length_app. cbn. lia. }
  change (String.concat " " (systemdQuote <$> w :: v :: vs))
    with (systemdQuote w +:+ " " +:+ String.concat " " (systemdQuote <$> v :: vs)).
  rewrite !bytes_of_app, !length_app, quote_bytes. cbn [length] in *. rewrite length_app. cbn [length] in *. lia.
Qed.

Lemma string_length_bytes s : length (bytes_of s) = String.length s.
Proof. induction s as [|c s IH]; cbn; congruence. Qed.

(** The words of a command line are the executable and its arguments; variables do not occur in
    words without a dollar. *)
Lemma argv_command env exe args : Forall arg_text (exe :: args) →
  argv env (systemdCommandLine exe args) = Some ((λ w, of_bytes (expand env None (bytes_of w))) <$> exe :: args).
Proof.
  intros Ha. unfold argv, systemdCommandLine. change (systemdQuote exe :: _) with (systemdQuote <$> exe :: args).
  rewrite line_words_quoted; [|done|rewrite <-string_length_bytes; apply quoted_length]. cbn [mbind option_bind].
  assert (∀ ws, mapM specifiers (doubled <$> ws) = Some (bytes_of <$> ws)) as Hm.
  { intros ws. apply mapM_Some_2. rewrite Forall2_fmap. induction ws as [|w ws IHw]; constructor; [|exact IHw].
    unfold doubled, ReplaceByte. rewrite bytes_of_of_bytes. apply specifiers_doubled. }
  rewrite Hm. cbn [mbind option_bind]. by rewrite <-list_fmap_compose.
Qed.
End quoting.

(** ** The manager's documented behaviour *)

(** A start job that is done leaves the unit running, a stop job that is done leaves it stopped;
    disabling and reloading neither start nor stop units. *)
Class ManagerLaws `{SystemManager} := {
  start_done u m m' : sm_StartUnit u m = (JobResult "done", m') → unit_running m' u = true;
  stop_done u m m' : sm_StopUnit u m = (JobResult "done", m') → unit_running m' u = false;
  disable_running u v m : unit_running (sm_DisableUnitFiles u m).2 v = unit_running m v;
  reload_running v m : unit_running (sm_Reload m).2 v = unit_running m v;
}.

Section host.
Context `{UnicodeLower, DnsLib, ManagerLaws, UnicodePrint}.
Variables (cfg : DNSConfig) (save delete_record : DnsRecord → res unit) (has_dns : bool).
Variable serialize : list UnitOption → string.
Variables (DefaultDataRoot root : string).
Variables (mkdirAll writeFile readFile removeFile : SdHost → string → res unit).
Variable unit_residue : SdHost → string → option string.
Variable state_residue : SdHost → string → option (res sdState).
Variable now : SdHost → Z.

Abbreviation state_path := (sd_statePath DefaultDataRoot root).
Abbreviation Deploy := (systemd_Deploy cfg save delete_record has_dns serialize DefaultDataRoot root mkdirAll writeFile removeFile
  unit_residue state_residue now).
Abbreviation Stop := (systemd_Stop cfg delete_record has_dns DefaultDataRoot root readFile removeFile).
Abbreviation cleanup := (cleanupUnit removeFile).
Abbreviation remove := (remove_unit removeFile).

(** Neither unit files nor state files change. *)
Definition stable (h h' : SdHost) : Prop := sh_files h' = sh_files h ∧ sh_states h' = sh_states h.
#[local] Instance stable_pre : PreOrder stable.
Proof. split; [done|]. intros a b c [A1 A2] [B1 B2]. split; congruence. Qed.

(** Only one unit file and one state file change. *)
Definition touches (up sp : string) (h h' : SdHost) : Prop :=
  (∀ p, p ≠ up → sh_files h' !! p = sh_files h !! p) ∧ (∀ p, p ≠ sp → sh_states h' !! p = sh_states h !! p).
#[local] Instance touches_pre up sp : PreOrder (touches up sp).
Proof. split; [done|]. intros a b c [A1 A2] [B1 B2]. split; intros; [rewrite B1, A1|rewrite B2, A2]; done. Qed.
Lemma stable_touches up sp h h' : stable h h' → touches up sp h h'.
Proof. intros [E1 E2]. split; intros; by rewrite ?E1, ?E2. Qed.

Lemma manage_stable {A} (f : manager → A * manager) : keeps stable (sd_manage f).
Proof. intros h. unfold sd_manage. by destruct (f _). Qed.
Lemma call_stable {A} (f : manager → res A * manager) : keeps stable (sd_call f).
Proof. apply keeps_bind; [apply _|apply manage_stable|]. intros r. apply keeps_of_res, _. Qed.
Lemma dns_stable f : keeps stable (sd_dns has_dns f).
Proof. intros h. unfold sd_dns. destruct has_dns; [|done]. by destruct (f _). Qed.
Lemma dns_manager f h r h' : sd_dns has_dns f h = (r, h') → sh_manager h' = sh_manager h.
Proof. unfold sd_dns. destruct has_dns; [destruct (f _)|]; by intros [= _ <-]. Qed.
Lemma answer_stable f : keeps stable (sd_answer f).
Proof. intros h. reflexivity. Qed.
Lemma job_stable a u j : keeps stable (waitSystemdJob a u j).
Proof. intros h. unfold waitSystemdJob. by repeat case_match. Qed.
Lemma start_stable u : keeps stable (systemdStart u).
Proof. apply keeps_bind; [apply _|apply manage_stable|]. intros j. apply job_stable. Qed.
Lemma stop_stable u : keeps stable (systemdStop u).
Proof. apply keeps_bind; [apply _|apply manage_stable|]. intros j. apply job_stable. Qed.
Lemma reload_stable : keeps stable systemdReload.
Proof. apply keeps_annotate, call_stable. Qed.
Lemma connect_stable : keeps stable sd_connect.
Proof. apply call_stable. Qed.
Lemma stop_and_disable_stable b u : keeps stable (stop_and_disable b u).
Proof.
  destruct b; [|apply keeps_ret, _]. apply keeps_bind; [apply _|apply keeps_attempt, stop_stable|intros _].
  apply keeps_bind; [apply _|apply keeps_attempt, keeps_annotate, call_stable|intros _; apply keeps_ret, _].
Qed.
Lemma reload_after_stable b : keeps stable (reload_after b).
Proof.
  apply keeps_bind; [apply _| |intros _; apply keeps_ret, _]. apply keeps_attempt.
  destruct b; [apply reload_stable|]. apply keeps_bind; [apply _|apply keeps_annotate, connect_stable|intros _; apply reload_stable].
Qed.
Lemma ensure_stable m w : keeps stable (ensureMountSources DefaultDataRoot root mkdirAll m w).
Proof. apply keeps_bind; [apply _|apply keeps_of_res, _|]. intros ms. apply answer_stable. Qed.

(** *** Files *)
Lemma partial_alter_other {V} (f : option V → option V) (m : gmap string V) p q :
  q ≠ p → partial_alter f p m !! q = m !! q.
Proof. intros. by rewrite lookup_partial_alter_ne. Qed.

Lemma write_touches up sp c : keeps (touches up sp) (write_unit writeFile unit_residue up c).
Proof.
  intros h. unfold write_unit. destruct (writeFile h up); cbn; split; try done; cbn; intros p Hp;
    [by rewrite lookup_insert_ne|by apply partial_alter_other].
Qed.
Lemma remove_touches up sp : keeps (touches up sp) (remove up).
Proof.
  intros h. unfold remove_unit. destruct (sh_files h !! up); [|done]. unfold mbind, SE_bind, sd_answer.
  destruct (removeFile h up); cbn; split; try done; cbn; intros p Hp. by rewrite lookup_delete_ne.
Qed.
Lemma touching {A} up sp (m : SE SdHost A) : keeps stable m → keeps (touches up sp) m.
Proof. intros Hm h. apply stable_touches, Hm. Qed.
Lemma cleanup_touches u up sp : keeps (touches up sp) (cleanup u up).
Proof.
  unfold cleanupUnit. apply keeps_bind; [apply _|apply touching, keeps_attempt, connect_stable|intros c].
  apply keeps_bind; [apply _|apply touching, stop_and_disable_stable|intros _].
  apply keeps_bind; [apply _|apply keeps_attempt, remove_touches|intros _]. apply touching, reload_after_stable.
Qed.
Lemma writeState_touches up m n st :
  keeps (touches up (state_path m n)) (writeState DefaultDataRoot root mkdirAll writeFile state_residue m n st).
Proof.
  apply keeps_bind; [apply _|apply touching, keeps_annotate, answer_stable|intros _]. apply keeps_annotate. intros h.
  destruct (writeFile h _); cbn; split; try done; cbn; intros p Hp;
    [by rewrite lookup_insert_ne|by apply partial_alter_other].
Qed.
Lemma removeState_touches up m n : keeps (touches up (state_path m n)) (removeState DefaultDataRoot root removeFile m n).
Proof.
  intros h. unfold removeState. destruct (sh_states h !! _); [|done].
  revert h. apply keeps_bind; [apply _|apply touching, keeps_attempt, answer_stable|].
  intros [[]|e]; [|case_match; intros h; reflexivity]. intros h. split; [done|]. cbn. intros p Hp. by rewrite lookup_delete_ne.
Qed.
(** A deploy changes its own unit file and state file only. *)
Lemma deploy_touches meta w :
  keeps (touches (systemdUnitPath (workloadUnitName meta w)) (state_path meta (w_Name w))) (Deploy meta w).
Proof.
  assert (∀ A (m : SE SdHost A) undo up sp, keeps stable m → keeps (touches up sp) undo →
    keeps (touches up sp) (or_undo m undo)) as Hor.
  { intros A m undo up sp Hm Hu. apply or_undo_keeps; [apply _|by apply touching|done]. }
  unfold systemd_Deploy.
  apply keeps_bind; [apply _|apply keeps_of_res, _|intros c].
  apply keeps_bind; [apply _|apply touching, ensure_stable|intros _].
  apply keeps_bind; [apply _|apply touching, keeps_annotate, answer_stable|intros _].
  apply keeps_bind; [apply _|apply keeps_annotate, write_touches|intros _].
  apply keeps_bind; [apply _|apply Hor; [apply keeps_annotate, connect_stable|apply remove_touches]|intros _].
  apply keeps_bind; [apply _|apply Hor; [apply reload_stable|apply remove_touches]|intros _].
  apply keeps_bind; [apply _|apply Hor; [apply keeps_annotate, call_stable|apply cleanup_touches]|intros _].
  apply keeps_bind; [apply _|apply Hor; [apply start_stable|apply cleanup_touches]|intros _].
  apply keeps_bind; [apply _|intros h; reflexivity|intros t].
  apply keeps_bind; [apply _|apply or_undo_keeps; [apply _|apply writeState_touches|apply cleanup_touches]|intros _].
  apply Hor; [apply keeps_annotate, dns_stable|].
  apply keeps_bind; [apply _|apply cleanup_touches|intros _; apply removeState_touches].
Qed.

(** *** Outcomes *)
Lemma stable_run {A} (m : SE SdHost A) h r h' : keeps stable m → m h = (r, h') → stable h h'.
Proof. intros Hm E. specialize (Hm h). by rewrite E in Hm. Qed.

(** A deploy that succeeds wrote the unit it rendered and a state file that names it, and left the
    unit running. *)
Definition deployed (meta : Metadata) (w : Workload) (h h' : SdHost) : Prop :=
  let name := workloadUnitName meta w in
  ∃ content st,
    RenderUnitWithRoot serialize meta w name (sd_rootOrDefault DefaultDataRoot root) = Ok content ∧
    sh_files h' = <[systemdUnitPath name := content]> (sh_files h) ∧
    sh_states h' = <[state_path meta (w_Name w) := Ok st]> (sh_states h) ∧
    (ss_UnitName st = name ∧ ss_UnitPath st = systemdUnitPath name) ∧
    unit_running (sh_manager h') name = true.

Lemma deploy_ok meta w h h' : Deploy meta w h = (Ok tt, h') → deployed meta w h h'.
Proof.
  unfold systemd_Deploy.
  intros (content & h0 & [= Hc <-] & (u1 & h1 & E1 & (u2 & h2 & E2 & (u3 & h3 & E3 & (u4 & h4 & E4 & (u5 & h5 & E5 &
    (u6 & h6 & E6 & (u7 & h7 & E7 & (t & h8 & E8 & (u9 & h9 & E9 & E10)%bind_Ok)%bind_Ok)%bind_Ok)%bind_Ok)%bind_Ok)%bind_Ok
    )%bind_Ok)%bind_Ok)%bind_Ok)%bind_Ok.
  apply stable_run in E1 as S1; [|apply ensure_stable].
  apply stable_run in E2 as S2; [|apply keeps_annotate, answer_stable].
  apply annotate_Ok in E3. unfold write_unit in E3. destruct (writeFile h2 _); [|done]. injection E3 as _ <-.
  apply or_undo_Ok, stable_run in E4; [|apply keeps_annotate, connect_stable].
  apply or_undo_Ok, stable_run in E5; [|apply reload_stable].
  apply or_undo_Ok, stable_run in E6; [|apply keeps_annotate, call_stable].
  apply or_undo_Ok in E7. apply stable_run in E7 as S7; [|apply start_stable]. injection E8 as _ <-.
  apply or_undo_Ok in E9 as (u & h10 & E9 & E9')%bind_Ok. apply annotate_Ok in E9 as [= _ <-]. apply annotate_Ok in E9'.
  destruct (writeFile h7 _); [|done]. injection E9' as _ <-.
  apply or_undo_Ok, annotate_Ok in E10. apply stable_run in E10 as S10; [|apply dns_stable].
  unfold deployed. exists content. eexists (mkSdState _ _ _ _ _ _ _). split; [exact Hc|].
  destruct S1 as [F1 G1], S2 as [F2 G2], E4 as [F4 G4], E5 as [F5 G5], E6 as [F6 G6], S7 as [F7 G7], S10 as [F10 G10].
  cbn in *. split_and!; try done.
  - by rewrite F10, F7, F6, F5, F4, F2, F1.
  - by rewrite G10, G7, G6, G5, G4, G2, G1.
  - apply dns_manager in E10. rewrite E10. cbn.
    unfold systemdStart, sd_manage, mbind, SE_bind in E7. destruct (sm_StartUnit _ _) as [j m'] eqn:E.
    unfold waitSystemdJob in E7. destruct j as [|res|]; try done. destruct (String.eqb_spec res "done") as [->|]; [|done].
    cbn in E7. injection E7 as _ <-. cbn. by eapply start_done.
Qed.

(** *** Failures *)

(** Removing the unit file that was written, or the state file, was refused. *)
Definition unit_refused (up content : string) : Prop :=
  ∃ h e, sh_files h !! up = Some content ∧ removeFile h up = Err e.
Definition state_refused (sp : string) (st : sdState) : Prop :=
  ∃ h e, sh_states h !! sp = Some (Ok st) ∧ removeFile h sp = Err e.

(** The unit file that was written is gone, unless removing it was refused. *)
Definition unit_undone (up content : string) (h' : SdHost) : Prop :=
  sh_files h' !! up = None ∨ (sh_files h' !! up = Some content ∧ unit_refused up content).

Lemma remove_undone up content h : sh_files h !! up = Some content →
  unit_undone up content (remove up h).2 ∧ sh_states (remove up h).2 = sh_states h.
Proof.
  intros E. unfold remove_unit. rewrite E. unfold mbind, SE_bind, sd_answer.
  unfold unit_undone. destruct (removeFile h up) eqn:Er; cbn; (split; [|done]); [left; by rewrite lookup_delete_eq|].
  right. split; [done|]. by exists h, e.
Qed.

Lemma stop_and_disable_ok b u h : ∃ h', stop_and_disable b u h = (Ok tt, h').
Proof.
  unfold stop_and_disable. destruct b; [|by eexists]. unfold mbind, SE_bind, attempt.
  destruct (systemdStop u h) as [? h3]. destruct (systemdDisable u h3) as [? h4]. by eexists.
Qed.

Lemma cleanup_eq u up h : ∃ b h2, stable h h2 ∧ cleanup u up h = (Ok tt, (reload_after b (remove up h2).2).2).
Proof.
  unfold cleanupUnit, mbind, SE_bind. rewrite attempt_eq. pose proof (connect_stable h) as S1.
  destruct (sd_connect h) as [c h1]. cbn [fst snd] in *. exists (is_ok c).
  destruct (stop_and_disable_ok (is_ok c) u h1) as [h2 E]. rewrite E, attempt_eq.
  apply stable_run in E; [|apply stop_and_disable_stable]. exists h2. split; [by etrans|].
  unfold reload_after, mbind, SE_bind. by rewrite attempt_eq.
Qed.

Lemma cleanup_undone u up content h : sh_files h !! up = Some content →
  ∃ h', cleanup u up h = (Ok tt, h') ∧ unit_undone up content h' ∧ sh_states h' = sh_states h.
Proof.
  intros Hc. destruct (cleanup_eq u up h) as (b & h2 & [S1 S2] & ->). eexists. split; [done|].
  destruct (remove_undone up content h2) as [Hu Hs]; [by rewrite S1|].
  destruct (reload_after_stable b (remove up h2).2) as [R1 R2]. unfold unit_undone. by rewrite R1, R2, Hs.
Qed.

Lemma removeState_undone m n st h : sh_states h !! state_path m n = Some (Ok st) →
  let h' := (removeState DefaultDataRoot root removeFile m n h).2 in
  sh_files h' = sh_files h ∧
  (sh_states h' !! state_path m n = None ∨
   sh_states h' !! state_path m n = Some (Ok st) ∧ state_refused (state_path m n) st).
Proof.
  intros E. unfold removeState. rewrite E. unfold mbind, SE_bind, attempt, sd_answer.
  destruct (removeFile h _) eqn:Er; cbn; [split; [done|left]; by rewrite lookup_delete_eq|].
  assert (state_refused (state_path m n) st) by (by exists h, e). by case_match; cbn; auto.
Qed.

(** What a deploy that fails leaves of its files.  Up to writing the unit file the state file is as
    before, and the unit file is as before or the rest of the write that failed.  After that the new
    unit file is gone, or removing it was refused, and the state file is as before, gone, the rest of
    a write that failed, or the new one, which names the unit, because removing it was refused. *)
Definition undone (meta : Metadata) (w : Workload) (h h' : SdHost) : Prop :=
  let up := systemdUnitPath (workloadUnitName meta w) in
  let sp := state_path meta (w_Name w) in
  ((sh_files h' !! up = sh_files h !! up ∨ ∃ h1, sh_files h' !! up = unit_residue h1 up) ∧ sh_states h' = sh_states h) ∨
  (∃ content, RenderUnitWithRoot serialize meta w (workloadUnitName meta w) (sd_rootOrDefault DefaultDataRoot root) = Ok content ∧
     unit_undone up content h' ∧
     (sh_states h' !! sp = sh_states h !! sp ∨ sh_states h' !! sp = None ∨ (∃ h1, sh_states h' !! sp = state_residue h1 sp) ∨
      ∃ st, ss_UnitName st = workloadUnitName meta w ∧ sh_states h' !! sp = Some (Ok st) ∧ state_refused sp st)).

Lemma fails_removed {A} (m : SE SdHost A) up content h e h' : keeps stable m → sh_files h !! up = Some content →
  or_undo m (remove up) h = (Err e, h') → unit_undone up content h' ∧ sh_states h' = sh_states h.
Proof.
  intros Hm Hc (h1 & E & ->)%or_undo_Err. apply stable_run in E as [F <-]; [|done].
  apply remove_undone. by rewrite F.
Qed.
Lemma fails_cleaned {A} (m : SE SdHost A) u up content h e h' : keeps stable m → sh_files h !! up = Some content →
  or_undo m (cleanup u up) h = (Err e, h') → unit_undone up content h' ∧ sh_states h' = sh_states h.
Proof.
  intros Hm Hc (h1 & E & ->)%or_undo_Err. apply stable_run in E as [F <-]; [|done].
  rewrite <-F in Hc. by destruct (cleanup_undone u up content h1 Hc) as (h2 & -> & ? & ?).
Qed.
Lemma succeeds {A} (m : SE SdHost A) undo h a h' : keeps stable m → or_undo m undo h = (Ok a, h') →
  sh_files h' = sh_files h ∧ sh_states h' = sh_states h.
Proof. intros Hm E%or_undo_Ok. by apply stable_run in E as [F G]. Qed.

(** The last two steps: the state file and the DNS record. *)
Lemma recorded_err up content u t meta w h h' e :
  sh_files h !! up = Some content → ss_UnitName t = workloadUnitName meta w →
  (let sp := state_path meta (w_Name w) in
   (_ ← or_undo (writeState DefaultDataRoot root mkdirAll writeFile state_residue meta (w_Name w) t) (cleanup u up);
    or_undo (annotate "upsert workload DNS" [] (sd_dns has_dns (UpsertWorkloadA cfg save delete_record (md_Namespace meta)
               (w_Name w) (WorkloadAdvertiseAddress cfg "127.0.0.1"))))
      (_ ← cleanup u up; removeState DefaultDataRoot root removeFile meta (w_Name w))) h = (Err e, h') →
   unit_undone up content h' ∧
   (sh_states h' !! sp = sh_states h !! sp ∨ sh_states h' !! sp = None ∨ (∃ h1, sh_states h' !! sp = state_residue h1 sp) ∨
    ∃ st, ss_UnitName st = workloadUnitName meta w ∧ sh_states h' !! sp = Some (Ok st) ∧ state_refused sp st)).
Proof.
  cbn zeta. set (sp := state_path _ _). intros Hc Ht [(h9 & E & ->)%or_undo_Err|(u9 & h9 & E9%or_undo_Ok & E)]%bind_Err.
  - assert (sh_files h9 = sh_files h ∧ (sh_states h9 !! sp = sh_states h !! sp ∨ ∃ h1, sh_states h9 !! sp = state_residue h1 sp))
      as [F G].
    { apply bind_Err in E as [E|(? & h10 & E9 & E)].
      - apply stable_run in E as [F G]; [|apply keeps_annotate, answer_stable]. rewrite F, G. auto.
      - apply stable_run in E9 as [F G]; [|apply keeps_annotate, answer_stable].
        unfold annotate in E. fold sp in E. destruct (writeFile h10 sp); [done|]. injection E as _ <-. cbn.
        split; [done|]. right. exists h10. by rewrite lookup_partial_alter_eq. }
    rewrite <-F in Hc. destruct (cleanup_undone u up content h9 Hc) as (h2 & -> & Hu & Hs). cbn. split; [done|].
    rewrite Hs. destruct G; auto.
  - apply bind_Ok in E9 as (? & h10 & E9 & E9'). apply stable_run in E9 as [F G]; [|apply keeps_annotate, answer_stable].
    apply annotate_Ok in E9'. fold sp in E9'. destruct (writeFile h10 sp); [|done]. injection E9' as _ <-.
    apply or_undo_Err in E as (h11 & E & ->). apply stable_run in E as [F2 G2]; [|apply keeps_annotate, dns_stable].
    cbn in F2, G2. rewrite <-F, <-F2 in Hc. unfold mbind, SE_bind.
    destruct (cleanup_undone u up content h11 Hc) as (h12 & -> & Hu & Hs).
    destruct (removeState_undone meta (w_Name w) t h12) as [R1 R2].
    { fold sp. by rewrite Hs, G2, lookup_insert_eq. }
    unfold unit_undone in *. rewrite R1. split; [done|]. destruct R2; eauto 10.
Qed.

Lemma deploy_err meta w h e h' : Deploy meta w h = (Err e, h') → undone meta w h h'.
Proof.
  unfold systemd_Deploy, undone. set (up := systemdUnitPath _). set (sp := state_path _ _).
  intros [[= _ ->]|(content & h0 & [= Hc <-] & E)]%bind_Err; [left; auto|].
  apply bind_Err in E as [E|(u1 & h1 & E1 & E)]; [apply stable_run in E as [F G]; [|apply ensure_stable]; left; rewrite F; auto|].
  apply stable_run in E1 as [F1 G1]; [|apply ensure_stable].
  apply bind_Err in E as [E|(u2 & h2 & E2 & E)].
  { apply stable_run in E as [F G]; [|apply keeps_annotate, answer_stable]. left. rewrite F, F1, G, G1. auto. }
  apply stable_run in E2 as [F2 G2]; [|apply keeps_annotate, answer_stable].
  apply bind_Err in E as [E|(u3 & h3 & E3 & E)].
  { left. unfold annotate, write_unit in E. fold up in E. destruct (writeFile h2 up); [done|]. injection E as _ <-. cbn.
    split; [right|by rewrite G2, G1]. exists h2. by rewrite lookup_partial_alter_eq. }
  right. exists content. split; [done|].
  assert (sh_files h3 !! up = Some content ∧ sh_states h3 = sh_states h) as [F3 G3].
  { apply annotate_Ok in E3. unfold write_unit in E3. fold up in E3. destruct (writeFile h2 _); [|done]. injection E3 as _ <-. cbn.
    by rewrite G2, G1, lookup_insert_eq. }
  clear E3 F1 G1 F2 G2.
  assert (∀ hk, sh_states hk = sh_states h → unit_undone up content h' ∧ sh_states h' = sh_states hk →
    unit_undone up content h' ∧ (sh_states h' !! sp = sh_states h !! sp ∨ sh_states h' !! sp = None ∨
      (∃ h1, sh_states h' !! sp = state_residue h1 sp) ∨
      ∃ st, ss_UnitName st = workloadUnitName meta w ∧ sh_states h' !! sp = Some (Ok st) ∧ state_refused sp st)) as Hgone.
  { intros hk G [Hu Hs]. split; [done|left]. by rewrite Hs, G. }
  apply bind_Err in E as [E|(u4 & h4 & E4 & E)];
    [apply (Hgone h3 G3); eapply fails_removed, E; [apply keeps_annotate, connect_stable|done]|].
  apply succeeds in E4 as [F4 G4]; [|apply keeps_annotate, connect_stable]. rewrite <-F4 in F3. rewrite G3 in G4.
  apply bind_Err in E as [E|(u5 & h5 & E5 & E)];
    [apply (Hgone h4 G4); eapply fails_removed, E; [apply reload_stable|done]|].
  apply succeeds in E5 as [F5 G5]; [|apply reload_stable]. rewrite <-F5 in F3. rewrite G4 in G5.
  apply bind_Err in E as [E|(u6 & h6 & E6 & E)];
    [apply (Hgone h5 G5); eapply fails_cleaned, E; [apply keeps_annotate, call_stable|done]|].
  apply succeeds in E6 as [F6 G6]; [|apply keeps_annotate, call_stable]. rewrite <-F6 in F3. rewrite G5 in G6.
  apply bind_Err in E as [E|(u7 & h7 & E7 & E)];
    [apply (Hgone h6 G6); eapply fails_cleaned, E; [apply start_stable|done]|].
  apply succeeds in E7 as [F7 G7]; [|apply start_stable]. rewrite <-F7 in F3. rewrite G6 in G7.
  apply bind_Err in E as [E|(t & h8 & [= _ <-] & E)]; [done|].
  rewrite <-G7. eapply recorded_err in E; [exact E|exact F3|done].
Qed.

(** *** Stopping *)

(** Without a state file a stop fails and changes nothing. *)
Lemma stop_without_state meta name h :
  sh_states h !! state_path meta name = None → Stop meta name h = (Err (Wrapf ErrNotExist "read systemd state" []), h).
Proof. intros E. unfold systemd_Stop, mbind, SE_bind. rewrite attempt_eq. unfold readState. by rewrite E. Qed.

Section honest.
(** Removing a file that exists never answers that it does not. *)
Hypothesis honest : ∀ h p e, removeFile h p = Err e → Is_NotExist e = false.

Lemma IsNotExist_Is e : IsNotExist e = true → Is_NotExist e = true.
Proof. intros ->%bool_decide_eq_true. reflexivity. Qed.

Lemma remove_ends up h r h' : remove up h = (r, h') → (∀ e, r = Err e → IsNotExist e = true) →
  h' = mkSdHost (sh_manager h) (delete up (sh_files h)) (sh_states h) (sh_dns h).
Proof.
  unfold remove_unit. destruct (sh_files h !! up) eqn:E.
  - unfold mbind, SE_bind, sd_answer. destruct (removeFile h up) as [[]|e] eqn:E2; cbn; [by intros [= _ <-]|].
    intros [= <- <-] Hr. specialize (Hr e eq_refl). apply IsNotExist_Is in Hr. by rewrite (honest _ _ _ E2) in Hr.
  - intros [= _ <-] _. rewrite delete_id by done. by destruct h.
Qed.

Lemma removeState_ok m n h h' : removeState DefaultDataRoot root removeFile m n h = (Ok tt, h') →
  sh_manager h' = sh_manager h ∧ sh_files h' = sh_files h ∧ sh_states h' = delete (state_path m n) (sh_states h).
Proof.
  unfold removeState. destruct (sh_states h !! _) eqn:E; [|intros [= <-]; by rewrite delete_id].
  unfold mbind, SE_bind, attempt, sd_answer. destruct (removeFile h _) eqn:E2; cbn; [by intros [= <-]|].
  rewrite (honest _ _ _ E2). done.
Qed.

(** Stopping and disabling on a connection: a stop job that is done has stopped the unit. *)
Lemma stop_and_disable_stops u h m h' : sm_StopUnit u (sh_manager h) = (JobResult "done", m) →
  stop_and_disable true u h = (Ok tt, h') → unit_running (sh_manager h') u = false.
Proof.
  intros Hj. unfold stop_and_disable, mbind, SE_bind. rewrite !attempt_eq.
  unfold systemdStop, mbind, SE_bind, sd_manage at 1. rewrite Hj. cbn.
  unfold systemdDisable, annotate, sd_call, mbind, SE_bind, sd_manage, of_res. cbn.
  pose proof (disable_running u u m) as Hd. destruct (sm_DisableUnitFiles u m) as [[] m']; cbn in *; intros [= <-]; cbn;
    rewrite Hd; by eapply stop_done.
Qed.

(** What a stop that succeeds leaves: neither the unit file nor the state file. *)
Lemma readState_run meta name h r h' : readState DefaultDataRoot root readFile meta name h = (r, h') →
  h' = h ∧ r = (readState DefaultDataRoot root readFile meta name h).1.
Proof. intros E. rewrite E. split; [|done]. revert E. unfold readState. case_match; congruence. Qed.

Lemma stop_ok meta name h h' : Stop meta name h = (Ok tt, h') →
  ∃ target, stop_unit meta name (readState DefaultDataRoot root readFile meta name h).1 = Ok target ∧
    sh_files h' = delete target.2 (sh_files h) ∧ sh_states h' = delete (state_path meta name) (sh_states h) ∧
    (∀ u mc m, sm_Connect (sh_manager h) = (Ok u, mc) → sm_StopUnit target.1 mc = (JobResult "done", m) →
       unit_running (sh_manager h') target.1 = false).
Proof.
  unfold systemd_Stop. intros (st & h1 & E1%attempt_Ok & (target & h2 & E2 & (c & h3 & E3%attempt_Ok & (u4 & h4 & E4 &
    (r & h5 & E5%attempt_Ok & (u6 & h6 & E6 & (u7 & h7 & E7 & (u8 & h8 & E8%annotate_Ok & E9)%bind_Ok)%bind_Ok)%bind_Ok
    )%bind_Ok)%bind_Ok)%bind_Ok)%bind_Ok)%bind_Ok.
  apply readState_run in E1 as [-> ->]. injection E2 as Ht <-. exists target. split; [done|].
  apply stable_run in E3 as S3; [|apply connect_stable]. apply stable_run in E4 as S4; [|apply stop_and_disable_stable].
  assert (h6 = h5 ∧ ∀ e, r = Err e → IsNotExist e = true) as [-> Hr].
  { destruct r as [?|e]; [injection E6 as _ <-; by split|]. destruct (IsNotExist e) eqn:E; [|done].
    injection E6 as _ <-. split; [done|]. by intros ? [= <-]. }
  apply remove_ends in E5; [|done]. subst h5.
  apply stable_run in E7 as S7; [|apply reload_after_stable]. apply stable_run in E8 as S8; [|apply dns_stable].
  apply removeState_ok in E9 as (M9 & F9 & G9).
  destruct S3 as [F3 G3], S4 as [F4 G4], S7 as [F7 G7], S8 as [F8 G8]. cbn in *. split_and!.
  - by rewrite F9, F8, F7, F4, F3.
  - by rewrite G9, G8, G7, G4, G3.
  - intros u mc m Hc Hj. rewrite M9.
    rewrite (dns_manager _ _ _ _ E8).
    unfold sd_connect, sd_call, mbind, SE_bind, sd_manage in E3. rewrite Hc in E3. injection E3 as <- <-.
    cbn [is_ok] in *. destruct u4. eapply stop_and_disable_stops in E4; [|exact Hj].
    unfold reload_after, mbind, SE_bind in E7. rewrite attempt_eq in E7. injection E7 as _ <-.
    unfold systemdReload, annotate, sd_call, mbind, SE_bind, sd_manage, of_res. cbn.
    pose proof (reload_running target.1 (sh_manager h4)) as Hrr. destruct (sm_Reload (sh_manager h4)) as [[] m2] eqn:E; cbn in *; by rewrite Hrr.
Qed.

(** A stop after a deploy ends that deploy, whatever name its unit has. *)
Lemma stop_after_deploy meta w h h1 h2 : Deploy meta w h = (Ok tt, h1) →
  readFile h1 (state_path meta (w_Name w)) = Ok tt → Stop meta (w_Name w) h1 = (Ok tt, h2) →
  sh_files h2 = delete (systemdUnitPath (workloadUnitName meta w)) (sh_files h) ∧
  sh_states h2 = delete (state_path meta (w_Name w)) (sh_states h).
Proof.
  intros Hd Hr Hs. apply deploy_ok in Hd as (content & st & _ & F & G & [N P] & _).
  apply stop_ok in Hs as (target & Ht & F2 & G2 & _). revert Ht. unfold readState. rewrite G, lookup_insert_eq, Hr. cbn.
  rewrite N, P. assert (TrimSpace (systemdUnitPath (workloadUnitName meta w)) ≠ "") as Hp.
  { rewrite unit_path_trimmed by apply unit_name_service. by rewrite unit_path_text by apply unit_name_service. }
  intros [= <-]. rewrite F2, G2, F, G. cbn.
  rewrite (proj2 (String.eqb_neq _ _) Hp). cbn. by rewrite !delete_insert_eq.
Qed.
End honest.
End host.
