(* ===== verification/Firecracker.v ===== *)
(** * The Firecracker runtime (internal/runtime/firecracker)

    A workload is a microVM of a Firecracker process: [Deploy] starts one, records it in a state
    file and in a table of running machines, and leaves a goroutine that waits for its end; [Stop]
    ends it.  The Firecracker SDK and the operating system's processes are parameters, as are the
    failures of the file system.  A call and a waiting goroutine run as a whole; the goroutines
    that have not run yet are part of the host.  The second half has the lemmas. *)
From stdpp Require Import base strings numbers gmap list.
From Stdlib Require Import Ascii.
From S2P Require Import Prelude GoStrings GoTime GoNet GoList Deploy Validate Meta GoText Placement Fsm RaftService TaskBase Dns Runtime ProcessRuntime Effects.

(** ** provider.go *)
Definition defaultBinaryPath := "firecracker".
Definition defaultBootArgs := "console=ttyS0 reboot=k panic=1 pci=off root=/dev/vda".
Definition defaultVCPUCount : Z := 1.
Definition defaultMemSizeMiB : Z := 128.

Record NetworkConfig := mkNetwork {
  nc_InterfaceID : string; nc_TapDeviceName : string; nc_GuestMAC : string; nc_AllowMMDSRequests : bool }.
Record VMConfig := mkVMConfig {
  vc_ID : string; vc_BinaryPath : string; vc_APISocket : string; vc_KernelImage : string; vc_RootfsPath : string;
  vc_RootfsReadOnly : bool; vc_BootArgs : string; vc_VCPUCount : Z; vc_MemSizeMiB : Z; vc_Network : option NetworkConfig;
  vc_StdoutPath : string; vc_StderrPath : string }.

Definition firecrackerNetworkConfig (o : FirecrackerOptions) : option NetworkConfig :=
  let tap := TrimSpace (fc_TapDeviceName o) in
  if (tap =? "")%string && (TrimSpace (fc_NetworkInterfaceID o) =? "")%string && (TrimSpace (fc_GuestMAC o) =? "")%string
     && negb (fc_AllowMMDSRequests o)
  then None
  else
    let id := TrimSpace (fc_NetworkInterfaceID o) in
    Some (mkNetwork (if (id =? "")%string then "eth0" else id) tap (TrimSpace (fc_GuestMAC o)) (fc_AllowMMDSRequests o)).

Definition defaultBootArgsForRootfs (readOnly : bool) : string :=
  defaultBootArgs +:+ (if readOnly then " ro" else " rw").

Definition validateVMConfig (workloadName : string) (c : VMConfig) : res unit :=
  guard_err (vc_KernelImage c =? "")%string (Errorf "workload %q: kernel_image_path is required" [AStr workloadName]) ;;
  guard_err (vc_RootfsPath c =? "")%string (Errorf "workload %q: rootfs_path is required" [AStr workloadName]) ;;
  guard_err (match vc_Network c with Some n => (nc_TapDeviceName n =? "")%string | None => false end)
    (Errorf "workload %q: tap_device_name is required when firecracker network is configured" [AStr workloadName]).

Definition fc_ArtifactSummary (run : RunSpec) : string :=
  let summary := ArtifactSummary run in
  if negb (summary =? "")%string then summary
  else match opt_Firecracker (run_Options run) with Some o => TrimSpace (fc_RootfsPath o) | None => "" end.

Section config.
(** [config.DefaultDataRoot()] and [Provider.root]. *)
Variables (DefaultDataRoot root : string).

Definition fc_rootOrDefault : string :=
  if negb (TrimSpace root =? "")%string then path_Clean root
  else filepath_Join [DefaultDataRoot; "runtime"; "firecracker"].
Definition fc_nameBase (meta : Metadata) (workloadName : string) : string :=
  SanitizeName (NamespaceOrDefault (md_Namespace meta)) +:+ "-" +:+ SanitizeName (md_Name meta) +:+ "-" +:+
  SanitizeName workloadName.
Definition runningKey := fc_nameBase.
Definition fc_statePath (meta : Metadata) (workloadName : string) : string :=
  filepath_Join [fc_rootOrDefault; "state"; fc_nameBase meta workloadName +:+ ".json"].

Definition baseVMConfig (meta : Metadata) (w : Workload) (o : FirecrackerOptions) : VMConfig :=
  let id := fc_nameBase meta (w_Name w) in
  mkVMConfig id (TrimSpace (fc_BinaryPath o)) (TrimSpace (fc_SocketPath o)) (TrimSpace (fc_KernelImagePath o))
    (TrimSpace (fc_RootfsPath o)) (fc_RootfsReadOnly o) (TrimSpace (fc_BootArgs o)) (fc_VCPUCount o) (fc_MemSizeMiB o)
    (firecrackerNetworkConfig o)
    (filepath_Join [fc_rootOrDefault; "logs"; id +:+ ".stdout.log"])
    (filepath_Join [fc_rootOrDefault; "logs"; id +:+ ".stderr.log"]).

Definition applyVMConfigDefaults (c : VMConfig) : VMConfig :=
  let or_default (s d : string) := if (s =? "")%string then d else s in
  mkVMConfig (vc_ID c) (or_default (vc_BinaryPath c) defaultBinaryPath)
    (or_default (vc_APISocket c) (filepath_Join [fc_rootOrDefault; "sockets"; vc_ID c +:+ ".sock"]))
    (vc_KernelImage c) (vc_RootfsPath c) (vc_RootfsReadOnly c)
    (or_default (vc_BootArgs c) (defaultBootArgsForRootfs (vc_RootfsReadOnly c)))
    (if (vc_VCPUCount c <=? 0)%Z then defaultVCPUCount else vc_VCPUCount c)
    (if (vc_MemSizeMiB c <=? 0)%Z then defaultMemSizeMiB else vc_MemSizeMiB c)
    (vc_Network c) (vc_StdoutPath c) (vc_StderrPath c).

Definition BuildConfig (meta : Metadata) (w : Workload) : res VMConfig :=
  wrap "validate workload mounts" [] (RejectUnsupportedMounts RuntimeFirecracker w) ;;
  match opt_Firecracker (run_Options (w_Run w)) with
  | None => Err (Errorf "workload %q: run.runtimeOptions.firecracker is required" [AStr (w_Name w)])
  | Some o =>
      let c := applyVMConfigDefaults (baseVMConfig meta w o) in
      validateVMConfig (w_Name w) c ;; Ok c
  end.
End config.

(** ** The SDK *)

(** [models.Drive], [fc.NetworkInterface] with its static configuration, and [fc.Config]. *)
Record Drive := mkDrive { dr_DriveID : string; dr_PathOnHost : string; dr_IsRootDevice : bool; dr_IsReadOnly : bool }.
Record NetworkInterface := mkInterface { ni_HostDevName : string; ni_MacAddress : string; ni_AllowMMDS : bool }.
Record MachineConfig := mkMachineConfig {
  mc_SocketPath : string; mc_VMID : string; mc_KernelImagePath : string; mc_KernelArgs : string; mc_Drives : list Drive;
  mc_NetworkInterfaces : list NetworkInterface; mc_VcpuCount : Z; mc_MemSizeMib : Z }.
(** The command [VMCommandBuilder] builds. *)
Record VMCommand := mkVMCommand { cmd_Bin : string; cmd_SocketPath : string; cmd_Stdout : string; cmd_Stderr : string }.

Definition firecrackerNetworkInterfaces (n : option NetworkConfig) : list NetworkInterface :=
  match n with
  | None => []
  | Some n => [mkInterface (nc_TapDeviceName n) (nc_GuestMAC n) (nc_AllowMMDSRequests n)]
  end.
Definition firecrackerMachineConfig (c : VMConfig) : MachineConfig :=
  mkMachineConfig (vc_APISocket c) (vc_ID c) (vc_KernelImage c) (vc_BootArgs c)
    [mkDrive "rootfs" (vc_RootfsPath c) true (vc_RootfsReadOnly c)] (firecrackerNetworkInterfaces (vc_Network c))
    (vc_VCPUCount c) (vc_MemSizeMiB c).
Definition firecrackerCommand (c : VMConfig) : VMCommand :=
  mkVMCommand (vc_BinaryPath c) (vc_APISocket c) (vc_StdoutPath c) (vc_StderrPath c).

(** Machines, processes and sockets: the outside, which changes with every call. *)
Class MachineLib := {
  outside : Type;
  machine : Type;
  sdk_NewMachine : VMCommand → MachineConfig → outside → res machine * outside;
  sdk_Start : machine → outside → res unit * outside;
  sdk_PID : machine → outside → res Z;
  sdk_StopVMM : machine → outside → res unit * outside;
  (** [machine.Wait], bounded by a time or not *)
  sdk_WaitFor : Z → machine → outside → outside;
  sdk_Wait : machine → outside → outside;
  (** signal 0 reaches the process *)
  os_Alive : Z → outside → bool * outside;
  os_Terminate : Z → outside → res unit * outside;
  os_Kill : Z → outside → outside;
  (** [os.Remove] of a socket, whose error is ignored *)
  os_RemoveSocket : string → outside → outside }.

(** ** provider_state_linux.go *)
Record fcState := mkFcState {
  fs_PID : Z; fs_APISocket : string; fs_Network : option NetworkConfig; fs_Metadata : Metadata; fs_Workload : string;
  fs_Runtime : string; fs_Artifact : string; fs_StartedAt : Z }.
Record runningVMM `{MachineLib} := mkRunning { rv_pid : Z; rv_machine : machine }.
(** A goroutine [waitVMM] that has been started. *)
Record waiter `{MachineLib} := mkWaiter {
  wt_meta : Metadata; wt_workload : string; wt_machine : machine; wt_pid : Z; wt_apiSocket : string }.

Record FcHost `{MachineLib} := mkFcHost {
  fh_outside : outside; fh_states : gmap string (res fcState); fh_running : gmap string runningVMM;
  fh_waiters : list waiter }.
Arguments mkFcHost {_}. Arguments mkRunning {_}. Arguments mkWaiter {_}.

Definition fc_put `{MachineLib} (m : gmap string (res fcState)) (h : FcHost) : FcHost :=
  mkFcHost (fh_outside h) m (fh_running h) (fh_waiters h).
Definition with_running `{MachineLib} (f : gmap string runningVMM → gmap string runningVMM) (h : FcHost) : FcHost :=
  mkFcHost (fh_outside h) (fh_states h) (f (fh_running h)) (fh_waiters h).
Definition with_waiters `{MachineLib} (f : list waiter → list waiter) (h : FcHost) : FcHost :=
  mkFcHost (fh_outside h) (fh_states h) (fh_running h) (f (fh_waiters h)).

Section firecracker.
Context `{MachineLib, Polling}.
Variables (DefaultDataRoot root : string).
Variable ctxErr : FcHost → res unit.
Variables (mkdirAll openFile writeFile readFile removeFile : FcHost → string → res unit).
Variable residue : FcHost → string → option (res fcState).
Variable now : FcHost → Z.

(** Calls. *)
Definition fc_call {A} (f : outside → res A * outside) : SE FcHost A := λ h,
  let '(r, o) := f (fh_outside h) in (r, mkFcHost o (fh_states h) (fh_running h) (fh_waiters h)).
Definition fc_do (f : outside → outside) : SE FcHost unit := λ h,
  (Ok tt, mkFcHost (f (fh_outside h)) (fh_states h) (fh_running h) (fh_waiters h)).
Definition fc_answer {A} (f : FcHost → res A) : SE FcHost A := λ h, (f h, h).

Definition fc_readState (meta : Metadata) (workloadName : string) : SE FcHost fcState :=
  read_state fh_states readFile (λ _ _, ErrNotExist) "firecracker state" (fc_statePath DefaultDataRoot root meta workloadName).
Definition fc_writeState (meta : Metadata) (workloadName : string) (st : fcState) : SE FcHost unit :=
  let path := fc_statePath DefaultDataRoot root meta workloadName in
  _ ← annotate "create state dir" [] (fc_answer (λ h, mkdirAll h (filepath_Dir path)));
  write_state fh_states fc_put writeFile residue "firecracker state" path st.
Definition fc_removeState (meta : Metadata) (workloadName : string) : SE FcHost unit :=
  remove_state fh_states fc_put removeFile "firecracker state" Is_NotExist (fc_statePath DefaultDataRoot root meta workloadName).
Definition fc_removeStateIfPID (meta : Metadata) (workloadName : string) (pid : Z) : SE FcHost unit :=
  st ← attempt (fc_readState meta workloadName);
  match st with
  | Ok st => if negb (fs_PID st =? pid)%Z then mret tt else fc_removeState meta workloadName
  | Err _ => mret tt
  end.

Definition openAppend (path : string) : SE FcHost unit :=
  _ ← annotate "create log dir" [] (fc_answer (λ h, mkdirAll h (filepath_Dir path)));
  annotate "open log %s" [AStr (filepath_Base path)] (fc_answer (λ h, openFile h path)).
(** Closing the files is left out. *)
Definition openLogs (c : VMConfig) : SE FcHost unit := _ ← openAppend (vc_StdoutPath c); openAppend (vc_StderrPath c).

Definition trackRunningVMM (meta : Metadata) (workloadName : string) (vm : runningVMM) : SE FcHost unit := λ h,
  (Ok tt, with_running (<[runningKey meta workloadName := vm]>) h).
Definition untrack (key : string) (pid : Z) (m : gmap string runningVMM) : gmap string runningVMM :=
  match m !! key with Some vm => if (rv_pid vm =? pid)%Z then delete key m else m | None => m end.
Definition untrackRunningVMM (meta : Metadata) (workloadName : string) (pid : Z) : SE FcHost unit := λ h,
  (Ok tt, with_running (untrack (runningKey meta workloadName) pid) h).
Definition runningVMM_of (meta : Metadata) (workloadName : string) (h : FcHost) : option runningVMM :=
  fh_running h !! runningKey meta workloadName.

(** ** provider_linux.go *)
Definition fc_defaultStopTimeout : Z := 5000000000.
Definition errProcessStillRunning : error := Errorf "process still running" [].

Definition fc_processAlive (pid : Z) : SE FcHost bool := λ h,
  if (pid <=? 0)%Z then (Ok false, h)
  else let '(b, o) := os_Alive pid (fh_outside h) in
       (Ok b, mkFcHost o (fh_states h) (fh_running h) (fh_waiters h)).

(** One attempt of the polling loop. *)
Definition exit_poll (pid : Z) (h : FcHost) : outcome unit * FcHost :=
  match fc_processAlive pid h with
  | (Ok false, h') => (Done tt, h')
  | (_, h') => (Again errProcessStillRunning, h')
  end.
Definition fc_waitExit (pid timeout : Z) : SE FcHost bool := λ h,
  match Retry_for timeout (exit_poll pid) h with
  | (RetryDone _, h') => (Ok true, h')
  | (RetryFailed _, h') => (alive ← fc_processAlive pid; mret (negb alive)) h'
  end.

Definition remove_socket (path : string) : SE FcHost unit := fc_do (os_RemoveSocket path).
Definition remove_named_socket (path : string) : SE FcHost unit :=
  if negb (path =? "")%string then remove_socket path else mret tt.

Definition fc_ensureNoLiveState (meta : Metadata) (workloadName : string) : SE FcHost unit :=
  st ← attempt (fc_readState meta workloadName);
  match st with
  | Err e => if Is_NotExist e then mret tt else raise e
  | Ok st =>
      alive ← (if (0 <? fs_PID st)%Z then fc_processAlive (fs_PID st) else mret false);
      if alive : bool then
        raise (Errorf "firecracker workload %q already has live pid %d" [AStr workloadName; AInt (fs_PID st)])
      else
        _ ← remove_named_socket (fs_APISocket st);
        fc_removeState meta workloadName
  end.

(** [cleanupStarted], whose errors are ignored. *)
Definition cleanupStarted (m : machine) (apiSocket : string) : SE FcHost unit :=
  _ ← attempt (fc_call (sdk_StopVMM m));
  _ ← fc_do (sdk_WaitFor fc_defaultStopTimeout m);
  remove_socket apiSocket.

(** [go p.waitVMM(...)] *)
Definition spawn (t : waiter) : SE FcHost unit := λ h, (Ok tt, with_waiters (λ l, l ++ [t]) h).

Definition firecracker_Deploy (meta : Metadata) (w : Workload) : SE FcHost unit :=
  c ← of_res (BuildConfig DefaultDataRoot root meta w);
  _ ← fc_ensureNoLiveState meta (w_Name w);
  _ ← annotate "create api socket dir" [] (fc_answer (λ h, mkdirAll h (filepath_Dir (vc_APISocket c))));
  _ ← remove_socket (vc_APISocket c);
  _ ← openLogs c;
  m ← annotate "create firecracker machine" [] (fc_call (sdk_NewMachine (firecrackerCommand c) (firecrackerMachineConfig c)));
  _ ← or_undo (annotate "start firecracker" [] (fc_call (sdk_Start m))) (remove_socket (vc_APISocket c));
  pid ← or_undo (annotate "read firecracker pid" [] (fc_answer (λ h, sdk_PID m (fh_outside h))))
          (_ ← attempt (fc_call (sdk_StopVMM m)); remove_socket (vc_APISocket c));
  startedAt ← fc_answer (λ h, Ok (now h));
  _ ← or_undo (fc_writeState meta (w_Name w) (mkFcState pid (vc_APISocket c) (vc_Network c) meta (w_Name w) (w_Runtime w)
                 (fc_ArtifactSummary (w_Run w)) startedAt)) (cleanupStarted m (vc_APISocket c));
  _ ← trackRunningVMM meta (w_Name w) (mkRunning pid m);
  spawn (mkWaiter meta (w_Name w) m pid (vc_APISocket c)).

(** [waitVMM] *)
Definition waitVMM (t : waiter) : SE FcHost unit :=
  _ ← fc_do (sdk_Wait (wt_machine t));
  _ ← remove_socket (wt_apiSocket t);
  _ ← untrackRunningVMM (wt_meta t) (wt_workload t) (wt_pid t);
  _ ← attempt (fc_removeStateIfPID (wt_meta t) (wt_workload t) (wt_pid t));
  mret tt.

(** Ending the process of a state: by the SDK when this agent started it, else by signals. *)
Definition stop_via_sdk (meta : Metadata) (workloadName : string) (pid : Z) : SE FcHost bool := λ h,
  match runningVMM_of meta workloadName h with
  | Some vm =>
      if (rv_pid vm =? pid)%Z then (r ← attempt (fc_call (sdk_StopVMM (rv_machine vm))); mret (is_ok r)) h else (Ok false, h)
  | None => (Ok false, h)
  end.
Definition end_process (pid : Z) (stoppedViaSDK : bool) : SE FcHost unit :=
  _ ← (if stoppedViaSDK then mret tt
       else r ← attempt (fc_call (os_Terminate pid)); if is_ok r then mret tt else fc_do (os_Kill pid));
  gone ← fc_waitExit pid fc_defaultStopTimeout;
  if gone : bool then mret tt else fc_do (os_Kill pid).

Definition firecracker_Stop (meta : Metadata) (workloadName : string) : SE FcHost unit :=
  st ← attempt (fc_readState meta workloadName);
  match st with
  | Err e => if Is_NotExist e then mret tt else raise e
  | Ok st =>
      _ ← fc_answer ctxErr;
      viaSDK ← stop_via_sdk meta workloadName (fs_PID st);
      _ ← end_process (fs_PID st) viaSDK;
      _ ← untrackRunningVMM meta workloadName (fs_PID st);
      _ ← remove_named_socket (fs_APISocket st);
      fc_removeState meta workloadName
  end.

Definition firecracker_Status (meta : Metadata) (workloadName : string) : SE FcHost RuntimeStatus :=
  st ← attempt (fc_readState meta workloadName);
  match st with
  | Err e =>
      if Is_NotExist e then mret (TaskBase.mkStatus (TrimSpace workloadName) RuntimeFirecracker "stopped" "" 0 0 "") else raise e
  | Ok st =>
      alive ← (if (0 <? fs_PID st)%Z then fc_processAlive (fs_PID st) else mret false);
      updatedAt ← fc_answer (λ h, Ok (now h));
      mret (TaskBase.mkStatus (TrimSpace workloadName) RuntimeFirecracker (if alive : bool then "running" else "stopped")
              (Itoa (fs_PID st)) (fs_StartedAt st) updatedAt
              (if alive : bool then "" else "firecracker state exists but pid is not running"))
  end.

(** [logs] is what reading a log file gives. *)
Definition firecracker_Logs (logs : string → res (option (list ascii))) (meta : Metadata) (workloadName : string)
    (tail : Z) : res LogResult :=
  let base := fc_nameBase meta workloadName in
  let logDir := filepath_Join [fc_rootOrDefault DefaultDataRoot root; "logs"] in
  stdout ← wrap "read stdout log" [] (ReadTailFile (logs (filepath_Join [logDir; base +:+ ".stdout.log"])) tail);
  stderr ← wrap "read stderr log" [] (ReadTailFile (logs (filepath_Join [logDir; base +:+ ".stderr.log"])) tail);
  Ok (mkLogResult (TrimSpace workloadName) RuntimeFirecracker logDir (of_bytes (combineProcessLogs stdout stderr))).

(** Calls and goroutines, one after the other: a deploy, a stop, or the end of the i-th goroutine
    that waits. *)
Inductive fc_op := OpDeploy (meta : Metadata) (w : Workload) | OpStop (meta : Metadata) (workloadName : string) | OpEnd (i : nat).
Definition run_op (op : fc_op) (h : FcHost) : FcHost :=
  match op with
  | OpDeploy meta w => (firecracker_Deploy meta w h).2
  | OpStop meta n => (firecracker_Stop meta n h).2
  | OpEnd i =>
      match fh_waiters h !! i with
      | Some t => (waitVMM t (with_waiters (λ l, take i l ++ drop (S i) l) h)).2
      | None => h
      end
  end.
Definition run_ops (ops : list fc_op) (h : FcHost) : FcHost := foldl (λ h op, run_op op h) h ops.
End firecracker.

(** ** What validation promises to the runtime *)

(** The configuration of a machine that can be started. *)
Definition startable (c : VMConfig) : Prop :=
  vc_KernelImage c ≠ "" ∧ vc_RootfsPath c ≠ "" ∧ vc_BinaryPath c ≠ "" ∧ vc_BootArgs c ≠ "" ∧
  (0 < vc_VCPUCount c)%Z ∧ (0 < vc_MemSizeMiB c)%Z ∧ (∀ n, vc_Network c = Some n → nc_TapDeviceName n ≠ "").

Lemma or_default_nonempty (s d : string) : d ≠ "" → (if (s =? "")%string then d else s) ≠ "".
Proof. intros Hd. by destruct (String.eqb_spec s ""). Qed.

Lemma config_startable data root meta w o : validateVMConfig (w_Name w) (applyVMConfigDefaults data root (baseVMConfig data root meta w o)) = Ok tt →
  startable (applyVMConfigDefaults data root (baseVMConfig data root meta w o)).
Proof.
  unfold validateVMConfig. cbn. destruct (String.eqb_spec (TrimSpace (fc_KernelImagePath o)) ""); [done|].
  destruct (String.eqb_spec (TrimSpace (fc_RootfsPath o)) ""); [done|]. cbn. intros Hn. split_and!; try done.
  - by apply or_default_nonempty.
  - apply or_default_nonempty. by destruct (fc_RootfsReadOnly o).
  - cbn. destruct (Z.leb_spec (fc_VCPUCount o) 0); cbn; [done|lia].
  - cbn. destruct (Z.leb_spec (fc_MemSizeMiB o) 0); cbn; [done|lia].
  - cbn. intros nc E. rewrite E in Hn. by destruct (String.eqb_spec (nc_TapDeviceName nc) "").
Qed.

Lemma valid_config_builds data root meta w : validateFirecrackerRuntime w = Ok tt → w_Mounts w = [] →
  ∃ c, BuildConfig data root meta w = Ok c ∧ startable c.
Proof.
  unfold validateFirecrackerRuntime, BuildConfig, RejectUnsupportedMounts. intros Hv ->.
  destruct (opt_Firecracker (run_Options (w_Run w))) as [o|]; [|done]. cbn [length Nat.eqb negb guard_err wrap].
  assert (validateVMConfig (w_Name w) (applyVMConfigDefaults data root (baseVMConfig data root meta w o)) = Ok tt) as Hc.
  { revert Hv. unfold validateFirecrackerKernel, validateFirecrackerRootfs, validateFirecrackerNetwork, hasFirecrackerNetworkFields,
      validateVMConfig, blank. cbn. unfold firecrackerNetworkConfig.
    destruct (TrimSpace (fc_KernelImagePath o) =? "")%string; [done|].
    destruct (TrimSpace (fc_RootfsPath o) =? "")%string; [done|]. cbn.
    destruct (TrimSpace (fc_TapDeviceName o) =? "")%string eqn:Et; destruct (TrimSpace (fc_NetworkInterfaceID o) =? "")%string,
      (TrimSpace (fc_GuestMAC o) =? "")%string eqn:Eg, (fc_AllowMMDSRequests o); cbn; try done; by rewrite Et. }
  eexists. rewrite Hc. split; [reflexivity|]. by apply config_startable.
Qed.

(** ** What deploying and stopping leave *)
Section firecracker_lemmas.
Context `{MachineLib, PollingLaws} (data root : string) (ctxErr : FcHost → res unit).
Context (mkdirAll openFile writeFile readFile removeFile : FcHost → string → res unit).
Context (residue : FcHost → string → option (res fcState)) (now : FcHost → Z).

Abbreviation Deploy := (firecracker_Deploy data root mkdirAll openFile writeFile readFile removeFile residue now).
Abbreviation Stop := (firecracker_Stop data root ctxErr readFile removeFile).
Abbreviation path := (fc_statePath data root).

(** Only the outside changes. *)
Definition quiet (h h' : FcHost) : Prop :=
  fh_states h' = fh_states h ∧ fh_running h' = fh_running h ∧ fh_waiters h' = fh_waiters h.
#[local] Instance quiet_preorder : PreOrder quiet.
Proof. split; [done|]. intros h1 h2 h3 (A & B & C) (D & E & F). split_and!; congruence. Qed.

Lemma call_quiet {A} (f : outside → res A * outside) : keeps quiet (fc_call f).
Proof. intros h. unfold fc_call. by destruct (f (fh_outside h)). Qed.
Lemma do_quiet f : keeps quiet (fc_do f).
Proof. by intros h. Qed.
Lemma answer_quiet {A} (f : FcHost → res A) : keeps quiet (fc_answer f).
Proof. by intros h. Qed.
Lemma named_socket_quiet p : keeps quiet (remove_named_socket p).
Proof. unfold remove_named_socket. destruct (negb _); by intros h. Qed.
Lemma alive_quiet pid : keeps quiet (fc_processAlive pid).
Proof. intros h. unfold fc_processAlive. destruct (pid <=? 0)%Z; [done|]. by destruct (os_Alive pid (fh_outside h)). Qed.
Lemma logs_quiet c : keeps quiet (openLogs mkdirAll openFile c).
Proof.
  assert (∀ p, keeps quiet (openAppend mkdirAll openFile p)) as Ha.
  { intros p. apply keeps_bind; [apply _|apply keeps_annotate, answer_quiet|]. intros _. apply keeps_annotate, answer_quiet. }
  apply keeps_bind; [apply _|apply Ha|]. intros _. apply Ha.
Qed.
Lemma cleanup_quiet m p : keeps quiet (cleanupStarted m p).
Proof.
  apply keeps_bind; [apply _|apply keeps_attempt, call_quiet|intros _]. apply keeps_bind; [apply _|apply do_quiet|intros _].
  apply do_quiet.
Qed.
Lemma readState_same meta n h : (fc_readState data root readFile meta n h).2 = h.
Proof. apply read_state_same. Qed.

(** A process that does not answer, or one that was killed. *)
Definition gone (pid : Z) (o : outside) : Prop :=
  (pid ≤ 0)%Z ∨ (∃ o0, os_Alive pid o0 = (false, o)) ∨ ∃ o0, o = os_Kill pid o0.

Lemma alive_gone pid h h' : fc_processAlive pid h = (Ok false, h') → gone pid (fh_outside h').
Proof.
  unfold fc_processAlive, gone. destruct (Z.leb_spec pid 0); [auto|]. destruct (os_Alive pid (fh_outside h)) as [b o] eqn:E.
  intros [= -> <-]. cbn. eauto.
Qed.
Lemma poll_quiet pid h : quiet h (exit_poll pid h).2.
Proof.
  pose proof (alive_quiet pid h) as Hq. unfold exit_poll. by destruct (fc_processAlive pid h) as [[[]|] ?].
Qed.
Lemma waitExit_spec pid timeout h : ∃ b h', fc_waitExit pid timeout h = (Ok b, h') ∧ quiet h h' ∧
  (b = true → gone pid (fh_outside h')).
Proof.
  unfold fc_waitExit. destruct (retry_for_tries timeout (exit_poll pid) h) as (k & _ & E2 & E1).
  destruct (tries_last quiet k (exit_poll pid) h) as (h0 & Hq & Ht).
  { intros h1 e h2 E. pose proof (poll_quiet pid h1) as Hp. by rewrite E in Hp. }
  rewrite Ht in E1, E2. pose proof (poll_quiet pid h0) as Hp. destruct (Retry_for _ _ h) as [r h1]. cbn in E1, E2. subst h1.
  unfold exit_poll in *. destruct (fc_processAlive pid h0) as [[[]|e] h2] eqn:Ea; cbn in *.
  2: { rewrite E1. exists true, h2. split; [done|]. split; [by etrans|]. intros _. by eapply alive_gone. }
  all: destruct E1 as (e' & -> & _); pose proof (alive_quiet pid h2) as Hq2; unfold mbind, SE_bind;
    destruct (fc_processAlive pid h2) as [[b|?] h3] eqn:Eb; cbn in *.
  all: try (exists (negb b), h3; split; [done|]; split; [by etrans; [|etrans]|]; destruct b; [done|]; intros _; by eapply alive_gone).
  all: exfalso; revert Eb; unfold fc_processAlive; destruct (pid <=? 0)%Z; [done|]; by destruct (os_Alive pid _).
Qed.

(** Ending a process: it was seen gone, or it was killed. *)
Lemma end_process_spec pid b h : ∃ h', end_process pid b h = (Ok tt, h') ∧ quiet h h' ∧ gone pid (fh_outside h').
Proof.
  unfold end_process. set (m1 := if b then _ else _). assert (∃ h1, m1 h = (Ok tt, h1) ∧ quiet h h1) as (h1 & E1 & Q1).
  { subst m1. destruct b; [by exists h|]. unfold mbind, SE_bind. rewrite attempt_eq. pose proof (call_quiet (os_Terminate pid) h) as Hq.
    destruct (fc_call (os_Terminate pid) h) as [r h1]. cbn in *. destruct (is_ok r); eexists; (split; [reflexivity|]); [done|].
    etrans; [exact Hq|apply do_quiet]. }
  destruct (waitExit_spec pid fc_defaultStopTimeout h1) as (g & h2 & E2 & Q2 & G2).
  unfold mbind, SE_bind. rewrite E1. cbn -[fc_waitExit]. rewrite E2. destruct g.
  - exists h2. split; [done|]. split; [by etrans|auto].
  - eexists. split; [reflexivity|]. split; [by etrans; [|etrans; [exact Q2|apply do_quiet]]|]. right. right. cbn. eauto.
Qed.

(** *** State files *)
Lemma writeState_fc_Ok meta n st h h' : fc_writeState data root mkdirAll writeFile residue meta n st h = (Ok tt, h') →
  h' = fc_put (<[path meta n := Ok st]> (fh_states h)) h.
Proof. intros (u & h1 & E1%annotate_Ok & E2%write_state_Ok)%bind_Ok. by injection E1 as _ <-. Qed.
Lemma writeState_fc_Err meta n st h e h' : fc_writeState data root mkdirAll writeFile residue meta n st h = (Err e, h') →
  quiet h h' ∨ h' = fc_put (partial_alter (λ _, residue h (path meta n)) (path meta n) (fh_states h)) h.
Proof.
  intros [E|(u & h1 & E1%annotate_Ok & E2%write_state_Err)]%bind_Err.
  - left. apply (keeps_run quiet) in E; [done|apply keeps_annotate, answer_quiet].
  - right. by injection E1 as _ <-.
Qed.

(** Nothing but the outside and the file [p], which may be gone. *)
Definition cleared (p : string) (h h' : FcHost) : Prop :=
  (fh_states h' = fh_states h ∨ fh_states h' = delete p (fh_states h)) ∧
  fh_running h' = fh_running h ∧ fh_waiters h' = fh_waiters h.
Lemma quiet_cleared p h h' : quiet h h' → cleared p h h'.
Proof. intros (A & B & C). split; auto. Qed.
#[local] Instance cleared_preorder p : PreOrder (cleared p).
Proof.
  split; [by intros h; split; [left|]|]. intros h1 h2 h3 (A & B & C) (D & E & F). split; [|split; congruence].
  destruct D as [->| ->], A as [->| ->]; auto. by rewrite delete_delete_eq; auto.
Qed.
Lemma removeState_cleared meta n : keeps (cleared (path meta n)) (fc_removeState data root removeFile meta n).
Proof.
  intros h. unfold fc_removeState.
  destruct (remove_state_other fh_states fc_put removeFile "firecracker state" Is_NotExist (path meta n) h) as [-> | ->]; [done|].
  split; [by right|done].
Qed.
Lemma keeps_after_read {A} (R : relation FcHost) meta n (f : res fcState → SE FcHost A) : (∀ st, keeps R (f st)) →
  keeps R (attempt (fc_readState data root readFile meta n) ≫= f).
Proof. intros Hf h. unfold mbind, SE_bind. rewrite attempt_eq, readState_same. apply Hf. Qed.
Lemma ensure_cleared meta n : keeps (cleared (path meta n)) (fc_ensureNoLiveState data root readFile removeFile meta n).
Proof.
  apply keeps_after_read. intros [st|e]; [|destruct (Is_NotExist e); by intros h].
  apply keeps_bind; [apply _| |].
  - intros h. apply quiet_cleared. destruct (0 <? fs_PID st)%Z; [apply alive_quiet|done].
  - intros []; [by intros h|]. apply keeps_bind; [apply _|intros h; apply quiet_cleared, named_socket_quiet|]. intros _.
    apply removeState_cleared.
Qed.

(** *** Deploying *)

(** A deploy that succeeds started a machine of the workload's configuration and recorded its
    process in the state file and in the table, with a goroutine that waits for it. *)
Definition fc_deployed (meta : Metadata) (w : Workload) (h h' : FcHost) : Prop :=
  ∃ c m o0 o1 pid st,
    BuildConfig data root meta w = Ok c ∧
    sdk_NewMachine (firecrackerCommand c) (firecrackerMachineConfig c) o0 = (Ok m, o1) ∧
    sdk_Start m o1 = (Ok tt, fh_outside h') ∧ sdk_PID m (fh_outside h') = Ok pid ∧
    fh_states h' = <[path meta (w_Name w) := Ok st]> (fh_states h) ∧ fs_PID st = pid ∧ fs_APISocket st = vc_APISocket c ∧
    fh_running h' = <[runningKey meta (w_Name w) := mkRunning pid m]> (fh_running h) ∧
    fh_waiters h' = fh_waiters h ++ [mkWaiter meta (w_Name w) m pid (vc_APISocket c)].

Lemma fc_call_run {A} (f : outside → res A * outside) h r h' : fc_call f h = (r, h') →
  ∃ o, f (fh_outside h) = (r, o) ∧ h' = mkFcHost o (fh_states h) (fh_running h) (fh_waiters h).
Proof. unfold fc_call. destruct (f (fh_outside h)) as [r' o]. intros [= <- <-]. eauto. Qed.

(** Up to the creation of a machine. *)
Lemma deploy_prepares meta w h r h' : Deploy meta w h = (r, h') →
  (∃ e, r = Err e ∧ cleared (path meta (w_Name w)) h h') ∨
  ∃ c m h1, BuildConfig data root meta w = Ok c ∧ cleared (path meta (w_Name w)) h h1 ∧
    (∃ o0, sdk_NewMachine (firecrackerCommand c) (firecrackerMachineConfig c) o0 = (Ok m, fh_outside h1)) ∧
    (_ ← or_undo (annotate "start firecracker" [] (fc_call (sdk_Start m))) (remove_socket (vc_APISocket c));
     pid ← or_undo (annotate "read firecracker pid" [] (fc_answer (λ h, sdk_PID m (fh_outside h))))
             (_ ← attempt (fc_call (sdk_StopVMM m)); remove_socket (vc_APISocket c));
     startedAt ← fc_answer (λ h, Ok (now h));
     _ ← or_undo (fc_writeState data root mkdirAll writeFile residue meta (w_Name w)
                    (mkFcState pid (vc_APISocket c) (vc_Network c) meta (w_Name w) (w_Runtime w)
                       (fc_ArtifactSummary (w_Run w)) startedAt)) (cleanupStarted m (vc_APISocket c));
     _ ← trackRunningVMM meta (w_Name w) (mkRunning pid m);
     spawn (mkWaiter meta (w_Name w) m pid (vc_APISocket c))) h1 = (r, h').
Proof.
  unfold firecracker_Deploy. set (p := path meta (w_Name w)).
  assert (∀ A (m : SE FcHost A), keeps quiet m → keeps (cleared p) m) as Hq by (intros A m Hm h0; apply quiet_cleared, Hm).
  assert (∀ A (m : SE FcHost A) (f : A → SE FcHost unit) h0, cleared p h h0 → keeps (cleared p) m → (m ≫= f) h0 = (r, h') →
    (∃ e, r = Err e ∧ cleared p h h') ∨ ∃ a h1, m h0 = (Ok a, h1) ∧ cleared p h h1 ∧ f a h1 = (r, h')) as Hstep.
  { intros A m f h0 Hc0 Hm E. specialize (Hm h0). unfold mbind, SE_bind in E.
    destruct (m h0) as [[a|e] h1]; [right; exists a, h1|injection E as <- <-; left; exists e]; (split; [done|]); [|by etrans].
    split; [by etrans|done]. }
  intros [?|(c & h1 & [= Hb _] & Hc1 & E)]%Hstep; [by left| |reflexivity|apply keeps_of_res, _].
  apply Hstep in E as [?|(u2 & h2 & _ & Hc2 & E)]; [by left| |done|apply ensure_cleared].
  apply Hstep in E as [?|(u3 & h3 & _ & Hc3 & E)]; [by left| |done|apply Hq, keeps_annotate, answer_quiet].
  apply Hstep in E as [?|(u4 & h4 & _ & Hc4 & E)]; [by left| |done|apply Hq, do_quiet].
  apply Hstep in E as [?|(u5 & h5 & _ & Hc5 & E)]; [by left| |done|apply Hq, logs_quiet].
  apply Hstep in E as [?|(m & h6 & E6 & Hc6 & E)]; [by left| |done|apply Hq, keeps_annotate, call_quiet].
  right. exists c, m, h6. split; [done|]. split; [done|]. split; [|exact E].
  apply annotate_Ok, fc_call_run in E6 as (o & E6 & ->). eauto.
Qed.

Lemma fc_deploy_ok meta w h h' : Deploy meta w h = (Ok tt, h') → fc_deployed meta w h h'.
Proof.
  intros [(e & [=] & _)|(c & m & h1 & Hc & (S1 & R1 & W1) & [o0 Hn] & E)]%deploy_prepares.
  apply bind_Ok in E as (u2 & h2 & E2%or_undo_Ok%annotate_Ok & (pid & h3 & E3%or_undo_Ok%annotate_Ok & (t & h4 & E4 &
    (u5 & h5 & E5%or_undo_Ok & (u6 & h6 & E6 & E7)%bind_Ok)%bind_Ok)%bind_Ok)%bind_Ok).
  apply fc_call_run in E2 as (o & E2 & ->). injection E3 as E3 <-. injection E4 as _ <-. destruct u2, u5.
  apply writeState_fc_Ok in E5 as ->. injection E6 as _ <-. injection E7 as <-. cbn in *.
  exists c, m, o0, (fh_outside h1), pid, (mkFcState pid (vc_APISocket c) (vc_Network c) meta (w_Name w) (w_Runtime w)
    (fc_ArtifactSummary (w_Run w)) t). cbn. rewrite R1, W1. split_and!; try done.
  destruct S1 as [->| ->]; [done|]. by rewrite insert_delete_eq.
Qed.

Lemma fc_deploy_err meta w h e h' : Deploy meta w h = (Err e, h') →
  fh_running h' = fh_running h ∧ fh_waiters h' = fh_waiters h ∧
  ∃ o, fh_states h' = partial_alter (λ _, o) (path meta (w_Name w)) (fh_states h) ∧
    (o = fh_states h !! path meta (w_Name w) ∨ o = None ∨ ∃ h1, o = residue h1 (path meta (w_Name w))).
Proof.
  set (p := path meta (w_Name w)). intros E.
  assert (∀ h1, cleared p h h1 → quiet h1 h' ∨ (∃ h2, quiet (fc_put (partial_alter (λ _, residue h2 p) p (fh_states h1)) h1) h') →
    fh_running h' = fh_running h ∧ fh_waiters h' = fh_waiters h ∧
    ∃ o, fh_states h' = partial_alter (λ _, o) p (fh_states h) ∧ (o = fh_states h !! p ∨ o = None ∨ ∃ h1, o = residue h1 p)) as Hend.
  { intros h1 (S1 & R1 & W1) [(S2 & R2 & W2)|(h2 & S2 & R2 & W2)]; cbn in *; rewrite R2, R1, W2, W1; (split; [done|]); (split; [done|]);
      rewrite S2; destruct S1 as [->| ->].
    - exists (fh_states h !! p). rewrite partial_alter_self. auto.
    - exists None. auto.
    - eauto 6.
    - exists (residue h2 p). split; [|eauto]. apply map_eq. intros i. destruct (decide (i = p)) as [->|Hi].
      + by rewrite !lookup_partial_alter_eq.
      + rewrite !lookup_partial_alter_ne, lookup_delete_ne by done. done. }
  apply deploy_prepares in E as [(e' & _ & Hc)|(c & m & h1 & _ & Hc & _ & E)]; [by apply (Hend h'); [|left]|]. fold p in Hc.
  assert (∀ A (m : SE FcHost A) undo h0 e h', keeps quiet m → keeps quiet undo → or_undo m undo h0 = (Err e, h') → quiet h0 h') as Hun.
  { intros A m0 undo h0 e0 h0' Hm Hu E0. apply (keeps_run quiet) in E0; [done|]. by apply or_undo_keeps; [apply _|..]. }
  apply bind_Err in E as [E|(u2 & h2 & E2%or_undo_Ok & E)].
  { apply (Hend h1); [done|]. left. eapply Hun, E; [apply keeps_annotate, call_quiet|apply do_quiet]. }
  apply (keeps_run quiet) in E2; [|apply keeps_annotate, call_quiet].
  apply bind_Err in E as [E|(pid & h3 & E3%or_undo_Ok & E)].
  { apply (Hend h1); [done|]. left. etrans; [exact E2|]. eapply Hun, E; [apply keeps_annotate, answer_quiet|].
    apply keeps_bind; [apply _|apply keeps_attempt, call_quiet|intros _; apply do_quiet]. }
  apply (keeps_run quiet) in E3; [|apply keeps_annotate, answer_quiet].
  apply bind_Err in E as [?|(t & h4 & [= _ <-] & E)]; [done|].
  assert (cleared p h h3) as H3 by (do 2 (etrans; [|apply quiet_cleared; eassumption]); done).
  apply bind_Err in E as [(h5 & E5 & ->)%or_undo_Err|(u5 & h5 & _ & E)]; [|by apply bind_Err in E as [?|(? & ? & ? & ?)]].
  apply (Hend h3); [done|]. apply writeState_fc_Err in E5 as [E5| ->].
  - left. etrans; [exact E5|apply cleanup_quiet].
  - right. exists h3. apply cleanup_quiet.
Qed.

(** *** Stopping *)
Lemma stop_via_sdk_quiet meta n pid h : ∃ b h', stop_via_sdk meta n pid h = (Ok b, h') ∧ quiet h h'.
Proof.
  unfold stop_via_sdk. destruct (runningVMM_of meta n h) as [vm|]; [|by exists false, h].
  destruct (rv_pid vm =? pid)%Z; [|by exists false, h]. unfold mbind, SE_bind. rewrite attempt_eq.
  pose proof (call_quiet (sdk_StopVMM (rv_machine vm)) h) as Hq. destruct (fc_call _ h) as [r h']. by exists (is_ok r), h'.
Qed.

(** A stop that succeeds saw the process of the state gone, or killed it, and removed what was
    recorded of it. *)
Lemma fc_stop_ok meta n h st h' :
  (∀ h p e, removeFile h p = Err e → Is_NotExist e = false) →
  fh_states h !! path meta n = Some (Ok st) → readFile h (path meta n) = Ok tt → Stop meta n h = (Ok tt, h') →
  fh_states h' = delete (path meta n) (fh_states h) ∧
  fh_running h' = untrack (runningKey meta n) (fs_PID st) (fh_running h) ∧ fh_waiters h' = fh_waiters h ∧
  ∃ o, gone (fs_PID st) o ∧ fh_outside h' = if (fs_APISocket st =? "")%string then o else os_RemoveSocket (fs_APISocket st) o.
Proof.
  intros Hh Es Er. unfold firecracker_Stop. intros (r & h1 & E1%attempt_Ok & E)%bind_Ok.
  assert (r = Ok st ∧ h1 = h) as [-> ->].
  { unfold fc_readState, read_state in E1. rewrite Es, Er in E1. by injection E1 as <- <-. }
  apply bind_Ok in E as (u2 & h2 & [= _ <-] & (b & h3 & E3 & (u4 & h4 & E4 & (u5 & h5 & [= _ <-] & (u6 & h6 & E6 & E7
    )%bind_Ok)%bind_Ok)%bind_Ok)%bind_Ok).
  destruct (stop_via_sdk_quiet meta n (fs_PID st) h) as (b' & h3' & E3' & S3 & R3 & W3). rewrite E3 in E3'. injection E3' as -> ->.
  destruct (end_process_spec (fs_PID st) b' h3') as (h4' & E4' & (S4 & R4 & W4) & G4). rewrite E4 in E4'. injection E4' as _ ->.
  apply remove_state_Ok in E7 as [S7 O7]; [|done|eauto].
  assert (h6 = mkFcHost (if (fs_APISocket st =? "")%string then fh_outside h4' else os_RemoveSocket (fs_APISocket st) (fh_outside h4'))
    (fh_states h4') (untrack (runningKey meta n) (fs_PID st) (fh_running h4')) (fh_waiters h4')) as ->.
  { revert E6. unfold remove_named_socket. destruct (fs_APISocket st =? "")%string; cbn; by intros [= _ <-]. }
  rewrite S7. cbn. rewrite S4, S3. split; [done|].
  assert (fh_running h' = untrack (runningKey meta n) (fs_PID st) (fh_running h4') ∧ fh_waiters h' = fh_waiters h4' ∧
    fh_outside h' = if (fs_APISocket st =? "")%string then fh_outside h4' else os_RemoveSocket (fs_APISocket st) (fh_outside h4'))
    as (-> & -> & ->) by (by destruct O7 as [-> | ->]).
  rewrite R4, R3, W4, W3. split; [done|]. split; [done|]. by exists (fh_outside h4').
Qed.

Lemma untrack_insert key pid m (t : gmap string runningVMM) : untrack key pid (<[key := mkRunning pid m]> t) = delete key t.
Proof. unfold untrack. rewrite lookup_insert_eq. cbn. by rewrite Z.eqb_refl, delete_insert_eq. Qed.

(** *** The goroutines that wait *)

(** An entry of the table has the goroutine that will remove it. *)
Definition waited_for (h : FcHost) : Prop :=
  ∀ key vm, fh_running h !! key = Some vm →
    ∃ t, t ∈ fh_waiters h ∧ runningKey (wt_meta t) (wt_workload t) = key ∧ wt_pid t = rv_pid vm.

Lemma untrack_sub key pid (t : gmap string runningVMM) k vm : untrack key pid t !! k = Some vm →
  t !! k = Some vm ∧ (k = key → rv_pid vm ≠ pid).
Proof.
  unfold untrack. destruct (t !! key) as [vm'|] eqn:E.
  - destruct (Z.eqb_spec (rv_pid vm') pid).
    + intros [Hk Hl]%lookup_delete_Some. split; [done|]. by intros ->.
    + intros Hl. split; [done|]. intros ->. congruence.
  - intros Hl. split; [done|]. intros ->. congruence.
Qed.

Lemma fewer_tracked h h' : waited_for h → fh_waiters h' = fh_waiters h →
  (∀ k vm, fh_running h' !! k = Some vm → fh_running h !! k = Some vm) → waited_for h'.
Proof. intros Hw Ew Hr key vm E. rewrite Ew. apply Hw, Hr, E. Qed.

Lemma deploy_waited meta w h : waited_for h → waited_for (Deploy meta w h).2.
Proof.
  intros Hw. destruct (Deploy meta w h) as [[[]|e] h'] eqn:E; cbn.
  - apply fc_deploy_ok in E as (c & m & o0 & o1 & pid & st & _ & _ & _ & _ & _ & _ & _ & R & W). intros key vm. rewrite R, W.
    intros [[<- <-]|[Hk Hl]]%lookup_insert_Some.
    + eexists. split; [apply elem_of_app; right; by left|]. done.
    + destruct (Hw _ _ Hl) as (t & Ht & ?). exists t. split; [apply elem_of_app; by left|done].
  - apply fc_deploy_err in E as (R & W & _). apply (fewer_tracked h); [done..|]. by rewrite R.
Qed.

(** What a stop does to the table, whatever it returns. *)
Definition fewer (h h' : FcHost) : Prop :=
  fh_waiters h' = fh_waiters h ∧ ∀ k vm, fh_running h' !! k = Some vm → fh_running h !! k = Some vm.
#[local] Instance fewer_preorder : PreOrder fewer.
Proof. split; [done|]. intros h1 h2 h3 [A B] [C D]. split; [congruence|auto]. Qed.
Lemma quiet_fewer h h' : quiet h h' → fewer h h'.
Proof. intros (_ & R & W). split; [done|]. by rewrite R. Qed.
Lemma untrack_fewer meta n pid : keeps fewer (untrackRunningVMM meta n pid).
Proof. intros h. split; [done|]. cbn. intros k vm E%untrack_sub. apply E. Qed.
Lemma removeState_fewer meta n : keeps fewer (fc_removeState data root removeFile meta n).
Proof. intros h. destruct (removeState_cleared meta n h) as (_ & R & W). split; [done|]. by rewrite R. Qed.

Lemma stop_fewer meta n : keeps fewer (Stop meta n).
Proof.
  apply keeps_after_read. intros [st|e]; [|destruct (Is_NotExist e); by intros h].
  apply keeps_bind; [apply _|by intros h|intros _].
  apply keeps_bind; [apply _| |intros b].
  { intros h. apply quiet_fewer. destruct (stop_via_sdk_quiet meta n (fs_PID st) h) as (b & h' & E & Hq). by rewrite E. }
  apply keeps_bind; [apply _| |intros _].
  { intros h. apply quiet_fewer. destruct (end_process_spec (fs_PID st) b h) as (h' & E & Hq & _). by rewrite E. }
  apply keeps_bind; [apply _|apply untrack_fewer|intros _].
  apply keeps_bind; [apply _|intros h; apply quiet_fewer, named_socket_quiet|intros _]. apply removeState_fewer.
Qed.

(** What a goroutine leaves: the table without the entry of its process. *)
Lemma waitVMM_run t h : let h' := (waitVMM data root readFile removeFile t h).2 in
  fh_waiters h' = fh_waiters h ∧
  fh_running h' = untrack (runningKey (wt_meta t) (wt_workload t)) (wt_pid t) (fh_running h) ∧
  (fh_states h' = fh_states h ∨
   fh_states h' = delete (path (wt_meta t) (wt_workload t)) (fh_states h) ∧
     ∃ st, fh_states h !! path (wt_meta t) (wt_workload t) = Some (Ok st) ∧ fs_PID st = wt_pid t) ∧
  fh_outside h' = os_RemoveSocket (wt_apiSocket t) (sdk_Wait (wt_machine t) (fh_outside h)).
Proof.
  cbn zeta. unfold waitVMM, mbind, SE_bind. cbn. rewrite attempt_eq. cbn.
  set (h1 := mkFcHost _ _ _ _). unfold fc_removeStateIfPID, mbind, SE_bind. rewrite attempt_eq. rewrite readState_same.
  unfold fc_readState, read_state. cbn. destruct (fh_states h !! _) as [[st|e]|] eqn:Es; cbn; [|destruct (readFile _ _); cbn; auto|auto].
  destruct (readFile _ _); cbn; [|auto]. destruct (Z.eqb_spec (fs_PID st) (wt_pid t)); cbn; [|auto].
  unfold fc_removeState, remove_state. cbn. rewrite Es. destruct (removeFile _ _); cbn; [|destruct (Is_NotExist _); cbn; auto].
  split_and!; try done. right. eauto.
Qed.

Lemma end_waited i h : waited_for h → waited_for (run_op data root ctxErr mkdirAll openFile writeFile readFile removeFile residue now (OpEnd i) h).
Proof.
  intros Hw. cbn. destruct (fh_waiters h !! i) as [t|] eqn:E; [|done]. intros key vm.
  destruct (waitVMM_run t (with_waiters (λ l, take i l ++ drop (S i) l) h)) as (W & R & _). rewrite R, W. cbn.
  intros [Hl Hne]%untrack_sub. destruct (Hw _ _ Hl) as (t' & Ht & Hk & Hp). exists t'. split; [|done].
  rewrite <-(take_drop_middle _ _ _ E) in Ht. apply elem_of_app in Ht as [Ht|[->|Ht]%elem_of_cons].
  - apply elem_of_app. by left.
  - exfalso. by apply Hne.
  - apply elem_of_app. by right.
Qed.

Lemma ops_waited ops h : waited_for h →
  waited_for (run_ops data root ctxErr mkdirAll openFile writeFile readFile removeFile residue now ops h).
Proof.
  unfold run_ops. revert h. induction ops as [|[meta w|meta n|i] ops IH]; intros h Hw; cbn [foldl]; [done|apply IH..].
  - by apply deploy_waited.
  - cbn. destruct (stop_fewer meta n h) as [W R]. by apply (fewer_tracked h).
  - by apply end_waited.
Qed.
End firecracker_lemmas.
