(* ===== verification/WindowsService.v ===== *)
(** * The Windows service runtime (internal/runtime/windowsservice)

    A workload is a service of the service control manager: [Deploy] creates and starts it and
    keeps a state file and a DNS record; [Stop] stops and deletes it.  The service control manager
    (golang.org/x/sys/windows/svc/mgr) and the file system's failures are parameters; what the
    manager documents is in [ServiceManagerLaws].  The second half has the lemmas. *)
From stdpp Require Import base strings numbers gmap list.
From Stdlib Require Import Ascii.
From S2P Require Import Prelude GoStrings GoTime GoNet GoList Deploy Meta Placement Fsm RaftService GoText TaskBase Dns Runtime Effects Systemd.

(** ** provider.go *)
Record winState := mkWinState {
  ws_ServiceName : string; ws_Metadata : Metadata; ws_Workload : string; ws_Runtime : string; ws_Artifact : string;
  ws_StartedAt : Z }.

Definition normalizeServiceName (raw : string) : string :=
  let name := TrimSpace raw in
  if (name =? "")%string then ""
  else
    let name := ReplaceByte name backslash ["-"%char] in
    let name := ReplaceByte name "/" ["-"%char] in
    String.concat "-" (Fields name).

Definition defaultServiceName (meta : Metadata) (workloadName : string) : string :=
  normalizeServiceName ("orch-" +:+ SanitizeName (NamespaceOrDefault (md_Namespace meta)) +:+ "-" +:+
    SanitizeName (md_Name meta) +:+ "-" +:+ SanitizeName workloadName).

Definition workloadServiceName (meta : Metadata) (w : Workload) : string :=
  let name := match opt_WindowsService (run_Options (w_Run w)) with
              | Some o => normalizeServiceName (win_ServiceName o) | None => "" end in
  if negb (name =? "")%string then name else defaultServiceName meta (w_Name w).

Definition workloadDisplayName (meta : Metadata) (w : Workload) : string :=
  let name := match opt_WindowsService (run_Options (w_Run w)) with
              | Some o => TrimSpace (win_DisplayName o) | None => "" end in
  if negb (name =? "")%string then name
  else "orch " +:+ NamespaceOrDefault (md_Namespace meta) +:+ "/" +:+ md_Name meta +:+ "/" +:+ w_Name w.

(** ** The service control manager *)

(** [mgr.StartManual] and the like, [mgr.ErrorNormal], [svc.Stopped]. *)
Definition StartAutomatic : Z := 2.
Definition StartManual : Z := 3.
Definition StartDisabled : Z := 4.
Definition ErrorNormal : Z := 1.
Definition svc_Stopped : Z := 1.

(** What a service is created with ([mgr.Config] and the command). *)
Record ServiceConfig := mkService {
  sc_Exe : string; sc_Args : list string; sc_DisplayName : string; sc_StartType : Z; sc_ErrorControl : Z;
  sc_Description : string }.

Class ServiceManager := {
  scm : Type;
  service : Type;  (** an open handle *)
  sc_Connect : scm → res unit * scm;
  sc_Disconnect : scm → scm;
  sc_OpenService : string → scm → res service * scm;
  sc_CreateService : string → ServiceConfig → scm → res service * scm;
  sc_Close : service → scm → scm;
  sc_Start : service → scm → res unit * scm;
  sc_ControlStop : service → scm → res unit * scm;
  sc_Query : service → scm → res Z * scm;
  sc_Delete : service → scm → res unit * scm;
  (** the services of the database that are not marked for deletion, and the service of a handle *)
  registered : scm → gmap string ServiceConfig;
  service_name : service → string }.

(** Documented: only creating and deleting change the database, each its own service, when they
    succeed; a name is created once; a disabled service does not start. *)
Class ServiceManagerLaws `{ServiceManager} := {
  connect_registered s : registered (sc_Connect s).2 = registered s;
  disconnect_registered s : registered (sc_Disconnect s) = registered s;
  open_registered n s : registered (sc_OpenService n s).2 = registered s;
  open_name n s v s' : sc_OpenService n s = (Ok v, s') → service_name v = n;
  close_registered v s : registered (sc_Close v s) = registered s;
  start_registered v s : registered (sc_Start v s).2 = registered s;
  stop_registered v s : registered (sc_ControlStop v s).2 = registered s;
  query_registered v s : registered (sc_Query v s).2 = registered s;
  create_ok n c s v s' : sc_CreateService n c s = (Ok v, s') →
    service_name v = n ∧ registered s !! n = None ∧ registered s' = <[n := c]> (registered s);
  create_err n c s e s' : sc_CreateService n c s = (Err e, s') → registered s' = registered s;
  delete_ok v s s' : sc_Delete v s = (Ok tt, s') → registered s' = delete (service_name v) (registered s);
  delete_err v s e s' : sc_Delete v s = (Err e, s') → registered s' = registered s;
  disabled_stays v s c : registered s !! service_name v = Some c → sc_StartType c = StartDisabled →
    is_ok (sc_Start v s).1 = false }.

(** ** The host *)

(** Opening a file of a directory that does not exist is another error than opening a file that
    does not; [errors.Is] with [os.ErrNotExist] holds for both. *)
Definition ERROR_FILE_NOT_FOUND : error := Errorf "The system cannot find the file specified." [].
Definition ERROR_PATH_NOT_FOUND : error := Errorf "The system cannot find the path specified." [].
Fixpoint errno_is (code e : error) : bool :=
  match e with Errorf _ _ => bool_decide (e = code) | Wrapf cause _ _ => errno_is code cause end.
Definition win_NotExist (e : error) : bool := errno_is ERROR_FILE_NOT_FOUND e || errno_is ERROR_PATH_NOT_FOUND e.

Record WinHost `{ServiceManager} := mkWinHost {
  wh_scm : scm; wh_dirs : gset string; wh_states : gmap string (res winState); wh_dns : DnsService }.
Arguments mkWinHost {_}.

Definition win_put `{ServiceManager} (m : gmap string (res winState)) (h : WinHost) : WinHost :=
  mkWinHost (wh_scm h) (wh_dirs h) m (wh_dns h).

Record deployServiceSpec := mkSpec {
  sp_exe : string; sp_args : list string; sp_name : string; sp_displayName : string; sp_startType : Z }.

Section windows.
Context `{UnicodeLower, DnsLib, ServiceManager, Polling}.
Variables (cfg : DNSConfig) (save delete_record : DnsRecord → res unit).
Variable has_dns : bool.  (** [p.dns != nil] *)
(** [config.DefaultDataRoot()] and [Provider.root]. *)
Variables (DefaultDataRoot root : string).
(** The context, and what the file system answers. *)
Variable ctxErr : WinHost → res unit.
Variables (mkdirAll writeFile readFile removeFile : WinHost → string → res unit).
Variable residue : WinHost → string → option (res winState).
Variable now : WinHost → Z.

Definition win_rootOrDefault : string :=
  if negb (TrimSpace root =? "")%string then path_Clean root
  else filepath_Join [DefaultDataRoot; "runtime"; "windows-service"].
Definition win_nameBase (meta : Metadata) (workloadName : string) : string :=
  SanitizeName (NamespaceOrDefault (md_Namespace meta)) +:+ "-" +:+ SanitizeName (md_Name meta) +:+ "-" +:+
  SanitizeName workloadName.
Definition stateDir : string := filepath_Join [win_rootOrDefault; "state"].
Definition win_statePath (meta : Metadata) (workloadName : string) : string :=
  filepath_Join [win_rootOrDefault; "state"; win_nameBase meta workloadName +:+ ".json"].

(** Calls. *)
Definition win_call {A} (f : scm → res A * scm) : SE WinHost A := λ h,
  let '(r, s) := f (wh_scm h) in (r, mkWinHost s (wh_dirs h) (wh_states h) (wh_dns h)).
Definition win_do (f : scm → scm) (h : WinHost) : WinHost :=
  mkWinHost (f (wh_scm h)) (wh_dirs h) (wh_states h) (wh_dns h).
Definition win_dns (f : DnsService → res unit * DnsService) : SE WinHost unit := λ h,
  let '(r, d) := f (wh_dns h) in (r, mkWinHost (wh_scm h) (wh_dirs h) (wh_states h) d).
Definition missing_file (h : WinHost) (_ : string) : error :=
  if bool_decide (stateDir ∈ wh_dirs h) then ERROR_FILE_NOT_FOUND else ERROR_PATH_NOT_FOUND.

Definition win_readState (meta : Metadata) (workloadName : string) : SE WinHost winState :=
  read_state wh_states readFile missing_file "windows service state" (win_statePath meta workloadName).
Definition create_state_dir : SE WinHost unit := λ h,
  match mkdirAll h stateDir with
  | Ok _ => (Ok tt, mkWinHost (wh_scm h) ({[stateDir]} ∪ wh_dirs h) (wh_states h) (wh_dns h))
  | Err e => (Err (Wrapf e "create state dir" []), h)
  end.
Definition win_writeState (meta : Metadata) (workloadName : string) (st : winState) : SE WinHost unit :=
  _ ← create_state_dir;
  write_state wh_states win_put writeFile residue "windows service state" (win_statePath meta workloadName) st.
Definition win_removeState (meta : Metadata) (workloadName : string) : SE WinHost unit :=
  remove_state wh_states win_put removeFile "windows service state" win_NotExist (win_statePath meta workloadName).

(** ** provider_windows.go *)
Definition serviceStartType (w : Workload) : res Z :=
  let v := match opt_WindowsService (run_Options (w_Run w)) with
           | Some o => TrimSpace (ToLower (win_StartType o)) | None => "" end in
  let startType := if negb (v =? "")%string then v else "manual" in
  if (startType =? "manual")%string || (startType =? "demand")%string then Ok StartManual
  else if (startType =? "automatic")%string || (startType =? "auto")%string then Ok StartAutomatic
  else if (startType =? "disabled")%string then Ok StartDisabled
  else Err (Errorf "invalid windowsService.startType %q" [AStr startType]).

Definition deployServiceSpec_of (meta : Metadata) (w : Workload) : res deployServiceSpec :=
  match ProcessCommand (w_Run w) with
  | None => Err (Errorf "workload %q: run.exec.command or run.artifact.path is required" [AStr (w_Name w)])
  | Some (exe, args) =>
      startType ← serviceStartType w;
      Ok (mkSpec exe args (workloadServiceName meta w) (workloadDisplayName meta w) startType)
  end.

Definition service_config (spec : deployServiceSpec) : ServiceConfig :=
  mkService (sp_exe spec) (sp_args spec) (sp_displayName spec) (sp_startType spec) ErrorNormal "orch managed workload".

Definition ensureServiceAbsent (serviceName : string) : SE WinHost unit :=
  r ← attempt (win_call (sc_OpenService serviceName));
  match r with
  | Ok existing => deferring (win_do (sc_Close existing)) (raise (Errorf "windows service %q already exists" [AStr serviceName]))
  | Err _ => mret tt
  end.

Definition createService (spec : deployServiceSpec) : SE WinHost service :=
  annotate "create service %s" [AStr (sp_name spec)] (win_call (sc_CreateService (sp_name spec) (service_config spec))).

(** An error is only logged. *)
Definition deleteService (v : service) : SE WinHost unit := _ ← attempt (win_call (sc_Delete v)); mret tt.

Definition upsertWorkloadDNS (meta : Metadata) (workloadName : string) : SE WinHost unit :=
  if has_dns then
    annotate "upsert workload DNS" []
      (win_dns (UpsertWorkloadA cfg save delete_record (md_Namespace meta) workloadName (WorkloadAdvertiseAddress cfg "127.0.0.1")))
  else mret tt.
Definition win_removeWorkloadDNS (meta : Metadata) (workloadName : string) : SE WinHost unit :=
  if has_dns then
    annotate "remove workload DNS" [] (win_dns (RemoveWorkloadA cfg delete_record (md_Namespace meta) workloadName))
  else mret tt.
Definition win_cleanupRemoveDNS (meta : Metadata) (workloadName : string) : SE WinHost unit :=
  _ ← attempt (win_dns (RemoveWorkloadA cfg delete_record (md_Namespace meta) workloadName)); mret tt.
Definition cleanupRemoveState (meta : Metadata) (workloadName : string) : SE WinHost unit :=
  _ ← attempt (win_removeState meta workloadName); mret tt.

Definition startService (meta : Metadata) (w : Workload) (v : service) (spec : deployServiceSpec) : SE WinHost unit :=
  _ ← or_undo (annotate "start service %s" [AStr (sp_name spec)] (win_call (sc_Start v))) (deleteService v);
  startedAt ← (λ h, (Ok (now h), h));
  _ ← or_undo (win_writeState meta (w_Name w)
                 (mkWinState (sp_name spec) meta (w_Name w) (w_Runtime w) (ArtifactSummary (w_Run w)) startedAt))
        (deleteService v);
  or_undo (upsertWorkloadDNS meta (w_Name w)) (_ ← deleteService v; cleanupRemoveState meta (w_Name w)).

Definition windows_Deploy (meta : Metadata) (w : Workload) : SE WinHost unit :=
  _ ← annotate "deploy context" [] (λ h, (ctxErr h, h));
  _ ← annotate "validate workload mounts" [] (of_res (RejectUnsupportedMounts RuntimeWindowsService w));
  spec ← of_res (deployServiceSpec_of meta w);
  _ ← annotate "connect service manager" [] (win_call sc_Connect);
  deferring (win_do sc_Disconnect)
    (_ ← ensureServiceAbsent (sp_name spec);
     v ← createService spec;
     deferring (win_do (sc_Close v)) (startService meta w v spec)).

Definition windowsStateNotFound (e : error) : bool := errno_is ERROR_FILE_NOT_FOUND e.

Definition stopServiceName (meta : Metadata) (workloadName : string) : SE WinHost string :=
  st ← attempt (win_readState meta workloadName);
  match st with
  | Ok st =>
      if negb (TrimSpace (ws_ServiceName st) =? "")%string then mret (ws_ServiceName st)
      else mret (defaultServiceName meta workloadName)
  | Err e => if negb (windowsStateNotFound e) then raise e else mret (defaultServiceName meta workloadName)
  end.

Definition cleanupMissingService (meta : Metadata) (workloadName : string) : SE WinHost unit :=
  _ ← (if has_dns then win_cleanupRemoveDNS meta workloadName else mret tt);
  win_removeState meta workloadName.

Definition serviceRunning (v : service) : SE WinHost bool :=
  status ← attempt (win_call (sc_Query v));
  mret (match status with Ok state => negb (state =? svc_Stopped)%Z | Err _ => false end).

Definition errServiceStillRunning : error := Errorf "windows service still running" [].
(** One attempt of the polling loop. *)
Definition query_stopped (v : service) (h : WinHost) : outcome unit * WinHost :=
  let '(status, h') := win_call (sc_Query v) h in
  (match status with
   | Err e => Permanent e
   | Ok state => if (state =? svc_Stopped)%Z then Done tt else Again errServiceStillRunning
   end, h').
Definition waitServiceStopped (v : service) (timeout : Z) : SE WinHost unit := λ h,
  (Ok tt, (Retry_for timeout (query_stopped v) h).2).

Definition stopOpenedService (v : service) (serviceName : string) : SE WinHost unit :=
  running ← serviceRunning v;
  _ ← (if running : bool then _ ← attempt (win_call (sc_ControlStop v)); waitServiceStopped v 10000000000 else mret tt);
  annotate "delete service %s" [AStr serviceName] (win_call (sc_Delete v)).

Definition windows_Stop (meta : Metadata) (workloadName : string) : SE WinHost unit :=
  _ ← annotate "stop context" [] (λ h, (ctxErr h, h));
  serviceName ← stopServiceName meta workloadName;
  _ ← annotate "connect service manager" [] (win_call sc_Connect);
  deferring (win_do sc_Disconnect)
    (r ← attempt (win_call (sc_OpenService serviceName));
     match r with
     | Err _ => cleanupMissingService meta workloadName
     | Ok v =>
         deferring (win_do (sc_Close v))
           (_ ← stopOpenedService v serviceName;
            _ ← win_removeWorkloadDNS meta workloadName;
            win_removeState meta workloadName)
     end).
End windows.

(** ** What deploying and stopping leave *)
Section windows_lemmas.
Context `{UnicodeLower, DnsLib, ServiceManagerLaws, PollingLaws}.
Context (cfg : DNSConfig) (save delete_record : DnsRecord → res unit) (has_dns : bool) (data root : string).
Context (ctxErr : WinHost → res unit) (mkdirAll writeFile readFile removeFile : WinHost → string → res unit).
Context (residue : WinHost → string → option (res winState)) (now : WinHost → Z).

Abbreviation Deploy := (windows_Deploy cfg save delete_record has_dns data root ctxErr mkdirAll writeFile removeFile residue now).
Abbreviation Start := (startService cfg save delete_record has_dns data root mkdirAll writeFile removeFile residue now).
Abbreviation Stop := (windows_Stop cfg delete_record has_dns data root ctxErr readFile removeFile).
Abbreviation path := (win_statePath data root).

(** Neither a service nor a state file changes. *)
Definition calm (h h' : WinHost) : Prop :=
  registered (wh_scm h') = registered (wh_scm h) ∧ wh_states h' = wh_states h.
#[local] Instance calm_preorder : PreOrder calm.
Proof. split; [done|]. intros h1 h2 h3 [A B] [C D]. split; congruence. Qed.

Lemma call_calm {A} (f : scm → res A * scm) : (∀ s, registered (f s).2 = registered s) → keeps calm (win_call f).
Proof. intros Hf h. specialize (Hf (wh_scm h)). unfold win_call. by destruct (f (wh_scm h)). Qed.
Lemma do_calm f h : (∀ s, registered (f s) = registered s) → calm h (win_do f h).
Proof. intros Hf. split; [apply Hf|done]. Qed.
Lemma dns_calm f : keeps calm (win_dns f).
Proof. intros h. unfold win_dns. by destruct (f (wh_dns h)). Qed.
Lemma answer_calm (f : WinHost → res unit) : keeps calm (λ h, (f h, h)).
Proof. by intros h. Qed.
Lemma upsert_calm meta n : keeps calm (upsertWorkloadDNS cfg save delete_record has_dns meta n).
Proof. unfold upsertWorkloadDNS. destruct has_dns; [apply keeps_annotate, dns_calm|by intros h]. Qed.
Lemma remove_dns_calm meta n : keeps calm (win_removeWorkloadDNS cfg delete_record has_dns meta n).
Proof. unfold win_removeWorkloadDNS. destruct has_dns; [apply keeps_annotate, dns_calm|by intros h]. Qed.

Lemma call_run {A} (f : scm → res A * scm) h r h' : win_call f h = (r, h') →
  ∃ s', f (wh_scm h) = (r, s') ∧ h' = mkWinHost s' (wh_dirs h) (wh_states h) (wh_dns h).
Proof. unfold win_call. destruct (f (wh_scm h)) as [r' s']. intros [= <- <-]. eauto. Qed.

(** Waiting for a service to stop asks and changes nothing. *)
Lemma wait_calm v timeout : keeps calm (waitServiceStopped v timeout).
Proof.
  intros h. destruct (retry_for_tries timeout (query_stopped v) h) as (k & _ & E & _). cbn. rewrite E.
  assert (∀ h, calm h (query_stopped v h).2) as Hq.
  { intros h0. pose proof (call_calm (sc_Query v) (query_registered v) h0) as Hc. unfold query_stopped.
    by destruct (win_call (sc_Query v) h0). }
  destruct (tries_last calm k (query_stopped v) h) as (h0 & Hs & ->); [|etrans; [exact Hs|apply Hq]].
  intros h1 e h2 E2. pose proof (Hq h1) as Hc. by rewrite E2 in Hc.
Qed.

Lemma removeState_files meta n h : (win_removeState data root removeFile meta n h).2 = h ∨
  (win_removeState data root removeFile meta n h).2 = win_put (delete (path meta n) (wh_states h)) h.
Proof. apply remove_state_other. Qed.

(** *** Starting *)
Lemma writeState_Ok meta n st h h' : win_writeState data root mkdirAll writeFile residue meta n st h = (Ok tt, h') →
  registered (wh_scm h') = registered (wh_scm h) ∧ wh_states h' = <[path meta n := Ok st]> (wh_states h).
Proof.
  intros (u & h1 & E1 & E2%write_state_Ok)%bind_Ok. unfold create_state_dir in E1.
  destruct (mkdirAll h _); [|done]. injection E1 as _ <-. by subst.
Qed.
Lemma writeState_Err meta n st h e h' : win_writeState data root mkdirAll writeFile residue meta n st h = (Err e, h') →
  registered (wh_scm h') = registered (wh_scm h) ∧
  ∃ o, wh_states h' = partial_alter (λ _, o) (path meta n) (wh_states h) ∧
    (o = wh_states h !! path meta n ∨ ∃ h1, o = residue h1 (path meta n)).
Proof.
  intros [E|(u & h1 & E1 & E2%write_state_Err)]%bind_Err; unfold create_state_dir in *; destruct (mkdirAll h _); try done.
  - injection E as _ <-. split; [done|]. exists (wh_states h !! path meta n). by rewrite partial_alter_self; auto.
  - injection E1 as _ <-. subst. split; [done|]. eexists. split; [reflexivity|]. eauto.
Qed.

Lemma start_ok meta w v spec h h' : Start meta w v spec h = (Ok tt, h') →
  registered (wh_scm h') = registered (wh_scm h) ∧ is_ok (sc_Start v (wh_scm h)).1 ∧
  ∃ st, wh_states h' = <[path meta (w_Name w) := Ok st]> (wh_states h) ∧ ws_ServiceName st = sp_name spec.
Proof.
  intros (u1 & h1 & E1%or_undo_Ok%annotate_Ok & (t & h2 & [= _ <-] & (u3 & h3 & E3%or_undo_Ok & E4%or_undo_Ok)%bind_Ok
    )%bind_Ok)%bind_Ok. destruct u3.
  apply (keeps_run calm) in E4 as [R4 S4]; [|apply upsert_calm]. apply writeState_Ok in E3 as [R3 S3].
  apply call_run in E1 as (s' & E1 & ->). pose proof (start_registered v (wh_scm h)) as R1. rewrite E1 in R1 |- *. cbn in *.
  split; [congruence|]. split; [done|]. eexists. rewrite S4, S3. split; [reflexivity|done].
Qed.

(** The service was deleted, or deleting it was refused and it stays. *)
Definition deleted (v : service) (services : gmap string ServiceConfig) (h' : WinHost) : Prop :=
  registered (wh_scm h') = delete (service_name v) services ∨
  registered (wh_scm h') = services ∧ ∃ s e s', registered s = services ∧ sc_Delete v s = (Err e, s').

(** What is left of a state file: as it was, nothing, the rest of a write that failed, or the new one,
    which names the service, because removing it was refused. *)
Definition left_over (name p : string) (h h' : WinHost) : Prop :=
  ∃ o, wh_states h' = partial_alter (λ _, o) p (wh_states h) ∧
    (o = wh_states h !! p ∨ o = None ∨ (∃ h1, o = residue h1 p) ∨
     ∃ st h1 e, o = Some (Ok st) ∧ ws_ServiceName st = name ∧ wh_states h1 !! p = Some (Ok st) ∧ removeFile h1 p = Err e).
Lemma left_same name p h h' : wh_states h' = wh_states h → left_over name p h h'.
Proof. intros E. exists (wh_states h !! p). rewrite partial_alter_self. auto. Qed.

Lemma deleteService_run v h : ∃ h', deleteService v h = (Ok tt, h') ∧ wh_states h' = wh_states h ∧
  deleted v (registered (wh_scm h)) h'.
Proof.
  unfold deleteService, mbind, SE_bind. rewrite attempt_eq. unfold win_call.
  destruct (sc_Delete v (wh_scm h)) as [[[]|e] s'] eqn:E; (eexists; split; [done|split; [done|]]).
  - left. by apply delete_ok.
  - right. split; [by eapply delete_err|]. by exists (wh_scm h), e, s'.
Qed.

Lemma cleanupState_run name meta n st h :
  wh_states h !! path meta n = Some (Ok st) → ws_ServiceName st = name →
  let h' := (cleanupRemoveState data root removeFile meta n h).2 in
  registered (wh_scm h') = registered (wh_scm h) ∧
  (wh_states h' = delete (path meta n) (wh_states h) ∨
   wh_states h' = wh_states h ∧ ∃ e, removeFile h (path meta n) = Err e).
Proof.
  intros E Hn. unfold cleanupRemoveState, mbind, SE_bind, attempt, win_removeState, remove_state. rewrite E.
  destruct (removeFile h (path meta n)) as [[]|e]; [by cbn; auto|].
  destruct (win_NotExist e); cbn; (split; [done|right; split; [done|by eexists]]).
Qed.

Lemma start_err meta w v spec h e h' : Start meta w v spec h = (Err e, h') →
  deleted v (registered (wh_scm h)) h' ∧ left_over (sp_name spec) (path meta (w_Name w)) h h'.
Proof.
  intros [(h1 & E1 & ->)%or_undo_Err|(u1 & h1 & E1%or_undo_Ok & E)]%bind_Err;
    apply (keeps_run calm) in E1 as [R1 S1]; try apply keeps_annotate, call_calm, start_registered; rewrite <-R1.
  { destruct (deleteService_run v h1) as (h2 & -> & S2 & D). cbn. split; [done|]. apply left_same. by rewrite S2. }
  apply bind_Err in E as [?|(t & h2 & [= _ <-] & E)]; [done|].
  apply bind_Err in E as [(h3 & E3 & ->)%or_undo_Err|(u3 & h3 & E3%or_undo_Ok & (h4 & E4 & ->)%or_undo_Err)].
  - apply writeState_Err in E3 as (R3 & o & S3 & Ho). rewrite <-R3.
    destruct (deleteService_run v h3) as (h4 & -> & S4 & D). cbn. split; [done|]. exists o. rewrite S4, S3, S1 in *. naive_solver.
  - destruct u3. apply writeState_Ok in E3 as [R3 S3]. apply (keeps_run calm) in E4 as [R4 S4]; [|apply upsert_calm].
    rewrite <-R3, <-R4. destruct (deleteService_run v h4) as (h5 & E5 & S5 & D). unfold mbind, SE_bind. rewrite E5.
    set (st := mkWinState _ _ _ _ _ _) in S3.
    assert (wh_states h5 !! path meta (w_Name w) = Some (Ok st)) as El by (by rewrite S5, S4, S3, lookup_insert_eq).
    destruct (cleanupState_run (sp_name spec) meta (w_Name w) st h5 El eq_refl) as [R6 S6].
    split; [unfold deleted; by rewrite R6|]. destruct S6 as [S6|[S6 [e' He]]].
    + exists None. split; [|by auto]. rewrite S6, S5, S4, S3, S1. by rewrite delete_insert_eq.
    + exists (Some (Ok st)). split; [by rewrite S6, S5, S4, S3, S1|]. do 3 right. by exists st, h5, e'.
Qed.

(** *** Deploying *)
Lemma absent_calm n : keeps calm (ensureServiceAbsent n).
Proof.
  apply keeps_bind; [apply _|apply keeps_attempt, call_calm, open_registered|]. intros [v|e]; [|by intros h].
  apply keeps_deferring; [apply _|by intros h|]. intros h. apply do_calm, close_registered.
Qed.

(** The part of [Deploy] before a service is created, and what it asks for. *)
Lemma win_deploy_cases meta w h r h' : Deploy meta w h = (r, h') →
  (∃ e, r = Err e ∧ calm h h') ∨
  ∃ spec h1 v s h2, deployServiceSpec_of meta w = Ok spec ∧ calm h h1 ∧
    sc_CreateService (sp_name spec) (service_config spec) (wh_scm h1) = (Ok v, s) ∧
    Start meta w v spec (mkWinHost s (wh_dirs h1) (wh_states h1) (wh_dns h1)) = (r, h2) ∧ calm h2 h'.
Proof.
  intros E. destruct r as [[]|e].
  - apply bind_Ok in E as (u1 & h1 & E1%annotate_Ok & (u2 & h2 & E2%annotate_Ok & (spec & h3 & E3 & (u4 & h4 & E4%annotate_Ok &
      (h5 & E5 & ->)%deferring_run)%bind_Ok)%bind_Ok)%bind_Ok).
    injection E1 as _ <-. injection E2 as _ <-. injection E3 as Hs <-.
    apply (keeps_run calm) in E4; [|apply call_calm, connect_registered].
    apply bind_Ok in E5 as (u6 & h6 & E6 & (v & h7 & E7%annotate_Ok & (h8 & E8 & ->)%deferring_run)%bind_Ok).
    apply (keeps_run calm) in E6; [|apply absent_calm]. apply call_run in E7 as (s & E7 & ->).
    right. exists spec, h6, v, s, h8. split_and!; try done; [by etrans|].
    etrans; [apply do_calm, close_registered|apply do_calm, disconnect_registered].
  - apply bind_Err in E as [E|(u1 & h1 & E1%annotate_Ok & E)].
    { apply (keeps_run calm) in E; [eauto|apply keeps_annotate, answer_calm]. }
    injection E1 as _ <-. apply bind_Err in E as [E|(u2 & h2 & E2%annotate_Ok & E)].
    { apply (keeps_run calm) in E; [eauto|apply keeps_annotate, keeps_of_res, _]. }
    injection E2 as _ <-. apply bind_Err in E as [[= _ ->]|(spec & h3 & [= Hs <-] & E)]; [left; exists e; split; [done|reflexivity]|].
    apply bind_Err in E as [E|(u4 & h4 & E4%annotate_Ok & (h5 & E5 & ->)%deferring_run)].
    { apply (keeps_run calm) in E; [eauto|apply keeps_annotate, call_calm, connect_registered]. }
    apply (keeps_run calm) in E4; [|apply call_calm, connect_registered].
    assert (calm h5 (win_do sc_Disconnect h5)) as Hd by apply do_calm, disconnect_registered.
    apply bind_Err in E5 as [E5|(u6 & h6 & E6 & E5)].
    { apply (keeps_run calm) in E5; [|apply absent_calm]. left. exists e. split; [done|]. by etrans; [|etrans]. }
    apply (keeps_run calm) in E6; [|apply absent_calm]. assert (calm h h6) as H6 by by etrans.
    apply bind_Err in E5 as [E5|(v & h7 & E7%annotate_Ok & (h8 & E8 & ->)%deferring_run)].
    { left. exists e. split; [done|]. etrans; [exact H6|]. etrans; [|exact Hd].
      unfold createService, annotate in E5. destruct (win_call _ h6) as [[?|e0] h7] eqn:Ec; [done|]. injection E5 as _ <-.
      apply call_run in Ec as (s & Ec & ->). split; [|done]. cbn. by eapply create_err. }
    apply call_run in E7 as (s & E7 & ->). right. exists spec, h6, v, s, h8. split_and!; try done.
    etrans; [apply do_calm, close_registered|exact Hd].
Qed.

(** A deploy that succeeds registered a service of the workload's name, which was free, and wrote a
    state file that names it. *)
Definition win_deployed (meta : Metadata) (w : Workload) (h h' : WinHost) : Prop :=
  let name := workloadServiceName meta w in
  ∃ spec st, deployServiceSpec_of meta w = Ok spec ∧ registered (wh_scm h) !! name = None ∧
    registered (wh_scm h') = <[name := service_config spec]> (registered (wh_scm h)) ∧
    wh_states h' = <[path meta (w_Name w) := Ok st]> (wh_states h) ∧ ws_ServiceName st = name.

Lemma spec_name meta w spec : deployServiceSpec_of meta w = Ok spec → sp_name spec = workloadServiceName meta w.
Proof.
  unfold deployServiceSpec_of. destruct (ProcessCommand (w_Run w)) as [[exe args]|]; [|done].
  by intros (t & _ & [= <-])%res_bind_ok.
Qed.

Lemma deploy_success meta w h h' : Deploy meta w h = (Ok tt, h') → win_deployed meta w h h'.
Proof.
  intros [(e & [=] & _)|(spec & h1 & v & s & h2 & Hs & [R1 S1] & E & Es & [R2 S2])]%win_deploy_cases.
  apply create_ok in E as (Hv & Hn & Hr). apply start_ok in Es as (R3 & _ & st & S3 & Hst). cbn in *.
  rewrite (spec_name _ _ _ Hs) in *. exists spec, st. rewrite R2, R3, Hr, R1, S2, S3, S1 in *. done.
Qed.

(** What a deploy that fails leaves of the services: what was there, or the new service because
    deleting it was refused. *)
Definition win_undone (meta : Metadata) (w : Workload) (h h' : WinHost) : Prop :=
  registered (wh_scm h') = registered (wh_scm h) ∨
  ∃ spec v s e s', deployServiceSpec_of meta w = Ok spec ∧ service_name v = workloadServiceName meta w ∧
    registered (wh_scm h) !! workloadServiceName meta w = None ∧
    registered (wh_scm h') = <[workloadServiceName meta w := service_config spec]> (registered (wh_scm h)) ∧
    registered s = registered (wh_scm h') ∧ sc_Delete v s = (Err e, s').

Lemma deploy_failure meta w h e h' : Deploy meta w h = (Err e, h') →
  win_undone meta w h h' ∧ left_over (workloadServiceName meta w) (path meta (w_Name w)) h h'.
Proof.
  intros [(? & _ & [R S])|(spec & h1 & v & s & h2 & Hs & [R1 S1] & E & Es & [R2 S2])]%win_deploy_cases;
    [split; [by left|by apply left_same]|].
  apply create_ok in E as (Hv & Hn & Hc). apply start_err in Es as (D & o & S3 & Ho). cbn in *.
  rewrite (spec_name _ _ _ Hs) in *. split; [|exists o; by rewrite S2, S3, S1 in *].
  unfold win_undone. rewrite R2. destruct D as [D|[D (s0 & e0 & s0' & D0 & D1)]].
  - left. by rewrite D, Hc, Hv, <-R1, delete_insert_id.
  - right. rewrite R1 in *. exists spec, v, s0, e0, s0'. by rewrite D, Hc, D0.
Qed.

(** *** Stopping *)
Lemma removeState_Ok meta n h h' : (∀ h p e, removeFile h p = Err e → win_NotExist e = false) →
  win_removeState data root removeFile meta n h = (Ok tt, h') →
  registered (wh_scm h') = registered (wh_scm h) ∧ wh_states h' = delete (path meta n) (wh_states h).
Proof.
  intros Hh E. apply remove_state_Ok in E as [Hf Hs]; [|done|eauto]. split; [|done]. by destruct Hs as [->| ->].
Qed.

Lemma opened_stop v n h h' : stopOpenedService v n h = (Ok tt, h') →
  registered (wh_scm h') = delete (service_name v) (registered (wh_scm h)) ∧ wh_states h' = wh_states h.
Proof.
  intros (b & h1 & E1 & (u & h2 & E2 & E3%annotate_Ok)%bind_Ok)%bind_Ok.
  apply (keeps_run calm) in E1 as [R1 S1].
  2: { apply keeps_bind; [apply _|apply keeps_attempt, call_calm, query_registered|]. intros a h0. reflexivity. }
  apply (keeps_run calm) in E2 as [R2 S2].
  2: { destruct b; [|apply keeps_ret, _]. apply keeps_bind; [apply _|apply keeps_attempt, call_calm, stop_registered|].
       intros _. apply wait_calm. }
  apply call_run in E3 as (s & E3 & ->). cbn. apply delete_ok in E3. by rewrite E3, R2, R1, S2, S1.
Qed.

(** The service a stop is about. *)
Lemma stop_name meta n h st : wh_states h !! path meta n = Some (Ok st) → readFile h (path meta n) = Ok tt →
  TrimSpace (ws_ServiceName st) ≠ "" → stopServiceName data root readFile meta n h = (Ok (ws_ServiceName st), h).
Proof.
  intros Es Er Hn. unfold stopServiceName, mbind, SE_bind. rewrite attempt_eq. unfold win_readState, read_state.
  rewrite Es, Er. cbn. destruct (String.eqb_spec (TrimSpace (ws_ServiceName st)) ""); [done|]. reflexivity.
Qed.

Lemma stop_success meta n h h' service_name0 h0 :
  (∀ h p e, removeFile h p = Err e → win_NotExist e = false) →
  (∀ n s, is_Some (registered s !! n) → is_ok (sc_OpenService n s).1 = true) →
  stopServiceName data root readFile meta n h = (Ok service_name0, h0) → h0 = h →
  is_Some (registered (wh_scm h) !! service_name0) → Stop meta n h = (Ok tt, h') →
  registered (wh_scm h') = delete service_name0 (registered (wh_scm h)) ∧
  wh_states h' = delete (path meta n) (wh_states h).
Proof.
  intros Hh Ho En -> Hreg (u1 & h1 & E1%annotate_Ok & (name & h2 & E2 & (u3 & h3 & E3%annotate_Ok & (h4 & E4 & ->)%deferring_run
    )%bind_Ok)%bind_Ok)%bind_Ok.
  injection E1 as _ <-. rewrite En in E2. injection E2 as <- <-.
  apply (keeps_run calm) in E3 as [R3 S3]; [|apply call_calm, connect_registered].
  apply bind_Ok in E4 as (r & h5 & E5%attempt_Ok & E6).
  apply call_run in E5 as (s & E5 & ->). pose proof (open_registered service_name0 (wh_scm h3)) as R5.
  pose proof (Ho service_name0 (wh_scm h3)) as Hopen. rewrite E5, R3 in *. cbn in R5, Hopen. specialize (Hopen Hreg).
  destruct r as [v|]; [|done]. apply open_name in E5. apply deferring_run in E6 as (h6 & E6 & ->).
  apply bind_Ok in E6 as (u7 & h7 & E7 & (u8 & h8 & E8 & E9)%bind_Ok). destruct u7.
  apply opened_stop in E7 as [R7 S7]. apply (keeps_run calm) in E8 as [R8 S8]; [|apply remove_dns_calm].
  apply removeState_Ok in E9 as [R9 S9]; [|done]. cbn in *.
  rewrite disconnect_registered, close_registered, R9, R8, R7, R5, E5, S9, S8, S7. cbn. by rewrite S3.
Qed.
End windows_lemmas.
