(* ===== verification/Config.v ===== *)
(** * Configuration, node identity and the scheduler's jobs
    (internal/config: config.go, runtime.go, load.go, load_overlay.go, flags.go, datadir.go,
     reachable_parse.go; internal/nodeid; internal/scheduler)

    The settings of the server, the flags that can set them, and what a node derives from them.
    Merging files, environment and flags is configx's, parsing flags is pflag's: parameters. *)
From stdpp Require Import base strings numbers gmap list.
From Stdlib Require Import Ascii.
From S2P Require Import Prelude GoStrings GoTime GoNet GoList Deploy Meta GoText Placement Fsm RaftService Vpn TaskBase Dns Ingress Gossip Runtime Effects Systemd.

(** ** config.go, runtime.go *)
Record ObservabilityConfig := mkObservability {
  ob_PrometheusEnabled : bool; ob_PrometheusPath : string; ob_OTLPEnabled : bool; ob_OTLPProtocol : string;
  ob_OTLPEndpoint : string; ob_OTLPInsecure : bool; ob_OTLPServiceName : string }.
Record SchedulerConfig := mkScheduler {
  sch_HeartbeatInterval : string; sch_ResourceRefreshInterval : string; sch_RaftLeaderOnly : bool;
  sch_MaxConcurrentJobs : Z; sch_ConcurrentJobsMode : string }.
Record ClusterConfig := mkCluster { cl_Nodes : gmap string string; cl_WorkerToken : string }.
(** [GossipConfig]; the file Gossip adds to it what its service reads of other settings. *)
Record GossipSettings := mkGossipSettings {
  go_Enabled : bool; go_Bind : string; go_Advertise : string; go_Seeds : list string; go_SecretKey : string;
  go_APIURL : string; go_AutoJoinRaft : bool; go_ReconcileInterval : string }.
Record AuthConfig := mkAuth { au_Enabled : bool; au_JWTSecret : string }.
Record RaftSettings := mkRaftSettings {
  ra_NodeID : string; ra_Bind : string; ra_Advertise : string; ra_Peers : gmap string string; ra_Bootstrap : bool;
  ra_DataDir : string }.

(** [dns.data.path] is beside the settings the DNS service reads ([DNSConfig] of the file Dns). *)
Record Config := mkConfig {
  cf_AppName : string; cf_Env : string; cf_LogLevel : string; cf_HTTPAddr : string;
  cf_Observability : ObservabilityConfig; cf_Ingress : IngressConfig; cf_DNS : DNSConfig; cf_DNSDataPath : string;
  cf_OrchVPN : OrchVPNConfig; cf_RuntimeProviders : gmap string string; cf_Scheduler : SchedulerConfig;
  cf_Cluster : ClusterConfig; cf_Gossip : GossipSettings; cf_Auth : AuthConfig; cf_Raft : RaftSettings }.

(** ** datadir.go *)

(** The environment variable, the XDG data home and the working directory (when it is known). *)
Definition fallbackRelDataRoot (wd : option string) : string :=
  match wd with Some wd => filepath_Join [wd; "data"] | None => "data" end.
Definition DefaultDataRoot (ORCH_DATA_DIR DataHome : string) (wd : option string) : string :=
  let v := TrimSpace ORCH_DATA_DIR in
  if negb (v =? "")%string then path_Clean v
  else
    let base := TrimSpace DataHome in
    if (base =? "")%string then path_Clean (fallbackRelDataRoot wd) else filepath_Join [base; "orch"].

Definition Default (root : string) : Config :=
  mkConfig "orch" "dev" "debug" ":17443"
    (mkObservability true "/metrics" false "" "" false "")
    (mkIngressConfig true "" [":80"; ":443"] (mkTLS false [] [] "" "" false))
    (mkDNSConfig true "127.0.0.1:15353" "orch.local" "" [] [] "") (filepath_Join [root; "dnsx.db"])
    (mkVPNConfig false ":15888") ∅ (mkScheduler "2m" "30s" false 0 "reschedule") (mkCluster ∅ "")
    (mkGossipSettings false "0.0.0.0:7946" "" [] "" "" true "5s") (mkAuth false "dev-secret-change-me")
    (mkRaftSettings "" "127.0.0.1:7444" "" ∅ true (filepath_Join [root; "dragonboat"])).

(** ** Flags (package pflag) *)
Inductive FlagValue :=
| VString (s : string) | VBool (b : bool) | VUint (n : Z) | VSlice (l : list string) | VMap (m : gmap string string).
Record Flag := mkFlag { fl_Value : FlagValue; fl_Changed : bool }.
Definition FlagSet := gmap string Flag.

Definition flagChanged (fs : FlagSet) (name : string) : bool :=
  match fs !! name with Some f => fl_Changed f | None => false end.

(** [GetString] and the like: the flag is not defined, or has another type. *)
Definition wrong_type {A} (name : string) : res A := Err (Errorf "trying to get another value of flag %s" [AStr name]).
Definition get_flag {A} (fs : FlagSet) (name : string) (as_value : FlagValue → option A) : res A :=
  match fs !! name with
  | None => Err (Errorf "flag accessed but not defined: %s" [AStr name])
  | Some f => match as_value (fl_Value f) with Some v => Ok v | None => wrong_type name end
  end.
Definition as_string (v : FlagValue) := match v with VString s => Some s | _ => None end.
Definition as_bool (v : FlagValue) := match v with VBool b => Some b | _ => None end.
Definition as_uint (v : FlagValue) := match v with VUint n => Some n | _ => None end.
Definition as_slice (v : FlagValue) := match v with VSlice l => Some l | _ => None end.
Definition as_map (v : FlagValue) := match v with VMap m => Some m | _ => None end.

(** ** load_overlay.go *)
Definition flagOverlay := FlagSet → Config → res Config.

(** A changed flag is read and set. *)
Definition typed_flag {A} (as_value : FlagValue → option A) (name : string) (set : A → Config → Config) : flagOverlay := λ fs c,
  if negb (flagChanged fs name) then Ok c
  else v ← wrap "cobra %s flag" [AStr name] (get_flag fs name as_value); Ok (set v c).
Definition stringFlag := typed_flag as_string.
Definition boolFlag := typed_flag as_bool.
Definition uintFlag := typed_flag as_uint.
Definition stringSliceFlag := typed_flag as_slice.
Definition stringMapFlag := typed_flag as_map.

Fixpoint applyFlagOverlays (fs : FlagSet) (overlays : list flagOverlay) (c : Config) : res Config :=
  match overlays with [] => Ok c | o :: rest => c' ← o fs c; applyFlagOverlays fs rest c' end.

(** The assignments: one component of the settings at a time. *)
Definition on_obs f (c : Config) : Config :=
  let 'mkConfig a b d e o i n p v r s k g u t := c in mkConfig a b d e (f o) i n p v r s k g u t.
Definition on_ingress f (c : Config) : Config :=
  let 'mkConfig a b d e o i n p v r s k g u t := c in mkConfig a b d e o (f i) n p v r s k g u t.
Definition on_tls f : Config → Config := on_ingress (λ i, mkIngressConfig (ic_Enabled i) (ic_Addr i) (ic_Listen i) (f (ic_TLS i))).
Definition on_dns f (c : Config) : Config :=
  let 'mkConfig a b d e o i n p v r s k g u t := c in mkConfig a b d e o i (f n) p v r s k g u t.
Definition on_vpn f (c : Config) : Config :=
  let 'mkConfig a b d e o i n p v r s k g u t := c in mkConfig a b d e o i n p (f v) r s k g u t.
Definition on_scheduler f (c : Config) : Config :=
  let 'mkConfig a b d e o i n p v r s k g u t := c in mkConfig a b d e o i n p v r (f s) k g u t.
Definition on_cluster f (c : Config) : Config :=
  let 'mkConfig a b d e o i n p v r s k g u t := c in mkConfig a b d e o i n p v r s (f k) g u t.
Definition on_gossip f (c : Config) : Config :=
  let 'mkConfig a b d e o i n p v r s k g u t := c in mkConfig a b d e o i n p v r s k (f g) u t.
Definition on_auth f (c : Config) : Config :=
  let 'mkConfig a b d e o i n p v r s k g u t := c in mkConfig a b d e o i n p v r s k g (f u) t.
Definition on_raft f (c : Config) : Config :=
  let 'mkConfig a b d e o i n p v r s k g u t := c in mkConfig a b d e o i n p v r s k g u (f t).

Definition core_overlays : list flagOverlay :=
  [stringFlag "app-name" (λ x '(mkConfig a b d e o i n p v r s k g u t), mkConfig x b d e o i n p v r s k g u t);
   stringFlag "env" (λ x '(mkConfig a b d e o i n p v r s k g u t), mkConfig a x d e o i n p v r s k g u t);
   stringFlag "log-level" (λ x '(mkConfig a b d e o i n p v r s k g u t), mkConfig a b x e o i n p v r s k g u t);
   stringFlag "http-addr" (λ x '(mkConfig a b d e o i n p v r s k g u t), mkConfig a b d x o i n p v r s k g u t)].
Definition overlayCoreFlags (c : Config) (fs : FlagSet) : res Config := applyFlagOverlays fs core_overlays c.

Definition observability_overlays : list flagOverlay :=
  [boolFlag "observability-prometheus-enabled" (λ x, on_obs (λ '(mkObservability a b d e f g h), mkObservability x b d e f g h));
   stringFlag "observability-prometheus-path" (λ x, on_obs (λ '(mkObservability a b d e f g h), mkObservability a x d e f g h));
   boolFlag "observability-otlp-enabled" (λ x, on_obs (λ '(mkObservability a b d e f g h), mkObservability a b x e f g h));
   stringFlag "observability-otlp-protocol" (λ x, on_obs (λ '(mkObservability a b d e f g h), mkObservability a b d x f g h));
   stringFlag "observability-otlp-endpoint" (λ x, on_obs (λ '(mkObservability a b d e f g h), mkObservability a b d e x g h));
   boolFlag "observability-otlp-insecure" (λ x, on_obs (λ '(mkObservability a b d e f g h), mkObservability a b d e f x h));
   stringFlag "observability-otlp-service-name" (λ x, on_obs (λ '(mkObservability a b d e f g h), mkObservability a b d e f g x))].
Definition overlayObservabilityFlags (c : Config) (fs : FlagSet) : res Config := applyFlagOverlays fs observability_overlays c.

Definition ingress_overlays : list flagOverlay :=
  [boolFlag "ingress-enabled" (λ x, on_ingress (λ '(mkIngressConfig a b d e), mkIngressConfig x b d e));
   stringFlag "ingress-addr" (λ x, on_ingress (λ '(mkIngressConfig a b d e), mkIngressConfig a x d e));
   stringSliceFlag "ingress-listen" (λ x, on_ingress (λ '(mkIngressConfig a b d e), mkIngressConfig a b x e));
   boolFlag "ingress-tls-enabled" (λ x, on_tls (λ '(mkTLS a b d e f g), mkTLS x b d e f g));
   stringSliceFlag "ingress-tls-listen" (λ x, on_tls (λ '(mkTLS a b d e f g), mkTLS a x d e f g));
   stringSliceFlag "ingress-tls-domains" (λ x, on_tls (λ '(mkTLS a b d e f g), mkTLS a b x e f g));
   stringFlag "ingress-tls-email" (λ x, on_tls (λ '(mkTLS a b d e f g), mkTLS a b d x f g));
   stringFlag "ingress-tls-cache-dir" (λ x, on_tls (λ '(mkTLS a b d e f g), mkTLS a b d e x g));
   boolFlag "ingress-tls-staging" (λ x, on_tls (λ '(mkTLS a b d e f g), mkTLS a b d e f x))].
Definition overlayIngressFlags (c : Config) (fs : FlagSet) : res Config := applyFlagOverlays fs ingress_overlays c.

Definition dns_overlays : list flagOverlay :=
  [boolFlag "dns-enabled" (λ x, on_dns (λ '(mkDNSConfig a b d e f g h), mkDNSConfig x b d e f g h));
   stringFlag "dns-listen" (λ x, on_dns (λ '(mkDNSConfig a b d e f g h), mkDNSConfig a x d e f g h));
   stringFlag "dns-data-path" (λ x '(mkConfig a b d e o i n p v r s k g u t), mkConfig a b d e o i n x v r s k g u t);
   stringFlag "dns-zone" (λ x, on_dns (λ '(mkDNSConfig a b d e f g h), mkDNSConfig a b x e f g h));
   stringFlag "dns-workload-nameserver" (λ x, on_dns (λ '(mkDNSConfig a b d e f g h), mkDNSConfig a b d x f g h));
   stringSliceFlag "dns-workload-search" (λ x, on_dns (λ '(mkDNSConfig a b d e f g h), mkDNSConfig a b d e x g h));
   stringSliceFlag "dns-workload-upstream" (λ x, on_dns (λ '(mkDNSConfig a b d e f g h), mkDNSConfig a b d e f x h));
   stringFlag "dns-workload-advertise-address" (λ x, on_dns (λ '(mkDNSConfig a b d e f g h), mkDNSConfig a b d e f g x));
   boolFlag "orch-vpn-enabled" (λ x, on_vpn (λ '(mkVPNConfig a b), mkVPNConfig x b));
   stringFlag "orch-vpn-tunnel-listen-udp" (λ x, on_vpn (λ '(mkVPNConfig a b), mkVPNConfig a x))].
Definition overlayDNSFlags (c : Config) (fs : FlagSet) : res Config := applyFlagOverlays fs dns_overlays c.

Definition scheduler_overlays : list flagOverlay :=
  [stringFlag "scheduler-heartbeat-interval" (λ x, on_scheduler (λ '(mkScheduler a b d e f), mkScheduler x b d e f));
   stringFlag "scheduler-resource-refresh-interval" (λ x, on_scheduler (λ '(mkScheduler a b d e f), mkScheduler a x d e f));
   boolFlag "scheduler-raft-leader-only" (λ x, on_scheduler (λ '(mkScheduler a b d e f), mkScheduler a b x e f));
   uintFlag "scheduler-max-concurrent-jobs" (λ x, on_scheduler (λ '(mkScheduler a b d e f), mkScheduler a b d x f));
   stringFlag "scheduler-concurrent-jobs-mode" (λ x, on_scheduler (λ '(mkScheduler a b d e f), mkScheduler a b d e x))].
Definition overlaySchedulerFlags (c : Config) (fs : FlagSet) : res Config := applyFlagOverlays fs scheduler_overlays c.

Definition clusterWorkerTokenFlag := "cluster-worker-token".
Definition authJWTSecretFlag := "auth-jwt-secret".

Definition cluster_overlays : list flagOverlay :=
  [stringMapFlag "cluster-nodes" (λ x, on_cluster (λ '(mkCluster a b), mkCluster x b));
   stringFlag clusterWorkerTokenFlag (λ x, on_cluster (λ '(mkCluster a b), mkCluster a x));
   boolFlag "auth-enabled" (λ x, on_auth (λ '(mkAuth a b), mkAuth x b));
   stringFlag authJWTSecretFlag (λ x, on_auth (λ '(mkAuth a b), mkAuth a x))].
Definition overlayClusterAuthFlags (c : Config) (fs : FlagSet) : res Config := applyFlagOverlays fs cluster_overlays c.

Definition gossip_overlays : list flagOverlay :=
  [boolFlag "gossip-enabled" (λ x, on_gossip (λ '(mkGossipSettings a b d e f g h i), mkGossipSettings x b d e f g h i));
   stringFlag "gossip-bind" (λ x, on_gossip (λ '(mkGossipSettings a b d e f g h i), mkGossipSettings a x d e f g h i));
   stringFlag "gossip-advertise" (λ x, on_gossip (λ '(mkGossipSettings a b d e f g h i), mkGossipSettings a b x e f g h i));
   stringSliceFlag "gossip-seeds" (λ x, on_gossip (λ '(mkGossipSettings a b d e f g h i), mkGossipSettings a b d x f g h i));
   stringFlag "gossip-secret-key" (λ x, on_gossip (λ '(mkGossipSettings a b d e f g h i), mkGossipSettings a b d e x g h i));
   stringFlag "gossip-api-url" (λ x, on_gossip (λ '(mkGossipSettings a b d e f g h i), mkGossipSettings a b d e f x h i));
   boolFlag "gossip-auto-join-raft" (λ x, on_gossip (λ '(mkGossipSettings a b d e f g h i), mkGossipSettings a b d e f g x i));
   stringFlag "gossip-reconcile-interval" (λ x, on_gossip (λ '(mkGossipSettings a b d e f g h i), mkGossipSettings a b d e f g h x))].
Definition overlayGossipFlags (c : Config) (fs : FlagSet) : res Config := applyFlagOverlays fs gossip_overlays c.

Definition raft_overlays : list flagOverlay :=
  [stringFlag "raft-node-id" (λ x, on_raft (λ '(mkRaftSettings a b d e f g), mkRaftSettings x b d e f g));
   stringFlag "raft-bind" (λ x, on_raft (λ '(mkRaftSettings a b d e f g), mkRaftSettings a x d e f g));
   stringFlag "raft-advertise" (λ x, on_raft (λ '(mkRaftSettings a b d e f g), mkRaftSettings a b x e f g));
   stringMapFlag "raft-peers" (λ x, on_raft (λ '(mkRaftSettings a b d e f g), mkRaftSettings a b d x f g));
   boolFlag "raft-bootstrap" (λ x, on_raft (λ '(mkRaftSettings a b d e f g), mkRaftSettings a b d e x g));
   stringFlag "raft-data-dir" (λ x, on_raft (λ '(mkRaftSettings a b d e f g), mkRaftSettings a b d e f x))].
Definition overlayRaftFlags (c : Config) (fs : FlagSet) : res Config := applyFlagOverlays fs raft_overlays c.

(** ** load.go *)
Definition overlayChangedFlags (c : Config) (fs : FlagSet) : res Config :=
  foldl (λ acc group, c ← acc; group c fs) (Ok c)
    [overlayCoreFlags; overlayObservabilityFlags; overlayIngressFlags; overlayDNSFlags; overlaySchedulerFlags;
     overlayClusterAuthFlags; overlayGossipFlags; overlayRaftFlags].

Definition flagsForConfigMerge (fs : FlagSet) : FlagSet := delete "config" fs.

(** The first of two flag sets that has a flag. *)
Definition cobraConfigFlags (inherited own : FlagSet) : FlagSet := inherited ∪ own.

Definition explicit_paths : gmap string string := list_to_map
  [("scheduler-heartbeat-interval", "scheduler.heartbeat_interval");
   ("scheduler-resource-refresh-interval", "scheduler.resource_refresh_interval");
   ("scheduler-raft-leader-only", "scheduler.raft_leader_only");
   ("scheduler-max-concurrent-jobs", "scheduler.max_concurrent_jobs");
   ("scheduler-concurrent-jobs-mode", "scheduler.concurrent_jobs_mode");
   ("cluster-nodes", "cluster.nodes"); (clusterWorkerTokenFlag, "cluster.worker_token");
   ("gossip-auto-join-raft", "gossip.auto_join_raft"); ("gossip-reconcile-interval", "gossip.reconcile_interval");
   ("gossip-secret-key", "gossip.secret_key"); ("gossip-api-url", "gossip.api_url"); ("ingress-listen", "ingress.listen");
   ("observability-prometheus-enabled", "observability.prometheus.enabled");
   ("observability-prometheus-path", "observability.prometheus.path");
   ("observability-otlp-enabled", "observability.otlp.enabled"); ("observability-otlp-protocol", "observability.otlp.protocol");
   ("observability-otlp-endpoint", "observability.otlp.endpoint"); ("observability-otlp-insecure", "observability.otlp.insecure");
   ("observability-otlp-service-name", "observability.otlp.service_name"); ("dns-data-path", "dns.data.path");
   ("dns-workload-nameserver", "dns.workload.nameserver"); ("dns-workload-search", "dns.workload.search");
   ("dns-workload-upstream", "dns.workload.upstream"); ("dns-workload-advertise-address", "dns.workload.advertise_address");
   ("orch-vpn-enabled", "orch_vpn.enabled"); ("orch-vpn-tunnel-listen-udp", "orch_vpn.tunnel_listen_udp");
   (authJWTSecretFlag, "auth.jwt.secret"); ("raft-node-id", "raft.node.id"); ("raft-advertise", "raft.advertise");
   ("raft-peers", "raft.peers"); ("raft-bootstrap", "raft.bootstrap"); ("raft-data-dir", "raft.data.dir")].
Definition orchFlagToPath `{UnicodeLower} (raw : string) : string :=
  let name := TrimSpace raw in
  match explicit_paths !! name with
  | Some p => p
  | None => of_bytes ((λ c, if Ascii.eqb c "-" then "."%char else c) <$> bytes_of (ToLower name))
  end.

(** What configx is given: the defaults, the file, the flags and their paths, with the priorities of
    [Load]; [load] answers with the merged settings. *)
Record LoadOptions := mkLoadOptions {
  lo_Defaults : Config; lo_Files : list string; lo_Flags : FlagSet; lo_FlagPath : string → string }.

Definition LoadFromCobra `{UnicodeLower} (load : LoadOptions → res Config) (root : string) (inherited own : FlagSet) : res Config :=
  let flags := cobraConfigFlags inherited own in
  cfgPath ← wrap "cobra config flag" [] (get_flag flags "config" as_string);
  let p := TrimSpace cfgPath in
  c ← load (mkLoadOptions (Default root) (if negb (p =? "")%string then [p] else []) (flagsForConfigMerge flags) orchFlagToPath);
  overlayChangedFlags c flags.

(** ** flags.go *)
Definition unchanged (v : FlagValue) : Flag := mkFlag v false.
Definition bindCoreFlags (def : Config) : list (string * FlagValue) :=
  [("app-name", VString (cf_AppName def)); ("env", VString (cf_Env def)); ("log-level", VString (cf_LogLevel def));
   ("http-addr", VString (cf_HTTPAddr def))].
Definition bindObservabilityFlags (def : Config) : list (string * FlagValue) :=
  let o := cf_Observability def in
  [("observability-prometheus-enabled", VBool (ob_PrometheusEnabled o)); ("observability-prometheus-path", VString (ob_PrometheusPath o));
   ("observability-otlp-enabled", VBool (ob_OTLPEnabled o)); ("observability-otlp-protocol", VString (ob_OTLPProtocol o));
   ("observability-otlp-endpoint", VString (ob_OTLPEndpoint o)); ("observability-otlp-insecure", VBool (ob_OTLPInsecure o));
   ("observability-otlp-service-name", VString (ob_OTLPServiceName o))].
Definition bindIngressFlags (def : Config) : list (string * FlagValue) :=
  let i := cf_Ingress def in let t := ic_TLS i in
  [("ingress-enabled", VBool (ic_Enabled i)); ("ingress-addr", VString (ic_Addr i)); ("ingress-listen", VSlice (ic_Listen i));
   ("ingress-tls-enabled", VBool (tls_Enabled t)); ("ingress-tls-listen", VSlice (tls_Listen t));
   ("ingress-tls-domains", VSlice (tls_Domains t)); ("ingress-tls-email", VString (tls_Email t));
   ("ingress-tls-cache-dir", VString (tls_CacheDir t)); ("ingress-tls-staging", VBool (tls_Staging t))].
Definition bindDNSFlags (def : Config) : list (string * FlagValue) :=
  let n := cf_DNS def in
  [("dns-enabled", VBool (dns_Enabled n)); ("dns-listen", VString (dns_Listen n)); ("dns-data-path", VString (cf_DNSDataPath def));
   ("dns-zone", VString (dns_Zone n)); ("dns-workload-nameserver", VString (dns_Nameserver n));
   ("dns-workload-search", VSlice (dns_Search n)); ("dns-workload-upstream", VSlice (dns_Upstream n));
   ("dns-workload-advertise-address", VString (dns_AdvertiseAddress n));
   ("orch-vpn-enabled", VBool (vpn_Enabled (cf_OrchVPN def)));
   ("orch-vpn-tunnel-listen-udp", VString (vpn_TunnelListenUDP (cf_OrchVPN def)))].
Definition bindSchedulerFlags (def : Config) : list (string * FlagValue) :=
  let s := cf_Scheduler def in
  [("scheduler-heartbeat-interval", VString (sch_HeartbeatInterval s));
   ("scheduler-resource-refresh-interval", VString (sch_ResourceRefreshInterval s));
   ("scheduler-raft-leader-only", VBool (sch_RaftLeaderOnly s)); ("scheduler-max-concurrent-jobs", VUint (sch_MaxConcurrentJobs s));
   ("scheduler-concurrent-jobs-mode", VString (sch_ConcurrentJobsMode s))].
Definition bindClusterFlags (def : Config) : list (string * FlagValue) :=
  [("cluster-nodes", VMap (cl_Nodes (cf_Cluster def))); (clusterWorkerTokenFlag, VString (cl_WorkerToken (cf_Cluster def)));
   ("auth-enabled", VBool (au_Enabled (cf_Auth def))); (authJWTSecretFlag, VString (au_JWTSecret (cf_Auth def)))].
Definition bindGossipFlags (def : Config) : list (string * FlagValue) :=
  let g := cf_Gossip def in
  [("gossip-enabled", VBool (go_Enabled g)); ("gossip-bind", VString (go_Bind g)); ("gossip-advertise", VString (go_Advertise g));
   ("gossip-seeds", VSlice (go_Seeds g)); ("gossip-secret-key", VString (go_SecretKey g)); ("gossip-api-url", VString (go_APIURL g));
   ("gossip-auto-join-raft", VBool (go_AutoJoinRaft g)); ("gossip-reconcile-interval", VString (go_ReconcileInterval g))].
Definition bindRaftFlags (def : Config) : list (string * FlagValue) :=
  let r := cf_Raft def in
  [("raft-node-id", VString (ra_NodeID r)); ("raft-bind", VString (ra_Bind r)); ("raft-advertise", VString (ra_Advertise r));
   ("raft-peers", VMap (ra_Peers r)); ("raft-bootstrap", VBool (ra_Bootstrap r)); ("raft-data-dir", VString (ra_DataDir r))].
(** The flags and their initial values. *)
Definition BindOrchFlags (def : Config) : list (string * FlagValue) :=
  bindCoreFlags def ++ bindObservabilityFlags def ++ bindIngressFlags def ++ bindDNSFlags def ++ bindSchedulerFlags def ++
  bindClusterFlags def ++ bindGossipFlags def ++ bindRaftFlags def.

(** ** reachable_parse.go *)
Definition NormalizePrometheusPath (path : string) : string :=
  let p := TrimSpace path in
  if (p =? "")%string || (p =? "/")%string then "/metrics"
  else if negb (HasPrefix p "/") then "/" +:+ p else p.
Definition ingress_url (a : string) : option string :=
  let d := FixLoopbackHost (TrimSpace a) in
  if (d =? "")%string then None
  else match SplitHostPort d with
       | Err _ => Some ("http://" +:+ d +:+ "/")
       | Ok (_, port) => Some ((if (port =? "443")%string then "https" else "http") +:+ "://" +:+ d +:+ "/")
       end.
(** Each value once, at its first place. *)
Fixpoint uniqueStringList (seen : list string) (values : list string) : list string :=
  match values with
  | [] => []
  | v :: rest => if bool_decide (v ∈ seen) then uniqueStringList seen rest else v :: uniqueStringList (v :: seen) rest
  end.
Definition IngressURLListFromAddrList (addrs : list string) : list string := uniqueStringList [] (omap ingress_url addrs).
Definition IngressReachabilityURLList (ing : IngressConfig) : list string :=
  if negb (ic_Enabled ing) then []
  else uniqueStringList []
    (IngressURLListFromAddrList (PlainListenAddrList ing) ++
     (if tls_Enabled (ic_TLS ing) then
        ((λ d, "https://" +:+ TrimSuffix d "/" +:+ "/") <$> TLSAutocertDomainList ing) ++
        IngressURLListFromAddrList (TLSListenAddrList ing)
      else [])).

(** ** nodeid *)

(** [net.Interface], as far as it is read. *)
Record Interface := mkIface { if_Loopback : bool; if_HardwareAddr : list Z }.
(** [net.HardwareAddr.String] *)
Definition mac_string (l : list Z) : string :=
  String.concat ":" ((λ b, of_bytes [lowerhex (b / 16); lowerhex (b mod 16)]) <$> l).

Definition normalizeHostID `{UnicodeLower} (s : string) : string := TrimSpace (ToLower s).
(** [digest] is the text of the first half of the SHA-256 sum. *)
Definition fingerprintFallback `{ListSort} (digest : string → string) (hostname : res string) (interfaces : res (list Interface))
    : res string :=
  let hn := match hostname with Ok hn => hn | Err _ => "unknown-host" end in
  ifaces ← wrap "nodeid: fingerprint interfaces" [] interfaces;
  let macs := omap (λ ni, if if_Loopback ni then None
                          else if (6 <=? length (if_HardwareAddr ni))%nat then Some (mac_string (if_HardwareAddr ni)) else None) ifaces in
  Ok ("orch-" +:+ digest (String.concat "|" [hn; String.concat "," (list_sort (by_key id) macs)])).
Definition FromHardware `{UnicodeLower, ListSort} (digest : string → string) (hostID hostname : res string)
    (interfaces : res (list Interface)) : res string :=
  raw ← wrap "nodeid: host id" [] hostID;
  let id := normalizeHostID raw in
  if negb (id =? "")%string then Ok id else fingerprintFallback digest hostname interfaces.
Definition Resolve `{UnicodeLower, ListSort} (digest : string → string) (hostID hostname : res string)
    (interfaces : res (list Interface)) (c : Config) : res string :=
  let explicit := TrimSpace (ra_NodeID (cf_Raft c)) in
  if negb (explicit =? "")%string && negb (EqualFold explicit "auto") then Ok explicit
  else
    v ← FromHardware digest hostID hostname interfaces;
    if (TrimSpace v =? "")%string then Err (Errorf "nodeid: hardware id resolved empty" []) else Ok v.

(** ** scheduler *)
Inductive LimitMode := LimitModeReschedule | LimitModeWait.
(** The options given to gocron. *)
Inductive SchedulerOption := WithLocation | WithDistributedElector | WithLimitConcurrentJobs (n : Z) (mode : LimitMode).
Definition newGocronScheduler (sc : SchedulerConfig) : list SchedulerOption :=
  [WithLocation] ++ (if sch_RaftLeaderOnly sc then [WithDistributedElector] else []) ++
  (if (0 <? sch_MaxConcurrentJobs sc)%Z then
     [WithLimitConcurrentJobs (sch_MaxConcurrentJobs sc)
        (if EqualFold (TrimSpace (sch_ConcurrentJobsMode sc)) "wait" then LimitModeWait else LimitModeReschedule)]
   else []).

Definition interval_or (raw : string) (fallback : Z) : Z :=
  match ParseDuration raw with Ok d => if (0 <? d)%Z then d else fallback | Err _ => fallback end.
Record Job := mkJob { job_Name : string; job_Interval : Z }.
Definition heartbeat_job (sc : SchedulerConfig) : Job := mkJob "orch-heartbeat" (interval_or (sch_HeartbeatInterval sc) 120000000000).
Definition resource_job (sc : SchedulerConfig) : Job :=
  mkJob "orch-node-resources" (interval_or (TrimSpace (sch_ResourceRefreshInterval sc)) 30000000000).
(** [newJob] is what gocron answers; the first refresh of the node's capacity is only logged. *)
Definition RegisterHeartbeatJob (newJob : Job → res unit) (sc : SchedulerConfig) : res unit :=
  wrap "register heartbeat job" [] (newJob (heartbeat_job sc)).
Definition RegisterResourceSnapshotJob (newJob : Job → res unit) (sc : SchedulerConfig) : res unit :=
  wrap "register node resource refresh job" [] (newJob (resource_job sc)).
(** The jobs of a scheduler that started. *)
Definition start_jobs (newJob : Job → res unit) (sc : SchedulerConfig) : res (list Job) :=
  RegisterHeartbeatJob newJob sc ;; RegisterResourceSnapshotJob newJob sc ;; Ok [heartbeat_job sc; resource_job sc].

(** ** What the flags mean *)
Inductive kind := KString | KBool | KUint | KSlice | KMap.
#[export] Instance kind_eq_dec : EqDecision kind.
Proof. solve_decision. Defined.
Definition kind_of (v : FlagValue) : kind :=
  match v with VString _ => KString | VBool _ => KBool | VUint _ => KUint | VSlice _ => KSlice | VMap _ => KMap end.
Definition flag_kinds : gmap string kind := list_to_map (prod_map id kind_of <$> BindOrchFlags (Default "")).

(** Every flag that is bound is there, with the type it was bound with. *)
Definition bound (fs : FlagSet) : Prop :=
  ∀ name k, flag_kinds !! name = Some k → ∃ f, fs !! name = Some f ∧ kind_of (fl_Value f) = k.

Definition bound_check (kinds : gmap string kind) (fs : FlagSet) : bool :=
  forallb (λ p : string * kind, match fs !! p.1 with
    | Some f => bool_decide (kind_of (fl_Value f) = p.2) | None => false end) (map_to_list kinds).

(** The value of a changed flag, or the old one. *)
Definition chosen {A} (as_value : FlagValue → option A) (fs : FlagSet) (name : string) (old : A) : A :=
  match fs !! name with Some f => if fl_Changed f then default old (as_value (fl_Value f)) else old | None => old end.
Abbreviation str := (chosen as_string). Abbreviation flag := (chosen as_bool). Abbreviation strs := (chosen as_slice).
Abbreviation strmap := (chosen as_map).

(** The settings with every changed flag in its place. *)
Definition overlaid (fs : FlagSet) (c : Config) : Config :=
  let o := cf_Observability c in let i := cf_Ingress c in let t := ic_TLS i in let n := cf_DNS c in let v := cf_OrchVPN c in
  let s := cf_Scheduler c in let k := cf_Cluster c in let g := cf_Gossip c in let u := cf_Auth c in let r := cf_Raft c in
  mkConfig (str fs "app-name" (cf_AppName c)) (str fs "env" (cf_Env c)) (str fs "log-level" (cf_LogLevel c))
    (str fs "http-addr" (cf_HTTPAddr c))
    (mkObservability (flag fs "observability-prometheus-enabled" (ob_PrometheusEnabled o))
       (str fs "observability-prometheus-path" (ob_PrometheusPath o)) (flag fs "observability-otlp-enabled" (ob_OTLPEnabled o))
       (str fs "observability-otlp-protocol" (ob_OTLPProtocol o)) (str fs "observability-otlp-endpoint" (ob_OTLPEndpoint o))
       (flag fs "observability-otlp-insecure" (ob_OTLPInsecure o)) (str fs "observability-otlp-service-name" (ob_OTLPServiceName o)))
    (mkIngressConfig (flag fs "ingress-enabled" (ic_Enabled i)) (str fs "ingress-addr" (ic_Addr i)) (strs fs "ingress-listen" (ic_Listen i))
       (mkTLS (flag fs "ingress-tls-enabled" (tls_Enabled t)) (strs fs "ingress-tls-listen" (tls_Listen t))
          (strs fs "ingress-tls-domains" (tls_Domains t)) (str fs "ingress-tls-email" (tls_Email t))
          (str fs "ingress-tls-cache-dir" (tls_CacheDir t)) (flag fs "ingress-tls-staging" (tls_Staging t))))
    (mkDNSConfig (flag fs "dns-enabled" (dns_Enabled n)) (str fs "dns-listen" (dns_Listen n)) (str fs "dns-zone" (dns_Zone n))
       (str fs "dns-workload-nameserver" (dns_Nameserver n)) (strs fs "dns-workload-search" (dns_Search n))
       (strs fs "dns-workload-upstream" (dns_Upstream n)) (str fs "dns-workload-advertise-address" (dns_AdvertiseAddress n)))
    (str fs "dns-data-path" (cf_DNSDataPath c))
    (mkVPNConfig (flag fs "orch-vpn-enabled" (vpn_Enabled v)) (str fs "orch-vpn-tunnel-listen-udp" (vpn_TunnelListenUDP v)))
    (cf_RuntimeProviders c)
    (mkScheduler (str fs "scheduler-heartbeat-interval" (sch_HeartbeatInterval s))
       (str fs "scheduler-resource-refresh-interval" (sch_ResourceRefreshInterval s))
       (flag fs "scheduler-raft-leader-only" (sch_RaftLeaderOnly s))
       (chosen as_uint fs "scheduler-max-concurrent-jobs" (sch_MaxConcurrentJobs s))
       (str fs "scheduler-concurrent-jobs-mode" (sch_ConcurrentJobsMode s)))
    (mkCluster (strmap fs "cluster-nodes" (cl_Nodes k)) (str fs "cluster-worker-token" (cl_WorkerToken k)))
    (mkGossipSettings (flag fs "gossip-enabled" (go_Enabled g)) (str fs "gossip-bind" (go_Bind g))
       (str fs "gossip-advertise" (go_Advertise g)) (strs fs "gossip-seeds" (go_Seeds g)) (str fs "gossip-secret-key" (go_SecretKey g))
       (str fs "gossip-api-url" (go_APIURL g)) (flag fs "gossip-auto-join-raft" (go_AutoJoinRaft g))
       (str fs "gossip-reconcile-interval" (go_ReconcileInterval g)))
    (mkAuth (flag fs "auth-enabled" (au_Enabled u)) (str fs "auth-jwt-secret" (au_JWTSecret u)))
    (mkRaftSettings (str fs "raft-node-id" (ra_NodeID r)) (str fs "raft-bind" (ra_Bind r)) (str fs "raft-advertise" (ra_Advertise r))
       (strmap fs "raft-peers" (ra_Peers r)) (flag fs "raft-bootstrap" (ra_Bootstrap r)) (str fs "raft-data-dir" (ra_DataDir r))).

Lemma kinds_of_any def : prod_map id kind_of <$> BindOrchFlags def = prod_map id kind_of <$> BindOrchFlags (Default "").
Proof. reflexivity. Qed.

Lemma bound_checked fs : bound_check flag_kinds fs = true → bound fs.
Proof.
  unfold bound. generalize flag_kinds. intros kinds Hb name k Hk. apply elem_of_map_to_list, list_elem_of_In in Hk.
  unfold bound_check in Hb. rewrite forallb_forall in Hb. specialize (Hb _ Hk). cbn in Hb.
  destruct (fs !! name) as [f|]; [|done]. exists f. by case_bool_decide.
Qed.

Lemma typed_flag_at {A} (as_value : FlagValue → option A) name set fs c old :
  (∃ f, fs !! name = Some f ∧ is_Some (as_value (fl_Value f))) → set old c = c →
  typed_flag as_value name set fs c = Ok (set (chosen as_value fs name old) c).
Proof.
  intros (f & Ef & v & Ev) Hold. unfold typed_flag, flagChanged, chosen, get_flag. rewrite Ef.
  destruct (fl_Changed f); cbn; [by rewrite Ev|by rewrite Hold].
Qed.
Lemma bound_string fs name : bound fs → flag_kinds !! name = Some KString → ∃ f, fs !! name = Some f ∧ is_Some (as_string (fl_Value f)).
Proof. intros Hb Hk. destruct (Hb _ _ Hk) as (f & Ef & Hf). exists f. split; [done|]. by destruct (fl_Value f); eauto. Qed.
Lemma bound_bool fs name : bound fs → flag_kinds !! name = Some KBool → ∃ f, fs !! name = Some f ∧ is_Some (as_bool (fl_Value f)).
Proof. intros Hb Hk. destruct (Hb _ _ Hk) as (f & Ef & Hf). exists f. split; [done|]. by destruct (fl_Value f); eauto. Qed.
Lemma bound_uint fs name : bound fs → flag_kinds !! name = Some KUint → ∃ f, fs !! name = Some f ∧ is_Some (as_uint (fl_Value f)).
Proof. intros Hb Hk. destruct (Hb _ _ Hk) as (f & Ef & Hf). exists f. split; [done|]. by destruct (fl_Value f); eauto. Qed.
Lemma bound_slice fs name : bound fs → flag_kinds !! name = Some KSlice → ∃ f, fs !! name = Some f ∧ is_Some (as_slice (fl_Value f)).
Proof. intros Hb Hk. destruct (Hb _ _ Hk) as (f & Ef & Hf). exists f. split; [done|]. by destruct (fl_Value f); eauto. Qed.
Lemma bound_map fs name : bound fs → flag_kinds !! name = Some KMap → ∃ f, fs !! name = Some f ∧ is_Some (as_map (fl_Value f)).
Proof. intros Hb Hk. destruct (Hb _ _ Hk) as (f & Ef & Hf). exists f. split; [done|]. by destruct (fl_Value f); eauto. Qed.

(** One flag after the other. *)
Lemma apply_step {A} (as_value : FlagValue → option A) name set rest fs c old c' :
  (∃ f, fs !! name = Some f ∧ is_Some (as_value (fl_Value f))) → set old c = c → set (chosen as_value fs name old) c = c' →
  applyFlagOverlays fs (typed_flag as_value name set :: rest) c = applyFlagOverlays fs rest c'.
Proof. intros Hf Hold <-. cbn [applyFlagOverlays]. by rewrite (typed_flag_at as_value name set fs c old) by done. Qed.

Ltac bound_flag Hb :=
  first [apply bound_string|apply bound_bool|apply bound_uint|apply bound_slice|apply bound_map]; [exact Hb|vm_compute; reflexivity].
Ltac overlay_group Hb :=
  repeat (etrans; [eapply apply_step; [bound_flag Hb|cbn; reflexivity|cbn; reflexivity]|]); reflexivity.

Section groups.
Context (fs : FlagSet) (Hb : bound fs).

Lemma core_overlaid a b d e o i n p v r s k g u t :
  overlayCoreFlags (mkConfig a b d e o i n p v r s k g u t) fs =
  Ok (mkConfig (str fs "app-name" a) (str fs "env" b) (str fs "log-level" d) (str fs "http-addr" e) o i n p v r s k g u t).
Proof. unfold overlayCoreFlags, core_overlays. overlay_group Hb. Qed.
Lemma observability_overlaid a b d e o i n p v r s k g u t :
  overlayObservabilityFlags (mkConfig a b d e o i n p v r s k g u t) fs =
  Ok (mkConfig a b d e
    (mkObservability (flag fs "observability-prometheus-enabled" (ob_PrometheusEnabled o))
       (str fs "observability-prometheus-path" (ob_PrometheusPath o)) (flag fs "observability-otlp-enabled" (ob_OTLPEnabled o))
       (str fs "observability-otlp-protocol" (ob_OTLPProtocol o)) (str fs "observability-otlp-endpoint" (ob_OTLPEndpoint o))
       (flag fs "observability-otlp-insecure" (ob_OTLPInsecure o)) (str fs "observability-otlp-service-name" (ob_OTLPServiceName o)))
    i n p v r s k g u t).
Proof. destruct o. unfold overlayObservabilityFlags, observability_overlays. overlay_group Hb. Qed.

Lemma ingress_overlaid a b d e o i n p v r s k g u t : let x := ic_TLS i in
  overlayIngressFlags (mkConfig a b d e o i n p v r s k g u t) fs =
  Ok (mkConfig a b d e o
    (mkIngressConfig (flag fs "ingress-enabled" (ic_Enabled i)) (str fs "ingress-addr" (ic_Addr i)) (strs fs "ingress-listen" (ic_Listen i))
       (mkTLS (flag fs "ingress-tls-enabled" (tls_Enabled x)) (strs fs "ingress-tls-listen" (tls_Listen x))
          (strs fs "ingress-tls-domains" (tls_Domains x)) (str fs "ingress-tls-email" (tls_Email x))
          (str fs "ingress-tls-cache-dir" (tls_CacheDir x)) (flag fs "ingress-tls-staging" (tls_Staging x))))
    n p v r s k g u t).
Proof. destruct i as [? ? ? []]. unfold overlayIngressFlags, ingress_overlays. overlay_group Hb. Qed.

Lemma dns_overlaid a b d e o i n p v r s k g u t :
  overlayDNSFlags (mkConfig a b d e o i n p v r s k g u t) fs =
  Ok (mkConfig a b d e o i
    (mkDNSConfig (flag fs "dns-enabled" (dns_Enabled n)) (str fs "dns-listen" (dns_Listen n)) (str fs "dns-zone" (dns_Zone n))
       (str fs "dns-workload-nameserver" (dns_Nameserver n)) (strs fs "dns-workload-search" (dns_Search n))
       (strs fs "dns-workload-upstream" (dns_Upstream n)) (str fs "dns-workload-advertise-address" (dns_AdvertiseAddress n)))
    (str fs "dns-data-path" p)
    (mkVPNConfig (flag fs "orch-vpn-enabled" (vpn_Enabled v)) (str fs "orch-vpn-tunnel-listen-udp" (vpn_TunnelListenUDP v)))
    r s k g u t).
Proof. destruct n, v. unfold overlayDNSFlags, dns_overlays. overlay_group Hb. Qed.

Lemma scheduler_overlaid a b d e o i n p v r s k g u t :
  overlaySchedulerFlags (mkConfig a b d e o i n p v r s k g u t) fs =
  Ok (mkConfig a b d e o i n p v r
    (mkScheduler (str fs "scheduler-heartbeat-interval" (sch_HeartbeatInterval s))
       (str fs "scheduler-resource-refresh-interval" (sch_ResourceRefreshInterval s))
       (flag fs "scheduler-raft-leader-only" (sch_RaftLeaderOnly s))
       (chosen as_uint fs "scheduler-max-concurrent-jobs" (sch_MaxConcurrentJobs s))
       (str fs "scheduler-concurrent-jobs-mode" (sch_ConcurrentJobsMode s)))
    k g u t).
Proof. destruct s. unfold overlaySchedulerFlags, scheduler_overlays. overlay_group Hb. Qed.

Lemma cluster_overlaid a b d e o i n p v r s k g u t :
  overlayClusterAuthFlags (mkConfig a b d e o i n p v r s k g u t) fs =
  Ok (mkConfig a b d e o i n p v r s
    (mkCluster (strmap fs "cluster-nodes" (cl_Nodes k)) (str fs "cluster-worker-token" (cl_WorkerToken k))) g
    (mkAuth (flag fs "auth-enabled" (au_Enabled u)) (str fs "auth-jwt-secret" (au_JWTSecret u))) t).
Proof. destruct k, u. unfold overlayClusterAuthFlags, cluster_overlays. overlay_group Hb. Qed.

Lemma gossip_overlaid a b d e o i n p v r s k g u t :
  overlayGossipFlags (mkConfig a b d e o i n p v r s k g u t) fs =
  Ok (mkConfig a b d e o i n p v r s k
    (mkGossipSettings (flag fs "gossip-enabled" (go_Enabled g)) (str fs "gossip-bind" (go_Bind g))
       (str fs "gossip-advertise" (go_Advertise g)) (strs fs "gossip-seeds" (go_Seeds g)) (str fs "gossip-secret-key" (go_SecretKey g))
       (str fs "gossip-api-url" (go_APIURL g)) (flag fs "gossip-auto-join-raft" (go_AutoJoinRaft g))
       (str fs "gossip-reconcile-interval" (go_ReconcileInterval g))) u t).
Proof. destruct g. unfold overlayGossipFlags, gossip_overlays. overlay_group Hb. Qed.

Lemma raft_overlaid a b d e o i n p v r s k g u t :
  overlayRaftFlags (mkConfig a b d e o i n p v r s k g u t) fs =
  Ok (mkConfig a b d e o i n p v r s k g u
    (mkRaftSettings (str fs "raft-node-id" (ra_NodeID t)) (str fs "raft-bind" (ra_Bind t)) (str fs "raft-advertise" (ra_Advertise t))
       (strmap fs "raft-peers" (ra_Peers t)) (flag fs "raft-bootstrap" (ra_Bootstrap t)) (str fs "raft-data-dir" (ra_DataDir t)))).
Proof. destruct t. unfold overlayRaftFlags, raft_overlays. overlay_group Hb. Qed.

Lemma overlay_all c : overlayChangedFlags c fs = Ok (overlaid fs c).
Proof.
  destruct c as [a b d e o i n p v r s k g u t]. unfold overlayChangedFlags. cbn [foldl mbind res_bind].
  rewrite core_overlaid. cbn [mbind res_bind]. rewrite observability_overlaid. cbn [mbind res_bind].
  rewrite ingress_overlaid. cbn [mbind res_bind]. rewrite dns_overlaid. cbn [mbind res_bind].
  rewrite scheduler_overlaid. cbn [mbind res_bind]. rewrite cluster_overlaid. cbn [mbind res_bind].
  rewrite gossip_overlaid. cbn [mbind res_bind]. rewrite raft_overlaid. reflexivity.
Qed.
End groups.

(** Nothing changed: nothing is set. *)
Lemma overlaid_unchanged fs c : (∀ name, flagChanged fs name = false) → overlaid fs c = c.
Proof.
  intros Hf. assert (∀ A (as_value : FlagValue → option A) name old, chosen as_value fs name old = old) as Hc.
  { intros A as_value name old. specialize (Hf name). unfold flagChanged in Hf. unfold chosen.
    destruct (fs !! name) as [f|]; [|done]. by rewrite Hf. }
  destruct c as [a b d e [] [? ? ? []] [] p [] r [] [] [] [] []]. unfold overlaid. cbn. by rewrite !Hc.
Qed.

(** The setting each flag is for, by its path in a configuration file (the [json] tags). *)
Definition flag_fields : list (string * string) :=
  [("app-name", "app.name"); ("env", "env"); ("log-level", "log.level"); ("http-addr", "http.addr");
   ("observability-prometheus-enabled", "observability.prometheus.enabled");
   ("observability-prometheus-path", "observability.prometheus.path"); ("observability-otlp-enabled", "observability.otlp.enabled");
   ("observability-otlp-protocol", "observability.otlp.protocol"); ("observability-otlp-endpoint", "observability.otlp.endpoint");
   ("observability-otlp-insecure", "observability.otlp.insecure");
   ("observability-otlp-service-name", "observability.otlp.service_name");
   ("ingress-enabled", "ingress.enabled"); ("ingress-addr", "ingress.addr"); ("ingress-listen", "ingress.listen");
   ("ingress-tls-enabled", "ingress.tls.enabled"); ("ingress-tls-listen", "ingress.tls.listen");
   ("ingress-tls-domains", "ingress.tls.domains"); ("ingress-tls-email", "ingress.tls.email");
   ("ingress-tls-cache-dir", "ingress.tls.cache_dir"); ("ingress-tls-staging", "ingress.tls.staging");
   ("dns-enabled", "dns.enabled"); ("dns-listen", "dns.listen"); ("dns-data-path", "dns.data.path"); ("dns-zone", "dns.zone");
   ("dns-workload-nameserver", "dns.workload.nameserver"); ("dns-workload-search", "dns.workload.search");
   ("dns-workload-upstream", "dns.workload.upstream"); ("dns-workload-advertise-address", "dns.workload.advertise_address");
   ("orch-vpn-enabled", "orch_vpn.enabled"); ("orch-vpn-tunnel-listen-udp", "orch_vpn.tunnel_listen_udp");
   ("scheduler-heartbeat-interval", "scheduler.heartbeat_interval");
   ("scheduler-resource-refresh-interval", "scheduler.resource_refresh_interval");
   ("scheduler-raft-leader-only", "scheduler.raft_leader_only"); ("scheduler-max-concurrent-jobs", "scheduler.max_concurrent_jobs");
   ("scheduler-concurrent-jobs-mode", "scheduler.concurrent_jobs_mode"); ("cluster-nodes", "cluster.nodes");
   ("cluster-worker-token", "cluster.worker_token"); ("auth-enabled", "auth.enabled"); ("auth-jwt-secret", "auth.jwt.secret");
   ("gossip-enabled", "gossip.enabled"); ("gossip-bind", "gossip.bind"); ("gossip-advertise", "gossip.advertise");
   ("gossip-seeds", "gossip.seeds"); ("gossip-secret-key", "gossip.secret_key"); ("gossip-api-url", "gossip.api_url");
   ("gossip-auto-join-raft", "gossip.auto_join_raft"); ("gossip-reconcile-interval", "gossip.reconcile_interval");
   ("raft-node-id", "raft.node.id"); ("raft-bind", "raft.bind"); ("raft-advertise", "raft.advertise"); ("raft-peers", "raft.peers");
   ("raft-bootstrap", "raft.bootstrap"); ("raft-data-dir", "raft.data.dir")].

Lemma fields_are_flags def : flag_fields.*1 = (BindOrchFlags def).*1.
Proof. reflexivity. Qed.

Lemma interval_positive raw fallback : (0 < fallback)%Z → (0 < interval_or raw fallback)%Z.
Proof. intros Hf. unfold interval_or. destruct (ParseDuration raw) as [d|]; [|done]. by destruct (Z.ltb_spec 0 d). Qed.

Lemma unique_spec seen l : NoDup (uniqueStringList seen l) ∧ ∀ x, x ∈ uniqueStringList seen l ↔ x ∈ l ∧ x ∉ seen.
Proof.
  revert seen. induction l as [|v l IH]; intros seen; cbn; [split; [constructor|set_solver]|].
  case_bool_decide as Hv.
  - destruct (IH seen) as [Hn Hi]. split; [done|]. set_solver.
  - destruct (IH (v :: seen)) as [Hn Hi]. split; [constructor; set_solver|].
    intros x. rewrite elem_of_cons, Hi. destruct (decide (x = v)) as [->|]; set_solver.
Qed.
