(* ===== verification/HostDns.v ===== *)
(** * Host DNS: pointing the resolver of the host at the zone (internal/hostdns; the actions of
      cmd/orch-server/host_dns_cmd.go)

    What the server derives from its settings, and the managers of the three systems: a drop-in of
    systemd-resolved, a resolver file of macOS, a rule of Windows.  The file system's failures, the
    restart of systemd-resolved and PowerShell are parameters. *)
From stdpp Require Import base strings numbers gmap list.
From Stdlib Require Import Ascii.
From S2P Require Import Prelude GoStrings GoTime GoNet GoList Deploy Meta GoText Placement Fsm RaftService TaskBase TaskRun Dns Runtime Effects Systemd.

(** ** manager.go *)
Record HostConfig := mkHostConfig { hc_Zone : string; hc_Nameserver : string; hc_Port : Z; hc_Listen : string }.
Record HostStatus := mkHostStatus { hs_Supported : bool; hs_Installed : bool; hs_Detail : string; hs_Config : HostConfig }.

Definition hostDNSNameserver (raw : string) : string :=
  let host := TrimSet (TrimSpace raw) (bytes_of "[]") in
  if (host =? "")%string || (host =? "0.0.0.0")%string || (host =? "::")%string then "127.0.0.1"
  else match ParseIP host with
       | None => ""
       | Some ip => if IsUnspecified ip then "127.0.0.1" else IPString ip
       end.

Definition ConfigFromOrch `{UnicodeLower} (dns : DNSConfig) : res HostConfig :=
  let zone := domain_of (ZoneName dns) in
  if (zone =? "")%string then Err (Errorf "dns zone is required" [])
  else
    let listen := TrimSpace (dns_Listen dns) in
    if (listen =? "")%string then Err (Errorf "dns.listen is required" [])
    else
      '(host, portRaw) ← wrap "parse dns.listen %q" [AStr listen] (SplitHostPort listen);
      match Atoi portRaw with
      | Some port =>
          if (port <=? 0)%Z || (65535 <? port)%Z then Err (Errorf "dns.listen port must be 1-65535: %q" [AStr portRaw])
          else
            let nameserver := hostDNSNameserver host in
            if (nameserver =? "")%string then Err (Errorf "dns.listen host must be an IP address: %q" [AStr host])
            else Ok (mkHostConfig zone nameserver port listen)
      | None => Err (Errorf "dns.listen port must be 1-65535: %q" [AStr portRaw])
      end.

Definition requirePort53 (c : HostConfig) (platform : string) : res unit :=
  guard_err (negb (hc_Port c =? 53)%Z)
    (Errorf "%s host DNS integration requires dns.listen on port 53, got %s" [AStr platform; AStr (hc_Listen c)]).

Definition DNSServerEndpoint (c : HostConfig) : string :=
  if (hc_Port c =? 53)%Z then hc_Nameserver c else JoinHostPort (hc_Nameserver c) (Itoa (hc_Port c)).

(** ** scripts.go: the embedded templates *)
Definition lf : string := of_bytes [newline].
Definition managed_by : string := "# Managed by orch. Remove with: orch-server host-dns uninstall" +:+ lf.
Definition linuxResolvedDropIn (c : HostConfig) : string :=
  managed_by +:+ "[Resolve]" +:+ lf +:+ "DNS=" +:+ DNSServerEndpoint c +:+ lf +:+ "Domains=~" +:+ hc_Zone c +:+ lf.
Definition darwinResolverFile (c : HostConfig) : string :=
  managed_by +:+ "nameserver " +:+ hc_Nameserver c +:+ lf +:+ "port " +:+ Itoa (hc_Port c) +:+ lf.

Definition apostrophe : ascii := "'"%char.
Definition escapePowerShell (s : string) : string := ReplaceByte s apostrophe [apostrophe; apostrophe].
(** [{{ .Namespace }}] and [{{ .Nameserver }}] stand between apostrophes in the scripts. *)
Definition ps_assign (name value : string) : string := "$" +:+ name +:+ " = '" +:+ value +:+ "'" +:+ lf.
Definition ps_rules : string :=
  "$existing = @(Get-DnsClientNrptRule -ErrorAction SilentlyContinue | Where-Object { $_.Namespace -eq $ns -or $_.Namespace -contains $ns })" +:+ lf.
Definition ps_remove : string := "foreach ($rule in $existing) { Remove-DnsClientNrptRule -Name $rule.Name -Force }" +:+ lf.
Definition ps_namespace (c : HostConfig) : string := ps_assign "ns" ("." +:+ escapePowerShell (hc_Zone c)).
Definition ps_server (c : HostConfig) : string := ps_assign "server" (escapePowerShell (hc_Nameserver c)).
Definition windows_install_script (c : HostConfig) : string :=
  ps_namespace c +:+ ps_server c +:+ ps_rules +:+ ps_remove +:+
  "Add-DnsClientNrptRule -Namespace $ns -NameServers $server -Comment 'Managed by orch'" +:+ lf.
Definition windows_status_script (c : HostConfig) : string :=
  ps_namespace c +:+ ps_server c +:+ ps_rules +:+
  "$match = $existing | Where-Object { $_.NameServers -contains $server }" +:+ lf +:+
  "if ($match) { Write-Output 'installed' } else { Write-Output 'missing' }" +:+ lf.
Definition windows_uninstall_script (c : HostConfig) : string := ps_namespace c +:+ ps_rules +:+ ps_remove.

(** ** The managers *)

(** The files of the host, and the outside: systemd's manager or PowerShell. *)
Record DnsHost (O : Type) := mkDnsHost { dh_files : gmap string string; dh_outside : O }.
Arguments mkDnsHost {O}. Arguments dh_files {O}. Arguments dh_outside {O}.

Section managers.
Context {O : Type}.
Variables (mkdirAll writeFile readFile removeFile : DnsHost O → string → res unit).
(** What a write that failed leaves. *)
Variable residue : DnsHost O → string → option string.

Definition dh_answer (f : DnsHost O → res unit) : SE (DnsHost O) unit := λ h, (f h, h).
Definition write_file (path content : string) : SE (DnsHost O) unit := λ h,
  match writeFile h path with
  | Ok _ => (Ok tt, mkDnsHost (<[path := content]> (dh_files h)) (dh_outside h))
  | Err e => (Err e, mkDnsHost (partial_alter (λ _, residue h path) path (dh_files h)) (dh_outside h))
  end.
(** [os.ReadFile]; the error of a missing file is [ErrNotExist]. *)
Definition read_file (path : string) : SE (DnsHost O) string := λ h,
  (match dh_files h !! path with None => Err ErrNotExist | Some s => _ ← readFile h path; Ok s end, h).
(** [if err := os.Remove(path); err != nil && !os.IsNotExist(err)] *)
Definition remove_file (path : string) : SE (DnsHost O) unit := λ h,
  match dh_files h !! path with
  | None => (Ok tt, h)
  | Some _ =>
      match removeFile h path with
      | Ok _ => (Ok tt, mkDnsHost (delete path (dh_files h)) (dh_outside h))
      | Err e => if IsNotExist e then (Ok tt, h) else (Err e, h)
      end
  end.

(** The status of a file that should have [content]. *)
Definition file_status (path content : string) (c : HostConfig) (missing same differs : string) : SE (DnsHost O) HostStatus :=
  r ← attempt (read_file path);
  match r with
  | Err e => if IsNotExist e then mret (mkHostStatus true false missing c) else raise (Wrapf e "read %s" [AStr path])
  | Ok data =>
      let installed := (TrimSpace data =? TrimSpace content)%string in
      mret (mkHostStatus true installed (if installed then same else differs) c)
  end.

(** *** manager_linux.go *)
Variables (connect : O → res unit * O) (restart_unit : string → O → job * O).
Variable path : string.  (** [linuxManager.path] *)

Definition restartSystemdResolved : SE (DnsHost O) unit := λ h,
  let '(r, o) := connect (dh_outside h) in
  match r with
  | Err e => (Err e, mkDnsHost (dh_files h) o)
  | Ok _ =>
      let '(j, o') := restart_unit "systemd-resolved.service" o in
      (match j with
       | JobError e => Err (Wrapf e "restart unit" [])
       | JobCancelled e => Err e
       | JobResult result => guard_err (negb (TrimSpace result =? "done")%string) (Errorf "restart unit: %s" [AStr result])
       end, mkDnsHost (dh_files h) o')
  end.

Definition linux_Install (c : HostConfig) : SE (DnsHost O) unit :=
  _ ← annotate "create resolved drop-in dir" [] (dh_answer (λ h, mkdirAll h (filepath_Dir path)));
  _ ← annotate "write %s" [AStr path] (write_file path (linuxResolvedDropIn c));
  annotate "restart systemd-resolved" [] restartSystemdResolved.
Definition linux_Uninstall (_ : HostConfig) : SE (DnsHost O) unit :=
  _ ← annotate "remove %s" [AStr path] (remove_file path);
  annotate "restart systemd-resolved" [] restartSystemdResolved.
Definition linux_Status (c : HostConfig) : SE (DnsHost O) HostStatus :=
  file_status path (linuxResolvedDropIn c) c "systemd-resolved orch drop-in is not installed"
    "systemd-resolved drop-in is installed" "systemd-resolved drop-in exists but differs from desired orch config".

(** *** manager_darwin.go *)
Definition darwinResolverDir := "/etc/resolver".
Definition darwinResolverPath (c : HostConfig) : string := filepath_Join [darwinResolverDir; hc_Zone c].
Definition darwin_Install (c : HostConfig) : SE (DnsHost O) unit :=
  _ ← annotate "create %s" [AStr darwinResolverDir] (dh_answer (λ h, mkdirAll h darwinResolverDir));
  annotate "write %s" [AStr (darwinResolverPath c)] (write_file (darwinResolverPath c) (darwinResolverFile c)).
Definition darwin_Uninstall (c : HostConfig) : SE (DnsHost O) unit :=
  annotate "remove %s" [AStr (darwinResolverPath c)] (remove_file (darwinResolverPath c)).
Definition darwin_Status (c : HostConfig) : SE (DnsHost O) HostStatus :=
  file_status (darwinResolverPath c) (darwinResolverFile c) c "macOS resolver file is not installed"
    "macOS resolver file is installed" "macOS resolver file exists but differs from desired orch config".

(** *** manager_windows.go *)
Variable runner : string → O → res string * O.
Definition run_script (script : string) : SE (DnsHost O) string := λ h,
  let '(r, o) := runner script (dh_outside h) in (r, mkDnsHost (dh_files h) o).
Definition windows_Install (c : HostConfig) : SE (DnsHost O) unit :=
  _ ← of_res (requirePort53 c "Windows NRPT"); _ ← run_script (windows_install_script c); mret tt.
Definition windows_Uninstall (c : HostConfig) : SE (DnsHost O) unit := _ ← run_script (windows_uninstall_script c); mret tt.
(** [detail] is the text of an error. *)
Definition windows_Status `{UnicodeLower} (detail : error → string) (c : HostConfig) : SE (DnsHost O) HostStatus :=
  match requirePort53 c "Windows NRPT" with
  | Err e => mret (mkHostStatus false false (detail e) c)
  | Ok _ =>
      out ← run_script (windows_status_script c);
      let installed := Contains (ToLower out) "installed" in
      mret (mkHostStatus true installed
              (if installed then "Windows NRPT rule is installed" else "Windows NRPT rule is not installed") c)
  end.
End managers.

(** ** cmd/orch-server/host_dns_cmd.go *)
Definition executeHostDNSAction {S} (install uninstall : HostConfig → SE S unit) (action : string) (c : HostConfig) : SE S unit :=
  if (action =? "install")%string then annotate "install host dns" [] (install c)
  else if (action =? "uninstall")%string then annotate "uninstall host dns" [] (uninstall c)
  else raise (Errorf "unknown host-dns action %q" [AStr action]).

(** ** Lemmas *)
Section manager_lemmas.
Context {O : Type} (mkdirAll writeFile readFile removeFile : DnsHost O → string → res unit).
Context (residue : DnsHost O → string → option string).

Lemma write_file_Ok path content h h' : write_file writeFile residue path content h = (Ok tt, h') →
  h' = mkDnsHost (<[path := content]> (dh_files h)) (dh_outside h).
Proof. unfold write_file. destruct (writeFile h path); [|done]. by intros [= <-]. Qed.
Lemma remove_file_Ok path h h' : (∀ h p e, removeFile h p = Err e → IsNotExist e = false) →
  remove_file removeFile path h = (Ok tt, h') → h' = mkDnsHost (delete path (dh_files h)) (dh_outside h).
Proof.
  intros Hh. unfold remove_file. destruct (dh_files h !! path) eqn:E.
  - destruct (removeFile h path) eqn:Er; [by intros [= <-]|]. by rewrite (Hh _ _ _ Er).
  - intros [= <-]. rewrite delete_id by done. by destruct h.
Qed.
Lemma restart_files connect restart_unit h r h' : restartSystemdResolved (O := O) connect restart_unit h = (r, h') → dh_files h' = dh_files h.
Proof.
  unfold restartSystemdResolved. destruct (connect (dh_outside h)) as [[[]|e] o]; [|by intros [= _ <-]].
  destruct (restart_unit _ o) as [j o']. by intros [= _ <-].
Qed.

Lemma file_status_present path content c x y z h :
  dh_files h !! path = Some content → readFile h path = Ok tt →
  file_status readFile path content c x y z h = (Ok (mkHostStatus true true y c), h).
Proof.
  intros E Er. unfold file_status, mbind, SE_bind, attempt, read_file. rewrite E, Er. cbn. by rewrite String.eqb_refl.
Qed.
Lemma file_status_missing path content c x y z h :
  dh_files h !! path = None → file_status readFile path content c x y z h = (Ok (mkHostStatus true false x c), h).
Proof. intros E. unfold file_status, mbind, SE_bind, attempt, read_file. by rewrite E. Qed.
End manager_lemmas.

(** PowerShell reads a literal between apostrophes: two apostrophes are one, one ends it
    (about_Quoting_Rules; outside ASCII it takes other quotes for apostrophes too). *)
Fixpoint read_literal (fuel : nat) (l : list ascii) : option (list ascii * list ascii) :=
  match fuel, l with
  | S f, c :: r =>
      if Ascii.eqb c apostrophe then
        match r with
        | d :: r' => if Ascii.eqb d apostrophe then prod_map (cons apostrophe) id <$> read_literal f r' else Some ([], r)
        | [] => Some ([], [])
        end
      else prod_map (cons c) id <$> read_literal f r
  | _, _ => None
  end.

Lemma read_escaped s : ∀ fuel rest, length s < fuel → head rest ≠ Some apostrophe →
  read_literal fuel ((s ≫= λ c, if Ascii.eqb c apostrophe then [apostrophe; apostrophe] else [c]) ++ apostrophe :: rest) = Some (s, rest).
Proof.
  induction s as [|c s IH]; intros fuel rest Hf Hr; (destruct fuel as [|fuel]; [cbn in Hf; lia|]); cbn.
  - destruct rest as [|d rest]; [done|]. destruct (Ascii.eqb_spec d apostrophe) as [->|]; [done|]. done.
  - cbn in Hf. destruct (Ascii.eqb_spec c apostrophe) as [->|Hc].
    + cbn. rewrite IH by (lia || done). done.
    + cbn. destruct (Ascii.eqb_spec c apostrophe); [done|]. rewrite IH by (lia || done). done.
Qed.
