(* ===== verification/TaskInspect.v ===== *)
(** * The task service: looking at a running workload
      (internal/services/task/runtime_view.go, lifecycle.go and dispatcher.go: the worker reads)

    A read of the runtime's view of a workload goes to the runtime of the node it is assigned
    to: the local one, or a worker's over its API. *)
From stdpp Require Import base strings numbers gmap list.
From S2P Require Import Prelude GoStrings GoTime GoList Deploy Dependency Meta Fsm RaftService TaskBase TaskRun TaskDeploy TaskViews Runtime.

(** What the reads ask of the outside: the runtime's logs, and a worker's answers to
    [POST /api/v1/worker/status] and [/logs], whose inner result is the JSON decoding. *)
Class Inspect := {
  i_runtimeLogs : list event → string → Metadata → string → Z → res LogResult;
  i_workerStatus : list event → string → string → Metadata → Workload → res (res RuntimeStatus);
  i_workerLogs : list event → string → string → Metadata → Workload → Z → res (res LogResult) }.

(** ** dispatcher.go *)
Definition decodeWorkerStatus (data : res RuntimeStatus) (w : Workload) : res RuntimeStatus :=
  st ← wrap "decode worker status response" [] data;
  Ok (mkStatus (if (rs_Name st =? "")%string then TrimSpace (w_Name w) else rs_Name st)
        (if (rs_Runtime st =? "")%string then w_Runtime w else rs_Runtime st)
        (rs_Status st) (rs_NativeID st) (rs_StartedAt st) (rs_UpdatedAt st) (rs_Message st)).

Definition decodeWorkerLogs (data : res LogResult) (w : Workload) : res LogResult :=
  lr ← wrap "decode worker logs response" [] data;
  Ok (mkLogResult (if (lr_Name lr =? "")%string then TrimSpace (w_Name w) else lr_Name lr)
        (if (lr_Runtime lr =? "")%string then w_Runtime w else lr_Runtime lr) (lr_Source lr) (lr_Content lr)).

Section inspect.
Context `{Digest, World, Inspect} `{GraphLib} (cfg : TaskConfig).

(** [executeWorkerRaw]: the base URL of the node, then the call. *)
Definition executeWorkerRaw {A} (nodeID : string) (post : string → res A) : res A :=
  match NodeURL cfg nodeID with
  | None => Err (Errorf "no worker API URL configured for node %q (set cluster.nodes.%s)" [AStr nodeID; AStr nodeID])
  | Some baseURL => post baseURL
  end.

Definition dispatcher_WorkloadStatus (nodeID : string) (m : Metadata) (w : Workload) : M (res RuntimeStatus) :=
  s ← get;
  mret (raw ← executeWorkerRaw nodeID (λ url, i_workerStatus (ts_trace s) url nodeID m w); decodeWorkerStatus raw w).
Definition dispatcher_WorkloadLogs (nodeID : string) (m : Metadata) (w : Workload) (tail : Z) : M (res LogResult) :=
  s ← get;
  mret (raw ← executeWorkerRaw nodeID (λ url, i_workerLogs (ts_trace s) url nodeID m w tail); decodeWorkerLogs raw w).

Definition runtime_Logs (rt : string) (m : Metadata) (name : string) (tail : Z) : M (res LogResult) :=
  s ← get; mret (i_runtimeLogs (ts_trace s) rt m name tail).

(** ** runtime_view.go *)
Definition nonEmptyStatus (status fallback : string) : string :=
  let status := TrimSpace status in if negb (status =? "")%string then status else fallback.

(** The assignment and its node, when that is another node. *)
Definition remoteAssignment (meta : Metadata) (name : string) : M (option (Assignment * string)) :=
  a ← workloadAssignment meta name;
  mret (a ← a;
        let nodeID := TrimSpace (as_Node a) in
        if negb (nodeID =? "")%string && negb (nodeID =? tc_local cfg)%string then Some (a, nodeID) else None).

Definition remoteWorkloadRuntimeStatus (meta : Metadata) (w : Workload) (a : Assignment) (nodeID : string)
    : M (res RuntimeStatus) :=
  if negb (tc_dispatcher cfg)
  then mret (Ok (mkStatus (w_Name w) (w_Runtime w) (nonEmptyStatus (as_Status a) AppStatusPending) "" 0
                   (as_UpdatedAt a)
                   ("workload is assigned to remote node " +:+ nodeID +:+ " but worker dispatcher is unavailable")))
  else wrapM "read remote workload runtime status" [] (dispatcher_WorkloadStatus nodeID meta w).

Definition remoteWorkloadRuntimeLogs (meta : Metadata) (w : Workload) (nodeID : string) (tail : Z)
    : M (res LogResult) :=
  if negb (tc_dispatcher cfg)
  then fail (Errorf "workload %q is assigned to remote node %q but worker dispatcher is unavailable"
               [AStr (w_Name w); AStr nodeID])
  else wrapM "read remote workload runtime logs" [] (dispatcher_WorkloadLogs nodeID meta w tail).

Definition workload_not_found (meta : Metadata) (name : string) : error :=
  Errorf "workload %s/%s/%s not found" [AStr (md_Namespace meta); AStr (md_Name meta); AStr name].

Definition WorkloadRuntimeStatus (meta : Metadata) (name : string) : M (res RuntimeStatus) :=
  s ← get;
  match DesiredWorkload (fsm_of s) meta name with
  | None => fail (workload_not_found meta name)
  | Some w =>
      remote ← remoteAssignment meta (w_Name w);
      match remote with
      | Some (a, nodeID) => remoteWorkloadRuntimeStatus meta w a nodeID
      | None => wrapM "read workload runtime status" [] (runtime_Status (w_Runtime w) meta (w_Name w))
      end
  end.

Definition WorkloadRuntimeLogs (meta : Metadata) (name : string) (tail : Z) : M (res LogResult) :=
  s ← get;
  match DesiredWorkload (fsm_of s) meta name with
  | None => fail (workload_not_found meta name)
  | Some w =>
      remote ← remoteAssignment meta (w_Name w);
      match remote with
      | Some (_, nodeID) => remoteWorkloadRuntimeLogs meta w nodeID tail
      | None => wrapM "read workload runtime logs" [] (runtime_Logs (w_Runtime w) meta (w_Name w) tail)
      end
  end.

(** ** lifecycle.go: the worker's reads *)
Definition WorkerWorkloadRuntimeStatus (meta : Metadata) (w : Workload) (assignedNode : string)
    : M (res RuntimeStatus) :=
  try (mret (validateWorkerWorkload cfg meta w assignedNode)) (λ _,
    wrapM "read worker workload runtime status" [] (runtime_Status (w_Runtime w) meta (w_Name w))).
Definition WorkerWorkloadRuntimeLogs (meta : Metadata) (w : Workload) (assignedNode : string) (tail : Z)
    : M (res LogResult) :=
  try (mret (validateWorkerWorkload cfg meta w assignedNode)) (λ _,
    wrapM "read worker workload runtime logs" [] (runtime_Logs (w_Runtime w) meta (w_Name w) tail)).
End inspect.
