(* ===== verification/ApiServer.v ===== *)
(** * The HTTP API: handlers and the leader forwarder (internal/api)

    Every handler of the control plane's API.  A handler runs on one node: it reads and changes
    that node's task service and may send requests to another node's API, which are logged.
    The HTTP client (clientx), the JSON codec and the binding of requests (httpx) are parameters
    of the model. *)
From stdpp Require Import base strings numbers list gmap.
From Stdlib Require Import Ascii.
From S2P Require Import Prelude GoStrings GoTime GoNet GoList Deploy Dependency Meta GoText Fsm RaftService RaftMembers Vpn TaskBase TaskRun TaskDeploy TaskOps TaskViews Runtime OrchSchema Effects TaskInspect.

(** ** paths.go *)
Definition BasePath := "/api".
Definition PathReady := BasePath +:+ "/ready".
Definition PathHealth := BasePath +:+ "/health".
Definition PathV1Diagnostics := BasePath +:+ "/v1/diagnostics".
Definition PathV1Hostinfo := BasePath +:+ "/v1/hostinfo".
Definition PathV1RuntimeProviders := BasePath +:+ "/v1/system/runtimes".
Definition PathV1Apps := BasePath +:+ "/v1/apps".
Definition PathV1Workloads := BasePath +:+ "/v1/workloads".
Definition PathV1Assignments := BasePath +:+ "/v1/assignments".
Definition PathV1Volumes := BasePath +:+ "/v1/volumes".
Definition PathV1Deploy := BasePath +:+ "/v1/deploy".
Definition PathV1DeploySource := BasePath +:+ "/v1/deploy/source".
Definition PathV1RaftStatus := BasePath +:+ "/v1/raft/status".
Definition PathV1RaftMembers := BasePath +:+ "/v1/raft/members".
Definition PathV1OrchVPNBootstrap := BasePath +:+ "/v1/orch-vpn/bootstrap".
Definition PathV1WorkerDeploy := "/api/v1/worker/deploy".
Definition PathV1WorkerStop := "/api/v1/worker/stop".
Definition PathV1WorkerStatus := "/api/v1/worker/status".
Definition PathV1WorkerLogs := "/api/v1/worker/logs".

(** ** contracts.go: system *)
Record ReadyCheckItem := mkReadyCheck { ck_Name : string; ck_Ready : bool; ck_Status : string; ck_Detail : string }.
Record HealthOutput := mkHealthOutput {
  ho_Healthy : bool; ho_Status : string; ho_Timestamp : string; ho_Checks : list ReadyCheckItem }.
Record ReadyOutput := mkReadyOutput {
  ro_Ready : bool; ro_Status : string; ro_Timestamp : string; ro_Checks : list ReadyCheckItem }.

Record RuntimeProviderItem := mkProviderItem {
  pi_Kind : string; pi_Policy : string; pi_Available : bool; pi_Registered : bool; pi_Status : string;
  pi_Reason : string }.
Record RuntimeDiagnostics := mkRuntimeDiagnostics {
  rd_Registered : nat; rd_Available : nat; rd_Providers : list RuntimeProviderItem }.
(** [Snapshot] is the embedded diagnostics snapshot of package dixdiag. *)
Record DiagnosticsBody (Snapshot : Type) := mkDiagnostics { db_Snapshot : Snapshot; db_Runtime : RuntimeDiagnostics }.
Arguments mkDiagnostics {_}. Arguments db_Snapshot {_}. Arguments db_Runtime {_}.

(** ** contracts.go: views *)
Record WorkloadItem := mkWorkloadItem {
  wi_Name : string; wi_Node : string; wi_Runtime : string; wi_Artifact : string; wi_Status : string; wi_UpdatedAt : Z }.
Record AssignmentItem := mkAssignmentItem {
  ai_Key : string; ai_Metadata : Metadata; ai_Workload : string; ai_Node : string; ai_Address : string;
  ai_Runtime : string; ai_Artifact : string; ai_Status : string; ai_Generation : string; ai_Error : string;
  ai_UpdatedAt : Z }.
Record VolumeBindingItem := mkVolumeItem {
  vi_Key : string; vi_Metadata : Metadata; vi_Volume : string; vi_Workload : string; vi_Target : string;
  vi_Node : string; vi_Runtime : string; vi_Source : string; vi_Persistent : bool; vi_SizeBytes : Z;
  vi_Status : string; vi_Generation : string; vi_Error : string; vi_UpdatedAt : Z }.
Record AppItem := mkAppItem {
  ap_Name : string; ap_Namespace : string; ap_Status : string; ap_DesiredGeneration : string;
  ap_ObservedGeneration : string; ap_DesiredWorkloads : nat; ap_Running : nat; ap_Stopped : nat; ap_Failed : nat;
  ap_Pending : nat; ap_LastTransitionAt : Z; ap_LastError : string; ap_RevisionCount : nat;
  ap_RollbackAvailable : bool; ap_PreviousGeneration : string }.
Record AppWorkloadItem := mkAppWorkloadItem {
  aw_Name : string; aw_Kind : string; aw_Runtime : string; aw_Node : string; aw_Artifact : string;
  aw_Status : string; aw_Generation : string; aw_Error : string; aw_UpdatedAt : Z }.
Record AppDetailItem := mkAppDetail {
  ad_AppItem : AppItem; ad_Metadata : Metadata; ad_Workloads : list AppWorkloadItem }.
(** The path parameters of an operation on one application. *)
Record AppPathInput := mkAppPath { in_Namespace : string; in_Name : string }.
Record WorkloadRuntimeInput := mkRuntimeInput { wr_Namespace : string; wr_App : string; wr_Workload : string }.
Record WorkloadLogsInput := mkLogsInput { wl_path : WorkloadRuntimeInput; wl_Tail : Z }.

(** ** contracts.go: deploy *)
Record DeploySourceBody := mkSourceBody { sb_VirtualPath : string; sb_Source : string }.
Record DeployOutput := mkDeployOutput { do_Accepted : bool; do_App : string; do_Workloads : nat }.
Record DeleteDeployOutput := mkDeleteOutput {
  dd_Accepted : bool; dd_App : string; dd_Namespace : string; dd_Status : string }.
Record DeployActionBody := mkActionBody {
  da_Accepted : bool; da_App : string; da_Namespace : string; da_Status : string }.

(** ** contracts_operations.go, contracts_revisions.go *)
Record OperationBody := mkOperationBody { ob_TargetNode : string; ob_Workloads : list string }.
Record DeployOperationInput := mkOperationInput { oi_path : AppPathInput; oi_Body : OperationBody }.
Record DeployOperationOutput := mkOperationOutput {
  oo_Accepted : bool; oo_Operation : string; oo_App : string; oo_Namespace : string; oo_Target : string;
  oo_Selected : nat; oo_Moved : nat; oo_Status : string }.
Record AppRevisionItem := mkRevisionItem {
  ri_Generation : string; ri_Metadata : Metadata; ri_Workloads : nat; ri_App : App }.

(** ** contracts_cluster.go *)
Record RaftMemberItem := mkMemberItem { rm_ID : string; rm_Address : string; rm_Suffrage : string }.
Record RaftStatusOutput := mkRaftStatusOutput {
  rso_Ready : bool; rso_NodeID : string; rso_State : string; rso_IsLeader : bool; rso_LeaderID : string;
  rso_LeaderAddress : string; rso_LeaderAPIURL : string; rso_LocalAddress : string; rso_Message : string;
  rso_Members : list RaftMemberItem }.
Record AddMemberBody := mkMemberBody { am_ID : string; am_Address : string }.
Record AddRaftMemberOutput := mkAddOutput { ao_Accepted : bool; ao_Member : RaftMemberItem }.
Record RemoveRaftMemberOutput := mkRemoveOutput { rmo_Accepted : bool; rmo_ID : string }.
Record OrchVPNBootstrapOutput := mkVPNOutput {
  vo_Enabled : bool; vo_APIVersion : string; vo_Encap : string; vo_MTU : Z; vo_TunnelUDPPort : Z;
  vo_DNSZone : string; vo_ContainerRoutes : list string }.

(** ** workerapi/contracts.go *)
Record DeployWorkloadBody := mkDeployWorkload { dw_Metadata : Metadata; dw_Workload : Workload; dw_Node : string }.
Record DeployWorkloadOutput := mkDeployWorkloadOutput {
  dwo_Accepted : bool; dwo_Node : string; dwo_Address : string; dwo_Status : string; dwo_Workload : string }.
Record StopWorkloadBody := mkStopWorkload { sw_Metadata : Metadata; sw_Workload : Workload; sw_Node : string }.
Record StopWorkloadOutput := mkStopWorkloadOutput {
  swo_Accepted : bool; swo_Node : string; swo_Status : string; swo_Workload : string }.
Record WorkloadStatusBody := mkStatusBody { sy_Metadata : Metadata; sy_Workload : Workload; sy_Node : string }.
Record WorkloadLogsBody := mkLogsBody {
  lb_Metadata : Metadata; lb_Workload : Workload; lb_Node : string; lb_Tail : Z }.

(** ** The wire *)

(** The bytes of a body, as far as the code looks at them. *)
Class Wire := { raw : Type; raw_text : raw → string; raw_len : raw → nat }.

(** Encoding and decoding a Go type: [JSON.Marshal], [JSON.Unmarshal], and [accept], what the
    server's framework makes of the body of a request (decoding, then validation). *)
Class Json `{Wire} (A : Type) := { marshal : A → res raw; unmarshal : raw → res A; accept : option raw → res A }.

Record HttpRequest `{Wire} := mkRequest {
  rq_method : string; rq_path : string; rq_authorization : string; rq_body : option raw }.
Record HttpResponse `{Wire} := mkResponse { rp_status : string; rp_body : raw; rp_success : bool }.

Arguments mkRequest {_}. Arguments mkResponse {_}.

(** A client for a base URL; a request it executes, after the ones already sent. *)
Class Transport `{Wire} := {
  newClient : string → res unit;
  execute : list (string * HttpRequest) → string → HttpRequest → res HttpResponse }.

(** What else the handlers ask: the Raft membership, and the order in which Go iterates a map. *)
Class ApiEnv := {
  ae_membership : list event → res Membership;
  order_assignments : gmap string Assignment → list Assignment;
  order_bindings : gmap string Binding → list Binding;
  order_records : gmap string WorkloadRecord → list WorkloadRecord }.

(** The configuration the API reads. *)
Record ApiConfig := mkApiConfig {
  ac_task : TaskConfig; ac_WorkerToken : string; ac_AuthEnabled : bool; ac_JWTSecret : string;
  ac_OrchVPN : OrchVPNConfig; ac_DNSZone : string }.

(** A node seen from its API: its task service, and the requests it sent. *)
Record Node `{Wire} := mkNode { nd_task : TaskState; nd_sent : list (string * HttpRequest) }.
Arguments mkNode {_}.

Section server.
Context `{Wire} `{!Transport} `{Digest, Codec} `{!World, Inspect} `{ListSort, GraphLib, ReplicaOrder}.
Context `{ManifestLoader, ApiEnv}.
Context (cfg : ApiConfig).

Definition Handler (A : Type) : Type := SE Node A.

(** A call of the task service, and a read of it. *)
Definition task_call {A} (m : M (res A)) : Handler A := λ n,
  let '(r, t) := m (nd_task n) in (r, mkNode t (nd_sent n)).
Definition task_view {A} (f : TaskState → A) : Handler A := λ n, (Ok (f (nd_task n)), n).

(** [raft.Status(ctx)] *)
Definition raft_Status (t : TaskState) : res Status :=
  status_of w_errorText (Ok tt) (Ok tt) (GetLeaderID (w_nodeHost (ts_trace t))) (ae_membership (ts_trace t)) (ts_raft t).

(** ** leader_forwarder.go *)

(** The [Authorization] header of the client for the leader. *)
Definition leader_authorization : string :=
  let tok := TrimSpace (ac_WorkerToken cfg) in if negb (tok =? "")%string then "Bearer " +:+ tok else "".

Definition newLeaderClient (baseURL : string) : Handler string :=
  let base := TrimRightByte baseURL "/"%char in
  _ ← annotate "create leader HTTP client" [] (of_res (newClient base)); mret base.

Definition send (base : string) (rq : HttpRequest) : Handler HttpResponse := λ n,
  (execute (nd_sent n) base rq, mkNode (nd_task n) (nd_sent n ++ [(base, rq)])).

Definition executeForwardedJSON {B} `{!Json B} (base method path : string) (body : option B) : Handler HttpResponse :=
  raw ← match body with
        | Some b => r ← annotate "encode forwarded request" [] (of_res (marshal b)); mret (Some r)
        | None => mret None
        end;
  annotate "forward request to raft leader" [] (send base (mkRequest method path leader_authorization raw)).

(** [out] is the value the answer is decoded into. *)
Definition decodeForwardedJSON {O} `{!Json O} (rp : HttpResponse) (out : O) : res O :=
  if negb (rp_success rp)
  then Err (Errorf "forwarded request failed: %s: %s" [AStr (rp_status rp); AStr (TrimSpace (raw_text (rp_body rp)))])
  else if (raw_len (rp_body rp) =? 0)%nat then Ok out
  else wrap "decode forwarded response" [] (unmarshal (rp_body rp)).

(** [None]: not forwarded, the request is served here. *)
Definition forwardJSON {B O} `{!Json B, !Json O} (method path : string) (body : option B) (out : O)
    : Handler (option O) :=
  st ← task_view raft_Status;
  target ← of_res (leaderBaseURL (NodeURL (ac_task cfg)) st);
  match target with
  | None => mret None
  | Some baseURL =>
      base ← newLeaderClient baseURL;
      rp ← executeForwardedJSON base method path body;
      o ← of_res (decodeForwardedJSON rp out); mret (Some o)
  end.

Definition ForwardPost {B O} `{!Json B, !Json O} (path : string) (body : B) (out : O) : Handler (option O) :=
  forwardJSON "POST" path (Some body) out.
Definition ForwardDelete {O} `{!Json unit, !Json O} (path : string) (out : O) : Handler (option O) :=
  forwardJSON (B := unit) "DELETE" path None out.

(** [if forwarded, err := forward; err != nil { return wrapped } else if forwarded { return out }] *)
Definition forwarded_or {O} (fmt : string) (args : list arg) (forward : Handler (option O)) (here : Handler O)
    : Handler O :=
  out ← annotate fmt args forward;
  match out with Some out => mret out | None => here end.

(** ** endpoint_deploy.go, endpoint_deploy_source.go *)
Definition accepted_app (app : App) : DeployOutput :=
  mkDeployOutput true (md_Name (app_Metadata app)) (length (app_Workloads app)).

Definition deploy_handle `{!Json App, !Json DeployOutput} (body : App) : Handler DeployOutput :=
  forwarded_or "forward deploy app" [] (ForwardPost PathV1Deploy body (mkDeployOutput false "" 0))
    (_ ← annotate "deploy app" [] (task_call (SubmitDeploy body)); mret (accepted_app body)).

Definition deploy_source_handle `{!Json DeploySourceBody, !Json DeployOutput} (body : DeploySourceBody)
    : Handler DeployOutput :=
  let vp := TrimSpace (sb_VirtualPath body) in
  if (vp =? "")%string then raise (Errorf "virtualPath is required" [])
  else
    forwarded_or "forward deploy source" [] (ForwardPost PathV1DeploySource body (mkDeployOutput false "" 0))
      (app ← annotate "parse deploy source" [] (of_res (load_app vp (sb_Source body)));
       _ ← annotate "deploy app" [] (task_call (SubmitDeploy app)); mret (accepted_app app)).

(** ** endpoint_deploy_action.go *)
Inductive action := AStart | AStop | ARestart | ARollback.

Record deployActionConfig := mkActionConfig {
  cf_suffix : string; cf_operationID : string; cf_action : string; cf_status : string;
  cf_submit : Metadata → M (res unit) }.

Definition action_config (a : action) : deployActionConfig :=
  match a with
  | AStart => mkActionConfig "start" "startDeployApp" "start" AssignmentStatusRunning (SubmitStart (ac_task cfg))
  | AStop => mkActionConfig "stop" "stopDeployApp" "stop" AssignmentStatusStopped (SubmitStop (ac_task cfg))
  | ARestart => mkActionConfig "restart" "restartDeployApp" "restart" AssignmentStatusRunning (SubmitRestart (ac_task cfg))
  | ARollback => mkActionConfig "rollback" "rollbackDeployApp" "rollback" "accepted" SubmitRollback
  end.

Definition path_meta (i : AppPathInput) : Metadata := mkMetadata (in_Name i) (in_Namespace i) ∅ ∅.

Definition app_path (meta : Metadata) : string :=
  PathV1Deploy +:+ "/" +:+ PathEscape (md_Namespace meta) +:+ "/" +:+ PathEscape (md_Name meta).
Definition forwardPath (c : deployActionConfig) (meta : Metadata) : string :=
  app_path meta +:+ "/" +:+ cf_suffix c.

Definition action_execute `{!Json unit, !Json DeployActionBody} (a : action) (meta : Metadata)
    : Handler DeployActionBody :=
  let c := action_config a in
  forwarded_or "forward %s app" [AStr (cf_action c)]
    (ForwardPost (forwardPath c meta) tt (mkActionBody false "" "" ""))
    (_ ← annotate "%s app" [AStr (cf_action c)] (task_call (cf_submit c meta));
     mret (mkActionBody true (md_Name meta) (NamespaceOrDefault (md_Namespace meta)) (cf_status c))).
Definition action_handle `{!Json unit, !Json DeployActionBody} (a : action) (i : AppPathInput)
    : Handler DeployActionBody := action_execute a (path_meta i).

(** ** endpoint_deploy_delete.go *)
Definition delete_handle `{!Json unit, !Json DeleteDeployOutput} (i : AppPathInput) : Handler DeleteDeployOutput :=
  let meta := path_meta i in
  forwarded_or "forward delete app" [] (ForwardDelete (app_path meta) (mkDeleteOutput false "" "" ""))
    (_ ← annotate "delete app" [] (task_call (SubmitDelete (ac_task cfg) meta));
     mret (mkDeleteOutput true (md_Name meta) (NamespaceOrDefault (md_Namespace meta)) AssignmentStatusStopped)).

(** ** endpoint_deploy_operations.go *)
Definition fillDeployOperationOutput (su : AppOperationSummary) : DeployOperationOutput :=
  mkOperationOutput true (su_Operation su) (su_App su) (su_Namespace su) (su_TargetNode su) (su_Workloads su)
    (su_Moved su) (su_Status su).

(** The three operations return a summary beside the error. *)
Definition summary_call (m : M (AppOperationSummary * res unit)) : M (res AppOperationSummary) :=
  p ← m; mret (_ ← p.2; Ok p.1).

Definition submit_operation (operation : string) (meta : Metadata) (opts : AppOperationOptions)
    : M (res AppOperationSummary) :=
  if (operation =? OperationMigrate)%string then summary_call (SubmitMigrate (ac_task cfg) meta opts)
  else if (operation =? OperationFailover)%string then summary_call (SubmitFailover (ac_task cfg) meta opts)
  else if (operation =? OperationRebalance)%string then summary_call (SubmitRebalance (ac_task cfg) meta opts)
  else fail (Errorf "unknown deploy operation %q" [AStr operation]).

Definition handleDeployOperation `{!Json OperationBody, !Json DeployOperationOutput} (i : DeployOperationInput)
    (operation : string) : Handler DeployOperationOutput :=
  let meta := path_meta (oi_path i) in
  forwarded_or "forward %s app" [AStr operation]
    (ForwardPost (app_path meta +:+ "/" +:+ operation) (oi_Body i) (mkOperationOutput false "" "" "" "" 0 0 ""))
    (su ← annotate "%s app" [AStr operation]
            (task_call (submit_operation operation meta
               (mkOpOptions (ob_TargetNode (oi_Body i)) (ob_Workloads (oi_Body i)))));
     mret (fillDeployOperationOutput su)).
End server.
