(* ===== verification/ApiReads.v ===== *)
(** * The HTTP API: views, worker, Raft and system endpoints (internal/api)

    The handlers that read, the ones a worker serves for the scheduling node, the membership
    of the Raft group, and the system endpoints: readiness, health, runtimes, diagnostics and
    the bootstrap of the VPN. *)
From stdpp Require Import base strings numbers gmap list.
From Stdlib Require Import Ascii.
From S2P Require Import Prelude GoStrings GoTime GoNet GoList Deploy Dependency Meta GoText Fsm RaftService RaftMembers Vpn TaskBase TaskRun TaskDeploy TaskOps TaskViews Dns Runtime OrchSchema Effects TaskInspect ApiServer.

(** ** endpoint_apps.go *)
Definition appItem (app : AppView) : AppItem :=
  mkAppItem (md_Name (av_Metadata app)) (NamespaceOrDefault (md_Namespace (av_Metadata app))) (av_Status app)
    (av_DesiredGeneration app) (av_ObservedGeneration app) (av_DesiredWorkloads app) (av_Running app)
    (av_Stopped app) (av_Failed app) (av_Pending app) (av_LastTransitionAt app) (av_LastError app)
    (av_RevisionCount app) (av_RollbackAvailable app) (av_PreviousGeneration app).

Definition appWorkloadItem (w : AppWorkloadView) : AppWorkloadItem :=
  mkAppWorkloadItem (wv_Name w) (wv_Kind w) (wv_Runtime w) (wv_Node w) (wv_Artifact w) (wv_Status w)
    (wv_Generation w) (wv_Error w) (wv_UpdatedAt w).
Definition appDetailItem (app : AppView) : AppDetailItem :=
  mkAppDetail (appItem app) (av_Metadata app) (appWorkloadItem <$> av_Workloads app).

(** ** endpoint_assignments.go, endpoint_volumes.go, endpoint_workloads.go, endpoint_raft_members.go *)
Definition assignmentItem (a : Assignment) : AssignmentItem :=
  mkAssignmentItem (as_Key a) (as_Metadata a) (as_Workload a) (as_Node a) (as_Address a) (as_Runtime a)
    (as_Artifact a) (as_Status a) (as_Generation a) (as_Error a) (as_UpdatedAt a).
Definition volumeItem (b : Binding) : VolumeBindingItem :=
  mkVolumeItem (bd_Key b) (bd_Metadata b) (bd_Volume b) (bd_Workload b) (bd_Target b) (bd_Node b) (bd_Runtime b)
    (bd_Source b) (bd_Persistent b) (bd_SizeBytes b) (bd_Status b) (bd_Generation b) (bd_Error b) (bd_UpdatedAt b).
Definition workloadItem (r : WorkloadRecord) : WorkloadItem :=
  mkWorkloadItem (wrec_Name r) (wrec_Node r) (wrec_Runtime r) (wrec_Artifact r) (wrec_Status r) (wrec_UpdatedAt r).
Definition raftMemberItem (m : Member) : RaftMemberItem := mkMemberItem (mb_ID m) (mb_Address m) (mb_Suffrage m).

(** The name and namespace of a path, without surrounding space. *)
Definition trimmed_meta (i : AppPathInput) : Metadata :=
  mkMetadata (TrimSpace (in_Name i)) (TrimSpace (in_Namespace i)) ∅ ∅.
Definition api_app_not_found (meta : Metadata) : error :=
  Errorf "app %s/%s not found" [AStr (NamespaceOrDefault (md_Namespace meta)); AStr (md_Name meta)].

Section reads.
Context `{Wire} `{!Transport} `{Digest, Codec} `{!World, Inspect} `{ListSort, GraphLib, ReplicaOrder}.
Context `{ManifestLoader, ApiEnv}.
Context (cfg : ApiConfig).

Definition apps_list : Handler (list AppItem) :=
  task_view (λ t, appItem <$> ListApps (fsm_of t) (w_order (ts_trace t) (DeployApps (state (fsm_of t))))).

Definition apps_get (i : AppPathInput) : Handler AppDetailItem :=
  let meta := trimmed_meta i in
  if (md_Name meta =? "")%string then raise (Errorf "app name is required" [])
  else
    app ← task_view (λ t, GetApp (fsm_of t) meta);
    match app with
    | None => raise (api_app_not_found meta)
    | Some app => mret (appDetailItem app)
    end.

(** ** endpoint_deploy_revisions.go *)
Definition revisions_handle (i : AppPathInput) : Handler (list AppRevisionItem) :=
  let meta := trimmed_meta i in
  if (md_Name meta =? "")%string then raise (Errorf "app name is required" [])
  else
    found ← task_view (λ t, ListAppRevisions (fsm_of t) meta);
    if (found.2 : bool)
    then mret ((λ r, mkRevisionItem (rv_Generation r) (rv_Metadata r) (rv_Workloads r) (rv_App r)) <$> found.1)
    else raise (api_app_not_found meta).

Definition assignments_handle : Handler (list AssignmentItem) :=
  task_view (λ t, assignmentItem <$> ListWorkloadAssignments (order_assignments (Assignments (state (fsm_of t))))).
Definition volumes_handle : Handler (list VolumeBindingItem) :=
  task_view (λ t, volumeItem <$> ListVolumeBindings (order_bindings (VolumeBindings (state (fsm_of t))))).
Definition workloads_handle : Handler (list WorkloadItem) :=
  task_view (λ t, workloadItem <$> registry_List (order_records (ts_registry t))).

(** ** endpoint_workload_runtime.go *)
Definition workloadRuntimePath (i : WorkloadRuntimeInput) : res (Metadata * string) :=
  let meta := mkMetadata (TrimSpace (wr_App i)) (TrimSpace (wr_Namespace i)) ∅ ∅ in
  let workloadName := TrimSpace (wr_Workload i) in
  if (md_Name meta =? "")%string then Err (Errorf "app name is required" [])
  else if (workloadName =? "")%string then Err (Errorf "workload name is required" [])
  else Ok (meta, workloadName).

Definition runtime_status_handle (i : WorkloadRuntimeInput) : Handler RuntimeStatus :=
  p ← of_res (workloadRuntimePath i);
  annotate "get workload runtime status" [] (task_call (WorkloadRuntimeStatus (ac_task cfg) p.1 p.2)).
Definition runtime_logs_handle (i : WorkloadLogsInput) : Handler LogResult :=
  p ← of_res (workloadRuntimePath (wl_path i));
  annotate "get workload logs" [] (task_call (WorkloadRuntimeLogs (ac_task cfg) p.1 p.2 (wl_Tail i))).

(** ** endpoint_worker_*.go *)
Definition worker_deploy_handle (b : DeployWorkloadBody) : Handler DeployWorkloadOutput :=
  address ← annotate "deploy worker workload" []
    (task_call (DeployWorkerWorkload (ac_task cfg) (dw_Metadata b) (dw_Workload b) (dw_Node b)));
  mret (mkDeployWorkloadOutput true (dw_Node b) address "running" (w_Name (dw_Workload b))).
Definition worker_stop_handle (b : StopWorkloadBody) : Handler StopWorkloadOutput :=
  _ ← annotate "stop worker workload" []
    (task_call (StopWorkerWorkload (ac_task cfg) (sw_Metadata b) (sw_Workload b) (sw_Node b)));
  mret (mkStopWorkloadOutput true (sw_Node b) AssignmentStatusStopped (w_Name (sw_Workload b))).
Definition worker_status_handle (b : WorkloadStatusBody) : Handler RuntimeStatus :=
  annotate "worker workload status" []
    (task_call (WorkerWorkloadRuntimeStatus (ac_task cfg) (sy_Metadata b) (sy_Workload b) (sy_Node b))).
Definition worker_logs_handle (b : WorkloadLogsBody) : Handler LogResult :=
  annotate "worker workload logs" []
    (task_call (WorkerWorkloadRuntimeLogs (ac_task cfg) (lb_Metadata b) (lb_Workload b) (lb_Node b) (lb_Tail b))).

(** ** endpoint_raft_members.go *)

(** A membership operation on the Raft service. *)
Definition raft_service_call (f : NodeHost → Service → res unit * Service) : Handler unit := λ n,
  let t := nd_task n in
  let '(r, sv) := f (w_nodeHost (ts_trace t)) (ts_raft t) in (r, mkNode (set_raft sv t) (nd_sent n)).

Definition raft_members_list : Handler (list RaftMemberItem) :=
  members ← task_view (λ t, ListMembers (Ok tt) (ae_membership (ts_trace t)) (ts_raft t));
  members ← annotate "list raft members" [] (of_res members);
  mret (raftMemberItem <$> members).

Definition raft_members_add `{!Json AddMemberBody, !Json AddRaftMemberOutput} (b : AddMemberBody)
    : Handler AddRaftMemberOutput :=
  let id := TrimSpace (am_ID b) in
  let address := TrimSpace (am_Address b) in
  forwarded_or "forward add raft voter" []
    (ForwardPost cfg PathV1RaftMembers b (mkAddOutput false (mkMemberItem "" "" "")))
    (_ ← annotate "add raft voter" [] (raft_service_call (λ nh, AddVoter nh (Ok tt) id address));
     mret (mkAddOutput true (mkMemberItem id address "Voter"))).

Definition raft_members_remove `{!Json unit, !Json RemoveRaftMemberOutput} (rawID : string)
    : Handler RemoveRaftMemberOutput :=
  let id := TrimSpace rawID in
  forwarded_or "forward remove raft member" []
    (ForwardDelete cfg (PathV1RaftMembers +:+ "/" +:+ PathEscape id) (mkRemoveOutput false ""))
    (_ ← annotate "remove raft member" [] (raft_service_call (λ nh, RemoveServer nh (Ok tt) id));
     mret (mkRemoveOutput true id)).

(** ** endpoint_raft_status.go *)
Definition raft_status_handle : Handler RaftStatusOutput :=
  st ← task_view raft_Status;
  st ← annotate "get raft status" [] (of_res st);
  mret (mkRaftStatusOutput (st_Ready st) (st_NodeID st) (st_State st) (st_IsLeader st) (st_LeaderID st)
          (st_LeaderAddress st) (default "" (NodeURL (ac_task cfg) (st_LeaderID st))) (st_LocalAddress st)
          (st_Message st) (raftMemberItem <$> st_Members st)).
End reads.

(** * The HTTP API: system endpoints (internal/api: endpoint_ready.go, endpoint_health.go,
      health_checks.go, runtime_providers.go, endpoint_diagnostics.go, endpoint_orchvpn.go;
      config/dns.go: TunnelUDPPort)

    Readiness of a node for cluster operations, its health, the runtimes it registered and the
    parameters a VPN client starts from. *)
(** ** runtime_providers.go *)
Section providers.
Context `{ListSort}.

Definition providerItem (st : ProviderStatus) : RuntimeProviderItem :=
  mkProviderItem (ps_Kind st) (ps_Policy st) (ps_Available st) (ps_Registered st) (ps_Status st) (ps_Reason st).
Definition runtimeProviderItems (m : option Manager) : list RuntimeProviderItem :=
  match m with None => [] | Some m => providerItem <$> ProviderStatuses m end.

Definition runtimeDiagnostics (m : option Manager) : RuntimeDiagnostics :=
  let providers := runtimeProviderItems m in
  mkRuntimeDiagnostics (length (filter (λ p, pi_Registered p = true) providers))
    (length (filter (λ p, pi_Available p = true) providers)) providers.

Definition runtimeProviderMissingDetail (p : RuntimeProviderItem) : string :=
  String.concat ": " (TrimSpace (pi_Kind p) :: if negb (pi_Reason p =? "")%string then [pi_Reason p] else []).

Definition runtimeReadiness (m : option Manager) : ReadyCheckItem :=
  match m with
  | None => mkReadyCheck "runtime" false "not_ready" "runtime manager unavailable"
  | Some _ =>
      let providers := runtimeProviderItems m in
      let registered := pi_Kind <$> filter (λ p, pi_Registered p = true) providers in
      let missingRequired := runtimeProviderMissingDetail <$>
        filter (λ p, pi_Policy p = RuntimeProviderPolicyRequired ∧ pi_Registered p = false) providers in
      match missingRequired, registered with
      | _ :: _, _ => mkReadyCheck "runtime" false "missing" (String.concat "; " missingRequired)
      | [], [] => mkReadyCheck "runtime" false "not_ready" "no runtime providers registered"
      | [], _ => mkReadyCheck "runtime" true "ready" ("registered: " +:+ String.concat ", " registered)
      end
  end.
End providers.

(** ** health_checks.go *)

(** [dix.HealthReport]: the checks in the order the map is iterated, and its verdict. *)
Record HealthReport := mkReport { hr_Checks : list (string * option error); hr_Healthy : bool }.
(** Documented: a report is healthy when no check failed. *)
Definition report_ok (r : HealthReport) : Prop := hr_Healthy r = true ↔ Forall (λ c, c.2 = None) (hr_Checks r).

Definition healthCheckStatus (err : option error) : string := if err is Some _ then "error" else "ok".

Section system.
Context `{ListSort} (errorText : error → string).

Definition dixHealthItem (namePrefix : string) (c : string * option error) : ReadyCheckItem :=
  mkReadyCheck (namePrefix +:+ c.1) (if c.2 is Some _ then false else true) (healthCheckStatus c.2)
    (if c.2 is Some e then errorText e else "").
Definition dixHealthItems (prefix : string) (report : HealthReport) : list ReadyCheckItem :=
  list_sort (by_key ck_Name) (dixHealthItem (TrimSpace prefix) <$> hr_Checks report).

(** ** endpoint_health.go; [report] is absent without a diagnostics service. *)
Definition healthStatus (healthy : bool) : string := if healthy then "ok" else "unhealthy".
Definition health_handle (report : option HealthReport) (timestamp : string) : HealthOutput :=
  let healthy := if report is Some r then hr_Healthy r else true in
  mkHealthOutput healthy (healthStatus healthy) timestamp
    (if report is Some r then dixHealthItems "" r else []).

(** ** endpoint_ready.go *)
Definition readyStatus (ready : bool) : string := if ready then "ready" else "not_ready".

Definition writeReadiness (nodeURL : string → option string) (st : Status) : bool * string :=
  if st_IsLeader st then (true, "")
  else if (st_LeaderID st =? "")%string then (false, "leader is not known")
  else match nodeURL (st_LeaderID st) with
       | Some leaderURL => (true, "writes forward to " +:+ leaderURL)
       | None => (false, "configure cluster.nodes." +:+ st_LeaderID st +:+ " or target the leader API")
       end.

(** The checks, whether Raft is ready and whether writes are; [None] without a Raft service. *)
Definition addRaftReadiness (nodeURL : string → option string) (status : option (res Status))
    : list ReadyCheckItem * bool * bool :=
  match status with
  | None => ([mkReadyCheck "raft" false "not_ready" "raft service unavailable";
              mkReadyCheck "writes" false "not_ready" "raft service unavailable"], false, false)
  | Some (Err e) => ([mkReadyCheck "raft" false "error" (errorText e);
                      mkReadyCheck "writes" false "error" (errorText e)], false, false)
  | Some (Ok st) =>
      let raftReady := st_Ready st && negb (st_LeaderID st =? "")%string in
      let '(writeReady, detail) := writeReadiness nodeURL st in
      ([mkReadyCheck "raft" raftReady (st_State st) (st_Message st);
        mkReadyCheck "writes" writeReady (readyStatus writeReady) detail], raftReady, writeReady)
  end.

Definition ready_handle (nodeURL : string → option string) (status : option (res Status)) (rt : option Manager)
    (report : option HealthReport) (timestamp : string) : ReadyOutput :=
  let '(raftChecks, raftReady, writeReady) := addRaftReadiness nodeURL status in
  let runtime := runtimeReadiness rt in
  let dixChecks := if report is Some r then dixHealthItems "dix/" r else [] in
  let dixReady := if report is Some r then hr_Healthy r else true in
  let ready := raftReady && writeReady && ck_Ready runtime && dixReady in
  mkReadyOutput ready (readyStatus ready) timestamp
    (mkReadyCheck "http" true "ok" "" :: raftChecks ++ [runtime] ++ dixChecks).

(** ** endpoint_runtime_providers.go, endpoint_diagnostics.go *)
Definition runtime_providers_handle (rt : option Manager) : list RuntimeProviderItem := runtimeProviderItems rt.
Definition diagnostics_handle {Snapshot} (snapshot : Snapshot) (rt : option Manager) : DiagnosticsBody Snapshot :=
  mkDiagnostics snapshot (runtimeDiagnostics rt).

(** ** config/dns.go, endpoint_orchvpn.go *)
Definition TunnelUDPPort (c : OrchVPNConfig) : Z :=
  match SplitHostPort (ListenUDPOrDefault c) with
  | Err _ => 15888
  | Ok (_, portStr) =>
      match Atoi portStr with
      | None => 15888
      | Some p => if (p <=? 0)%Z then 15888 else p
      end
  end.

Definition orchVPNEncapV0 := "orch-vpn/encap-v0".

(** [routes]: the host routes of the DNS service, [None] without it. *)
Definition orchvpn_bootstrap_handle (v : OrchVPNConfig) (dnsZone : string) (routes : option (list string))
    : OrchVPNBootstrapOutput :=
  let z := TrimRightByte (TrimSpace dnsZone) "."%char in
  mkVPNOutput (vpn_Enabled v) "0" orchVPNEncapV0 1280 (TunnelUDPPort v)
    (if (z =? "")%string then "orch.local" else z) (default [] routes).
End system.
