(* ===== verification/HttpServer.v ===== *)
(** * The HTTP server: routes and authentication (internal/api/routes.go and the endpoints'
      registrations, internal/httpserver/fiber_runtime.go, internal/security/auth)

    Which operation a request reaches, and what it must present first.  The router, the request
    binding and the middleware chain are Fiber's and httpx's, the JWT check is authx's: they are
    parameters, with what the code relies on as laws. *)
From stdpp Require Import base strings numbers gmap list.
From Stdlib Require Import Ascii.
From S2P Require Import Prelude GoStrings GoTime GoNet GoList Deploy Dependency Meta GoText Fsm RaftService RaftMembers Vpn TaskBase TaskRun TaskDeploy TaskOps TaskViews Dns Runtime OrchSchema Effects TaskInspect ApiServer ApiReads.

(** ** security/auth *)

(** The credential of a request: the token of its [Authorization] header. *)
Definition resolve_credential (header : string) : res string :=
  let raw := TrimSpace header in
  if (raw =? "")%string then Err (Errorf "authorization header is missing" [])
  else if negb (HasPrefix raw "Bearer ") then Err (Errorf "authorization must use bearer token" [])
  else Ok (TrimSpace (TrimPrefix raw "Bearer ")).

Inductive AuthProvider := JwtPlaceholder | JwtHS256 (secret : string).

(** [authx/jwt]: the principal of a token that verifies under an HMAC secret. *)
Class JwtLib := { principal : Type; verify_HS256 : string → string → res principal }.

Section auth.
Context `{JwtLib} (cfg : ApiConfig).

Definition NewJWTAuthenticationProvider : res AuthProvider :=
  if negb (ac_AuthEnabled cfg) then Ok JwtPlaceholder
  else if (TrimSpace (ac_JWTSecret cfg) =? "")%string
  then Err (Errorf "auth enabled but ORCH auth JWT secret is empty (set ORCH_AUTH_JWT_SECRET or equivalent)" [])
  else Ok (JwtHS256 (ac_JWTSecret cfg)).

Definition AuthenticateAny (p : AuthProvider) (token : string) : res principal :=
  match p with
  | JwtPlaceholder => Err (Errorf "JWT provider is disabled" [])
  | JwtHS256 secret => verify_HS256 secret token
  end.

(** The registered providers and the authorizer, which allows any principal. *)
Record Engine := mkEngine { en_providers : list AuthProvider; en_authorize : option (option principal → bool * string) }.

Definition NewEngine (jwt : option AuthProvider) : res Engine :=
  if negb (ac_AuthEnabled cfg) then Ok (mkEngine [] None)
  else match jwt with
       | None => Err (Errorf "JWT authentication provider is required when auth is enabled" [])
       | Some jwt =>
           Ok (mkEngine [jwt] (Some (λ p, match p with
                                          | None => (false, "anonymous is not allowed")
                                          | Some _ => (true, "authenticated")
                                          end)))
       end.

Record Guard := mkGuard { gd_engine : Engine; gd_resolver : option (string → res string) }.

Definition NewGuard (engine : option Engine) : res Guard :=
  match engine with
  | None => if negb (ac_AuthEnabled cfg) then Ok (mkGuard (mkEngine [] None) None)
            else Err (Errorf "guard requires non-nil engine when auth is enabled" [])
  | Some e => Ok (mkGuard e (if ac_AuthEnabled cfg then Some resolve_credential else None))
  end.

(** The guard as the modules of the program put it together. *)
Definition auth_guard : res Guard :=
  jwt ← NewJWTAuthenticationProvider; engine ← NewEngine (Some jwt); NewGuard (Some engine).
End auth.

(** ** The routes *)
Inductive Operation :=
| OpHealth | OpReady | OpDiagnostics | OpHostinfo | OpRuntimes | OpVPNBootstrap
| OpListApps | OpGetApp | OpListWorkloads | OpWorkloadStatus | OpWorkloadLogs | OpListAssignments | OpListVolumes
| OpRaftStatus | OpListMembers | OpAddMember | OpRemoveMember
| OpDeploy | OpAction (a : action) | OpRevisions | OpOperation (name : string) | OpDelete | OpDeploySource
| OpWorkerDeploy | OpWorkerStop | OpWorkerStatus | OpWorkerLogs.

(** [rt_secured]: the OpenAPI document asks for [bearerAuth]. *)
Record Route := mkRoute { rt_method : string; rt_template : string; rt_operation : Operation; rt_secured : bool }.

(** An endpoint: its prefix under the base path, its security, and the handlers it registers. *)
Definition endpoint (prefix : string) (secured : bool) (ops : list (string * string * Operation)) : list Route :=
  (λ '(method, sub, op), mkRoute method (BasePath +:+ prefix +:+ sub) op secured) <$> ops.

Definition health_endpoint : list Route := endpoint "/health" false [("GET", "", OpHealth)].
Definition ready_endpoint : list Route := endpoint "/ready" false [("GET", "", OpReady)].
Definition diagnostics_endpoint : list Route := endpoint "/v1/diagnostics" false [("GET", "", OpDiagnostics)].
Definition hostinfo_endpoint : list Route := endpoint "/v1/hostinfo" false [("GET", "", OpHostinfo)].
Definition runtime_providers_endpoint : list Route := endpoint "/v1/system/runtimes" false [("GET", "", OpRuntimes)].
Definition orchvpn_endpoint : list Route := endpoint "/v1/orch-vpn/bootstrap" false [("GET", "", OpVPNBootstrap)].
Definition newSystemEndpoints : list Route :=
  health_endpoint ++ ready_endpoint ++ diagnostics_endpoint ++ hostinfo_endpoint ++ runtime_providers_endpoint ++
  orchvpn_endpoint.

Definition apps_endpoint : list Route :=
  endpoint "/v1/apps" false [("GET", "", OpListApps); ("GET", "/{namespace}/{name}", OpGetApp)].
Definition workloads_endpoint : list Route := endpoint "/v1/workloads" false [("GET", "", OpListWorkloads)].
Definition workload_runtime_endpoint : list Route :=
  endpoint "/v1/workloads" false [("GET", "/{namespace}/{app}/{workload}/status", OpWorkloadStatus);
                                  ("GET", "/{namespace}/{app}/{workload}/logs", OpWorkloadLogs)].
Definition assignments_endpoint : list Route := endpoint "/v1/assignments" false [("GET", "", OpListAssignments)].
Definition volumes_endpoint : list Route := endpoint "/v1/volumes" false [("GET", "", OpListVolumes)].
Definition newWorkloadEndpoints : list Route :=
  apps_endpoint ++ workloads_endpoint ++ workload_runtime_endpoint ++ assignments_endpoint ++ volumes_endpoint.

Definition raft_status_endpoint (auth : bool) : list Route := endpoint "/v1/raft/status" auth [("GET", "", OpRaftStatus)].
Definition raft_members_endpoint (auth : bool) : list Route :=
  endpoint "/v1/raft/members" auth [("GET", "", OpListMembers); ("POST", "", OpAddMember);
                                    ("DELETE", "/{id}", OpRemoveMember)].
Definition newRaftEndpoints (auth : bool) : list Route := raft_status_endpoint auth ++ raft_members_endpoint auth.

Definition deploy_endpoint (auth : bool) : list Route := endpoint "/v1/deploy" auth [("POST", "", OpDeploy)].
Definition action_suffix (a : action) : string :=
  match a with AStart => "start" | AStop => "stop" | ARestart => "restart" | ARollback => "rollback" end.
Definition action_endpoint (auth : bool) (a : action) : list Route :=
  endpoint ("/v1/deploy/{namespace}/{name}/" +:+ action_suffix a) auth [("POST", "", OpAction a)].
Definition revisions_endpoint : list Route :=
  endpoint "/v1/deploy/{namespace}/{name}/revisions" false [("GET", "", OpRevisions)].
Definition operation_endpoint (auth : bool) (name : string) : list Route :=
  endpoint ("/v1/deploy/{namespace}/{name}/" +:+ name) auth [("POST", "", OpOperation name)].
Definition delete_endpoint (auth : bool) : list Route :=
  endpoint "/v1/deploy/{namespace}/{name}" auth [("DELETE", "", OpDelete)].
Definition deploy_source_endpoint (auth : bool) : list Route :=
  endpoint "/v1/deploy/source" auth [("POST", "", OpDeploySource)].
Definition newDeployEndpoints (auth : bool) : list Route :=
  deploy_endpoint auth ++
  action_endpoint auth AStart ++ action_endpoint auth AStop ++ action_endpoint auth ARestart ++
  action_endpoint auth ARollback ++ revisions_endpoint ++
  operation_endpoint auth OperationMigrate ++ operation_endpoint auth OperationFailover ++
  operation_endpoint auth OperationRebalance ++ delete_endpoint auth ++ deploy_source_endpoint auth.

Definition worker_deploy_endpoint (auth : bool) : list Route := endpoint "/v1/worker/deploy" auth [("POST", "", OpWorkerDeploy)].
Definition worker_stop_endpoint (auth : bool) : list Route := endpoint "/v1/worker/stop" auth [("POST", "", OpWorkerStop)].
Definition worker_status_endpoint (auth : bool) : list Route := endpoint "/v1/worker/status" auth [("POST", "", OpWorkerStatus)].
Definition worker_logs_endpoint (auth : bool) : list Route := endpoint "/v1/worker/logs" auth [("POST", "", OpWorkerLogs)].
Definition newWorkerEndpoints (auth : bool) : list Route :=
  worker_deploy_endpoint auth ++ worker_stop_endpoint auth ++ worker_status_endpoint auth ++ worker_logs_endpoint auth.
Definition newRouteEndpoints (auth : bool) : list Route :=
  newSystemEndpoints ++ newWorkloadEndpoints ++ newRaftEndpoints auth ++ newDeployEndpoints auth ++
  newWorkerEndpoints auth.

(** ** fiber_runtime.go: the prefixes the guard is attached to *)
Definition guarded_prefixes : list string := ["/api/v1/deploy"; "/api/v1/worker"].

(** ** The framework *)

(** A path template: literal segments, and a name in braces for any non-empty segment. *)
Definition segments (path : string) : list string := Split path "/"%char.
Definition param_name (seg : string) : option string :=
  match bytes_of seg with
  | "{"%char :: r => match reverse r with "}"%char :: n => Some (of_bytes (reverse n)) | _ => None end
  | _ => None
  end.
Fixpoint match_segments (ts ps : list string) : option (list (string * string)) :=
  match ts, ps with
  | [], [] => Some []
  | t :: ts, p :: ps =>
      match param_name t with
      | Some x => if (p =? "")%string then None else vs ← match_segments ts ps; Some ((x, p) :: vs)
      | None => if (t =? p)%string then match_segments ts ps else None
      end
  | _, _ => None
  end.
Definition template_match (template path : string) : option (list (string * string)) :=
  match_segments (segments template) (segments path).

(** The template is the prefix, or goes on after it with more segments. *)
Definition extends (template prefix : string) : bool :=
  (template =? prefix)%string || HasPrefix template (prefix +:+ "/").

(** A path that no part of the chain rewrites: nothing escaped, no dot segment. *)
Definition plain_path (path : string) : Prop :=
  "%"%char ∉ bytes_of path ∧ "." ∉ segments path ∧ ".." ∉ segments path.

Class Framework `{Wire, JwtLib} := {
  (** a middleware attached to a prefix runs for a path *)
  use_matches : string → string → bool;
  (** the route of a method and a path, with the values of its parameters *)
  route : list Route → string → string → option (Route * list (string * string));
  (** an integer of the query string; zero when it is absent *)
  query_int : string → string → res Z;
  (** the guard's verdict on an [Authorization] header *)
  require : Guard → string → res unit;
  (** the answers: a handler's result, a refusal, an unknown path *)
  render : res raw → HttpResponse;
  unauthorized : error → HttpResponse;
  no_route : HttpResponse }.

(** Documented behaviour.  Routing: a plain path that one route's template matches
    goes to that route, with the segments as values; a middleware's prefix covers the paths of
    the routes below it and no path that does not start with it (both up to case).  The guard
    passes a request when its credential resolves, a provider authenticates it and the
    authorizer allows the principal.  An answer is a success when the handler succeeded. *)
Class FrameworkLaws `{Framework} := {
  route_match rs m p r vs : r ∈ rs → rt_method r = m → plain_path p →
    template_match (rt_template r) p = Some vs →
    (∀ r', r' ∈ rs → rt_method r' = m → is_Some (template_match (rt_template r') p) → r' = r) →
    route rs m p = Some (r, vs);
  route_in rs m p r vs : route rs m p = Some (r, vs) → r ∈ rs ∧ rt_method r = m;
  use_covers rs m p r vs prefix : route rs m p = Some (r, vs) → "{"%char ∉ bytes_of prefix →
    extends (rt_template r) prefix = true → use_matches prefix p = true;
  use_only prefix p : use_matches prefix p = true →
    ∃ q t, bytes_of p = q ++ t ∧ (lower_ascii <$> q) = (lower_ascii <$> bytes_of prefix);
  query_int_one name z : (0 ≤ z ≤ max_int64)%Z → query_int (name +:+ "=" +:+ Itoa z) name = Ok z;
  query_int_none name : query_int "" name = Ok 0%Z;
  require_iff g header : require g header = Ok tt ↔ ∃ resolve token pr p authorize,
    gd_resolver g = Some resolve ∧ resolve header = Ok token ∧ pr ∈ en_providers (gd_engine g) ∧
    AuthenticateAny pr token = Ok p ∧ en_authorize (gd_engine g) = Some authorize ∧ (authorize (Some p)).1 = true;
  render_ok r : rp_success (render (Ok r)) = true ∧ rp_body (render (Ok r)) = r;
  render_err e : rp_success (render (Err e)) = false;
  unauthorized_fails e : rp_success (unauthorized e) = false;
  no_route_fails : rp_success no_route = false }.

(** JSON for every body of the contracts. *)
Class ApiJson `{Wire} := {
  json_unit :: Json unit; json_app :: Json App; json_source :: Json DeploySourceBody;
  json_operation :: Json OperationBody; json_member :: Json AddMemberBody;
  json_worker_deploy :: Json DeployWorkloadBody; json_worker_stop :: Json StopWorkloadBody;
  json_worker_status :: Json WorkloadStatusBody; json_worker_logs :: Json WorkloadLogsBody;
  json_health :: Json HealthOutput; json_ready :: Json ReadyOutput; json_runtimes :: Json (list RuntimeProviderItem);
  json_vpn :: Json OrchVPNBootstrapOutput; json_apps :: Json (list AppItem); json_detail :: Json AppDetailItem;
  json_workloads :: Json (list WorkloadItem); json_status :: Json RuntimeStatus; json_logs :: Json LogResult;
  json_assignments :: Json (list AssignmentItem); json_volumes :: Json (list VolumeBindingItem);
  json_raft_status :: Json RaftStatusOutput; json_members :: Json (list RaftMemberItem);
  json_added :: Json AddRaftMemberOutput; json_removed :: Json RemoveRaftMemberOutput;
  json_deploy :: Json DeployOutput; json_action :: Json DeployActionBody; json_deleted :: Json DeleteDeployOutput;
  json_operated :: Json DeployOperationOutput; json_revisions :: Json (list AppRevisionItem);
  json_worker_deployed :: Json DeployWorkloadOutput; json_worker_stopped :: Json StopWorkloadOutput }.

(** What the system endpoints are given; the bodies of [hostinfo] and [diagnostics] are made by
    packages outside this model. *)
Class SystemEnv `{Wire} := {
  se_runtimes : option Manager; se_readiness : option HealthReport; se_health : option HealthReport;
  se_timestamp : string; se_routes : option (list string);
  se_hostinfo : res raw; se_diagnostics : option Manager → res raw }.

Section serve.
Context `{Wire} `{!Transport} `{Digest, Codec} `{!World, Inspect} `{ListSort, GraphLib, ReplicaOrder}.
Context `{ManifestLoader, ApiEnv} `{JwtLib} `{!Framework, !ApiJson, !SystemEnv}.
Context (cfg : ApiConfig).

(** Parameters by name, then the request's body. *)
Definition path_value (vs : list (string * string)) (x : string) : string :=
  default "" (snd <$> find (λ v, (v.1 =? x)%string) vs).
Definition app_input (vs : list (string * string)) : AppPathInput :=
  mkAppPath (path_value vs "namespace") (path_value vs "name").
Definition runtime_input (vs : list (string * string)) : WorkloadRuntimeInput :=
  mkRuntimeInput (path_value vs "namespace") (path_value vs "app") (path_value vs "workload").

Definition reply {O} `{!Json O} (h : Handler O) : Handler raw := o ← h; of_res (marshal o).
Definition with_body {B O} `{!Json B, !Json O} (body : option raw) (h : B → Handler O) : Handler raw :=
  b ← of_res (accept body); reply (h b).

Definition handle_op (op : Operation) (vs : list (string * string)) (query : string) (body : option raw) : Handler raw :=
  match op with
  | OpHealth => reply (mret (health_handle w_errorText se_health se_timestamp))
  | OpReady =>
      reply (task_view (λ t, ready_handle w_errorText (NodeURL (ac_task cfg)) (Some (raft_Status t)) se_runtimes
                               se_readiness se_timestamp))
  | OpDiagnostics => of_res (se_diagnostics se_runtimes)
  | OpHostinfo => of_res se_hostinfo
  | OpRuntimes => reply (mret (runtime_providers_handle se_runtimes))
  | OpVPNBootstrap => reply (mret (orchvpn_bootstrap_handle (ac_OrchVPN cfg) (ac_DNSZone cfg) se_routes))
  | OpListApps => reply apps_list
  | OpGetApp => reply (apps_get (app_input vs))
  | OpListWorkloads => reply workloads_handle
  | OpWorkloadStatus => reply (runtime_status_handle cfg (runtime_input vs))
  | OpWorkloadLogs =>
      tail ← of_res (query_int query "tail"); reply (runtime_logs_handle cfg (mkLogsInput (runtime_input vs) tail))
  | OpListAssignments => reply assignments_handle
  | OpListVolumes => reply volumes_handle
  | OpRaftStatus => reply (raft_status_handle cfg)
  | OpListMembers => reply raft_members_list
  | OpAddMember => with_body body (raft_members_add cfg)
  | OpRemoveMember => reply (raft_members_remove cfg (path_value vs "id"))
  | OpDeploy => with_body body (deploy_handle cfg)
  | OpAction a => reply (action_handle cfg a (app_input vs))
  | OpRevisions => reply (revisions_handle (app_input vs))
  | OpOperation name => with_body body (λ b, handleDeployOperation cfg (mkOperationInput (app_input vs) b) name)
  | OpDelete => reply (delete_handle cfg (app_input vs))
  | OpDeploySource => with_body body (deploy_source_handle cfg)
  | OpWorkerDeploy => with_body body (worker_deploy_handle cfg)
  | OpWorkerStop => with_body body (worker_stop_handle cfg)
  | OpWorkerStatus => with_body body (worker_status_handle cfg)
  | OpWorkerLogs => with_body body (worker_logs_handle cfg)
  end.

(** The path of a request target, and its query string. *)
Fixpoint cut_bytes (l : list ascii) : list ascii * list ascii :=
  match l with
  | [] => ([], [])
  | "?"%char :: r => ([], r)
  | c :: r => let '(p, q) := cut_bytes r in (c :: p, q)
  end.
Definition cut_target (target : string) : string * string :=
  let '(p, q) := cut_bytes (bytes_of target) in (of_bytes p, of_bytes q).

(** [newFiberAppAndRuntime] with the routes of [RegisterEndpoints]: the middlewares that cover
    the path, then its route. *)
Definition guard_passes (guard : Guard) (path : string) (rq : HttpRequest) : res unit :=
  if ac_AuthEnabled cfg && existsb (λ prefix, use_matches prefix path) guarded_prefixes
  then require guard (rq_authorization rq) else Ok tt.

Definition serve (guard : Guard) (rq : HttpRequest) (n : Node) : HttpResponse * Node :=
  let '(path, query) := cut_target (rq_path rq) in
  match guard_passes guard path rq with
  | Err e => (unauthorized e, n)
  | Ok _ =>
      match route (newRouteEndpoints (ac_AuthEnabled cfg)) (rq_method rq) path with
      | None => (no_route, n)
      | Some (r, vs) => let '(res, n') := handle_op (rt_operation r) vs query (rq_body rq) n in (render res, n')
      end
  end.
End serve.
