(* ===== verification/ApiClient.v ===== *)
(** * The API client (internal/apiclient)

    The requests of the command-line tools.  The HTTP client under it (clientx, resty) is a
    parameter: what executing a request does to the state of the outside, and its answer. *)
From stdpp Require Import base strings numbers gmap list.
From Stdlib Require Import Ascii.
From S2P Require Import Prelude GoStrings GoTime GoList Deploy Dependency Meta GoText TaskBase TaskOps Runtime Effects ApiServer HttpServer.

(** ** client.go: the base URL and the header *)
Definition defaultBaseURL := "http://127.0.0.1:17443".
(** [env] is [os.Getenv("ORCH_SERVER")]. *)
Definition DefaultBaseURL (env : string) : string :=
  TrimRightByte (CoalesceOrEmpty [TrimSpace env; defaultBaseURL]) "/"%char.

Record Client := mkClient { cl_base : string; cl_authorization : string }.

Section client.
Context `{Wire} `{!ApiJson} {S : Type}.
Context (new_http : string → res unit) (exec : string → HttpRequest → SE S HttpResponse).

Definition client_New (baseURL bearerToken : string) : res Client :=
  let tok := TrimSpace bearerToken in
  let base := TrimRightByte (TrimSpace baseURL) "/"%char in
  _ ← wrap "create clientx http client" [] (new_http base);
  Ok (mkClient base (if negb (tok =? "")%string then "Bearer " +:+ tok else "")).

Context (c : Client).

(** ** transport.go *)
Definition decode_response {O} `{!Json O} (method path : string) (rp : HttpResponse) : res O :=
  if negb (rp_success rp)
  then Err (Errorf "%s %s: %s: %s" [AStr method; AStr path; AStr (rp_status rp); AStr (TrimSpace (raw_text (rp_body rp)))])
  else wrap "%s %s response" [AStr method; AStr path] (unmarshal (rp_body rp)).

Definition request {O} `{!Json O} (method path : string) : SE S O :=
  rp ← annotate "%s %s" [AStr method; AStr path]
         (exec (cl_base c) (mkRequest method path (cl_authorization c) None));
  of_res (decode_response method path rp).
Definition client_get {O} `{!Json O} (path : string) : SE S O := request "GET" path.
Definition client_delete {O} `{!Json O} (path : string) : SE S O := request "DELETE" path.

Definition client_post {B O} `{!Json B, !Json O} (path : string) (body : B) : SE S O :=
  r ← annotate "POST %s body" [AStr path] (of_res (marshal body));
  rp ← annotate "POST %s" [AStr path] (exec (cl_base c) (mkRequest "POST" path (cl_authorization c) (Some r)));
  of_res (decode_response "POST" path rp).

(** ** client.go: reads *)
Definition client_Health : SE S HealthOutput := client_get PathHealth.
Definition client_Ready : SE S ReadyOutput := client_get PathReady.
Definition client_ListRuntimeProviders : SE S (list RuntimeProviderItem) := client_get PathV1RuntimeProviders.
Definition client_ListWorkloads : SE S (list WorkloadItem) := client_get PathV1Workloads.
Definition client_ListAssignments : SE S (list AssignmentItem) := client_get PathV1Assignments.
Definition client_ListVolumes : SE S (list VolumeBindingItem) := client_get PathV1Volumes.
Definition client_ListApps : SE S (list AppItem) := client_get PathV1Apps.

Definition client_GetApp (namespace rawName : string) : SE S AppDetailItem :=
  let name := TrimSpace rawName in
  if (name =? "")%string then raise (Errorf "empty app name" [])
  else client_get (PathV1Apps +:+ "/" +:+ PathEscape (NamespaceOrDefault namespace) +:+ "/" +:+ PathEscape name).

Definition normalizeWorkloadPath (namespace rawApp rawWorkload : string) : res (string * string * string) :=
  let app := TrimSpace rawApp in
  let workload := TrimSpace rawWorkload in
  if (app =? "")%string then Err (Errorf "empty app name" [])
  else if (workload =? "")%string then Err (Errorf "empty workload name" [])
  else Ok (NamespaceOrDefault namespace, app, workload).

Definition workload_path (p : string * string * string) (suffix : string) : string :=
  PathV1Workloads +:+ "/" +:+ PathEscape p.1.1 +:+ "/" +:+ PathEscape p.1.2 +:+ "/" +:+ PathEscape p.2 +:+ suffix.
Definition client_WorkloadRuntimeStatus (namespace app workload : string) : SE S RuntimeStatus :=
  p ← of_res (normalizeWorkloadPath namespace app workload); client_get (workload_path p "/status").
Definition client_WorkloadLogs (namespace app workload : string) (tail : Z) : SE S LogResult :=
  p ← of_res (normalizeWorkloadPath namespace app workload);
  client_get (workload_path p "/logs" +:+
              (if (0 <? tail)%Z then "?tail=" +:+ QueryEscape (Itoa tail) else "")).

Definition client_RaftStatus : SE S RaftStatusOutput := client_get PathV1RaftStatus.
Definition client_ListRaftMembers : SE S (list RaftMemberItem) := client_get PathV1RaftMembers.
Definition client_AddRaftVoter (rawID rawAddress : string) : SE S AddRaftMemberOutput :=
  let id := TrimSpace rawID in
  let address := TrimSpace rawAddress in
  if (id =? "")%string || (address =? "")%string then raise (Errorf "raft member id and address are required" [])
  else client_post PathV1RaftMembers (mkMemberBody id address).
Definition client_RemoveRaftMember (rawID : string) : SE S RemoveRaftMemberOutput :=
  let id := TrimSpace rawID in
  if (id =? "")%string then raise (Errorf "raft member id is required" [])
  else client_delete (PathV1RaftMembers +:+ "/" +:+ PathEscape id).
Definition client_OrchVPNBootstrap : SE S OrchVPNBootstrapOutput := client_get PathV1OrchVPNBootstrap.

(** ** client_deploy.go *)
Definition client_Deploy (app : App) : SE S DeployOutput := client_post PathV1Deploy app.
Definition client_DeploySource (virtualPath source : string) : SE S DeployOutput :=
  if (virtualPath =? "")%string then raise (Errorf "empty virtualPath" [])
  else client_post PathV1DeploySource (mkSourceBody virtualPath source).

Definition deployActionPath (namespace rawName suffix : string) : res string :=
  let name := TrimSpace rawName in
  if (name =? "")%string then Err (Errorf "empty app name" [])
  else
    let namespace := TrimSpace namespace in
    let namespace := if (namespace =? "")%string then "default" else namespace in
    let path := PathV1Deploy +:+ "/" +:+ PathEscape namespace +:+ "/" +:+ PathEscape name in
    Ok (if negb (suffix =? "")%string then path +:+ "/" +:+ suffix else path).

Definition client_DeleteDeploy (namespace name : string) : SE S DeleteDeployOutput :=
  path ← of_res (deployActionPath namespace name ""); client_delete path.
(** [StartDeploy], [StopDeploy], [RestartDeploy], [RollbackDeploy] *)
Definition client_DeployAction (a : action) (namespace name : string) : SE S DeployActionBody :=
  path ← of_res (deployActionPath namespace name (action_suffix a)); client_post path tt.
Definition client_ListDeployRevisions (namespace name : string) : SE S (list AppRevisionItem) :=
  path ← of_res (deployActionPath namespace name "revisions"); client_get path.
(** [MigrateDeploy], [FailoverDeploy] and [RebalanceDeploy], which names no target *)
Definition client_deployOperation (operation namespace name targetNode : string) (workloads : list string)
    : SE S DeployOperationOutput :=
  path ← of_res (deployActionPath namespace name operation);
  client_post path (mkOperationBody targetNode workloads).
Definition client_MigrateDeploy (namespace name targetNode : string) (workloads : list string) :=
  client_deployOperation OperationMigrate namespace name targetNode workloads.
Definition client_FailoverDeploy (namespace name targetNode : string) (workloads : list string) :=
  client_deployOperation OperationFailover namespace name targetNode workloads.
Definition client_RebalanceDeploy (namespace name : string) (workloads : list string) :=
  client_deployOperation OperationRebalance namespace name "" workloads.
End client.
