(* ===== verification/ApiRouting.v ===== *)
(** * The HTTP API: calls and routes

    The calls of the API as a type, the method, path and query that stand for each, and the
    proof that the server's route table sends each to its operation with its arguments, and to
    no other. *)
From stdpp Require Import base strings numbers gmap list.
From Stdlib Require Import Ascii.
From S2P Require Import Prelude GoStrings GoTime GoNet GoList Deploy Dependency Validate Meta GoText Fsm RaftService RaftMembers Vpn TaskBase TaskRun TaskDeploy TaskOps TaskViews Dns Runtime Effects TaskInspect ApiServer ApiReads HttpServer ApiClient.

(** ** Names that are segments *)

(** A name that stands in a path as it is. *)
Definition safe_segment (s : string) : Prop := segment_text s ∧ s ≠ "" ∧ s ≠ "." ∧ s ≠ "..".

Lemma segment_byte_graphic c : segment_byte c = true → graphic c = true.
Proof. each_byte c. Qed.
Lemma segment_byte_percent c : segment_byte c = true → c ≠ "%"%char.
Proof. intros Hc ->. by vm_compute in Hc. Qed.
Lemma segment_byte_query c : segment_byte c = true → c ≠ "?"%char.
Proof. intros Hc ->. by vm_compute in Hc. Qed.

Lemma segment_text_trimmed s : segment_text s → TrimSpace s = s.
Proof. intros Hs. apply graphic_trimmed. eapply Forall_impl; [exact Hs|apply segment_byte_graphic]. Qed.

Lemma name_safe s : nameRe s = true → safe_segment s.
Proof.
  intros Hs. pose proof (name_segment s Hs) as [Ht Hne]. split_and!; [done|done|..]; intros ->; by vm_compute in Hs.
Qed.

Lemma segment_text_slash s : segment_text s → "/"%char ∉ bytes_of s.
Proof. unfold segment_text. rewrite Forall_forall. intros Hs Hin. by apply (segment_byte_slash _ (Hs _ Hin)). Qed.

Lemma segments_app p q : segments (p +:+ "/" +:+ q) = segments p ++ segments q.
Proof.
  unfold segments, Split. rewrite !bytes_of_app. change (bytes_of "/" ++ bytes_of q) with ("/"%char :: bytes_of q).
  by rewrite split_bytes_app_sep, fmap_app.
Qed.
Lemma segments_one s : segment_text s → segments s = [s].
Proof.
  intros Hs. unfold segments, Split. rewrite split_bytes_none by (by apply segment_text_slash).
  cbn. by rewrite of_bytes_bytes_of.
Qed.

(** Paths made of a fixed text and segments, without anything to rewrite. *)
Definition path_byte (c : ascii) : bool := segment_byte c || Ascii.eqb c "/".
Definition path_text' (p : string) : Prop := Forall (λ c, path_byte c = true) (bytes_of p).
Lemma path_text_app p q : path_text' (p +:+ q) ↔ path_text' p ∧ path_text' q.
Proof. unfold path_text'. by rewrite bytes_of_app, Forall_app. Qed.
Lemma segment_path_text s : segment_text s → path_text' s.
Proof. intros Hs. eapply Forall_impl; [exact Hs|]. intros c Hc. unfold path_byte. by rewrite Hc. Qed.

Lemma path_text_no_percent p : path_text' p → "%"%char ∉ bytes_of p.
Proof. unfold path_text'. rewrite Forall_forall. intros Hp Hin. specialize (Hp _ Hin). by vm_compute in Hp. Qed.

Lemma cut_bytes_none l q : Forall (λ c, path_byte c = true) l →
  cut_bytes (l ++ q) = let '(p, r) := cut_bytes q in (l ++ p, r).
Proof.
  induction 1 as [|c l Hc _ IH]; [by cbn; destruct (cut_bytes q)|]. cbn -[cut_bytes].
  assert (c ≠ "?"%char) as Hq by (intros ->; discriminate Hc).
  assert (cut_bytes (c :: l ++ q) = let '(p, r) := cut_bytes (l ++ q) in (c :: p, r)) as ->.
  { cbn. by destruct c as [[] [] [] [] [] [] [] []]. }
  rewrite IH. by destruct (cut_bytes q).
Qed.
Lemma cut_target_path p : path_text' p → cut_target p = (p, "").
Proof.
  intros Hp. unfold cut_target. rewrite <-(app_nil_r (bytes_of p)), cut_bytes_none by done. cbn.
  by rewrite app_nil_r, of_bytes_bytes_of.
Qed.
Lemma cut_target_query p q : path_text' p → cut_target (p +:+ "?" +:+ q) = (p, q).
Proof.
  intros Hp. unfold cut_target. rewrite !bytes_of_app, cut_bytes_none by done. cbn.
  by rewrite app_nil_r, !of_bytes_bytes_of.
Qed.

(** ** The calls of the API *)
Inductive move := MvMigrate | MvFailover | MvRebalance.
Definition move_name (m : move) : string :=
  match m with MvMigrate => OperationMigrate | MvFailover => OperationFailover | MvRebalance => OperationRebalance end.

(** A call and the type of its answer. *)
Inductive call : Type → Type :=
| CDeploy (app : App) : call DeployOutput
| CSource (b : DeploySourceBody) : call DeployOutput
| CAction (a : action) (i : AppPathInput) : call DeployActionBody
| CDelete (i : AppPathInput) : call DeleteDeployOutput
| CMove (m : move) (i : AppPathInput) (b : OperationBody) : call DeployOperationOutput
| CAddMember (b : AddMemberBody) : call AddRaftMemberOutput
| CRemoveMember (id : string) : call RemoveRaftMemberOutput
| CRevisions (i : AppPathInput) : call (list AppRevisionItem)
| CApps : call (list AppItem)
| CApp (i : AppPathInput) : call AppDetailItem
| CWorkloads : call (list WorkloadItem)
| CStatus (i : WorkloadRuntimeInput) : call RuntimeStatus
| CLogs (i : WorkloadRuntimeInput) (tail : Z) : call LogResult
| CAssignments : call (list AssignmentItem)
| CVolumes : call (list VolumeBindingItem)
| CRaftStatus : call RaftStatusOutput
| CMembers : call (list RaftMemberItem)
| CHealth : call HealthOutput
| CReady : call ReadyOutput
| CRuntimes : call (list RuntimeProviderItem)
| CBootstrap : call OrchVPNBootstrapOutput.

(** The calls that change the cluster. *)
Definition is_write {O} (c : call O) : bool :=
  match c with
  | CDeploy _ | CSource _ | CAction _ _ | CDelete _ | CMove _ _ _ | CAddMember _ | CRemoveMember _ => true
  | _ => false
  end.

Definition call_method {O} (c : call O) : string :=
  match c with
  | CDeploy _ | CSource _ | CAction _ _ | CMove _ _ _ | CAddMember _ => "POST"
  | CDelete _ | CRemoveMember _ => "DELETE"
  | _ => "GET"
  end.

(** Paths below a base, with the names as segments. *)
Definition app_segments (base : string) (i : AppPathInput) : string :=
  base +:+ "/" +:+ in_Namespace i +:+ "/" +:+ in_Name i.
Definition workload_segments (i : WorkloadRuntimeInput) : string :=
  PathV1Workloads +:+ "/" +:+ wr_Namespace i +:+ "/" +:+ wr_App i +:+ "/" +:+ wr_Workload i.

Definition call_path {O} (c : call O) : string :=
  match c with
  | CDeploy _ => PathV1Deploy
  | CSource _ => PathV1DeploySource
  | CAction a i => app_segments PathV1Deploy i +:+ "/" +:+ action_suffix a
  | CDelete i => app_segments PathV1Deploy i
  | CMove m i _ => app_segments PathV1Deploy i +:+ "/" +:+ move_name m
  | CAddMember _ | CMembers => PathV1RaftMembers
  | CRemoveMember id => PathV1RaftMembers +:+ "/" +:+ id
  | CRevisions i => app_segments PathV1Deploy i +:+ "/" +:+ "revisions"
  | CApps => PathV1Apps
  | CApp i => app_segments PathV1Apps i
  | CWorkloads => PathV1Workloads
  | CStatus i => workload_segments i +:+ "/" +:+ "status"
  | CLogs i _ => workload_segments i +:+ "/" +:+ "logs"
  | CAssignments => PathV1Assignments
  | CVolumes => PathV1Volumes
  | CRaftStatus => PathV1RaftStatus
  | CHealth => PathHealth
  | CReady => PathReady
  | CRuntimes => PathV1RuntimeProviders
  | CBootstrap => PathV1OrchVPNBootstrap
  end.

Definition call_query {O} (c : call O) : string :=
  match c with CLogs _ tail => if (0 <? tail)%Z then "tail=" +:+ Itoa tail else "" | _ => "" end.
Definition call_target {O} (c : call O) : string :=
  call_path c +:+ if (call_query c =? "")%string then "" else "?" +:+ call_query c.

Definition call_op {O} (c : call O) : Operation :=
  match c with
  | CDeploy _ => OpDeploy | CSource _ => OpDeploySource | CAction a _ => OpAction a | CDelete _ => OpDelete
  | CMove m _ _ => OpOperation (move_name m) | CAddMember _ => OpAddMember | CRemoveMember _ => OpRemoveMember
  | CRevisions _ => OpRevisions | CApps => OpListApps | CApp _ => OpGetApp | CWorkloads => OpListWorkloads
  | CStatus _ => OpWorkloadStatus | CLogs _ _ => OpWorkloadLogs | CAssignments => OpListAssignments
  | CVolumes => OpListVolumes | CRaftStatus => OpRaftStatus | CMembers => OpListMembers | CHealth => OpHealth
  | CReady => OpReady | CRuntimes => OpRuntimes | CBootstrap => OpVPNBootstrap
  end.

Definition app_values (i : AppPathInput) : list (string * string) :=
  [("namespace", in_Namespace i); ("name", in_Name i)].
Definition call_values {O} (c : call O) : list (string * string) :=
  match c with
  | CAction _ i | CDelete i | CMove _ i _ | CRevisions i | CApp i => app_values i
  | CRemoveMember id => [("id", id)]
  | CStatus i | CLogs i _ => [("namespace", wr_Namespace i); ("app", wr_App i); ("workload", wr_Workload i)]
  | _ => []
  end.

(** Whether the OpenAPI document declares the operation secured when authentication is on. *)
Definition call_secured {O} (c : call O) : bool :=
  match c with
  | CDeploy _ | CSource _ | CAction _ _ | CDelete _ | CMove _ _ _ | CAddMember _ | CRemoveMember _
  | CRaftStatus | CMembers => true
  | _ => false
  end.

Definition call_template {O} (c : call O) : string :=
  let app base := base +:+ "/{namespace}/{name}" in
  match c with
  | CAction a _ => app PathV1Deploy +:+ "/" +:+ action_suffix a
  | CDelete _ => app PathV1Deploy
  | CMove m _ _ => app PathV1Deploy +:+ "/" +:+ move_name m
  | CRemoveMember _ => PathV1RaftMembers +:+ "/{id}"
  | CRevisions _ => app PathV1Deploy +:+ "/revisions"
  | CApp _ => app PathV1Apps
  | CStatus _ => PathV1Workloads +:+ "/{namespace}/{app}/{workload}/status"
  | CLogs _ _ => PathV1Workloads +:+ "/{namespace}/{app}/{workload}/logs"
  | c => call_path c
  end.
Definition call_route {O} (auth : bool) (c : call O) : Route :=
  mkRoute (call_method c) (call_template c) (call_op c) (call_secured c && auth).

(** Names that are segments. *)
Definition safe_app (i : AppPathInput) : Prop := safe_segment (in_Namespace i) ∧ safe_segment (in_Name i).
Definition safe_call {O} (c : call O) : Prop :=
  match c with
  | CAction _ i | CDelete i | CMove _ i _ | CRevisions i | CApp i => safe_app i
  | CRemoveMember id => safe_segment id
  | CStatus i => safe_segment (wr_Namespace i) ∧ safe_segment (wr_App i) ∧ safe_segment (wr_Workload i)
  | CLogs i tail =>
      (safe_segment (wr_Namespace i) ∧ safe_segment (wr_App i) ∧ safe_segment (wr_Workload i)) ∧ (tail ≤ max_int64)%Z
  | _ => True
  end.

(** The segments of a call's path: fixed ones around its names. *)
Definition path_segments {O} (c : call O) : list string :=
  let app base i := ["" ; "api"; "v1"; base; in_Namespace i; in_Name i] in
  let work i := ["" ; "api"; "v1"; "workloads"; wr_Namespace i; wr_App i; wr_Workload i] in
  match c with
  | CAction a i => app "deploy" i ++ [action_suffix a]
  | CDelete i => app "deploy" i
  | CMove m i _ => app "deploy" i ++ [move_name m]
  | CRevisions i => app "deploy" i ++ ["revisions"]
  | CApp i => app "apps" i
  | CRemoveMember id => ["" ; "api"; "v1"; "raft"; "members"; id]
  | CStatus i => work i ++ ["status"]
  | CLogs i _ => work i ++ ["logs"]
  | c => segments (call_path c)
  end.

Lemma call_path_segments {O} (c : call O) : safe_call c → segments (call_path c) = path_segments c.
Proof.
  assert (∀ i base, safe_app i → segments (app_segments base i) = segments base ++ [in_Namespace i; in_Name i]) as Happ.
  { intros i base [[Hs _] [Hn _]]. unfold app_segments.
    by rewrite !segments_app, (segments_one (in_Namespace i)), (segments_one (in_Name i)). }
  assert (∀ i, safe_segment (wr_Namespace i) ∧ safe_segment (wr_App i) ∧ safe_segment (wr_Workload i) →
    segments (workload_segments i) = segments PathV1Workloads ++ [wr_Namespace i; wr_App i; wr_Workload i]) as Hwork.
  { intros i ([Hs _] & [Hn _] & [Hw _]). unfold workload_segments.
    by rewrite !segments_app, (segments_one (wr_Namespace i)), (segments_one (wr_App i)), (segments_one (wr_Workload i)). }
  destruct c as [| |a i|i|m i b| |id|i| |i| |i|i tail| | | | | | | |]; cbn [call_path path_segments safe_call]; intros Hc; try done.
  - rewrite segments_app, Happ by done. by destruct a.
  - by rewrite Happ.
  - rewrite segments_app, Happ by done. by destruct m.
  - by destruct Hc as [Hs _]; rewrite segments_app, (segments_one id).
  - by rewrite segments_app, Happ by done.
  - by rewrite Happ.
  - by rewrite segments_app, Hwork by done.
  - by rewrite segments_app, Hwork by apply Hc.
Qed.

(** *** The routes send a call to its operation *)
Lemma call_route_in {O} auth (c : call O) : call_route auth c ∈ newRouteEndpoints auth.
Proof.
  apply list_elem_of_In.
  destruct c as [| |[] i| |[] i b| | | | | | | | | | | | | | | |]; destruct auth; vm_compute; tauto.
Qed.

(** Evaluates the comparisons of literals in a hypothesis, and splits the other ones. *)
Ltac literal_segments H :=
  repeat (cbn -[String.eqb segments] in H;
    match type of H with
    | context [segments ?p] => let l := eval vm_compute in (segments p) in change (segments p) with l in H
    | context [String.eqb ?x ?y] =>
        first [ let b := eval vm_compute in (String.eqb x y) in
                match b with true => idtac | false => idtac end; change (String.eqb x y) with b in H
              | destruct (String.eqb_spec x y); [try done|] ]
    end).

Lemma call_matches {O} (c : call O) : safe_call c → template_match (call_template c) (call_path c) = Some (call_values c).
Proof.
  intros Hc. unfold template_match. rewrite (call_path_segments c Hc).
  destruct c as [| |[] i|i|[] i b| |id|i| |i| |i|i tail| | | | | | | |];
    try reflexivity; unfold safe_call, safe_app, safe_segment in Hc;
    destruct_and?; cbn [call_template path_segments call_values app_values];
    match goal with |- match_segments (segments ?t) _ = _ =>
      let l := eval vm_compute in (segments t) in change (segments t) with l end;
    cbn -[String.eqb]; change (String.eqb "" "") with true;
    repeat match goal with |- context [String.eqb ?x ""] => destruct (String.eqb_spec x ""); [done|] end; reflexivity.
Qed.

Lemma match_segments_length ts ps vs : match_segments ts ps = Some vs → length ts = length ps.
Proof.
  revert ps vs. induction ts as [|t ts IH]; intros [|p ps] vs; cbn; try done.
  intros H. f_equal. repeat case_match; simplify_eq; [|by eapply IH].
  apply bind_Some in H as (vs' & H & _). by eapply IH.
Qed.

(** The routes, with their templates as segments. *)
Definition segment_routes (auth : bool) : list (Route * list string) :=
  (λ r, (r, segments (rt_template r))) <$> newRouteEndpoints auth.

Definition candidates (auth : bool) (method : string) (n : nat) : list (Route * list string) :=
  filter (λ rs, rt_method rs.1 = method ∧ length rs.2 = n) (segment_routes auth).

(** Few routes have the method and the length of a path. *)
Lemma candidate auth r path vs : r ∈ newRouteEndpoints auth → template_match (rt_template r) path = Some vs →
  (r, segments (rt_template r)) ∈ candidates auth (rt_method r) (length (segments path)).
Proof.
  intros Hr Hm. apply list_elem_of_filter. split; [split; [done|by eapply match_segments_length]|].
  apply list_elem_of_fmap. by exists r.
Qed.

Lemma call_unique {O} auth (c : call O) r : safe_call c → r ∈ newRouteEndpoints auth → rt_method r = call_method c →
  is_Some (template_match (rt_template r) (call_path c)) → r = call_route auth c.
Proof.
  intros Hc Hr Hmeth [vs Hm]. pose proof (candidate _ _ _ _ Hr Hm) as Hin. unfold template_match in Hm.
  rewrite (call_path_segments c Hc) in Hin, Hm. rewrite Hmeth in Hin. clear Hr Hmeth.
  remember (segments (rt_template r)) as ts eqn:Hts. clear Hts.
  destruct c as [| |[] i|i|[] i b| |id|i| |i| |i|i tail| | | | | | | |]; destruct auth;
    match type of Hin with _ ∈ ?l => let l' := eval vm_compute in l in change l with l' in Hin end;
    repeat (apply elem_of_cons in Hin as [[= -> ->]|Hin]; [first [reflexivity|exfalso; literal_segments Hm; done]|]);
    by apply not_elem_of_nil in Hin.
Qed.

(** *** Paths are plain *)
Lemma path_text_of {O} (c : call O) : safe_call c → path_text' (call_path c).
Proof.
  assert (∀ base i, path_text' base → safe_app i → path_text' (app_segments base i)) as Happ.
  { intros base i Hb [[Hs _] [Hn _]]. unfold app_segments. rewrite !path_text_app.
    split_and!; [done|by repeat constructor|by apply segment_path_text|by repeat constructor|by apply segment_path_text]. }
  assert (∀ i, safe_segment (wr_Namespace i) ∧ safe_segment (wr_App i) ∧ safe_segment (wr_Workload i) →
    path_text' (workload_segments i)) as Hwork.
  { intros i ([Hs _] & [Hn _] & [Hw _]). unfold workload_segments. rewrite !path_text_app.
    split_and!; first [by apply segment_path_text|by repeat constructor]. }
  destruct c as [| |a i|i|m i b| |id|i| |i| |i|i tail| | | | | | | |]; cbn [call_path safe_call]; intros Hc;
    rewrite ?path_text_app; try (by repeat constructor);
    repeat match goal with |- _ ∧ _ => split end;
    first [ by apply Happ; [repeat constructor|] | by apply Hwork | by apply Hwork, Hc | by repeat constructor
          | by apply segment_path_text, Hc | by destruct a; repeat constructor | by destruct m; repeat constructor ].
Qed.

Lemma call_plain {O} (c : call O) : safe_call c → plain_path (call_path c).
Proof.
  intros Hc. split; [by apply path_text_no_percent, path_text_of|]. rewrite (call_path_segments c Hc).
  unfold safe_call, safe_app, safe_segment in Hc.
  destruct c as [| |[] i|i|[] i b| |id|i| |i| |i|i tail| | | | | | | |]; destruct_and?; cbn [path_segments Datatypes.app];
    first [ rewrite !list_elem_of_In; vm_compute; intuition discriminate
          | rewrite !not_elem_of_cons; split_and!; first [done|by intros [=]|apply not_elem_of_nil] ].
Qed.

Lemma string_nil_r s : s +:+ "" = s.
Proof. induction s as [|c s IH]; [done|]. by rewrite append_cons, IH. Qed.

Lemma QueryEscape_id s : Forall (λ c, unreserved c = true) (bytes_of s) → QueryEscape s = s.
Proof.
  intros Hs. unfold QueryEscape. rewrite bind_singletons; [apply of_bytes_bytes_of|].
  eapply Forall_impl; [exact Hs|]. by intros c ->.
Qed.

Lemma call_target_cut {O} (c : call O) : safe_call c → cut_target (call_target c) = (call_path c, call_query c).
Proof.
  intros Hc. pose proof (path_text_of c Hc) as Hp. unfold call_target.
  destruct (String.eqb_spec (call_query c) "") as [->|Hq]; [|by apply cut_target_query].
  rewrite cut_target_path; [by rewrite string_nil_r|]. by rewrite string_nil_r.
Qed.
