(* ===== verification/ApiSpec.v ===== *)
(** * The HTTP API: lemmas

    What the server does with the request of a call, what a handler that forwards does, what
    the guard lets through, and what the client makes of an answer. *)
From stdpp Require Import base strings numbers gmap list.
From Stdlib Require Import Ascii.
From S2P Require Import Prelude GoStrings GoTime GoNet GoList Deploy Dependency Validate Meta GoText Fsm RaftService RaftMembers Vpn TaskBase TaskRun TaskDeploy TaskOps TaskViews Dns ComposeSpec Runtime OrchSchema Effects TaskInspect ApiServer ApiReads HttpServer ApiClient ApiRouting.

Definition is_err {A} (r : res A) : Prop := ∃ e, r = Err e.

Section calls.
Context `{Wire} `{!Transport} `{Digest, Codec} `{!World, Inspect} `{ListSort, GraphLib, ReplicaOrder}.
Context `{ManifestLoader, ApiEnv} `{JwtLib} `{!Framework, !ApiJson, !SystemEnv}.

(** ** The handler of a call *)
Definition handle {O} (cfg : ApiConfig) (c : call O) : Handler O :=
  match c with
  | CDeploy app => deploy_handle cfg app
  | CSource b => deploy_source_handle cfg b
  | CAction a i => action_handle cfg a i
  | CDelete i => delete_handle cfg i
  | CMove m i b => handleDeployOperation cfg (mkOperationInput i b) (move_name m)
  | CAddMember b => raft_members_add cfg b
  | CRemoveMember id => raft_members_remove cfg id
  | CRevisions i => revisions_handle i
  | CApps => apps_list
  | CApp i => apps_get i
  | CWorkloads => workloads_handle
  | CStatus i => runtime_status_handle cfg i
  | CLogs i tail => runtime_logs_handle cfg (mkLogsInput i (Z.max 0 tail))
  | CAssignments => assignments_handle
  | CVolumes => volumes_handle
  | CRaftStatus => raft_status_handle cfg
  | CMembers => raft_members_list
  | CHealth => mret (health_handle w_errorText se_health se_timestamp)
  | CReady =>
      task_view (λ t, ready_handle w_errorText (NodeURL (ac_task cfg)) (Some (raft_Status t)) se_runtimes
                        se_readiness se_timestamp)
  | CRuntimes => mret (runtime_providers_handle se_runtimes)
  | CBootstrap => mret (orchvpn_bootstrap_handle (ac_OrchVPN cfg) (ac_DNSZone cfg) se_routes)
  end.

Definition call_json {O} (c : call O) : Json O :=
  match c with
  | CDeploy _ | CSource _ => json_deploy
  | CAction _ _ => json_action
  | CDelete _ => json_deleted
  | CMove _ _ _ => json_operated
  | CAddMember _ => json_added
  | CRemoveMember _ => json_removed
  | CRevisions _ => json_revisions
  | CApps => json_apps
  | CApp _ => json_detail
  | CWorkloads => json_workloads
  | CStatus _ => json_status
  | CLogs _ _ => json_logs
  | CAssignments => json_assignments
  | CVolumes => json_volumes
  | CRaftStatus => json_raft_status
  | CMembers => json_members
  | CHealth => json_health
  | CReady => json_ready
  | CRuntimes => json_runtimes
  | CBootstrap => json_vpn
  end.

(** A body as it travels: encoded, and accepted by the server as the value it was. *)
Definition travels {B} `{!Json B} (b : B) (body : option raw) : Prop :=
  ∃ r, marshal b = Ok r ∧ body = Some r ∧ accept body = Ok b.
Definition call_body {O} (c : call O) (body : option raw) : Prop :=
  match c with
  | CDeploy app => travels app body
  | CSource b => travels b body
  | CAction _ _ => ∃ r, marshal tt = Ok r ∧ body = Some r
  | CMove _ _ b => travels b body
  | CAddMember b => travels b body
  | _ => body = None
  end.

(** The body that is sent for a call. *)
Definition sends_body {O} (c : call O) (body : option raw) : Prop :=
  match c with
  | CDeploy app => ∃ r, marshal app = Ok r ∧ body = Some r
  | CSource b => ∃ r, marshal b = Ok r ∧ body = Some r
  | CAction _ _ => ∃ r, marshal tt = Ok r ∧ body = Some r
  | CMove _ _ b => ∃ r, marshal b = Ok r ∧ body = Some r
  | CAddMember b => ∃ r, marshal b = Ok r ∧ body = Some r
  | _ => body = None
  end.
Lemma call_sends_body {O} (c : call O) body : call_body c body → sends_body c body.
Proof. destruct c; try done; intros (r & Hr & -> & _); by exists r. Qed.

Definition call_request {O} (c : call O) (authorization : string) (body : option raw) : HttpRequest :=
  mkRequest (call_method c) (call_target c) authorization body.

(** ** The server runs the handler of the call *)
Context `{!FrameworkLaws} (cfg : ApiConfig).

Lemma route_call {O} (c : call O) : safe_call c →
  route (newRouteEndpoints (ac_AuthEnabled cfg)) (call_method c) (call_path c) =
  Some (call_route (ac_AuthEnabled cfg) c, call_values c).
Proof.
  intros Hc. apply route_match; [apply call_route_in|done|by apply call_plain|by apply call_matches|].
  intros r Hr Hm Hp. by apply call_unique.
Qed.

Lemma call_query_tail i tail : (tail ≤ max_int64)%Z → query_int (call_query (CLogs i tail)) "tail" = Ok (Z.max 0 tail).
Proof.
  intros Ht. cbn [call_query]. destruct (Z.ltb_spec 0 tail).
  - change ("tail=" +:+ Itoa tail) with ("tail" +:+ "=" +:+ Itoa tail). rewrite query_int_one by lia. f_equal. lia.
  - rewrite query_int_none. f_equal. lia.
Qed.

Lemma handle_op_call {O} (c : call O) body n : safe_call c → call_body c body →
  handle_op cfg (call_op c) (call_values c) (call_query c) body n = @reply _ _ (call_json c) (handle cfg c) n.
Proof.
  destruct c as [app|b|a [ns name]|[ns name]|m [ns name] b|b|id|[ns name]| |[ns name]| |[ns a w]|[ns a w] tail| | | | | | | |];
    intros Hc Hb; try done; cbn [handle_op call_op call_body] in *.
  all: try (destruct Hb as (r & Hr & -> & Ha); unfold with_body, mbind, SE_bind, of_res; by rewrite Ha).
  pose proof (call_query_tail (mkRuntimeInput ns a w) tail (proj2 Hc)) as Hq.
  unfold mbind, SE_bind, of_res. by rewrite Hq.
Qed.

Lemma serve_call {O} (c : call O) guard authz body n : safe_call c → call_body c body →
  guard_passes cfg guard (call_path c) (call_request c authz body) = Ok tt →
  serve cfg guard (call_request c authz body) n =
  let '(r, n') := @reply _ _ (call_json c) (handle cfg c) n in (render r, n').
Proof.
  intros Hc Hb Hg. unfold serve. cbn [rq_path call_request rq_method rq_body]. rewrite call_target_cut by done.
  rewrite Hg, route_call by done. cbn [call_route rt_operation]. by rewrite handle_op_call.
Qed.

(** ** Forwarding *)

(** Where the writes of a node go. *)
Definition write_target (n : Node) : res (option string) :=
  leaderBaseURL (NodeURL (ac_task cfg)) (raft_Status (nd_task n)).
Definition base_of (url : string) : string := TrimRightByte url "/"%char.

Definition encodes {B} `{!Json B} (b : option B) (body : option raw) : Prop :=
  match b with Some b => ∃ r, marshal b = Ok r ∧ body = Some r | None => body = None end.

Lemma forwardJSON_local {B O} `{!Json B, !Json O} method path (b : option B) (out : O) n :
  write_target n = Ok None → forwardJSON cfg method path b out n = (Ok None, n).
Proof. intros Ht. unfold forwardJSON, mbind, SE_bind, task_view, of_res. unfold write_target in Ht. by rewrite Ht. Qed.

Lemma forwardJSON_refused {B O} `{!Json B, !Json O} method path (b : option B) (out : O) n e :
  write_target n = Err e → forwardJSON cfg method path b out n = (Err e, n).
Proof. intros Ht. unfold forwardJSON, mbind, SE_bind, task_view, of_res. unfold write_target in Ht. by rewrite Ht. Qed.

Lemma forwardJSON_sent {B O} `{!Json B, !Json O} method path (b : option B) (out : O) n url body :
  write_target n = Ok (Some url) → newClient (base_of url) = Ok tt → encodes b body →
  let rq := mkRequest method path (leader_authorization cfg) body in
  forwardJSON cfg method path b out n =
  (rp ← wrap "forward request to raft leader" [] (execute (nd_sent n) (base_of url) rq);
   o ← decodeForwardedJSON rp out; Ok (Some o),
   mkNode (nd_task n) (nd_sent n ++ [(base_of url, rq)])).
Proof.
  intros Ht Hn Hb rq. unfold forwardJSON, newLeaderClient, executeForwardedJSON, send, mbind, SE_bind, task_view,
    of_res, annotate, mret, SE_ret. unfold write_target in Ht. rewrite Ht. cbn beta iota zeta.
  unfold base_of in *. rewrite Hn. destruct b as [b|]; cbn in Hb.
  - destruct Hb as (r & Hr & ->). rewrite Hr. unfold rq. by destruct (execute _ _ _) as [rp|e]; [cbn; destruct (decodeForwardedJSON rp out)|].
  - subst body. unfold rq. by destruct (execute _ _ _) as [rp|e]; [cbn; destruct (decodeForwardedJSON rp out)|].
Qed.

(** Whatever happens, at most that one request leaves the node, and its own state stays. *)
Lemma forwardJSON_keeps {B O} `{!Json B, !Json O} method path (b : option B) (out : O) n url r n' :
  write_target n = Ok (Some url) → forwardJSON cfg method path b out n = (r, n') → r ≠ Ok None ∧
  nd_task n' = nd_task n ∧
  (is_err r ∧ nd_sent n' = nd_sent n ∨ ∃ body, encodes b body ∧
     nd_sent n' = nd_sent n ++ [(base_of url, mkRequest method path (leader_authorization cfg) body)]).
Proof.
  intros Ht. unfold forwardJSON, newLeaderClient, executeForwardedJSON, send, mbind, SE_bind, task_view,
    of_res, annotate, mret, SE_ret. unfold write_target in Ht. rewrite Ht. cbn beta iota zeta.
  destruct (newClient _); [|intros [= <- <-]; split_and!; [done|done|left; by split; [eexists|]]].
  destruct b as [b|]; [destruct (marshal b) as [rb|e] eqn:Hr|];
    try (intros [= <- <-]; split_and!; [done|done|left; by split; [eexists|]]).
  all: destruct (execute _ _ _) as [rp|e]; [destruct (decodeForwardedJSON rp out)|]; intros [= <- <-];
    split_and!; try done; right; eexists; (split; [|reflexivity]); cbn; eauto.
Qed.

(** *** A write either goes to the leader or is done here *)

(** The write itself, on the node's own services: what the task service or the Raft service does
    with it, and the answer made of the outcome. *)
Definition answered {A O} (fmt : string) (args : list arg) (f : A → O) (m : M (res A)) : TaskState → res O * TaskState := λ t,
  let '(r, t') := m t in (r ← wrap fmt args r; Ok (f r), t').
Definition on_raft (f : NodeHost → Service → res unit * Service) : M (res unit) := λ t,
  let '(r, sv) := f (w_nodeHost (ts_trace t)) (ts_raft t) in (r, set_raft sv t).
Definition done_here {O} (c : call O) : TaskState → res O * TaskState :=
  match c in call O return TaskState → res O * TaskState with
  | CDeploy app => answered "deploy app" [] (λ _, accepted_app app) (SubmitDeploy app)
  | CSource b =>
      match wrap "parse deploy source" [] (load_app (TrimSpace (sb_VirtualPath b)) (sb_Source b)) with
      | Ok app => answered "deploy app" [] (λ _, accepted_app app) (SubmitDeploy app)
      | Err e => λ t, (Err e, t)
      end
  | CAction a i =>
      let c := action_config cfg a in
      answered "%s app" [AStr (cf_action c)]
        (λ _, mkActionBody true (in_Name i) (NamespaceOrDefault (in_Namespace i)) (cf_status c)) (cf_submit c (path_meta i))
  | CDelete i =>
      answered "delete app" []
        (λ _, mkDeleteOutput true (in_Name i) (NamespaceOrDefault (in_Namespace i)) AssignmentStatusStopped)
        (SubmitDelete (ac_task cfg) (path_meta i))
  | CMove m i b =>
      answered "%s app" [AStr (move_name m)] fillDeployOperationOutput
        (submit_operation cfg (move_name m) (path_meta i) (mkOpOptions (ob_TargetNode b) (ob_Workloads b)))
  | CAddMember b =>
      let id := TrimSpace (am_ID b) in
      let address := TrimSpace (am_Address b) in
      answered "add raft voter" [] (λ _, mkAddOutput true (mkMemberItem id address "Voter"))
        (on_raft (λ nh, AddVoter nh (Ok tt) id address))
  | CRemoveMember id =>
      answered "remove raft member" [] (λ _, mkRemoveOutput true (TrimSpace id))
        (on_raft (λ nh, RemoveServer nh (Ok tt) (TrimSpace id)))
  | _ => λ t, (Err (Errorf "not a write" []), t)
  end.

(** A handler that does [f] on the node's services and sends nothing. *)
Definition runs_here {O} (h : Handler O) (f : TaskState → res O * TaskState) : Prop :=
  ∀ n, h n = let '(r, t) := f (nd_task n) in (r, mkNode t (nd_sent n)).

Lemma runs_task {A O} fmt args (f : A → O) (m : M (res A)) :
  runs_here (a ← annotate fmt args (task_call m); mret (f a)) (answered fmt args f m).
Proof.
  intros n. unfold mbind, SE_bind, annotate, task_call, answered, mret, SE_ret.
  by destruct (m (nd_task n)) as [[a|e] t].
Qed.
Lemma runs_raft {O} fmt args (o : O) f :
  runs_here (_ ← annotate fmt args (raft_service_call f); mret o) (answered fmt args (λ _, o) (on_raft f)).
Proof.
  intros n. unfold mbind, SE_bind, annotate, raft_service_call, answered, on_raft, mret, SE_ret.
  by destruct (f _ _) as [[a|e] sv].
Qed.
Lemma runs_source b :
  runs_here (app ← annotate "parse deploy source" [] (of_res (load_app (TrimSpace (sb_VirtualPath b)) (sb_Source b)));
             _ ← annotate "deploy app" [] (task_call (SubmitDeploy app)); mret (accepted_app app))
    (done_here (CSource b)).
Proof.
  intros n. unfold done_here, mbind at 1, SE_bind at 1, annotate at 1, of_res.
  destruct (load_app (TrimSpace (sb_VirtualPath b)) (sb_Source b)) as [app|e]; [|by destruct n].
  apply (runs_task "deploy app" [] (λ _, accepted_app app)).
Qed.

(** A source names its document. *)
Definition named {O} (c : call O) : Prop := match c with CSource b => TrimSpace (sb_VirtualPath b) ≠ "" | _ => True end.

Lemma app_path_segments i : safe_app i → app_path (path_meta i) = app_segments PathV1Deploy i.
Proof. intros [[Hs _] [Hn _]]. unfold app_path, app_segments. cbn [path_meta md_Namespace md_Name].
  by rewrite (PathEscape_id (in_Namespace i)), (PathEscape_id (in_Name i)). Qed.

Ltac write_case j b :=
  exists _, j, b; eexists _, _, _, _; split; [reflexivity|]; split; [done|];
    first [apply runs_source|cbn [done_here]; first [apply (runs_raft _ _ _)|refine (runs_task _ _ _ _)]].

Lemma write_shape {O} (c : call O) : is_write c = true → safe_call c → named c →
  ∃ (B : Type) (jb : Json B) (b : option B) zero fmt args here,
    handle cfg c = forwarded_or fmt args
      (forwardJSON cfg (Json0 := jb) (Json1 := call_json c) (call_method c) (call_target c) b zero) here ∧
    (∀ body, encodes b body ↔ sends_body c body) ∧ runs_here here (done_here c).
Proof.
  assert (∀ p, p +:+ (if (String.eqb "" "") then "" else "?" +:+ "") = p) as Ht by (intros p; apply string_nil_r).
  destruct c as [app|b|a i|i|m i b|b|id|i| |i| |i|i tail| | | | | | | |]; try done; intros _ Hc Hn;
    unfold call_target; cbn [call_query call_path]; rewrite Ht.
  - by write_case json_app (Some app).
  - cbn [handle named] in *. unfold deploy_source_handle.
    destruct (String.eqb_spec (TrimSpace (sb_VirtualPath b)) ""); [done|]. by write_case json_source (Some b).
  - unfold handle, action_handle, action_execute, forwardPath. rewrite app_path_segments by done.
    replace (cf_suffix (action_config cfg a)) with (action_suffix a) by (by destruct a).
    write_case json_unit (Some tt).
  - unfold handle, delete_handle. rewrite app_path_segments by done. write_case json_unit (@None unit).
  - unfold handle, handleDeployOperation. cbn [oi_path oi_Body]. rewrite app_path_segments by done.
    write_case json_operation (Some b).
  - write_case json_member (Some b).
  - destruct Hc as [Hc _]. unfold handle, raft_members_remove, done_here.
    rewrite (segment_text_trimmed id), (PathEscape_id id) by done. write_case json_unit (@None unit).
Qed.

Lemma forwarded_or_eq {O} fmt args (f : Handler (option O)) here n :
  forwarded_or fmt args f here n =
  match f n with
  | (Ok (Some o), n') => (Ok o, n')
  | (Ok None, n') => here n'
  | (Err e, n') => (Err (Wrapf e fmt args), n')
  end.
Proof. unfold forwarded_or, mbind, SE_bind, annotate. by destruct (f n) as [[[o|]|e] n']. Qed.

(** What a forwarded write answers, once its request was sent. *)
Lemma write_forwarded {O} (c : call O) n url body : is_write c = true → safe_call c → named c → call_body c body →
  write_target n = Ok (Some url) → newClient (base_of url) = Ok tt →
  let rq := call_request c (leader_authorization cfg) body in
  (handle cfg c n).2 = mkNode (nd_task n) (nd_sent n ++ [(base_of url, rq)]) ∧
  match execute (nd_sent n) (base_of url) rq with
  | Err _ => is_err (handle cfg c n).1
  | Ok rp =>
      if rp_success rp
      then (0 < raw_len (rp_body rp))%nat →
           match unmarshal (Json := call_json c) (rp_body rp) with
           | Ok o => (handle cfg c n).1 = Ok o
           | Err _ => is_err (handle cfg c n).1
           end
      else is_err (handle cfg c n).1
  end.
Proof.
  intros Hw Hc Hn Hb Ht Hcl rq. destruct (write_shape c Hw Hc Hn) as (B & jb & b & zero & fmt & args & here & Hh & He & _).
  rewrite Hh, forwarded_or_eq, (forwardJSON_sent _ _ b zero n url body) by (try apply He; by apply call_sends_body || done).
  change (mkRequest (call_method c) (call_target c) (leader_authorization cfg) body) with rq.
  destruct (execute (nd_sent n) (base_of url) rq) as [rp|e]; cbn; [|by split; [|eexists]].
  unfold decodeForwardedJSON. destruct (rp_success rp) eqn:Hs; cbn; [|by split; [|eexists]].
  destruct (Nat.eqb_spec (raw_len (rp_body rp)) 0) as [Hz|Hz]; cbn; [split; [done|lia]|].
  split; [|intros _]; destruct (unmarshal (rp_body rp)); cbn; try done. by eexists.
Qed.

Lemma write_sends_once {O} (c : call O) n url : is_write c = true → safe_call c → named c →
  write_target n = Ok (Some url) → nd_task (handle cfg c n).2 = nd_task n ∧
  (is_err (handle cfg c n).1 ∧ nd_sent (handle cfg c n).2 = nd_sent n ∨
   ∃ body, sends_body c body ∧
     nd_sent (handle cfg c n).2 = nd_sent n ++ [(base_of url, call_request c (leader_authorization cfg) body)]).
Proof.
  intros Hw Hc Hn Ht. destruct (write_shape c Hw Hc Hn) as (B & jb & b & zero & fmt & args & here & Hh & He & _).
  rewrite Hh, forwarded_or_eq.
  destruct (forwardJSON _ _ _ _ _ n) as [r n'] eqn:Hf.
  destruct (forwardJSON_keeps _ _ b zero n url r n' Ht Hf) as (Hne & Htask & Hsent).
  destruct r as [[o|]|e]; [|done|]; cbn; (split; [done|]); destruct Hsent as [[[e' He'] ?]|(body & Hb & ?)]; try done;
    try (right; exists body; by rewrite <-He). left. split; [by eexists|done].
Qed.

(** A write done here is that write, and sends nothing; one that cannot be routed fails without
    an effect. *)
Lemma write_local {O} (c : call O) n : is_write c = true → safe_call c → named c →
  write_target n = Ok None →
  handle cfg c n = let '(r, t) := done_here c (nd_task n) in (r, mkNode t (nd_sent n)).
Proof.
  intros Hw Hc Hn Ht. destruct (write_shape c Hw Hc Hn) as (B & jb & b & zero & fmt & args & here & Hh & _ & Hk).
  rewrite Hh, forwarded_or_eq, forwardJSON_local by done. apply Hk.
Qed.
Lemma write_refused {O} (c : call O) n e : is_write c = true → safe_call c → named c →
  write_target n = Err e → is_err (handle cfg c n).1 ∧ (handle cfg c n).2 = n.
Proof.
  intros Hw Hc Hn Ht. destruct (write_shape c Hw Hc Hn) as (B & jb & b & zero & fmt & args & here & Hh & _ & Hk).
  rewrite Hh, forwarded_or_eq, (forwardJSON_refused _ _ _ _ _ e) by done. cbn. split; [by eexists|done].
Qed.

(** ** The guard *)
Lemma guard_token g header : auth_guard cfg = Ok g → ac_AuthEnabled cfg = true → require g header = Ok tt →
  ∃ token p, resolve_credential header = Ok token ∧ verify_HS256 (ac_JWTSecret cfg) token = Ok p.
Proof.
  unfold auth_guard, NewJWTAuthenticationProvider, NewEngine, NewGuard. intros Hg Ha. rewrite Ha in Hg. cbn in Hg.
  destruct (TrimSpace (ac_JWTSecret cfg) =? "")%string; [done|]. injection Hg as <-.
  intros (resolve & token & pr & p & authorize & [= <-] & Hr & Hp & Hv & _)%require_iff.
  apply list_elem_of_singleton in Hp as ->. by exists token, p.
Qed.

Lemma guarded_routes auth r : r ∈ newDeployEndpoints auth ++ newWorkerEndpoints auth →
  existsb (extends (rt_template r)) guarded_prefixes = true.
Proof.
  intros Hr. assert (Forall (λ r, existsb (extends (rt_template r)) guarded_prefixes = true)
    (newDeployEndpoints auth ++ newWorkerEndpoints auth)) as Hf.
  { apply Forall_forall. intros x. rewrite list_elem_of_In. destruct auth; vm_compute; intuition (subst; reflexivity). }
  rewrite Forall_forall in Hf. by apply Hf.
Qed.

Lemma guard_runs r vs rq n g path query : cut_target (rq_path rq) = (path, query) → ac_AuthEnabled cfg = true →
  route (newRouteEndpoints (ac_AuthEnabled cfg)) (rq_method rq) path = Some (r, vs) →
  r ∈ newDeployEndpoints (ac_AuthEnabled cfg) ++ newWorkerEndpoints (ac_AuthEnabled cfg) →
  require g (rq_authorization rq) = Ok tt ∨
  ∃ e, require g (rq_authorization rq) = Err e ∧ serve cfg g rq n = (unauthorized e, n).
Proof.
  intros Hq Ha Hr Hg. assert (existsb (λ prefix, use_matches prefix path) guarded_prefixes = true) as Hu.
  { apply guarded_routes, existsb_exists in Hg as (prefix & Hin & He). apply existsb_exists. exists prefix.
    split; [done|]. eapply use_covers; [exact Hr| |done].
    cbn in Hin. rewrite list_elem_of_In. destruct Hin as [<-|[<-|[]]]; vm_compute; intuition discriminate. }
  unfold serve. rewrite Hq. unfold guard_passes. rewrite Ha, Hu. cbn.
  destruct (require g (rq_authorization rq)) as [[]|e]; [by left|right; by exists e].
Qed.

(** *** Paths outside the guarded prefixes *)
Lemma use_other prefix path i x y : use_matches prefix path = true →
  bytes_of prefix !! i = Some x → bytes_of path !! i = Some y → lower_ascii x = lower_ascii y.
Proof.
  intros (q & t & Hp & Hl)%use_only Hx Hy.
  assert ((lower_ascii <$> q) !! i = Some (lower_ascii x)) as Hq by (rewrite Hl, list_lookup_fmap, Hx; done).
  rewrite list_lookup_fmap in Hq. destruct (q !! i) as [z|] eqn:Hz; [|done]. injection Hq as Hq.
  rewrite Hp, lookup_app_l in Hy by (by eapply lookup_lt_Some). congruence.
Qed.

Lemma unguarded path y g rq : bytes_of path !! 8%nat = Some y → lower_ascii y ≠ "d"%char → lower_ascii y ≠ "w"%char →
  guard_passes cfg g path rq = Ok tt.
Proof.
  intros Hy Hd Hw. unfold guard_passes.
  destruct (existsb (λ prefix, use_matches prefix path) guarded_prefixes) eqn:E; [|by rewrite andb_false_r].
  exfalso. apply existsb_exists in E as (prefix & Hin & Hm). cbn in Hin.
  destruct Hin as [<-|[<-|[]]]; pose proof (use_other _ _ 8 _ _ Hm eq_refl Hy) as Hl;
    [exact (Hd (eq_sym Hl))|exact (Hw (eq_sym Hl))].
Qed.
End calls.

(** ** The client against a server *)
Section client.
Context `{Wire} `{!Transport} `{Digest, Codec} `{!World, Inspect} `{ListSort, GraphLib, ReplicaOrder}.
Context `{ManifestLoader, ApiEnv} `{JwtLib} `{!Framework, !ApiJson, !SystemEnv} `{!FrameworkLaws}.
Context (cfg : ApiConfig) (guard : Guard) (k : Client).

(** The server as the outside of the client. *)
Definition server_exec (_ : string) (rq : HttpRequest) : SE Node HttpResponse := λ n,
  let '(rp, n') := serve cfg guard rq n in (Ok rp, n').

(** The method of the client for a call. *)
Definition client_call {O} (c : call O) : SE Node O :=
  match c with
  | CDeploy app => client_Deploy server_exec k app
  | CSource b => client_DeploySource server_exec k (sb_VirtualPath b) (sb_Source b)
  | CAction a i => client_DeployAction server_exec k a (in_Namespace i) (in_Name i)
  | CDelete i => client_DeleteDeploy server_exec k (in_Namespace i) (in_Name i)
  | CMove MvMigrate i b =>
      client_MigrateDeploy server_exec k (in_Namespace i) (in_Name i) (ob_TargetNode b) (ob_Workloads b)
  | CMove MvFailover i b =>
      client_FailoverDeploy server_exec k (in_Namespace i) (in_Name i) (ob_TargetNode b) (ob_Workloads b)
  | CMove MvRebalance i b => client_RebalanceDeploy server_exec k (in_Namespace i) (in_Name i) (ob_Workloads b)
  | CAddMember b => client_AddRaftVoter server_exec k (am_ID b) (am_Address b)
  | CRemoveMember id => client_RemoveRaftMember server_exec k id
  | CRevisions i => client_ListDeployRevisions server_exec k (in_Namespace i) (in_Name i)
  | CApps => client_ListApps server_exec k
  | CApp i => client_GetApp server_exec k (in_Namespace i) (in_Name i)
  | CWorkloads => client_ListWorkloads server_exec k
  | CStatus i => client_WorkloadRuntimeStatus server_exec k (wr_Namespace i) (wr_App i) (wr_Workload i)
  | CLogs i tail => client_WorkloadLogs server_exec k (wr_Namespace i) (wr_App i) (wr_Workload i) tail
  | CAssignments => client_ListAssignments server_exec k
  | CVolumes => client_ListVolumes server_exec k
  | CRaftStatus => client_RaftStatus server_exec k
  | CMembers => client_ListRaftMembers server_exec k
  | CHealth => client_Health server_exec k
  | CReady => client_Ready server_exec k
  | CRuntimes => client_ListRuntimeProviders server_exec k
  | CBootstrap => client_OrchVPNBootstrap server_exec k
  end.

(** What the client asks of its arguments before it sends anything. *)
Definition client_args {O} (c : call O) : Prop :=
  match c with
  | CSource b => sb_VirtualPath b ≠ ""
  | CMove MvRebalance _ b => ob_TargetNode b = ""
  | CAddMember b => trimmed (am_ID b) ∧ am_ID b ≠ "" ∧ trimmed (am_Address b) ∧ am_Address b ≠ ""
  | _ => True
  end.

Lemma safe_namespace s : safe_segment s → NamespaceOrDefault s = s.
Proof.
  intros (Hs & Hne & _). unfold NamespaceOrDefault. rewrite segment_text_trimmed by done. cbn.
  by destruct (String.eqb_spec s "").
Qed.

Lemma deploy_path i suffix : safe_app i → deployActionPath (in_Namespace i) (in_Name i) suffix =
  Ok (app_segments PathV1Deploy i +:+ if (suffix =? "")%string then "" else "/" +:+ suffix).
Proof.
  intros [(Hs & Hse & _) (Hn & Hne & _)]. unfold deployActionPath, app_segments.
  rewrite (segment_text_trimmed (in_Namespace i)), (segment_text_trimmed (in_Name i)) by done.
  destruct (String.eqb_spec (in_Name i) ""); [done|]. destruct (String.eqb_spec (in_Namespace i) ""); [done|].
  rewrite (PathEscape_id (in_Namespace i)), (PathEscape_id (in_Name i)) by done.
  by destruct (String.eqb_spec suffix ""); cbn [negb]; rewrite ?string_nil_r, ?string_app_assoc.
Qed.

Lemma Itoa_unreserved z : (0 ≤ z)%Z → QueryEscape (Itoa z) = Itoa z.
Proof.
  intros Hz. apply QueryEscape_id. rewrite <-(Z2Nat.id z Hz). apply Forall_forall. intros x Hx.
  pose proof (Itoa_nat_digits (Z.to_nat z)) as Hd. rewrite forallb_forall in Hd.
  assert (is_digit x = true) as Hdx by (apply Hd; by apply list_elem_of_In).
  clear -Hdx. revert Hdx. each_byte x.
Qed.

Definition safe_workload (i : WorkloadRuntimeInput) : Prop :=
  safe_segment (wr_Namespace i) ∧ safe_segment (wr_App i) ∧ safe_segment (wr_Workload i).

Lemma normalize_ok i : safe_workload i → normalizeWorkloadPath (wr_Namespace i) (wr_App i) (wr_Workload i) =
  Ok (wr_Namespace i, wr_App i, wr_Workload i).
Proof.
  intros (Hn & (Ha & Hae & _) & (Hw & Hwe & _)). unfold normalizeWorkloadPath.
  rewrite safe_namespace, (segment_text_trimmed (wr_App i)), (segment_text_trimmed (wr_Workload i)) by done.
  destruct (String.eqb_spec (wr_App i) ""); [done|]. by destruct (String.eqb_spec (wr_Workload i) "").
Qed.

Lemma workload_path_segments i suffix : safe_workload i →
  workload_path (wr_Namespace i, wr_App i, wr_Workload i) suffix = workload_segments i +:+ suffix.
Proof.
  intros ((Hn & _) & (Ha & _) & (Hw & _)). unfold workload_path, workload_segments. cbn [fst snd].
  rewrite (PathEscape_id (wr_Namespace i)), (PathEscape_id (wr_App i)), (PathEscape_id (wr_Workload i)) by done.
  by rewrite ?string_app_assoc.
Qed.

(** Every method of the client is one request and the decoding of its answer. *)
Lemma client_sends {O} (c : call O) body n : safe_call c → client_args c → call_body c body →
  client_call c n =
  let '(rp, n') := serve cfg guard (call_request c (cl_authorization k) body) n in
  (decode_response (Json0 := call_json c) (call_method c) (call_target c) rp, n').
Proof.
  assert (∀ O (j : Json O) method path n,
    request server_exec k (Json0 := j) method path n =
    let '(rp, n') := serve cfg guard (mkRequest method path (cl_authorization k) None) n in
    (decode_response (Json0 := j) method path rp, n')) as Hreq.
  { intros. unfold request, server_exec, annotate, mbind, SE_bind, of_res. by destruct (serve _ _ _ _). }
  assert (∀ B O (jb : Json B) (j : Json O) path b r n, marshal b = Ok r →
    client_post server_exec k (Json0 := jb) (Json1 := j) path b n =
    let '(rp, n') := serve cfg guard (mkRequest "POST" path (cl_authorization k) (Some r)) n in
    (decode_response (Json0 := j) "POST" path rp, n')) as Hpost.
  { intros B' O' jb j path b r n' Hm. unfold client_post, server_exec, annotate, mbind, SE_bind, of_res.
    rewrite Hm. by destruct (serve _ _ _ _). }
  assert (∀ O (c : call O), call_query c = "" → call_target c = call_path c) as Ht.
  { intros O' c' Hq. unfold call_target. rewrite Hq. apply string_nil_r. }
  destruct c as [app|b|a i|i|m i b|b|id|i| |i| |i|i tail| | | | | | | |]; intros Hc Ha Hb;
    unfold call_request; try (rewrite Ht by done); cbn [client_call call_body safe_call client_args] in *;
    try (subst body; apply Hreq).
  - destruct Hb as (r & Hr & -> & _). by apply Hpost.
  - destruct Hb as (r & Hr & -> & _). unfold client_DeploySource.
    destruct (String.eqb_spec (sb_VirtualPath b) ""); [done|]. destruct b. by apply Hpost.
  - destruct Hb as (r & Hr & ->). unfold client_DeployAction. rewrite deploy_path by done. destruct a; by apply Hpost.
  - subst body. unfold client_DeleteDeploy. rewrite deploy_path by done.
    cbn [mbind SE_bind of_res]. unfold mbind, SE_bind, of_res. cbn [String.eqb].
    rewrite string_nil_r. apply Hreq.
  - destruct Hb as (r & Hr & -> & _).
    destruct m; unfold client_MigrateDeploy, client_FailoverDeploy, client_RebalanceDeploy, client_deployOperation;
      rewrite deploy_path by done; destruct b; cbn in Ha; subst; by apply Hpost.
  - destruct Hb as (r & Hr & -> & _), b as [id addr]. destruct Ha as (Hti & Hi & Hta & Haddr). cbn in *.
    unfold client_AddRaftVoter. rewrite Hti, Hta. destruct (String.eqb_spec id ""); [done|].
    destruct (String.eqb_spec addr ""); [done|]. by apply Hpost.
  - subst body. destruct Hc as (Hs & Hne & _). unfold client_RemoveRaftMember.
    rewrite segment_text_trimmed by done. destruct (String.eqb_spec id ""); [done|].
    rewrite PathEscape_id by done. apply Hreq.
  - subst body. unfold client_ListDeployRevisions. rewrite deploy_path by done. apply Hreq.
  - subst body. unfold client_GetApp. pose proof Hc as [Hsn (Hn & Hne & _)].
    rewrite (segment_text_trimmed (in_Name i)) by done. destruct (String.eqb_spec (in_Name i) ""); [done|].
    rewrite safe_namespace, (PathEscape_id (in_Name i)), (PathEscape_id (in_Namespace i)) by apply Hc.
    apply Hreq.
  - subst body. unfold client_WorkloadRuntimeStatus. rewrite normalize_ok by done.
    unfold mbind, SE_bind, of_res. rewrite workload_path_segments by done. apply Hreq.
  - subst body. destruct Hc as [Hc _]. unfold client_WorkloadLogs. rewrite normalize_ok by done.
    unfold mbind, SE_bind, of_res. rewrite workload_path_segments by done. unfold call_target. cbn [call_query call_path].
    destruct (Z.ltb_spec 0 tail); [|by apply Hreq]. rewrite Itoa_unreserved by lia. apply Hreq.
Qed.
End client.

(** ** Readiness *)
Lemma NodeURL_trim cfg id : NodeURL cfg (TrimSpace id) = NodeURL cfg id.
Proof. unfold NodeURL. by rewrite TrimSpace_idemp. Qed.
Lemma NodeURL_named cfg id url : NodeURL cfg id = Some url → TrimSpace id ≠ "".
Proof. unfold NodeURL. by destruct (String.eqb_spec (TrimSpace id) ""). Qed.

(** Writes are ready exactly when they can be routed, once Raft is. *)
Lemma writes_ready cfg st : st_Ready st = true →
  (writeReadiness (NodeURL cfg) st).1 = true ↔ ∃ target, leaderBaseURL (NodeURL cfg) (Ok st) = Ok target.
Proof.
  intros Hr. unfold writeReadiness, leaderBaseURL. cbn. rewrite Hr. cbn.
  destruct (st_IsLeader st); cbn; [by split; [eexists|]|]. rewrite NodeURL_trim.
  destruct (String.eqb_spec (st_LeaderID st) "") as [Heq|Hne].
  - rewrite Heq. cbn. split; [done|]. by intros [].
  - destruct (NodeURL cfg (st_LeaderID st)) as [url|] eqn:E; cbn.
    + apply NodeURL_named in E. destruct (String.eqb_spec (TrimSpace (st_LeaderID st)) ""); [done|]. by split; [eexists|].
    + split; [done|]. intros [t Ht]. by case_match.
Qed.

Lemma writeReadiness_iff nodeURL st : (writeReadiness nodeURL st).1 = true ↔
  st_IsLeader st = true ∨ (st_LeaderID st ≠ "" ∧ is_Some (nodeURL (st_LeaderID st))).
Proof.
  unfold writeReadiness. destruct (st_IsLeader st); [by split; [left|]|].
  destruct (String.eqb_spec (st_LeaderID st) ""); [by split; [|intros [?|[]]]|].
  destruct (nodeURL (st_LeaderID st)); cbn; split; try done; [by right|]. by intros [|[_ []]].
Qed.

Lemma ready_iff `{ListSort} errorText nodeURL status rt report ts :
  ro_Ready (ready_handle errorText nodeURL (Some status) rt report ts) = true ↔
  ∃ st, status = Ok st ∧ st_Ready st = true ∧ st_LeaderID st ≠ "" ∧ (writeReadiness nodeURL st).1 = true ∧
    ck_Ready (runtimeReadiness rt) = true ∧ (if report is Some r then hr_Healthy r = true else True).
Proof.
  unfold ready_handle, addRaftReadiness. destruct status as [st|e]; cbn; [|by split; [|intros (? & ? & _)]].
  destruct (writeReadiness nodeURL st) as [w d] eqn:Ew. cbn. rewrite !andb_true_iff, negb_true_iff, String.eqb_neq.
  split.
  - intros ((((H1 & H2) & H3) & H4) & H5). exists st. rewrite Ew. split_and!; try done. by destruct report.
  - intros (st' & [= <-] & H1 & H2 & H3 & H4 & H5). rewrite Ew in H3. split_and!; try done. by destruct report.
Qed.

(** The runtime check passes when a runtime is registered and no required one is missing. *)
Lemma runtime_ready_iff `{ListSort} m :
  ck_Ready (runtimeReadiness (Some m)) = true ↔
  (∃ st, st ∈ ProviderStatuses m ∧ ps_Registered st = true) ∧
  (∀ st, st ∈ ProviderStatuses m → ps_Policy st = RuntimeProviderPolicyRequired → ps_Registered st = true).
Proof.
  unfold runtimeReadiness, runtimeProviderItems.
  set (items := providerItem <$> ProviderStatuses m).
  assert (∀ p, p ∈ items ↔ ∃ st, p = providerItem st ∧ st ∈ ProviderStatuses m) as Hi by (intros p; apply list_elem_of_fmap).
  destruct (runtimeProviderMissingDetail <$> filter _ items) as [|x l] eqn:Em.
  - apply fmap_nil_inv in Em. destruct (pi_Kind <$> filter _ items) as [|y k] eqn:Er; cbn.
    + apply fmap_nil_inv in Er. split; [done|]. intros [(st & Hst & Hr) _]. exfalso.
      assert (providerItem st ∈ filter (λ p, pi_Registered p = true) items) as Hin
        by (apply list_elem_of_filter; split; [done|by apply Hi; exists st]).
      rewrite Er in Hin. by apply not_elem_of_nil in Hin.
    + split; [intros _|done]. split.
      * assert (y ∈ pi_Kind <$> filter (λ p, pi_Registered p = true) items) as Hy by (rewrite Er; by left).
        apply list_elem_of_fmap in Hy as (p & _ & [Hr Hp]%list_elem_of_filter).
        apply Hi in Hp as (st & -> & Hst). by exists st.
      * intros st Hst Hpol. destruct (ps_Registered st) eqn:Hr; [done|]. exfalso.
        assert (providerItem st ∈ filter (λ p, pi_Policy p = RuntimeProviderPolicyRequired ∧ pi_Registered p = false) items)
          as Hin by (apply list_elem_of_filter; split; [done|by apply Hi; exists st]).
        rewrite Em in Hin. by apply not_elem_of_nil in Hin.
  - cbn. split; [done|]. intros [_ Hall].
    assert (x ∈ runtimeProviderMissingDetail <$> filter (λ p, pi_Policy p = RuntimeProviderPolicyRequired ∧ pi_Registered p = false) items)
      as Hx by (rewrite Em; by left).
    apply list_elem_of_fmap in Hx as (p & _ & [[Hpol Hr] Hp]%list_elem_of_filter).
    apply Hi in Hp as (st & -> & Hst). cbn in *. rewrite (Hall st Hst Hpol) in Hr. done.
Qed.
