(* ===== verification/CliView.v ===== *)
(** * The command-line tool: what it prints (cmd/orch-cli/cmd: view.go, cluster_output.go,
      ops_output.go, diagnostics.go)

    A command writes lines to the terminal: one line of fields, or a table.  Styles and the
    layout of tables are lipgloss's, the text of floats and times is the standard library's, and
    a write may fail: they are parameters. *)
From stdpp Require Import base strings numbers list.
From Stdlib Require Import Ascii SpecFloat.
From S2P Require Import Prelude GoStrings GoTime GoList Deploy Meta GoText TaskBase Runtime Effects TaskInspect ApiServer.

(** ** The terminal *)

(** The state of a command: the outside, and what was written so far. *)
Record Term (S : Type) := mkTerm { tm_outside : S; tm_out : list string }.
Arguments mkTerm {_}. Arguments tm_outside {_}. Arguments tm_out {_}.

(** The styles of view.go that texts are rendered in. *)
Inductive Style := viewMutedStyle | viewOKStyle | viewWarnStyle | viewErrorStyle | viewInfoStyle.

Class Display := {
  Render : Style → string → string;
  (** a table with these headers and rows *)
  table_Render : list string → list (list string) → string;
  kv_Render : list (list string) → string;
  (** [strings.ToUpper] *)
  ToUpper : string → string;
  (** [strconv.FormatFloat(v, 'f', prec, 64)] *)
  FormatFloat : spec_float → nat → string;
  (** [float64(v) / float64(div)] *)
  quotient : Z → Z → spec_float;
  (** [t.Local().Format("2006-01-02 15:04:05")] *)
  local_time : Z → string;
  (** the error of a write, after what was written *)
  write_error : list string → string → option error }.

(** ** Texts *)
Definition nonEmpty (s : string) : string := if (s =? "")%string then "-" else s.
Definition FormatBool (b : bool) : string := if b then "true" else "false".
Definition boolText (value : bool) : string := if value then "yes" else "no".
Definition Itoa_nat (n : nat) : string := Itoa (Z.of_nat n).
Definition appReadyText (running total : nat) : string := Itoa_nat running +:+ "/" +:+ Itoa_nat total.
Definition appCountsText (app : AppItem) : string :=
  "run=" +:+ Itoa_nat (ap_Running app) +:+ " stop=" +:+ Itoa_nat (ap_Stopped app) +:+ " fail=" +:+
  Itoa_nat (ap_Failed app) +:+ " pending=" +:+ Itoa_nat (ap_Pending app).
Definition workloadmetaNamespace (namespace : string) : string :=
  if (namespace =? "")%string then "default" else namespace.
Definition revisionArtifacts (app : App) : string :=
  String.concat "," ((λ w,
    let artifact := art_Image (run_Artifact (w_Run w)) in
    let artifact := if (artifact =? "")%string then art_Path (run_Artifact (w_Run w)) else artifact in
    w_Name w +:+ "=" +:+ (if (artifact =? "")%string then "-" else artifact)) <$> app_Workloads app).

(** The loop of [formatBytes]: [n] counts units of [div]; six rounds are enough for 64 bits. *)
Definition u64 (z : Z) : Z := z `mod` 2 ^ 64.
Fixpoint bytes_unit (fuel : nat) (n div : Z) (exp : nat) : Z * nat :=
  match fuel with
  | O => (div, exp)
  | S f => if (1024 <=? n)%Z then bytes_unit f (n / 1024) (u64 (div * 1024)) (S exp) else (div, exp)
  end.
Definition byte_units : list string := ["KiB"; "MiB"; "GiB"; "TiB"; "PiB"; "EiB"].

(** ** Packages hostinfo and dixdiag: the fields that are printed *)
Record HostSection := mkHost {
  hs_Hostname : string; hs_OS : string; hs_Platform : string; hs_KernelVersion : string; hs_KernelArch : string }.
Record CPUSection := mkCPU { cpu_LogicalCores : Z; cpu_ModelName : string; cpu_UsagePercent : spec_float }.
Record MemorySection := mkMemory { mem_TotalBytes : Z; mem_UsedPercent : spec_float }.
Record LoadSection := mkLoad { ld_Load1 : spec_float; ld_Load5 : spec_float; ld_Load15 : spec_float }.
Record HostReport := mkHostReport {
  hr_Host : HostSection; hr_CPU : CPUSection; hr_Memory : MemorySection; hr_Load : option LoadSection }.

Record HookInfo := mkHook {
  hk_Name : string; hk_Label : string; hk_Priority : Z; hk_Parallel : bool; hk_Timeout : string }.
Record RecentEvent := mkRecentEvent {
  ev_At : Z; ev_Type : string; ev_Operation : string; ev_Target : string; ev_Status : string; ev_Duration : string;
  ev_Detail : string }.
Record DixSnapshot := mkDixSnapshot {
  sn_Name : string; sn_State : string; sn_Version : string; sn_BuildDuration : string; sn_StartDuration : string;
  sn_Start : list HookInfo; sn_Stop : list HookInfo;
  sn_Count : Z; sn_Capacity : Z; sn_Recent : list RecentEvent; sn_Nodes : Z; sn_Edges : Z }.

Section view.
Context `{UnicodeLower, Display} {S : Type}.
Abbreviation Cmd := (SE (Term S)).

(** [fmt.Fprint(os.Stdout, s)] *)
Definition write_out (s : string) : Cmd unit := λ t,
  match write_error (tm_out t) s with
  | Some e => (Err e, t)
  | None => (Ok tt, mkTerm (tm_outside t) (tm_out t ++ [s]))
  end.

Definition writeLine (s : string) : Cmd unit := annotate "write terminal output" [] (write_out (s +:+ of_bytes [byteZ 10])).

Definition viewField (key value : string) : string :=
  Render viewMutedStyle (TrimSpace key +:+ "=") +:+ TrimSpace value.
Definition writeInfoLine (label : string) (fields : list string) : Cmd unit :=
  writeLine (String.concat " " (Render viewInfoStyle (ToUpper (TrimSpace label)) :: fields)).

Definition writeTable (headers : list string) (rows : list (list string)) : Cmd unit :=
  match rows with
  | [] => writeLine (Render viewMutedStyle "No resources found.")
  | _ => writeLine (table_Render headers rows)
  end.
Definition writeKVTable (rows : list (list string)) : Cmd unit := writeLine (kv_Render rows).

Definition badge_style (normalized : string) : Style :=
  if existsb (String.eqb normalized) ["ok"; "ready"; "running"; "accepted"] then viewOKStyle
  else if existsb (String.eqb normalized) ["assigned"; "partial"; "pending"; "starting"; "stopped"; "not_ready"] then viewWarnStyle
  else if existsb (String.eqb normalized) ["failed"; "error"; "unhealthy"] then viewErrorStyle
  else viewInfoStyle.
Definition statusBadge (status : string) : string :=
  let normalized := ToLower (TrimSpace status) in
  Render (badge_style normalized) (ToUpper (nonEmpty normalized)).

Definition formatPercent (v : spec_float) : string := FormatFloat v 1 +:+ "%".
Definition formatBytes (v : Z) : string :=
  if (v <? 1024)%Z then Itoa v +:+ " B"
  else
    let '(div, exp) := bytes_unit 6 (v / 1024) 1024 0 in
    FormatFloat (quotient v div) 1 +:+ " " +:+ default "" (byte_units !! exp).
Definition formatTime (t : Z) : string := if (t =? 0)%Z then "-" else local_time t.

(** ** cluster_output.go *)
Definition writeDeployOperationHuman (label : string) (out : DeployOperationOutput) : Cmd unit :=
  writeInfoLine label
    ([viewField "status" (statusBadge (oo_Status out)); viewField "app" (oo_App out);
      viewField "namespace" (oo_Namespace out);
      viewField "moved" (Itoa_nat (oo_Moved out) +:+ "/" +:+ Itoa_nat (oo_Selected out))] ++
     if negb (oo_Target out =? "")%string then [viewField "target" (oo_Target out)] else []).

Definition writeHostinfoHuman (r : HostReport) : Cmd unit :=
  writeKVTable
    ([["hostname"; hs_Hostname (hr_Host r)]; ["os"; hs_OS (hr_Host r)]; ["platform"; hs_Platform (hr_Host r)];
      ["kernel"; hs_KernelVersion (hr_Host r)]; ["arch"; hs_KernelArch (hr_Host r)];
      ["cpu_cores"; Itoa (cpu_LogicalCores (hr_CPU r))]; ["cpu_model"; cpu_ModelName (hr_CPU r)];
      ["cpu_usage"; formatPercent (cpu_UsagePercent (hr_CPU r))];
      ["memory_total"; formatBytes (mem_TotalBytes (hr_Memory r))];
      ["memory_used"; formatPercent (mem_UsedPercent (hr_Memory r))]] ++
     match hr_Load r with
     | Some l => [["load_1"; FormatFloat (ld_Load1 l) 2]; ["load_5"; FormatFloat (ld_Load5 l) 2];
                  ["load_15"; FormatFloat (ld_Load15 l) 2]]
     | None => []
     end).

Definition writeWorkloadsHuman (items : list WorkloadItem) : Cmd unit :=
  writeTable ["NAME"; "NODE"; "RUNTIME"; "STATUS"; "ARTIFACT"]
    ((λ w, [wi_Name w; if (wi_Node w =? "")%string then "-" else wi_Node w; wi_Runtime w;
            statusBadge (wi_Status w); wi_Artifact w]) <$> items).
Definition writeAssignmentsHuman (items : list AssignmentItem) : Cmd unit :=
  writeTable ["KEY"; "NODE"; "RUNTIME"; "STATUS"; "ARTIFACT"; "ERROR"]
    ((λ a, [ai_Key a; nonEmpty (ai_Node a); ai_Runtime a; statusBadge (ai_Status a); nonEmpty (ai_Artifact a);
            nonEmpty (ai_Error a)]) <$> items).
Definition writeVolumesHuman (items : list VolumeBindingItem) : Cmd unit :=
  writeTable ["KEY"; "NODE"; "RUNTIME"; "STATUS"; "SOURCE"; "MOUNT"; "ERROR"]
    ((λ v, [vi_Key v; nonEmpty (vi_Node v); vi_Runtime v; statusBadge (vi_Status v); nonEmpty (vi_Source v);
            nonEmpty (vi_Workload v) +:+ (if negb (vi_Target v =? "")%string then ":" +:+ vi_Target v else "");
            nonEmpty (vi_Error v)]) <$> items).
Definition writeRuntimesHuman (items : list RuntimeProviderItem) : Cmd unit :=
  writeTable ["RUNTIME"; "POLICY"; "AVAILABLE"; "REGISTERED"; "STATUS"; "REASON"]
    ((λ i, [pi_Kind i; pi_Policy i; FormatBool (pi_Available i); FormatBool (pi_Registered i);
            statusBadge (pi_Status i); nonEmpty (pi_Reason i)]) <$> items).
Definition writeAppsHuman (items : list AppItem) : Cmd unit :=
  writeTable ["NAMESPACE"; "NAME"; "STATUS"; "READY"; "GENERATION"; "OBSERVED"; "REVISIONS"; "ROLLBACK"; "PREVIOUS";
              "COUNTS"; "UPDATED"; "ERROR"]
    ((λ a, [ap_Namespace a; ap_Name a; statusBadge (ap_Status a); appReadyText (ap_Running a) (ap_DesiredWorkloads a);
            nonEmpty (ap_DesiredGeneration a); nonEmpty (ap_ObservedGeneration a); Itoa_nat (ap_RevisionCount a);
            boolText (ap_RollbackAvailable a); nonEmpty (ap_PreviousGeneration a); appCountsText a;
            formatTime (ap_LastTransitionAt a); nonEmpty (ap_LastError a)]) <$> items).
Definition writeAppRevisionsHuman (items : list AppRevisionItem) : Cmd unit :=
  match items with
  | [] => writeLine (Render viewMutedStyle "No rollback revisions recorded.")
  | _ => writeTable ["NAMESPACE"; "NAME"; "GENERATION"; "WORKLOADS"; "ARTIFACTS"]
           ((λ i, [workloadmetaNamespace (md_Namespace (ri_Metadata i)); md_Name (ri_Metadata i);
                   nonEmpty (ri_Generation i); Itoa_nat (ri_Workloads i); revisionArtifacts (ri_App i)]) <$> items)
  end.

Definition writeAppDetailHuman (d : AppDetailItem) : Cmd unit :=
  let a := ad_AppItem d in
  _ ← writeKVTable [["namespace"; ap_Namespace a]; ["name"; ap_Name a]; ["status"; statusBadge (ap_Status a)];
        ["generation"; nonEmpty (ap_DesiredGeneration a)]; ["observed_generation"; nonEmpty (ap_ObservedGeneration a)];
        ["ready"; appReadyText (ap_Running a) (ap_DesiredWorkloads a)]; ["workloads"; Itoa_nat (ap_DesiredWorkloads a)];
        ["running"; Itoa_nat (ap_Running a)]; ["stopped"; Itoa_nat (ap_Stopped a)]; ["failed"; Itoa_nat (ap_Failed a)];
        ["pending"; Itoa_nat (ap_Pending a)]; ["last_transition"; formatTime (ap_LastTransitionAt a)];
        ["last_error"; nonEmpty (ap_LastError a)]; ["revision_count"; Itoa_nat (ap_RevisionCount a)];
        ["rollback_available"; FormatBool (ap_RollbackAvailable a)];
        ["previous_generation"; nonEmpty (ap_PreviousGeneration a)]];
  _ ← writeLine "";
  writeTable ["WORKLOAD"; "KIND"; "RUNTIME"; "NODE"; "STATUS"; "GENERATION"; "ARTIFACT"; "ERROR"]
    ((λ w, [aw_Name w; aw_Kind w; aw_Runtime w; nonEmpty (aw_Node w); statusBadge (aw_Status w);
            nonEmpty (aw_Generation w); nonEmpty (aw_Artifact w); nonEmpty (aw_Error w)]) <$> ad_Workloads d).

Definition writeRaftStatusHuman (b : RaftStatusOutput) : Cmd unit :=
  let role := if rso_IsLeader b then "leader" else "follower" in
  let role := if negb (rso_Ready b) then "-" else role in
  writeKVTable [["ready"; FormatBool (rso_Ready b)]; ["state"; statusBadge (rso_State b)]; ["role"; role];
    ["node_id"; nonEmpty (rso_NodeID b)]; ["leader_id"; nonEmpty (rso_LeaderID b)];
    ["leader_address"; nonEmpty (rso_LeaderAddress b)]; ["leader_api"; nonEmpty (rso_LeaderAPIURL b)];
    ["local_address"; nonEmpty (rso_LocalAddress b)]; ["members"; Itoa_nat (length (rso_Members b))]].
Definition writeRaftMembersHuman (items : list RaftMemberItem) : Cmd unit :=
  writeTable ["ID"; "ADDRESS"; "SUFFRAGE"] ((λ m, [rm_ID m; rm_Address m; rm_Suffrage m]) <$> items).

(** ** ops_output.go *)
Definition writeReadyHuman (out : ReadyOutput) : Cmd unit :=
  _ ← writeInfoLine "ready" [viewField "status" (statusBadge (ro_Status out)); viewField "time" (ro_Timestamp out)];
  writeTable ["CHECK"; "READY"; "STATUS"; "DETAIL"]
    ((λ c, [ck_Name c; FormatBool (ck_Ready c); statusBadge (ck_Status c); nonEmpty (ck_Detail c)]) <$> ro_Checks out).
Definition writeEventsHuman (items : list AssignmentItem) : Cmd unit :=
  writeTable ["TIME"; "KEY"; "NODE"; "RUNTIME"; "STATUS"; "ERROR"]
    ((λ i, [formatTime (ai_UpdatedAt i); ai_Key i; nonEmpty (ai_Node i); ai_Runtime i; statusBadge (ai_Status i);
            nonEmpty (ai_Error i)]) <$> items).

Definition writeLocalNodeHuman (name : string) (raft : RaftStatusOutput) (host : HostReport) : Cmd unit :=
  writeKVTable [["node_id"; nonEmpty name]; ["hostname"; nonEmpty (hs_Hostname (hr_Host host))];
    ["os"; hs_OS (hr_Host host)]; ["arch"; hs_KernelArch (hr_Host host)]; ["raft_ready"; FormatBool (rso_Ready raft)];
    ["raft_state"; statusBadge (rso_State raft)]; ["raft_leader"; nonEmpty (rso_LeaderID raft)];
    ["raft_address"; nonEmpty (rso_LocalAddress raft)]; ["cpu_cores"; Itoa (cpu_LogicalCores (hr_CPU host))];
    ["cpu_usage"; formatPercent (cpu_UsagePercent (hr_CPU host))];
    ["memory_total"; formatBytes (mem_TotalBytes (hr_Memory host))];
    ["memory_used"; formatPercent (mem_UsedPercent (hr_Memory host))]].

Definition writeRaftMemberNodeHuman (name : string) (raft : RaftStatusOutput) : Cmd unit :=
  match filter (λ m, rm_ID m = name) (rso_Members raft) with
  | [] => raise (Errorf "node %q not found in raft members" [AStr name])
  | found :: _ =>
      writeKVTable [["node_id"; rm_ID found]; ["raft_address"; rm_Address found]; ["suffrage"; rm_Suffrage found];
        ["leader"; FormatBool (rm_ID found =? rso_LeaderID raft)%string];
        ["local"; FormatBool (rm_ID found =? rso_NodeID raft)%string]]
  end.

Definition writeWorkloadRuntimeStatusHuman (b : RuntimeStatus) : Cmd unit :=
  writeKVTable [["name"; nonEmpty (rs_Name b)]; ["runtime"; rs_Runtime b]; ["status"; statusBadge (rs_Status b)];
    ["native_id"; nonEmpty (rs_NativeID b)]; ["started_at"; formatTime (rs_StartedAt b)];
    ["updated_at"; formatTime (rs_UpdatedAt b)]; ["message"; nonEmpty (rs_Message b)]].

(** ** diagnostics.go *)
Definition writeDiagnosticsRuntime (rt : RuntimeDiagnostics) : Cmd unit :=
  match rd_Providers rt with
  | [] => mret tt
  | _ => _ ← writeRuntimesHuman (rd_Providers rt); writeLine ""
  end.
Definition hook_row (phase : string) (hook : HookInfo) : list string :=
  [phase; nonEmpty (if (hk_Name hook =? "")%string then hk_Label hook else hk_Name hook); Itoa (hk_Priority hook);
   FormatBool (hk_Parallel hook); nonEmpty (hk_Timeout hook)].
Definition writeDiagnosticsLifecycle (s : DixSnapshot) : Cmd unit :=
  writeTable ["PHASE"; "HOOK"; "PRIORITY"; "PARALLEL"; "TIMEOUT"]
    ((hook_row "start" <$> sn_Start s) ++ (hook_row "stop" <$> sn_Stop s)).
Definition writeDiagnosticsEvents (events : list RecentEvent) : Cmd unit :=
  match events with
  | [] => writeLine (Render viewMutedStyle "No recent dix events.")
  | _ => writeTable ["TIME"; "TYPE"; "OP"; "TARGET"; "STATUS"; "DURATION"; "DETAIL"]
           ((λ e, [formatTime (ev_At e); ev_Type e; nonEmpty (ev_Operation e); nonEmpty (ev_Target e);
                   statusBadge (ev_Status e); nonEmpty (ev_Duration e); nonEmpty (ev_Detail e)]) <$>
            drop (length events - 20) events)
  end.
Definition writeDiagnosticsHuman (b : DiagnosticsBody DixSnapshot) : Cmd unit :=
  let s := db_Snapshot b in
  _ ← writeInfoLine "diagnostics" [viewField "app" (nonEmpty (sn_Name s)); viewField "state" (statusBadge (sn_State s));
        viewField "version" (nonEmpty (sn_Version s)); viewField "build" (nonEmpty (sn_BuildDuration s));
        viewField "start" (nonEmpty (sn_StartDuration s));
        viewField "events" (Itoa (sn_Count s) +:+ "/" +:+ Itoa (sn_Capacity s));
        viewField "graph" (Itoa (sn_Nodes s) +:+ "/" +:+ Itoa (sn_Edges s))];
  _ ← writeLine "";
  _ ← writeDiagnosticsRuntime (db_Runtime b);
  _ ← writeDiagnosticsLifecycle s;
  _ ← writeLine "";
  writeDiagnosticsEvents (sn_Recent s).
End view.
