(* ===== verification/Cli.v ===== *)
(** * The command-line tool: commands (cmd/orch-cli: cliapp, cmd)

    Each command connects, calls the API client and prints.  The loops that wait poll the API
    until a condition holds, a terminal failure is seen or the time is over.  Cobra (arguments
    and flags), the dependency container (dix), the progress spinner, the file system and the
    retry loop of package backoff are parameters or are left out where they only show progress. *)
From stdpp Require Import base strings numbers gmap list.
From Stdlib Require Import Ascii.
From S2P Require Import Prelude GoStrings GoTime GoList Deploy Dependency Validate Meta GoText Fsm TaskBase TaskOps Compose Runtime OrchDsl OrchSchema Effects TaskInspect ApiServer ApiReads HttpServer ApiClient CliView.

(** ** Package errors *)

(** [errors.Is] of an error and its causes. *)
Fixpoint errors_Is (e target : error) : bool :=
  bool_decide (e = target) || match e with Wrapf cause _ _ => errors_Is cause target | Errorf _ _ => false end.

Definition errWaitPending : error := Errorf "wait pending" [].

(** ** cluster_watch.go: what a deploy is waited for *)
Record deploySnapshot := mkSnap {
  sp_Assignments : list AssignmentItem; sp_Workloads : list WorkloadItem; sp_Total : nat;
  sp_RunningAssignments : nat; sp_RunningWorkloads : nat; sp_FailedAssignment : option AssignmentItem }.
Definition newDeploySnapshot (total : nat) : deploySnapshot := mkSnap [] [] total 0 0 None.
Definition deploySnapshotReady (s : deploySnapshot) : bool :=
  (sp_RunningAssignments s =? sp_Total s)%nat && (sp_RunningWorkloads s =? sp_Total s)%nat.

Definition add_expected (meta : Metadata) (acc : gset string * gset string) (w : Workload) : gset string * gset string :=
  let key := AssignmentKey meta (w_Name w) in
  if (key =? "")%string then acc else ({[key]} ∪ acc.1, {[w_Name w]} ∪ acc.2).
Definition expectedDeployWorkloads (app : option App) : gset string * gset string :=
  match app with
  | None => (∅, ∅)
  | Some app => fold_left (add_expected (app_Metadata app)) (app_Workloads app) (∅, ∅)
  end.

Definition assignmentMatchesExpectedGeneration (a : AssignmentItem) (expected : string) : bool :=
  let expected := TrimSpace expected in
  (expected =? "")%string || (TrimSpace (ai_Generation a) =? expected)%string.

Definition collect_assignment (keys : gset string) (generation : string) (s : deploySnapshot) (a : AssignmentItem)
    : deploySnapshot :=
  if negb (bool_decide (ai_Key a ∈ keys)) then s
  else
    let matches := assignmentMatchesExpectedGeneration a generation in
    mkSnap (sp_Assignments s ++ [a]) (sp_Workloads s) (sp_Total s)
      (if matches && (ai_Status a =? AssignmentStatusRunning)%string then S (sp_RunningAssignments s) else sp_RunningAssignments s)
      (sp_RunningWorkloads s)
      (if matches && (ai_Status a =? AssignmentStatusFailed)%string && negb (bool_decide (is_Some (sp_FailedAssignment s)))
       then Some a else sp_FailedAssignment s).
Definition collectAssignmentSnapshot (s : deploySnapshot) (items : list AssignmentItem) (keys : gset string)
    (generation : string) : deploySnapshot := fold_left (collect_assignment keys generation) items s.

Definition collect_workload (names : gset string) (s : deploySnapshot) (w : WorkloadItem) : deploySnapshot :=
  if negb (bool_decide (wi_Name w ∈ names)) then s
  else mkSnap (sp_Assignments s) (sp_Workloads s ++ [w]) (sp_Total s) (sp_RunningAssignments s)
         (if (wi_Status w =? "running")%string then S (sp_RunningWorkloads s) else sp_RunningWorkloads s)
         (sp_FailedAssignment s).
Definition collectWorkloadSnapshot (s : deploySnapshot) (items : list WorkloadItem) (names : gset string)
    : deploySnapshot := fold_left (collect_workload names) items s.

Definition watchStatusText (s : option deploySnapshot) (total : nat) (suffix : string) : string :=
  let '(ra, rw, total) :=
    match s with
    | Some s => (sp_RunningAssignments s, sp_RunningWorkloads s, if (0 <? sp_Total s)%nat then sp_Total s else total)
    | None => (0, 0, total)
    end in
  let text := "waiting for workloads assignments=" +:+ Itoa_nat ra +:+ "/" +:+ Itoa_nat total +:+ " runtime=" +:+
              Itoa_nat rw +:+ "/" +:+ Itoa_nat total in
  if negb (suffix =? "")%string then text +:+ " " +:+ suffix else text.

(** ** ops_wait.go: what a wait remembers ([waitReady] and [appStatusWaiter]) *)
Record waitState (A : Type) := mkWait { wt_last : option A; wt_lastErr : option error; wt_permanentErr : option error }.
Arguments mkWait {_}. Arguments wt_last {_}. Arguments wt_lastErr {_}. Arguments wt_permanentErr {_}.

(** ** What a command asks of the outside *)
Record applyWatchOutput := mkApplyWatch {
  aw_Accepted : bool; aw_App : string; aw_Workloads : nat; aw_Assignments : list AssignmentItem;
  aw_Registry : list WorkloadItem }.

Class CliJson `{Wire} := {
  json_hostinfo :: Json HostReport; json_diagnostics :: Json (DiagnosticsBody DixSnapshot);
  json_apply_watch :: Json applyWatchOutput }.

Section cli.
Context `{UnicodeLower, Display, Polling} `{Digest} `{GraphLib, ListSort, DslLib, HIRMapper, Manifests}.
Context `{Wire} `{!ApiJson, !CliJson} {S : Type}.
Context (new_http : string → res unit) (exec : string → HttpRequest → SE S HttpResponse).
(** The result of starting a container of dependencies; indentation of JSON; [fs.ReadFile] of a
    name in a directory; [os.ReadFile]; compiling a file; reading a Compose file. *)
Context (start_app : string → res unit) (indent : string → string) (readFile : string → string → res string).
Context (readPath : string → res string) (compileFile : string → res (option (list HIRForm))).
Context (loadCompose : string → res ImportResult) (yamlText : App → res string).
(** The text of an error, as [%s] of a duration and messages show it. *)
Context (durationText : Z → string).
(** The flags [--server] and [--token]. *)
Context (serverURL authToken : string).
Abbreviation Cmd := (SE (Term S)).

(** A call of the client. *)
Definition remote {A} (m : SE S A) : Cmd A := λ t,
  let '(r, s) := m (tm_outside t) in (r, mkTerm s (tm_out t)).

(** [enc.Encode(v)] on the standard output, indented. *)
Definition encode {A} `{!Json A} (a : A) : Cmd unit := r ← of_res (marshal a); write_out (indent (raw_text r)).

(** ** cliapp *)
Definition RunCluster (fn : Client → Cmd unit) : Cmd unit :=
  _ ← annotate "start orch-cli-cluster" [] (of_res (start_app "orch-cli-cluster"));
  c ← annotate "resolve HTTP client" [] (of_res (client_New new_http serverURL authToken));
  fn c.
Definition RunManifest (fn : Cmd unit) : Cmd unit :=
  _ ← annotate "start orch-cli-manifest" [] (of_res (start_app "orch-cli-manifest")); fn.

(** ** cluster_watch.go *)
Record deployWatcher := mkWatcher {
  dw_last : option deploySnapshot; dw_lastErr : option error; dw_permanentErr : option error }.
Definition newDeployWatcher : deployWatcher := mkWatcher None None None.

Definition readDeploySnapshot (c : Client) (keys names : gset string) (generation : string) : Cmd deploySnapshot :=
  assignments ← annotate "list assignments" [] (remote (client_ListAssignments exec c));
  workloads ← annotate "list workloads" [] (remote (client_ListWorkloads exec c));
  mret (collectWorkloadSnapshot (collectAssignmentSnapshot (newDeploySnapshot (size keys)) assignments keys generation)
          workloads names).

Definition failedAssignment (failed : AssignmentItem) : error :=
  Errorf "workload %s failed on node %s: %s" [AStr (ai_Key failed); AStr (nonEmpty (ai_Node failed)); AStr (nonEmpty (ai_Error failed))].

Definition recordSnapshot (s : deploySnapshot) (w : deployWatcher) : outcome deploySnapshot * deployWatcher :=
  match sp_FailedAssignment s with
  | Some failed =>
      let e := failedAssignment failed in (Permanent e, mkWatcher (Some s) (dw_lastErr w) (Some e))
  | None =>
      let w := mkWatcher (Some s) (dw_lastErr w) (dw_permanentErr w) in
      if deploySnapshotReady s then (Done s, w) else (Again errWaitPending, w)
  end.

Definition watcher_poll (c : Client) (keys names : gset string) (generation : string) (st : deployWatcher * Term S)
    : outcome deploySnapshot * (deployWatcher * Term S) :=
  match readDeploySnapshot c keys names generation st.2 with
  | (Err e, t) => (Again e, (mkWatcher (dw_last st.1) (Some e) (dw_permanentErr st.1), t))
  | (Ok s, t) => let '(o, w) := recordSnapshot s st.1 in (o, (w, t))
  end.

Definition watcher_result (total : nat) (timeout : Z) (r : retried deploySnapshot) (w : deployWatcher)
    : res deploySnapshot :=
  match r with
  | RetryDone s => Ok s
  | RetryFailed e =>
      match dw_permanentErr w, dw_lastErr w with
      | Some p, _ => Err p
      | None, Some le =>
          if negb (errors_Is e errWaitPending)
          then Err (Wrapf le "wait for deploy status timed out after %s" [AStr (durationText timeout)])
          else Err (Errorf "wait for deploy status timed out after %s: %s"
                      [AStr (durationText timeout); AStr (watchStatusText (dw_last w) total "")])
      | None, None => Err (Errorf "wait for deploy status timed out after %s: %s"
                             [AStr (durationText timeout); AStr (watchStatusText (dw_last w) total "")])
      end
  end.

Definition watchDeployment (c : Client) (app : option App) (timeout : Z) : Cmd deploySnapshot := λ t,
  if (timeout <=? 0)%Z then (Err (Errorf "--timeout must be greater than zero" []), t)
  else
    let '(keys, names) := expectedDeployWorkloads app in
    let generation := match app with Some app => AppGeneration app | None => "" end in
    if (size keys =? 0)%nat then (Ok (newDeploySnapshot 0), t)
    else
      let '(r, (w, t')) := Retry_for timeout (watcher_poll c keys names generation) (newDeployWatcher, t) in
      (watcher_result (size keys) timeout r w, t').

(** ** ops_wait.go: waiting for readiness *)
Definition ready_poll (c : Client) (st : waitState ReadyOutput * Term S) : outcome ReadyOutput * (waitState ReadyOutput * Term S) :=
  match remote (client_Ready exec c) st.2 with
  | (Err e, t) => (Again (Wrapf e "ready" []), (mkWait (wt_last st.1) (Some e) None, t))
  | (Ok out, t) =>
      (if ro_Ready out then Done out else Again errWaitPending, (mkWait (Some out) (wt_lastErr st.1) None, t))
  end.

(** The error of a wait that timed out. *)
Definition timed_out (fmt : string) (timeout : Z) (lastErr : option error) (e : error) : error :=
  match lastErr with
  | Some le => if negb (errors_Is e errWaitPending) then Wrapf le fmt [AStr (durationText timeout)]
               else Errorf fmt [AStr (durationText timeout)]
  | None => Errorf fmt [AStr (durationText timeout)]
  end.

Definition waitReady (c : Client) (timeout : Z) : Cmd ReadyOutput := λ t,
  if (timeout <=? 0)%Z then (Err (Errorf "--timeout must be greater than zero" []), t)
  else
    let '(r, (w, t')) := Retry_for timeout (ready_poll c) (mkWait None None None, t) in
    (match r with
     | RetryDone out => Ok out
     | RetryFailed e => Err (timed_out "wait ready timed out after %s" timeout (wt_lastErr w) e)
     end, t').

(** ** ops_wait.go: waiting for the status of an application *)
Definition app_failed (name : string) (out : AppDetailItem) : error :=
  Errorf "app %s reached failed status: %s" [AStr name; AStr (nonEmpty (ap_LastError (ad_AppItem out)))].

Definition recordOutput (name target : string) (out : AppDetailItem) (w : waitState AppDetailItem)
    : outcome AppDetailItem * waitState AppDetailItem :=
  let status := ToLower (TrimSpace (ap_Status (ad_AppItem out))) in
  let last := mkWait (Some out) (wt_lastErr w) (wt_permanentErr w) in
  if (status =? target)%string then (Done out, last)
  else if (status =? "failed")%string && negb (target =? "failed")%string
  then let e := app_failed name out in (Permanent e, mkWait (Some out) (wt_lastErr w) (Some e))
  else (Again errWaitPending, last).

Definition app_poll (c : Client) (namespace name target : string) (st : waitState AppDetailItem * Term S)
    : outcome AppDetailItem * (waitState AppDetailItem * Term S) :=
  match remote (client_GetApp exec c namespace name) st.2 with
  | (Err e, t) => (Again (Wrapf e "get app" []), (mkWait (wt_last st.1) (Some e) (wt_permanentErr st.1), t))
  | (Ok out, t) => let '(o, w) := recordOutput name target out st.1 in (o, (w, t))
  end.

Definition wait_result (timeout : Z) (r : retried AppDetailItem) (w : waitState AppDetailItem) : res AppDetailItem :=
  match r with
  | RetryDone out => Ok out
  | RetryFailed e =>
      match wt_permanentErr w with
      | Some p => Err p
      | None => Err (timed_out "wait app timed out after %s" timeout (wt_lastErr w) e)
      end
  end.

Definition wait_target (raw : string) : string :=
  let target := ToLower (TrimSpace raw) in if (target =? "")%string then "running" else target.
Definition waitAppStatus (c : Client) (namespace name rawTarget : string) (timeout : Z) : Cmd AppDetailItem := λ t,
  let target := wait_target rawTarget in
  if (timeout <=? 0)%Z then (Err (Errorf "--timeout must be greater than zero" []), t)
  else
    let '(r, (w, t')) := Retry_for timeout (app_poll c namespace name target) (mkWait None None None, t) in
    (wait_result timeout r w, t').

(** ** manifest.go, loader/service.go (LoadApp), v1alpha1/load.go (LoadAppFile) *)
Definition v1_LoadAppFile (rawPath : string) : res App :=
  let path := path_Clean rawPath in
  b ← wrap "read %s" [AStr (filepath_Base path)] (readPath path);
  wrap "parse %s" [AStr (filepath_Base path)] (ParseAppYAML b).
Definition orch_LoadAppFile (path : string) : res App := appFromCompileResult path (compileFile path).
Definition LoadApp (path : string) : res App :=
  if EqualFold (Ext path) ".orch" then wrap "load orch file" [] (orch_LoadAppFile path)
  else wrap "load app file" [] (v1_LoadAppFile path).

Definition loadValidatedManifest (file : string) : res App :=
  if (file =? "")%string then Err (Errorf "--file is required" [])
  else
    app ← wrap "load manifest" [] (LoadApp file);
    _ ← wrap "validate manifest" [] (Validate app);
    Ok app.
Definition runValidateManifest (file : string) : Cmd unit :=
  app ← of_res (loadValidatedManifest file);
  writeInfoLine "validate" [viewField "status" (statusBadge "ok"); viewField "app" (md_Name (app_Metadata app));
                            viewField "namespace" (md_Namespace (app_Metadata app))].
Definition runParseManifest (file : string) (jsonOut : bool) : Cmd unit :=
  app ← of_res (loadValidatedManifest file);
  if jsonOut then annotate "encode manifest JSON" [] (encode app)
  else writeInfoLine "manifest" [viewField "app" (md_Name (app_Metadata app));
         viewField "namespace" (md_Namespace (app_Metadata app));
         viewField "workloads" (Itoa_nat (length (app_Workloads app)));
         viewField "ingresses" (Itoa_nat (length (app_Ingresses app)));
         viewField "volumes" (Itoa_nat (length (app_Volumes app)));
         viewField "configs" (Itoa_nat (length (app_Configs app)));
         viewField "secrets" (Itoa_nat (length (app_Secrets app)))].
Definition validate_command (file : string) : Cmd unit := RunManifest (runValidateManifest file).
Definition parse_command (file : string) (jsonOut : bool) : Cmd unit := RunManifest (runParseManifest file jsonOut).

(** ** compose.go; warnings go to the terminal through pterm and are left out *)
Definition writeComposeImportApp (app : App) (jsonOut : bool) : Cmd unit :=
  if jsonOut then annotate "encode JSON" [] (encode app)
  else annotate "encode YAML" [] (text ← of_res (yamlText app); write_out text).
Definition runComposeImportCommand (file : string) (jsonOut : bool) : Cmd unit :=
  if (file =? "")%string then raise (Errorf "--file is required" [])
  else
    res ← annotate "import compose file" [] (of_res (loadCompose file));
    _ ← annotate "validate imported App" [] (of_res (Validate (im_App res)));
    writeComposeImportApp (im_App res) jsonOut.
Definition compose_import_command (file : string) (jsonOut : bool) : Cmd unit :=
  RunManifest (runComposeImportCommand file jsonOut).

(** ** cluster_apply.go *)
Definition readManifestFile (path : string) : res string :=
  let '(dir, name) := path_Split (path_Clean path) in
  if (name =? "")%string then Err (Errorf "empty manifest file name" [])
  else wrap "read manifest file" [] (readFile (if (dir =? "")%string then "." else dir) name).

Record applyOptions := mkApply { op_File : string; op_Source : string; op_JSON : bool; op_Watch : bool; op_Timeout : Z }.

Definition loadWatchApp (o : applyOptions) : res App :=
  wrap "parse manifest for watch" [] (LoadAppString (filepath_Base (op_File o)) (op_Source o)).
Definition writeApplyAccepted (out : DeployOutput) (jsonOut : bool) : Cmd unit :=
  if jsonOut then mret tt
  else writeInfoLine "deploy" [viewField "status" (statusBadge "accepted"); viewField "app" (do_App out);
                               viewField "workloads" (Itoa_nat (do_Workloads out))].
Definition writeApplyWatch (out : DeployOutput) (s : deploySnapshot) (jsonOut : bool) : Cmd unit :=
  if jsonOut
  then annotate "write apply watch json" []
         (encode (mkApplyWatch (do_Accepted out) (do_App out) (do_Workloads out) (sp_Assignments s) (sp_Workloads s)))
  else _ ← writeAssignmentsHuman (sp_Assignments s); writeWorkloadsHuman (sp_Workloads s).
Definition writeApplyResult (c : Client) (app : option App) (out : DeployOutput) (o : applyOptions) : Cmd unit :=
  if op_JSON o && negb (op_Watch o) then annotate "write apply json" [] (encode out)
  else
    _ ← writeApplyAccepted out (op_JSON o);
    if negb (op_Watch o) then mret tt
    else s ← watchDeployment c app (op_Timeout o); writeApplyWatch out s (op_JSON o).

Definition runApplyCommand (o : applyOptions) : Cmd unit :=
  annotate "apply" [] (RunCluster (λ c,
    app ← (if op_Watch o then app ← of_res (loadWatchApp o); mret (Some app) else mret None);
    out ← annotate "deploy" [] (remote (client_DeploySource exec c (filepath_Base (op_File o)) (op_Source o)));
    writeApplyResult c app out o)).

(** [apply], [stack apply], [stack update] *)
Definition apply_command (file : string) (jsonOut watch : bool) (timeout : Z) : Cmd unit :=
  if (file =? "")%string then raise (Errorf "--file is required" [])
  else src ← of_res (readManifestFile file); runApplyCommand (mkApply file src jsonOut watch timeout).

(** The commands that list something. *)
Definition list_command {A} `{!Json (list A)} (label : string) (fetch : Client → SE S (list A))
    (human : list A → Cmd unit) (jsonOut : bool) : Cmd unit :=
  annotate label [] (RunCluster (λ c,
    items ← annotate label [] (remote (fetch c)); if jsonOut then encode items else human items)).
Definition runListWorkloads := list_command "list workloads" (client_ListWorkloads exec) writeWorkloadsHuman.
Definition runListAssignments := list_command "list assignments" (client_ListAssignments exec) writeAssignmentsHuman.
Definition runListVolumes := list_command "list volumes" (client_ListVolumes exec) writeVolumesHuman.
Definition runListApps := list_command "list apps" (client_ListApps exec) writeAppsHuman.
Definition runListRuntimeProviders :=
  list_command "list runtime providers" (client_ListRuntimeProviders exec) writeRuntimesHuman.

(** ** cluster.go *)
Definition show {A} `{!Json A} (jsonOut : bool) (a : A) (human : Cmd unit) : Cmd unit := if jsonOut then encode a else human.
Definition health_command (jsonOut : bool) : Cmd unit :=
  RunCluster (λ c,
    out ← annotate "health" [] (remote (client_Health exec c));
    show jsonOut out (writeInfoLine "health" [viewField "status" (statusBadge (ho_Status out));
                                              viewField "time" (ho_Timestamp out)])).
Definition client_Hostinfo (c : Client) : SE S HostReport := client_get exec c PathV1Hostinfo.
Definition client_Diagnostics (c : Client) : SE S (DiagnosticsBody DixSnapshot) := client_get exec c PathV1Diagnostics.
Definition hostinfo_command (jsonOut : bool) : Cmd unit :=
  RunCluster (λ c,
    out ← annotate "hostinfo" [] (remote (client_Hostinfo c)); show jsonOut out (writeHostinfoHuman out)).
Definition diagnostics_command (jsonOut : bool) : Cmd unit :=
  RunCluster (λ c,
    out ← annotate "diagnostics" [] (remote (client_Diagnostics c)); show jsonOut out (writeDiagnosticsHuman out)).
Definition runAppDetailCommand (namespace name label : string) (jsonOut : bool) : Cmd unit :=
  annotate "%s command" [AStr label] (RunCluster (λ c,
    out ← annotate "%s" [AStr label] (remote (client_GetApp exec c namespace name));
    show jsonOut out (writeAppDetailHuman out))).

(** ** cluster_app_ops.go *)
Record appStatusBody := mkAppStatus { st_App : string; st_Namespace : string; st_Status : string }.
(** An action and the JSON of its answer. *)
Definition appStatusAction := Client → string → string → SE S (appStatusBody * res raw).
Definition deleteAppStatus : appStatusAction := λ c namespace name,
  out ← annotate "delete deploy" [] (client_DeleteDeploy exec c namespace name);
  mret (mkAppStatus (dd_App out) (dd_Namespace out) (dd_Status out), marshal out).
(** [startAppStatus], [stopAppStatus], [restartAppStatus], [rollbackAppStatus] *)
Definition action_status (a : action) : appStatusAction := λ c namespace name,
  out ← annotate (action_suffix a +:+ " deploy") [] (client_DeployAction exec c a namespace name);
  mret (mkAppStatus (da_App out) (da_Namespace out) (da_Status out), marshal out).

Definition show_status (label field : string) (jsonOut : bool) (r : appStatusBody * res raw) : Cmd unit :=
  if jsonOut then (w ← of_res r.2; write_out (indent (raw_text w)))
  else writeInfoLine label [viewField "status" (statusBadge (st_Status r.1)); viewField field (st_App r.1);
                            viewField "namespace" (st_Namespace r.1)].
Definition runAppStatusCommand (resource name namespace : string) (jsonOut : bool) (label : string)
    (act : appStatusAction) : Cmd unit :=
  if negb (resource =? "app")%string then raise (Errorf "expected resource type app, got %q" [AStr resource])
  else annotate "%s app command" [AStr label] (RunCluster (λ c,
         r ← annotate "%s app" [AStr label] (remote (act c namespace name)); show_status label "app" jsonOut r)).

Definition deployOperationAction := Client → string → string → list string → SE S DeployOperationOutput.
Definition runDeployOperationCommand (resource name namespace : string) (workloads : list string) (jsonOut : bool)
    (label : string) (act : deployOperationAction) : Cmd unit :=
  if negb (resource =? "app")%string then raise (Errorf "expected resource type app, got %q" [AStr resource])
  else annotate "%s app command" [AStr label] (RunCluster (λ c,
         out ← annotate "%s app" [AStr label] (remote (act c namespace name workloads));
         show jsonOut out (writeDeployOperationHuman label out))).
Definition migrate_action (target : string) : deployOperationAction := λ c namespace name workloads,
  client_MigrateDeploy exec c namespace name target workloads.
Definition failover_action (target : string) : deployOperationAction := λ c namespace name workloads,
  client_FailoverDeploy exec c namespace name target workloads.
Definition rebalance_action : deployOperationAction := λ c namespace name workloads,
  client_RebalanceDeploy exec c namespace name workloads.

Definition delete_command (resource name namespace : string) (jsonOut : bool) : Cmd unit :=
  runAppStatusCommand resource name namespace jsonOut "delete" deleteAppStatus.
(** [start], [stop], [restart], [rollback] *)
Definition action_command (a : action) (resource name namespace : string) (jsonOut : bool) : Cmd unit :=
  runAppStatusCommand resource name namespace jsonOut (action_suffix a) (action_status a).
Definition migrate_command (target resource name namespace : string) (workloads : list string) (jsonOut : bool) : Cmd unit :=
  runDeployOperationCommand resource name namespace workloads jsonOut "migrate" (migrate_action target).
Definition failover_command (target resource name namespace : string) (workloads : list string) (jsonOut : bool) : Cmd unit :=
  runDeployOperationCommand resource name namespace workloads jsonOut "failover" (failover_action target).
Definition rebalance_command (resource name namespace : string) (workloads : list string) (jsonOut : bool) : Cmd unit :=
  runDeployOperationCommand resource name namespace workloads jsonOut "rebalance" rebalance_action.

(** ** cluster_stack.go *)
Definition runStackOperationCommand (namespace name label : string) (jsonOut : bool) (act : appStatusAction) : Cmd unit :=
  annotate "%s stack command" [AStr label] (RunCluster (λ c,
    r ← annotate "%s stack" [AStr label] (remote (act c namespace name)); show_status label "stack" jsonOut r)).
Definition runStackDeployOperationCommand (namespace name label : string) (workloads : list string) (jsonOut : bool)
    (act : deployOperationAction) : Cmd unit :=
  annotate "%s stack command" [AStr label] (RunCluster (λ c,
    out ← annotate "%s stack" [AStr label] (remote (act c namespace name workloads));
    show jsonOut out (writeDeployOperationHuman label out))).
Definition runStackHistoryCommand (namespace name : string) (jsonOut : bool) : Cmd unit :=
  annotate "stack history command" [] (RunCluster (λ c,
    out ← annotate "list stack revisions" [] (remote (client_ListDeployRevisions exec c namespace name));
    show jsonOut out (writeAppRevisionsHuman out))).
Definition stack_migrate_command (namespace name target : string) (workloads : list string) (jsonOut : bool) : Cmd unit :=
  runStackDeployOperationCommand namespace name "migrate" workloads jsonOut (migrate_action target).
Definition stack_failover_command (namespace name target : string) (workloads : list string) (jsonOut : bool) : Cmd unit :=
  runStackDeployOperationCommand namespace name "failover" workloads jsonOut (failover_action target).
Definition stack_rebalance_command (namespace name : string) (workloads : list string) (jsonOut : bool) : Cmd unit :=
  runStackDeployOperationCommand namespace name "rebalance" workloads jsonOut rebalance_action.

(** ** cluster_raft.go *)
Definition raft_status_command (jsonOut : bool) : Cmd unit :=
  RunCluster (λ c,
    out ← annotate "raft status" [] (remote (client_RaftStatus exec c)); show jsonOut out (writeRaftStatusHuman out)).
Definition raft_members_command (jsonOut : bool) : Cmd unit :=
  RunCluster (λ c,
    out ← annotate "list raft members" [] (remote (client_ListRaftMembers exec c));
    show jsonOut out (writeRaftMembersHuman out)).
Definition add_voter_command (id address : string) (jsonOut : bool) : Cmd unit :=
  RunCluster (λ c,
    out ← annotate "add raft voter" [] (remote (client_AddRaftVoter exec c id address));
    show jsonOut out (writeInfoLine "raft" [viewField "status" (statusBadge "accepted");
      viewField "id" (rm_ID (ao_Member out)); viewField "address" (rm_Address (ao_Member out))])).
Definition remove_voter_command (id : string) (jsonOut : bool) : Cmd unit :=
  RunCluster (λ c,
    out ← annotate "remove raft member" [] (remote (client_RemoveRaftMember exec c id));
    show jsonOut out (writeInfoLine "raft" [viewField "status" (statusBadge "accepted"); viewField "id" (rmo_ID out)])).

(** ** ops.go *)
Definition ready_command (jsonOut wait : bool) (timeout : Z) : Cmd unit :=
  RunCluster (λ c,
    out ← annotate "ready" [] (if wait then waitReady c timeout else remote (client_Ready exec c));
    show jsonOut out (writeReadyHuman out)).
Definition wait_app_command (namespace name target : string) (timeout : Z) (jsonOut : bool) : Cmd unit :=
  RunCluster (λ c,
    out ← annotate "wait app" [] (waitAppStatus c namespace name target timeout);
    let a := ad_AppItem out in
    show jsonOut out (writeInfoLine "wait" [viewField "app" (ap_Name a); viewField "namespace" (ap_Namespace a);
      viewField "status" (statusBadge (ap_Status a));
      viewField "ready" (appReadyText (ap_Running a) (ap_DesiredWorkloads a))])).

Definition writeLogsOutput (out : LogResult) (jsonOut : bool) : Cmd unit :=
  if jsonOut then annotate "write logs json" [] (encode out)
  else if (TrimSpace (lr_Content out) =? "")%string then writeLine (Render viewMutedStyle "No logs.")
  else annotate "write logs" [] (write_out (lr_Content out)).
Definition runLogsCommand (workload namespace app : string) (tail : Z) (jsonOut : bool) : Cmd unit :=
  annotate "run logs" [] (RunCluster (λ c,
    out ← annotate "logs" [] (remote (client_WorkloadLogs exec c namespace app workload tail));
    writeLogsOutput out jsonOut)).

(** Newest first. *)
Definition newest_first (a b : AssignmentItem) : comparison :=
  if (ai_UpdatedAt b <? ai_UpdatedAt a)%Z then Lt else if (ai_UpdatedAt a <? ai_UpdatedAt b)%Z then Gt else Eq.
Definition events_command (jsonOut : bool) : Cmd unit :=
  RunCluster (λ c,
    items ← annotate "events" [] (remote (client_ListAssignments exec c));
    let values := list_sort newest_first items in show jsonOut values (writeEventsHuman values)).

Definition describeNodeName (args : list string) (fallback : string) : string :=
  match args with a :: _ => TrimSpace a | [] => TrimSpace fallback end.
Definition writeDescribeNodeOutput (c : Client) (args : list string) (raft : RaftStatusOutput) (jsonOut : bool) : Cmd unit :=
  let name := describeNodeName args (rso_NodeID raft) in
  if jsonOut then annotate "write node json" [] (encode raft)
  else if negb (name =? "")%string && negb (name =? rso_NodeID raft)%string then writeRaftMemberNodeHuman name raft
  else host ← annotate "node hostinfo" [] (remote (client_Hostinfo c)); writeLocalNodeHuman name raft host.
Definition runDescribeNodeCommand (args : list string) (jsonOut : bool) : Cmd unit :=
  annotate "describe node" [] (RunCluster (λ c,
    raft ← annotate "node raft status" [] (remote (client_RaftStatus exec c));
    writeDescribeNodeOutput c args raft jsonOut)).
Definition describe_workload_command (namespace app name : string) (jsonOut : bool) : Cmd unit :=
  RunCluster (λ c,
    out ← annotate "describe workload" [] (remote (client_WorkloadRuntimeStatus exec c namespace app name));
    show jsonOut out (writeWorkloadRuntimeStatusHuman out)).
End cli.
