(* ===== verification/CliSpec.v ===== *)
(** * What the command-line tool guarantees: lemmas

    What the snapshots of a watch count, how the waiting loops end, and which requests a command
    sends. *)
From stdpp Require Import base strings numbers gmap list.
From Stdlib Require Import Ascii.
From S2P Require Import Prelude GoStrings GoTime GoList Deploy Dependency Validate Meta GoText Fsm TaskBase TaskOps Compose Runtime OrchDsl OrchSchema Effects TaskInspect ApiServer ApiReads HttpServer ApiClient CliView Cli.

(** ** The size of a text of bytes *)

(** The loop of [formatBytes] ends within its six rounds, never wraps, and leaves a number of
    units between one and 1024. *)
Lemma bytes_unit_spec fuel : ∀ n div exp d e,
  bytes_unit fuel n div exp = (d, e) → (1 ≤ n < 1024 ^ (Z.of_nat fuel + 1))%Z →
  (0 < div)%Z → (div * 1024 ^ Z.of_nat fuel < 2 ^ 64)%Z →
  ∃ k, e = exp + k ∧ k ≤ fuel ∧ d = (div * 1024 ^ Z.of_nat k)%Z ∧ (1 ≤ n / 1024 ^ Z.of_nat k < 1024)%Z.
Proof.
  induction fuel as [|f IH]; intros n div exp d e E Hn Hd Hb; cbn [bytes_unit] in E.
  - injection E as <- <-. exists 0. rewrite Nat.add_0_r, Z.div_1_r. change (1024 ^ (Z.of_nat 0 + 1))%Z with 1024%Z in Hn.
    split_and!; lia.
  - destruct (Z.leb_spec 1024 n) as [Hle|Hlt].
    + assert (0 < 1024 ^ Z.of_nat f)%Z as Hp by (apply Z.pow_pos_nonneg; lia).
      replace (1024 ^ (Z.of_nat (S f) + 1))%Z with (1024 ^ Z.of_nat f * 1024 * 1024)%Z in Hn
        by (rewrite Nat2Z.inj_succ, <-Z.add_1_r, !Z.pow_add_r by lia; lia).
      replace (1024 ^ Z.of_nat (S f))%Z with (1024 ^ Z.of_nat f * 1024)%Z in Hb
        by (rewrite Nat2Z.inj_succ, <-Z.add_1_r, !Z.pow_add_r by lia; lia).
      unfold u64 in E. rewrite Z.mod_small in E by nia.
      destruct (IH _ _ _ _ _ E) as (k & -> & Hk & -> & Hr).
      * rewrite Z.pow_add_r by lia. change (1024 ^ 1)%Z with 1024%Z. split.
        -- apply Z.div_le_lower_bound; lia.
        -- apply Z.div_lt_upper_bound; [lia|]. lia.
      * lia.
      * nia.
      * exists (S k). rewrite Nat2Z.inj_succ, <-Z.add_1_r, Z.pow_add_r by lia. change (1024 ^ 1)%Z with 1024%Z.
        rewrite (Z.mul_comm (1024 ^ _)), <-Z.div_div by (try apply Z.pow_pos_nonneg; lia).
        split_and!; [lia|lia|ring|apply Hr..].
    + injection E as <- <-. exists 0. rewrite Nat.add_0_r, Z.div_1_r. split_and!; lia.
Qed.

Lemma bytes_unit_enough fuel : ∀ n div exp r, (n < 1024 ^ Z.of_nat (S fuel))%Z →
  bytes_unit (S fuel) n div exp = r → bytes_unit fuel n div exp = r.
Proof.
  induction fuel as [|f IH]; intros n div exp r Hn.
  - change (1024 ^ Z.of_nat 1)%Z with 1024%Z in Hn. cbn. by destruct (Z.leb_spec 1024 n); [lia|].
  - intros E. cbn [bytes_unit] in E |- *. destruct (1024 <=? n)%Z; [|done]. apply IH; [|exact E].
    apply Z.div_lt_upper_bound; [lia|]. rewrite Nat2Z.inj_succ, Z.pow_succ_r in Hn by lia. lia.
Qed.

(** ** Snapshots *)
Definition counted (keys : gset string) (generation : string) (status : string) (a : AssignmentItem) : bool :=
  bool_decide (ai_Key a ∈ keys) && assignmentMatchesExpectedGeneration a generation && (ai_Status a =? status)%string.
Definition counted_workload (names : gset string) (w : WorkloadItem) : bool :=
  bool_decide (wi_Name w ∈ names) && (wi_Status w =? "running")%string.

Lemma collect_assignments_spec keys generation items : ∀ s,
  collectAssignmentSnapshot s items keys generation =
  mkSnap (sp_Assignments s ++ filter (λ a, ai_Key a ∈ keys) items) (sp_Workloads s) (sp_Total s)
    (sp_RunningAssignments s + length (filter (λ a, counted keys generation AssignmentStatusRunning a = true) items))
    (sp_RunningWorkloads s)
    (match sp_FailedAssignment s with
     | Some f => Some f
     | None => head (filter (λ a, counted keys generation AssignmentStatusFailed a = true) items)
     end).
Proof.
  unfold collectAssignmentSnapshot. induction items as [|a items IH]; intros s; cbn [fold_left].
  - rewrite !filter_nil, app_nil_r. cbn. rewrite Nat.add_0_r. destruct s as [? ? ? ? ? []]; done.
  - rewrite IH. clear IH. unfold collect_assignment. destruct (decide (ai_Key a ∈ keys)) as [Hin|Hin].
    + assert (∀ st, counted keys generation st a = assignmentMatchesExpectedGeneration a generation && (ai_Status a =? st)%string) as Hc.
      { intros st. unfold counted. by rewrite (bool_decide_eq_true_2 _ Hin). }
      rewrite (bool_decide_eq_true_2 _ Hin), !filter_cons, (decide_True _ _ Hin), !Hc. cbn [negb].
      destruct (assignmentMatchesExpectedGeneration a generation), (ai_Status a =? AssignmentStatusRunning)%string,
        (ai_Status a =? AssignmentStatusFailed)%string, (sp_FailedAssignment s);
        cbn; repeat first [rewrite decide_True by done|rewrite decide_False by done]; cbn;
        rewrite <-?app_assoc, ?Nat.add_succ_r; done.
    + assert (∀ st, counted keys generation st a = false) as Hc.
      { intros st. unfold counted. by rewrite (bool_decide_eq_false_2 _ Hin). }
      rewrite (bool_decide_eq_false_2 _ Hin), !filter_cons, (decide_False _ _ Hin), !Hc. done.
Qed.

Lemma collect_workloads_spec names items : ∀ s,
  collectWorkloadSnapshot s items names =
  mkSnap (sp_Assignments s) (sp_Workloads s ++ filter (λ w, wi_Name w ∈ names) items) (sp_Total s)
    (sp_RunningAssignments s) (sp_RunningWorkloads s + length (filter (λ w, counted_workload names w = true) items))
    (sp_FailedAssignment s).
Proof.
  unfold collectWorkloadSnapshot. induction items as [|w items IH]; intros s; cbn [fold_left].
  - rewrite !filter_nil, app_nil_r. cbn. rewrite Nat.add_0_r. by destruct s.
  - rewrite IH. clear IH. unfold collect_workload. destruct (decide (wi_Name w ∈ names)) as [Hin|Hin].
    + assert (counted_workload names w = (wi_Status w =? "running")%string) as Hc
        by (unfold counted_workload; by rewrite (bool_decide_eq_true_2 _ Hin)).
      rewrite (bool_decide_eq_true_2 _ Hin), !filter_cons, (decide_True _ _ Hin), Hc. cbn [negb].
      destruct (wi_Status w =? "running")%string; cbn;
        repeat first [rewrite decide_True by done|rewrite decide_False by done]; cbn;
        rewrite <-?app_assoc, ?Nat.add_succ_r; done.
    + assert (counted_workload names w = false) as Hc
        by (unfold counted_workload; by rewrite (bool_decide_eq_false_2 _ Hin)).
      rewrite (bool_decide_eq_false_2 _ Hin), !filter_cons, (decide_False _ _ Hin), Hc. done.
Qed.

(** As many distinct names within a set as it has elements are all of them. *)
Lemma all_counted {A} (key : A → string) (P : A → Prop) `{∀ a, Decision (P a)} (keys : gset string) (items : list A) :
  NoDup (key <$> items) → (∀ a, P a → key a ∈ keys) → length (filter P items) = size keys →
  ∀ k, k ∈ keys → ∃ a, a ∈ items ∧ P a ∧ key a = k.
Proof.
  intros Hnd Hin Hlen k Hk. set (found := filter P items) in *.
  assert (NoDup (key <$> found)) as Hnf by (eapply sublist_NoDup; [exact Hnd|apply fmap_sublist, sublist_filter]).
  assert (list_to_set (key <$> found) = keys) as He.
  { apply leibniz_equiv, set_subseteq_size_equiv.
    - intros x. rewrite elem_of_list_to_set, list_elem_of_fmap. intros (a & -> & [Ha _]%list_elem_of_filter). by apply Hin.
    - rewrite size_list_to_set, length_fmap by done. lia. }
  rewrite <-He in Hk. apply elem_of_list_to_set, list_elem_of_fmap in Hk as (a & -> & [Ha Hi]%list_elem_of_filter). eauto.
Qed.

Lemma counted_all {A} (key : A → string) (P : A → Prop) `{∀ a, Decision (P a)} (keys : gset string) (items : list A) :
  NoDup (key <$> items) → (∀ a, P a → key a ∈ keys) → (∀ k, k ∈ keys → ∃ a, a ∈ items ∧ P a ∧ key a = k) →
  length (filter P items) = size keys.
Proof.
  intros Hnd Hin Hall. set (found := filter P items).
  assert (NoDup (key <$> found)) as Hnf by (eapply sublist_NoDup; [exact Hnd|apply fmap_sublist, sublist_filter]).
  assert (keys = list_to_set (key <$> found)) as ->; [|by rewrite size_list_to_set, length_fmap].
  apply set_eq. intros k. rewrite elem_of_list_to_set, list_elem_of_fmap. split.
  - intros (a & Ha & HP & <-)%Hall. exists a. split; [done|]. by apply list_elem_of_filter.
  - intros (a & -> & [HP _]%list_elem_of_filter). by apply Hin.
Qed.

(** ** What a watch expects *)
Definition plain_names (app : App) : Prop :=
  TrimSpace (md_Name (app_Metadata app)) ≠ "" ∧
  Forall (λ w, trimmed (w_Name w) ∧ w_Name w ≠ "") (app_Workloads app).

Lemma expected_fold meta ws : ∀ acc,
  TrimSpace (md_Name meta) ≠ "" → Forall (λ w, trimmed (w_Name w) ∧ w_Name w ≠ "") ws →
  fold_left (add_expected meta) ws acc =
  (list_to_set (AssignmentKey meta <$> (w_Name <$> ws)) ∪ acc.1, list_to_set (w_Name <$> ws) ∪ acc.2).
Proof.
  intros acc Hm Hws. revert acc. induction Hws as [|w ws [Ht Hne] _ IH]; intros acc; cbn [fold_left].
  - cbn. rewrite !(left_id_L ∅ (∪)). by destruct acc.
  - rewrite IH. clear IH. unfold add_expected. destruct (String.eqb_spec (AssignmentKey meta (w_Name w)) "") as [He|_].
    + apply AssignmentKey_empty in He as [He|He]; [done|]. by rewrite Ht in He.
    + cbn. f_equal; set_solver.
Qed.

Lemma AssignmentKey_inj meta x y : TrimSpace (md_Name meta) ≠ "" → trimmed x → x ≠ "" → trimmed y → y ≠ "" →
  AssignmentKey meta x = AssignmentKey meta y → x = y.
Proof.
  intros Hm Hx Hx' Hy Hy'. rewrite !AssignmentKey_eq by (rewrite ?Hx, ?Hy; done). rewrite Hx, Hy.
  intros E%(f_equal bytes_of). rewrite !bytes_of_app in E. simplify_list_eq.
  by rewrite <-(String.string_of_list_ascii_of_string x), E, String.string_of_list_ascii_of_string.
Qed.

Lemma expected_elements app keys names : plain_names app → expectedDeployWorkloads (Some app) = (keys, names) →
  (∀ k, k ∈ keys ↔ ∃ w, w ∈ app_Workloads app ∧ k = AssignmentKey (app_Metadata app) (w_Name w)) ∧
  (∀ n, n ∈ names ↔ ∃ w, w ∈ app_Workloads app ∧ n = w_Name w).
Proof.
  intros [Hm Hws]. cbn [expectedDeployWorkloads]. rewrite expected_fold by done. cbn. rewrite !(right_id_L ∅ (∪)).
  intros [= <- <-]. split; intros x; rewrite elem_of_list_to_set, ?list_elem_of_fmap; [|naive_solver].
  setoid_rewrite list_elem_of_fmap. naive_solver.
Qed.

(** One key for each name. *)
Lemma expected_sizes app keys names : plain_names app → expectedDeployWorkloads (Some app) = (keys, names) →
  (∀ w, w ∈ app_Workloads app → AssignmentKey (app_Metadata app) (w_Name w) ∈ keys ∧ w_Name w ∈ names) ∧
  size keys = size names.
Proof.
  intros [Hm Hws]. cbn [expectedDeployWorkloads]. rewrite expected_fold by done. cbn. rewrite !(right_id_L ∅ (∪)).
  intros [= <- <-]. split.
  - intros w Hw. rewrite !elem_of_list_to_set, !list_elem_of_fmap. split; [exists (w_Name w)|exists w]; [|done].
    split; [done|]. apply list_elem_of_fmap. by exists w.
  - set (ns := w_Name <$> app_Workloads app).
    assert (list_to_set (AssignmentKey (app_Metadata app) <$> ns) =@{gset string}
            list_to_set (AssignmentKey (app_Metadata app) <$> elements (list_to_set ns : gset string))) as ->.
    { apply set_eq. intros k. rewrite !elem_of_list_to_set, !list_elem_of_fmap.
      setoid_rewrite elem_of_elements. setoid_rewrite elem_of_list_to_set. done. }
    rewrite size_list_to_set, length_fmap; [done|]. apply NoDup_fmap_2_strong, NoDup_elements.
    assert (∀ n, n ∈ elements (list_to_set ns : gset string) → trimmed n ∧ n ≠ "") as Hn.
    { intros n. rewrite elem_of_elements, elem_of_list_to_set. unfold ns. rewrite list_elem_of_fmap. intros (w & -> & Hw).
      rewrite Forall_forall in Hws. by apply Hws. }
    intros x y [Hx Hx']%Hn [Hy Hy']%Hn. by apply AssignmentKey_inj.
Qed.

(** ** How a waiting loop ends *)
Section polling.
Context `{PollingLaws}.

Lemma retry_for_last {S A} (R : relation S) `{!PreOrder R} timeout (op : S → outcome A * S) s r s' :
  (∀ s e s', op s = (Again e, s') → R s s') → Retry_for timeout op s = (r, s') →
  ∃ s0 o, R s s0 ∧ op s0 = (o, s') ∧
    match o with
    | Done a => r = RetryDone a
    | Permanent e => r = RetryFailed e
    | Again e => ∃ e', r = RetryFailed e' ∧ (e' = e ∨ e' = DeadlineExceeded)
    end.
Proof.
  intros Hop E. destruct (retry_for_tries timeout op s) as (k & Hk & E2 & E1). rewrite E in E1, E2. cbn in *.
  destruct (tries_last R k op s Hop) as (s0 & Hs & Ht). rewrite Ht in E1, E2. exists s0, (op s0).1.
  split; [done|]. split; [by rewrite E2; destruct (op s0)|]. by destruct (op s0) as [[] ].
Qed.

Lemma retry_for_end {S A} timeout (op : S → outcome A * S) s r s' : Retry_for timeout op s = (r, s') →
  ∃ s0 o, op s0 = (o, s') ∧
    match o with
    | Done a => r = RetryDone a
    | Permanent e => r = RetryFailed e
    | Again e => ∃ e', r = RetryFailed e' ∧ (e' = e ∨ e' = DeadlineExceeded)
    end.
Proof.
  intros E. assert (PreOrder (λ _ _ : S, True)) as HR by by split.
  destruct (retry_for_last (λ _ _ : S, True) timeout op s r s' (λ _ _ _ _, I) E) as (s0 & o & _ & Ho). eauto.
Qed.

Lemma tries_first {S A} k (op : S → outcome A * S) s : 0 < k → (∀ e, (op s).1 ≠ Again e) → tries k op s = op s.
Proof.
  intros Hk Ho. destruct k as [|[|k]]; [lia|done|]. cbn. destruct (op s) as [[] ]; try done. by destruct (Ho e).
Qed.

(** A first attempt that ends the loop is its result. *)
Lemma retry_for_first {S A} timeout (op : S → outcome A * S) s o s' : op s = (o, s') →
  match o with
  | Done a => Retry_for timeout op s = (RetryDone a, s')
  | Permanent e => Retry_for timeout op s = (RetryFailed e, s')
  | Again _ => True
  end.
Proof.
  intros E. destruct (retry_for_tries timeout op s) as (k & Hk & E2 & E1).
  destruct o as [a|e|e]; [|done|]; (rewrite tries_first in E1, E2 by (done || by rewrite E)); rewrite E in E1, E2; cbn in *;
    by rewrite (surjective_pairing (Retry_for _ _ _)), E1, E2.
Qed.

Lemma retry_for_keeps {S A} (R : relation S) `{!PreOrder R} timeout (op : S → outcome A * S) s :
  (∀ s, R s (op s).2) → R s (Retry_for timeout op s).2.
Proof.
  intros Hop. destruct (Retry_for timeout op s) as [r s'] eqn:E.
  apply (retry_for_last R) in E as (s0 & o & Hs & Ho & _).
  - etrans; [exact Hs|]. specialize (Hop s0). by rewrite Ho in Hop.
  - intros s1 e s2 E1. specialize (Hop s1). by rewrite E1 in Hop.
Qed.
End polling.

Section waits.
Context `{UnicodeLower, Display, PollingLaws} `{Digest} `{Wire} `{!ApiJson, !CliJson} {S : Type}.
Context (exec : string → HttpRequest → SE S HttpResponse) (durationText : Z → string) (c : Client).
Abbreviation listed_assignments := (remote (client_ListAssignments exec c)).
Abbreviation listed_workloads := (remote (client_ListWorkloads exec c)).

(** What a poll read. *)
Definition polled (keys names : gset string) (generation : string) (t t' : Term S) (s : deploySnapshot)
    (assignments : list AssignmentItem) (workloads : list WorkloadItem) : Prop :=
  ∃ t1, listed_assignments t = (Ok assignments, t1) ∧ listed_workloads t1 = (Ok workloads, t') ∧
    s = collectWorkloadSnapshot (collectAssignmentSnapshot (newDeploySnapshot (size keys)) assignments keys generation)
          workloads names.

Lemma read_snapshot keys names generation t s t' :
  readDeploySnapshot exec c keys names generation t = (Ok s, t') →
  ∃ assignments workloads, polled keys names generation t t' s assignments workloads.
Proof.
  unfold readDeploySnapshot. intros (a & t1 & E1%annotate_Ok & (w & t2 & E2%annotate_Ok & [= <- <-])%bind_Ok)%bind_Ok.
  exists a, w. by exists t1.
Qed.

Lemma watcher_poll_moves (R : relation (Term S)) `{!PreOrder R} keys names generation st o st' :
  (∀ t, R t (listed_assignments t).2) → (∀ t, R t (listed_workloads t).2) →
  watcher_poll exec c keys names generation st = (o, st') → R st.2 st'.2.
Proof.
  intros Ra Rw. unfold watcher_poll, readDeploySnapshot, mbind, SE_bind, annotate. specialize (Ra st.2).
  destruct (listed_assignments st.2) as [[a|e] t1]; [|intros [= _ <-]; done]. specialize (Rw t1).
  destruct (listed_workloads t1) as [[w|e] t2]; cbn in *; [destruct (recordSnapshot _ st.1)|]; intros [= _ <-]; cbn; by etrans.
Qed.

(** A watch that succeeds saw, in one poll, as many running assignments of the expected
    generation and as many running workloads as it expects, and no failed one; that poll starts
    where the listings before it left the terminal. *)
Lemma watch_ok (R : relation (Term S)) `{!PreOrder R} app timeout t s t' keys names :
  (∀ t, R t (listed_assignments t).2) → (∀ t, R t (listed_workloads t).2) →
  expectedDeployWorkloads (Some app) = (keys, names) → size keys ≠ 0 →
  watchDeployment exec durationText c (Some app) timeout t = (Ok s, t') →
  ∃ t0 assignments workloads, R t t0 ∧ polled keys names (AppGeneration app) t0 t' s assignments workloads ∧
    deploySnapshotReady s = true ∧ sp_FailedAssignment s = None.
Proof.
  intros Ra Rw He Hk. unfold watchDeployment. destruct (timeout <=? 0)%Z; [done|]. rewrite He. cbn [fst snd].
  destruct (Nat.eqb_spec (size keys) 0); [done|].
  destruct (Retry_for timeout _ _) as [r [w t2]] eqn:E. intros [= Hr ->].
  set (R' (a b : deployWatcher * Term S) := R a.2 b.2).
  assert (PreOrder R') as HR' by (split; [intros a; unfold R'; reflexivity|intros a b d; unfold R'; intros; by etrans]).
  apply (retry_for_last R') in E as ([w0 t0] & o & HR & Hp & Ho); [|intros a e b Ea; exact (watcher_poll_moves R _ _ _ a _ b Ra Rw Ea)].
  destruct r as [a|e]; [cbn in Hr; injection Hr as ->|by unfold watcher_result in Hr; repeat case_match].
  destruct o as [a| |]; [injection Ho as <-|by destruct Ho as (? & ? & _)|done].
  unfold watcher_poll in Hp. cbn [fst snd] in Hp.
  destruct (readDeploySnapshot exec c keys names (AppGeneration app) t0) as [[s'|e] t1] eqn:Er; [|done].
  unfold recordSnapshot in Hp. destruct (sp_FailedAssignment s') eqn:Ef; [done|].
  destruct (deploySnapshotReady s') eqn:Ed; [|done]. injection Hp as <- _ <-.
  apply read_snapshot in Er as (a & wl & Hpo). eauto 10.
Qed.

Definition all_running (app : App) (assignments : list AssignmentItem) (workloads : list WorkloadItem) : Prop :=
  ∀ w, w ∈ app_Workloads app →
    (∃ a, a ∈ assignments ∧ ai_Key a = AssignmentKey (app_Metadata app) (w_Name w) ∧
       ai_Status a = AssignmentStatusRunning ∧ TrimSpace (ai_Generation a) = AppGeneration app) ∧
    (∃ r, r ∈ workloads ∧ wi_Name r = w_Name w ∧ wi_Status r = "running").

(** With distinct keys and names in the answers, every workload of the document is running: its
    assignment, of the document's generation, and its record. *)
Lemma snapshot_running app keys names t0 t' s assignments workloads :
  plain_names app → AppGeneration app ≠ "" → expectedDeployWorkloads (Some app) = (keys, names) →
  polled keys names (AppGeneration app) t0 t' s assignments workloads → deploySnapshotReady s = true →
  NoDup (ai_Key <$> assignments) → NoDup (wi_Name <$> workloads) →
  all_running app assignments workloads.
Proof.
  unfold all_running. intros Hp Hg He (t1 & _ & _ & ->) Hr Ha Hw w Hin. destruct (expected_sizes app keys names Hp He) as [Hexp Hsz].
  destruct (Hexp w Hin) as [Hkey Hname]. unfold deploySnapshotReady in Hr.
  rewrite collect_workloads_spec, collect_assignments_spec in Hr. cbn in Hr.
  apply andb_true_iff in Hr as [Hra%Nat.eqb_eq Hrw%Nat.eqb_eq]. split.
  - destruct (all_counted ai_Key (λ a, counted keys (AppGeneration app) AssignmentStatusRunning a = true) keys assignments Ha)
      with (k := AssignmentKey (app_Metadata app) (w_Name w)) as (a & Hi & Hc & Hk); [|done|done|].
    + intros a. unfold counted. rewrite !andb_true_iff, bool_decide_eq_true. naive_solver.
    + exists a. revert Hc. unfold counted, assignmentMatchesExpectedGeneration. rewrite AppGeneration_trimmed.
      rewrite !andb_true_iff, orb_true_iff, !String.eqb_eq. intros [[_ [?|?]] ?]; [done|]. split_and!; done.
  - destruct (all_counted wi_Name (λ r, counted_workload names r = true) names workloads Hw)
      with (k := w_Name w) as (r & Hi & Hc & Hn); [| |done|].
    + intros r. unfold counted_workload. rewrite andb_true_iff, bool_decide_eq_true. naive_solver.
    + lia.
    + exists r. revert Hc. unfold counted_workload. rewrite andb_true_iff, String.eqb_eq. naive_solver.
Qed.

(** Conversely, answers in which everything is running end the watch. *)
Lemma running_snapshot app keys names t t' s assignments workloads :
  plain_names app → expectedDeployWorkloads (Some app) = (keys, names) →
  polled keys names (AppGeneration app) t t' s assignments workloads →
  NoDup (ai_Key <$> assignments) → NoDup (wi_Name <$> workloads) → all_running app assignments workloads →
  deploySnapshotReady s = true ∧ sp_FailedAssignment s = None.
Proof.
  intros Hp He (t1 & _ & _ & ->) Ha Hw Hall. destruct (expected_sizes app keys names Hp He) as [_ Hsz].
  destruct (expected_elements app keys names Hp He) as [Hk Hn].
  unfold deploySnapshotReady. rewrite collect_workloads_spec, collect_assignments_spec. cbn.
  assert (∀ a, counted keys (AppGeneration app) AssignmentStatusFailed a = true → a ∈ assignments → False) as Hnofail.
  { intros a. unfold counted. rewrite !andb_true_iff, bool_decide_eq_true, String.eqb_eq. intros [[(w & Hwl & Hkey)%Hk _] Hf] Hin.
    destruct (Hall w Hwl) as [(b & Hb & Hbk & Hbr & _) _]. rewrite <-Hkey in Hbk.
    assert (a = b) as -> by (by eapply (NoDup_key_inj ai_Key)). by rewrite Hbr in Hf. }
  split.
  - rewrite (counted_all ai_Key _ keys), (counted_all wi_Name _ names); try done.
    + by rewrite Hsz, Nat.eqb_refl.
    + intros r. unfold counted_workload. rewrite andb_true_iff, bool_decide_eq_true. naive_solver.
    + intros n (w & Hwl & ->)%Hn. destruct (Hall w Hwl) as [_ (r & Hr & Hrn & Hrs)]. exists r. split_and!; [done| |done].
      unfold counted_workload. rewrite bool_decide_eq_true_2, Hrs; [done|]. apply Hn. eauto.
    + intros a. unfold counted. rewrite !andb_true_iff, bool_decide_eq_true. naive_solver.
    + intros k (w & Hwl & ->)%Hk. destruct (Hall w Hwl) as [(a & Hin & Hak & Har & Hag) _]. exists a. split_and!; [done| |done].
      unfold counted, assignmentMatchesExpectedGeneration. rewrite AppGeneration_trimmed, Hag, String.eqb_refl, orb_true_r, Har.
      rewrite bool_decide_eq_true_2; [done|]. apply Hk. eauto.
  - destruct (filter _ assignments) as [|a l] eqn:E; [done|]. exfalso.
    assert (a ∈ a :: l) as Hin by left. rewrite <-E in Hin. apply list_elem_of_filter in Hin as [Hc Hin]. by eapply Hnofail.
Qed.

Lemma watch_at_once app timeout t t' keys names s assignments workloads :
  (0 < timeout)%Z → plain_names app → expectedDeployWorkloads (Some app) = (keys, names) → size keys ≠ 0 →
  polled keys names (AppGeneration app) t t' s assignments workloads →
  NoDup (ai_Key <$> assignments) → NoDup (wi_Name <$> workloads) → all_running app assignments workloads →
  watchDeployment exec durationText c (Some app) timeout t = (Ok s, t').
Proof.
  intros Ht Hp He Hk Hpo Ha Hw Hall. destruct (running_snapshot _ _ _ _ _ _ _ _ Hp He Hpo Ha Hw Hall) as [Hr Hf].
  unfold watchDeployment. destruct (Z.leb_spec timeout 0); [lia|]. rewrite He. destruct (Nat.eqb_spec (size keys) 0); [done|].
  destruct Hpo as (t1 & E1 & E2 & Hs).
  assert (watcher_poll exec c keys names (AppGeneration app) (newDeployWatcher, t) =
    (Done s, (mkWatcher (Some s) None None, t'))) as Hpoll.
  { unfold watcher_poll, readDeploySnapshot, annotate, mbind, SE_bind. cbn [fst snd]. rewrite E1, E2. cbn.
    rewrite <-Hs. unfold recordSnapshot. by rewrite Hf, Hr. }
  pose proof (retry_for_first timeout _ _ _ _ Hpoll) as ->. done.
Qed.

(** *** The other waits *)
Definition same_out {X} (a b : X * Term S) : Prop := tm_out b.2 = tm_out a.2.
#[local] Instance same_out_pre {X} : PreOrder (@same_out X).
Proof. split; [done|]. intros a b d E1 E2. unfold same_out in *. congruence. Qed.

Lemma remote_out {A} (m : SE S A) t : tm_out (remote m t).2 = tm_out t.
Proof. unfold remote. by destruct (m (tm_outside t)). Qed.

Lemma ready_poll_out st : same_out st (ready_poll exec c st).2.
Proof.
  unfold ready_poll, same_out. pose proof (remote_out (client_Ready exec c) st.2) as E.
  by destruct (remote (client_Ready exec c) st.2) as [[] ?].
Qed.
Lemma app_poll_out namespace name target st : same_out st (app_poll exec c namespace name target st).2.
Proof.
  unfold app_poll, same_out. pose proof (remote_out (client_GetApp exec c namespace name) st.2) as E.
  destruct (remote (client_GetApp exec c namespace name) st.2) as [[out|e] ?]; [|done]. by destruct (recordOutput _ _ _ _).
Qed.

Lemma waitReady_ok timeout t out t' : waitReady exec durationText c timeout t = (Ok out, t') → ro_Ready out = true ∧ tm_out t' = tm_out t.
Proof.
  unfold waitReady. destruct (timeout <=? 0)%Z; [done|].
  pose proof (retry_for_keeps same_out timeout (ready_poll exec c) (mkWait None None None, t) ready_poll_out) as Ho.
  destruct (Retry_for _ _ _) as [r [w t2]] eqn:E. destruct r as [a|e]; [|done]. intros [= -> ->]. split; [|exact Ho].
  apply retry_for_end in E as (s0 & o & Hp & Hr). destruct o; [injection Hr as <-|by destruct Hr as (? & ? & _)|done].
  unfold ready_poll in Hp. destruct (remote _ _) as [[x|e] ?]; [|done]. destruct (ro_Ready x) eqn:Ex; [|done]. by injection Hp as -> _ _.
Qed.

(** How waiting for a status ends: the status is there, the application failed, or the time is over. *)
Lemma waitAppStatus_cases namespace name rawTarget timeout t r t' :
  waitAppStatus exec durationText c namespace name rawTarget timeout t = (r, t') →
  tm_out t' = tm_out t ∧
  match r with
  | Ok out => ToLower (TrimSpace (ap_Status (ad_AppItem out))) = wait_target rawTarget
  | Err e =>
      (timeout ≤ 0)%Z ∨
      (∃ out, e = app_failed name out ∧ ToLower (TrimSpace (ap_Status (ad_AppItem out))) = "failed" ∧ wait_target rawTarget ≠ "failed") ∨
      (∃ lastErr e', e = timed_out durationText "wait app timed out after %s" timeout lastErr e')
  end.
Proof.
  unfold waitAppStatus. destruct (Z.leb_spec timeout 0); [intros [= <- <-]; auto|].
  set (op := app_poll exec c namespace name (wait_target rawTarget)).
  pose proof (retry_for_keeps same_out timeout op (mkWait None None None, t) (app_poll_out _ _ _)) as Ho.
  destruct (Retry_for timeout op _) as [q [w t2]] eqn:E. intros [= <- <-]. split; [exact Ho|]. clear Ho.
  set (good (st : waitState AppDetailItem * Term S) := ∀ p, wt_permanentErr st.1 = Some p →
    ∃ out, p = app_failed name out ∧ ToLower (TrimSpace (ap_Status (ad_AppItem out))) = "failed" ∧ wait_target rawTarget ≠ "failed").
  assert (∀ st, good st → good (op st).2) as Hkeep.
  { intros st Hg. unfold op, app_poll. destruct (remote _ _) as [[out|e] t1]; [|exact Hg]. unfold recordOutput.
    destruct (String.eqb_spec (ToLower (TrimSpace (ap_Status (ad_AppItem out)))) (wait_target rawTarget)); [exact Hg|].
    destruct (String.eqb_spec (ToLower (TrimSpace (ap_Status (ad_AppItem out)))) "failed"); cbn [andb]; [|exact Hg].
    destruct (String.eqb_spec (wait_target rawTarget) "failed"); cbn [negb]; [exact Hg|]. intros p [= <-]. eauto. }
  assert (PreOrder (λ a b, good a → good b)) as HR by (split; [by intros ?|intros a b d; auto]).
  pose proof (retry_for_keeps (λ a b, good a → good b) timeout op (mkWait None None None, t) Hkeep) as Hgood.
  rewrite E in Hgood. cbn in Hgood. destruct q as [out|e]; cbn.
  - apply retry_for_end in E as (s0 & o & Hp & Hr). destruct o; [injection Hr as <-|by destruct Hr as (? & ? & _)|done].
    unfold op, app_poll in Hp. destruct (remote _ _) as [[x|e] ?]; [|done]. unfold recordOutput in Hp.
    destruct (String.eqb_spec (ToLower (TrimSpace (ap_Status (ad_AppItem x)))) (wait_target rawTarget)); [by simplify_eq|].
    by destruct (_ && _).
  - destruct (wt_permanentErr w) as [p|] eqn:Ep; cbn; [|eauto]. right. left. by apply Hgood.
Qed.
End waits.

(** ** Manifests *)

(** The last byte of a path is not a slash. *)
Definition names_file (p : string) : Prop := ∃ q c, bytes_of p = q ++ [c] ∧ c ≠ "/"%char.

Lemma before_slash_spec l : ∃ r, l = before_slash l ++ r ∧ ("/"%char ∉ before_slash l) ∧ (r = [] ∨ ∃ r', r = "/"%char :: r').
Proof.
  induction l as [|c l (r & Hl & Hn & Hr)]; cbn.
  - exists []. split_and!; [done|apply not_elem_of_nil|by left].
  - destruct (Ascii.eqb_spec c "/") as [->|Hc].
    + exists ("/"%char :: l). split_and!; [done|apply not_elem_of_nil|right; eauto].
    + exists r. split_and!; [by rewrite Hl at 1| |done]. apply not_elem_of_cons. done.
Qed.

(** The base of a file's path is its last element. *)
Lemma filepath_Base_spec p : names_file p →
  ∃ dir, bytes_of p = dir ++ bytes_of (filepath_Base p) ∧ ("/"%char ∉ bytes_of (filepath_Base p)) ∧
    (dir = [] ∨ ∃ d, dir = d ++ ["/"%char]).
Proof.
  intros (q & c & Hp & Hc). unfold filepath_Base. destruct (String.eqb_spec p "") as [->|_]; [by destruct q|].
  assert (strip_slashes (reverse (bytes_of p)) = reverse (bytes_of p)) as ->.
  { rewrite Hp, reverse_app. cbn. destruct (Ascii.eqb_spec c "/"); [done|]. by destruct c as [[] [] [] [] [] [] [] []]. }
  rewrite reverse_involutive. destruct (before_slash_spec (reverse (bytes_of p))) as (r & Hr & Hn & Hd).
  set (name := before_slash (reverse (bytes_of p))) in *.
  assert (name ≠ []) as Hne.
  { unfold name. rewrite Hp, reverse_app. cbn. destruct (Ascii.eqb_spec c "/"); [done|]. done. }
  rewrite bool_decide_eq_false_2 by (intros E; apply Hne; apply (f_equal reverse) in E; by rewrite reverse_involutive in E).
  rewrite bytes_of_of_bytes. exists (reverse r). split_and!.
  - by rewrite <-reverse_app, <-Hr, reverse_involutive.
  - by rewrite elem_of_reverse.
  - destruct Hd as [->|[r' ->]]; [by left|right]. exists (reverse r'). by rewrite reverse_cons.
Qed.

Lemma ext_scan_slash d q : ∀ e, ext_scan e (d ++ "/"%char :: q) = ext_scan [] q.
Proof. induction d as [|c d IH]; intros e; [done|]. cbn. destruct c as [[] [] [] [] [] [] [] []]; apply IH. Qed.

Lemma Ext_Base p : names_file p → Ext (filepath_Base p) = Ext p.
Proof.
  intros (dir & Hp & Hn & Hd)%filepath_Base_spec. unfold Ext. rewrite Hp. destruct Hd as [->|[d ->]]; [done|].
  rewrite <-app_assoc. cbn [app]. by rewrite (ext_scan_slash d).
Qed.
