(* ===== verification/Concrete.v ===== *)
(** * Concrete instances of the interfaces

    Small executable stand-ins for the third-party and standard-library code the development
    abstracts (digest, JSON codec, Dragonboat, the outside world), and example documents.
    They show that the interfaces and the hypotheses of the theorems can be met. *)
From stdpp Require Import base strings numbers gmap list.
From Stdlib Require Import Ascii SpecFloat.
From S2P Require Import Prelude GoStrings GoTime GoNet GoList Deploy Dependency Kahn Validate Meta Placement Fsm RaftService TaskBase.

Module Concrete.

(** ** Digest, codec, sorting *)
#[export] Instance digest : Digest :=
  {| json_app := λ a, Some (bytes_of (app_APIVersion a)); sha256 := λ b, b |}.

Inductive wire := Empty | Cmd (c : command) | Snap (st : fsmSnapshotState).

#[export] Instance codec : Codec := {|
  payload := wire;
  payload_empty := λ p, match p with Empty => true | _ => false end;
  decodeType := λ p, match p with Cmd c => Some (command_type c) | _ => None end;
  decodeNode := λ p, match p with Cmd (CUpsertNode s) => Some s | _ => None end;
  decodeApp := λ p, match p with Cmd (CUpsertApp a) => Some a | _ => None end;
  decodeMeta := λ p, match p with Cmd (CDeleteApp m) => Some m | _ => None end;
  decodeAssignment := λ p, match p with Cmd (CUpsertAssignment a) => Some a | _ => None end;
  decodeBinding := λ p, match p with Cmd (CUpsertBinding b) => Some b | _ => None end;
  encode := λ c, Ok (Cmd c);
  encodeState := λ st, Ok (Snap st);
  decodeState := λ p, match p with Snap st => Ok st | _ => Err (Errorf "not a snapshot" []) end;
|}.

(** A log and a snapshot, as payloads of this codec. *)
Definition entries (cs : list command) : list payload := Cmd <$> cs.
Definition snapshot_of (st : fsmSnapshotState) : payload := Snap st.

#[export] Instance codec_laws : CodecLaws.
Proof.
  refine {| representable := λ _, True; state_representable := λ _, True |}.
  - intros c b _ [= <-]. by destruct c.
  - by intros c b [= <-].
  - intros c _. by eexists.
  - by intros st b _ [= <-].
Defined.

#[export] Instance sorting : ListSort := merge_list_sort.
#[export] Instance sorting_laws : ListSortLaws := merge_list_sort_laws.
#[export] Existing Instance kahn_lib.
#[export] Existing Instance kahn_laws.

(** ** Dragonboat: this node (replica 7) leads, and every proposal is applied at once. *)
Definition leader : NodeHost :=
  mkNodeHost (Ok (7%Z, true)) (Ok (7%Z, true)) (λ _, mkProposal [] true (Ok tt))
    (λ _ _, Ok tt) (λ _, Ok tt).

Lemma leader_ok : propose_ok leader.
Proof. by intros data _. Qed.

(** Another node leads. *)
Definition follower : NodeHost :=
  mkNodeHost (Ok (9%Z, true)) (Ok (9%Z, true)) (λ _, mkProposal [] false (Err (Errorf "refused" [])))
    (λ _ _, Ok tt) (λ _, Ok tt).

Definition node_up (f : schedulingFSM) : Service := mkService "n1" true f 7 "10.0.0.1:7000" ∅ ∅.

(** ** A world in which every call succeeds *)
Definition snap (id : string) (mem : Z) : Snapshot :=
  mkSnapshot id 1 8 (S754_zero false) (2 * mem) mem (S754_zero false).

#[export] Instance sunny : World := {|
  w_runtimeDeploy := λ _ _ _, Ok tt;
  w_runtimeStop := λ _ _ _ _, Ok tt;
  w_runtimeStatus := λ _ rt _ n, Ok (mkStatus n rt "exited" "" 0 1 "");
  w_workerPost := λ _ _ _ _ _ _, Ok (Ok (mkWorkerBody true "" "10.0.0.2" "" ""));
  w_nodeHost := λ _, leader;
  w_now := λ tr, Z.of_nat (S (length tr));
  w_collect := λ _ id, Ok (snap id 1000);
  w_listen := λ _ _ _, Ok (Ok tt);
  w_httpGet := λ _ _ _, Ok (Ok 200%Z);
  w_tcpDial := λ _ _ _, Ok (Ok tt);
  w_sleep := λ _ _, None;
  w_lookupDNS := λ _ _ _, Some "10.0.0.9";
  w_errorText := λ _, "error";
  w_urlHost := λ _, None;
  w_order := λ _ m, (map_to_list m).*2;
|}.

#[export] Instance sunny_laws : WorldLaws.
Proof. split; [intros tr; apply leader_ok|intros tr m; by unfold enumerates]. Qed.

(** ** Documents *)
Definition run_image (image : string) : RunSpec :=
  mkRun (mkArtifact image "" "") (mkExec [] []) [] "" "" (mkRunOptions None None None None None None).

(** A service with its dependencies and host ports. *)
Definition workload (name : string) (deps : list string) (hostPorts : list Z) : Workload :=
  mkWorkload name WorkloadKindService (run_image "nginx") RuntimeDocker 1
    ((λ d, mkWorkloadRef d "") <$> deps)
    ((λ p, mkEndpoint ("p" +:+ Itoa p) p ProtoTCP p "") <$> hostPorts)
    [] None None None None None.

Definition meta (name : string) : Metadata := mkMetadata name "" ∅ ∅.

(** The [version] is what the example digest sees. *)
Definition document (name version : string) (ws : list Workload) : App :=
  mkApp version "App" (meta name) ws [] [] [] [].

(** An API that depends on a database. *)
Definition shop : App := document "shop" "v1" [workload "api" ["db"] []; workload "db" [] [5432%Z]].
Definition shop2 : App := document "shop" "v2" [workload "api" ["db"] []; workload "db" [] [5432%Z]].

(** ** The task service on node n1: a single node without Raft, or the Raft leader *)
Definition cfg : TaskConfig := mkTaskConfig "n1" [("n2", "http://10.0.0.2:8080/")] true.
Definition task (sv : Service) : TaskState := mkTask sv ∅ ∅ ∅ ∅ 0 ∅ [].
Definition single (log : list payload) : TaskState := task (on_fsm (λ f, replay f log) (New "n1")).
Definition leading (log : list payload) : TaskState := task (node_up (replay initial log)).

Example shop_valid : Validate shop = Ok tt.
Proof. vm_compute. reflexivity. Qed.
Example shop_order : WorkloadsInDependencyOrder shop = Ok [workload "db" [] [5432%Z]; workload "api" ["db"] []].
Proof. vm_compute. reflexivity. Qed.
End Concrete.
