(* ===== verification/ApiConcrete.v ===== *)
(** * A concrete HTTP stack

    Instances of what the API model takes as parameters: a wire on which a body is the value
    itself, a router that takes the first route that matches, a guard and a token library, and
    the nodes and documents of the examples. *)
From stdpp Require Import base strings numbers gmap list pretty.
From Stdlib Require Import Ascii.
From S2P Require Import Prelude GoStrings GoTime GoNet GoList Deploy Dependency Kahn Validate Meta GoText Fsm RaftService RaftMembers Vpn TaskBase TaskRun TaskDeploy TaskOps TaskViews Dns ComposeSpec Runtime OrchSchema Effects TaskInspect ApiServer ApiReads HttpServer ApiClient ApiRouting ApiSpec Concrete.

Module ApiConcrete.
Import Concrete.

(** ** Bodies *)
Inductive packet :=
| PText (s : string) | PUnit | PApp (a : App) | PSource (b : DeploySourceBody) | POperation (b : OperationBody)
| PMember (b : AddMemberBody) | PWorkerDeploy (b : DeployWorkloadBody) | PWorkerStop (b : StopWorkloadBody)
| PWorkerStatus (b : WorkloadStatusBody) | PWorkerLogs (b : WorkloadLogsBody) | PHealth (o : HealthOutput)
| PReady (o : ReadyOutput) | PRuntimes (l : list RuntimeProviderItem) | PVPN (o : OrchVPNBootstrapOutput)
| PApps (l : list AppItem) | PDetail (o : AppDetailItem) | PWorkloads (l : list WorkloadItem) | PStatus (o : RuntimeStatus)
| PLogs (o : LogResult) | PAssignments (l : list AssignmentItem) | PVolumes (l : list VolumeBindingItem)
| PRaftStatus (o : RaftStatusOutput) | PMembers (l : list RaftMemberItem) | PAdded (o : AddRaftMemberOutput)
| PRemoved (o : RemoveRaftMemberOutput) | PDeploy (o : DeployOutput) | PAction (o : DeployActionBody)
| PDeleted (o : DeleteDeployOutput) | POperated (o : DeployOperationOutput) | PRevisions (l : list AppRevisionItem)
| PWorkerDeployed (o : DeployWorkloadOutput) | PWorkerStopped (o : StopWorkloadOutput).

#[export] Instance packets : Wire := {| raw := packet; raw_text := λ p, if p is PText s then s else ""; raw_len := λ _, 1 |}.

Definition no_json {A} : res A := Err (Errorf "invalid JSON" []).
Definition json_of {A} (inj : A → packet) (proj : packet → option A) : Json A := {|
  marshal := λ a, Ok (inj a);
  unmarshal := λ p : raw, if proj p is Some a then Ok a else no_json;
  accept := λ body : option raw, match body with Some p => if proj p is Some a then Ok a else no_json | None => no_json end |}.

#[export] Instance packet_json : ApiJson := {|
  json_unit := json_of (λ _, PUnit) (λ p, if p is PUnit then Some tt else None);
  json_app := json_of PApp (λ p, if p is PApp x then Some x else None);
  json_source := json_of PSource (λ p, if p is PSource x then Some x else None);
  json_operation := json_of POperation (λ p, if p is POperation x then Some x else None);
  json_member := json_of PMember (λ p, if p is PMember x then Some x else None);
  json_worker_deploy := json_of PWorkerDeploy (λ p, if p is PWorkerDeploy x then Some x else None);
  json_worker_stop := json_of PWorkerStop (λ p, if p is PWorkerStop x then Some x else None);
  json_worker_status := json_of PWorkerStatus (λ p, if p is PWorkerStatus x then Some x else None);
  json_worker_logs := json_of PWorkerLogs (λ p, if p is PWorkerLogs x then Some x else None);
  json_health := json_of PHealth (λ p, if p is PHealth x then Some x else None);
  json_ready := json_of PReady (λ p, if p is PReady x then Some x else None);
  json_runtimes := json_of PRuntimes (λ p, if p is PRuntimes x then Some x else None);
  json_vpn := json_of PVPN (λ p, if p is PVPN x then Some x else None);
  json_apps := json_of PApps (λ p, if p is PApps x then Some x else None);
  json_detail := json_of PDetail (λ p, if p is PDetail x then Some x else None);
  json_workloads := json_of PWorkloads (λ p, if p is PWorkloads x then Some x else None);
  json_status := json_of PStatus (λ p, if p is PStatus x then Some x else None);
  json_logs := json_of PLogs (λ p, if p is PLogs x then Some x else None);
  json_assignments := json_of PAssignments (λ p, if p is PAssignments x then Some x else None);
  json_volumes := json_of PVolumes (λ p, if p is PVolumes x then Some x else None);
  json_raft_status := json_of PRaftStatus (λ p, if p is PRaftStatus x then Some x else None);
  json_members := json_of PMembers (λ p, if p is PMembers x then Some x else None);
  json_added := json_of PAdded (λ p, if p is PAdded x then Some x else None);
  json_removed := json_of PRemoved (λ p, if p is PRemoved x then Some x else None);
  json_deploy := json_of PDeploy (λ p, if p is PDeploy x then Some x else None);
  json_action := json_of PAction (λ p, if p is PAction x then Some x else None);
  json_deleted := json_of PDeleted (λ p, if p is PDeleted x then Some x else None);
  json_operated := json_of POperated (λ p, if p is POperated x then Some x else None);
  json_revisions := json_of PRevisions (λ p, if p is PRevisions x then Some x else None);
  json_worker_deployed := json_of PWorkerDeployed (λ p, if p is PWorkerDeployed x then Some x else None);
  json_worker_stopped := json_of PWorkerStopped (λ p, if p is PWorkerStopped x then Some x else None) |}.

(** Every answer can be read back. *)
Lemma packet_faithful {O} (c : call O) o :
  ∃ r, marshal (Json := call_json c) o = Ok r ∧ unmarshal (Json := call_json c) r = Ok o ∧ (0 < raw_len r)%nat.
Proof. destruct c; (eexists; split; [reflexivity|split; [reflexivity|apply Nat.lt_0_1]]). Qed.

(** ** Tokens and the framework *)
#[export] Instance tokens : JwtLib := {|
  principal := string;
  verify_HS256 := λ secret token,
    if (token =? "signed-" +:+ secret)%string then Ok "operator" else Err (Errorf "bad signature" []) |}.

Definition first_route (rs : list Route) (m p : string) : option (Route * list (string * string)) :=
  head (omap (λ r, if (rt_method r =? m)%string then (λ vs, (r, vs)) <$> template_match (rt_template r) p else None) rs).

Definition guard_allows (g : Guard) (token : string) : bool :=
  existsb (λ pr, match AuthenticateAny pr token, en_authorize (gd_engine g) with
                 | Ok p, Some authorize => (authorize (Some p)).1
                 | _, _ => false
                 end) (en_providers (gd_engine g)).

#[export] Instance simple_framework : Framework := {|
  use_matches := λ prefix p, HasPrefix p prefix;
  route := first_route;
  query_int := λ q name,
    if (q =? "")%string then Ok 0%Z
    else match strip_prefix q (name +:+ "=") with
         | Some v => match Atoi v with Some z => Ok z | None => no_json end
         | None => Ok 0%Z
         end;
  require := λ g header,
    match gd_resolver g with
    | None => Err (Errorf "no credential" [])
    | Some resolve => token ← resolve header; guard_err (negb (guard_allows g token)) (Errorf "denied" [])
    end;
  render := λ r, match r with Ok b => mkResponse "200 OK" b true | Err _ => mkResponse "500 Internal Server Error" (PText "error") false end;
  unauthorized := λ _, mkResponse "401 Unauthorized" (PText "unauthorized") false;
  no_route := mkResponse "404 Not Found" (PText "") false |}.

(** *** The framework keeps its laws *)
Lemma match_segments_literal ts1 ts2 ps vs : Forall (λ t, param_name t = None) ts1 →
  match_segments (ts1 ++ ts2) ps = Some vs → ∃ ps2, ps = ts1 ++ ps2 ∧ match_segments ts2 ps2 = Some vs.
Proof.
  intros Hl. revert ps. induction Hl as [|t ts1 Ht _ IH]; intros ps Hm; [by exists ps|].
  destruct ps as [|p ps]; [done|]. cbn in Hm. rewrite Ht in Hm.
  destruct (String.eqb_spec t p) as [->|]; [|done]. destruct (IH ps Hm) as (ps2 & -> & Hm2). by exists ps2.
Qed.

Lemma join_of_segments p : join_segments (bytes_of <$> segments p) = bytes_of p.
Proof.
  unfold segments, Split. rewrite <-list_fmap_compose.
  rewrite (list_fmap_ext _ id) by (intros; cbn; apply bytes_of_of_bytes). rewrite list_fmap_id. by apply join_split.
Qed.

Lemma segments_literal prefix : "{"%char ∉ bytes_of prefix → Forall (λ t, param_name t = None) (segments prefix).
Proof.
  intros Hn. apply Forall_forall. intros t Ht. unfold param_name.
  assert (Forall (λ c, c ≠ "{"%char) (bytes_of t)) as Hf.
  { eapply (Split_Forall _ prefix); [|exact Ht]. apply Forall_forall. by intros c Hc ->. }
  destruct Hf as [|c l Hc _]; [done|]. by destruct c as [[] [] [] [] [] [] [] []].
Qed.

Lemma template_prefix template prefix p vs : "{"%char ∉ bytes_of prefix → extends template prefix = true →
  template_match template p = Some vs → HasPrefix p prefix = true.
Proof.
  intros Hl He Hm. apply segments_literal in Hl.
  assert (∃ ts, segments template = segments prefix ++ ts) as [ts Hts].
  { unfold extends in He. apply orb_true_iff in He as [->%String.eqb_eq|He]; [by exists []; rewrite app_nil_r|].
    apply HasPrefix_strip in He as [t ->]. rewrite string_app_assoc, segments_app. by eexists. }
  unfold template_match in Hm. rewrite Hts in Hm. destruct (match_segments_literal _ _ _ _ Hl Hm) as (ps & Hps & _).
  pose proof (join_of_segments p) as Hj. rewrite Hps, fmap_app in Hj.
  assert (segments prefix ≠ []) as Hne.
  { unfold segments, Split. intros Hnil%fmap_nil_inv. by apply split_bytes_ne in Hnil. }
  apply HasPrefix_strip. destruct ps as [|q ps].
  - exists "". rewrite app_nil_r, join_of_segments in Hj. apply bytes_of_inj in Hj. by rewrite Hj, string_nil_r.
  - rewrite join_segments_app, join_of_segments in Hj; [|by intros ?%fmap_nil_inv|done].
    exists (of_bytes ("/"%char :: join_segments (bytes_of <$> q :: ps))). apply bytes_of_inj.
    by rewrite bytes_of_app, bytes_of_of_bytes.
Qed.

Lemma first_route_in rs m p r vs : first_route rs m p = Some (r, vs) →
  r ∈ rs ∧ rt_method r = m ∧ template_match (rt_template r) p = Some vs.
Proof.
  unfold first_route. intros Hh%head_Some_elem_of. apply list_elem_of_omap in Hh as (r' & Hr & Hf).
  destruct (String.eqb_spec (rt_method r') m); [|done].
  apply fmap_Some in Hf as (vs' & Hm & [= -> ->]). done.
Qed.

(** Decimal numbers read back. *)
Lemma pretty_N_go_value n : ∀ x s, (x < 10 ^ N.of_nat n)%N →
  ∃ ds, bytes_of (pretty_N_go x s) = ds ++ bytes_of s ∧
    ∀ acc, foldl (λ acc d, acc * 10 + digit_val d)%Z acc ds = (acc * 10 ^ Z.of_nat (length ds) + Z.of_N x)%Z.
Proof.
  induction n as [|n IH]; intros x s Hx.
  { assert (x = 0)%N as -> by (cbn in Hx; lia). exists []. rewrite pretty_N_go_0. split; [done|]. cbn. intros. lia. }
  destruct (decide (x = 0)%N) as [->|Hne].
  { exists []. rewrite pretty_N_go_0. split; [done|]. cbn. intros. lia. }
  rewrite pretty_N_go_step by lia.
  destruct (IH (x `div` 10)%N (String (pretty_N_char (x `mod` 10)) s)) as (ds & Hd & Hf).
  { apply N.Div0.div_lt_upper_bound. replace (N.of_nat (S n)) with (N.succ (N.of_nat n)) in Hx by lia.
    by rewrite N.pow_succ_r' in Hx. }
  exists (ds ++ [pretty_N_char (x `mod` 10)]). rewrite Hd, <-app_assoc. split; [done|]. intros acc.
  rewrite foldl_app, Hf, length_app. cbn [foldl length].
  assert (∀ y, (y < 10)%N → digit_val (pretty_N_char y) = Z.of_N y) as Hc.
  { intros y Hy. destruct y as [|[[[[]|[]|]|[[]|[]|]|]|[[[]|[]|]|[[]|[]|]|]|]]; first [reflexivity|lia]. }
  rewrite Hc by (apply N.mod_lt; lia). rewrite Nat2Z.inj_add, Z.pow_add_r by lia. cbn [Z.of_nat]. change (10 ^ 1)%Z with 10%Z.
  pose proof (N.div_mod x 10 ltac:(lia)) as Hdm. lia.
Qed.

Lemma int64_digits z : (z ≤ max_int64)%Z → (z < 10 ^ Z.of_nat 19)%Z.
Proof. intros Hz. eapply Z.le_lt_trans; [exact Hz|]. by vm_compute. Qed.

Lemma Itoa_value z n : (0 ≤ z < 10 ^ Z.of_nat n)%Z →
  ∃ c r, bytes_of (Itoa z) = c :: r ∧ foldl (λ acc d, acc * 10 + digit_val d)%Z 0%Z (c :: r) = z.
Proof.
  intros [Hz Hn]. destruct z as [|p|p]; [by exists "0"%char, []| |lia].
  destruct (pretty_N_go_value n (N.pos p) "") as (ds & Hds & Hf).
  { apply N2Z.inj_lt. rewrite N2Z.inj_pow. by rewrite nat_N_Z. }
  assert (Itoa (Z.pos p) = pretty_N_go (N.pos p) "") as ->.
  { change (pretty (N.pos p) = pretty_N_go (N.pos p) ""). unfold pretty, pretty_N. by rewrite decide_False. }
  rewrite Hds, app_nil_r. specialize (Hf 0%Z). destruct ds as [|c r]; [cbn in Hf; lia|].
  exists c, r. split; [done|]. by rewrite Hf.
Qed.

Lemma sign_digit {A} (c : ascii) r (x y z : list ascii → A) : is_digit c = true →
  match c :: r with "+"%char :: r => x r | "-"%char :: r => y r | r => z r end = z (c :: r).
Proof. destruct c as [[] [] [] [] [] [] [] []]; vm_compute; done. Qed.

Lemma Atoi_Itoa z : (0 ≤ z ≤ max_int64)%Z → Atoi (Itoa z) = Some z.
Proof.
  intros [Hz Hm]. pose proof (int64_digits z Hm) as Hn. generalize dependent 19. intros n Hn.
  destruct (Itoa_value z n (conj Hz Hn)) as (c & r & Hc & Hv).
  destruct (Itoa_digits (S n) z) as [Hd _]; [split; [done|]|lia|].
  { eapply Z.lt_le_trans; [exact Hn|]. apply Z.pow_le_mono_r; lia. }
  unfold Atoi. rewrite Hc in Hd |- *.
  rewrite (sign_digit c r (λ r, (false, r)) (λ r, (true, r)) (λ r, (false, r))) by (cbn in Hd; by apply andb_prop in Hd as [? _]).
  rewrite Hd, Hv. replace (min_int64 <=? z)%Z with true; [|symmetry; apply Z.leb_le; etrans; [|exact Hz]; by vm_compute].
  apply Z.leb_le in Hm. by rewrite Hm.
Qed.

Lemma strip_prefix_app p t : strip_prefix (p +:+ t) p = Some t.
Proof. induction p as [|a p IH]; [by destruct t|]. rewrite append_cons. cbn [strip_prefix]. by rewrite Ascii.eqb_refl. Qed.

#[export] Instance simple_framework_laws : FrameworkLaws.
Proof.
  split; cbn.
  - intros rs m p r vs Hin Hm _ Ht Hu. unfold first_route.
    assert ((r, vs) ∈ omap (λ r, if (rt_method r =? m)%string then (λ vs, (r, vs)) <$> template_match (rt_template r) p else None) rs)
      as Hr.
    { apply list_elem_of_omap. exists r. split; [done|]. rewrite Hm, String.eqb_refl. cbn. by rewrite Ht. }
    destruct (first_route rs m p) as [[r' vs']|] eqn:E.
    + pose proof (first_route_in _ _ _ _ _ E) as (Hin' & Hm' & Ht').
      assert (r' = r) as -> by (apply Hu; [done|done|by eexists]). rewrite Ht in Ht'. injection Ht' as <-. exact E.
    + unfold first_route in E. destruct (omap _ rs); [by apply not_elem_of_nil in Hr|done].
  - intros rs m p r vs Hr. by apply first_route_in in Hr as (? & ? & _).
  - intros rs m p r vs prefix Hr Hl He. apply first_route_in in Hr as (_ & _ & Ht). by eapply template_prefix.
  - intros prefix p [t ->]%HasPrefix_strip. exists (bytes_of prefix), (bytes_of t). split; [by rewrite bytes_of_app|done].
  - intros name z Hz. assert (name +:+ "=" +:+ Itoa z ≠ "") as Hne.
    { intros He%(f_equal bytes_of). rewrite !bytes_of_app in He. by destruct (bytes_of name). }
    apply String.eqb_neq in Hne. rewrite Hne, <-string_app_assoc.
    by rewrite strip_prefix_app, Atoi_Itoa.
  - done.
  - intros g header. destruct (gd_resolver g) as [resolve|]; [|by split; [|intros (? & ? & ? & ? & ? & [=] & _)]].
    destruct (resolve header) as [token|e] eqn:Hr; cbn; [|split; [done|]].
    2: { intros (? & ? & ? & ? & ? & [= <-] & ? & _). congruence. }
    unfold guard_err, guard_allows. split.
    + destruct (existsb _ _) eqn:E; [|done]. intros _. apply existsb_exists in E as (pr & Hin & Hpr).
      destruct (AuthenticateAny pr token) as [p|] eqn:Ha; [|done].
      destruct (en_authorize (gd_engine g)) as [authorize|]; [|done].
      exists resolve, token, pr, p, authorize. split_and!; try done. by apply list_elem_of_In.
    + intros (? & token' & pr & p & authorize & [= <-] & Ht & Hin & Ha & Hz & Hok).
      assert (token' = token) as -> by congruence.
      assert (existsb (λ pr, match AuthenticateAny pr token, en_authorize (gd_engine g) with
        | Ok p, Some authorize => (authorize (Some p)).1 | _, _ => false end) (en_providers (gd_engine g)) = true) as ->; [|done].
      apply existsb_exists. exists pr. split; [by apply list_elem_of_In|]. by rewrite Ha, Hz.
  - done.
  - done.
  - done.
  - done.
Qed.

(** ** Two nodes *)
#[export] Instance no_inspection : Inspect := {|
  i_runtimeLogs := λ _ _ _ _ _, Err (Errorf "no logs" []);
  i_workerStatus := λ _ _ _ _ _, Err (Errorf "unreachable" []);
  i_workerLogs := λ _ _ _ _ _ _, Err (Errorf "unreachable" []) |}.
#[export] Instance shop_loader : ManifestLoader := λ _ src, if (src =? "")%string then Err (Errorf "empty source" []) else Ok shop.
#[export] Instance map_order : ApiEnv := {|
  ae_membership := λ _, Ok (mkMembership ∅ ∅ ∅);
  order_assignments := λ m, (map_to_list m).*2; order_bindings := λ m, (map_to_list m).*2;
  order_records := λ m, (map_to_list m).*2 |}.
#[export] Instance replica_keys : ReplicaOrder := keys_order.

Definition docker_manager : Manager :=
  NewManagerWithStatus [mkProviderStatus "docker" RuntimeProviderPolicyRequired true true ProviderStatusRegistered ""] [].
#[export] Instance healthy_system : SystemEnv := {|
  se_runtimes := Some docker_manager; se_readiness := Some (mkReport [("raft", None)] true); se_health := None;
  se_timestamp := "2024-01-01T00:00:00Z"; se_routes := None; se_hostinfo := no_json; se_diagnostics := λ _, no_json |}.

Definition api_config (local : string) (nodes : list (string * string)) : ApiConfig :=
  mkApiConfig (mkTaskConfig local nodes true) "signed-s3cret" true "s3cret" (mkVPNConfig false "") "".
Definition leader_config : ApiConfig := api_config "n1" [].
Definition follower_config : ApiConfig := api_config "n2" [("n1", "http://10.0.0.1:17443/")].

Definition token_guard : Guard := mkGuard (mkEngine [JwtHS256 "s3cret"] (Some (λ p, match p with
  | None => (false, "anonymous is not allowed") | Some _ => (true, "authenticated") end))) (Some resolve_credential).
Lemma leader_guard : auth_guard leader_config = Ok token_guard.
Proof. reflexivity. Qed.

(** n1 is replica 7 and leads; n2 is replica 9 and knows it. *)
Definition leader_node : Node := mkNode (leading []) [].
Definition follower_node : Node :=
  mkNode (task (mkService "n2" true initial 9 "10.0.0.2:7000" {[7%Z := "n1"; 9%Z := "n2"]} ∅)) [].

Definition offline : Transport := {|
  newClient := λ _, Ok tt; execute := λ _ _ _, Err (Errorf "offline" []) |}.
(** What n2's client reaches: the server of n1. *)
Definition to_leader : Transport := {|
  newClient := λ _, Ok tt;
  execute := λ _ base rq,
    if (base =? "http://10.0.0.1:17443")%string then Ok (serve (H0 := offline) leader_config token_guard rq leader_node).1
    else Err (Errorf "unreachable" []) |}.

Definition shop_path : AppPathInput := mkAppPath "default" "shop".
Lemma shop_path_safe : safe_app shop_path.
Proof. split; apply name_safe; reflexivity. Qed.
End ApiConcrete.
