(* ===== verification/DocumentTheorems.v ===== *)
(** * Theorems about the deploy document

    Dependency order, validation, placement, the names derived from a document, the .orch
    language and the manifest loader. *)
From stdpp Require Import base strings numbers relations gmap list.
From Stdlib Require Import Ascii SpecFloat.
From S2P Require Import Prelude GoStrings GoTime GoNet GoList Deploy Dependency Kahn Validate ValidateSpec Meta GoText Placement Fsm RaftService TaskBase TaskRun GoFloat OrchDsl OrchDslSpec OrchSchema Concrete.

(** Case analysis on membership in a concrete list. *)
Ltac each_elem Hx :=
  repeat (apply elem_of_cons in Hx as [->|Hx]); [..|by apply elem_of_nil in Hx].

(** ** Dependency order *)
Section dependency_theorems.
Context `{GraphLaws}.

(** C5. When [WorkloadsInDependencyOrder] succeeds, its result is a permutation of the
    document's workloads in which every workload comes after all the workloads it depends
    on. *)
Theorem dependency_order_sound a out :
  WorkloadsInDependencyOrder a = Ok out →
  out ≡ₚ app_Workloads a ∧ dependency_ordered out.
Proof. intros (? & ? & _)%order_ok_spec. done. Qed.

(** C6. On a document whose workload names are non-blank and distinct, whose dependencies
    are known and listed once, and in which nothing depends on itself directly, the ordering
    is complete: it succeeds when the dependency relation is acyclic, and reports the cycle
    otherwise. *)
Theorem dependency_order_complete a :
  let ws := app_Workloads a in
  well_named ws → deps_known ws → NoDup_deps ws → (∀ x, ¬ depends ws x x) →
  (acyclic (depends ws) → ∃ out, WorkloadsInDependencyOrder a = Ok out) ∧
  (¬ acyclic (depends ws) →
     WorkloadsInDependencyOrder a = Err (Errorf "workloads dependsOn contains a cycle" [])).
Proof. intros ws WN DK ND Hirr. split; [by apply order_exists|by apply order_cycle]. Qed.

(** C7. [App.Validate] against the declarative description [valid_app].  Every document it
    accepts satisfies the description: its names, kinds, runtimes, run specs, environment,
    resources, probes, lifecycle, rollout, mounts, endpoints and ingress routes are well
    formed, and its dependencies are known and acyclic.  Conversely it accepts every document
    of the description in which no workload lists the same dependency twice; what the graph
    package answers to a repeated edge is not documented, so nothing is said of the others. *)
Theorem validate_correct a :
  (Validate a = Ok tt → valid_app a) ∧
  (NoDup_deps (app_Workloads a) → valid_app a → Validate a = Ok tt).
Proof. split; [apply Validate_sound|by apply Validate_complete]. Qed.
End dependency_theorems.

Import Concrete.

Lemma dependency_order_sound_witness :
  [workload "db" [] [5432%Z]; workload "api" ["db"] []] ≡ₚ app_Workloads shop ∧
  dependency_ordered [workload "db" [] [5432%Z]; workload "api" ["db"] []].
Proof. apply (dependency_order_sound shop). vm_compute. reflexivity. Defined.

(** Two workloads that wait for each other. *)
Definition deadlock : App := document "deadlock" "v1" [workload "a" ["b"] []; workload "b" ["a"] []].

Lemma dependency_order_complete_witness :
  WorkloadsInDependencyOrder deadlock = Err (Errorf "workloads dependsOn contains a cycle" []).
Proof.
  apply (dependency_order_complete deadlock).
  - split; [repeat constructor; by vm_compute|by apply (bool_decide_unpack _); vm_compute].
  - intros w r Hw Hr. each_elem Hw; apply (bool_decide_unpack _); each_elem Hr; by vm_compute.
  - intros w Hw. each_elem Hw; apply (bool_decide_unpack _); by vm_compute.
  - intros x (w & r & Hw & Hr & -> & E). each_elem Hw; each_elem Hr; by vm_compute in E.
  - intros AC. apply (AC "a").
    apply (tc_l _ "a" "b"); [|apply tc_once].
    + exists (workload "b" ["a"] []), (mkWorkloadRef "a" ""). split_and!; [set_solver|set_solver|done..].
    + exists (workload "a" ["b"] []), (mkWorkloadRef "b" ""). split_and!; [set_solver|set_solver|done..].
Defined.

Lemma validate_correct_witness : valid_app shop ∧ Validate shop = Ok tt.
Proof.
  assert (valid_app shop) as Hv by (apply (validate_correct shop); by vm_compute).
  split; [exact Hv|]. apply (validate_correct shop); [|exact Hv].
  intros w Hw. each_elem Hw; apply (bool_decide_unpack _); by vm_compute.
Defined.

(** ** Placement *)
Section placement_theorems.
Variables (w : Workload) (st : SnapshotStore) (local : string).

(** The nodes a workload may be placed on, with their snapshots. *)
Definition suitable (m : scoredNode) : Prop :=
  is_candidate w (Some st) (sc_id m) ∧ Catalog_Get (Some st) (sc_id m) = Some (sc_snap m) ∧
  feasible (rq_cpuMillis (workloadRequest w)) (rq_memoryByte (workloadRequest w)) (sc_snap m) = true.

Definition pinned : bool := if preferredNames w is Some _ then true else false.

Hypothesis Hnan : ∀ id s, Catalog_Get (Some st) id = Some s → no_nan s.

Lemma choose_best n :
  st_Len st ≠ 0 →
  Choose w (Some st) local = Ok n ↔
  ∃ cs m, placementCandidates w (Some st) = Ok (cs, preferredNames w) ∧ sc_id m = n ∧
    bestPlacementCandidate cs (Some st) (workloadRequest w) (preferredNames w) pinned = Some m.
Proof.
  intros Hlen. unfold Choose, chooseV1Alpha1. cbn [Catalog_Len].
  destruct (Nat.eqb_spec (st_Len st) 0) as [|_]; [done|].
  destruct (placementCandidates w (Some st)) as [[cs prefs]|e] eqn:Ec; cbn [mbind res_bind];
    [|split; [done|naive_solver]].
  apply placementCandidates_ok in Ec as [-> _]. fold pinned.
  destruct (bestPlacementCandidate _ _ _ _ _) as [m|] eqn:E; split; naive_solver.
Qed.

(** C8. What placement chooses, for a catalog without NaN CPU percentages.  On an empty
    catalog it is the local node, with no look at resources or preferences.  Otherwise the
    node is optimal: it is in the catalog and among the preferred nodes when there are any,
    its snapshot has the resources the workload asks for, and no other such node has a lower
    CPU usage, or the same usage and more available memory, or (when nodes are preferred)
    ties on both and stands earlier in the list of preferences. *)
Theorem placement_optimal n :
  Choose w (Some st) local = Ok n →
  (st_Len st = 0 ∧ n = fallbackNodeID local) ∨
  (st_Len st ≠ 0 ∧ ∃ m, sc_id m = n ∧ suitable m ∧
     ∀ m', suitable m' → ¬ rank_key (preferredNames w) pinned m' m).
Proof using Hnan.
  intros HC. destruct (decide (st_Len st = 0)) as [E|Hlen].
  { left. split; [done|]. unfold Choose, chooseV1Alpha1 in HC. cbn [Catalog_Len] in HC.
    rewrite E in HC. cbn in HC. congruence. }
  right. split; [done|]. apply (choose_best n Hlen) in HC as (cs & m & Hc & <- & Hb).
  apply placementCandidates_ok in Hc as [_ Hc].
  pose proof (best_candidate (Some st) (workloadRequest w) (preferredNames w) pinned Hnan cs) as Hopt.
  rewrite Hb in Hopt. destruct Hopt as [(Hin & Hget & Hf) Hmax]. exists m.
  split_and!; [done| |].
  - by split_and!; [apply Hc|..].
  - intros m' (Hcand & Hget' & Hf'). apply Hmax. by split_and!; [apply Hc|..].
Qed.

(** Placement on a non-empty catalog succeeds exactly when some node is suitable. *)
Theorem placement_complete :
  st_Len st ≠ 0 →
  (∃ n, Choose w (Some st) local = Ok n) ↔ ∃ m, suitable m.
Proof using Hnan.
  intros Hlen. setoid_rewrite (λ n, choose_best n Hlen). split.
  - intros (n & cs & m & Hc & _ & Hb). apply placementCandidates_ok in Hc as [_ Hc].
    pose proof (best_candidate (Some st) (workloadRequest w) (preferredNames w) pinned Hnan cs) as Hopt.
    rewrite Hb in Hopt. destruct Hopt as [(Hin & Hget & Hf) _]. exists m. by split_and!; [apply Hc|..].
  - intros (m & Hcand & Hget & Hf).
    destruct (placementCandidates_complete w (Some st) (sc_id m) Hcand) as [cs Hc].
    pose proof (best_candidate (Some st) (workloadRequest w) (preferredNames w) pinned Hnan cs) as Hopt.
    pose proof Hc as [_ Hcs]%placementCandidates_ok.
    destruct (bestPlacementCandidate _ _ _ _ _) as [b|] eqn:Hb; [by eauto 10|].
    destruct (Hopt m). by split_and!; [apply Hcs|..].
Qed.
End placement_theorems.

(** Two nodes, the second with more free memory. *)
Definition two_nodes : SnapshotStore :=
  raftCapacityStore (mkFSM (set_nodes {["n1" := snap "n1" 100; "n2" := snap "n2" 200]} empty_state) false false).

Lemma two_nodes_nan id s : Catalog_Get (Some two_nodes) id = Some s → no_nan s.
Proof.
  cbn. unfold getNodeCapacity. cbn. intros [[_ <-]|[_ [_ <-]%lookup_singleton_Some]]%lookup_insert_Some; done.
Qed.

Lemma placement_optimal_witness :
  ∃ m, sc_id m = "n2" ∧ suitable (workload "db" [] []) two_nodes m ∧
    ∀ m', suitable (workload "db" [] []) two_nodes m' →
      ¬ rank_key (preferredNames (workload "db" [] [])) (pinned (workload "db" [] [])) m' m.
Proof.
  destruct (placement_optimal (workload "db" [] []) two_nodes "n1" two_nodes_nan "n2")
    as [[E _]|[_ Hm]]; [by vm_compute|by vm_compute in E|exact Hm].
Defined.

Lemma placement_complete_witness : ∃ m, suitable (workload "db" [] []) two_nodes m.
Proof.
  apply (placement_complete (workload "db" [] []) two_nodes "n1").
  - apply two_nodes_nan.
  - by vm_compute.
  - exists "n2". by vm_compute.
Defined.

(** ** Names, resources and references *)

(** The Raft keys of two assignments coincide only for the same workload of the same
    application, when the names are ones that validation accepts. *)
Theorem assignment_key_injective m w m' w' :
  nameRe (md_Name m) = true → nameRe (md_Name m') = true → nameRe w = true → nameRe w' = true →
  (md_Namespace m ≠ "" → nameRe (md_Namespace m) = true) →
  (md_Namespace m' ≠ "" → nameRe (md_Namespace m') = true) →
  AssignmentKey m w = AssignmentKey m' w' ↔
    NamespaceOrDefault (md_Namespace m) = NamespaceOrDefault (md_Namespace m') ∧
    md_Name m = md_Name m' ∧ w = w'.
Proof.
  intros Hn Hn' Hw Hw' Hns Hns'.
  assert (∀ s, (s ≠ "" → nameRe s = true) → ContainsByte (NamespaceOrDefault s) "/" = false) as Hslash.
  { intros s Hs. destruct (decide (s = "")) as [->|Hne]; [by vm_compute|].
    pose proof (nameRe_nonblank _ (Hs Hne)) as Hb. unfold NamespaceOrDefault, CoalesceOrEmpty.
    destruct (String.eqb_spec (TrimSpace s) "") as [|_]; [done|].
    rewrite (nameRe_trimmed s) by auto. by apply nameRe_no_slash, Hs. }
  rewrite !AssignmentKey_eq by (by apply nameRe_nonblank).
  rewrite !(nameRe_trimmed _ Hn), !(nameRe_trimmed _ Hn'), !(nameRe_trimmed _ Hw), !(nameRe_trimmed _ Hw').
  split; [|by intros (-> & -> & ->)].
  intros [Ens Erest]%slash_inj; [|by auto..].
  apply slash_inj in Erest; [done|by apply nameRe_no_slash..].
Qed.

Lemma assignment_key_injective_witness :
  AssignmentKey (meta "shop") "api" ≠ AssignmentKey (meta "shop") "db".
Proof.
  intros E. apply (assignment_key_injective (meta "shop") "api" (meta "shop") "db") in E; try done.
  by destruct E as (_ & _ & ?).
Defined.

(** [SanitizeName] always returns a non-empty string over [a-z0-9._-], whatever bytes it is
    given, so the container names built from it are made of these characters only. *)
Theorem sanitized_names m name :
  SanitizeName name ≠ "" ∧
  Forall (λ a, name_byte a = true) (bytes_of (SanitizeName name)) ∧
  Forall (λ a, name_byte a = true) (bytes_of (OrchContainerName m name)).
Proof.
  pose proof (SanitizeName_bytes name) as [? ?]. split_and!; [done..|].
  unfold OrchContainerName. rewrite !bytes_of_app, !Forall_app. split_and!;
    first [by apply SanitizeName_bytes | repeat constructor].
Qed.

(** Container names are not unique: "-" joins the parts of a container name and is also a
    legal character of them, so two valid applications can own the same container name although
    their assignment keys differ. *)
Theorem container_name_collision :
  ∃ a b wa wb, Validate a = Ok tt ∧ Validate b = Ok tt ∧
    wa ∈ app_Workloads a ∧ wb ∈ app_Workloads b ∧
    AssignmentKey (app_Metadata a) (w_Name wa) ≠ AssignmentKey (app_Metadata b) (w_Name wb) ∧
    OrchContainerName (app_Metadata a) (w_Name wa) = OrchContainerName (app_Metadata b) (w_Name wb).
Proof.
  exists (document "a-b" "v1" [workload "c" [] []]), (document "a" "v1" [workload "b-c" [] []]).
  exists (workload "c" [] []), (workload "b-c" [] []).
  split_and!; [by vm_compute|by vm_compute|set_solver|set_solver|by vm_compute|by vm_compute].
Qed.

(** [NanoCPUs] saturates: for every int64 request the result is the request in nanoseconds
    of CPU, cut off at 0 below and at the largest int64 above; it never wraps around. *)
Theorem nano_cpus_saturates m :
  NanoCPUs m = Z.max 0 (Z.min max_int64 (m * nanoCPUsPerMilli)).
Proof.
  unfold NanoCPUs, nanoCPUsPerMilli, max_int64.
  change (9223372036854775807 / 1000000)%Z with 9223372036854%Z.
  destruct (Z.leb_spec m 0); [lia|]. destruct (Z.ltb_spec 9223372036854 m) as [|Hle]; [lia|].
  rewrite wrap_int64_small; unfold max_int64, min_int64; lia.
Qed.

(** [CFSQuota] grants [cpuMillis * 100] microseconds per period of 100000 for every request
    up to 92233720368547 thousandths of a CPU; beyond, the int64 product wraps around and the
    quota is no longer monotone: a larger request can get the smallest quota, 1. *)
Theorem cfs_quota_exact m :
  (0 < m ≤ 92233720368547)%Z →
  CFSQuota m = (m * 100, cfsPeriodMicros)%Z ∧ CFSQuota 92233720368548 = (1, cfsPeriodMicros)%Z.
Proof.
  intros Hm. split; [|by vm_compute]. unfold CFSQuota, cfsPeriodMicros.
  destruct (Z.leb_spec m 0); [lia|].
  rewrite wrap_int64_small by (unfold min_int64, max_int64; lia).
  replace (100000 * m)%Z with (m * 100 * 1000)%Z by lia. rewrite Z.quot_mul by lia.
  destruct (Z.leb_spec (m * 100) 0); [lia|done].
Qed.

Lemma cfs_quota_exact_witness : CFSQuota 1500 = (150000, 100000)%Z.
Proof. apply (cfs_quota_exact 1500). lia. Defined.

(** The scalar form of an endpoint reference round-trips: [workload:endpoint] is decoded to
    exactly these two names, for trimmed names whose workload has no colon, whatever the
    reference held before. *)
Theorem endpoint_ref_roundtrip r w e d :
  trimmed w → trimmed e → ContainsByte w ":" = false → w ≠ "" → e ≠ "" →
  EndpointRef_UnmarshalYAML r (mkNode ScalarNode (w +:+ ":" +:+ e) d) = Ok (mkEndpointRef w e).
Proof.
  intros Hw He Hc Hwne Hene. unfold EndpointRef_UnmarshalYAML. cbn [n_Kind n_Value].
  change (":" +:+ e) with (String ":" e).
  assert (TrimSpace (w +:+ String ":" e) = w +:+ String ":" e) as -> by (by apply trimmed_join).
  destruct (String.eqb_spec (w +:+ String ":" e) "") as [E|_]; [by destruct w|].
  rewrite cut_byte_app by done. by rewrite Hw, He.
Qed.

Lemma endpoint_ref_roundtrip_witness :
  EndpointRef_UnmarshalYAML (mkEndpointRef "" "") (mkNode ScalarNode "api:http" (Err (Errorf "" [])))
  = Ok (mkEndpointRef "api" "http").
Proof. apply (endpoint_ref_roundtrip (mkEndpointRef "" "") "api" "http"); by vm_compute. Defined.

(** * The .orch language: properties

    Documents survive their text, short forms mean what they stand for, and the values that the
    language loses. *)
(** C26. A document of the language can be written down and is read back: the forms that spell
    it out, with every part in a form of its own, are within the registered forms (kinds, nesting,
    labels, field names and types, required fields), and lowering them gives the document. *)
Theorem dsl_roundtrip `{UnicodeLower, ListSort, DslLib, HIRMapperLaws} a name :
  app_text a → conforms (form_of_app a) = true ∧ appFromCompileResult name (Ok (Some [form_of_app a])) = Ok a.
Proof. intros Ha. split; [apply conforms_app|by apply lower_back]. Qed.

(** A short workload form ([service], [stateful] or [worker]) lowers to what the form
    [workload] with that kind lowers to, result and error alike, whatever fields, nested forms
    and endpoint calls it has. *)
Theorem dsl_short_forms `{UnicodeLower, ListSort, DslLib, HIRMapperLaws} kind name fs forms calls d :
  kind ∈ [WorkloadKindService; WorkloadKindStateful; WorkloadKindWorker] → name_text name → mapper_typed fs →
  lowerWorkload (short_form kind name fs forms calls) d = lowerWorkload (long_form kind name fs forms calls) d.
Proof. intros Hk Hn Ht. by apply short_form_long. Qed.

(** ** Instances *)
Import Concrete.
#[local] Instance identity_lower : UnicodeLower := λ r, r.
#[local] Instance dsl_lib : DslLib := {| Sprint _ := "?"; convert_outside _ := 0%Z; ParseSize _ := Err (Errorf "invalid size" []) |}.
#[local] Instance struct_mapper : HIRMapper := {|
  map_docker l := mkDocker (text_at "network_mode" l) (flag_at "privileged" l) (texts_at "labels" l);
  map_containerd l := mkContainerd (text_at "namespace" l);
  map_firecracker l := mkFirecracker (text_at "kernel_image_path" l) (text_at "rootfs_path" l) (text_at "boot_args" l)
    (text_at "binary_path" l) (text_at "socket_path" l) (flag_at "rootfs_read_only" l)
    (text_at "network_interface_id" l) (text_at "tap_device_name" l) (text_at "guest_mac" l)
    (flag_at "allow_mmds_requests" l) (int_at "vcpu_count" l) (int_at "mem_size_mib" l);
  map_process l := mkProcess (text_at "graceful_stop_timeout" l) (text_at "stdout_path" l) (text_at "stderr_path" l);
  map_systemd l := mkSystemd (text_at "unit_name" l) (text_at "user" l) (text_at "group" l) (text_at "restart" l)
    (text_at "restart_sec" l) (text_at "wanted_by" l);
  map_windows l := mkWindows (text_at "service_name" l) (text_at "display_name" l) (text_at "start_type" l);
  map_resources l := mkResources (int_at "cpu_millis" l) (int_at "memory_bytes" l);
  map_scheduling l :=
    mkScheduling (flag_at "stateful" l) (flag_at "allow_leader" l) (strings_at "preferred_nodes" l) |}.
#[local] Instance struct_mapper_laws : HIRMapperLaws.
Proof. by split. Qed.

(** A document with a part of every kind. *)
Definition accepts : Probe := mkProbe None (Some (mkTCPProbe (mkEndpointRef "" "postgres") 0)) "5s" "" 3 "".
Definition answers : Probe := mkProbe (Some (mkHTTPProbe "/ready" (mkEndpointRef "" "http") 0)) None "" "" 0 "".
Definition stateful_db : Workload :=
  mkWorkload "db" "stateful"
    (mkRun (mkArtifact "postgres:16" "" "") (mkExec [] ["-c"; "fsync=off"]) [mkEnvVar "PGDATA" "/data"] "" "postgres"
      (mkRunOptions (Some (mkDocker "bridge" false {["tier" := "data"]})) None None None None None))
    "docker" 0 [] [mkEndpoint "postgres" 5432 "tcp" 5432 "127.0.0.1"] [mkMount (mkVolumeRef "data") "/data" false]
    (Some (mkResources 500 536870912))
    (Some (mkHealth (Some accepts) None None))
    (Some (mkLifecycle "on-failure" 3 "2s")) (Some (mkScheduling true false ["n1"]))
    (Some (mkRollout "recreate" 0 0 true "")).
Definition service_api : Workload :=
  mkWorkload "api" "service"
    (mkRun (mkArtifact "shop/api:2" "" "") (mkExec [] []) [] "/srv" "" (mkRunOptions None None None None None None))
    "docker" 2 [mkWorkloadRef "db" ""] [mkEndpoint "http" 8080 "http" 0 ""] [] None
    (Some (mkHealth (Some answers) None None))
    None None None.
Definition written : App :=
  mkApp "warden.arcgolabs.io/v1alpha1" "App" (mkMetadata "shop" "prod" {["team" := "a"]} ∅) [stateful_db; service_api]
    [mkConfig "settings" {["mode" := "fast"]}] [] [mkVolume "data" true 1073741824]
    [mkIngress "front" "shop.example" [mkIngressRoute "/" (mkEndpointRef "api" "http")]].

Lemma accepts_text : probe_text accepts.
Proof. split; [by vm_compute|left; by vm_compute|by vm_compute|by vm_compute|left; by vm_compute]. Qed.
Lemma answers_text : probe_text answers.
Proof. split; [by vm_compute|right; by vm_compute|by vm_compute|by vm_compute|]. right; right; right; right; left. by eexists. Qed.

Lemma written_text : app_text written.
Proof.
  split; try solve [repeat split; try vm_compute; congruence].
  all: repeat first [apply accepts_text | apply answers_text | constructor]; cbn -[TrimSpace ToLower].
  all: unfold lower_name, name_text, trimmed_text; rewrite ?Forall_cons, ?Forall_nil.
  all: repeat match goal with |- _ ∧ _ => split end; try (vm_compute; congruence).
  intros _. by eexists.
Qed.

Lemma dsl_roundtrip_witness :
  app_text written ∧ appFromCompileResult "shop.orch" (Ok (Some [form_of_app written])) = Ok written.
Proof.
  split; [exact written_text|]. destruct (dsl_roundtrip written "shop.orch" written_text) as [_ Hl]. exact Hl.
Defined.

Definition worker_fields : list (string * value) :=
  [("image", VString "shop/mailer:1"); ("replicas", VInt 2); ("network_mode", VString "host"); ("allow_leader", VBool true)].

Lemma dsl_short_forms_witness :
  lowerWorkload (short_form "stateful" "mail" worker_fields [] [mkCall "tcp" [VInt 25]]) (mkDefaults RuntimeDocker None) =
  lowerWorkload (long_form "stateful" "mail" worker_fields [] [mkCall "tcp" [VInt 25]]) (mkDefaults RuntimeDocker None) ∧
  is_ok (lowerWorkload (short_form "stateful" "mail" worker_fields [] [mkCall "tcp" [VInt 25]]) (mkDefaults RuntimeDocker None)) = true.
Proof.
  split; [|vm_compute; reflexivity].
  apply dsl_short_forms; [right; left|split; vm_compute; congruence|repeat split].
Defined.
