(* ===== verification/StateTheorems.v ===== *)
(** * Theorems about the replicated state

    The state machine as a function of its log, snapshots, the writes of the Raft service, and
    replica identity. *)
From stdpp Require Import base strings numbers gmap list.
From Stdlib Require Import Ascii.
From S2P Require Import Prelude GoStrings GoTime GoNet GoList Deploy Dependency Kahn Meta Placement Fsm FsmSpec RaftService RaftSpec TaskBase Concrete.

Section log_theorems.
Context `{Digest, Codec}.

(** C1. After every log, and whatever bytes it holds, the state is well formed: entries sit
    under the keys their contents determine.  A node sits under its trimmed, non-blank id; a
    desired application has a non-blank name, stored as it was written, and sits under the key
    of its trimmed name; the application, workload and volume names of assignments and of
    volume bindings are non-blank and trimmed, and so are their keys.  Every revision history
    belongs to a desired application, has between 1 and 10 entries with correct digests, and
    no two neighbours of the same generation. *)
Theorem fsm_invariant log : fsm_inv (state (replay initial log)).
Proof. apply replay_inv, empty_inv. Qed.

(** C2. The log determines every entry by last write wins: a node, application, assignment or
    binding is what the last accepted command for its key wrote, an application being absent
    after a delete; [AppliedCommands] counts all entries, malformed ones included, modulo
    2^64. *)
Theorem fsm_last_writer log k :
  let st := state (replay initial log) in
  (NodeCapacity st !! k = last_write (sel_node k) (ops_of log) ∧
   DeployApps st !! k = last_write (sel_app k) (ops_of log) ∧
   Assignments st !! k = last_write (sel_assign k) (ops_of log) ∧
   VolumeBindings st !! k = last_write (sel_bind k) (ops_of log)) ∧
  AppliedCommands st = wrap_uint64 (Z.of_nat (length log)).
Proof. split; [apply replay_last_write|apply replay_count]. Qed.

(** C3. The revision list refines the full history of an application: it holds the last ten
    of the documents that were replaced by a document of another generation since the
    application was last deleted, oldest first. *)
Theorem revisions_refine_history log m :
  digestible (ops_of log) →
  let k := deployAppMapKey m in
  let f := replay initial log in
  getDeployApp m f = (history k (ops_of log)).2 ∧
  listDeployAppRevisions m f =
    reverse (lastn maxDeployAppRevisions (to_rev <$> (history k (ops_of log)).1)).
Proof.
  intros Hd k f. destruct (replay_history log k Hd) as (Happ & Hrev & _).
  split; [exact Happ|]. unfold listDeployAppRevisions. f_equal. exact Hrev.
Qed.

(** Rolling back never goes to the generation that is already desired: the revision
    [previousDeployApp] returns has a non-empty digest, the digest of its document, which
    differs from the digest of the current document. *)
Theorem rollback_target_differs log m cur rev :
  digestible (ops_of log) →
  let f := replay initial log in
  getDeployApp m f = Some cur → previousDeployApp m f = Some rev →
  rev_Generation rev = AppGeneration (rev_App rev) ∧ rev_Generation rev ≠ "" ∧
  rev_Generation rev ≠ AppGeneration cur.
Proof.
  intros Hd f Hcur Hrev. pose proof (replay_history log (deployAppMapKey m) Hd) as Hh.
  destruct (last_revision _ _ _ _ Hh Hrev) as (p & Hp & ->).
  destruct Hh as (Happ & _ & _ & Hne & _). unfold getDeployApp in Hcur.
  fold f in Happ. rewrite Happ in Hcur. split; [done|]. split; [|by apply Hne].
  destruct (revisions_of_ok (state f) (deployAppMapKey m)) as [E|(_ & Hok & _)];
    [apply replay_inv, empty_inv| |].
  - unfold previousDeployApp in Hrev. by rewrite E in Hrev.
  - apply last_Some_elem_of in Hrev. rewrite Forall_forall in Hok. by apply Hok in Hrev as (_ & ? & _).
Qed.
End log_theorems.

(** ** Snapshots *)
Section snapshot_theorems.
Context `{Digest, CodecLaws}.

(** The state after a log is a function of the state before it. *)
Lemma replay_state f f' log : state f = state f' → state (replay f log) = state (replay f' log).
Proof.
  intros E. induction log as [|d log IH] using rev_ind; [done|].
  by rewrite !replay_snoc, !apply_classify, IH.
Qed.

(** C4. A replica that recovers from a snapshot and replays the rest of the log reaches the
    state of a replica that replayed the whole log, whatever state the recovering replica was
    in; saving fails only when encoding or writing does. *)
Theorem snapshot_then_suffix w f0 log log' b :
  state_representable (state (replay initial log)) →
  SaveSnapshot w (replay initial log) = Ok b →
  ∃ f, RecoverFromSnapshot (Ok b) f0 = Ok f ∧
    state (replay f log') = state (replay initial (log ++ log')).
Proof.
  intros Hrep (b' & Henc%wrap_ok & (_ & _ & [= ->])%res_bind_ok)%res_bind_ok.
  destruct (state_roundtrip _ _ Hrep Henc) as [He Hd]. unfold RecoverFromSnapshot. cbn. rewrite He, Hd. cbn.
  eexists. split; [done|]. rewrite replay_app. by apply replay_state.
Qed.
End snapshot_theorems.

(** ** Writes through the Raft service *)
Section write_theorems.
Context `{Digest, CodecLaws}.

(** A deploy that the service reports as done is visible: the desired application stored
    under the metadata of the document is the document, as submitted. *)
Theorem deploy_is_visible nh app s :
  propose_ok nh → representable (CUpsertApp app) → TrimSpace (md_Name (app_Metadata app)) ≠ "" →
  (ApplyDeployApp nh app s).1 = Ok tt →
  getDeployApp (app_Metadata app) (sv_fsm (ApplyDeployApp nh app s).2) = Some app.
Proof. apply deploy_visible. Qed.

(** A delete that the service reports as done removes the desired application together
    with its revision history. *)
Theorem delete_is_visible nh m s :
  propose_ok nh → representable (CDeleteApp m) → TrimSpace (md_Name m) ≠ "" →
  (ApplyDeleteDeployApp nh m s).1 = Ok tt →
  getDeployApp m (sv_fsm (ApplyDeleteDeployApp nh m s).2) = None ∧
  listDeployAppRevisions m (sv_fsm (ApplyDeleteDeployApp nh m s).2) = [].
Proof. apply delete_visible. Qed.

(** An assignment that the service reports as written is what a lookup under its key
    returns: normalisation by the service and by the state machine agree. *)
Theorem assignment_is_visible nh now raw a s :
  propose_ok nh → prepareAssignment now raw = Ok a → representable (CUpsertAssignment a) →
  (ApplyWorkloadAssignment nh now raw s).1 = Ok tt →
  getAssignment (as_Key a) (sv_fsm (ApplyWorkloadAssignment nh now raw s).2) = Some a.
Proof. apply assignment_visible. Qed.

(** A node that runs Raft and is not the leader refuses every write with an error and
    leaves its state as it was. *)
Theorem follower_refuses nh now app m a b s :
  sv_nh s = true → isLocalLeader nh s = false →
  let refused (r : res unit * Service) := r.2 = s ∧ ∃ e, r.1 = Err e in
  refused (ApplyDeployApp nh app s) ∧ refused (ApplyDeleteDeployApp nh m s) ∧
  refused (ApplyWorkloadAssignment nh now a s) ∧ refused (ApplyVolumeBinding nh now b s).
Proof.
  intros Hnh Hl refused. unfold refused, ApplyDeployApp, ApplyDeleteDeployApp,
    ApplyWorkloadAssignment, ApplyVolumeBinding.
  assert (∀ e, ((Err e : res unit, s).2 = s ∧ ∃ e', (Err e : res unit, s).1 = Err e')) as Herr by eauto.
  split; [by apply propose_follower|]. split; [case_match; auto using propose_follower|].
  split; case_match; auto using propose_follower.
Qed.
End write_theorems.

(** ** Reads *)
Section read_theorems.
Context `{Digest, Codec} `{ListSortLaws}.

(** Listing the assignments and the volume bindings is deterministic: the result does
    not depend on the order in which Go iterates the maps. *)
Theorem listings_deterministic log (as1 as2 : list Assignment) (bs1 bs2 : list Binding) :
  let st := state (replay initial log) in
  enumerates (Assignments st) as1 → enumerates (Assignments st) as2 →
  enumerates (VolumeBindings st) bs1 → enumerates (VolumeBindings st) bs2 →
  ListWorkloadAssignments as1 = ListWorkloadAssignments as2 ∧
  ListVolumeBindings bs1 = ListVolumeBindings bs2.
Proof.
  intros st Ha1 Ha2 Hb1 Hb2.
  assert (fsm_inv st) as Hinv by apply replay_inv, empty_inv.
  split; eapply listing_unique; try done.
  - intros k a Hk. by apply (inv_assign _ Hinv) in Hk as [? _].
  - intros k b Hk. by apply (inv_bind _ Hinv) in Hk as [? _].
Qed.

(** The capacity store over a replicated state keeps the contract that placement relies
    on: every node id it lists has a snapshot, and its length counts the ids. *)
Theorem capacity_store_contract log : store_ok (raftCapacityStore (replay initial log)).
Proof. apply capacity_store_ok, replay_inv, empty_inv. Qed.
End read_theorems.

(** ** Replica identity *)
Section replica_theorems.
Context `{ListSortLaws}.

(** The replica targets built from the peers are faithful: every peer is a target under
    the id its name hashes to, every target is a peer, ids are valid Dragonboat ids (non-zero
    uint64), and two peers never share one; a collision is an error instead. *)
Theorem bootstrap_targets peers s targets s' :
  replicaTargetsFromPeers peers s = Ok (targets, s') →
  (∀ id addr, peers !! id = Some addr →
     ∃ rid, replicaIDForNodeID id = Ok rid ∧ (1 ≤ rid < 2 ^ 64)%Z ∧ targets !! rid = Some addr) ∧
  (∀ rid addr, targets !! rid = Some addr →
     ∃ id, replicaIDForNodeID id = Ok rid ∧ peers !! id = Some addr) ∧
  (∀ id id' rid, is_Some (peers !! id) → is_Some (peers !! id') →
     replicaIDForNodeID id = Ok rid → replicaIDForNodeID id' = Ok rid → id = id').
Proof.
  intros (Hto & Hfrom & Hinj)%replicaTargets_spec. split_and!; [|done..].
  intros id addr Hid. destruct (Hto id addr Hid) as (rid & Hrid & Ht).
  exists rid. by split_and!; [|apply replicaID_range in Hrid as [? ?]..|].
Qed.
End replica_theorems.

(** [validateRaftPeerAddress] accepts exactly the addresses that split, once trimmed, into a
    non-blank host and a non-blank port, and returns them trimmed. *)
Theorem raft_address_accepted label raw addr :
  validateRaftPeerAddress label raw = Ok addr ↔
  addr = TrimSpace raw ∧
  ∃ host port, SplitHostPort addr = Ok (host, port) ∧ TrimSpace host ≠ "" ∧ TrimSpace port ≠ "".
Proof.
  unfold validateRaftPeerAddress.
  destruct (String.eqb_spec (TrimSpace raw) "") as [E|_].
  { rewrite E. split; [done|]. intros (-> & h & p & Hs & _). by vm_compute in Hs. }
  destruct (SplitHostPort (TrimSpace raw)) as [[h p]|e] eqn:E; cbn.
  - destruct (String.eqb_spec (TrimSpace h) ""), (String.eqb_spec (TrimSpace p) "");
      (split; [|intros (-> & h' & p' & Hs & ? & ?)]); try done; try congruence.
    intros [= <-]. eauto 10.
  - split; [done|]. intros (-> & h & p & Hs & _). congruence.
Qed.

(** ** The hypotheses can be met *)
Import Concrete.

(** Deploy a document, then a new version of it. *)
Definition update_log : list payload := entries [CUpsertApp shop; CUpsertApp shop2].

Lemma update_log_digestible : digestible (ops_of update_log).
Proof. repeat constructor; by vm_compute. Qed.

Lemma revisions_refine_history_witness :
  listDeployAppRevisions (meta "shop") (replay initial update_log) = [to_rev shop].
Proof.
  destruct (revisions_refine_history update_log (meta "shop") update_log_digestible) as [_ ->].
  by vm_compute.
Defined.

Lemma rollback_target_differs_witness : AppGeneration shop ≠ AppGeneration shop2.
Proof.
  destruct (rollback_target_differs update_log (meta "shop") shop2 (to_rev shop)
    update_log_digestible) as (_ & _ & Hne); [by vm_compute..|]. exact Hne.
Defined.

Lemma snapshot_then_suffix_witness :
  ∃ f, RecoverFromSnapshot (Ok (snapshot_of (state (replay initial (entries [CUpsertApp shop]))))) initial = Ok f ∧
    state (replay f (entries [CUpsertApp shop2])) = state (replay initial update_log).
Proof.
  apply (snapshot_then_suffix (λ _, Ok tt) initial (entries [CUpsertApp shop]) (entries [CUpsertApp shop2])).
  - exact I.
  - reflexivity.
Defined.

Lemma deploy_is_visible_witness :
  getDeployApp (meta "shop") (sv_fsm (ApplyDeployApp leader shop (node_up initial)).2) = Some shop.
Proof.
  apply (deploy_is_visible leader shop (node_up initial)); [apply leader_ok|exact I|by vm_compute|by vm_compute].
Defined.

Lemma delete_is_visible_witness :
  getDeployApp (meta "shop")
    (sv_fsm (ApplyDeleteDeployApp leader (meta "shop") (node_up (replay initial update_log))).2) = None.
Proof.
  apply (delete_is_visible leader (meta "shop") (node_up (replay initial update_log)));
    [apply leader_ok|exact I|by vm_compute|by vm_compute].
Defined.

Definition running_db : Assignment :=
  mkAssignment " " (meta "shop") " db " "n1" "" RuntimeDocker "nginx" "running" "g" "" 0.

Definition stored_db : Assignment :=
  mkAssignment "default/shop/db" (meta "shop") "db" "n1" "" RuntimeDocker "nginx" "running" "g" "" 5.

Lemma assignment_is_visible_witness :
  getAssignment (as_Key stored_db)
    (sv_fsm (ApplyWorkloadAssignment leader 5 running_db (node_up initial)).2) = Some stored_db.
Proof.
  apply (assignment_is_visible leader 5 running_db stored_db (node_up initial));
    [apply leader_ok|by vm_compute|exact I|by vm_compute].
Defined.

Lemma follower_refuses_witness : (ApplyDeployApp follower shop (node_up initial)).2 = node_up initial.
Proof.
  apply (follower_refuses follower 5 shop (meta "shop") running_db
    (mkBinding "" (meta "shop") "data" "db" "/data" "n1" RuntimeDocker "" true 0 "" "g" "" 0)
    (node_up initial)); by vm_compute.
Defined.

Lemma listings_deterministic_witness :
  let st := state (replay initial (entries [CUpsertAssignment running_db])) in
  ListWorkloadAssignments (map_to_list (Assignments st)).*2 =
    ListWorkloadAssignments (reverse (map_to_list (Assignments st)).*2).
Proof.
  intros st.
  apply (listings_deterministic (entries [CUpsertAssignment running_db]) (map_to_list (Assignments st)).*2
    (reverse (map_to_list (Assignments st)).*2) [] []); unfold enumerates.
  - done.
  - by rewrite reverse_Permutation.
  - done.
  - done.
Defined.

Lemma capacity_store_contract_witness :
  store_ok (raftCapacityStore (replay initial (entries [CUpsertNode (snap "n1" 100)]))).
Proof. apply (capacity_store_contract (entries [CUpsertNode (snap "n1" 100)])). Defined.

Definition peers3 : gmap string string := {["n1" := "10.0.0.1:7000"; "n2" := "10.0.0.2:7000"; "n3" := "10.0.0.3:7000"]}.

Lemma bootstrap_targets_witness :
  ∃ targets s', replicaTargetsFromPeers peers3 (New "n1") = Ok (targets, s') ∧
    ∀ id addr, peers3 !! id = Some addr →
      ∃ rid, replicaIDForNodeID id = Ok rid ∧ (1 ≤ rid < 2 ^ 64)%Z ∧ targets !! rid = Some addr.
Proof.
  destruct (replicaTargetsFromPeers peers3 (New "n1")) as [[targets s']|e] eqn:E; [|by vm_compute in E].
  exists targets, s'. split; [done|]. by apply (bootstrap_targets peers3 (New "n1") targets s').
Defined.
