(* ===== verification/TaskTheorems.v ===== *)
(** * Theorems about the task service *)
From stdpp Require Import base strings numbers gmap list.
From Stdlib Require Import Ascii.
From S2P Require Import Prelude GoStrings GoTime GoNet GoList Deploy Dependency Kahn Validate Meta Placement Fsm FsmSpec RaftService RaftSpec RaftMembers TaskBase TaskRun TaskDeploy TaskOps TaskViews TaskFrame TaskSpec TaskLoops TaskPorts TaskOrder TaskOpsSpec TaskConverge TaskSubmitSpec Concrete.

(** ** Requests *)
Section request_theorems.
Context `{Digest, World} `{ListSort, GraphLib} (cfg : TaskConfig).

(** Whatever sequence of requests the service handles, and whatever the outside answers,
    the replicated state stays well formed. *)
Theorem requests_keep_invariant rs s :
  fsm_inv (state (fsm_of s)) → fsm_inv (state (fsm_of (serve cfg rs s).2)).
Proof. apply serve_inv. Qed.

(** Requests only add: the trace of outside calls and the guards of automatic rollback
    grow, and the replicated state is reached by applying further log entries. *)
Theorem requests_only_extend rs s : evolves s (serve cfg rs s).2.
Proof. apply serve_evolves. Qed.

(** C14. A failed deployment is rolled back automatically at most once per generation: once a
    rollback of a generation was attempted, later failures of that generation change nothing,
    whichever workload fails and whatever happened in between. *)
Theorem auto_rollback_once app w g rs s app' w' :
  (maybeAutoRollbackDeployFailure app w g s).2 ≠ s →
  autoRollbackGuardKey (app_Metadata app') g = autoRollbackGuardKey (app_Metadata app) g →
  let s' := (serve cfg rs (maybeAutoRollbackDeployFailure app w g s).2).2 in
  maybeAutoRollbackDeployFailure app' w' g s' = (tt, s').
Proof.
  intros Hne%autoRollback_marks Hk s'. apply autoRollback_attempted. right. rewrite Hk.
  by apply (ev_attempts _ _ (serve_evolves cfg rs _)).
Qed.

(** A rollback is never undone automatically: after a rollback was requested, failures of
    the generation it went back to do not trigger an automatic rollback. *)
Theorem rollback_not_undone meta rev rs s app w :
  previousDeployApp (normalizeOperationMetadata meta) (fsm_of s) = Some rev →
  TrimSpace (md_Name meta) ≠ "" → TrimSpace (rev_Generation rev) ≠ "" →
  autoRollbackGuardKey (app_Metadata app) (rev_Generation rev) =
    autoRollbackGuardKey (normalizeOperationMetadata meta) (rev_Generation rev) →
  let s' := (serve cfg rs (SubmitRollback meta s).2).2 in
  maybeAutoRollbackDeployFailure app w (rev_Generation rev) s' = (tt, s').
Proof.
  intros Hp Hn Hg Hk s'. apply autoRollback_suppressed. rewrite Hk.
  apply (ev_suppressed _ _ (serve_evolves cfg rs _)). by apply SubmitRollback_suppresses.
Qed.
End request_theorems.

(** ** Order *)
Section order_theorems.
Context `{Digest, World} `{ListSort, GraphLib} (cfg : TaskConfig).

(** C11. Stopping an application stops its workloads in the reverse of the dependency order,
    dependents first: the stop calls made are a prefix of that order, all of it when the
    operation succeeds. *)
Theorem stop_in_reverse_order app ws :
  WorkloadsInDependencyOrder app = Ok ws →
  observes obs_stop (stopAppWorkloads cfg app)
    (λ r l, l `prefix_of` reverse (w_Name <$> ws) ∧ (r = Ok tt → l = reverse (w_Name <$> ws))).
Proof. apply stopApp_observes. Qed.

(** C12. Deploying an application starts its workloads in dependency order: the start calls
    made, local or dispatched, are a subsequence of that order (a workload that is already
    converged is skipped). *)
Theorem start_in_dependency_order app ws o :
  WorkloadsInDependencyOrder app = Ok ws →
  observes obs_start (deployAppWorkloadsWithOptions cfg app o) (λ _ l, l `sublist_of` (w_Name <$> ws)).
Proof. apply deployApp_observes. Qed.

(** Deploying is idempotent: when every workload of a valid application is recorded as
    running at its generation, deploying again only refreshes the local node's capacity. *)
Theorem deploy_idempotent app ws o s :
  Validate app = Ok tt → WorkloadsInDependencyOrder app = Ok ws →
  Forall (converged_in (RefreshLocal cfg s).2 (app_Metadata app) (AppGeneration app)) ws →
  deployAppWorkloadsWithOptions cfg app o s = (Ok tt, (RefreshLocal cfg s).2).
Proof. apply deployApp_converged. Qed.

(** Starting a workload locally calls the runtime once, and leaves nothing behind when it
    fails: either the start call failed, or the workload did not become ready and was stopped
    again; after success nothing was stopped. *)
Theorem failed_start_cleaned_up m w n :
  observes obs_run (runLocalWorkload m w n) (λ r l,
    match r with
    | Ok _ => l = [RunStart true]
    | Err _ => l = [RunStart false] ∨ l = [RunStart true; RunStop (w_Name w)]
    end).
Proof. apply runLocal_steps. Qed.

(** C15. The calls of a migration or rebalance, exactly.  Its plans are for listed workloads, in
    their (dependency) order.  It stops the planned workloads that are assigned, in reverse
    order; when one of the stops fails the operation fails and nothing more is called, in
    particular nothing is started; when all succeeded it starts all planned workloads in order,
    up to the first that fails (a workload that was started but did not become ready is stopped
    again).  When the planning fails nothing is called.  The function that chooses the targets
    is assumed to start and stop nothing itself; that of a migration is a constant, and that of
    a rebalance only reads the catalog ([chosen_target_unseen]). *)
Theorem moves_stop_first app op ws tf s plans first planned s1 :
  op ≠ OperationFailover → (∀ w, Frame (unseen obs_move) (tf w)) →
  planWorkloadMoves cfg (app_Metadata app) tf ([], "") ws s = ((plans, first, planned), s1) →
  (mv_workload <$> plans) `sublist_of` ws ∧
  ∃ tr, ts_trace (moveAppWorkloads cfg app op ws tf s).2 = ts_trace s ++ tr ∧
    move_shows plans planned (moveAppWorkloads cfg app op ws tf s).1.2 (omap obs_move tr).
Proof.
  intros Hop Htf Hplan. split; [|by eapply move_steps].
  by destruct (plan_workloads cfg _ _ _ _ _ _ _ _ _ Hplan) as (new & -> & ?).
Qed.

(** A migration moves exactly the selected workloads that are not on the target node yet,
    in dependency order, and every planned move goes to the target. *)
Theorem migration_plan meta target ws s :
  trimmed target → target ≠ "" →
  ∃ plans first,
    planWorkloadMoves cfg meta (λ _, mret (Ok target)) ([], "") ws s = ((plans, first, Ok tt), s) ∧
    mv_workload <$> plans = filter (λ w, placed_on cfg s meta target w = false) ws ∧
    Forall (λ p, mv_target p = target) plans.
Proof. intros Ht Hne. apply (plan_to cfg meta target ([], "") ws s Ht Hne). Qed.
End order_theorems.

(** ** What is written *)
Section write_theorems.
Context `{Digest, CodecLaws} `{!World, !WorldLaws} `{ListSort, GraphLib} (cfg : TaskConfig).

(** A submitted document is stored only if it is valid, and exactly as submitted: an
    invalid one is refused without touching the state or the outside, and an accepted one is
    the desired document from then on. *)
Theorem submit_stores_valid app s :
  representable (CUpsertApp app) →
  match Validate app with
  | Err e => SubmitDeploy app s = (Err (Wrapf e "validate app" []), s)
  | Ok _ => (SubmitDeploy app s).1 = Ok tt →
      getDeployApp (app_Metadata app) (fsm_of (SubmitDeploy app s).2) = Some app
  end.
Proof.
  intros Hr. destruct (Validate app) as [[]|e] eqn:Ev.
  - intros Hok. by apply SubmitDeploy_stores.
  - destruct (SubmitDeploy_cases app s) as [(e' & He & ->)|[(?&?&He&_)|(?&He&_)]]; congruence.
Qed.

(** C10. Host ports stay disjoint: as long as this service is the only writer, no sequence of
    requests (deploys, rollbacks, automatic rollbacks after failures, deletes, moves, health
    failures, ...) makes two desired applications claim the same host port, whatever the outside
    answers; the submitted documents must be ones that JSON represents. *)
Theorem host_ports_disjoint rs s :
  quiet → Forall request_ok rs → ports_inv (state (fsm_of s)) →
  ports_disjoint (state (fsm_of (serve cfg rs s).2)).
Proof. intros Hq Hrs Hi. by apply pi_disjoint, serve_ports. Qed.

(** C9. Only checked documents are stored: as long as this service is the only writer, after
    any sequence of requests every desired application, and every revision kept for a rollback,
    is a document that [App.Validate] accepts and whose own endpoints claim no host port twice,
    given that this held before; a deploy, a rollback and an automatic rollback store nothing
    else, whatever the outside answers.  The submitted documents must be ones that JSON
    represents, and the state before is one of [ports_inv]. *)
Theorem desired_stay_valid rs s :
  quiet → Forall request_ok rs → ports_inv (state (fsm_of s)) → stored admitted (state (fsm_of s)) →
  stored admitted (state (fsm_of (serve cfg rs s).2)).
Proof. apply serve_stored. Qed.

(** A rollback that succeeds makes the previous revision of the application the desired
    document again, when that revision is a document that JSON represents. *)
Theorem rollback_restores meta s :
  (∀ rev, previousDeployApp (normalizeOperationMetadata meta) (fsm_of s) = Some rev →
     representable (CUpsertApp (rev_App rev))) →
  fsm_inv (state (fsm_of s)) →
  (SubmitRollback meta s).1 = Ok tt →
  ∃ rev, previousDeployApp (normalizeOperationMetadata meta) (fsm_of s) = Some rev ∧
    getDeployApp (normalizeOperationMetadata meta) (fsm_of (SubmitRollback meta s).2) = Some (rev_App rev).
Proof. apply SubmitRollback_restores. Qed.

(** C13. A deployment converges.  On a node with a well-formed state ([fsm_inv]) whose writes are
    applied (Raft is off, or the node leads and proposes alone), when deploying an application reports success, every one of its
    workloads has an assignment at the application's generation that is running, carries what a
    worker answered to its dispatch, is stopped on purpose (and the deployment was not to start
    stopped workloads), or failed with no restart left.  The assignments that the run itself
    wrote must be ones that JSON represents ([writes_representable]): nothing is asked of other commands. *)
Theorem deploy_converges `{!GraphLaws} app o s :
  writable s → fsm_inv (state (fsm_of s)) →
  (deployAppWorkloadsWithOptions cfg app o s).1 = Ok tt →
  writes_representable (deployAppWorkloadsWithOptions cfg app o s).2 →
  Forall (settled o (deployAppWorkloadsWithOptions cfg app o s).2 (app_Metadata app) (AppGeneration app))
    (app_Workloads app).
Proof.
  intros Hw Hi Hok Hr. apply Forall_forall. apply (deployApp_settles cfg app o s); [done..| |done].
  by rewrite <-Hok, <-surjective_pairing.
Qed.

(** A late failure does not overwrite newer facts: the failure of a deployment on one node
    is dropped when the workload meanwhile converged on another node at the same generation,
    and the health failure of a superseded run writes nothing to the replicated state. *)
Theorem late_failures_dropped app w node g e a s t phase b :
  getAssignment (AssignmentKey (app_Metadata app) (w_Name w)) (fsm_of s) = Some a →
  assignmentConvergedOnDifferentNode a node g = true →
  getAssignment (ht_key t) (fsm_of s) = Some b → ¬ watched t b →
  ts_raft (recordDeployFailure app w node g e s).2 = ts_raft s ∧
  ts_trace (recordDeployFailure app w node g e s).2 = ts_trace s ∧
  ts_raft (failLocalWorkloadHealth t phase e s).2 = ts_raft s.
Proof.
  intros Ha Hc Hb Hw. destruct (recordFailure_stale app w node g e a s Ha Hc).
  split_and!; [done..|]. by apply healthFailure_stale with (a := b).
Qed.
End write_theorems.

(** ** Selection and limits *)
Section selection_theorems.
Context `{Digest, World} `{ListSortLaws, GraphLaws} (cfg : TaskConfig).

(** Failover leaves the node: with a catalog that knows at least one node, the node chosen
    for a failover is never the node the workload is on. *)
Theorem failover_leaves_node w current s n s' :
  let s1 := (RefreshLocal cfg s).2 in
  fsm_inv (state (fsm_of s)) → 0 < size (NodeCapacity (state (fsm_of s1))) →
  chooseFailoverNode cfg w current s = (Ok n, s') → n ≠ TrimSpace current.
Proof. intros s1 Hi. by apply chooseFailover_ne, RefreshLocal_inv. Qed.

(** With an empty catalog failover ignores the candidates it computed and returns the local
    node, even when the workload is on it already. *)
Theorem failover_empty_catalog w current s :
  let s1 := (RefreshLocal cfg s).2 in
  size (NodeCapacity (state (fsm_of s1))) = 0 →
  (alternativeNodeCandidates cfg current s1).1 ≠ [] →
  chooseFailoverNode cfg w current s = (Ok (fallbackNodeID (tc_local cfg)), s1).
Proof. apply chooseFailover_empty. Qed.

(** An operation on named workloads acts on exactly the workloads with these names, in
    dependency order, and fails when one of the names is unknown; without names it acts on
    all of them. *)
Theorem operation_selection app names ws :
  selectOperationWorkloads app names = Ok ws →
  ∃ ordered, WorkloadsInDependencyOrder app = Ok ordered ∧
    ((requestedWorkloadNames names = [] ∧ ws = ordered) ∨
     (requestedWorkloadNames names ≠ [] ∧
      ws = filter (λ w, wname w ∈ requestedWorkloadNames names) ordered ∧
      ∀ n, n ∈ requestedWorkloadNames names → n ∈ (wname <$> ordered))).
Proof. apply selectOperation_spec. Qed.
End selection_theorems.

(** The restart limit holds: however the requests to restart one generation of a workload
    are interleaved with other activity (which never lowers its counter), at most [maxRestarts]
    of them are allowed. *)
Theorem restart_limit_respected w k g s0 n s :
  (0 < workloadMaxRestarts w ≤ max_int64)%Z → (0 ≤ attempts_of (restartAttemptKey k g) s0)%Z →
  restarts w k g s0 n s → (Z.of_nat n ≤ workloadMaxRestarts w)%Z.
Proof. intros Hl H0 Hr. by destruct (restarts_bound w k g s0 n s Hl H0 Hr). Qed.

Section probe_theorems.
Context `{Digest, World}.

(** C16. The readiness loop probes at least once and at most [attempts] times, stops at the
    first success, and reports success exactly when the last probe succeeded. *)
Theorem readiness_loop w c :
  (1 ≤ rc_attempts c)%Z →
  observes obs_probe (waitReadinessAttempts w c)
    (λ r l, l ≠ [] ∧ (Z.of_nat (length l) ≤ rc_attempts c)%Z ∧
      ((r = Ok tt ∧ ∃ k, l = repeat false k ++ [true]) ∨ (r ≠ Ok tt ∧ l = repeat false (length l)))).
Proof.
  intros Ha. eapply observes_weaken; [apply probeAttempts_spec|].
  intros r l [[Hlen Hr] Hne]. split_and!; [apply Hne; lia|lia|done].
Qed.
End probe_theorems.

Section view_theorems.
Context `{Digest, Codec} `{GraphLib}.

(** The view of an application adds up: its counters partition the listed workloads by
    status, and the aggregate status is "failed" when some workload failed, "running" when all
    of them run and "stopped" when all of them are stopped. *)
Theorem app_view_adds_up f app :
  let v := buildAppView f app in
  (let c := countedView f app in
   av_DesiredWorkloads c = length (av_Workloads c) ∧
   av_Running c = count_status "running" (av_Workloads c) ∧
   av_Stopped c = count_status "stopped" (av_Workloads c) ∧
   av_Failed c = count_status "failed" (av_Workloads c) ∧
   av_Running c + av_Stopped c + av_Failed c + av_Pending c = length (av_Workloads c)) ∧
  (av_Status v = AppStatusFailed ↔ Exists (λ i, wv_Status i = "failed") (av_Workloads v)) ∧
  (av_Status v = AppStatusRunning ↔
     av_Workloads v ≠ [] ∧ Forall (λ i, wv_Status i = "running") (av_Workloads v)) ∧
  (av_Status v = AppStatusStopped ↔
     av_Workloads v ≠ [] ∧ Forall (λ i, wv_Status i = "stopped") (av_Workloads v)).
Proof.
  split; [|apply aggregate_spec].
  destruct (counted_view f app) as (Hw & ? & ? & ? & ? & ?). cbn zeta. by rewrite Hw.
Qed.
End view_theorems.

(** ** Background loops *)
Section loop_theorems.
Context `{Digest, World} `{ListSort, GraphLib} (cfg : TaskConfig) (s : TaskState).

(** C17. However starts, stops, goroutines and requests interleave, and for the reconcile and the
    recovery loop alike: the wait group counts the goroutines that have not left it, so it is never
    negative; of the loops at work at most one is neither canceled nor about to be by a Stop in
    progress; and a Stop that returned without an error returned after every loop started before
    it had left. *)
Theorem background_loops hs st k :
  (Z.of_nat (length hs) < 2 ^ 64)%Z → steps cfg hs (NewControllers s) = Some st →
  ctl_wg (ctl k st) = Z.of_nat (length (filter (λ l, counted l = true) (ctl_loops (ctl k st)))) ∧
  (∀ i j l l', ctl_loops (ctl k st) !! i = Some l → ctl_loops (ctl k st) !! j = Some l' →
     active l = true → active l' = true → lp_canceled l = false → lp_canceled l' = false →
     ¬ taken (ctl k st) i → ¬ taken (ctl k st) j → i = j) ∧
  (∀ c i l, c ∈ ctl_stops (ctl k st) → sc_pc c = StopReturned (Ok tt) → (i < sc_started c)%nat →
     ctl_loops (ctl k st) !! i = Some l → lp_pc l = CancelOwn ∨ lp_pc l = Gone).
Proof.
  intros Hl E. destruct (reached_inv cfg s hs st Hl E k) as [_ _ Hwg _ Hlive Hs]. split_and!.
  - by rewrite Hwg, in_group_filter.
  - intros i j l l' Hi Hj Ai Aj Ci Cj Ti Tj. destruct (Hlive i l Hi Ai Ci) as [Ei|]; [|done]. destruct (Hlive j l' Hj Aj Cj) as [Ej|]; [|done].
    congruence.
  - intros c i l [j Hj]%list_elem_of_lookup Ec Hlt Hi. destruct (Hs j c Hj) as [_ Hw].
    assert (counted l = false) as Hn by (eapply Hw; [unfold waited; by rewrite Ec|done..]).
    unfold counted in Hn. destruct (lp_pc l); auto; done.
Qed.

(** What the loops do to the service is what a sequence of requests does to it: its own requests and
    the passes, in the order in which they ran. *)
Theorem loops_are_requests hs st : steps cfg hs (NewControllers s) = Some st →
  cs_task st = (serve cfg (omap request_of hs) s).2.
Proof. apply steps_task. Qed.

(** No signal is lost: after a change of the desired documents, and until a reconcile pass begins, the
    signal is in the channel or a loop that received one is about to begin a pass. *)
Theorem no_signal_lost hs1 hs2 st : steps cfg (hs1 ++ HNotify :: hs2) (NewControllers s) = Some st →
  (∀ i, HLoop Reconciler i Run ∉ hs2) →
  cs_signal st = true ∨ ∃ i l, ctl_loops (cs_reconcile st) !! i = Some l ∧ lp_pc l = Pass.
Proof.
  intros E Hn. rewrite steps_app in E. destruct (steps cfg hs1 _) as [st1|]; [|done]. cbn in E.
  eapply steps_heard; [done| |exact E]. by left.
Qed.

(** A loop whose context ended can always leave by its own moves, with at most one more pass. *)
Theorem canceled_loop_ends hs st k i l : steps cfg hs (NewControllers s) = Some st →
  ctl_loops (ctl k st) !! i = Some l → lp_canceled l = true →
  ∃ hs' st' l', steps cfg hs' st = Some st' ∧ Forall (own k i) hs' ∧ (length (omap request_of hs') ≤ 1)%nat ∧
    ctl_loops (ctl k st') !! i = Some l' ∧ lp_pc l' = Gone.
Proof.
  intros E Hi Hc. destruct (canceled_ends cfg k i l st) as (hs' & st' & l' & E' & F & _ & L & G & N); [|done..|].
  { eapply steps_fit; [|done]. intros []; constructor. }
  exists hs', st', l'. split_and!; try done. case_decide; lia.
Qed.

(** A Stop that waits while every loop left is canceled can return without an error, by moves of the
    loops and its own alone. *)
Theorem stop_returns_when_canceled hs st k j n :
  (Z.of_nat (length hs) < 2 ^ 64)%Z → steps cfg hs (NewControllers s) = Some st →
  ctl_stops (ctl k st) !! j = Some (mkStop n (StopWait false)) →
  (∀ i l, ctl_loops (ctl k st) !! i = Some l → counted l = true → lp_canceled l = true) →
  ∃ hs' st', steps cfg (hs' ++ [HStopMove k j StopSees; HStopMove k j StopReturns]) st = Some st' ∧
    Forall (moves k) hs' ∧ ctl_stops (ctl k st') !! j = Some (mkStop n (StopReturned (Ok tt))).
Proof.
  intros Hl E Hj Hc. apply stop_can_return; [| | |done..].
  - eapply steps_bounded; [|done]. intros []; cbn; lia.
  - by eapply reached_inv.
  - eapply steps_fit; [|done]. intros []; constructor.
Qed.
End loop_theorems.

(** ** The hypotheses can be met *)
Import Concrete.

Definition db : Workload := workload "db" [] [5432%Z].
Definition api : Workload := workload "api" ["db"] [].

(** A workload whose failures are rolled back automatically, and restarted three times at most. *)
Definition risky : Workload :=
  mkWorkload "db" WorkloadKindService (run_image "nginx") RuntimeDocker 1 [] [] [] None None
    (Some (mkLifecycle "always" 3 "")) None (Some (mkRollout "" 0 0 true "")).

(** Shop, at its second version. *)
Definition updated : list payload := entries [CUpsertApp shop; CUpsertApp shop2].

Lemma single_inv log : fsm_inv (state (fsm_of (single log))).
Proof. apply replay_inv, empty_inv. Qed.

Lemma requests_keep_invariant_witness :
  fsm_inv (state (fsm_of (serve cfg [RqDeploy shop; RqReconcile; RqStop (meta "shop")] (single [])).2)).
Proof.
  apply (requests_keep_invariant cfg [RqDeploy shop; RqReconcile; RqStop (meta "shop")] (single [])).
  apply single_inv.
Defined.

Lemma auto_rollback_once_witness :
  let s' := (serve cfg [RqReconcile] (maybeAutoRollbackDeployFailure shop2 risky (AppGeneration shop2) (single updated)).2).2 in
  maybeAutoRollbackDeployFailure shop2 risky (AppGeneration shop2) s' = (tt, s').
Proof.
  apply (auto_rollback_once cfg shop2 risky (AppGeneration shop2) [RqReconcile] (single updated) shop2 risky).
  - intros E%(f_equal ts_rollbackAttempts). by vm_compute in E.
  - reflexivity.
Defined.

Lemma rollback_not_undone_witness :
  let s' := (serve cfg [RqReconcile] (SubmitRollback (meta "shop") (single updated)).2).2 in
  maybeAutoRollbackDeployFailure shop risky (AppGeneration shop) s' = (tt, s').
Proof.
  apply (rollback_not_undone cfg (meta "shop") (to_rev shop) [RqReconcile] (single updated) shop risky);
    by vm_compute.
Defined.

Lemma stop_in_reverse_order_witness :
  observes obs_stop (stopAppWorkloads cfg shop)
    (λ r l, l `prefix_of` ["api"; "db"] ∧ (r = Ok tt → l = ["api"; "db"])).
Proof. apply (stop_in_reverse_order cfg shop [db; api]). by vm_compute. Defined.

Lemma start_in_dependency_order_witness :
  observes obs_start (deployAppWorkloadsWithOptions cfg shop (mkOptions false))
    (λ _ l, l `sublist_of` ["db"; "api"]).
Proof. apply (start_in_dependency_order cfg shop [db; api]). by vm_compute. Defined.

Definition running (name node generation : string) : Assignment :=
  mkAssignment (AssignmentKey (meta "shop") name) (meta "shop") name node "" RuntimeDocker "nginx"
    "running" generation "" 1.

(** Shop, deployed and running on n1. *)
Definition deployed : list payload :=
  entries [CUpsertApp shop; CUpsertAssignment (running "api" "n1" (AppGeneration shop));
           CUpsertAssignment (running "db" "n1" (AppGeneration shop))].

Lemma deploy_idempotent_witness :
  deployAppWorkloadsWithOptions cfg shop (mkOptions false) (single deployed) =
    (Ok tt, (RefreshLocal cfg (single deployed)).2).
Proof.
  apply (deploy_idempotent cfg shop [db; api]); [by vm_compute..|].
  repeat constructor.
  - exists (running "db" "n1" (AppGeneration shop)). by vm_compute.
  - exists (running "api" "n1" (AppGeneration shop)). by vm_compute.
Defined.

Lemma moves_stop_first_witness :
  let plans := [mkMove db "n1" "n2" true; mkMove api "n1" "n2" true] in
  let m := moveAppWorkloads cfg shop OperationMigrate [db; api] (λ _, mret (Ok "n2")) (single deployed) in
  (mv_workload <$> plans) `sublist_of` [db; api] ∧
  ∃ tr, ts_trace m.2 = ts_trace (single deployed) ++ tr ∧ move_shows plans (Ok tt) m.1.2 (omap obs_move tr).
Proof.
  apply (moves_stop_first cfg shop OperationMigrate [db; api] (λ _, mret (Ok "n2")) (single deployed)
    [mkMove db "n1" "n2" true; mkMove api "n1" "n2" true] "n2" (Ok tt) (single deployed)); [done| |by vm_compute].
  intros w. apply frame_ret, _.
Defined.

Lemma migration_plan_witness :
  ∃ plans first,
    planWorkloadMoves cfg (meta "shop") (λ _, mret (Ok "n2")) ([], "") [db; api] (single deployed)
      = ((plans, first, Ok tt), single deployed) ∧ mv_workload <$> plans = [db; api].
Proof.
  destruct (migration_plan cfg (meta "shop") "n2" [db; api] (single deployed)) as (plans & first & Hp & Hw & _);
    [by vm_compute..|]. exists plans, first. split; [exact Hp|]. rewrite Hw. by vm_compute.
Defined.

Lemma submit_stores_valid_witness :
  getDeployApp (meta "shop") (fsm_of (SubmitDeploy shop (leading [])).2) = Some shop.
Proof.
  pose proof (submit_stores_valid shop (leading []) I) as Hs.
  destruct (Validate shop) as [u|e] eqn:Ev; [|by vm_compute in Ev]. apply Hs. by vm_compute.
Defined.

Definition blog : App := document "blog" "v1" [workload "web" [] [8080%Z]].

(** The state after a deploy of the shop. *)
Lemma shop_ports : ports_inv (state (fsm_of (single (entries [CUpsertApp shop])))).
Proof.
  assert (DeployApps (state (fsm_of (single (entries [CUpsertApp shop])))) = {["default/shop" := shop]}) as E
    by (by vm_compute).
  split; [apply single_inv| |by intros k a _|].
  - intros k a k' b. rewrite E. intros [<- _]%lookup_singleton_Some [<- _]%lookup_singleton_Some. done.
  - intros k rs _. by apply Forall_true.
Qed.

Lemma desired_stay_valid_witness :
  stored admitted (state (fsm_of (serve cfg
    [RqDeploy shop2; RqReconcile; RqRollback (meta "shop")] (single (entries [CUpsertApp shop]))).2)).
Proof.
  apply (desired_stay_valid cfg [RqDeploy shop2; RqReconcile; RqRollback (meta "shop")]
    (single (entries [CUpsertApp shop]))).
  - by intros tr data.
  - repeat constructor.
  - apply shop_ports.
  - assert (DeployApps (state (fsm_of (single (entries [CUpsertApp shop])))) = {["default/shop" := shop]}
      ∧ DeployAppRevisions (state (fsm_of (single (entries [CUpsertApp shop])))) = ∅) as [E E']
      by (split; by vm_compute).
    split; [rewrite E; by apply map_Forall_singleton; split; vm_compute|rewrite E'; apply map_Forall_empty].
Defined.

Lemma host_ports_disjoint_witness :
  ports_disjoint (state (fsm_of (serve cfg
    [RqDeploy blog; RqReconcile; RqRollback (meta "shop")] (single (entries [CUpsertApp shop]))).2)).
Proof.
  apply (host_ports_disjoint cfg [RqDeploy blog; RqReconcile; RqRollback (meta "shop")]
    (single (entries [CUpsertApp shop]))).
  - by intros tr data.
  - repeat constructor.
  - apply shop_ports.
Defined.

Lemma rollback_restores_witness :
  getDeployApp (meta "shop") (fsm_of (SubmitRollback (meta "shop") (single updated)).2) = Some shop.
Proof.
  destruct (rollback_restores (meta "shop") (single updated)) as (rev & Hp & Hg);
    [by intros|apply single_inv|by vm_compute|].
  assert (previousDeployApp (normalizeOperationMetadata (meta "shop")) (fsm_of (single updated)) = Some (to_rev shop))
    as Hp' by (by vm_compute).
  rewrite Hp' in Hp. injection Hp as <-. exact Hg.
Defined.

(** The leader of a one-node cluster deploys the two workloads of the shop. *)
Lemma deploy_converges_witness :
  Forall (settled (mkOptions false) (deployAppWorkloadsWithOptions cfg shop (mkOptions false) (leading [])).2
            (meta "shop") (AppGeneration shop)) (app_Workloads shop).
Proof.
  apply (deploy_converges cfg shop (mkOptions false) (leading [])).
  - right. intros tr. split; [by vm_compute|done].
  - apply (single_inv []).
  - by vm_compute.
  - by intros tr a r a' _ _.
Defined.

Lemma late_failures_dropped_witness :
  let s := single (entries [CUpsertAssignment (running "db" "n2" "g")]) in
  ts_raft (recordDeployFailure shop db "n1" "g" (Errorf "" []) s).2 = ts_raft s.
Proof.
  intros s.
  apply (late_failures_dropped shop db "n1" "g" (Errorf "" []) (running "db" "n2" "g") s
    (mkTarget shop db "n1" "g" "" (AssignmentKey (meta "shop") "db")) "liveness" (running "db" "n2" "g"));
    [by vm_compute..|]. intros [Hn _]. by vm_compute in Hn.
Defined.

(** A catalog with two nodes. *)
Definition two : TaskState := single (entries [CUpsertNode (snap "n1" 100); CUpsertNode (snap "n2" 100)]).

Lemma failover_leaves_node_witness :
  (chooseFailoverNode cfg db "n1" two).1 = Ok "n2" ∧ "n2" ≠ TrimSpace "n1".
Proof.
  split; [by vm_compute|].
  apply (failover_leaves_node cfg db "n1" two "n2" (chooseFailoverNode cfg db "n1" two).2).
  - apply single_inv.
  - apply (bool_decide_unpack _). by vm_compute.
  - rewrite (surjective_pairing (chooseFailoverNode _ _ _ _)). f_equal.
Defined.

(** A follower: refreshing the local capacity stores nothing there. *)
Definition following : TaskState := task (mkService "n1" true initial 8 "10.0.0.1:7000" ∅ ∅).

Lemma failover_empty_catalog_witness :
  (chooseFailoverNode cfg db "n1" following).1 = Ok "n1".
Proof.
  rewrite (failover_empty_catalog cfg db "n1" following); by vm_compute.
Defined.

Lemma operation_selection_witness :
  ∃ ordered, WorkloadsInDependencyOrder shop = Ok ordered ∧ [db] = filter (λ w, wname w ∈ ["db"]) ordered.
Proof.
  destruct (operation_selection shop [" db "] [db]) as (ordered & Ho & Hs); [by vm_compute|].
  exists ordered. split; [exact Ho|]. destruct Hs as [[E _]|(_ & E & _)]; [by vm_compute in E|exact E].
Defined.

Lemma restart_limit_respected_witness : (Z.of_nat 1 ≤ workloadMaxRestarts risky)%Z.
Proof.
  apply (restart_limit_respected risky "default/shop/db" "g" (single []) 1
    (allowWorkloadRestart risky "default/shop/db" "g" (single [])).2); [done|done|].
  apply (restarts_ask _ _ _ _ 0 (single []) (single []) true); [constructor|done|by vm_compute].
Defined.

Definition tcp_check : readinessCheck := mkCheck "tcp" "10.0.0.9" 5432 "" 1 1 3 0.

Lemma readiness_loop_witness :
  observes obs_probe (waitReadinessAttempts db tcp_check)
    (λ r l, l ≠ [] ∧ (Z.of_nat (length l) ≤ 3)%Z ∧
      ((r = Ok tt ∧ ∃ k, l = repeat false k ++ [true]) ∨ (r ≠ Ok tt ∧ l = repeat false (length l)))).
Proof. apply (readiness_loop db tcp_check). done. Defined.

(** A Stop that gave up waiting, and a new start: the old loop is still at work beside the new one,
    in a pass that a signal gave it. *)
Definition restart_run : list happening :=
  [HStart Reconciler; HLoop Reconciler 0 (Leadership (Ok (0%Z, false)) []); HLoop Reconciler 0 Run; HNotify; HStop Reconciler;
   HStopMove Reconciler 0 StopCancels; HLoop Reconciler 0 Signal; HStopMove Reconciler 0 (StopExpires (Errorf "deadline" []));
   HStart Reconciler].
Definition after_restart : option Controllers := steps cfg restart_run (NewControllers (single [])).
Example restarts_overlap :
  (λ st, (λ l, (lp_canceled l, lp_pc l)) <$> ctl_loops (cs_reconcile st)) <$> after_restart =
  Some [(true, Pass); (false, WaitLeader)].
Proof. vm_compute. reflexivity. Qed.

Lemma after_restart_at st : after_restart = Some st →
  ((λ l, (lp_canceled l, lp_pc l)) <$> ctl_loops (cs_reconcile st)) = [(true, Pass); (false, WaitLeader)].
Proof. intros E. pose proof restarts_overlap as H. rewrite E in H. by injection H. Qed.

Lemma background_loops_witness : ∃ st, after_restart = Some st ∧ ctl_wg (cs_reconcile st) = 2%Z.
Proof.
  destruct after_restart as [st|] eqn:E; [|pose proof restarts_overlap as H; by rewrite E in H].
  exists st. split; [done|].
  destruct (background_loops cfg (single []) restart_run st Reconciler) as (Hw & _); [cbn; lia|exact E|].
  apply after_restart_at in E. etrans; [exact Hw|]. cbn [ctl].
  destruct (ctl_loops (cs_reconcile st)) as [|[? ? []] [|[? ? []] [|]]]; by simplify_eq/=.
Defined.

Lemma loops_are_requests_witness : ∃ st, after_restart = Some st ∧ cs_task st = (serve cfg [RqReconcile] (single [])).2.
Proof.
  destruct after_restart as [st|] eqn:E; [|pose proof restarts_overlap as H; by rewrite E in H].
  exists st. split; [done|]. apply (loops_are_requests cfg (single []) restart_run st E).
Defined.

Lemma canceled_loop_ends_witness : ∃ st hs st', after_restart = Some st ∧ steps cfg hs st = Some st' ∧
  ∃ l, ctl_loops (cs_reconcile st') !! 0%nat = Some l ∧ lp_pc l = Gone.
Proof.
  destruct after_restart as [st|] eqn:E; [|pose proof restarts_overlap as H; by rewrite E in H].
  pose proof (after_restart_at _ E) as Hl. destruct (ctl_loops (cs_reconcile st)) as [|l ls] eqn:El; [done|].
  destruct (canceled_loop_ends cfg (single []) restart_run st Reconciler 0 l E) as (hs & st' & l' & ? & _ & _ & ? & ?).
  - cbn [ctl]. by rewrite El.
  - by injection Hl.
  - exists st, hs, st'. eauto.
Defined.

(** A signal that no pass has answered. *)
Definition signalled : list happening := [HStart Reconciler; HStop Reconciler; HStopMove Reconciler 0 StopCancels].
Definition after_signal : option Controllers := steps cfg (signalled ++ HNotify :: []) (NewControllers (single [])).
Definition waiting_stop (o : option Controllers) : option (list (bool * loop_pc) * list stop_call) :=
  (λ st, ((λ l, (lp_canceled l, lp_pc l)) <$> ctl_loops (cs_reconcile st), ctl_stops (cs_reconcile st))) <$> o.
Example signal_waits : waiting_stop after_signal = Some ([(true, WaitLeader)], [mkStop 1 (StopWait false)]).
Proof. vm_compute. reflexivity. Qed.

Lemma no_signal_lost_witness : ∃ st, after_signal = Some st ∧ heard st.
Proof.
  destruct after_signal as [st|] eqn:E; [|pose proof signal_waits as H; by rewrite E in H].
  exists st. split; [done|]. apply (no_signal_lost cfg (single []) signalled [] st E). intros i. apply not_elem_of_nil.
Defined.

Lemma stop_returns_when_canceled_witness : ∃ st hs st', after_signal = Some st ∧ steps cfg hs st = Some st' ∧
  ctl_stops (cs_reconcile st') !! 0%nat = Some (mkStop 1 (StopReturned (Ok tt))).
Proof.
  pose proof signal_waits as H. destruct after_signal as [st|] eqn:E; [|done]. cbn in H. injection H as Hl Hs.
  destruct (stop_returns_when_canceled cfg (single []) (signalled ++ [HNotify]) st Reconciler 0 1) as (hs & st' & Hst & _ & Hj).
  - cbn. lia.
  - exact E.
  - cbn [ctl]. by rewrite Hs.
  - cbn [ctl]. intros i l Hi _. destruct (ctl_loops (cs_reconcile st)) as [|l0 [|]]; try done. destruct i; [|done].
    by injection Hi as <-; injection Hl.
  - eauto 6.
Defined.
