(* ===== verification/NetworkTheorems.v ===== *)
(** * Network: tunnel, names, routes, members, settings

    The properties of the VPN data plane, the DNS service, ingress, the Raft service's
    membership and lifecycle, gossip discovery, the settings of a node and the host's
    resolver, with instances that meet their hypotheses. *)
From stdpp Require Import base strings numbers gmap list relations sorting.
From Stdlib Require Import Ascii.
From S2P Require Import Prelude GoStrings GoTime GoNet GoList Deploy Dependency Kahn Validate Meta Placement Fsm FsmSpec.
From S2P Require Import GoText RaftService RaftSpec RaftMembers TaskBase TaskRun.
From S2P Require Import Vpn VpnSpec Dns DnsSpec Ingress IngressSpec Gossip GossipSpec Effects Systemd Config HostDns Concrete.

(** ** Tunnel *)

(** C28. The decoder accepts exactly the datagrams with the magic, version 0 and a payload of
    the length the header announces, whatever follows; and it inverts the encoder, trailing
    bytes included. *)
Theorem encap_roundtrip :
  (∀ b typ payload, DecodeEncapV0 b = Ok (typ, payload) ↔ frame_layout b typ payload) ∧
  (∀ typ payload, (N.of_nat (length payload) ≤ MaxUint32)%N →
     ∃ frame, EncodeEncapV0 typ payload = Some frame ∧ length frame = (12 + length payload)%nat ∧
       ∀ trailing, DecodeEncapV0 (frame ++ trailing) = Ok (typ, payload)).
Proof.
  split; [apply decode_iff|]. intros typ payload Hl. eexists. split; [by apply encode_some|].
  pose proof (encode_some typ payload Hl) as He. split; [by eapply encode_frame|].
  intros trailing. by eapply decode_encode.
Qed.

(** Whatever datagrams arrive, the gateway's read loop does not panic, and the only
    packets it sends are heartbeat acknowledgements, one to the sender of each heartbeat, in
    order. *)
Theorem gateway_answers_heartbeats turns :
  ∃ es, runEncapReadLoop turns = Some es ∧
    omap written es = (λ remote, (remote, ack_frame)) <$> omap heartbeat_from (before_done turns).
Proof. apply read_loop_writes. Qed.

(** Packets read from the device of one end come out at the other end unchanged and in
    order, except those that are not IPv4, when they fit the read buffer. *)
Theorem pumps_carry_packets packets writeOK :
  Forall (λ p, length p ≤ tunnel_mtu) packets → (∀ f, writeOK f = true) →
  ∃ frames, pumpTUNToUDP (Some <$> packets) writeOK = Some frames ∧
    pumpUDPToTUN (Some <$> frames) = filter (λ p, isIPv4Packet p = true) packets.
Proof. apply pumps_carry. Qed.

(** C29. In every interleaving of the daemon with its forwarders, at most one forwarder has not
    finished.  A registered forwarder is that one, not canceled, with the registered signature.
    While the daemon is not inside a stop or restart, an unfinished forwarder is the registered
    one; while it cancels and waits inside one, no forwarder is registered. *)
Theorem single_forwarder cfg t :
  rtc (tunnel_step cfg) initial_tunnel t →
  (∀ i j f g, t_forwarders t !! i = Some f → t_forwarders t !! j = Some g →
     unfinished f → unfinished g → i = j) ∧
  (∀ c, t_cancel t = Some c → ∃ f, t_forwarders t !! c = Some f ∧ unfinished f ∧
     f_canceled f = false ∧ f_key f = t_key t) ∧
  (t_main t = Idle → ∀ i f, t_forwarders t !! i = Some f → unfinished f → t_cancel t = Some i) ∧
  (t_main t ≠ Idle → t_cancel t = None ∧ t_key t = "").
Proof.
  intros Hi%tunnel_reachable_inv. split_and!; [apply (ti_one _ Hi)| |apply (ti_idle _ Hi)|].
  - intros c Hc. destruct (ti_some _ Hi c Hc) as (_ & f & ? & ? & ? & ? & _). eauto 10.
  - intros Hm. assert (t_cancel t = None) as Hc.
    { destruct (t_cancel t) as [c|] eqn:Hc; [|done]. by destruct (ti_some _ Hi c Hc). }
    split; [done|by apply (ti_none _ Hi)].
Qed.

(** C30. After a poll of the control plane the tunnel follows what the poll found: the daemon
    gets back to waiting, and whatever forwarders do until the next call, the registered
    signature is the one of the peer that was confirmed (healthy control plane, bootstrap
    naming the peer, heartbeat acknowledged), or none; without a confirmed peer it is none. *)
Theorem tunnel_follows_poll urlHostname cfg an d d' calls t :
  rtc (tunnel_step cfg) initial_tunnel t → t_main t = Idle →
  pollControlPlane urlHostname cfg an d = (Ok tt, d', calls) →
  ∃ c, calls = [c] ∧
    c = match confirmed urlHostname cfg an with Some (peer, b) => CallRestart peer b | None => CallStop end ∧
    (∃ t', rtc (tunnel_step cfg) (begin_call cfg c t) t' ∧ t_main t' = Idle) ∧
    ∀ t', rtc (between_calls cfg) (begin_call cfg c t) t' → t_main t' = Idle →
      t_key t' = wanted cfg c ∨ t_key t' = "".
Proof.
  intros Hi%tunnel_reachable_inv Hm Hp. apply poll_calls in Hp as [(e & [=] & _)|(_ & ->)].
  eexists. split; [done|]. split; [done|]. split; [apply back_to_idle|].
  intros t' Hr Hm'. apply between_calls_rtc in Hr as [_ Ht]; [|by apply begin_call_inv].
  rewrite (begin_call_target cfg _ t Hm) in Ht. unfold target in Ht. by rewrite Hm' in Ht.
Qed.

(** ** Names *)

(** C31. With DNS enabled and the record store open, the record table refines a plain map from
    workload keys to addresses: after any sequence of registrations and removals, each meeting
    any answers of the store, it holds what the calls that reported success put there, and a
    failed call changes nothing.  With DNS disabled, or before the store is open, every
    registration and removal reports success and changes nothing. *)
Theorem dns_table_refines `{UnicodeLower, DnsLibLaws} cfg cs s :
  (dns_Enabled cfg = true → ds_store s = true →
   let '(s', t') := run_calls cfg cs s (addresses s) in
   addresses s' = t' ∧
   ∀ ns w, lookupLocalWorkloadIPv4 ns w s' =
     (ip ← t' !! workloadRecordKey ns w; if is_IPv4 (TrimSpace ip) then Some (TrimSpace ip) else None)) ∧
  (dns_Enabled cfg && ds_store s = false →
   ∀ save del c, run_call cfg save del c s = (Ok tt, s)).
Proof.
  split; [|intros Hc save del [ns w ip|ns w]; cbn [run_call]; by apply closed_calls].
  intros He Hs. pose proof (run_calls_refines cfg He cs s (addresses s) Hs eq_refl) as Hr.
  destruct (run_calls cfg cs s (addresses s)) as [s' t']. destruct Hr as [_ <-]. split; [done|].
  intros ns w. apply lookup_local_addresses.
Qed.

(** Once a workload with DNS labels as names was registered, a query for the name derived
    from it is answered with the registered address, unless the zone itself answers. *)
Theorem registered_workload_resolves `{UnicodeLower, DnsLibLaws} {RR Msg}
    truncated exchange Fqdn cfg save del ns w ip ip4 s s' upstreams assignments
    (resolve : Question → res (@Resolution RR)) q rz :
  dns_Enabled cfg = true → ds_store s = true →
  UpsertWorkloadA cfg save del ns w ip s = (Ok tt, s') →
  label ns → label w → zone_text (ZoneName cfg) → To4 (TrimSpace ip) = Some ip4 →
  q_Name q = workloadServiceFQDN ns w (ZoneName cfg) → q_Type q = TypeA ∨ q_Type q = TypeANY →
  resolve q = Ok rz → rz_RCode rz = RcodeNameError ∨ rz_RCode rz = RcodeRefused →
  ServeDNS (Msg := Msg) truncated exchange Fqdn (serving resolve upstreams cfg assignments s') OpcodeQuery [q] =
    Reply RcodeSuccess true (0 <? length upstreams)%nat [AnswerA (Fqdn (q_Name q)) 60 ip4] [] [].
Proof.
  intros He Hst Hu Hns Hw Hz H4 Hq Ht Hr Hc.
  eapply serve_dynamic; [done|done|done|done|rewrite Hq; by apply fqdn_roundtrip| |done].
  destruct (upsert_cases cfg He save del ns w ip s _ _ Hst Hu) as [(_ & _ & _ & rec & Hrec & Hd & _)|[[e [=]] _]].
  unfold LookupWorkloadIPv4. rewrite lookup_local_addresses, record_key_lower by done.
  unfold addresses. rewrite lookup_fmap, Hrec, lookup_insert_eq. cbn. rewrite Hd, TrimSpace_idemp.
  by rewrite (proj2 (is_IPv4_To4 _)) by eauto.
Qed.

(** ** Routes *)

(** C32. A route whose strip prefix is empty (compiled for a workload of this node, or configured
    so) or "/" (compiled for a workload of another node) takes exactly the requests whose cleaned
    path starts, on whole elements, with its prefix.  It forwards the remaining elements in the
    first case and all elements in the second, as an absolute clean path: no "." or ".." and no
    partial element ever reaches the upstream.  Configured routes may have other strip prefixes;
    nothing is said of them. *)
Theorem ingress_prefix_routing raw m url q :
  newRouteMeta raw = Ok m → TrimSpace (rt_StripPrefix raw) = "" ∨ rt_StripPrefix raw = "/" →
  HasPrefix url "/" = true →
  (rewrite_path m url = Some q ↔
    ∃ psegs tail, Forall plain_segment (psegs ++ tail) ∧ normalizedPath url = path_text (psegs ++ tail) ∧
      prefixNorm m = of_bytes (join_segments psegs) ∧
      q = path_text (if (TrimSpace (rt_StripPrefix raw) =? "")%string then tail else psegs ++ tail)) ∧
  (rewrite_path m url = Some q → clean_path q).
Proof.
  intros Hm Hs Hu.
  assert (rewrite_path m url = Some q ↔
    ∃ psegs tail, Forall plain_segment (psegs ++ tail) ∧ normalizedPath url = path_text (psegs ++ tail) ∧
      prefixNorm m = of_bytes (join_segments psegs) ∧
      q = path_text (if (TrimSpace (rt_StripPrefix raw) =? "")%string then tail else psegs ++ tail)) as Hr.
  { destruct Hs as [Hs|Hs]; [rewrite Hs; by apply (rewrite_spec raw)|]. rewrite Hs. by apply (rewrite_slash_spec raw). }
  split; [done|]. intros (psegs & tail & Hp & _ & _ & ->)%Hr. case_match; [|by apply path_text_clean].
  apply Forall_app in Hp as [_ ?]. by apply path_text_clean.
Qed.

(** C33. A request that enters at a node which does not run the workload is sent to the ingress
    of the node that does; the path the workload then sees is the one it would have seen had
    the request entered there directly. *)
Theorem ingress_two_hops parse_url optsA optsB app route rawA rawB mA mB url up :
  compileRoute parse_url optsA app route = Some rawA → compileRoute parse_url optsB app route = Some rawB →
  remoteIngressUpstream parse_url optsA app (TrimSpace (er_Workload (ir_Backend route))) = Some up →
  newRouteMeta rawA = Ok mA → newRouteMeta rawB = Ok mB → HasPrefix url "/" = true →
  rt_Upstream rawA = up ∧ (rewrite_path mA url ≫= rewrite_path mB) = rewrite_path mB url.
Proof.
  intros HA HB Hup HmA HmB Hu. apply compileRoute_some in HA as (HpA & _ & HA), HB as (HpB & _ & _).
  cbn zeta in HA. rewrite Hup in HA. destruct HA as [HA Hst]. split; [done|].
  apply (two_hops rawA rawB); [done|done|congruence|done|done].
Qed.

(** Routes come out grouped by application, applications in strictly increasing order of
    namespace/name, the last document of each key counting; and the order in which the
    applications are listed does not matter when their keys differ. *)
Theorem ingress_compile_order `{ListSortLaws} parse_url opts apps apps' :
  (CompileIngressRoutesFromDeployWithOptions parse_url apps opts =
     orderedApps apps ≫= compileAppIngressRoutes parse_url opts) ∧
  StronglySorted (cmp_le Compare) (app_key <$> orderedApps apps) ∧ NoDup (app_key <$> orderedApps apps) ∧
  (∀ a, a ∈ orderedApps apps ↔
     app_named a ∧ list.last (filter (λ b, app_named b ∧ app_key b = app_key a) apps) = Some a) ∧
  (apps ≡ₚ apps' → NoDup (app_key <$> filter app_named apps) →
   CompileIngressRoutesFromDeployWithOptions parse_url apps opts =
   CompileIngressRoutesFromDeployWithOptions parse_url apps' opts).
Proof.
  destruct (orderedApps_sorted apps) as [Hs%(Sorted_StronglySorted _) Hd]. split_and!; [done..|apply elem_of_orderedApps|].
  intros Hp Hn. unfold CompileIngressRoutesFromDeployWithOptions. by rewrite (orderedApps_perm apps apps').
Qed.

(** After any sequence of starts (their listeners failing or not), route refreshes and
    stops, the service is either stopped with nothing left open, or serves one whole compiled
    route table on every configured address, none of which is both plain and TLS. *)
Theorem ingress_lifecycle `{UnicodeLower} ic url_parse new_endpoint calls :
  let s := foldl (λ s c, ingress_run ic url_parse new_endpoint c s) NewIngress calls in
  (s = NewIngress ∨
   is_started s = true ∧ is_servers s = length (is_listeners s) ∧
   is_listeners s = PlainListenAddrList ic ++ TLSListenAddrList ic ∧ is_listeners s ≠ [] ∧
   ∃ routes snapshot, buildValeSnapshot url_parse new_endpoint routes = Ok (snapshot, length routes) ∧
     is_gateway s = Some snapshot ∧ is_routeCount s = Z.of_nat (length routes)) ∧
  ∀ a, a ∈ PlainListenAddrList ic → a ∉ TLSListenAddrList ic.
Proof.
  intros s. split; [|apply listeners_disjoint].
  destruct (ingress_reachable_inv ic url_parse new_endpoint calls) as [E|(_ & Hne & routes & snapshot & Hb & E)];
    fold s in E; [by left|right]. rewrite E. cbn. split_and!; [done..|]. eauto 10.
Qed.

(** ** Members *)

(** After any sequence of starts and stops of the Raft service, with any answers of the
    outside, it is marked started exactly when it holds a NodeHost, never holds more than one,
    and a started node runs the replica its id hashes to, under its own name; a start that
    fails leaves nothing open. *)
Theorem raft_lifecycle `{ListSort} cfg dir local calls :
  let n := foldl (raft_run cfg dir) (NewNode local) calls in
  rn_started n = sv_nh (rn_service n) ∧ rn_open n = (if rn_started n then 1%nat else 0%nat) ∧
  (rn_started n = true → replicaIDForNodeID local = Ok (sv_localReplicaID (rn_service n)) ∧
     sv_replicaToNode (rn_service n) !! sv_localReplicaID (rn_service n) = Some (TrimSpace local)) ∧
  (∀ a e n', raft_Start cfg dir a n = (Err e, n') → rn_open n' = 0%nat ∧ rn_started n' = false).
Proof.
  intros n. pose proof (raft_reachable_inv cfg dir local calls) as Hn. fold n in Hn.
  pose proof Hn as (Hid & Hst & Ho & Hi). rewrite Hst. split_and!; [done|done| |].
  - intros Hnh. destruct (Hi Hnh) as [Hr Hl]. by rewrite Hid in *.
  - intros a e n'. by apply raft_start_failed with (local := local).
Qed.

(** A write is served by the leader; a node that follows a leader it knows forwards it to
    the URL configured under the id whose replica leads, never to itself, and reports the
    missing entry otherwise. *)
Theorem writes_reach_leader `{ReplicaOrder, ListSort} err_text ctx m r s nodeURL :
  sv_nh s = true → table_ok s → is_Some (sv_replicaToNode s !! r) →
  let target := leaderBaseURL nodeURL (status_of err_text (Ok tt) ctx (Ok (r, true)) m s) in
  ∃ id, replicaIDForNodeID id = Ok r ∧ sv_replicaToNode s !! r = Some id ∧
    target = if (r =? sv_localReplicaID s)%Z then Ok None
             else match nodeURL id with
                  | Some url => Ok (Some url)
                  | None => Err (Errorf "not leader: configure cluster.nodes.%s or target the raft leader" [AStr id])
                  end.
Proof. apply write_route. Qed.

(** A node whose replica table does not name the leader, as after a restart of a follower,
    reports itself as the leader and forwards writes to itself. *)
Theorem restarted_follower_forwards_to_itself :
  let n := (raft_Start (H := merge_list_sort) restart_config "" restart_answers (NewNode "node-b")).2 in
  ∃ ra rb, replicaIDForNodeID "node-a" = Ok ra ∧ replicaIDForNodeID "node-b" = Ok rb ∧ ra ≠ rb ∧
  ∃ st, status_of (H := keys_order) (H0 := merge_list_sort) (λ _, "") (Ok tt) (Ok tt) (Ok (ra, true))
      (Ok (mkMembership {[ra := "10.0.0.1:7000"; rb := "10.0.0.2:7000"]} ∅ ∅)) (rn_service n) = Ok st ∧
    st_IsLeader st = false ∧ st_LeaderID st = "node-b" ∧ st_LeaderAddress st = "10.0.0.2:7000" ∧
    leaderBaseURL (λ id, Some ("http://" +:+ id)) (Ok st) = Ok (Some "http://node-b").
Proof. apply restarted_follower_reports_itself. Qed.

(** Discovery changes the Raft group only on a ready leader, and asks it only for discovered
    nodes that are alive, have a Raft address, are not the local node and are not members yet,
    each at most once and in order of their ids. *)
Theorem gossip_joins_only_candidates `{Digest, Codec, ReplicaOrderLaws, ListSortLaws} order local a ms raft calls r raft' :
  (∀ ms, order ms ≡ₚ (map_to_list ms).*2) → members_ok ms →
  reconcileRaftMembership order local a ms raft = (calls, r, raft') →
  NoDup (gn_ID <$> calls) ∧
  (calls ≠ [] → ∃ st ex, ra_status a = Ok st ∧ st_Ready st = true ∧ st_IsLeader st = true ∧
     raftMemberIDs (ra_ctx a) (ra_membership a) raft = Ok ex ∧
     ∀ n, n ∈ calls → (∃ id, ms !! id = Some n) ∧ TrimSpace (gn_ID n) ≠ TrimSpace local ∧
       TrimSpace (gn_RaftAddress n) ≠ "" ∧ EqualFold (TrimSpace (gn_State n)) "alive" = true ∧
       TrimSpace (gn_ID n) ∉ ex).
Proof.
  intros Ho Hms Hr. apply reconcile_calls in Hr as (_ & _ & Hc). destruct (decide (calls = [])) as [->|Hne].
  { split; [constructor|done]. }
  destruct (Hc Hne) as (st & ex & ? & ? & ? & ? & Hp). split.
  - destruct (candidates_sorted order local Ho ms ex Hms) as [_ Hnd].
    destruct Hp as [k Hk]. rewrite Hk, fmap_app in Hnd. by apply NoDup_app in Hnd as [? _].
  - intros _. exists st, ex. split_and!; [done..|]. intros n Hn.
    assert (n ∈ raftJoinCandidates order local ms ex) as Hin.
    { destruct Hp as [k ->]. by apply elem_of_app; left. }
    apply (elem_of_candidates order local Ho) in Hin as [? Hcand]. apply candidate_spec in Hcand. naive_solver.
Qed.

(** Once a discovery round has succeeded and the Raft group contains what was added, the
    next round finds nothing to add. *)
Theorem gossip_converges `{Digest, Codec, ReplicaOrderLaws, ListSortLaws} order local a st m ms raft calls raft' ex m' ex' :
  (∀ ms, order ms ≡ₚ (map_to_list ms).*2) →
  ra_status a = Ok st → st_Ready st = true → st_IsLeader st = true →
  ra_ctx a = Ok tt → ra_membership a = Ok m → raftMemberIDs (Ok tt) (Ok m) raft = Ok ex →
  sv_nh raft = true → table_ok raft → known_members m raft →
  collision_free raft (raftJoinCandidates order local ms ex) →
  reconcileRaftMembership order local a ms raft = (calls, Ok tt, raft') →
  (∀ r, r ∈ replicas m → r ∈ replicas m') →
  Forall (λ n, ∀ r, replicaIDForNodeID (gn_ID n) = Ok r → r ∈ replicas m') calls →
  raftMemberIDs (Ok tt) (Ok m') raft' = Ok ex' →
  raftJoinCandidates order local ms ex' = [].
Proof. intros Ho. by apply reconcile_converges. Qed.

(** ** The hypotheses can be met *)
Import Concrete.

#[local] Instance identity_lower : UnicodeLower := λ r, r.
#[local] Instance keep_record : DnsLib := {| NormalizeRecord := Ok; RecordKey := rec_Name |}.
#[local] Instance keep_record_laws : DnsLibLaws.
Proof. split. by intros r r' Ht [= <-]. Qed.
#[local] Instance replica_keys : ReplicaOrder := keys_order.
#[local] Instance replica_keys_laws : ReplicaOrderLaws.
Proof. intros m. done. Qed.

(** A minimal IPv4 header, and a packet of another kind. *)
Definition ipv4_packet : bytes := byte 69 :: repeat (byte 0) 19.
Definition ipv6_packet : bytes := byte 96 :: repeat (byte 0) 39.

Lemma pumps_carry_packets_witness :
  ∃ frames, pumpTUNToUDP (Some <$> [ipv4_packet; ipv6_packet]) (λ _, true) = Some frames ∧
    pumpUDPToTUN (Some <$> frames) = [ipv4_packet].
Proof.
  destruct (pumps_carry_packets [ipv4_packet; ipv6_packet] (λ _, true)) as (frames & Hf & Hp).
  - apply Forall_cons; split; [|apply Forall_singleton]; apply Nat.leb_le; vm_compute; reflexivity.
  - done.
  - exists frames. split; [exact Hf|]. rewrite Hp. vm_compute. reflexivity.
Defined.

Definition client : ClientConfig := mkClient "https://cp:8443" "" 60 true "orch0".
Definition boot_doc : Bootstrap := mkBootstrap true 51820 1400.

Lemma single_forwarder_witness :
  ∃ f, t_forwarders (begin_call client (CallRestart "cp:51820" boot_doc) initial_tunnel) !! 0%nat = Some f ∧
    unfinished f ∧ f_key f = "cp:51820|1400|orch0".
Proof.
  destruct (single_forwarder client (begin_call client (CallRestart "cp:51820" boot_doc) initial_tunnel))
    as (_ & Hc & _).
  - apply rtc_once, ts_call. reflexivity.
  - destruct (Hc 0%nat) as (f & Hf & Hu & _ & Hk); [reflexivity|]. exists f. split; [exact Hf|]. split; [exact Hu|].
    rewrite Hk. vm_compute. reflexivity.
Defined.

Definition answering : answers :=
  mkAnswers None (Ok tt) None (Ok (Some boot_doc)) (λ _, mkExchange (Ok tt) (λ _, Ok tt) (Ok tt) (Ok ack_frame)).

Lemma tunnel_follows_poll_witness :
  ∃ t', rtc (tunnel_step client) (begin_call client (CallRestart "cp:51820" boot_doc) initial_tunnel) t' ∧
    t_main t' = Idle.
Proof.
  destruct (tunnel_follows_poll (λ _, Some "cp") client answering (mkDaemon false "") (mkDaemon true "cp:51820")
    [CallRestart "cp:51820" boot_doc] initial_tunnel) as (c & Hc & _ & Hi & _).
  - apply rtc_refl.
  - reflexivity.
  - vm_compute. reflexivity.
  - injection Hc as <-. exact Hi.
Defined.

Definition dns_config : DNSConfig := mkDNSConfig true ":53" "orch.local" "" [] [] "".
Definition dns_running : DnsService := mkDns true true true ∅ [].

Lemma dns_table_refines_witness :
  lookupLocalWorkloadIPv4 "prod" "api"
    (run_calls dns_config [(CallUpsert "prod" "api" " 10.0.0.5 ", λ _, Ok tt, λ _, Ok tt)] dns_running ∅).1 =
  Some "10.0.0.5".
Proof.
  destruct (dns_table_refines dns_config
    [(CallUpsert "prod" "api" " 10.0.0.5 ", λ _, Ok tt, λ _, Ok tt)] dns_running) as [Hr _].
  specialize (Hr eq_refl eq_refl).
  change (addresses dns_running) with (∅ : gmap string string) in Hr.
  destruct (run_calls _ _ dns_running ∅) as [s' t'] eqn:E. destruct Hr as [_ Hl]. cbn [fst]. rewrite Hl.
  apply (f_equal snd) in E. cbn [snd] in E. rewrite <-E. vm_compute. reflexivity.
Defined.

Definition api_question : Question := mkQuestion "api.prod.svc.orch.local" TypeA.

Lemma registered_workload_resolves_witness :
  ServeDNS (Msg := unit) (λ _, false) (λ _ _, (None, None)) (λ n, n +:+ ".")
    (serving (λ _, Ok (@mkResolution unit RcodeNameError true [] [] [])) [] dns_config None
       (UpsertWorkloadA dns_config (λ _, Ok tt) (λ _, Ok tt) "prod" "api" "10.0.0.5" dns_running).2)
    OpcodeQuery [api_question] =
  Reply RcodeSuccess true false [AnswerA "api.prod.svc.orch.local." 60 [10; 0; 0; 5]%Z] [] [].
Proof.
  assert (∀ s, bool_decide (s ≠ "" ∧ Forall (λ a, graphic a = true) (bytes_of s) ∧ "."%char ∉ bytes_of s) = true → label s)
    as Hlabel by (intros s Hs; by apply bool_decide_eq_true in Hs).
  eapply (registered_workload_resolves (Msg := unit) (λ _, false) (λ _ _, (None, None)) (λ n, n +:+ ".")
    dns_config (λ _, Ok tt) (λ _, Ok tt) "prod" "api" "10.0.0.5" [10; 0; 0; 5]%Z dns_running _ [] None
    (λ _, Ok (@mkResolution unit RcodeNameError true [] [] [])) api_question).
  - reflexivity.
  - reflexivity.
  - vm_compute. reflexivity.
  - apply Hlabel. vm_compute. reflexivity.
  - apply Hlabel. vm_compute. reflexivity.
  - split; [by vm_compute|]. split; [repeat constructor|by vm_compute].
  - vm_compute. reflexivity.
  - vm_compute. reflexivity.
  - left. reflexivity.
  - reflexivity.
  - left. reflexivity.
Defined.

(** The application "shop" behind the prefix /shop, running on node n2. *)
Definition web : Workload :=
  mkWorkload "web" WorkloadKindService (run_image "nginx") RuntimeDocker 1 []
    [mkEndpoint "http" 8080 ProtoHTTP 0 ""] [] None None None None None.
Definition web_route : IngressRoute := mkIngressRoute "/shop" (mkEndpointRef "web" "http").
Definition web_app : App :=
  mkApp "v1" "App" (meta "shop") [web] [] [] [] [mkIngress "main" "" [web_route]].
Definition web_running : Assignment :=
  mkAssignment "default/shop/web" (meta "shop") "web" "n2" "10.2.0.5" RuntimeDocker "nginx" "running" "g" "" 0.
Definition ingress_config : IngressConfig :=
  mkIngressConfig true "" [":80"] (mkTLS false [] [] "" "" false).
Definition options_of (node : string) : CompileOptions :=
  mkCompileOptions (Some (λ _ _, Some "10.2.0.5")) (Some (λ _, Some web_running))
    [("n2", "http://10.0.0.2:8080")] ingress_config node.
Definition parse_n2 (raw : string) : option URLRef :=
  Some (mkURLRef "10.0.0.2" (λ scheme host, scheme +:+ "://" +:+ host)).
Definition local_route : RouteConfig := mkRoute "/shop" "http://10.2.0.5:8080" [] "" "".
Definition remote_route : RouteConfig := mkRoute "/shop" "http://10.0.0.2:80" [] "/" "".

Lemma ingress_prefix_routing_witness :
  rewrite_path (mkRouteMeta "shop" "/shop") "/shop/../shop//cart" = Some "/cart" ∧ clean_path "/cart".
Proof.
  destruct (ingress_prefix_routing local_route (mkRouteMeta "shop" "/shop") "/shop/../shop//cart" "/cart") as [_ Hc].
  - vm_compute. reflexivity.
  - left. vm_compute. reflexivity.
  - vm_compute. reflexivity.
  - split; [vm_compute; reflexivity|]. apply Hc. vm_compute. reflexivity.
Defined.

Lemma ingress_two_hops_witness :
  (rewrite_path (mkRouteMeta "shop" "/") "/shop/cart" ≫= rewrite_path (mkRouteMeta "shop" "/shop")) = Some "/cart".
Proof.
  destruct (ingress_two_hops parse_n2 (options_of "n1") (options_of "n2") web_app web_route remote_route local_route
    (mkRouteMeta "shop" "/") (mkRouteMeta "shop" "/shop") "/shop/cart" "http://10.0.0.2:80") as [_ ->].
  - vm_compute. reflexivity.
  - vm_compute. reflexivity.
  - vm_compute. reflexivity.
  - vm_compute. reflexivity.
  - vm_compute. reflexivity.
  - vm_compute. reflexivity.
  - vm_compute. reflexivity.
Defined.

Lemma ingress_compile_order_witness :
  CompileIngressRoutesFromDeployWithOptions parse_n2 [web_app; shop2] (options_of "n2") =
  CompileIngressRoutesFromDeployWithOptions parse_n2 [shop2] (options_of "n2").
Proof.
  destruct (ingress_compile_order parse_n2 (options_of "n2") [web_app; shop2] [shop2]) as (-> & _).
  vm_compute. reflexivity.
Defined.

(** Node n1 follows n2. *)
Definition replica_of (id : string) : Z := match replicaIDForNodeID id with Ok r => r | Err _ => 0 end.
Definition following : Service :=
  mkService "n1" true initial (replica_of "n1") "10.0.0.1:7000"
    {[replica_of "n1" := "n1"; replica_of "n2" := "n2"]} ∅.

Lemma following_table : table_ok following.
Proof.
  apply map_Forall_insert_2; [by vm_compute|]. apply map_Forall_insert_2; [by vm_compute|]. apply map_Forall_empty.
Qed.

Lemma writes_reach_leader_witness :
  leaderBaseURL (λ id, Some ("http://" +:+ id))
    (status_of (λ _, "") (Ok tt) (Ok tt) (Ok (replica_of "n2", true)) (Ok (mkMembership ∅ ∅ ∅)) following) =
  Ok (Some "http://n2").
Proof.
  destruct (writes_reach_leader (λ _, "") (Ok tt) (Ok (mkMembership ∅ ∅ ∅)) (replica_of "n2") following
    (λ id, Some ("http://" +:+ id))) as (id & Hr & Hid & ->).
  - reflexivity.
  - apply following_table.
  - by eexists; vm_compute.
  - assert (id = "n2") as -> by (vm_compute in Hid; congruence). vm_compute. reflexivity.
Defined.

(** The leader n1 discovers n3. *)
Definition leading_n1 : Service :=
  mkService "n1" true initial (replica_of "n1") "10.0.0.1:7000" {[replica_of "n1" := "n1"]} ∅.
Definition n3_node : GossipNode := mkGossipNode "n3" "10.0.0.3:7946" "10.0.0.3:7000" "" "" "alive" 0.
Definition discovered : members_t := {["n3" := n3_node]}.
Definition members_order (ms : members_t) : list GossipNode := (map_to_list ms).*2.
Definition group1 : Membership := mkMembership {[replica_of "n1" := "10.0.0.1:7000"]} ∅ ∅.
Definition group2 : Membership :=
  mkMembership {[replica_of "n1" := "10.0.0.1:7000"; replica_of "n3" := "10.0.0.3:7000"]} ∅ ∅.
Definition n1_leads : RaftMembers.Status := RaftMembers.mkStatus true "n1" "Leader" true "n1" "10.0.0.1:7000" "10.0.0.1:7000" "" [].
Definition accepting : reconcile_answers :=
  mkReconcile (Ok n1_leads) (Ok tt) (Ok group1) (λ _, (Ok tt, Ok tt))
    (λ _, mkNodeHost (Ok (replica_of "n1", true)) (Ok (replica_of "n1", true)) (λ _, mkProposal [] true (Ok tt))
            (λ _ _, Ok tt) (λ _, Ok tt)).
Definition joined_n3 : Service := rememberMember "n3" (replica_of "n3") "10.0.0.3:7000" leading_n1.

Lemma discovered_ok : members_ok discovered.
Proof. apply map_Forall_insert_2; [by vm_compute|]. apply map_Forall_empty. Qed.

Lemma leading_n1_table : table_ok leading_n1.
Proof. apply map_Forall_insert_2; [by vm_compute|]. apply map_Forall_empty. Qed.

Lemma round_n3 :
  reconcileRaftMembership members_order "n1" accepting discovered leading_n1 = ([n3_node], Ok tt, joined_n3).
Proof. vm_compute. reflexivity. Qed.

Lemma group1_replicas : replicas group1 = [replica_of "n1"].
Proof. vm_compute. reflexivity. Qed.

Lemma gossip_joins_only_candidates_witness : TrimSpace (gn_ID n3_node) ≠ TrimSpace "n1".
Proof.
  destruct (gossip_joins_only_candidates members_order "n1" accepting discovered leading_n1 [n3_node] (Ok tt) joined_n3)
    as [_ Hc].
  - done.
  - apply discovered_ok.
  - apply round_n3.
  - destruct Hc as (st & ex & _ & _ & _ & _ & Hn); [done|]. destruct (Hn n3_node) as (_ & Hne & _); [left|]. exact Hne.
Defined.

Lemma gossip_converges_witness : raftJoinCandidates members_order "n1" discovered {["n1"; "n3"]} = [].
Proof.
  apply (gossip_converges members_order "n1" accepting n1_leads group1 discovered leading_n1 [n3_node] joined_n3
    {["n1"]} group2 {["n1"; "n3"]}).
  - done.
  - reflexivity.
  - reflexivity.
  - reflexivity.
  - reflexivity.
  - reflexivity.
  - vm_compute. reflexivity.
  - reflexivity.
  - apply leading_n1_table.
  - intros r Hr. rewrite group1_replicas in Hr. apply list_elem_of_singleton in Hr as ->. by eexists; vm_compute.
  - replace (raftJoinCandidates members_order "n1" discovered {["n1"]}) with [n3_node] by (vm_compute; reflexivity).
    split.
    + intros n r id ->%list_elem_of_singleton Hr Hl. exfalso. vm_compute in Hr. injection Hr as <-. by vm_compute in Hl.
    + by intros n n' ->%list_elem_of_singleton ->%list_elem_of_singleton.
  - apply round_n3.
  - intros r Hr. rewrite group1_replicas in Hr. apply list_elem_of_singleton in Hr as ->.
    apply (bool_decide_eq_true (replica_of "n1" ∈ replicas group2)). vm_compute. reflexivity.
  - apply Forall_singleton. intros r Hr. assert (r = replica_of "n3") as -> by (vm_compute in Hr; injection Hr as <-; by vm_compute).
    apply (bool_decide_eq_true (replica_of "n3" ∈ replicas group2)). vm_compute. reflexivity.
  - vm_compute. reflexivity.
Defined.

(** ** Settings *)

(** Whatever the files and the environment say, a flag that was given on the command line decides
    its own setting, every other setting is what loading answered, and no flag makes loading fail. *)
Theorem flags_decide `{UnicodeLower} (load : LoadOptions → res Config) root inherited own path :
  bound (cobraConfigFlags inherited own) → get_flag (cobraConfigFlags inherited own) "config" as_string = Ok path →
  ∃ opts, LoadFromCobra load root inherited own = (c ← load opts; Ok (overlaid (cobraConfigFlags inherited own) c)) ∧
    lo_Files opts = (if (TrimSpace path =? "")%string then [] else [TrimSpace path]) ∧ lo_Defaults opts = Default root ∧
    lo_Flags opts !! "config" = None.
Proof.
  intros Hb Hp. exists (mkLoadOptions (Default root) (if negb (TrimSpace path =? "")%string then [TrimSpace path] else [])
    (flagsForConfigMerge (cobraConfigFlags inherited own)) orchFlagToPath). unfold LoadFromCobra. rewrite Hp. cbn [wrap mbind res_bind]. split_and!.
  - destruct (load _) as [c|e]; [|reflexivity]. cbn [mbind res_bind]. apply overlay_all, Hb.
  - cbn. by destruct (TrimSpace path =? "")%string.
  - reflexivity.
  - apply lookup_delete_eq.
Qed.

(** The path under which a flag is merged is the path of its setting, for every flag but one. *)
Theorem flag_paths `{UnicodeLower} :
  filter (λ p : string * string, orchFlagToPath p.1 ≠ p.2) flag_fields = [("ingress-tls-cache-dir", "ingress.tls.cache_dir")].
Proof. vm_compute. reflexivity. Qed.

(** A node has an identity: the configured one, unless it is blank or [auto], and otherwise what the
    hardware gives, which is not blank. *)
Theorem node_identity `{UnicodeLower, ListSort} digest hostID hostname interfaces c v :
  Resolve digest hostID hostname interfaces c = Ok v →
  TrimSpace v ≠ "" ∧
  (v = TrimSpace (ra_NodeID (cf_Raft c)) ∨ FromHardware digest hostID hostname interfaces = Ok v).
Proof.
  unfold Resolve. destruct (String.eqb_spec (TrimSpace (ra_NodeID (cf_Raft c))) "") as [|Hne]; cbn [negb andb].
  2: destruct (EqualFold _ "auto"); cbn [negb andb]; [|intros [= <-]; rewrite TrimSpace_idemp; auto].
  all: intros (x & Hx & Hv)%res_bind_ok; destruct (String.eqb_spec (TrimSpace x) ""); [done|]; injection Hv as <-; auto.
Qed.

(** The scheduler runs two jobs, at positive intervals whatever the settings say. *)
Theorem scheduler_intervals newJob sc jobs : start_jobs newJob sc = Ok jobs →
  job_Name <$> jobs = ["orch-heartbeat"; "orch-node-resources"] ∧ Forall (λ j, (0 < job_Interval j)%Z) jobs.
Proof.
  unfold start_jobs. intros (u1 & _ & (u2 & _ & [= <-])%res_bind_ok)%res_bind_ok. split; [done|].
  repeat constructor; apply interval_positive; lia.
Qed.

(** ** The resolver of the host *)

(** What is installed on the host: a port that exists, a zone that is not blank, and an address that
    is not the unspecified one. *)
Theorem host_dns_config `{UnicodeLower} dns c : ConfigFromOrch dns = Ok c →
  hc_Zone c ≠ "" ∧ (1 ≤ hc_Port c ≤ 65535)%Z ∧
  (hc_Nameserver c = "127.0.0.1" ∨
   ∃ host ip, ParseIP host = Some ip ∧ IsUnspecified ip = false ∧ hc_Nameserver c = IPString ip).
Proof.
  unfold ConfigFromOrch. destruct (String.eqb_spec (domain_of (ZoneName dns)) ""); [done|].
  destruct (String.eqb_spec (TrimSpace (dns_Listen dns)) ""); [done|]. intros ([host portRaw] & _ & Hc)%res_bind_ok.
  destruct (Atoi portRaw) as [port|]; [|done]. destruct (Z.leb_spec port 0), (Z.ltb_spec 65535 port); try done. cbn [orb] in Hc.
  destruct (String.eqb_spec (hostDNSNameserver host) "") as [|Hns]; [done|]. injection Hc as <-. cbn. split; [done|]. split; [lia|].
  unfold hostDNSNameserver in *. case_match; [by left|]. destruct (ParseIP _) as [ip|] eqn:Ei; [|done].
  destruct (IsUnspecified ip) eqn:Eu; [by left|]. right. eauto.
Qed.

Section host_dns.
Context {O : Type} (mkdirAll writeFile readFile removeFile : DnsHost O → string → res unit).
Context (residue : DnsHost O → string → option string).
Context (connect : O → res unit * O) (restart_unit : string → O → job * O) (path : string).

(** After an installation the status says so, after its removal it does not, and nothing but the
    file of the resolver changed, on Linux and on macOS. *)
Theorem host_dns_roundtrip c h h1 h2 :
  (∀ h p, readFile h p = Ok tt) → (∀ h p e, removeFile h p = Err e → IsNotExist e = false) →
  (linux_Install mkdirAll writeFile residue connect restart_unit path c h = (Ok tt, h1) →
   linux_Uninstall removeFile connect restart_unit path c h1 = (Ok tt, h2) →
   (∃ s, linux_Status readFile path c h1 = (Ok s, h1) ∧ hs_Installed s = true) ∧
   (∃ s, linux_Status readFile path c h2 = (Ok s, h2) ∧ hs_Installed s = false) ∧
   dh_files h2 = delete path (dh_files h)) ∧
  (darwin_Install mkdirAll writeFile residue c h = (Ok tt, h1) → darwin_Uninstall removeFile c h1 = (Ok tt, h2) →
   (∃ s, darwin_Status readFile c h1 = (Ok s, h1) ∧ hs_Installed s = true) ∧
   (∃ s, darwin_Status readFile c h2 = (Ok s, h2) ∧ hs_Installed s = false) ∧
   dh_files h2 = delete (darwinResolverPath c) (dh_files h)).
Proof.
  intros Hr Hh. split.
  - intros (u1 & h0 & E1%annotate_Ok & (u2 & h3 & E2%annotate_Ok & E3%annotate_Ok)%bind_Ok)%bind_Ok
      (u4 & h4 & E4%annotate_Ok & E5%annotate_Ok)%bind_Ok.
    injection E1 as _ <-. destruct u2, u4. apply write_file_Ok in E2 as ->. apply restart_files in E3.
    apply remove_file_Ok in E4 as ->; [|done]. apply restart_files in E5. cbn in *. split_and!.
    + eexists. split; [apply file_status_present; [by rewrite E3, lookup_insert_eq|apply Hr]|done].
    + eexists. split; [apply file_status_missing; by rewrite E5, lookup_delete_eq|done].
    + by rewrite E5, E3, delete_insert_eq.
  - intros (u1 & h0 & E1%annotate_Ok & E2%annotate_Ok)%bind_Ok E3%annotate_Ok. injection E1 as _ <-.
    apply write_file_Ok in E2 as ->. apply remove_file_Ok in E3 as ->; [|done]. cbn. split_and!.
    + eexists. split; [apply file_status_present; [apply lookup_insert_eq|apply Hr]|done].
    + eexists. split; [apply file_status_missing; apply lookup_delete_eq|done].
    + by rewrite delete_insert_eq.
Qed.

(** An installation whose restart fails is reported as installed: the file stays. *)
Theorem host_dns_failed_install_stays c h e h1 :
  (∀ h p, readFile h p = Ok tt) → mkdirAll h (filepath_Dir path) = Ok tt → writeFile h path = Ok tt →
  linux_Install mkdirAll writeFile residue connect restart_unit path c h = (Err e, h1) →
  ∃ s, linux_Status readFile path c h1 = (Ok s, h1) ∧ hs_Installed s = true.
Proof.
  intros Hr Hm Hw. unfold linux_Install, annotate, mbind, SE_bind, dh_answer, write_file. rewrite Hm, Hw.
  destruct (restartSystemdResolved _ _ _) as [[|e'] h2] eqn:E; [done|]. intros [= _ <-]. apply restart_files in E. cbn in E.
  eexists. split; [apply file_status_present; [by rewrite E, lookup_insert_eq|apply Hr]|done].
Qed.
End host_dns.

(** PowerShell reads a zone of ASCII back from a script, whatever it holds: none ends the literal it
    stands in.  Outside ASCII the literal also ends at typographic quotes, which [read_literal] does
    not know, so nothing is claimed there. *)
Theorem powershell_literal_roundtrip zone rest :
  Forall (λ c, (byte_val c < 128)%N) (bytes_of zone) → head (bytes_of rest) ≠ Some apostrophe →
  read_literal (S (length (bytes_of zone))) (bytes_of (escapePowerShell zone) ++ apostrophe :: bytes_of rest) =
  Some (bytes_of zone, bytes_of rest).
Proof.
  intros _ Hr. unfold escapePowerShell, ReplaceByte. rewrite bytes_of_of_bytes. apply read_escaped; [lia|done].
Qed.

Definition server_flags : FlagSet :=
  <["config" := mkFlag (VString " /etc/orch.hcl ") true]> (<["dns-zone" := mkFlag (VString "corp.example") true]>
    (list_to_map (prod_map id unchanged <$> BindOrchFlags (Default "/var/lib/orch")))).
Lemma server_flags_bound : bound (cobraConfigFlags ∅ server_flags).
Proof. apply bound_checked. vm_compute. reflexivity. Qed.
#[local] Instance lower_as_is : UnicodeLower := λ r, r.
Lemma flags_decide_witness :
  dns_Zone (cf_DNS (match LoadFromCobra (λ o, Ok (lo_Defaults o)) "/var/lib/orch" ∅ server_flags with Ok c => c | Err _ => Default "" end)) =
  "corp.example".
Proof.
  destruct (flags_decide (λ o, Ok (lo_Defaults o)) "/var/lib/orch" ∅ server_flags " /etc/orch.hcl " server_flags_bound)
    as (opts & -> & _ & Hd & _); [vm_compute; reflexivity|]. cbn [mbind res_bind]. rewrite Hd. vm_compute. reflexivity.
Defined.

Definition quiet_disk : DnsHost unit → string → res unit := λ _ _, Ok tt.
Definition resolved : HostConfig := mkHostConfig "orch.local" "127.0.0.1" 15353 "127.0.0.1:15353".
Definition installed_host : res unit * DnsHost unit :=
  linux_Install quiet_disk quiet_disk (λ _ _, None) (λ o, (Ok tt, o)) (λ _ o, (JobResult "done", o))
    "/etc/systemd/resolved.conf.d/orch.conf" resolved (mkDnsHost ∅ tt).
Definition restored_host : res unit * DnsHost unit :=
  linux_Uninstall quiet_disk (λ o, (Ok tt, o)) (λ _ o, (JobResult "done", o))
    "/etc/systemd/resolved.conf.d/orch.conf" resolved installed_host.2.
Lemma host_dns_roundtrip_witness : dh_files restored_host.2 = ∅.
Proof.
  destruct (host_dns_roundtrip quiet_disk quiet_disk quiet_disk quiet_disk (λ _ _, None) (λ o, (Ok tt, o)) (λ _ o, (JobResult "done", o))
    "/etc/systemd/resolved.conf.d/orch.conf" resolved (mkDnsHost ∅ tt) installed_host.2 restored_host.2) as [Hl _].
  - done.
  - by intros h p e [=].
  - destruct Hl as (_ & _ & Hf); [vm_compute; reflexivity..|]. etrans; [exact Hf|apply delete_empty].
Defined.

Lemma node_identity_witness : TrimSpace "4c4c4544" ≠ "".
Proof.
  assert (Resolve (H0 := λ A cmp l, l) (λ s, s) (Ok "4C4C4544") (Ok "h") (Ok []) (Default "/var/lib/orch") = Ok "4c4c4544") as E
    by (vm_compute; reflexivity).
  apply (node_identity _ _ _ _ _ _ E).
Defined.
