(* ===== verification/HostTheorems.v ===== *)
(** * Imports and runtimes

    The properties of the compose import, of the runtime manager and of the process, systemd,
    Firecracker and Windows service runtimes, with instances that meet their hypotheses and runs
    that show where the conditions of the theorems are needed. *)
From stdpp Require Import base strings numbers gmap list relations sorting.
From Stdlib Require Import Ascii.
From S2P Require Import Prelude GoStrings GoTime GoNet GoList Deploy Dependency Kahn Validate ValidateSpec Meta Placement Fsm.
From S2P Require Import RaftService GoText TaskBase Dns Compose ComposeSpec Runtime RuntimeSpec ProcessRuntime ProcessRuntimeSpec.
From S2P Require Import Effects Systemd SystemdSpec Firecracker WindowsService Concrete.


(** C25. A compose project within the limits of the document model (service names, ports,
    environment names, resources, dependencies among imported services without a cycle)
    imports: the result is a valid document with one workload per service that has an image, in
    the project's order, and the other services are reported as skipped. *)
Theorem compose_import_valid `{UnicodeLower, ListSortLaws, GraphLaws} convert_outside proj :
  importable convert_outside proj →
  ∃ r, MapProject convert_outside (Some proj) = Ok r ∧ Validate (im_App r) = Ok tt ∧
    w_Name <$> app_Workloads (im_App r) = filter (λ n, mapped (service_of proj n)) (pj_ServiceNames proj) ∧
    (∀ n, n ∈ pj_ServiceNames proj → ¬ mapped (service_of proj n) → skipped_warning n ∈ im_Report r).
Proof. intros Hp. by apply (import_valid convert_outside). Qed.

(** A node's runtimes start exactly when every provider whose policy is "required" is
    detected; the manager then dispatches a workload to a provider exactly when the provider is
    detected and not disabled, and reports each of the seven known kinds once, in order, with
    its policy, detection and registration. *)
Theorem runtime_startup `{UnicodeLower, ListSortLaws} policies env make :
  (∀ kind, pv_Kind (make kind) = kind) →
  (is_ok (runtime_module policies env make) = true ↔
     ∀ kind, kind ∈ KnownProviderKinds → runtimeProviderPolicy policies kind = RuntimeProviderPolicyRequired →
       ProviderAvailable env kind = true) ∧
  (∀ m, runtime_module policies env make = Ok m →
     ProviderStatuses m = status_of policies env <$> KnownProviderKinds ∧
     (∀ kind, HasProvider m kind = true ↔
        ∃ st, st ∈ ProviderStatuses m ∧ ps_Kind st = kind ∧ ps_Registered st = true) ∧
     (∀ meta w, manager_Deploy m meta w =
        if active policies env (w_Runtime w)
        then wrap "deploy workload %s" [AStr (w_Name w)] (pv_Deploy (make (w_Runtime w)) meta w)
        else Err (Errorf "runtime provider not registered: %s" [AStr (w_Runtime w)]))).
Proof. intros Hk. split; [by apply runtime_module_ok|]. intros m. by apply started_manager. Qed.

(** Under an absolute runtime root, the directory of a local volume is
    root/volumes/namespace/application/volume, and two volumes share it exactly when their
    sanitised namespaces, applications and names agree, as long as none of these is "." or
    ".."; the volume ".." is the directory of the whole namespace. *)
Theorem volumes_separate root :
  HasPrefix root "/" = true →
  (∀ meta volume, plain_volume meta volume →
     ∃ segs, Forall plain_segment segs ∧ path_Clean root = path_text segs ∧
       LocalVolumePath root meta volume = path_text (segs ++ volume_segments meta volume)) ∧
  (∀ meta volume meta' volume', plain_volume meta volume → plain_volume meta' volume' →
     LocalVolumePath root meta volume = LocalVolumePath root meta' volume' ↔
     SanitizeName (NamespaceOrDefault (md_Namespace meta)) = SanitizeName (NamespaceOrDefault (md_Namespace meta')) ∧
     SanitizeName (md_Name meta) = SanitizeName (md_Name meta') ∧ SanitizeName volume = SanitizeName volume') ∧
  (∀ meta, plain_volume meta "x" →
     ∃ segs, Forall plain_segment segs ∧ path_Clean root = path_text segs ∧
       LocalVolumePath root meta ".." =
       path_text (segs ++ (bytes_of <$> ["volumes"; SanitizeName (NamespaceOrDefault (md_Namespace meta))]))).
Proof.
  intros Hr. split_and!.
  - intros meta volume. by apply LocalVolumePath_spec.
  - intros meta volume meta' volume'. by apply LocalVolumePath_inj.
  - intros meta. by apply dotdot_volume.
Qed.

(** C27. A log request returns the last lines of the log, between 1 and 5000 of them: line ends
    are normalised to LF, every returned line is terminated, and an unterminated last line
    counts as a line. *)
Theorem log_tail ls p tail :
  Forall line_ok ls → newline ∉ p →
  (1 ≤ NormalizeTailLines tail ≤ 5000)%Z ∧
  ReadTailFile (Ok (Some (concat (line_text <$> ls) ++ p))) tail =
  Ok (unlines (lastn (Z.to_nat (NormalizeTailLines tail)) (ls.*1 ++ (if bool_decide (p = []) then [] else [p])))).
Proof. intros. split; [apply NormalizeTailLines_bounds|by apply ReadTailFile_spec]. Qed.

(** ** Runs *)
Import Concrete.

#[local] Instance identity_lower : UnicodeLower := λ r, r.
#[local] Instance keep_record : DnsLib := {| NormalizeRecord := Ok; RecordKey := rec_Name |}.

Definition dns_on : DNSConfig := mkDNSConfig true ":53" "orch.local" "" [] [] "".
Definition empty_host : Host := mkHost ∅ ∅ (mkDns true true true ∅ []) ∅ [].
Definition fine (pid : Z) : answers :=
  mkAnswers (Ok tt) (Ok tt) (Ok tt) (Ok tt) (Ok pid) (λ _, Ok tt) (λ _, Ok tt) true 0 (λ _, false) (Ok tt).

(** A workload that runs a command. *)
Definition command (name : string) : Workload :=
  mkWorkload name WorkloadKindWorker (mkRun (mkArtifact "" "" "") (mkExec ["/bin/serve"] []) [] "" ""
    (mkRunOptions None None None None None None)) RuntimeProcess 1 [] [] [] None None None None None.

Definition deploy_labels (tid : nat) (m : Metadata) (w : Workload) (pid : Z) : list label :=
  LDeploy tid m w :: repeat (LThread tid (fine pid)) 4.
Definition run_host : list label → Host → option Host := host_run dns_on "/var/lib/orch" "/var/lib/orch/process" true.
Definition state_of (m : Metadata) (name : string) : string := statePath "/var/lib/orch" "/var/lib/orch/process" m name.
Definition address_of (name : string) (h : Host) : option string := lookupLocalWorkloadIPv4 "" name (h_dns h).
Definition pid_of (m : Metadata) (name : string) (h : Host) : option Z := st_PID <$> h_files h !! state_of m name.

(** The process of the first deploy exits, its goroutine reaps it and removes its file; the
    workload is deployed again before that goroutine reaches its last line, which then removes
    the DNS record of the new process. *)
Definition redeploy : list label :=
  deploy_labels 0 (meta "shop") (command "api") 10 ++ LExit 10 :: repeat (LThread 0 (fine 0)) 3
  ++ deploy_labels 1 (meta "shop") (command "api") 11 ++ [LThread 0 (fine 0)].

Theorem redeploy_loses_dns_record :
  ∃ h, run_host redeploy empty_host = Some h ∧ runs h (state_of (meta "shop") "api") 11 ∧
    pid_of (meta "shop") "api" h = Some 11%Z ∧ address_of "api" h = None ∧
    (address_of "api" <$> run_host (take 13 redeploy) empty_host) = Some (Some "127.0.0.1").
Proof. eexists. split; [vm_compute; reflexivity|]. split_and!; vm_compute; reflexivity. Qed.

(** Two deploys of one workload that overlap: both find no state, both start a process, and
    the state file names the second only. *)
Definition overlapping : list label :=
  [LDeploy 0 (meta "shop") (command "api"); LDeploy 1 (meta "shop") (command "api");
   LThread 0 (fine 0); LThread 1 (fine 0)] ++ repeat (LThread 0 (fine 10)) 3 ++ repeat (LThread 1 (fine 11)) 3.

Theorem overlapping_deploys_lose_a_process :
  ∃ h, run_host overlapping empty_host = Some h ∧ runs h (state_of (meta "shop") "api") 10 ∧
    runs h (state_of (meta "shop") "api") 11 ∧ pid_of (meta "shop") "api" h = Some 11%Z ∧
    h_results h = [(state_of (meta "shop") "api", Ok tt); (state_of (meta "shop") "api", Ok tt)].
Proof. eexists. split; [vm_compute; reflexivity|]. split_and!; vm_compute; reflexivity. Qed.

(** The goroutine of an exited process reads its pid in the state file; a deploy replaces the
    file; the goroutine then removes the file of the new process. *)
Definition stale_cleanup : list label :=
  deploy_labels 0 (meta "shop") (command "api") 10 ++ LExit 10 :: repeat (LThread 0 (fine 0)) 2
  ++ LDeploy 1 (meta "shop") (command "api") :: repeat (LThread 1 (fine 11)) 5 ++ [LThread 0 (fine 0)].

Theorem stale_cleanup_removes_the_new_state :
  ∃ h, run_host stale_cleanup empty_host = Some h ∧ runs h (state_of (meta "shop") "api") 11 ∧
    pid_of (meta "shop") "api" h = None.
Proof. eexists. split; [vm_compute; reflexivity|]. split_and!; vm_compute; reflexivity. Qed.

(** "-" joins the parts of a state file's name and may occur in them: stopping workload "b-c"
    of application "a" kills the process of workload "c" of application "a-b". *)
Theorem colliding_names_stop_each_other :
  ∃ h, run_host (deploy_labels 0 (meta "a-b") (command "c") 10
                 ++ LStop 1 (meta "a") "b-c" :: repeat (LThread 1 (fine 0)) 5) empty_host = Some h ∧
    h_procs h !! 10%Z = Some (mkProc (state_of (meta "a-b") "c") Doomed) ∧
    pid_of (meta "a-b") "c" h = None ∧ list.last (h_results h) = Some (state_of (meta "a") "b-c", Ok tt).
Proof. eexists. split; [vm_compute; reflexivity|]. split_and!; vm_compute; reflexivity. Qed.

(** A stop whose signals are refused reports success: the error of the kill is only logged, and
    the state file of the process, which runs on, is removed. *)
Definition refused : answers :=
  mkAnswers (Ok tt) (Ok tt) (Ok tt) (Ok tt) (Ok 0%Z) (λ _, Ok tt) (λ _, Ok tt) true 0 (λ _, true)
    (Err (Errorf "operation not permitted" [])).

Theorem refused_kill_loses_the_process :
  ∃ h, run_host (deploy_labels 0 (meta "shop") (command "api") 10
                 ++ LStop 1 (meta "shop") "api" :: repeat (LThread 1 refused) 4) empty_host = Some h ∧
    runs h (state_of (meta "shop") "api") 10 ∧ pid_of (meta "shop") "api" h = None ∧
    list.last (h_results h) = Some (state_of (meta "shop") "api", Ok tt).
Proof. eexists. split; [vm_compute; reflexivity|]. split_and!; vm_compute; reflexivity. Qed.

(** ** The hypotheses can be met *)







(** A project with an API, the database it needs and a service that is only built. *)
Definition compose_service (image : string) (deps : gmap string string) : ComposeService :=
  mkComposeService image [] [] ∅ "" 1 [mkPort 8080 "8080" "tcp" ""] deps None None [] "" false ∅ ∅.
Definition compose_shop : ComposeProject :=
  mkProject "shop" 0 ∅ ["api"; "db"; "tool"]
    {["api" := compose_service "api:1" {["db" := ServiceConditionStarted]}; "db" := compose_service "db:1" ∅;
      "tool" := compose_service "" ∅]}.

Lemma compose_shop_imports n : imports compose_shop n → n = "api" ∨ n = "db".
Proof.
  intros [Hn Hm]. cbn [pj_ServiceNames compose_shop] in Hn. rewrite !elem_of_cons in Hn.
  destruct Hn as [->|[->|[->|Hn]]]; [by left|by right| |by apply not_elem_of_nil in Hn].
  exfalso. apply Hm. vm_compute. reflexivity.
Qed.

Lemma compose_shop_depends n d : is_Some (sc_DependsOn (service_of compose_shop n) !! d) → imports compose_shop n → n = "api" ∧ d = "db".
Proof.
  intros Hd [->| ->]%compose_shop_imports; destruct Hd as [c Hd].
  - change (sc_DependsOn (service_of compose_shop "api")) with ({["db" := ServiceConditionStarted]} : gmap string string) in Hd.
    by apply lookup_singleton_Some in Hd as [<- _].
  - change (sc_DependsOn (service_of compose_shop "db")) with (∅ : gmap string string) in Hd. by rewrite lookup_empty in Hd.
Qed.

Lemma compose_import_valid_witness :
  ∃ r, MapProject (λ _, 0%Z) (Some compose_shop) = Ok r ∧ Validate (im_App r) = Ok tt ∧
    w_Name <$> app_Workloads (im_App r) = ["api"; "db"].
Proof.
  destruct (compose_import_valid (λ _, 0%Z) compose_shop) as (r & Hr & Hv & Hn & _).
  - split.
    + apply Nat.leb_le. vm_compute. reflexivity.
    + apply (bool_decide_unpack _). vm_compute. reflexivity.
    + exists "db". split; [apply (bool_decide_unpack _); vm_compute; reflexivity|]. intros E. vm_compute in E. done.
    + intros n Hn. assert (service_of compose_shop n = compose_service "api:1" {["db" := ServiceConditionStarted]} ∨
        service_of compose_shop n = compose_service "db:1" ∅) as Hs.
      { apply compose_shop_imports in Hn as [->| ->]; [left|right]; vm_compute; reflexivity. }
      split_and!.
      * apply compose_shop_imports in Hn as [->| ->]; vm_compute; reflexivity.
      * destruct Hs as [->| ->]; apply Forall_singleton; split_and!; cbn; try lia.
        all: intros *; first [intros E; vm_compute in E; injection E as <-; right; split; lia | intros E; by destruct E].
      * intros k [v Hk]. by destruct Hs as [Hs|Hs]; rewrite Hs in Hk; cbn in Hk; rewrite lookup_empty in Hk.
      * by destruct Hs as [->| ->].
    + intros n d Hn Hd. destruct (compose_shop_depends n d Hd Hn) as [_ ->].
      split; [apply (bool_decide_unpack _); vm_compute; reflexivity|]. intros E. vm_compute in E. done.
    + intros x Hx. assert (∀ a b, tc (λ d n, imports compose_shop n ∧ is_Some (sc_DependsOn (service_of compose_shop n) !! d)) a b →
        a = "db" ∧ b = "api") as Hall.
      { intros a b Hab. induction Hab as [a b [Hi Hd]|a b c [Hi Hd] _ [Hb Hc]].
        - by destruct (compose_shop_depends b a Hd Hi).
        - destruct (compose_shop_depends b a Hd Hi) as [-> ->]. done. }
      by destruct (Hall x x Hx) as [-> ?].
  - exists r. split; [exact Hr|]. split; [exact Hv|]. rewrite Hn. vm_compute. reflexivity.
Defined.

Definition provider (kind : string) : Provider := mkProvider kind (λ _ _, Ok tt) (λ _ _, Ok tt) None None.
Definition laptop : Environment := mkEnv "linux" true false false false true false false.

Lemma runtime_startup_witness :
  is_ok (runtime_module {[RuntimeDocker := "Required"]} laptop provider) = true ∧
  is_ok (runtime_module {[RuntimePodman := "required"]} laptop provider) = false.
Proof.
  split.
  - destruct (runtime_startup {[RuntimeDocker := "Required"]} laptop provider) as [[_ Hok] _]; [reflexivity|].
    apply Hok. intros kind Hk. revert Hk.
    unfold KnownProviderKinds. rewrite !elem_of_cons, elem_of_nil.
    intros [->|[->|[->|[->|[->|[->|[->|[]]]]]]]] E; vm_compute in E; try discriminate E; vm_compute; reflexivity.
  - vm_compute. reflexivity.
Defined.

Lemma volumes_separate_witness :
  LocalVolumePath "/var/lib/orch" (meta "shop") "data" ≠ LocalVolumePath "/var/lib/orch" (meta "shop-data") "x".
Proof.
  destruct (volumes_separate "/var/lib/orch") as (_ & Hinj & _); [vm_compute; reflexivity|].
  rewrite Hinj; [|apply (bool_decide_unpack _); vm_compute; reflexivity..].
  intros (_ & E & _). vm_compute in E. discriminate E.
Defined.

Lemma log_tail_witness :
  ReadTailFile (Ok (Some (bytes_of "a" ++ [carriage; newline] ++ bytes_of "b" ++ [newline] ++ bytes_of "c"))) 2 =
  Ok (bytes_of "b" ++ [newline] ++ bytes_of "c" ++ [newline]).
Proof.
  destruct (log_tail [(bytes_of "a", true); (bytes_of "b", false)] (bytes_of "c") 2) as [_ E].
  - apply Forall_cons. split; [|apply Forall_singleton]; (split; [apply (bool_decide_unpack _); vm_compute; reflexivity|]);
      cbn; by intros.
  - apply (bool_decide_unpack _). vm_compute. reflexivity.
  - etrans; [exact E|]. vm_compute. reflexivity.
Defined.

(** ** The systemd runtime *)
Section systemd_theorems.
Context `{UnicodeLower, DnsLib, ManagerLaws, UnicodePrint}.
Context (cfg : DNSConfig) (save delete_record : DnsRecord → res unit) (has_dns : bool).
Context (serialize : list UnitOption → string).
Context (data root : string) (mkdirAll writeFile readFile removeFile : SdHost → string → res unit).
Context (unit_residue : SdHost → string → option string) (state_residue : SdHost → string → option (res sdState)).
Context (now : SdHost → Z).
Abbreviation Deploy := (systemd_Deploy cfg save delete_record has_dns serialize data root mkdirAll writeFile removeFile
  unit_residue state_residue now).
Abbreviation Stop := (systemd_Stop cfg delete_record has_dns data root readFile removeFile).

(** The unit of a workload is a file directly in the directory of the system's units. *)
Theorem systemd_unit_file meta w :
  ∃ name, systemdUnitPath (workloadUnitName meta w) = "/etc/systemd/system/" +:+ name ∧ "/"%char ∉ bytes_of name.
Proof.
  exists (workloadUnitName meta w). pose proof (unit_name_service meta w) as Hs. split; [by apply unit_path_text|apply Hs].
Qed.

(** C19. A deploy by systemd changes one unit file and one state file.  When it succeeds the unit
    file is the rendered one, the state file names it and the unit runs.  When it fails up to
    writing the unit file, the state file is as before, and the unit file is as before or the
    rest of the write that failed; when it fails later, the unit file it wrote is gone, unless
    removing it was refused, and the state file is as before, gone, the rest of a write that
    failed, or the new one because removing it was refused. *)
Theorem systemd_deploy_outcomes meta w h r h' :
  Deploy meta w h = (r, h') →
  touches (systemdUnitPath (workloadUnitName meta w)) (sd_statePath data root meta (w_Name w)) h h' ∧
  match r with
  | Ok _ => deployed serialize data root meta w h h'
  | Err _ => undone serialize data root removeFile unit_residue state_residue meta w h h'
  end.
Proof.
  intros E. split.
  - pose proof (deploy_touches cfg save delete_record has_dns serialize data root mkdirAll writeFile removeFile unit_residue
      state_residue now meta w h) as Ht. by rewrite E in Ht.
  - destruct r as [[]|e]; [by eapply deploy_ok|by eapply deploy_err].
Qed.

(** A stop that succeeds after a deploy that succeeded leaves neither its unit file nor its state
    file, whatever name the unit has, and touches no other. *)
Theorem systemd_stop_ends_deploy meta w h h1 h2 :
  (∀ h p e, removeFile h p = Err e → Is_NotExist e = false) →
  Deploy meta w h = (Ok tt, h1) → readFile h1 (sd_statePath data root meta (w_Name w)) = Ok tt →
  Stop meta (w_Name w) h1 = (Ok tt, h2) →
  sh_files h2 = delete (systemdUnitPath (workloadUnitName meta w)) (sh_files h) ∧
  sh_states h2 = delete (sd_statePath data root meta (w_Name w)) (sh_states h).
Proof. intros Hh Hd Hr Hs. by eapply stop_after_deploy. Qed.

(** The system manager reads from a command line the executable and the arguments it was made of,
    for texts of ASCII without a dollar. *)
Theorem systemd_command_roundtrip env exe args :
  Forall (λ s, arg_text s ∧ "$"%char ∉ bytes_of s) (exe :: args) →
  argv env (systemdCommandLine exe args) = Some (exe :: args).
Proof.
  intros Ha. rewrite argv_command by (eapply Forall_impl; [exact Ha|]; naive_solver). f_equal.
  rewrite <-(list_fmap_id (exe :: args)) at 2. apply list_fmap_ext. intros i s Hs. cbn.
  rewrite expand_plain; [apply of_bytes_bytes_of|]. eapply Forall_lookup_1 in Ha; [|exact Hs]. apply Ha.
Qed.

(** Without a state file a stop fails, though the status is still answered. *)
Theorem systemd_stop_needs_state meta name h : sh_states h !! sd_statePath data root meta name = None →
  Stop meta name h = (Err (Wrapf ErrNotExist "read systemd state" []), h) ∧
  statusUnitName data root readFile meta name h = (Ok (DefaultUnitName meta name, 0%Z), h).
Proof.
  intros E. split; [by apply stop_without_state|].
  unfold statusUnitName, mbind, SE_bind. rewrite attempt_eq. unfold readState. by rewrite E.
Qed.
End systemd_theorems.

(** A variable in an argument is replaced: only the per cent sign is escaped. *)
Example systemd_dollar_expands `{UnicodePrint} :
  argv (λ _, bytes_of "/root") (systemdCommandLine "/bin/echo" ["${HOME}"]) = Some ["/bin/echo"; "/root"].
Proof. apply argv_command. repeat constructor. Qed.

(** A manager that keeps the set of the units that run. *)
#[local] Instance ascii_only : UnicodePrint := λ _, false.
#[local] Instance unit_set : SystemManager := {|
  manager := gset string;
  sm_Connect m := (Ok tt, m); sm_Reload m := (Ok tt, m);
  sm_StartUnit u m := (JobResult "done", {[u]} ∪ m); sm_StopUnit u m := (JobResult "done", m ∖ {[u]});
  sm_EnableUnitFiles _ m := (Ok tt, m); sm_DisableUnitFiles _ m := (Ok tt, m);
  sm_ListUnitsByNames u m := (Ok (if bool_decide (u ∈ m) then [mkUnitStatus u "loaded" "active" "running"] else []), m);
  sm_Journal _ _ := ("", None); unit_running m u := bool_decide (u ∈ m) |}.
#[local] Instance unit_set_laws : ManagerLaws.
Proof.
  split; [intros u m m' [= <-]; apply bool_decide_eq_true_2; set_solver|intros u m m' [= <-]; apply bool_decide_eq_false_2; set_solver|done|done].
Qed.
Definition fine_files : SdHost → string → res unit := λ _ _, Ok tt.
Definition unit_text (opts : list UnitOption) : string := String.concat " " (uo_Value <$> opts).
Definition bare_host : SdHost := mkSdHost ∅ ∅ ∅ NewDns.
Definition daemon : Workload :=
  mkWorkload "api" WorkloadKindService (mkRun (mkArtifact "" "" "/opt/api") (mkExec ["/opt/api"; "100%"] []) [] "" ""
    (mkRunOptions None None None None None None)) RuntimeSystemd 1 [] [] [] None None None None None.
Definition dns_off : DNSConfig := mkDNSConfig false "" "" "" [] [] "".
Definition no_residue {A} : SdHost → string → option A := λ _ _, None.
Definition deploy_daemon : res unit * SdHost :=
  systemd_Deploy dns_off (λ _, Ok tt) (λ _, Ok tt) true unit_text "/var/lib/orch" "" fine_files fine_files fine_files
    no_residue no_residue (λ _, 5%Z) (meta "shop") daemon bare_host.
Definition stop_daemon : res unit * SdHost :=
  systemd_Stop dns_off (λ _, Ok tt) true "/var/lib/orch" "" fine_files fine_files (meta "shop") "api" deploy_daemon.2.

Lemma run_result {A B} (p : A * B) a : p.1 = a → p = (a, p.2).
Proof. destruct p. cbn. by intros ->. Qed.

Lemma systemd_deploy_outcomes_witness :
  deployed unit_text "/var/lib/orch" "" (meta "shop") daemon bare_host deploy_daemon.2.
Proof.
  destruct deploy_daemon as [r h'] eqn:E. pose proof E as E'.
  apply systemd_deploy_outcomes in E as [_ Hr].
  assert (r = Ok tt) as -> by (apply (f_equal fst) in E'; vm_compute in E'; by rewrite <-E'). exact Hr.
Defined.

Lemma systemd_stop_ends_deploy_witness : sh_files stop_daemon.2 = ∅.
Proof.
  assert (deploy_daemon = (Ok tt, deploy_daemon.2)) as E1 by (apply run_result; vm_compute; reflexivity).
  assert (stop_daemon = (Ok tt, stop_daemon.2)) as E2 by (apply run_result; vm_compute; reflexivity).
  pose proof (systemd_stop_ends_deploy dns_off (λ _, Ok tt) (λ _, Ok tt) true unit_text "/var/lib/orch" "" fine_files fine_files
    fine_files fine_files no_residue no_residue (λ _, 5%Z) (meta "shop") daemon bare_host deploy_daemon.2 stop_daemon.2) as [Hf _].
  - by intros h p e [=].
  - exact E1.
  - reflexivity.
  - exact E2.
  - etrans; [exact Hf|]. apply delete_empty.
Defined.

Lemma systemd_command_roundtrip_witness :
  argv (λ _, []) (systemdCommandLine "/opt/my api" ["--rate"; "100%"; "say \n"]) = Some ["/opt/my api"; "--rate"; "100%"; "say \n"].
Proof.
  apply (systemd_command_roundtrip (λ _, []) "/opt/my api" ["--rate"; "100%"; "say \n"]).
  repeat constructor; apply (bool_decide_unpack _); vm_compute; reflexivity.
Defined.

(** ** The Firecracker runtime *)

(** A Firecracker workload that validation accepts has a machine that can be started, unless it has
    mounts. *)
Theorem firecracker_accepts_valid data root meta w :
  validateFirecrackerRuntime w = Ok tt → w_Mounts w = [] → ∃ c, BuildConfig data root meta w = Ok c ∧ startable c.
Proof. apply valid_config_builds. Qed.

(** The interface id of a document does not reach the machine: whatever it is, a workload with a tap
    device has the same network interfaces. *)
Theorem firecracker_interface_id_ignored data root meta w o id :
  TrimSpace (fc_TapDeviceName o) ≠ "" →
  mc_NetworkInterfaces (firecrackerMachineConfig (baseVMConfig data root meta w o)) =
  mc_NetworkInterfaces (firecrackerMachineConfig (baseVMConfig data root meta w
    (mkFirecracker (fc_KernelImagePath o) (fc_RootfsPath o) (fc_BootArgs o) (fc_BinaryPath o) (fc_SocketPath o)
       (fc_RootfsReadOnly o) id (fc_TapDeviceName o) (fc_GuestMAC o) (fc_AllowMMDSRequests o) (fc_VCPUCount o) (fc_MemSizeMiB o)))).
Proof. intros Ht. cbn. unfold firecrackerNetworkConfig. cbn. by destruct (String.eqb_spec (TrimSpace (fc_TapDeviceName o)) ""). Qed.

Section firecracker_theorems.
Context `{MachineLib, PollingLaws} (data root : string) (ctxErr : FcHost → res unit).
Context (mkdirAll openFile writeFile readFile removeFile : FcHost → string → res unit).
Context (residue : FcHost → string → option (res fcState)) (now : FcHost → Z).

Abbreviation fc_Deploy := (firecracker_Deploy data root mkdirAll openFile writeFile readFile removeFile residue now).
Abbreviation fc_Stop := (firecracker_Stop data root ctxErr readFile removeFile).
Abbreviation fc_run := (run_ops data root ctxErr mkdirAll openFile writeFile readFile removeFile residue now).

(** A deploy that succeeds started a machine of the workload's configuration and recorded it; one
    that fails leaves the table of machines and the goroutines as they are, and of its state file
    what was there, nothing, or the rest of a write that failed. *)
Theorem firecracker_deploy_outcomes meta w h :
  match fc_Deploy meta w h with
  | (Ok _, h') => fc_deployed data root meta w h h'
  | (Err _, h') =>
      fh_running h' = fh_running h ∧ fh_waiters h' = fh_waiters h ∧
      ∃ o, fh_states h' = partial_alter (λ _, o) (fc_statePath data root meta (w_Name w)) (fh_states h) ∧
        (o = fh_states h !! fc_statePath data root meta (w_Name w) ∨ o = None ∨
         ∃ h1, o = residue h1 (fc_statePath data root meta (w_Name w)))
  end.
Proof.
  destruct (fc_Deploy meta w h) as [[[]|e] h'] eqn:E; [by eapply fc_deploy_ok|by eapply fc_deploy_err].
Qed.

(** C20. A stop that succeeds after a deploy that succeeded removes what the deploy recorded, and nothing
    else, and the process of the machine was seen gone or was killed. *)
Theorem firecracker_stop_ends_deploy meta w h h1 h2 :
  (∀ h p e, removeFile h p = Err e → Is_NotExist e = false) →
  fc_Deploy meta w h = (Ok tt, h1) → readFile h1 (fc_statePath data root meta (w_Name w)) = Ok tt →
  fc_Stop meta (w_Name w) h1 = (Ok tt, h2) →
  fh_states h2 = delete (fc_statePath data root meta (w_Name w)) (fh_states h) ∧
  fh_running h2 = delete (runningKey meta (w_Name w)) (fh_running h) ∧
  ∃ m o1 pid o, sdk_Start m o1 = (Ok tt, fh_outside h1) ∧ sdk_PID m (fh_outside h1) = Ok pid ∧ gone pid o ∧
    (fh_outside h2 = o ∨ ∃ p, fh_outside h2 = os_RemoveSocket p o).
Proof.
  intros Hh Hd Hr Hs. apply fc_deploy_ok in Hd as (c & m & o0 & o1 & pid & st & _ & _ & Hst & Hp & S1 & Hpid & _ & R1 & _).
  apply (fc_stop_ok _ _ _ _ _ _ _ _ st) in Hs as (S2 & R2 & _ & o & G & O2); [|done|by rewrite S1, lookup_insert_eq|done].
  rewrite S2, R2, S1, R1, Hpid, untrack_insert, delete_insert_eq. split; [done|]. split; [done|].
  exists m, o1, pid, o. rewrite <-Hpid at 2. split_and!; try done. destruct (fs_APISocket st =? "")%string; eauto.
Qed.

(** Whatever deploys, stops and ends of machines happen, in any order and however they fail, every
    entry of the table of machines has the goroutine that will remove it: when none is left the
    table is empty. *)
Theorem firecracker_table_settles ops h : fh_running h = ∅ →
  waited_for (fc_run ops h) ∧ (fh_waiters (fc_run ops h) = [] → fh_running (fc_run ops h) = ∅).
Proof.
  intros Hr. assert (waited_for (fc_run ops h)) as Hw by (apply ops_waited; intros k vm; by rewrite Hr).
  split; [done|]. intros He. apply map_empty. intros k. destruct (fh_running (fc_run ops h) !! k) as [vm|] eqn:E; [|done].
  destruct (Hw k vm E) as (t & Ht & _). rewrite He in Ht. by apply not_elem_of_nil in Ht.
Qed.

(** The goroutine of an older machine leaves the state and the entry of a newer one alone. *)
Theorem firecracker_waiter_spares_newer t h st vm :
  fh_states h !! fc_statePath data root (wt_meta t) (wt_workload t) = Some (Ok st) → fs_PID st ≠ wt_pid t →
  fh_running h !! runningKey (wt_meta t) (wt_workload t) = Some vm → rv_pid vm ≠ wt_pid t →
  fh_states (waitVMM data root readFile removeFile t h).2 = fh_states h ∧
  fh_running (waitVMM data root readFile removeFile t h).2 = fh_running h.
Proof.
  intros Es Hp Er Hv. destruct (waitVMM_run data root readFile removeFile t h) as (_ & R & S & _). split.
  - destruct S as [->|(_ & st' & Es' & Hp')]; [done|]. congruence.
  - rewrite R. unfold untrack. rewrite Er. by destruct (Z.eqb_spec (rv_pid vm) (wt_pid t)).
Qed.
End firecracker_theorems.

(** A host that keeps the next process id, the processes that live and the sockets. *)
Record vmHost := mkVmHost { vh_next : Z; vh_alive : gset Z; vh_sockets : gset string }.
Definition vm_kill (pid : Z) (o : vmHost) : vmHost := mkVmHost (vh_next o) (vh_alive o ∖ {[pid]}) (vh_sockets o).
#[local] Instance machines : MachineLib := {|
  outside := vmHost; machine := string * Z;
  sdk_NewMachine cmd _ o := (Ok (cmd_SocketPath cmd, vh_next o), mkVmHost (vh_next o + 1) (vh_alive o) (vh_sockets o));
  sdk_Start m o := (Ok tt, mkVmHost (vh_next o) ({[m.2]} ∪ vh_alive o) ({[m.1]} ∪ vh_sockets o));
  sdk_PID m _ := Ok m.2; sdk_StopVMM m o := (Ok tt, vm_kill m.2 o); sdk_WaitFor _ _ o := o; sdk_Wait _ o := o;
  os_Alive pid o := (bool_decide (pid ∈ vh_alive o), o); os_Terminate pid o := (Ok tt, vm_kill pid o); os_Kill := vm_kill;
  os_RemoveSocket p o := mkVmHost (vh_next o) (vh_alive o) (vh_sockets o ∖ {[p]}) |}.
#[local] Instance ask_once : Polling := {|
  Retry_for S A _ op s :=
    match op s with
    | (Effects.Done a, s') => (RetryDone a, s')
    | (Effects.Permanent e, s') | (Effects.Again e, s') => (RetryFailed e, s')
    end;
  DeadlineExceeded := Errorf "context deadline exceeded" [] |}.
#[local] Instance ask_once_laws : PollingLaws.
Proof. intros S A timeout op s. exists 1. split; [lia|]. cbn. destruct (op s) as [[] ?]; cbn; eauto. Qed.

Definition vm_options : FirecrackerOptions :=
  mkFirecracker " /images/vmlinux " "/images/root.ext4" "" "" "" true "eth7" "tap0" "" false 0 512.
Definition vm : Workload :=
  mkWorkload "api" WorkloadKindService (mkRun (mkArtifact "" "" "") (mkExec [] []) [] "" ""
    (mkRunOptions None None (Some vm_options) None None None)) RuntimeFirecracker 1 [] [] [] None None None None None.
Definition fc_fine : FcHost → string → res unit := λ _ _, Ok tt.
Definition vm_host : FcHost := mkFcHost (mkVmHost 41 ∅ ∅) ∅ ∅ [].
Definition vm_ops (ops : list fc_op) (h : FcHost) : FcHost :=
  run_ops "/var/lib/orch" "" (λ _, Ok tt) fc_fine fc_fine fc_fine fc_fine fc_fine (λ _ _, None) (λ _, 7%Z) ops h.
Definition deploy_vm : res unit * FcHost :=
  firecracker_Deploy "/var/lib/orch" "" fc_fine fc_fine fc_fine fc_fine fc_fine (λ _ _, None) (λ _, 7%Z) (meta "shop") vm vm_host.
Definition stop_vm : res unit * FcHost :=
  firecracker_Stop "/var/lib/orch" "" (λ _, Ok tt) fc_fine fc_fine (meta "shop") "api" deploy_vm.2.

Lemma firecracker_accepts_valid_witness : ∃ c, BuildConfig "/var/lib/orch" "" (meta "shop") vm = Ok c ∧ startable c.
Proof. apply firecracker_accepts_valid; reflexivity. Defined.

Lemma firecracker_interface_id_ignored_witness :
  mc_NetworkInterfaces (firecrackerMachineConfig (baseVMConfig "" "" (meta "shop") vm vm_options)) = [mkInterface "tap0" "" false].
Proof.
  etrans; [apply (firecracker_interface_id_ignored "" "" (meta "shop") vm vm_options ""); by vm_compute|]. by vm_compute.
Defined.

Lemma firecracker_stop_ends_deploy_witness : fh_running stop_vm.2 = ∅ ∧ bool_decide (vh_alive (fh_outside stop_vm.2) = ∅) = true.
Proof.
  assert (deploy_vm = (Ok tt, deploy_vm.2)) as E1 by (apply run_result; vm_compute; reflexivity).
  assert (stop_vm = (Ok tt, stop_vm.2)) as E2 by (apply run_result; vm_compute; reflexivity).
  pose proof (firecracker_stop_ends_deploy "/var/lib/orch" "" (λ _, Ok tt) fc_fine fc_fine fc_fine fc_fine fc_fine (λ _ _, None)
    (λ _, 7%Z) (meta "shop") vm vm_host deploy_vm.2 stop_vm.2) as (_ & Hr & _).
  - by intros h p e [=].
  - exact E1.
  - reflexivity.
  - exact E2.
  - split; [etrans; [exact Hr|apply delete_empty]|]. by vm_compute.
Defined.

Definition vm_day : list fc_op :=
  [OpDeploy (meta "shop") vm; OpStop (meta "shop") "api"; OpDeploy (meta "shop") vm; OpEnd 0; OpEnd 0].
Lemma firecracker_table_settles_witness : fh_running (vm_ops vm_day vm_host) = ∅.
Proof.
  apply (firecracker_table_settles "/var/lib/orch" "" (λ _, Ok tt) fc_fine fc_fine fc_fine fc_fine fc_fine (λ _ _, None) (λ _, 7%Z)
    vm_day vm_host); [reflexivity|].
  apply length_zero_iff_nil. change (length (fh_waiters (vm_ops vm_day vm_host)) = 0). vm_compute. reflexivity.
Defined.

(** A machine that ended while its goroutine had not run yet, and the workload deployed again. *)
Definition crashed (h : FcHost) : FcHost :=
  mkFcHost (mkVmHost (vh_next (fh_outside h)) ∅ (vh_sockets (fh_outside h))) (fh_states h) (fh_running h) (fh_waiters h).
Definition redeployed : FcHost := vm_ops [OpDeploy (meta "shop") vm] (crashed deploy_vm.2).
Definition vm_socket := "/var/lib/orch/runtime/firecracker/sockets/default-shop-api.sock".
Definition old_waiter : waiter := mkWaiter (meta "shop") "api" (vm_socket, 41%Z) 41 vm_socket.

Lemma firecracker_waiter_spares_newer_witness :
  fh_running (waitVMM "/var/lib/orch" "" fc_fine fc_fine old_waiter redeployed).2 = fh_running redeployed.
Proof.
  destruct (fh_running redeployed !! runningKey (meta "shop") "api") as [vm'|] eqn:E;
    [|apply (f_equal (from_option rv_pid 0%Z)) in E; vm_compute in E; discriminate].
  apply (firecracker_waiter_spares_newer "/var/lib/orch" "" fc_fine fc_fine old_waiter redeployed
    (mkFcState 42 vm_socket (Some (mkNetwork "eth7" "tap0" "" false)) (meta "shop") "api" RuntimeFirecracker "/images/root.ext4" 7) vm');
    [vm_compute; reflexivity|done|exact E|].
  apply (f_equal (from_option rv_pid 0%Z)) in E. cbn [from_option] in E. rewrite <-E. by vm_compute.
Defined.

(** The goroutine of the machine that ended removes the socket of the one that runs now. *)
Example stale_waiter_removes_socket :
  bool_decide (vm_socket ∈ vh_sockets (fh_outside redeployed)) = true ∧
  bool_decide (42%Z ∈ vh_alive (fh_outside (vm_ops [OpEnd 0] redeployed))) = true ∧
  bool_decide (vm_socket ∈ vh_sockets (fh_outside (vm_ops [OpEnd 0] redeployed))) = false.
Proof. split_and!; vm_compute; reflexivity. Qed.

(** ** The Windows service runtime *)
Section windows_theorems.
Context `{UnicodeLower, DnsLib, ServiceManagerLaws, PollingLaws}.
Context (cfg : DNSConfig) (save delete_record : DnsRecord → res unit) (has_dns : bool) (data root : string).
Context (ctxErr : WinHost → res unit) (mkdirAll writeFile readFile removeFile : WinHost → string → res unit).
Context (residue : WinHost → string → option (res winState)) (now : WinHost → Z).

Abbreviation win_Deploy := (windows_Deploy cfg save delete_record has_dns data root ctxErr mkdirAll writeFile removeFile residue now).
Abbreviation win_Stop := (windows_Stop cfg delete_record has_dns data root ctxErr readFile removeFile).


(** A stop that succeeds after a deploy that succeeded leaves the services and the state files as
    they were, when an existing service can be opened. *)
Theorem windows_stop_ends_deploy meta w h h1 h2 :
  (∀ h p e, removeFile h p = Err e → win_NotExist e = false) →
  (∀ n s, is_Some (registered s !! n) → is_ok (sc_OpenService n s).1 = true) →
  TrimSpace (workloadServiceName meta w) ≠ "" →
  win_Deploy meta w h = (Ok tt, h1) → readFile h1 (win_statePath data root meta (w_Name w)) = Ok tt →
  win_Stop meta (w_Name w) h1 = (Ok tt, h2) →
  registered (wh_scm h2) = registered (wh_scm h) ∧
  wh_states h2 = delete (win_statePath data root meta (w_Name w)) (wh_states h).
Proof.
  intros Hh Ho Hn Hd Hr Hs. apply deploy_success in Hd as (spec & st & _ & Hfree & R1 & S1 & Hst).
  assert (stopServiceName data root readFile meta (w_Name w) h1 = (Ok (workloadServiceName meta w), h1)) as En.
  { rewrite <-Hst. apply stop_name; [by rewrite S1, lookup_insert_eq|done|by rewrite Hst]. }
  eapply stop_success in Hs as [R2 S2]; [|done..|rewrite R1, lookup_insert_eq; by eexists].
  rewrite R2, S2, R1, S1, delete_insert_id, delete_insert_eq by done. done.
Qed.

(** A service that cannot be opened is taken for one that does not exist: the stop succeeds, the
    state is forgotten and the service stays. *)
Theorem windows_stop_forgets meta n h st :
  ctxErr h = Ok tt → readFile h (win_statePath data root meta n) = Ok tt → (∀ h p, removeFile h p = Ok tt) →
  wh_states h !! win_statePath data root meta n = Some (Ok st) → TrimSpace (ws_ServiceName st) ≠ "" →
  is_ok (sc_Connect (wh_scm h)).1 = true → (∀ s, is_ok (sc_OpenService (ws_ServiceName st) s).1 = false) →
  ∃ h', win_Stop meta n h = (Ok tt, h') ∧ registered (wh_scm h') = registered (wh_scm h) ∧
    wh_states h' = delete (win_statePath data root meta n) (wh_states h).
Proof.
  intros Hc Hr Hm Es Hn Hcon Ho. unfold windows_Stop, annotate, mbind, SE_bind. rewrite Hc, (stop_name _ _ _ _ _ _ _ Es Hr Hn).
  unfold win_call at 1. pose proof (connect_registered (wh_scm h)) as R1. destruct (sc_Connect (wh_scm h)) as [[[]|] s1]; [|done].
  unfold deferring. rewrite attempt_eq. unfold win_call. cbn. specialize (Ho s1).
  pose proof (open_registered (ws_ServiceName st) s1) as R2. destruct (sc_OpenService _ s1) as [[|e] s2]; [done|]. cbn in *.
  unfold cleanupMissingService, mbind, SE_bind, win_removeState, remove_state.
  destruct has_dns; cbn.
  - unfold win_cleanupRemoveDNS, mbind, SE_bind. rewrite attempt_eq. unfold win_dns. cbn.
    destruct (RemoveWorkloadA _ _ _ _ _) as [r d]. cbn. rewrite Es, Hm. eexists. split; [reflexivity|]. cbn.
    by rewrite disconnect_registered, R2, R1.
  - rewrite Es, Hm. eexists. split; [reflexivity|]. cbn. by rewrite disconnect_registered, R2, R1.
Qed.

(** A workload whose start type is [disabled] is never deployed: its service is created so that it
    cannot be started. *)
Theorem windows_disabled_never_deploys meta w h :
  serviceStartType w = Ok StartDisabled → is_ok (win_Deploy meta w h).1 = false.
Proof.
  intros Ht. destruct (win_Deploy meta w h) as [[[]|e] h'] eqn:E; [|done]. exfalso.
  apply win_deploy_cases in E as [(e & [=] & _)|(spec & h1 & v & s & h2 & Hs & _ & Ec & Es & _)].
  apply create_ok in Ec as (Hv & _ & Hr). apply start_ok in Es as (_ & Hok & _). cbn in Hok.
  assert (sc_StartType (service_config spec) = StartDisabled) as Hd.
  { unfold deployServiceSpec_of in Hs. destruct (ProcessCommand (w_Run w)) as [[exe args]|]; [|done]. rewrite Ht in Hs.
    by injection Hs as <-. }
  pose proof (disabled_stays v s (service_config spec)) as Hf. rewrite Hv, Hr, lookup_insert_eq in Hf.
  rewrite Hf in Hok by done. done.
Qed.

(** Where no workload was deployed yet the directory of the states does not exist, and a stop fails. *)
Theorem windows_stop_needs_directory meta n h : ctxErr h = Ok tt → stateDir data root ∉ wh_dirs h →
  wh_states h !! win_statePath data root meta n = None → ∃ e, win_Stop meta n h = (Err e, h).
Proof.
  intros Hc Hd Es. unfold windows_Stop, annotate, mbind, SE_bind. rewrite Hc. unfold stopServiceName, mbind, SE_bind.
  rewrite attempt_eq. unfold win_readState, read_state. rewrite Es. cbn. unfold missing_file.
  rewrite bool_decide_eq_false_2 by done. cbn. by eexists.
Qed.
End windows_theorems.

(** A manager that keeps a table of services; one that is marked as disabled does not start. *)
#[local] Instance service_table : ServiceManager := {|
  scm := gmap string ServiceConfig; service := string;
  sc_Connect s := (Ok tt, s); sc_Disconnect s := s;
  sc_OpenService n s := (match s !! n with Some _ => Ok n | None => Err (Errorf "no such service" []) end, s);
  sc_CreateService n c s := match s !! n with Some _ => (Err (Errorf "service exists" []), s) | None => (Ok n, <[n := c]> s) end;
  sc_Close _ s := s;
  sc_Start n s := (match s !! n with
                   | Some c => if (sc_StartType c =? StartDisabled)%Z then Err (Errorf "service disabled" []) else Ok tt
                   | None => Err (Errorf "no such service" []) end, s);
  sc_ControlStop _ s := (Ok tt, s); sc_Query _ s := (Ok svc_Stopped, s); sc_Delete n s := (Ok tt, delete n s);
  registered s := s; service_name n := n |}.
#[local] Instance service_table_laws : ServiceManagerLaws.
Proof.
  split; try done; cbn.
  - intros n s v s' E. by destruct (s !! n); injection E.
  - intros n c s v s' E. destruct (s !! n) eqn:El; [done|]. by injection E as <- <-.
  - intros n c s e s' E. destruct (s !! n) eqn:El; [|done]. by injection E as _ <-.
  - by intros v s s' [= <-].
  - intros n s c -> Hd. by rewrite Hd.
Qed.
Definition win_fine : WinHost → string → res unit := λ _ _, Ok tt.
Definition pc : WinHost := mkWinHost ∅ ∅ ∅ NewDns.
Definition win_daemon : Workload :=
  mkWorkload "api" WorkloadKindService (mkRun (mkArtifact "" "" "C:/api.exe") (mkExec ["C:/api.exe"] []) [] "" ""
    (mkRunOptions None None None None None (Some (mkWindows "" "" "Automatic")))) RuntimeWindowsService 1 [] [] [] None None None None None.
#[local] Instance keep_case : UnicodeLower := λ r, r.
Definition deploy_service : res unit * WinHost :=
  windows_Deploy dns_off (λ _, Ok tt) (λ _, Ok tt) true "C:/orch" "" (λ _, Ok tt) win_fine win_fine win_fine (λ _ _, None) (λ _, 9%Z)
    (meta "shop") win_daemon pc.
Definition stop_service : res unit * WinHost :=
  windows_Stop dns_off (λ _, Ok tt) true "C:/orch" "" (λ _, Ok tt) win_fine win_fine (meta "shop") "api" deploy_service.2.


Lemma windows_stop_ends_deploy_witness : wh_states stop_service.2 = ∅.
Proof.
  assert (deploy_service = (Ok tt, deploy_service.2)) as E1 by (apply run_result; vm_compute; reflexivity).
  assert (stop_service = (Ok tt, stop_service.2)) as E2 by (apply run_result; vm_compute; reflexivity).
  pose proof (windows_stop_ends_deploy dns_off (λ _, Ok tt) (λ _, Ok tt) true "C:/orch" "" (λ _, Ok tt) win_fine win_fine win_fine
    win_fine (λ _ _, None) (λ _, 9%Z) (meta "shop") win_daemon pc deploy_service.2 stop_service.2) as [_ Hs].
  - by intros h p e [=].
  - intros n s [c E]. cbn in *. by rewrite E.
  - by vm_compute.
  - exact E1.
  - reflexivity.
  - exact E2.
  - etrans; [exact Hs|apply delete_empty].
Defined.
