(* ===== verification/ContainerTheorems.v ===== *)
(** * The container runtimes: properties

    What the Docker, Podman and containerd runtimes promise to the engine's other users and to
    the task service, with an engine and a CRI service that behave as documented. *)
From stdpp Require Import base strings numbers gmap list fin_maps.
From Stdlib Require Import Ascii.
From S2P Require Import Prelude GoStrings GoTime GoNet GoList Deploy Dependency Kahn Validate ValidateSpec Meta GoText Placement Fsm RaftService TaskBase Dns DnsSpec Runtime Effects Docker DockerSpec Containerd ContainerdSpec Concrete.

Lemma nameRe_identified meta name : nameRe (md_Name meta) = true → nameRe name = true → identified meta name.
Proof. intros Hm Hn. split; (split; [by apply nameRe_trimmed|by apply nameRe_chars]). Qed.

(** C22. On an engine whose containers have unique names and where only a workload's own container
    carries its labels: after any sequence of deploys and stops of workloads with valid names,
    whatever fails, a workload has at most one container, that container has the workload's
    name, and a container that carries the labels of none of these workloads is untouched. *)
Theorem docker_isolation `{UnicodeLower, DnsLibLaws, EngineLaws, BackoffLaws, MapRange} cfg cs h :
  Forall (λ c, let '(meta, name) := called_for c.2 in nameRe (md_Name meta) = true ∧ nameRe name = true) cs →
  tidy h →
  (∀ meta name i j ci cj, held (run_calls cfg cs h) !! i = Some ci → held (run_calls cfg cs h) !! j = Some cj →
     owned meta name ci → owned meta name cj → i = j ∧ ct_Name ci = OrchContainerName meta name) ∧
  (∀ i c, Forall (λ x, ¬ owned (called_for x.2).1 (called_for x.2).2 c) cs →
     held h !! i = Some c → held (run_calls cfg cs h) !! i = Some c).
Proof.
  intros Hn Ht. assert (Forall valid_call cs) as Hv.
  { eapply Forall_impl; [exact Hn|]. intros [a c] Hc. unfold valid_call. cbn in *.
    destruct (called_for c) as [m n]. destruct Hc. by apply nameRe_identified. }
  pose proof (run_calls_tidy cfg cs h Hv Ht) as Ht'. split.
  - intros meta name i j ci cj Hi Hj Hoi Hoj. split; [by eapply tidy_once|by eapply (td_named _ Ht')].
  - intros i c Hf Hi. by apply run_calls_foreign.
Qed.

(** C23. A deploy that reports success leaves a started container of the workload: one it created with
    the configuration the document asks for, or the one that was already there and running, which
    it keeps with its own configuration, whatever the document now asks for; with DNS enabled and
    its store open there is an A record with an address for the workload.  One that reports failure
    leaves only containers that were there or that it made for the workload itself, and none of the
    latter when removals succeed and no creation happens whose reply is a failure.  A stop that
    reports success leaves no container of the workload.  The names are ones that validation
    accepts, and the engine is tidy before. *)
Theorem docker_outcomes `{UnicodeLower, DnsLibLaws, EngineLaws, BackoffLaws, MapRange} cfg save del client meta w h r h' s h'' :
  nameRe (md_Name meta) = true → nameRe (w_Name w) = true → tidy h →
  docker_Deploy cfg save del client meta w h = (r, h') →
  docker_Stop cfg del client meta (w_Name w) h' = (s, h'') →
  (r = Ok tt → running cfg meta w h' ∧
     ∀ i c, held h' !! i = Some c → owned meta (w_Name w) c → held h !! i = Some c ∨
       ct_Config c = dockerContainerConfig meta w (NormalizeImageRef (art_Image (run_Artifact (w_Run w)))) ∧
       dockerHostConfig cfg meta w = Ok (ct_Host c)) ∧
  (r ≠ Ok tt →
     (∀ i c, held h' !! i = Some c → held h !! i = Some c ∨ owned meta (w_Name w) c) ∧
     (replies_arrive → held h' ⊆ held h)) ∧
  (s = Ok tt → ∀ i c, held h'' !! i = Some c → ¬ owned meta (w_Name w) c).
Proof.
  intros Hm Hw Ht Hd Hs. pose proof (nameRe_identified _ _ Hm Hw) as Hid.
  destruct (deploy_cases cfg _ _ _ _ _ _ _ _ Hid Hd) as [He Hr].
  apply stop_cases in Hs as (_ & Hs' & _); [|exact Hid]. split_and!.
  - intros ->. split; [done|]. intros i c Hi _. destruct (ev_source _ _ _ _ _ He i c Hi) as [|(hc & Hh & _ & Hc & Hhc & _)]; [by left|].
    right. split; [done|]. by rewrite Hh, Hhc.
  - intros Hne. destruct r as [[]|e]; [done|]. split; [|exact Hr].
    intros i c Hi. destruct (ev_source _ _ _ _ _ He i c Hi) as [|(hc & _ & Hc)]; [by left|].
    right. by eapply made_owned.
  - intros ->. apply Hs'; [done|]. by apply (ev_tidy _ _ _ _ _ He).
Qed.

(** ** An engine that behaves as documented *)
Import Concrete.
#[local] Instance identity_lower : UnicodeLower := λ r, r.
#[local] Instance plain_dns : DnsLib := {| NormalizeRecord r := Ok r; RecordKey r := rec_Name r |}.
#[local] Instance plain_dns_laws : DnsLibLaws.
Proof. split. by intros r r' Ht [= <-]. Qed.
#[local] Instance counting : Backoff := λ S A n op s,
  match tries n op s with (Done a, s') => (Ok a, s') | (Again e, s') | (Permanent e, s') => (Err e, s') end.
#[local] Instance counting_laws : BackoffLaws.
Proof. intros S A n op s Hn. exists n. unfold Retry, counting. destruct (tries n op s) as [[] ?]; cbn; eauto with lia. Qed.
#[local] Instance range_in_order : MapRange := map_to_list.

Definition boxes : Type := gmap string Container.
Definition by_name (n : string) (b : boxes) : option (string * Container) :=
  List.find (λ ic, ct_Name ic.2 =? n)%string (map_to_list b).
Definition describe (id : string) (c : Container) : InspectResponse :=
  mkInspect id (Some (ct_Labels c))
    (Some (mkState (ct_Started c) (if ct_Started c then "running" else "created") "" "2024-01-01T00:00:00Z"))
    (Some [None; Some "172.17.0.2"]).
#[local] Instance boxed : DockerEngine := {|
  engine := boxes;
  ContainerCreate c hc n b :=
    match by_name n b with
    | Some _ => (Conflict (Errorf "name in use" []), b)
    | None => let id := fresh (dom b ∪ {[""]} : gset string) in
              (Fine id, <[id := mkContainer n (cc_Labels c) c hc false]> b)
    end;
  ContainerStart id b :=
    match b !! id with Some c => (Ok tt, <[id := start c]> b) | None => (Err (Errorf "no such container" []), b) end;
  ContainerInspect ref b :=
    match b !! ref with
    | Some c => (Fine (describe ref c), b)
    | None => match by_name ref b with
              | Some (id, c) => (Fine (describe id c), b)
              | None => (NotFound (Errorf "no such container" []), b)
              end
    end;
  ContainerRemove id b := (Ok tt, delete id b);
  ContainerList labels b :=
    (Ok (filter (λ ic, Forall (λ kv, ct_Labels ic.2 !! kv.1 = Some kv.2) labels) (map_to_list b)).*1, b);
  ContainerLogs id tail b := (Ok (Ok ("", "")), b);
  ImagePull ref b := (Ok (Ok tt), b);
  ImageInspect ref b := (Ok tt, b);
  Error_text e := "error";
  ParseRFC3339Nano s := None;
|}.

Lemma by_name_some n b ic : by_name n b = Some ic → b !! ic.1 = Some ic.2 ∧ ct_Name ic.2 = n.
Proof.
  intros [Hin Hn]%find_some. destruct ic as [i c]. apply list_elem_of_In, elem_of_map_to_list in Hin.
  by apply String.eqb_eq in Hn.
Qed.
Lemma by_name_none n b i c : by_name n b = None → b !! i = Some c → ct_Name c ≠ n.
Proof.
  intros Hf Hi. apply String.eqb_neq, (find_none _ _ Hf (i, c)). by apply list_elem_of_In, elem_of_map_to_list.
Qed.

#[local] Instance boxed_laws : EngineLaws.
Proof.
  refine {| containers := λ b : engine, (b : boxes) |}; cbn.
  - intros c hc n b. destruct (by_name n b) eqn:E; [done|]. set (id := fresh _).
    pose proof (is_fresh (dom b ∪ {[""]} : gset string)) as Hf. fold id in Hf.
    split_and!; [set_solver|apply not_elem_of_dom; set_solver|by intros i c' ?%(by_name_none n b)|by eexists].
  - intros id b. destruct (b !! id) as [c|] eqn:E; [by exists c|by left].
  - intros ref b. destruct (b !! ref) as [c|] eqn:E; cbn.
    + split_and!; [done|done|]. exists c. split_and!; [done|done|]. by intros st [= <-].
    + destruct (by_name ref b) as [[i c]|] eqn:En; [|done]. cbn. apply by_name_some in En as [Hi _]. cbn in *.
      split_and!; [done|intros [x Hx]; change (b !! ref = Some x) in Hx; congruence|].
      exists c. split_and!; [done|done|]. by intros st [= <-].
  - done.
  - intros labels b. split; [done|]. intros i. rewrite list_elem_of_fmap. split.
    + intros ([j c] & -> & [Hl Hin%elem_of_map_to_list]%list_elem_of_filter). eauto.
    + intros (c & Hi & Hl). exists (i, c). split; [done|]. apply list_elem_of_filter. split; [done|].
      by apply elem_of_map_to_list.
  - done.
  - done.
  - done.
Defined.

(** Two applications on a host that already runs a container of its owner's. *)
Definition foreign : Container :=
  mkContainer "backup" {["role" := "cron"]} (mkContainerConfig "borg" [] [] [] "" ∅ ∅) (mkHostConfig 0 0 "" false ∅ [] [] []) true.
Definition docker_host : DockerHost := mkDockerHost ({["f00d" := foreign]} : boxes) (mkDns true true true ∅ []).
Definition dns_on : DNSConfig := mkDNSConfig true ":53" "orch.local" "" [] [] "".
Definition fine : docker_answers := mkAnswers (λ _, Ok tt) (λ _, Ok tt) (Some (Ok tt)).
Definition web : Workload := workload "web" [] [8080%Z].
Definition session : list (docker_answers * docker_call) :=
  [(fine, CallDeploy (meta "shop") web); (fine, CallDeploy (meta "blog") web); (fine, CallDeploy (meta "shop") web);
   (fine, CallStop (meta "blog") "web")].

Lemma docker_host_held i c : held docker_host !! i = Some c → i = "f00d" ∧ c = foreign.
Proof. change (({["f00d" := foreign]} : boxes) !! i = Some c → i = "f00d" ∧ c = foreign). by intros [<- <-]%lookup_singleton_Some. Qed.

Lemma docker_host_tidy : tidy docker_host.
Proof.
  split.
  - by intros i j ci cj [-> _]%docker_host_held [-> _]%docker_host_held.
  - intros i c m n [_ ->]%docker_host_held Ho. unfold owned, has_identity, workloadContainerFilters in Ho.
    rewrite !Forall_cons in Ho. destruct Ho as [Ho _]. vm_compute in Ho. discriminate.
Qed.

(** What the session leaves: the owner's container and one of the shop's. *)
Lemma docker_isolation_witness :
  ct_Name <$> (map_to_list (held (run_calls dns_on session docker_host))).*2 = ["backup"; "orch-default-shop-web"] ∧
  held (run_calls dns_on session docker_host) !! "f00d" = Some foreign.
Proof.
  split; [vm_compute; reflexivity|].
  destruct (docker_isolation dns_on session docker_host) as [_ Hf];
    [repeat constructor|exact docker_host_tidy|].
  apply Hf; [|reflexivity]. repeat constructor; cbn; unfold owned, has_identity, workloadContainerFilters;
    rewrite Forall_cons; intros [Ho _]; vm_compute in Ho; discriminate.
Defined.

Definition deployed_host : DockerHost := (docker_Deploy dns_on (da_save fine) (da_delete fine) (da_client fine) (meta "shop") web docker_host).2.

(** The image of the workload changes while its container runs: the deploy reports success and the
    old container stays. *)
Definition web2 : Workload :=
  mkWorkload "web" WorkloadKindService (run_image "nginx:2") RuntimeDocker 1 [] (w_Endpoints web) [] None None None None None.
Theorem docker_redeploy_keeps_the_container :
  let again := docker_Deploy dns_on (da_save fine) (da_delete fine) (da_client fine) (meta "shop") web2 deployed_host in
  art_Image (run_Artifact (w_Run web2)) ≠ art_Image (run_Artifact (w_Run web)) ∧
  again.1 = Ok tt ∧ held again.2 = held deployed_host.
Proof. cbn zeta. split; [done|]. split; vm_compute; reflexivity. Qed.

Lemma docker_outcomes_witness :
  running dns_on (meta "shop") web deployed_host ∧
  (∀ i c, held (docker_Stop dns_on (da_delete fine) (da_client fine) (meta "shop") "web" deployed_host).2 !! i = Some c →
     ¬ owned (meta "shop") "web" c).
Proof.
  destruct (docker_outcomes dns_on (da_save fine) (da_delete fine) (da_client fine) (meta "shop") web docker_host (Ok tt) deployed_host
    (Ok tt) (docker_Stop dns_on (da_delete fine) (da_client fine) (meta "shop") "web" deployed_host).2) as (Hr & _ & Hs).
  - reflexivity.
  - reflexivity.
  - exact docker_host_tidy.
  - unfold deployed_host. rewrite (surjective_pairing (docker_Deploy _ _ _ _ _ _ _)) at 1. f_equal.
  - rewrite (surjective_pairing (docker_Stop _ _ _ _ _ _)) at 1. f_equal.
  - split; [by apply Hr|by apply Hs].
Defined.

(** * The containerd runtime: properties

    What a deploy and a stop promise, and the two applications whose workloads of one name take
    each other's containers. *)
(** C24. Every container in a sandbox with its labels: a deploy or a stop of a workload changes no
    container and no sandbox that does not carry the workload's name and namespace as labels,
    whatever fails; a deploy that reports success leaves a started container with these labels,
    and a stop that reports success leaves no container and no sandbox with them. *)
Theorem containerd_outcomes `{UnicodeLower, DnsLib, CriLaws, BackoffLaws, SetRangeLaws} cfg save del has_dns data root dial mkdirAll
    meta w h r h' s h'' :
  nameRe (w_Name w) = true → housed meta (w_Name w) h →
  containerd_Deploy cfg save del has_dns data root dial mkdirAll meta w h = (r, h') →
  containerd_Stop cfg del has_dns dial meta (w_Name w) h' = (s, h'') →
  (∀ i c, ¬ selected meta (w_Name w) (cx_labels c) → C h !! i = Some c → C h' !! i = Some c ∧ C h'' !! i = Some c) ∧
  (∀ i p, ¬ selected meta (w_Name w) (pd_labels p) → P h !! i = Some p → P h' !! i = Some p ∧ P h'' !! i = Some p) ∧
  (is_ok r = true → ∃ i c, C h' !! i = Some c ∧ selected meta (w_Name w) (cx_labels c) ∧ cx_started c = true) ∧
  (is_ok s = true → (∀ i c, C h'' !! i = Some c → ¬ selected meta (w_Name w) (cx_labels c)) ∧
                    (∀ i p, P h'' !! i = Some p → ¬ selected meta (w_Name w) (pd_labels p))).
Proof.
  intros Hn Hh Hd Hs. apply (cri_deploy_cases cfg save del has_dns data root dial mkdirAll meta (w_Name w) w) in Hd as [Ha Hok];
    [|done|by apply nameRe_trimmed].
  destruct (Ha Hh) as [K1 K2 Hh']. apply cri_stop_cases in Hs as [(Hs1 & _ & _) Hs2]; [|exact mkdirAll|exact Hh']. destruct (Hs1 Hh') as [L1 L2 _].
  split_and!; [by eauto|by eauto| |exact Hs2].
  intros Hr. destruct (Hok Hr) as (i & c & Hc & Hsel & Hst & _). eauto.
Qed.

(** ** A runtime service that behaves as documented *)
Import Concrete.
#[local] Instance in_order : SetRange := elements.
#[local] Instance in_order_laws : SetRangeLaws.
Proof. intros s x. apply elem_of_elements. Qed.

(** Ids are trimmed and not empty; there are enough for two workloads. *)
Definition good_id (i : string) : Prop := TrimSpace i = i ∧ i ≠ "".
#[local] Instance good_id_dec i : Decision (good_id i).
Proof. unfold good_id. solve_decision. Defined.
Definition only_good {A} (m : gmap string A) : gmap string A := filter (λ ic, good_id ic.1) m.
Record rack := mkRack { rk_ctrs : gmap string Ctr; rk_pods : gmap string Pod }.
Definition rctrs (r : rack) : gmap string Ctr := only_good (rk_ctrs r).
Definition rpods (r : rack) : gmap string Pod := only_good (rk_pods r).
Definition matches (sel labels : gmap string string) : bool := bool_decide (map_Forall (λ k v, labels !! k = Some v) sel).
Definition free {A} (ids : list string) (m : gmap string A) : option string := List.find (λ i, if m !! i is Some _ then false else true) ids.
#[local] Instance racked : CRI := {|
  cri := rack;
  ListContainers sel e :=
    (Ok ((λ ic, Some (mkCtrInfo ic.1 (cx_pod ic.2))) <$> filter (λ ic, matches sel (cx_labels ic.2) = true) (map_to_list (rctrs e))), e);
  ContainerStatus i e :=
    (Ok ((λ c, mkCtrStatus i (if cx_started c then CtrRunning else CtrCreated) 0 "" "" 0 "") <$> rctrs e !! i), e);
  StopContainer i e := (Ok tt, e);
  RemoveContainer i e := (Ok tt, mkRack (delete i (rctrs e)) (rpods e));
  ListPodSandbox sel e :=
    (Ok ((λ ip, Some ip.1) <$> filter (λ ip, matches sel (pd_labels ip.2) = true) (map_to_list (rpods e))), e);
  StopPodSandbox i e := (Ok tt, e);
  RemovePodSandbox i e := (Ok tt, mkRack (filter (λ ic, cx_pod ic.2 ≠ i) (rctrs e)) (delete i (rpods e)));
  PodSandboxStatus i e := (Ok "10.88.0.5", e);
  PullImage ref sc e := (Ok tt, e);
  RunPodSandbox sc e :=
    match free ["p0"; "p1"] (rpods e) with
    | Some i => (Ok i, mkRack (rctrs e) (<[i := mkPod (sb_Labels sc) sc]> (rpods e)))
    | None => (Err (Errorf "no room" []), e)
    end;
  CreateContainer pod cc sc e :=
    match rpods e !! pod, free ["c0"; "c1"] (rctrs e) with
    | Some _, Some i => (Ok i, mkRack (<[i := mkCtr pod (cf_Labels cc) cc false]> (rctrs e)) (rpods e))
    | _, _ => (Err (Errorf "no room" []), e)
    end;
  StartContainer i e :=
    match rctrs e !! i with
    | Some c => (Ok tt, mkRack (<[i := started c]> (rctrs e)) (rpods e))
    | None => (Err (Errorf "no such container" []), e)
    end;
|}.

Lemma only_good_id {A} (m : gmap string A) : map_Forall (λ i _, good_id i) m → only_good m = m.
Proof. intros Hm. apply map_filter_id. intros i x Hi. by apply Hm in Hi. Qed.
Lemma only_good_good {A} (m : gmap string A) : map_Forall (λ i _, good_id i) (only_good m).
Proof. by intros i x [_ ?]%map_lookup_filter_Some. Qed.
Lemma only_good_twice {A} (m : gmap string A) : only_good (only_good m) = only_good m.
Proof. apply only_good_id, only_good_good. Qed.
Lemma only_good_delete {A} i (m : gmap string A) : only_good (delete i (only_good m)) = delete i (only_good m).
Proof. apply only_good_id. intros j x [_ Hj]%lookup_delete_Some. by apply only_good_good in Hj. Qed.
Lemma only_good_insert {A} i x (m : gmap string A) : good_id i → only_good (<[i := x]> (only_good m)) = <[i := x]> (only_good m).
Proof. intros Hi. apply only_good_id. intros j y [[<- _]|[_ Hj]]%lookup_insert_Some; [done|]. by apply only_good_good in Hj. Qed.
Lemma only_good_filter {A} (Q : string * A → Prop) `{!∀ x, Decision (Q x)} (m : gmap string A) :
  only_good (filter Q (only_good m)) = filter Q (only_good m).
Proof. apply only_good_id. intros j y [Hj _]%map_lookup_filter_Some. by apply only_good_good in Hj. Qed.
Lemma selector_matches sel labels : matches sel labels = true ↔ sel ⊆ labels.
Proof. unfold matches. rewrite bool_decide_eq_true. symmetry. apply map_subseteq_spec. Qed.
Lemma free_spec {A} ids (m : gmap string A) i : free ids m = Some i → i ∈ ids ∧ m !! i = None.
Proof. intros [Hin Hf]%find_some. split; [by apply list_elem_of_In|]. by destruct (m !! i). Qed.

Lemma rctrs_mk c p : rctrs (mkRack c p) = only_good c.
Proof. done. Qed.
Lemma rpods_mk c p : rpods (mkRack c p) = only_good p.
Proof. done. Qed.
Ltac rack := rewrite ?rctrs_mk, ?rpods_mk; unfold rctrs, rpods;
  rewrite ?only_good_twice, ?only_good_delete, ?only_good_filter, ?only_good_insert.

#[local] Instance racked_laws : CriLaws.
Proof.
  refine {| ctrs := rctrs; pods := rpods |}; cbn -[free].
  - intros e i [c Hc]. by apply only_good_good in Hc.
  - intros e i [c Hc]. by apply only_good_good in Hc.
  - intros sel e. split_and!; [done|done|]. intros l [= <-]. split_and!.
    + set (k := filter _ (map_to_list (rctrs e))). assert (omap id ((λ ic, Some (mkCtrInfo ic.1 (cx_pod ic.2))) <$> k) =
        (λ ic, mkCtrInfo ic.1 (cx_pod ic.2)) <$> k) as -> by (induction k as [|? k IH]; cbn; [done|by f_equal]).
      rewrite <-list_fmap_compose. apply (NoDup_fmap_fst (A:=string) (B:=Ctr) k).
      * intros i x y [_ Hx%elem_of_map_to_list]%list_elem_of_filter [_ Hy%elem_of_map_to_list]%list_elem_of_filter. congruence.
      * apply NoDup_filter, NoDup_map_to_list.
    + intros i ([j c] & [= ->] & [Hm Hin%elem_of_map_to_list]%list_elem_of_filter)%list_elem_of_fmap. exists c.
      split_and!; [done|by apply selector_matches|done].
    + intros i c Hi Hsel. exists (mkCtrInfo i (cx_pod c)). split; [|done]. apply list_elem_of_fmap. exists (i, c). split; [done|].
      apply list_elem_of_filter. split; [by apply selector_matches|by apply elem_of_map_to_list].
  - intros i e. split_and!; [done|done|]. intros st [= Hst]. destruct (rctrs e !! i) as [c|]; [|done]. injection Hst as <-.
    cbn. destruct (cx_started c) eqn:Ec; [|done]. eauto.
  - done.
  - intros i e. by rack.
  - intros sel e. split_and!; [done|done|]. intros l [= <-]. split.
    + intros i ([j p] & [= ->] & [Hm Hin%elem_of_map_to_list]%list_elem_of_filter)%list_elem_of_fmap. exists p.
      split; [done|by apply selector_matches].
    + intros i p Hi Hsel. apply list_elem_of_fmap. exists (i, p). split; [done|]. apply list_elem_of_filter.
      split; [by apply selector_matches|by apply elem_of_map_to_list].
  - done.
  - intros i e. by rack.
  - done.
  - done.
  - intros sc e. destruct (free ["p0"; "p1"] (rpods e)) as [i|] eqn:E; cbn; [|by auto]. apply free_spec in E as [Hi Hn].
    rack; [done|]. by rewrite !elem_of_cons, elem_of_nil in Hi; destruct Hi as [->|[->|[]]].
  - intros pod cc sc e. destruct (rpods e !! pod) eqn:Ep; [|by auto]. destruct (free ["c0"; "c1"] (rctrs e)) as [i|] eqn:E; [|by auto].
    apply free_spec in E as [Hi Hn]. rack; [by split_and!; eauto|]. by rewrite !elem_of_cons, elem_of_nil in Hi; destruct Hi as [->|[->|[]]].
  - intros i e. destruct (rctrs e !! i) as [c|] eqn:E; [|by auto]. rack; [by split; [|exists c]|]. by apply only_good_good in E.
Defined.

(** ** Two applications with a workload of one name *)
Definition dns_off : DNSConfig := mkDNSConfig false "" "" "" [] [] "".
Definition empty_rack : CriHost := mkCriHost (mkRack ∅ ∅) (mkDns false false false ∅ []).
Definition cri_deploy (app : string) : SE CriHost unit :=
  containerd_Deploy dns_off (λ _, Ok tt) (λ _, Ok tt) false "/var/lib/orch" "/var/lib/orch/runtime/containerd" (Ok tt) (λ _, Ok tt)
    (meta app) (workload "web" [] []).
Definition cri_stop (app : string) : SE CriHost unit :=
  containerd_Stop dns_off (λ _, Ok tt) false (Ok tt) (meta app) "web".
Definition apps_of (h : CriHost) : list (option string) := (λ ic, cx_labels ic.2 !! "orch.io/app") <$> map_to_list (rctrs (ch_cri h)).

(** With the shop's [web] running, deploying the blog's [web] reports success and starts nothing;
    stopping the blog's [web] then removes the shop's container.  The labels the provider looks
    for leave the application out. *)
Theorem containerd_takes_other_application :
  let '(r1, h1) := cri_deploy "shop" empty_rack in
  let '(r2, h2) := cri_deploy "blog" h1 in
  let '(r3, h3) := cri_stop "blog" h2 in
  (r1, r2, r3) = (Ok tt, Ok tt, Ok tt) ∧
  apps_of h1 = [Some "shop"] ∧ apps_of h2 = [Some "shop"] ∧ apps_of h3 = [].
Proof. vm_compute. done. Qed.

Lemma containerd_outcomes_witness :
  (∃ i c, C (cri_deploy "shop" empty_rack).2 !! i = Some c ∧ selected (meta "shop") "web" (cx_labels c) ∧ cx_started c = true) ∧
  (∀ i c, C (cri_stop "shop" (cri_deploy "shop" empty_rack).2).2 !! i = Some c → ¬ selected (meta "shop") "web" (cx_labels c)).
Proof.
  destruct (containerd_outcomes dns_off (λ _, Ok tt) (λ _, Ok tt) false "/var/lib/orch" "/var/lib/orch/runtime/containerd" (Ok tt)
    (λ _, Ok tt) (meta "shop") (workload "web" [] []) empty_rack (Ok tt) (cri_deploy "shop" empty_rack).2 (Ok tt)
    (cri_stop "shop" (cri_deploy "shop" empty_rack).2).2) as (_ & _ & Hr & Hs).
  - reflexivity.
  - intros i c Hi. change ((∅ : gmap string Ctr) !! i = Some c) in Hi. by rewrite lookup_empty in Hi.
  - unfold cri_deploy. rewrite (surjective_pairing (containerd_Deploy _ _ _ _ _ _ _ _ _ _ _)) at 1. f_equal.
  - unfold cri_stop. rewrite (surjective_pairing (containerd_Stop _ _ _ _ _ _ _)) at 1. f_equal.
  - split; [by apply Hr|by apply Hs].
Defined.
