(* ===== verification/ApiTheorems.v ===== *)
(** * What the HTTP API guarantees

    A write is done in one place, by the node itself or by the leader its status names; a forwarded write has the leader's answer; the
    deploy and worker operations run only for a token that verifies; the client gets what the
    handler answered; a ready node can route every write. *)
From stdpp Require Import base strings numbers gmap list.
From Stdlib Require Import Ascii.
From S2P Require Import Prelude GoStrings GoTime GoNet GoList Deploy Dependency Kahn Validate Meta GoText Fsm RaftService RaftMembers Vpn TaskBase TaskRun TaskDeploy TaskOps TaskViews Dns Runtime OrchSchema Effects TaskInspect ApiServer ApiReads HttpServer ApiClient ApiRouting ApiSpec Concrete ApiConcrete.

Section theorems.
Context `{Wire} `{!Transport} `{Digest, Codec} `{!World, Inspect} `{ListSort, GraphLib, ReplicaOrder}.
Context `{ManifestLoader, ApiEnv} `{JwtLib} `{!Framework, !ApiJson, !SystemEnv}.

(** C34. Where a write is done follows from the node's Raft status.  A node that leads, and one
    whose Raft is not ready, does it itself: the answer and the new state are those of the write
    on its own services ([done_here]), and nothing is sent.  A ready follower keeps its own state
    and sends exactly one request, the same write under the cluster's token, to the base URL
    configured for the leader its status names, or fails having sent nothing (no client, no
    encoding); when the status cannot be read, names no leader, or no URL is configured for the
    leader, the write is refused without an effect.  Names in paths are plain segments, and a
    source names its document. *)
Theorem write_in_one_place (cfg : ApiConfig) {O} (c : call O) n :
  is_write c = true → safe_call c → named c →
  let r := (handle cfg c n).1 in
  let n' := (handle cfg c n).2 in
  match raft_Status (nd_task n) with
  | Err _ => is_err r ∧ n' = n
  | Ok st =>
      let leader := TrimSpace (st_LeaderID st) in
      (st_Ready st = false ∨ st_IsLeader st = true →
         r = (done_here cfg c (nd_task n)).1 ∧ n' = mkNode (done_here cfg c (nd_task n)).2 (nd_sent n)) ∧
      (st_Ready st = true → st_IsLeader st = false → leader ≠ "" →
       ∀ url, NodeURL (ac_task cfg) leader = Some url →
         nd_task n' = nd_task n ∧
         (is_err r ∧ nd_sent n' = nd_sent n ∨
          ∃ body, sends_body c body ∧
            nd_sent n' = nd_sent n ++ [(base_of url, call_request c (leader_authorization cfg) body)])) ∧
      (st_Ready st = true → st_IsLeader st = false → leader = "" ∨ NodeURL (ac_task cfg) leader = None →
         is_err r ∧ n' = n)
  end.
Proof.
  intros Hw Hc Hn. cbn zeta. destruct (raft_Status (nd_task n)) as [st|e] eqn:Hs.
  2: { eapply write_refused; [done..|]. unfold write_target. by rewrite Hs. }
  split_and!.
  - intros Hl. rewrite write_local; [by destruct (done_here cfg c (nd_task n))|done..|].
    unfold write_target, leaderBaseURL. rewrite Hs. cbn. by destruct Hl as [-> | ->]; [|destruct (st_Ready st)].
  - intros Hr Hl Hid url Hu. apply write_sends_once; try done. unfold write_target, leaderBaseURL. rewrite Hs. cbn.
    rewrite Hr, Hl. cbn. destruct (String.eqb_spec (TrimSpace (st_LeaderID st)) ""); [done|]. by rewrite Hu.
  - intros Hr Hl Hu. assert (∃ e, write_target cfg n = Err e) as [e He]; [|by eapply write_refused].
    unfold write_target, leaderBaseURL. rewrite Hs. cbn. rewrite Hr, Hl. cbn.
    destruct (String.eqb_spec (TrimSpace (st_LeaderID st)) ""); [by eexists|]. destruct Hu as [|Hu]; [done|].
    rewrite Hu. by eexists.
Qed.

Context `{!FrameworkLaws}.

(** The outside of another node: what its client reaches and its world. *)
Record Remote := mkRemote { re_transport : Transport; re_world : World }.

(** C35. Forwarding is transparent: the answer of a follower to a write is the answer of the
    server it forwards to, and a failure there is a failure here. *)
Theorem forwarded_write_has_leaders_answer (L : Remote) (cfg cfgL : ApiConfig) (g gL : Guard)
    {O} (c : call O) authz body n nL url :
  let rqL := call_request c (leader_authorization cfg) body in
  let answer := (serve (H0 := re_transport L) (H3 := re_world L) cfgL gL rqL nL).1 in
  is_write c = true → safe_call c → named c → call_body c body →
  guard_passes cfg g (call_path c) (call_request c authz body) = Ok tt →
  guard_passes cfgL gL (call_path c) rqL = Ok tt →
  write_target cfg n = Ok (Some url) → newClient (base_of url) = Ok tt →
  execute (nd_sent n) (base_of url) rqL = Ok answer →
  (∀ o r, (handle (H0 := re_transport L) (H3 := re_world L) cfgL c nL).1 = Ok o → marshal (Json := call_json c) o = Ok r →
     unmarshal (Json := call_json c) r = Ok o ∧ (0 < raw_len r)%nat) →
  let '(rp, n') := serve cfg g (call_request c authz body) n in
  rp_success rp = rp_success answer ∧ (rp_success answer = true → rp = answer) ∧
  n' = mkNode (nd_task n) (nd_sent n ++ [(base_of url, rqL)]).
Proof.
  cbn zeta. intros Hw Hc Hn Hb Hg HgL Ht Hcl Hex Hjson.
  rewrite (serve_call (H0 := re_transport L) (H3 := re_world L)) in Hex |- * by done. rewrite serve_call by done.
  pose proof (write_forwarded cfg c n url body Hw Hc Hn Hb Ht Hcl) as [Hn' Hans]. rewrite Hex in Hans. clear Hex.
  unfold reply, mbind, SE_bind, of_res in *.
  destruct (handle (H0 := re_transport L) (H3 := re_world L) cfgL c nL) as [[o|e] nL'], (handle cfg c n) as [r n'].
  - destruct (marshal (Json := call_json c) o) as [raw|e] eqn:Hm; cbn in Hans, Hn' |- *.
    + destruct (render_ok raw) as [Hs Hbody]. rewrite Hs, Hbody in Hans. destruct (Hjson o raw eq_refl Hm) as [Hu Hl].
      rewrite Hu in Hans. rewrite (Hans Hl). by rewrite Hm.
    + rewrite render_err in *. destruct Hans as [e' ->]. by rewrite render_err.
  - cbn in *. rewrite render_err in *. destruct Hans as [e' ->]. by rewrite render_err.
Qed.

(** C36. With authentication on, a request for a deploy or worker operation runs its handler
    only with a bearer token that verifies under the configured secret; any other one fails
    and changes nothing. *)
Theorem guarded_operations_need_token (cfg : ApiConfig) g rq n r vs path query :
  ac_AuthEnabled cfg = true → auth_guard cfg = Ok g →
  cut_target (rq_path rq) = (path, query) →
  route (newRouteEndpoints (ac_AuthEnabled cfg)) (rq_method rq) path = Some (r, vs) →
  r ∈ newDeployEndpoints (ac_AuthEnabled cfg) ++ newWorkerEndpoints (ac_AuthEnabled cfg) →
  (∃ token p, resolve_credential (rq_authorization rq) = Ok token ∧ verify_HS256 (ac_JWTSecret cfg) token = Ok p) ∨
  (rp_success (serve cfg g rq n).1 = false ∧ (serve cfg g rq n).2 = n).
Proof.
  intros Ha Hg Hq Hr Hin. destruct (guard_runs cfg r vs rq n g path query Hq Ha Hr Hin) as [Hok|(e & _ & ->)].
  - left. by eapply guard_token.
  - right. split; [apply unauthorized_fails|done].
Qed.

(** Membership of the Raft group is outside the guarded prefixes: with authentication on, a
    request without any credential adds a voter. *)
Theorem membership_needs_no_token (cfg : ApiConfig) g (b : AddMemberBody) body n :
  travels b body →
  serve cfg g (call_request (CAddMember b) "" body) n =
  let '(r, n') := reply (raft_members_add cfg b) n in (render r, n').
Proof.
  intros Hb. apply (serve_call cfg (CAddMember b)); [done|done|].
  by apply unguarded with (y := "r"%char).
Qed.

(** C37. The client gets what the handler answered: each method of the client, run against the
    server, leaves the server as the handler of the call does, and returns its value or fails
    with it. *)
Theorem client_gets_handlers_answer (cfg : ApiConfig) g k {O} (c : call O) body n :
  safe_call c → client_args c → call_body c body →
  guard_passes cfg g (call_path c) (call_request c (cl_authorization k) body) = Ok tt →
  (∀ o, (handle cfg c n).1 = Ok o → ∃ r, marshal (Json := call_json c) o = Ok r ∧ unmarshal (Json := call_json c) r = Ok o) →
  (client_call cfg g k c n).2 = (handle cfg c n).2 ∧
  match (handle cfg c n).1 with
  | Ok o => (client_call cfg g k c n).1 = Ok o
  | Err _ => is_err (client_call cfg g k c n).1
  end.
Proof.
  intros Hc Ha Hb Hg Hj. rewrite (client_sends cfg g k c body n) by done. rewrite serve_call by done.
  unfold reply, mbind, SE_bind, of_res, decode_response. destruct (handle cfg c n) as [[o|e] n']; cbn in *.
  - destruct (Hj o eq_refl) as (r & -> & Hu). destruct (render_ok r) as [-> ->]. cbn. by rewrite Hu.
  - rewrite render_err. cbn. split; [done|]. by eexists.
Qed.

(** C38. A node is ready when Raft is ready with a leader it knows, a write can be routed, a
    runtime is registered and no required one is missing, and the dependency container is well;
    a write that reaches a ready node is never refused by routing. *)
Theorem ready_node_routes_writes (cfg : ApiConfig) m n :
  let out := ready_handle w_errorText (NodeURL (ac_task cfg)) (Some (raft_Status (nd_task n))) (Some m)
               se_readiness se_timestamp in
  (ro_Ready out = true ↔
     (∃ st, raft_Status (nd_task n) = Ok st ∧ st_Ready st = true ∧ st_LeaderID st ≠ "" ∧
        (st_IsLeader st = true ∨ is_Some (NodeURL (ac_task cfg) (st_LeaderID st)))) ∧
     (∃ st, st ∈ ProviderStatuses m ∧ ps_Registered st = true) ∧
     (∀ st, st ∈ ProviderStatuses m → ps_Policy st = RuntimeProviderPolicyRequired → ps_Registered st = true) ∧
     (if se_readiness is Some r then hr_Healthy r = true else True)) ∧
  (ro_Ready out = true → ∃ target, write_target cfg n = Ok target).
Proof.
  cbn zeta. rewrite ready_iff. split.
  - setoid_rewrite writeReadiness_iff. setoid_rewrite runtime_ready_iff. split.
    + intros (st & Hs & Hr & Hl & Hw & [Hp Hq] & Hd). split; [exists st; tauto|done].
    + intros ((st & Hs & Hr & Hl & Hw) & Hp & Hq & Hd). exists st. tauto.
  - intros (st & Hs & Hr & _ & Hw & _). unfold write_target. rewrite Hs. by apply writes_ready.
Qed.
End theorems.

(** ** The theorems at work *)
Import Concrete ApiConcrete.
#[local] Existing Instance to_leader.

(** The follower keeps its state; the leader stops the application. *)
Lemma write_in_one_place_witness :
  nd_task (handle follower_config (CAction AStop shop_path) follower_node).2 = nd_task follower_node ∧
  nd_task (handle leader_config (CAction AStop shop_path) leader_node).2 =
    (done_here leader_config (CAction AStop shop_path) (nd_task leader_node)).2.
Proof.
  pose proof (write_in_one_place follower_config (CAction AStop shop_path) follower_node eq_refl shop_path_safe I) as Hf.
  pose proof (write_in_one_place leader_config (CAction AStop shop_path) leader_node eq_refl shop_path_safe I) as Hl.
  cbn zeta in Hf, Hl. split.
  - destruct (raft_Status (nd_task follower_node)) as [st|e] eqn:E; [|discriminate E].
    vm_compute in E. injection E as <-. destruct Hf as (_ & Hf & _).
    exact (proj1 (Hf eq_refl eq_refl ltac:(discriminate) "http://10.0.0.1:17443" eq_refl)).
  - destruct (raft_Status (nd_task leader_node)) as [st|e] eqn:E; [|discriminate E].
    vm_compute in E. injection E as <-. destruct Hl as (Hl & _). destruct Hl as [_ ->]; [by right|]. reflexivity.
Defined.

Lemma forwarded_write_has_leaders_answer_witness :
  let '(rp, n') := serve follower_config token_guard
    (call_request (CDeploy shop) "Bearer signed-s3cret" (Some (PApp shop))) follower_node in
  rp_success rp = true ∧ nd_task n' = nd_task follower_node.
Proof.
  assert (execute (nd_sent follower_node) (base_of "http://10.0.0.1:17443")
    (call_request (CDeploy shop) (leader_authorization follower_config) (Some (PApp shop))) =
    Ok (serve (H0 := offline) leader_config token_guard
          (call_request (CDeploy shop) (leader_authorization follower_config) (Some (PApp shop))) leader_node).1) as He.
  { unfold execute, to_leader. replace (base_of _ =? _)%string with true by (vm_compute; reflexivity). reflexivity. }
  pose proof (forwarded_write_has_leaders_answer (mkRemote offline sunny) follower_config leader_config token_guard token_guard
    (CDeploy shop) "Bearer signed-s3cret" (Some (PApp shop)) follower_node leader_node "http://10.0.0.1:17443"
    eq_refl I I (ex_intro _ (PApp shop) (conj eq_refl (conj eq_refl eq_refl))) eq_refl eq_refl eq_refl eq_refl He) as Hf.
  destruct (serve follower_config token_guard _ follower_node) as [rp n'].
  destruct Hf as (Hs & _ & Hn).
  - intros o r _ Hm. destruct (packet_faithful (CDeploy shop) o) as (r' & Hm' & Hu & Hl). rewrite Hm in Hm'.
    injection Hm' as <-. by split.
  - rewrite Hs, Hn. split; [vm_compute; reflexivity|done].
Defined.

Lemma guarded_operations_need_token_witness :
  rp_success (serve leader_config token_guard (call_request (CDeploy shop) "" (Some (PApp shop))) leader_node).1 = false.
Proof.
  destruct (guarded_operations_need_token leader_config token_guard (call_request (H := packets) (CDeploy shop) "" (Some (PApp shop)))
    leader_node (call_route true (CDeploy shop)) [] PathV1Deploy "" eq_refl leader_guard) as [(token & p & Ht & _)|[Hs _]].
  - reflexivity.
  - reflexivity.
  - left.
  - vm_compute in Ht. discriminate.
  - exact Hs.
Defined.

Definition operator : Client := mkClient "http://10.0.0.1:17443" "Bearer signed-s3cret".

Lemma client_gets_handlers_answer_witness :
  (client_call leader_config token_guard operator (CDeploy shop) leader_node).1 = Ok (mkDeployOutput true "shop" 2).
Proof.
  destruct (client_gets_handlers_answer (H := packets) leader_config token_guard operator (CDeploy shop) (Some (PApp shop)) leader_node)
    as [_ Hr].
  - exact I.
  - exact I.
  - exact (ex_intro _ (PApp shop) (conj eq_refl (conj eq_refl eq_refl))).
  - vm_compute. reflexivity.
  - intros o _. destruct (packet_faithful (CDeploy shop) o) as (r & ? & ? & _). by exists r.
  - assert ((handle leader_config (CDeploy shop) leader_node).1 = Ok (mkDeployOutput true "shop" 2)) as He
      by (vm_compute; reflexivity).
    rewrite He in Hr. exact Hr.
Defined.
