(* ===== verification/CliTheorems.v ===== *)
(** * Theorems about the command-line tool

    A watch that succeeds means that the cluster runs the document, and it does not miss one that
    runs; the other waits end with what they wait for; a command that is refused sends nothing;
    validating a manifest locally is what the server does first with it. *)
From stdpp Require Import base strings numbers gmap sorting list.
From Stdlib Require Import Ascii.
From S2P Require Import Prelude GoStrings GoTime GoNet GoList Deploy Dependency Kahn Validate Meta GoText Fsm RaftService RaftMembers Vpn TaskBase TaskRun TaskDeploy TaskOps TaskViews Dns Compose Runtime OrchDsl OrchSchema Effects TaskInspect ApiServer ApiReads HttpServer ApiClient ApiRouting ApiSpec CliView Cli CliSpec Concrete ApiConcrete DocumentTheorems.

(** ** Watching a server *)

(** The order in which Go iterates a map has every value once. *)
Class ApiEnvLaws `{ApiEnv} := {
  order_assignments_values m : order_assignments m ≡ₚ (map_to_list m).*2;
  order_records_values m : order_records m ≡ₚ (map_to_list m).*2 }.

Section watch.
Context `{UnicodeLower, Display, PollingLaws}.
Context `{Wire} `{!Transport} `{Digest, Codec} `{!World, Inspect} `{ListSortLaws, GraphLib, ReplicaOrder}.
Context `{ManifestLoader, ApiEnvLaws} `{JwtLib} `{!Framework, !ApiJson, !SystemEnv} `{!FrameworkLaws}.
Context (cfg : ApiConfig) (g : Guard) (k : Client) (durationText : Z → string).
(** What happens on the node before it serves the next request. *)
Context (evolve : Node → Node).

Definition moving_exec (base : string) (rq : HttpRequest) : SE Node HttpResponse := λ n,
  server_exec cfg g base rq (evolve n).

(** The tables of a node are keyed by the key and the name of their entries. *)
Definition keyed (n : Node) : Prop :=
  (∀ key a, Assignments (state (fsm_of (nd_task n))) !! key = Some a → as_Key a = key) ∧
  (∀ name r, ts_registry (nd_task n) !! name = Some r → wrec_Name r = name).

(** A value that comes through the wire, when it does, as it was; and one that does. *)
Definition faithful {A} `{!Json A} (a : A) : Prop := ∀ r b, marshal a = Ok r → unmarshal r = Ok b → b = a.
Definition readable {A} `{!Json A} (a : A) : Prop := ∃ r, marshal a = Ok r ∧ unmarshal r = Ok a.

(** A listing leaves the node as it is, and is what the node's handler listed, encoded and decoded. *)
Lemma list_call {O} (c : call (list O)) (items : Node → list O) n :
  safe_call c → client_args c → call_body c None → (∀ n, handle cfg c n = (Ok (items n), n)) →
  (client_call cfg g k c n).2 = n ∧
  ∀ l, (client_call cfg g k c n).1 = Ok l →
    ∃ r, marshal (Json := call_json c) (items n) = Ok r ∧ unmarshal (Json := call_json c) r = Ok l.
Proof.
  intros Hc Ha Hb Hh. rewrite (client_sends cfg g k c None n) by done.
  destruct (guard_passes cfg g (call_path c) (call_request c (cl_authorization k) None)) as [[]|e] eqn:Hg.
  - rewrite serve_call by done. unfold reply, mbind, SE_bind, of_res, decode_response. rewrite Hh.
    destruct (marshal (items n)) as [r|e]; cbn; [|by rewrite render_err].
    destruct (render_ok r) as [-> ->]. split; [done|]. intros l Hl%wrap_ok. eauto.
  - unfold serve. cbn [rq_path call_request]. rewrite call_target_cut by done.
    rewrite Hg. cbn. unfold decode_response. by rewrite unauthorized_fails.
Qed.
Lemma list_call_answers {O} (c : call (list O)) (items : Node → list O) n :
  safe_call c → client_args c → call_body c None → (∀ n, handle cfg c n = (Ok (items n), n)) →
  guard_passes cfg g (call_path c) (call_request c (cl_authorization k) None) = Ok tt →
  readable (Json0 := call_json c) (items n) → client_call cfg g k c n = (Ok (items n), n).
Proof.
  intros Hc Ha Hb Hh Hg (r & Hm & Hu). rewrite (client_sends cfg g k c None n), serve_call by done.
  unfold reply, mbind, SE_bind, of_res, decode_response. rewrite Hh, Hm. destruct (render_ok r) as [-> ->]. cbn. by rewrite Hu.
Qed.

Definition shown_assignments (n : Node) : list AssignmentItem :=
  assignmentItem <$> ListWorkloadAssignments (order_assignments (Assignments (state (fsm_of (nd_task n))))).
Definition shown_workloads (n : Node) : list WorkloadItem :=
  workloadItem <$> registry_List (order_records (ts_registry (nd_task n))).

(** The nodes that answer the requests of a wait that starts at [n0]. *)
Definition answering (n0 n : Node) : Prop := ∃ j, n = Nat.iter (Datatypes.S j) evolve n0.

(** What one of the two listings reads. *)
Lemma watched_list {O} (m : Client → SE Node (list O)) (c : call (list O)) (items : Node → list O) t :
  safe_call c → client_args c → call_body c None → (∀ n, handle cfg c n = (Ok (items n), n)) →
  (∀ n, m k n = client_call cfg g k c (evolve n)) →
  let n := evolve (tm_outside t) in
  (remote (m k) t).2 = mkTerm n (tm_out t) ∧
  (∀ l, faithful (Json0 := call_json c) (items n) → (remote (m k) t).1 = Ok l → l = items n) ∧
  (guard_passes cfg g (call_path c) (call_request c (cl_authorization k) None) = Ok tt →
   readable (Json0 := call_json c) (items n) → (remote (m k) t).1 = Ok (items n)).
Proof.
  intros Hc Ha Hb Hh Hm. cbn zeta. unfold remote. rewrite Hm.
  destruct (list_call c items (evolve (tm_outside t)) Hc Ha Hb Hh) as [Hn Hl].
  pose proof (list_call_answers c items (evolve (tm_outside t)) Hc Ha Hb Hh) as Hans.
  destruct (client_call cfg g k c (evolve (tm_outside t))) as [r n']. cbn in *. subst n'. split_and!; [done| |].
  - intros l Hf (raw & Hr & Hu)%Hl. by apply (Hf raw).
  - intros Hg Hr. specialize (Hans Hg Hr). by injection Hans as ->.
Qed.
Lemma watched_assignments t :
  let n := evolve (tm_outside t) in
  let answer := remote (client_ListAssignments (moving_exec) k) t in
  answer.2 = mkTerm n (tm_out t) ∧ (∀ l, faithful (shown_assignments n) → answer.1 = Ok l → l = shown_assignments n) ∧
  (guard_passes cfg g (call_path CAssignments) (call_request CAssignments (cl_authorization k) None) = Ok tt →
   readable (shown_assignments n) → answer.1 = Ok (shown_assignments n)).
Proof. by apply (watched_list (client_ListAssignments moving_exec) CAssignments shown_assignments). Qed.
Lemma watched_workloads t :
  let n := evolve (tm_outside t) in
  let answer := remote (client_ListWorkloads (moving_exec) k) t in
  answer.2 = mkTerm n (tm_out t) ∧ (∀ l, faithful (shown_workloads n) → answer.1 = Ok l → l = shown_workloads n) ∧
  (guard_passes cfg g (call_path CWorkloads) (call_request CWorkloads (cl_authorization k) None) = Ok tt →
   readable (shown_workloads n) → answer.1 = Ok (shown_workloads n)).
Proof. by apply (watched_list (client_ListWorkloads moving_exec) CWorkloads shown_workloads). Qed.

(** A node's tables show a document as running: every workload has an assignment of the document's
    generation and a record, both running. *)
Definition runs_document (n1 n2 : Node) (app : App) : Prop :=
  ∀ w, w ∈ app_Workloads app →
    (∃ a, Assignments (state (fsm_of (nd_task n1))) !! AssignmentKey (app_Metadata app) (w_Name w) = Some a ∧
       as_Status a = AssignmentStatusRunning ∧ TrimSpace (as_Generation a) = AppGeneration app) ∧
    (∃ r, ts_registry (nd_task n2) !! w_Name w = Some r ∧ wrec_Status r = "running").

Lemma values_listed {V} (key : V → string) (m : gmap string V) l :
  l ≡ₚ (map_to_list m).*2 → (∀ i v, m !! i = Some v → key v = i) →
  NoDup (key <$> l) ∧ ∀ v, v ∈ l ↔ m !! key v = Some v.
Proof.
  intros Hl Hk. split.
  - rewrite Hl, <-list_fmap_compose. rewrite (list_fmap_ext _ fst); [apply NoDup_fst_map_to_list|].
    intros i [x v] Hi. cbn. apply Hk, elem_of_map_to_list. by apply list_elem_of_lookup_2 in Hi.
  - intros v. rewrite Hl, list_elem_of_fmap. split.
    + intros ([i x] & -> & Hi%elem_of_map_to_list). cbn. by rewrite (Hk i x Hi).
    + intros Hv. exists (key v, v). split; [done|]. by apply elem_of_map_to_list.
Qed.

Lemma shown_assignments_spec n : keyed n →
  NoDup (ai_Key <$> shown_assignments n) ∧
  ∀ i, i ∈ shown_assignments n ↔ ∃ a, i = assignmentItem a ∧ Assignments (state (fsm_of (nd_task n))) !! as_Key a = Some a.
Proof.
  intros [Ka _]. unfold shown_assignments, ListWorkloadAssignments.
  destruct (values_listed as_Key (Assignments (state (fsm_of (nd_task n))))
    (list_sort (by_key as_Key) (order_assignments (Assignments (state (fsm_of (nd_task n))))))) as [Hnd Hin]; [|done|].
  - rewrite list_sort_perm. apply order_assignments_values.
  - split; [by rewrite <-list_fmap_compose|]. intros i. rewrite list_elem_of_fmap. setoid_rewrite Hin. done.
Qed.
Lemma shown_workloads_spec n : keyed n →
  NoDup (wi_Name <$> shown_workloads n) ∧
  ∀ i, i ∈ shown_workloads n ↔ ∃ r, i = workloadItem r ∧ ts_registry (nd_task n) !! wrec_Name r = Some r.
Proof.
  intros [_ Kr]. unfold shown_workloads, registry_List.
  destruct (values_listed wrec_Name (ts_registry (nd_task n)) (list_sort (by_key wrec_Name) (order_records (ts_registry (nd_task n)))))
    as [Hnd Hin]; [|done|].
  - rewrite list_sort_perm. apply order_records_values.
  - split; [by rewrite <-list_fmap_compose|]. intros i. rewrite list_elem_of_fmap. setoid_rewrite Hin. done.
Qed.

Lemma runs_document_shown n1 n2 app : keyed n1 → keyed n2 →
  all_running app (shown_assignments n1) (shown_workloads n2) ↔ runs_document n1 n2 app.
Proof.
  intros K1 K2. pose proof (proj2 (shown_assignments_spec n1 K1)) as Ha. pose proof (proj2 (shown_workloads_spec n2 K2)) as Hw.
  unfold all_running, runs_document. split; intros Hall w Hin; destruct (Hall w Hin) as [A B]; split.
  - destruct A as (i & (a & -> & Ea)%Ha & Hk & Hs & Hg). cbn in *. rewrite <-Hk. eauto.
  - destruct B as (i & (r & -> & Er)%Hw & Hn & Hs). cbn in *. rewrite <-Hn. eauto.
  - destruct A as (a & Ea & Hs & Hg). pose proof (proj1 K1 _ _ Ea) as Hk. exists (assignmentItem a). split; [|done].
    apply Ha. exists a. by rewrite Hk.
  - destruct B as (r & Er & Hs). pose proof (proj2 K2 _ _ Er) as Hn. exists (workloadItem r). split; [|done].
    apply Hw. exists r. by rewrite Hn.
Qed.

(** Polls move the server on. *)
Definition later (t t' : Term Node) : Prop := ∃ j, tm_outside t' = Nat.iter j evolve (tm_outside t).
#[local] Instance later_preorder : PreOrder later.
Proof.
  split; [intros t; by exists 0|]. intros t1 t2 t3 [i Hi] [j Hj]. exists (j + i). by rewrite Nat.iter_add, Hj, Hi.
Qed.

Lemma expected_some app keys names : plain_names app → app_Workloads app ≠ [] →
  expectedDeployWorkloads (Some app) = (keys, names) → size keys ≠ 0.
Proof.
  intros Hp Hne He. destruct (app_Workloads app) as [|w ws] eqn:Ew; [done|].
  destruct (expected_elements app keys names Hp He) as [Hk _].
  intros Hz%size_empty_inv%leibniz_equiv. assert (AssignmentKey (app_Metadata app) (w_Name w) ∈ keys) as Hin; [|set_solver].
  apply Hk. exists w. rewrite Ew. split; [left|done].
Qed.

(** C39. Waiting with [--watch] reports success only when a poll of the server finds the whole document
    running: every workload has a running assignment of the generation that was submitted, and a
    running record.  The document has workloads, with plain names, and a generation; the tables of
    the server are keyed by their entries, and a listing that it answers during the wait, when it
    can be decoded, is decoded to what it was. *)
Theorem watch_success_means_running app timeout t s t' :
  plain_names app → app_Workloads app ≠ [] → AppGeneration app ≠ "" →
  (∀ n, answering (tm_outside t) n → keyed n ∧ faithful (shown_assignments n) ∧ faithful (shown_workloads n)) →
  watchDeployment moving_exec durationText k (Some app) timeout t = (Ok s, t') →
  ∃ n, tm_outside t' = evolve (evolve n) ∧ runs_document (evolve n) (evolve (evolve n)) app.
Proof.
  intros Hp Hne Hg Hn Hw. destruct (expectedDeployWorkloads (Some app)) as [keys names] eqn:He.
  destruct (watch_ok moving_exec durationText k later app timeout t s t' keys names) as (t0 & assignments & workloads & [j Hj] & Hpo & Hr & _);
    [intros u; exists 1; by rewrite (proj1 (watched_assignments u))|intros u; exists 1; by rewrite (proj1 (watched_workloads u))
    |done|by eapply expected_some|done|].
  exists (tm_outside t0). pose proof Hpo as (t1 & E1 & E2 & _).
  destruct (Hn (evolve (tm_outside t0))) as (K1 & F1 & _); [exists j; by rewrite Hj|].
  destruct (Hn (evolve (evolve (tm_outside t0)))) as (K2 & _ & F2); [exists (Datatypes.S j); by rewrite Hj|].
  destruct (watched_assignments t0) as (A1 & A2 & _). rewrite E1 in A1, A2. cbn in A1. subst t1.
  destruct (watched_workloads (mkTerm (evolve (tm_outside t0)) (tm_out t0))) as (B1 & B2 & _). rewrite E2 in B1, B2. cbn [tm_outside tm_out fst snd] in B1, B2. subst t'.
  split; [done|]. apply runs_document_shown; [done..|].
  rewrite <-(A2 assignments F1 eq_refl), <-(B2 workloads F2 eq_refl). eapply snapshot_running; try done.
  - rewrite (A2 assignments F1 eq_refl). by apply shown_assignments_spec.
  - rewrite (B2 workloads F2 eq_refl). by apply shown_workloads_spec.
Qed.

(** A document that runs when the first poll reads the server ends the wait at once, with success,
    when the guard lets the two listings through and they come back as they are. *)
Theorem watch_sees_running_document app timeout t :
  let n1 := evolve (tm_outside t) in
  let n2 := evolve n1 in
  (0 < timeout)%Z → plain_names app → app_Workloads app ≠ [] → keyed n1 → keyed n2 →
  guard_passes cfg g (call_path CAssignments) (call_request CAssignments (cl_authorization k) None) = Ok tt →
  guard_passes cfg g (call_path CWorkloads) (call_request CWorkloads (cl_authorization k) None) = Ok tt →
  readable (shown_assignments n1) → readable (shown_workloads n2) →
  runs_document n1 n2 app →
  ∃ s, watchDeployment moving_exec durationText k (Some app) timeout t = (Ok s, mkTerm n2 (tm_out t)).
Proof.
  cbn zeta. intros Ht Hp Hne K1 K2 Ga Gw Ra Rw Hr. destruct (expectedDeployWorkloads (Some app)) as [keys names] eqn:He.
  destruct (watched_assignments t) as (A1 & _ & A2). specialize (A2 Ga Ra).
  destruct (watched_workloads (mkTerm (evolve (tm_outside t)) (tm_out t))) as (B1 & _ & B2). specialize (B2 Gw Rw).
  eexists. eapply (watch_at_once moving_exec durationText k app timeout t _ keys names _
    (shown_assignments (evolve (tm_outside t))) (shown_workloads (evolve (evolve (tm_outside t))))); try done.
  - by eapply expected_some.
  - exists (mkTerm (evolve (tm_outside t)) (tm_out t)). split; [|split; [|reflexivity]].
    + by rewrite <-A1, <-A2, <-surjective_pairing.
    + cbn [tm_outside tm_out] in B1, B2. by rewrite <-B2, <-B1, <-surjective_pairing.
  - by apply shown_assignments_spec.
  - by apply shown_workloads_spec.
  - by apply runs_document_shown.
Qed.
End watch.

(** ** Manifests and refused commands *)
Section commands.
Context `{UnicodeLower, Display, Polling} `{Digest} `{GraphLib, ListSort, DslLib, HIRMapper, Manifests}.
Context `{Wire} `{!ApiJson, !CliJson} {S : Type}.
Context (new_http : string → res unit) (exec : string → HttpRequest → SE S HttpResponse).
Context (start_app : string → res unit) (indent : string → string) (readFile : string → string → res string).
Context (readPath : string → res string) (compileFile : string → res (option (list HIRForm))) (durationText : Z → string).
Context (serverURL authToken : string).

(** A command that is refused sends nothing and prints nothing: another resource than an
    application, no file, a file that cannot be read, and, before a deploy that is to be watched,
    a manifest that cannot be parsed. *)
Theorem refused_commands_send_nothing (t : Term S) :
  (∀ resource name namespace json label act, resource ≠ "app" →
     ∃ e, runAppStatusCommand new_http start_app indent serverURL authToken resource name namespace json label act t = (Err e, t)) ∧
  (∀ resource name namespace workloads json label act, resource ≠ "app" →
     ∃ e, runDeployOperationCommand new_http start_app indent serverURL authToken resource name namespace workloads json label act t = (Err e, t)) ∧
  (∀ file json watch timeout, file = "" ∨ (∃ e, readManifestFile readFile file = Err e) →
     ∃ e, apply_command new_http exec start_app indent readFile durationText serverURL authToken file json watch timeout t = (Err e, t)) ∧
  (∀ o e, op_Watch o = true → LoadAppString (filepath_Base (op_File o)) (op_Source o) = Err e →
     ∃ e, runApplyCommand new_http exec start_app indent durationText serverURL authToken o t = (Err e, t)).
Proof.
  split_and!.
  - intros resource name namespace json label act Hr. unfold runAppStatusCommand.
    destruct (String.eqb_spec resource "app"); [done|]. by eexists.
  - intros resource name namespace workloads json label act Hr. unfold runDeployOperationCommand.
    destruct (String.eqb_spec resource "app"); [done|]. by eexists.
  - intros file json watch timeout Hf. unfold apply_command. destruct (String.eqb_spec file ""); [by eexists|].
    destruct Hf as [|[e He]]; [done|]. unfold mbind, SE_bind, of_res. rewrite He. by eexists.
  - intros o e Hw He. unfold runApplyCommand, RunCluster, annotate, mbind, SE_bind, of_res.
    destruct (start_app _); [|by eexists]. destruct (client_New _ _ _); [|by eexists].
    rewrite Hw. unfold loadWatchApp. rewrite He. by eexists.
Qed.

(** [describe node NAME --json] prints the connected node whatever name it is given. *)
Theorem describe_json_ignores_name args (t : Term S) :
  runDescribeNodeCommand new_http exec start_app indent serverURL authToken args true t =
  runDescribeNodeCommand new_http exec start_app indent serverURL authToken [] true t.
Proof. reflexivity. Qed.
End commands.

(** ** Validating before deploying *)
Section validate.
Context `{UnicodeLower, GraphLib, ListSort, DslLib, HIRMapper, Manifests}.
Context `{Wire} `{!Transport} `{Digest, Codec} `{!World, Inspect} `{ReplicaOrder, ApiEnv} `{JwtLib}.
Context `{!Framework, !ApiJson, !SystemEnv}.
Context (readPath : string → res string) (compileFile : string → res (option (list HIRForm))).

Lemma Base_nonempty p : filepath_Base p ≠ "".
Proof.
  unfold filepath_Base. destruct (p =? "")%string; [done|]. case_bool_decide as E; [done|]. by destruct (reverse (before_slash _)).
Qed.

(** Validating a YAML file loads and validates the text in it. *)
Lemma validate_yaml file src : names_file file → EqualFold (Ext file) ".orch" = false →
  readPath (path_Clean file) = Ok src →
  match loadValidatedManifest readPath compileFile file with
  | Ok app => LoadAppString (filepath_Base file) src = Ok app ∧ Validate app = Ok tt
  | Err _ => is_err (LoadAppString (filepath_Base file) src) ∨
             ∃ app, LoadAppString (filepath_Base file) src = Ok app ∧ is_err (Validate app)
  end.
Proof.
  intros Hf He Hr. unfold loadValidatedManifest, LoadAppString, LoadAppBytes, LoadApp, v1_LoadAppFile.
  rewrite (Ext_Base file Hf), He, Hr. destruct (String.eqb_spec file "") as [->|_]; [destruct Hf as (q & c & Hq & _); by destruct q|].
  cbn. destruct (ParseAppYAML src) as [app|e]; cbn; [|left; by eexists].
  destruct (Validate app) as [[]|e] eqn:Hv; cbn; [done|]. right. exists app. split; [done|]. rewrite Hv. by eexists.
Qed.

(** C40. [validate FILE] decides what the server decides first of the same manifest.  Take a file with another
    extension than [.orch], with a base name without blanks around it, and the request that applies it
    (its base name and its text) at a node that serves writes itself.  When [validate] fails, the request is
    refused and the node is unchanged.  When it succeeds, the server refuses the document it loaded for one of two
    reasons only, the preflight of deployments or the replication; otherwise it answers that it accepted this
    document, with the state after those two steps. *)
Theorem validate_agrees_with_server (cfg : ApiConfig) file src n :
  names_file file → EqualFold (Ext file) ".orch" = false →
  TrimSpace (filepath_Base file) = filepath_Base file →
  readPath (path_Clean file) = Ok src → write_target cfg n = Ok None →
  let '(r, n') := deploy_source_handle cfg (mkSourceBody (filepath_Base file) src) n in
  match loadValidatedManifest readPath compileFile file with
  | Err _ => is_err r ∧ n' = n
  | Ok app =>
      nd_sent n' = nd_sent n ∧
      match preflightDeploy app (nd_task n) with
      | (Err _, t) => is_err r ∧ nd_task n' = t
      | (Ok _, t) =>
          nd_task n' = (raft_ApplyDeployApp app t).2 ∧
          match (raft_ApplyDeployApp app t).1 with
          | Err _ => is_err r
          | Ok _ => r = Ok (accepted_app app)
          end
      end
  end.
Proof.
  intros Hf He Ht Hr Hl. pose proof (validate_yaml file src Hf He Hr) as Hv.
  change (deploy_source_handle cfg (mkSourceBody (filepath_Base file) src)) with (handle cfg (CSource (mkSourceBody (filepath_Base file) src))).
  rewrite write_local; [|done|done|cbn; rewrite Ht; apply Base_nonempty|done].
  unfold done_here. cbn [sb_VirtualPath sb_Source]. rewrite Ht. unfold load_app, source_loader.
  assert (∀ app, is_err (Validate app) → ∃ e, SubmitDeploy app (nd_task n) = (Err e, nd_task n)) as Hinv.
  { intros app [e Hve]. unfold SubmitDeploy, try, wrapM, mbind, M_bind, mret, M_ret. rewrite Hve. by eexists. }
  destruct (loadValidatedManifest readPath compileFile file) as [app|e].
  - destruct Hv as [-> Hv]. cbn [wrap]. unfold answered, SubmitDeploy, try, wrapM, mbind, M_bind, mret, M_ret. rewrite Hv. cbn.
    destruct (preflightDeploy app (nd_task n)) as [[u|e] t]; cbn; [|split; [done|]; by split; [eexists|]].
    destruct (raft_ApplyDeployApp app t) as [[u'|e] t']; cbn; (split; [done|]); (split; [done|]); [done|by eexists].
  - destruct Hv as [[e' ->]|(app & -> & [e'' He'']%Hinv)]; cbn [wrap]; [split; [by eexists|by destruct n]|].
    unfold answered. rewrite He''. cbn. split; [by eexists|by destruct n].
Qed.
End validate.

(** The size of a text of bytes uses a unit of the list, without wrapping, and its number of units
    is at least one and below 1024. *)
Theorem formatBytes_fits `{Display} v : (1024 ≤ v < 2 ^ 64)%Z →
  ∃ e name, byte_units !! e = Some name ∧
    formatBytes v = FormatFloat (quotient v (1024 ^ Z.of_nat (S e))) 1 +:+ " " +:+ name ∧
    (1 ≤ v / 1024 ^ Z.of_nat (S e) < 1024)%Z.
Proof.
  intros [Hlo Hhi]. unfold formatBytes. destruct (Z.ltb_spec v 1024); [lia|].
  destruct (bytes_unit 6 (v / 1024) 1024 0) as [d e] eqn:E.
  assert (1 ≤ v / 1024 < 2 ^ 54)%Z as Hn.
  { split; [apply Z.div_le_lower_bound; lia|apply Z.div_lt_upper_bound; [lia|]]. change (1024 * 2 ^ 54)%Z with (2 ^ 64)%Z. lia. }
  assert (bytes_unit 5 (v / 1024) 1024 0 = (d, e)) as E5.
  { revert E. apply bytes_unit_enough. change (1024 ^ Z.of_nat 6)%Z with (2 ^ 60)%Z. lia. }
  destruct (bytes_unit_spec 5 _ _ _ _ _ E5) as (k & -> & Hk & -> & Hr); [|lia|done|].
  - change (1024 ^ (Z.of_nat 5 + 1))%Z with (2 ^ 60)%Z. lia.
  - assert (is_Some (byte_units !! k)) as [name Hname] by (apply lookup_lt_is_Some; cbn; lia).
    exists k, name. cbn [Nat.add]. rewrite Hname. cbn [default]. unfold default.
    rewrite Nat2Z.inj_succ, <-Z.add_1_l, Z.pow_add_r by lia. change (1024 ^ 1)%Z with 1024%Z.
    rewrite <-Z.div_div by (try apply Z.pow_pos_nonneg; lia). done.
Qed.

(** Recent events are the assignments, the newest first. *)
Theorem events_newest_first `{ListSortLaws} (items : list AssignmentItem) :
  list_sort newest_first items ≡ₚ items ∧
  Sorted.Sorted (λ a b, (ai_UpdatedAt b ≤ ai_UpdatedAt a)%Z) (list_sort newest_first items).
Proof.
  assert (∀ a b, cmp_le newest_first a b ↔ (ai_UpdatedAt b ≤ ai_UpdatedAt a)%Z) as Hle.
  { intros a b. unfold cmp_le, newest_first. destruct (Z.ltb_spec (ai_UpdatedAt b) (ai_UpdatedAt a)); [split; [lia|done]|].
    destruct (Z.ltb_spec (ai_UpdatedAt a) (ai_UpdatedAt b)); split; (lia || done). }
  assert (∀ l, Sorted.Sorted (cmp_le newest_first) l → Sorted.Sorted (λ a b, (ai_UpdatedAt b ≤ ai_UpdatedAt a)%Z) l) as Hs.
  { induction 1 as [|a l Hl IH Hd]; constructor; [done|]. destruct Hd; constructor. by apply Hle. }
  split; [apply list_sort_perm|]. apply Hs, list_sort_sorted.
  - intros a b d. rewrite !Hle. lia.
  - intros a b. rewrite !Hle. lia.
Qed.

(** ** Waits *)
Section wait_theorems.
Context `{UnicodeLower, Display, PollingLaws} `{Wire} `{!ApiJson} {S : Type}.
Context (exec : string → HttpRequest → SE S HttpResponse) (durationText : Z → string) (c : Client).

(** Waiting prints nothing and ends right: readiness was answered; the application has the status
    that was asked for; or the error is that it failed (which was not asked for), or the time. *)
Theorem waits_end_right (t : Term S) timeout :
  (∀ out t', waitReady exec durationText c timeout t = (Ok out, t') → ro_Ready out = true ∧ tm_out t' = tm_out t) ∧
  (∀ namespace name target r t', waitAppStatus exec durationText c namespace name target timeout t = (r, t') →
     tm_out t' = tm_out t ∧
     match r with
     | Ok out => ToLower (TrimSpace (ap_Status (ad_AppItem out))) = wait_target target
     | Err e =>
         (timeout ≤ 0)%Z ∨
         (∃ out, e = app_failed name out ∧ ToLower (TrimSpace (ap_Status (ad_AppItem out))) = "failed" ∧
            wait_target target ≠ "failed") ∨
         (∃ lastErr e', e = timed_out durationText "wait app timed out after %s" timeout lastErr e')
     end).
Proof.
  split; [intros out t'; apply waitReady_ok|]. intros namespace name target r t'. apply waitAppStatus_cases.
Qed.
End wait_theorems.

(** ** The theorems at work *)
Import Concrete ApiConcrete.
#[local] Existing Instance offline.
#[local] Instance as_is : UnicodeLower := λ r, r.
#[local] Instance plain_display : Display := {|
  Render _ s := s; table_Render _ rows := String.concat " " (String.concat " " <$> rows);
  kv_Render rows := String.concat " " (String.concat " " <$> rows); ToUpper s := s; FormatFloat _ _ := "1.5";
  quotient _ _ := SpecFloat.S754_zero false; local_time _ := "today"; write_error _ _ := None |}.
(** One attempt. *)
#[local] Instance one_try : Polling := {|
  Retry_for S A _ op s :=
    match op s with (Done a, s') => (RetryDone a, s') | (Permanent e, s') | (Again e, s') => (RetryFailed e, s') end;
  DeadlineExceeded := Errorf "context deadline exceeded" [] |}.
#[local] Instance one_try_laws : PollingLaws.
Proof.
  intros S A timeout op s. exists 1. split; [lia|]. cbn. destruct (op s) as [[] ?]; cbn; eauto.
Qed.
#[local] Instance map_order_laws : ApiEnvLaws.
Proof. by split. Qed.

(** The node that deployed the shop, and someone who waits for it. *)
Definition shop_node : Node := mkNode (deployAppWorkloadsWithOptions cfg shop (mkOptions false) (leading [])).2 [].
Definition settled_on (n : Node) : Node := shop_node.
Definition waiter : Client := mkClient "http://10.0.0.1:17443" "".
Definition fresh_term : Term Node := mkTerm leader_node [].

Lemma shop_keyed n : keyed (settled_on n).
Proof.
  assert (map_Forall (λ key a, as_Key a = key) (Assignments (state (fsm_of (nd_task shop_node)))) ∧
          map_Forall (λ name r, wrec_Name r = name) (ts_registry (nd_task shop_node))) as [Ha Hr]
    by (apply (bool_decide_unpack _); vm_compute; reflexivity).
  split; [exact Ha|exact Hr].
Qed.
Lemma shop_names : plain_names shop.
Proof. split; [by vm_compute|]. repeat constructor; by vm_compute. Qed.
Lemma shop_runs : runs_document shop_node shop_node shop.
Proof.
  intros w Hw. unfold shop in Hw. cbn in Hw.
  repeat (apply elem_of_cons in Hw as [->|Hw]); [..|by apply elem_of_nil in Hw];
    (split; [eexists; split; [vm_compute; reflexivity|by vm_compute]|eexists; split; [vm_compute; reflexivity|reflexivity]]).
Qed.

Definition shop_exec : string → HttpRequest → SE Node HttpResponse := moving_exec leader_config token_guard settled_on.

Lemma shop_answering n0 n : answering settled_on n0 n → n = shop_node.
Proof. by intros [j ->]. Qed.

Lemma assignments_faithful (l : list AssignmentItem) : faithful l.
Proof. intros r b [= <-] [= <-]. reflexivity. Qed.
Lemma workloads_faithful (l : list WorkloadItem) : faithful l.
Proof. intros r b [= <-] [= <-]. reflexivity. Qed.

Lemma watch_success_means_running_witness : ∃ n, runs_document (settled_on n) (settled_on (settled_on n)) shop.
Proof.
  destruct (watchDeployment shop_exec (λ _, "2m") waiter (Some shop) 120 fresh_term) as [[s|e] t'] eqn:E.
  - destruct (watch_success_means_running leader_config token_guard waiter (λ _, "2m") settled_on shop 120 fresh_term s t')
      as (n & _ & Hn).
    + exact shop_names.
    + done.
    + by vm_compute.
    + intros n ->%shop_answering. split; [exact (shop_keyed shop_node)|].
      split; [apply assignments_faithful|apply workloads_faithful].
    + exact E.
    + by exists n.
  - vm_compute in E. discriminate.
Defined.

Lemma assignments_readable (l : list AssignmentItem) : readable l.
Proof. by eexists. Qed.
Lemma workloads_readable (l : list WorkloadItem) : readable l.
Proof. by eexists. Qed.

Lemma watch_sees_running_document_witness :
  ∃ s, watchDeployment shop_exec (λ _, "2m") waiter (Some shop) 120 fresh_term = (Ok s, mkTerm shop_node []).
Proof.
  apply (watch_sees_running_document leader_config token_guard waiter (λ _, "2m") settled_on shop 120 fresh_term).
  - lia.
  - exact shop_names.
  - done.
  - apply shop_keyed.
  - apply shop_keyed.
  - reflexivity.
  - reflexivity.
  - apply assignments_readable.
  - apply workloads_readable.
  - exact shop_runs.
Defined.

Lemma formatBytes_fits_witness : formatBytes 16000000000 = "1.5 GiB".
Proof.
  destruct (formatBytes_fits 16000000000) as (e & name & Hn & -> & Hr); [lia|].
  assert (e = 2) as ->; [|by injection Hn as <-].
  destruct e as [|[|[|e]]]; [vm_compute in Hr; destruct Hr as [_ Hr]; discriminate| |done|].
  - vm_compute in Hr. destruct Hr as [_ Hr]; discriminate.
  - exfalso. assert (1024 ^ 4 ≤ 1024 ^ Z.of_nat (S (S (S (S e)))))%Z as Hp by (apply Z.pow_le_mono_r; lia).
    rewrite Z.div_small in Hr; [lia|]. split; [lia|]. eapply Z.lt_le_trans; [|exact Hp]. reflexivity.
Defined.

(** Waiting for the shop writes nothing. *)
Lemma waits_end_right_witness :
  tm_out (waitAppStatus shop_exec (λ _, "2m") waiter "default" "shop" "running" 120 fresh_term).2 = [].
Proof.
  destruct (waits_end_right shop_exec (λ _, "2m") waiter fresh_term 120) as [_ Hw].
  destruct (waitAppStatus shop_exec (λ _, "2m") waiter "default" "shop" "running" 120 fresh_term) as [r t'] eqn:E.
  exact (proj1 (Hw "default" "shop" "running" r t' E)).
Defined.

(** Every YAML text is the shop's. *)
#[local] Instance shop_yaml : Manifests := {| compileSource _ _ := Ok None; yamlApp _ := Ok shop |}.

(** Validating the shop's manifest, and applying it at the leader. *)
Lemma validate_agrees_with_server_witness :
  loadValidatedManifest (H5 := dsl_lib) (H6 := struct_mapper) (λ _, Ok "kind: App") (λ _, Ok None) "deploy/shop.yaml" =
    Ok (defaultAppMeta shop) ∧
  (deploy_source_handle (H8 := source_loader (H1 := dsl_lib) (H2 := struct_mapper)) leader_config
     (mkSourceBody "shop.yaml" "kind: App") leader_node).1 = Ok (accepted_app shop).
Proof.
  assert (loadValidatedManifest (H5 := dsl_lib) (H6 := struct_mapper) (λ _, Ok "kind: App") (λ _, Ok None) "deploy/shop.yaml" =
    Ok (defaultAppMeta shop)) as Hv by (vm_compute; reflexivity).
  split; [exact Hv|].
  pose proof (validate_agrees_with_server (H2 := dsl_lib) (H3 := struct_mapper) (λ _, Ok "kind: App") (λ _, Ok None) leader_config
    "deploy/shop.yaml" "kind: App" leader_node) as Hw.
  destruct (deploy_source_handle _ _ _) as [r n']. rewrite Hv in Hw.
  destruct Hw as [_ Hw].
  - exists (bytes_of "deploy/shop.yam"), "l"%char. by split.
  - reflexivity.
  - reflexivity.
  - reflexivity.
  - reflexivity.
  - vm_compute in Hw. by destruct Hw as [_ ->].
Defined.
